(* ===== verification/_CoqProject ===== *)
-Q . S2P
Prelude.v
Text.v
Header.v
Canonical.v
RequestTarget.v
Security.v
Primitives.v
E2ee.v
KeySession.v
SecureSession.v
Handshake.v
Input.v
Controller.v
Reboot.v
Sharing.v
Access.v
Media.v
Scheduler.v
Racing.v
Reconnect.v
Channel.v
Binding.v
RelayAuth.v
Relay.v
Net.v
Candidates.v
Observe.v
P2p.v
SignalAuth.v
Signal.v
SignalHub.v
ApiSession.v
ApiServices.v
Ephemeral.v
ApiAccount.v
ApiLogin.v
ApiSecurity.v
ApiDevice.v
ApiAuthority.v
ApiRequest.v
ApiAuth.v
DeviceRuns.v
DeviceRoutes.v
MfaRoutes.v
StepUp.v
Enrollment.v
RecordStore.v
