(* ===== verification/Prelude.v ===== *)
(** * A verification of the remote-control core

    The program is a remote-control system written in Rust. A controller device
    drives a controlled device: an API server keeps accounts, devices and
    sessions, a signalling service introduces the two devices, candidate paths
    (LAN, UDP peer to peer, QUIC relay, TLS relay) are raced, a key exchange makes
    an end-to-end encrypted session, and input, media, clipboard and file messages
    flow over it, if need be through a relay. This library models the code that
    decides what is accepted, in which order, by whom and under which keys, and
    proves that it does so correctly.

    ** How the parts interact

    - crates/remote-protocol: message headers, the canonical length-prefixed
      encoding, request targets, signed structures, permissions, input events,
      candidate messages.
    - crates/remote-crypto: AEAD with a replay window, device identities, the
      signed key exchange, key derivation and key confirmation.
    - crates/remote-core: the secure session, the controller state machine,
      policy, verification codes, the device registry, clipboard, privacy, file
      transfer, resume tokens, media negotiation and display topology.
    - crates/remote-store: the records of the database schema and a repository of them
      in memory.
    - crates/remote-transport: scheduler, path racing, reconnection, data-channel
      frames, candidate validation, observe datagrams, P2P probes.
    - crates/remote-runtime: the handshake that turns a race's winner into a
      secure session.
    - services/relay-server: admits the two ends of a session and forwards between
      them; asks the API whether a device may.
    - services/signal-server: admits devices over web sockets, keeps presence and
      forwards session messages; asks the API whether a device may.
    - services/api-server: sessions, the answers to the two services, short-lived
      state (nonces, login limits, challenges), accounts.

    ** Files

    - [Prelude]: Rust's [Result], machine integers, bytes, big-endian encodings,
      slices, tactics, sequences of calls. [Text]: [str] operations. [Net]:
      [SocketAddr] parsing and printing.
    - [Header] (remote-protocol/src/header.rs), [Canonical] and [RequestTarget]
      (canonical.rs), [Security] (security.rs, permissions.rs).
    - [Primitives]: the cryptographic crates as a class of operations with a class
      of laws, and a concrete instance that satisfies them.
    - [E2ee] (remote-crypto/src/e2ee.rs), [KeySession] (session.rs, identity.rs).
    - [SecureSession] (remote-core/src/session_crypto.rs), [Handshake]
      (remote-runtime/src/handshake.rs), [Input] (input.rs), [Controller]
      (controller/mod.rs), [Reboot] (reboot.rs), [Sharing] (clipboard.rs,
      privacy.rs, file_transfer.rs), [Access] (policy.rs, lib.rs), [Media]
      (media.rs, display.rs).
    - [Scheduler], [Racing], [Reconnect], [Channel], [Binding], [Candidates],
      [Observe], [P2p]: the files of the same names of remote-transport/src.
    - [RelayAuth], [Relay] (relay-server/src/lib.rs): admission and its replay
      cache; the peer table and the tasks of connections as a step relation.
    - [SignalAuth] (signal-server/src/security.rs, backend.rs), [Signal] (lib.rs,
      notify.rs, backend.rs), [SignalHub] (lib.rs): hello and tokens; registry,
      presence and handlers; the tasks of sockets as a step relation.
    - [ApiSession] (api-server/src/model.rs, store.rs, routes/sessions.rs): the
      session tables, the operations of the memory repository and the routes; the
      runs of the service as a step relation in which requests overlap.
      [ApiServices] (routes/internal.rs): the answers to the relay and to the
      signalling service, composed with [RelayAuth] and [Signal]. [Ephemeral]
      (ephemeral.rs, routes/auth.rs): the memory backend of the short-lived state
      and the gate in front of a login.
    - [ApiAccount] (api-server/src/store.rs, model.rs, security.rs): the account
      tables and their operations: sessions and refresh tokens, second factors,
      recovery codes, risk challenges, step-up actions, enrolment. [ApiLogin]
      (store.rs): login challenges and their completion. [ApiAuthority]: the runs of
      these operations, the two transactions of a registration among them, and what holds
      along them. [ApiSecurity] (security.rs): tokens,
      signatures, binding hashes. [ApiRequest] (routes/mod.rs, routes/mfa.rs,
      routes/internal.rs): signed requests and the answer about a device to the
      signalling service. [ApiAuth] (routes/auth.rs): the authentication routes over
      both stores.
    - [ApiDevice] (store.rs): registration of devices under grants, their management
      and the rotation of their keys. [DeviceRuns]: what holds along the runs of these
      operations, and that they are runs of the sessions of [ApiSession].
      [DeviceRoutes] (routes/devices.rs): the device routes over both stores.
      [MfaRoutes] (routes/mfa.rs): second factors, risk challenges, trusted devices.
    - [Enrollment]: a client that logs in with [ApiAuth] and registers its device
      with [DeviceRoutes]. [StepUp]: a client that gets a step-up and uses it.
    - [RecordStore] (remote-store/src/model.rs, memory.rs, repository.rs, the tables of
      lib.rs): the records, their kinds and keys, the repository trait as a class with
      laws, the repository in memory as its instance.

    ** Conventions

    A [Result<T, E>] is [result E T], the question mark operator is the monadic
    bind. A method that takes [&mut self] returns its result and the new state.
    Integers are [Z] with their width stated where it matters; saturating and
    wrapping operations are written out; a clock plus a configured lifetime, which the
    configuration keeps small, is a plain sum. A [str] is the list of its bytes. Maps
    and sets are stdpp's. Time is an argument, as in the code, and so are the
    identifiers drawn at random. Asynchronous functions are modelled around their
    I/O: what is received is an argument, what is sent is part of the result; where
    tasks interleave, a step relation has one step per piece of a task between two
    waits. JSON, Base64 and UUID texts are parameters, with their round trips as
    laws where a theorem needs them.

    ** What the theorems show

    - Secrecy of the session: nonces never repeat under a key, payloads round
      trip, no payload is accepted twice, data flows only after both key
      confirmations, invalidation is final, encodings are injective, transcripts
      bind both messages, and two sides that run the handshake talk to each other, in
      both directions at once, over a network that delays, reorders and loses messages.
    - Candidates and relays: guards accept exactly the first authorized request,
      tokens are bound to what they were issued for, exchanges complete, limits
      hold, and the binding a race hands on is that of a validated pair.
    - The sessions around it: event streams and transport calls of the controller
      are disciplined, the scheduler refines a queue of pending packets, the
      policy fails closed, transfers complete only intact, codecs are exact.
    - The relay forwards only between the two ends of a session, in order, drains,
      and admits an open once; the signalling service admits a hello once, keeps
      one owner per device, delivers notifications in order.
    - The API: the event log of a session is its history whatever the interleaving
      of requests, retries are answered from it, nothing reopens an ended session;
      composed with the services, a relay admits and the signalling service
      forwards only within sessions the controlled device has accepted, and nobody
      once they have ended. Challenges, enrolments and logins can be guessed only
      as often as their limits say (a login between two right passwords).
    - Accounts: the transactions of the routes, interleaved in any order and acting on
      what was read before, are runs of the repository's operations; along every run a
      session in use claims a second factor only when the account has one, and has
      passed one whenever the account has one, unless an enrolment overtook the
      registration of the account (a finding); refresh tokens and recovery codes work
      once; after a change of password or factor no earlier session is in use and no
      earlier token authenticates, at the API or at the signalling service; a signed
      request is accepted once in its window (and again at the last millisecond of it, or
      when it is overtaken on its way to the table of nonces, a finding). A step-up can be
      had with the right factor and its token is good for the one request that was
      named; an enrolment hands over recovery codes that the client can read and use, and
      its answer can be had again although it ended the session.
    - Devices: the key of a device is the one key of its that is in force; a device
      whose key is revoked, or which is unbound, never acts again, its sessions are
      closed and their ends told; a registration repeated after a lost answer gets the
      first answer; keys and devices change only on signed requests, a key only with
      the proof of the new one and a step-up (and only when two readings of the clock
      agree, a finding); what the operations do to the sessions of the device, the
      session service could have done. A client with the right password and factor gets
      its session and its device registered, and is admitted by the signalling service.
    - Records: the repository in memory is one cell per key, whatever the order of the
      operations; listings are complete, ordered and without repetition; append-only
      records stay as first written; every kind has its table of the schema.

    Statements about hashes have the form "equal, or here is a collision".

    ** Bounds and fuel

    Recursion is structural except for text decoders and the removal of dot
    segments, whose fuel is the length of their input and decreases by the bytes
    consumed; that this is enough is proved. Connection numbers of the relay are
    followed up to the 64-bit bound at which they would wrap. The login limit is
    proved for clocks below 2^62 ms.

    ** Not modelled

    Sockets, TLS and QUIC set-up, timers, health endpoints, logging, environment
    variables, zeroisation of secrets, screen capture, codecs and user interfaces:
    their code is I/O or a call into a library. The PostgreSQL and Redis backends
    run SQL and Lua in external services; their memory counterparts are modelled. The
    QUIC driver of remote-runtime, the iOS bridge and the desktop application are not
    modelled. *)

From stdpp Require Export base list gmap strings.
From Stdlib Require Export ZArith Lia Strings.Byte.
#[global] Open Scope Z_scope.

(** ** Results

    Rust's [Result<T, E>], with the error type first so that [result E] is a
    monad in the sense of stdpp's [MRet]/[MBind]/[FMap] classes: the [?]
    operator is the monadic bind [x ← c; k]. *)
Inductive result (E T : Type) : Type :=
| Ok (t : T)
| Err (e : E).
Arguments Ok {E T} _.
Arguments Err {E T} _.

#[global] Instance result_ret {E} : MRet (result E) := λ T t, Ok t.
#[global] Instance result_bind {E} : MBind (result E) := λ T U f c,
  match c with Ok t => f t | Err e => Err e end.
#[global] Instance result_fmap {E} : FMap (result E) := λ T U f c,
  match c with Ok t => Ok (f t) | Err e => Err e end.

#[global] Instance result_eq_dec {E T} `{EqDecision E, EqDecision T} :
  EqDecision (result E T).
Proof. solve_decision. Defined.

(** [if !b { return Err(e); }]: continue only when [b] holds. *)
Definition ensure {E} (b : bool) (e : E) : result E unit :=
  if b then Ok tt else Err e.

(** [Option::ok_or]. *)
Definition ok_or {E T} (o : option T) (e : E) : result E T :=
  match o with Some t => Ok t | None => Err e end.

(** [Result::map_err]. *)
Definition map_err {E F T} (f : E → F) (r : result E T) : result F T :=
  match r with Ok t => Ok t | Err e => Err (f e) end.

(** [Result::ok]. *)
Definition ok {E T} (r : result E T) : option T :=
  match r with Ok t => Some t | Err _ => None end.

Definition is_ok {E T} (r : result E T) : bool :=
  match r with Ok _ => true | Err _ => false end.

(** The value of a computation that succeeds. *)
Definition is_ok_ex {E T} (r : result E T) : is_ok r = true → {t | r = Ok t} :=
  match r with
  | Ok t => λ _, exist _ t eq_refl
  | Err e => λ H, match Bool.diff_false_true H with end
  end.

Section result_lemmas.
Context {E F T U : Type}.

Lemma bind_ok (c : result E T) (f : T → result E U) u :
  (c ≫= f) = Ok u ↔ ∃ t, c = Ok t ∧ f t = Ok u.
Proof. destruct c; simpl; naive_solver. Qed.

Lemma bind_err (c : result E T) (f : T → result E U) e :
  (c ≫= f) = Err e ↔ c = Err e ∨ ∃ t, c = Ok t ∧ f t = Err e.
Proof. destruct c; simpl; naive_solver. Qed.

Lemma ensure_ok b (e : E) u : ensure b e = Ok u ↔ b = true.
Proof. destruct b, u; simpl; naive_solver. Qed.

Lemma ensure_err b (e e' : E) : ensure b e = Err e' ↔ b = false ∧ e = e'.
Proof. destruct b; simpl; naive_solver. Qed.

Lemma ok_or_ok (o : option T) (e : E) t : ok_or o e = Ok t ↔ o = Some t.
Proof. destruct o; simpl; naive_solver. Qed.

Lemma map_err_ok (f : E → F) (r : result E T) t :
  map_err f r = Ok t ↔ r = Ok t.
Proof. destruct r; simpl; naive_solver. Qed.

Lemma map_err_err (f : E → F) (r : result E T) e' :
  map_err f r = Err e' ↔ ∃ e, r = Err e ∧ f e = e'.
Proof. destruct r; simpl; naive_solver. Qed.
End result_lemmas.

(** [bool_decide] as a test in a condition chain. *)
Notation "a =! b" := (bool_decide (a = b)) (at level 70, no associativity).
Notation "a ≠! b" := (negb (bool_decide (a = b))) (at level 70, no associativity).

(** ** Automation *)
Create HintDb rctl discriminated.

(** Split the boolean conditions of a guard into propositions. *)
Ltac split_bools :=
  repeat match goal with
  | H : _ && _ = true |- _ => apply andb_true_iff in H as [? ?]
  | H : _ || _ = false |- _ => apply orb_false_iff in H as [? ?]
  | H : negb _ = true |- _ => apply negb_true_iff in H
  | H : negb _ = false |- _ => apply negb_false_iff in H
  | H : bool_decide _ = true |- _ => apply bool_decide_eq_true_1 in H
  | H : bool_decide _ = false |- _ => apply bool_decide_eq_false_1 in H
  | H : (_ <? _) = true |- _ => apply Z.ltb_lt in H
  | H : (_ <? _) = false |- _ => apply Z.ltb_ge in H
  | H : (_ <=? _) = true |- _ => apply Z.leb_le in H
  | H : (_ <=? _) = false |- _ => apply Z.leb_gt in H
  | H : (_ =? _) = true |- _ => apply Z.eqb_eq in H
  | H : (_ =? _) = false |- _ => apply Z.eqb_neq in H
  end.

(** Turn [c = Ok v], for [c] a chain of binds and guards, into the conditions
    under which the code gets that far. *)
Ltac invert_ok :=
  repeat match goal with
  | H : (_ ≫= _) = Ok _ |- _ => apply bind_ok in H as (? & ? & H)
  | H : ensure _ _ = Ok _ |- _ => apply ensure_ok in H
  | H : ok_or _ _ = Ok _ |- _ => apply ok_or_ok in H
  | H : map_err _ _ = Ok _ |- _ => apply map_err_ok in H
  | H : Ok _ = Ok _ |- _ => injection H as H
  | H : Err _ = Ok _ |- _ => discriminate H
  | H : Ok _ = Err _ |- _ => discriminate H
  | H : Some _ = Some _ |- _ => injection H as H
  | H : None = Some _ |- _ => discriminate H
  | H : mret _ = Ok _ |- _ => unfold mret, result_ret in H
  | x : unit |- _ => destruct x
  end; split_bools; subst.

(** Case analysis on the innermost test of the goal or of a hypothesis. *)
Ltac break_match :=
  match goal with
  | |- context [match ?x with _ => _ end] =>
      lazymatch x with context [match _ with _ => _ end] => fail | _ => destruct x eqn:? end
  | H : context [match ?x with _ => _ end] |- _ =>
      lazymatch x with context [match _ with _ => _ end] => fail | _ => destruct x eqn:? end
  end.

(** ** Machine integers

    An unsigned [w]-bit integer is a [Z] in [0, 2^w); [usize] is 64 bits wide
    (every supported target is a 64-bit platform). *)
Definition in_u (w z : Z) : Prop := 0 ≤ z < 2 ^ w.
Abbreviation in_u8 := (in_u 8).
Abbreviation in_u16 := (in_u 16).
Abbreviation in_u32 := (in_u 32).
Abbreviation in_u64 := (in_u 64).
Abbreviation in_u128 := (in_u 128).

Definition u_max (w : Z) : Z := 2 ^ w - 1.

(** [saturating_add], [saturating_sub], [abs_diff] on unsigned integers. *)
Definition sat_add (w a b : Z) : Z := Z.min (a + b) (u_max w).
Definition sat_sub (a b : Z) : Z := Z.max 0 (a - b).
Definition abs_diff (a b : Z) : Z := Z.abs (a - b).

Lemma sat_add_small w a b : a + b < 2 ^ w → sat_add w a b = a + b.
Proof. unfold sat_add, u_max. lia. Qed.

(** No branch of a chain of checks gives this error. *)
Ltac refute_err :=
  repeat match goal with
  | H : (_ ≫= _) = Err _ |- _ => apply bind_err in H as [H|(? & _ & H)]
  | H : ensure _ _ = Err _ |- _ => apply ensure_err in H as [_ H]; discriminate H
  | H : ok_or ?o _ = Err _ |- _ => destruct o; discriminate H
  | H : map_err _ _ = Err _ |- _ => apply map_err_err in H as (? & _ & H); discriminate H
  | H : Ok _ = Err _ |- _ => discriminate H
  end.

(** Pass a guard whose condition is decided by the context. *)
Ltac pass :=
  apply bind_ok; exists tt; split;
  [apply ensure_ok; rewrite ?negb_orb, ?negb_involutive, ?andb_true_iff, ?negb_true_iff,
     ?bool_decide_eq_true, ?bool_decide_eq_false, ?Z.eqb_eq, ?Z.eqb_neq, ?Z.ltb_ge, ?Nat.eqb_eq;
   unfold sat_sub; first [done | lia | by split_and! | by intros [? ?]]|].

(** Prove that a chain of conditions comes out as it should, one by one; what the
    context does not decide is left as a proposition. *)
Ltac guards :=
  lazymatch goal with
  | |- negb _ = true => apply negb_true_iff; guards
  | |- negb _ = false => apply negb_false_iff; guards
  | |- _ || _ = false => apply orb_false_intro; guards
  | |- _ && _ = true => apply andb_true_intro; split; guards
  | |- bool_decide _ = true => apply bool_decide_eq_true_2; try done
  | |- bool_decide _ = false => apply bool_decide_eq_false_2; try done
  | |- (_ =? _) = true => apply Z.eqb_eq; try first [done | lia]
  | |- (_ =? _) = false => apply Z.eqb_neq; try first [done | lia]
  | |- (_ <? _) = true => apply Z.ltb_lt; try first [done | lia]
  | |- (_ <? _) = false => apply Z.ltb_ge; try first [done | lia]
  | |- (_ <=? _) = true => apply Z.leb_le; try first [done | lia]
  | |- (_ <=? _) = false => apply Z.leb_gt; try first [done | lia]
  | |- _ => try done
  end.

Definition len {A} (l : list A) : Z := Z.of_nat (length l).

Lemma len_nonneg {A} (l : list A) : 0 ≤ len l.
Proof. unfold len; lia. Qed.

Lemma len_app {A} (l k : list A) : len (l ++ k) = len l + len k.
Proof. unfold len; rewrite length_app; lia. Qed.

Lemma len_cons {A} (x : A) (l : list A) : len (x :: l) = 1 + len l.
Proof. unfold len; simpl; lia. Qed.

Lemma len_nil {A} : len (@nil A) = 0.
Proof. reflexivity. Qed.

Lemma len_zero_nil {A} (l : list A) : len l = 0 → l = [].
Proof. destruct l; [done|]. unfold len; cbn. lia. Qed.

Lemma len_length {A} (l : list A) n : length l = n → len l = Z.of_nat n.
Proof. by intros <-. Qed.

#[global] Arguments len : simpl never.
Create Rewrite HintDb rctl_len.
#[export] Hint Rewrite @len_app @len_cons @len_nil : rctl_len.

(** ** Bytes

    A Rust [u8] is the type [byte] of 256 constructors; a slice, a [Vec<u8>] or
    a fixed-size array is a list of them. A Rust [str] is the list of its UTF-8
    bytes, which is also what its equality and ordering compare. *)
Abbreviation bytes := (list byte).
Abbreviation rstr := (list byte) (only parsing).

(** A string literal. *)
Definition str (s : string) : rstr := String.list_byte_of_string s.
#[global] Arguments str : simpl never.

#[global] Instance byte_eq_dec : EqDecision byte := Byte.byte_eq_dec.

Definition byte_val (b : byte) : Z := Z.of_N (Byte.to_N b).
Definition byte_of (z : Z) : byte :=
  match Byte.of_N (Z.to_N (z mod 256)) with Some b => b | None => x00 end.

Lemma byte_val_range b : 0 ≤ byte_val b < 256.
Proof. unfold byte_val. pose proof (Byte.to_N_bounded b). lia. Qed.

Lemma byte_of_val b : byte_of (byte_val b) = b.
Proof.
  unfold byte_of. rewrite Z.mod_small by apply byte_val_range.
  unfold byte_val. rewrite N2Z.id, Byte.of_to_N. reflexivity.
Qed.

Lemma byte_val_of z : byte_val (byte_of z) = z mod 256.
Proof.
  unfold byte_of, byte_val.
  pose proof (Z.mod_pos_bound z 256 ltac:(lia)) as Hz.
  destruct (Byte.of_N _) as [b|] eqn:Hb.
  - apply Byte.to_of_N in Hb. rewrite Hb. lia.
  - apply Byte.of_N_None_iff in Hb. lia.
Qed.

#[global] Instance byte_val_inj : Inj (=) (=) byte_val.
Proof. intros a b H. rewrite <-(byte_of_val a), H. apply byte_of_val. Qed.

#[global] Instance byte_countable : Countable byte.
Proof.
  refine (inj_countable' Byte.to_N (λ n, default x00 (Byte.of_N n)) _).
  intros b. rewrite Byte.of_to_N. reflexivity.
Defined.

(** [to_be_bytes] of an [n]-byte integer, and [from_be_bytes]. *)
Fixpoint be_bytes (n : nat) (z : Z) : bytes :=
  match n with
  | O => []
  | S n => byte_of (z / 2 ^ (8 * Z.of_nat n)) :: be_bytes n z
  end.

Fixpoint be_val_acc (acc : Z) (bs : bytes) : Z :=
  match bs with
  | [] => acc
  | b :: bs => be_val_acc (acc * 256 + byte_val b) bs
  end.
Definition be_val (bs : bytes) : Z := be_val_acc 0 bs.

Lemma be_bytes_length n z : length (be_bytes n z) = n.
Proof. induction n; simpl; auto. Qed.

Lemma be_bytes_len n z : len (be_bytes n z) = Z.of_nat n.
Proof. unfold len. by rewrite be_bytes_length. Qed.

Lemma pow8_succ (n : nat) : 2 ^ (8 * Z.of_nat (S n)) = 256 * 2 ^ (8 * Z.of_nat n).
Proof.
  rewrite Nat2Z.inj_succ, Z.mul_succ_r, Z.pow_add_r by lia. change (2 ^ 8) with 256. lia.
Qed.

Lemma be_val_acc_spec acc bs :
  be_val_acc acc bs = acc * 2 ^ (8 * Z.of_nat (length bs)) + be_val_acc 0 bs.
Proof.
  revert acc. induction bs as [|b bs IH]; intros acc; cbn [be_val_acc length].
  - change (2 ^ (8 * Z.of_nat 0)) with 1. lia.
  - rewrite IH, (IH (0 * 256 + _)), pow8_succ. lia.
Qed.

Lemma be_val_cons b bs :
  be_val (b :: bs) = byte_val b * 2 ^ (8 * Z.of_nat (length bs)) + be_val bs.
Proof. unfold be_val. cbn [be_val_acc]. rewrite be_val_acc_spec. lia. Qed.

Lemma be_val_range bs : 0 ≤ be_val bs < 2 ^ (8 * Z.of_nat (length bs)).
Proof.
  induction bs as [|b bs IH]; [cbv; split; congruence|].
  rewrite be_val_cons. cbn [length]. rewrite pow8_succ.
  pose proof (byte_val_range b). nia.
Qed.

(** Decoding an encoded integer gives it back, modulo its width. *)
Lemma be_val_bytes n z : be_val (be_bytes n z) = z mod 2 ^ (8 * Z.of_nat n).
Proof.
  induction n as [|n IH].
  - change (2 ^ (8 * Z.of_nat 0)) with 1. rewrite Z.mod_1_r. reflexivity.
  - cbn [be_bytes]. rewrite be_val_cons, be_bytes_length, IH, byte_val_of, pow8_succ.
    set (p := 2 ^ (8 * Z.of_nat n)).
    assert (0 < p) by (apply Z.pow_pos_nonneg; lia).
    rewrite (Z.mul_comm 256 p), Z.rem_mul_r by lia. lia.
Qed.

Lemma be_val_bytes_small n z :
  in_u (8 * Z.of_nat n) z → be_val (be_bytes n z) = z.
Proof. intros Hz. rewrite be_val_bytes. by apply Z.mod_small. Qed.

Lemma be_bytes_add_high n z k :
  be_bytes n (z + k * 2 ^ (8 * Z.of_nat n)) = be_bytes n z.
Proof.
  assert (∀ m, (m ≤ n)%nat → be_bytes m (z + k * 2 ^ (8 * Z.of_nat n)) = be_bytes m z) as H.
  { induction m as [|m IH]; intros Hm; cbn [be_bytes]; [done|].
    rewrite IH by lia. f_equal.
    set (p := 2 ^ (8 * Z.of_nat m)).
    assert (0 < p) by (apply Z.pow_pos_nonneg; lia).
    replace (8 * Z.of_nat n) with (8 * Z.of_nat m + (8 * (Z.of_nat n - Z.of_nat m))) by lia.
    rewrite Z.pow_add_r by lia. fold p.
    replace (z + k * (p * 2 ^ (8 * (Z.of_nat n - Z.of_nat m))))
      with (z + (k * 2 ^ (8 * (Z.of_nat n - Z.of_nat m))) * p) by lia.
    rewrite Z.div_add by lia. apply byte_val_inj. rewrite !byte_val_of.
    replace (8 * (Z.of_nat n - Z.of_nat m))
      with (8 + 8 * (Z.of_nat n - Z.of_nat m - 1)) by lia.
    rewrite Z.pow_add_r by lia. change (2 ^ 8) with 256.
    rewrite (Z.mul_comm 256), Z.mul_assoc. apply Z.mod_add. lia. }
  apply H. done.
Qed.

(** Encoding a decoded integer gives the bytes back. *)
Lemma be_bytes_val bs : be_bytes (length bs) (be_val bs) = bs.
Proof.
  induction bs as [|b bs IH]; [done|].
  cbn [length be_bytes]. rewrite be_val_cons. f_equal.
  - pose proof (be_val_range bs). pose proof (byte_val_range b).
    rewrite Z.add_comm, Z.div_add by lia. rewrite Z.div_small by done.
    apply byte_of_val.
  - rewrite Z.add_comm, be_bytes_add_high. exact IH.
Qed.

Lemma be_bytes_val' n bs : length bs = n → be_bytes n (be_val bs) = bs.
Proof. intros <-. apply be_bytes_val. Qed.

Lemma be_bytes_inj n a b :
  in_u (8 * Z.of_nat n) a → in_u (8 * Z.of_nat n) b →
  be_bytes n a = be_bytes n b → a = b.
Proof.
  intros Ha Hb H. apply (f_equal be_val) in H. by rewrite !be_val_bytes_small in H.
Qed.

#[global] Arguments be_bytes : simpl never.
#[global] Arguments be_val : simpl never.
#[export] Hint Rewrite be_bytes_len be_bytes_length : rctl_len.

(** [&input[a..b]], where the code has checked the bounds. *)
Definition slice {A} (l : list A) (a b : nat) : list A := take (b - a) (drop a l).

Lemma slice_length {A} (l : list A) a b :
  (b ≤ length l)%nat → length (slice l a b) = (b - a)%nat.
Proof. intros. unfold slice. rewrite length_take, length_drop. lia. Qed.

(** Reading a field at its offset in a concatenation. *)
Lemma slice_app_skip {A} (l k : list A) a b n :
  length l = n → (n ≤ a)%nat → slice (l ++ k) a b = slice k (a - n) (b - n).
Proof.
  intros <- Hn. unfold slice. rewrite drop_app_ge by done. f_equal. lia.
Qed.

Lemma slice_app_here {A} (l k : list A) n :
  length l = n → slice (l ++ k) 0 n = l.
Proof.
  intros <-. unfold slice. rewrite drop_0, Nat.sub_0_r. by apply take_app_length.
Qed.

Lemma slice_here {A} (l : list A) n : length l = n → slice l 0 n = l.
Proof.
  intros <-. unfold slice. rewrite drop_0, Nat.sub_0_r. by apply take_ge.
Qed.

(** Consecutive slices of a buffer concatenate. *)
Lemma slice_app_slice {A} (l : list A) a b c :
  (a ≤ b)%nat → (b ≤ c)%nat → slice l a b ++ slice l b c = slice l a c.
Proof.
  intros. unfold slice. replace (drop b l) with (drop (b - a) (drop a l)).
  - rewrite take_take_drop. f_equal. lia.
  - rewrite drop_drop. f_equal. lia.
Qed.

(** ** Boolean quantifiers over lists *)
Lemma forallb_true_iff {A} (f : A → bool) l :
  forallb f l = true ↔ ∀ x, x ∈ l → f x = true.
Proof. rewrite forallb_forall. by setoid_rewrite list_elem_of_In. Qed.

Lemma forallb_false_iff {A} (f : A → bool) l :
  forallb f l = false ↔ ∃ x, x ∈ l ∧ f x = false.
Proof.
  induction l as [|x l IH]; cbn.
  - split; [done|]. intros (x & Hx & _). by apply elem_of_nil in Hx.
  - rewrite andb_false_iff, IH. setoid_rewrite elem_of_cons. naive_solver.
Qed.

Lemma existsb_false_iff {A} (f : A → bool) l :
  existsb f l = false ↔ ∀ x, x ∈ l → f x = false.
Proof.
  induction l as [|x l IH]; cbn.
  - split; [|done]. intros _ x Hx. by apply elem_of_nil in Hx.
  - rewrite orb_false_iff, IH. setoid_rewrite elem_of_cons. naive_solver.
Qed.

(** ** Sequences of calls on a shared state *)

Section runs.
Context {T A B : Type} (f : T → A → B * T).

(** The answers to a sequence of calls and the state they leave. *)
Fixpoint runs (s : T) (l : list A) : list B * T :=
  match l with
  | [] => ([], s)
  | a :: l => let '(b, s) := f s a in let '(bs, s) := runs s l in (b :: bs, s)
  end.

Lemma runs_cons s a l :
  runs s (a :: l) = ((f s a).1 :: (runs (f s a).2 l).1, (runs (f s a).2 l).2).
Proof. cbn. destruct (f s a) as [b s']. cbn. by destruct (runs s' l). Qed.

Lemma runs_app s l k :
  runs s (l ++ k) = ((runs s l).1 ++ (runs (runs s l).2 k).1, (runs (runs s l).2 k).2).
Proof.
  revert s. induction l as [|a l IH]; intros s; [cbn; by destruct (runs s k)|]. cbn [app].
  by rewrite !runs_cons, IH.
Qed.

Lemma runs_lookup s l i a :
  l !! i = Some a → (runs s l).1 !! i = Some (f (runs s (take i l)).2 a).1.
Proof.
  revert s i. induction l as [|a' l IH]; intros s i Hi; [done|].
  rewrite runs_cons. destruct i as [|i]; cbn in Hi; [by injection Hi as ->|].
  cbn [fst lookup list_lookup take firstn]. rewrite runs_cons. by apply IH.
Qed.

Lemma runs_length s l : length (runs s l).1 = length l.
Proof. revert s. induction l as [|a l IH]; intros s; [done|]. rewrite runs_cons. cbn. by rewrite IH. Qed.

(** The answers after the [i]th call. *)
Lemma runs_lookup_after s l i j a :
  l !! i = Some a → (i < j)%nat →
  (runs s l).1 !! j = (runs (f (runs s (take i l)).2 a).2 (drop (S i) l)).1 !! (j - S i)%nat.
Proof.
  intros Hi Hij. rewrite <-(take_drop_middle _ _ _ Hi) at 1. rewrite runs_app, runs_cons. cbn [fst].
  pose proof (lookup_lt_Some _ _ _ Hi). rewrite lookup_app_r; rewrite runs_length, length_take; [|lia].
  by replace (j - i `min` length l)%nat with (S (j - S i)) by lia.
Qed.

(** Every call pays for its answer out of a potential, while an invariant holds. *)
Lemma runs_cost (I : T → Prop) (cost : A → B → nat) (pot : T → nat) s l :
  I s → (∀ s a, a ∈ l → I s → I (f s a).2 ∧ (cost a (f s a).1 + pot (f s a).2 ≤ pot s)%nat) →
  (sum_list (zip_with cost l (runs s l).1) + pot (runs s l).2 ≤ pot s)%nat.
Proof.
  revert s. induction l as [|a l IH]; intros s Hs Hf; [done|]. rewrite runs_cons. cbn [fst snd zip_with sum_list].
  destruct (Hf s a (list_elem_of_here _ _) Hs) as [Hi Hc].
  assert (∀ s' a', a' ∈ l → I s' → I (f s' a').2 ∧ (cost a' (f s' a').1 + pot (f s' a').2 ≤ pot s')%nat) as Hl
    by (intros s' a' Ha; apply Hf; by right).
  specialize (IH (f s a).2 Hi Hl). cbn in *. lia.
Qed.

Lemma runs_inv (I : T → Prop) s l :
  I s → (∀ s a, a ∈ l → I s → I (f s a).2) → I (runs s l).2.
Proof.
  revert s. induction l as [|a l IH]; intros s Hs Hf; [done|].
  rewrite runs_cons. apply IH; [apply Hf; [by left|done]|]. intros s' a' Ha. apply Hf. by right.
Qed.

(** What the [i]th call establishes and the calls up to the [j]th keep. *)
Lemma runs_between (I : T → Prop) s l i j a :
  l !! i = Some a → (i < j)%nat → I (f (runs s (take i l)).2 a).2 →
  (∀ m b s', (i < m < j)%nat → l !! m = Some b → I s' → I (f s' b).2) → I (runs s (take j l)).2.
Proof.
  intros Hi Hij Ha Hk. rewrite <-(take_drop i (take j l)), take_take, Nat.min_l by lia.
  rewrite (drop_S _ a) by (by rewrite lookup_take_lt by lia). rewrite runs_app, runs_cons. cbn [snd].
  apply runs_inv; [done|]. intros s' b Hb Hs'. apply list_elem_of_lookup in Hb as [m Hm].
  rewrite lookup_drop in Hm. apply lookup_take_Some in Hm as [Hm Hlt]. apply (Hk (S i + m)%nat b); [lia|done..].
Qed.
End runs.

(** [iter.map(f).collect::<Result<Vec<_>, _>>()]. *)
Fixpoint collect {E A B} (f : A → result E B) (l : list A) : result E (list B) :=
  match l with
  | [] => Ok []
  | a :: l => b ← f a; bs ← collect f l; Ok (b :: bs)
  end.

Lemma collect_ok {E A B} (f : A → result E B) l r :
  collect f l = Ok r → Forall2 (λ a b, f a = Ok b) l r.
Proof.
  revert r. induction l as [|a l IH]; cbn; intros r H; [by simplify_eq|].
  invert_ok. constructor; [done|]. by apply IH.
Qed.

Lemma collect_map {E A B} (f : A → result E B) (g : B → A) r :
  Forall (λ b, f (g b) = Ok b) r → collect f (g <$> r) = Ok r.
Proof. induction 1 as [|b r Hb _ IH]; cbn; [done|]. rewrite Hb. cbn. by rewrite IH. Qed.

(** An insertion adds at most one entry. *)
Lemma size_insert_le `{Countable K} {A} (m : gmap K A) k v : (size (<[k := v]> m) ≤ S (size m))%nat.
Proof.
  destruct (m !! k) eqn:E; [rewrite map_size_insert_Some by eauto; lia|].
  by rewrite map_size_insert_None.
Qed.
