(* ===== verification/Text.v ===== *)
(** * Strings of the Rust standard library

    A [str] is the list of its UTF-8 bytes. This file models the operations of
    the standard library's [str] that the program uses on them: decoding into
    characters, white space and control characters, searching and splitting,
    character boundaries, hexadecimal digits, and the order of strings with the
    ordered maps keyed by them. *)

From stdpp Require Import sorting.
From S2P Require Import Prelude.

(** ** Characters *)

(** The low six bits of a continuation byte. *)
Definition cont_bits (b : byte) : Z := Z.land (byte_val b) 63.

(** [str::chars], the decoder of [core::str::next_code_point]: the length of a
    character is read from its first byte. *)
Fixpoint chars_fuel (fuel : nat) (s : rstr) : list Z :=
  match fuel, s with
  | S fuel, x :: s =>
      let v := byte_val x in
      if v <? 128 then v :: chars_fuel fuel s
      else if v <? 224 then
        match s with
        | y :: s => Z.lor (Z.shiftl (Z.land v 31) 6) (cont_bits y) :: chars_fuel fuel s
        | [] => []
        end
      else if v <? 240 then
        match s with
        | y :: z :: s =>
            Z.lor (Z.shiftl (Z.land v 31) 12) (Z.lor (Z.shiftl (cont_bits y) 6) (cont_bits z))
            :: chars_fuel fuel s
        | _ => []
        end
      else
        match s with
        | y :: z :: w :: s =>
            Z.lor (Z.shiftl (Z.land v 7) 18)
              (Z.lor (Z.shiftl (Z.lor (Z.shiftl (cont_bits y) 6) (cont_bits z)) 6) (cont_bits w))
            :: chars_fuel fuel s
        | _ => []
        end
  | _, _ => []
  end.
Definition chars (s : rstr) : list Z := chars_fuel (length s) s.

(** [String::from_utf8]: the byte strings that are valid UTF-8 (no overlong
    form, no surrogate, nothing above U+10FFFF). *)
Definition byte_in (lo hi : Z) (b : byte) : bool := (lo <=? byte_val b) && (byte_val b <=? hi).

Fixpoint utf8_valid_fuel (fuel : nat) (s : bytes) : bool :=
  match fuel, s with
  | _, [] => true
  | O, _ => false
  | S fuel, x :: s =>
      if byte_val x <? 128 then utf8_valid_fuel fuel s
      else match s with
           | y :: s2 =>
               if byte_in 0xC2 0xDF x then byte_in 0x80 0xBF y && utf8_valid_fuel fuel s2
               else match s2 with
                    | z :: s3 =>
                        if byte_in 0xE0 0xEF x then
                          byte_in (if x =! xe0 then 0xA0 else 0x80) (if x =! xed then 0x9F else 0xBF) y
                          && byte_in 0x80 0xBF z && utf8_valid_fuel fuel s3
                        else match s3 with
                             | w :: s4 =>
                                 byte_in 0xF0 0xF4 x
                                 && byte_in (if x =! xf0 then 0x90 else 0x80) (if x =! xf4 then 0x8F else 0xBF) y
                                 && byte_in 0x80 0xBF z && byte_in 0x80 0xBF w
                                 && utf8_valid_fuel fuel s4
                             | [] => false
                             end
                    | [] => false
                    end
           | [] => false
           end
  end.
Definition utf8_valid (s : bytes) : bool := utf8_valid_fuel (length s) s.

Lemma utf8_valid_ascii s : forallb (λ b, byte_val b <? 128) s = true → utf8_valid s = true.
Proof.
  unfold utf8_valid. induction s as [|x s IH]; cbn; [done|].
  intros [Hx Hs]%andb_true_iff. rewrite Hx. by apply IH.
Qed.

(** [char::is_whitespace]: the Unicode property White_Space. *)
Definition is_whitespace (c : Z) : bool :=
  (9 <=? c) && (c <=? 13) || (c =? 32) || (c =? 0x85) || (c =? 0xA0) || (c =? 0x1680)
  || (0x2000 <=? c) && (c <=? 0x200A) || (c =? 0x2028) || (c =? 0x2029) || (c =? 0x202F)
  || (c =? 0x205F) || (c =? 0x3000).

(** [char::is_control]: the category Cc. *)
Definition is_control (c : Z) : bool := (c <=? 31) || (127 <=? c) && (c <=? 159).

(** [s.trim().is_empty()]. *)
Definition is_blank (s : rstr) : bool := forallb is_whitespace (chars s).

(** ** Searching: ASCII characters are single bytes of the encoding *)

(** [s.contains(c)] for an ASCII character. *)
Definition contains_byte (c : byte) (s : rstr) : bool := bool_decide (c ∈ s).

(** [s.ends_with(c)] for an ASCII character. *)
Definition ends_with_byte (c : byte) (s : rstr) : bool := last s =! Some c.

(** [s.split_once(c)] for an ASCII character: around its first occurrence. *)
Fixpoint split_once (c : byte) (s : rstr) : option (rstr * rstr) :=
  match s with
  | [] => None
  | x :: s =>
      if x =! c then Some ([], s)
      else match split_once c s with Some (a, b) => Some (x :: a, b) | None => None end
  end.

Lemma split_once_app c a b : c ∉ a → split_once c (a ++ c :: b) = Some (a, b).
Proof.
  intros Hc. induction a as [|x a IH]; cbn.
  - by rewrite bool_decide_eq_true_2.
  - rewrite bool_decide_eq_false_2 by set_solver. rewrite IH by set_solver. done.
Qed.

Lemma split_once_some c s a b : split_once c s = Some (a, b) → s = a ++ c :: b ∧ c ∉ a.
Proof.
  revert a b. induction s as [|x s IH]; intros a b H; cbn in H; [done|].
  case_bool_decide as Hx; simplify_eq; [split; [done|set_solver]|].
  destruct (split_once c s) as [[a' b']|]; simplify_eq.
  destruct (IH _ _ eq_refl) as [-> ?]. split; [done|set_solver].
Qed.

(** [s.split(c)] for an ASCII character. *)
Fixpoint split_on (sep : byte → bool) (s : rstr) : list rstr :=
  match s with
  | [] => [[]]
  | x :: s =>
      if sep x then [] :: split_on sep s
      else match split_on sep s with
           | [] => [[x]]
           | w :: ws => (x :: w) :: ws
           end
  end.

Lemma split_on_none sep s : forallb (λ x, negb (sep x)) s = true → split_on sep s = [s].
Proof.
  induction s as [|x s IH]; cbn; [done|]. intros [Hx Hs]%andb_true_iff.
  apply negb_true_iff in Hx. by rewrite Hx, IH.
Qed.

Lemma split_on_cons sep s : ∃ w ws, split_on sep s = w :: ws ∧ (length w ≤ length s)%nat.
Proof.
  induction s as [|x s (w & ws & IH & Hl)]; cbn; [eauto|].
  destruct (sep x); [exists [], (split_on sep s); cbn; split; [done|lia]|].
  rewrite IH. exists (x :: w), ws. cbn. split; [done|lia].
Qed.

(** A string that stays whole contains no separator. *)
Lemma split_on_single sep s : split_on sep s = [s] ↔ forallb (λ x, negb (sep x)) s = true.
Proof.
  split; [|apply split_on_none].
  induction s as [|x s IH]; cbn; [done|]. destruct (sep x); cbn; [by intros [=]|].
  destruct (split_on_cons sep s) as (w & ws & E & _). rewrite E in IH |- *.
  intros [= -> ->]. by apply IH.
Qed.

(** [str::is_char_boundary] between two bytes looks at the byte that follows:
    it must not be a continuation byte. *)
Definition is_continuation (b : byte) : bool := (128 <=? byte_val b) && (byte_val b <? 192).

Definition boundary_before (s : rstr) : bool :=
  match s with [] => true | b :: _ => negb (is_continuation b) end.

(** ** Computations that may panic *)
Inductive may_panic (A : Type) := Return (a : A) | Panic.
Arguments Return {A} _.
Arguments Panic {A}.

#[global] Instance may_panic_ret : MRet may_panic := λ A a, Return a.
#[global] Instance may_panic_bind : MBind may_panic := λ A B f c,
  match c with Return a => f a | Panic => Panic end.

(** ** Hexadecimal *)

(** One digit of [{byte:02x}]. *)
Definition hex_digit (n : Z) : byte :=
  if n <? 10 then byte_of (48 + n) else byte_of (87 + n).

(** [char::to_digit(16)]. *)
Definition hex_value (b : byte) : option Z :=
  let v := byte_val b in
  if (48 <=? v) && (v <=? 57) then Some (v - 48)
  else if (97 <=? v) && (v <=? 102) then Some (v - 87)
  else if (65 <=? v) && (v <=? 70) then Some (v - 55)
  else None.

(** [format!("{byte:02x}")] *)
Definition hex_byte (b : byte) : rstr := [hex_digit (byte_val b / 16); hex_digit (byte_val b mod 16)].

(** [u8::from_str_radix(s, 16)] on two bytes: a leading plus sign is accepted
    when a digit follows. *)
Definition u8_from_hex2 (a b : byte) : option byte :=
  if a =! x2b then (λ l, byte_of l) <$> hex_value b
  else match hex_value a, hex_value b with
       | Some h, Some l => Some (byte_of (h * 16 + l))
       | _, _ => None
       end.

(** Statements about all bytes are decided by enumeration. *)
Definition all_bytes : list byte := (λ n, byte_of (Z.of_nat n)) <$> seq 0 256.

Lemma elem_of_all_bytes b : b ∈ all_bytes.
Proof.
  apply list_elem_of_fmap. exists (Z.to_nat (byte_val b)). pose proof (byte_val_range b).
  split; [rewrite Z2Nat.id by lia; by rewrite byte_of_val|]. apply elem_of_seq. lia.
Qed.

Lemma byte_forall (p : byte → bool) : forallb p all_bytes = true → ∀ b, p b = true.
Proof. intros H b. rewrite forallb_forall in H. apply H, list_elem_of_In, elem_of_all_bytes. Qed.

Lemma u8_from_hex_byte b :
  u8_from_hex2 (hex_digit (byte_val b / 16)) (hex_digit (byte_val b mod 16)) = Some b.
Proof.
  assert (∀ b, (u8_from_hex2 (hex_digit (byte_val b / 16)) (hex_digit (byte_val b mod 16))
    =! Some b) = true) as H by (apply byte_forall; vm_compute; reflexivity).
  specialize (H b). by apply bool_decide_eq_true_1 in H.
Qed.

#[global] Instance hex_byte_inj : Inj (=) (=) hex_byte.
Proof.
  intros a b. unfold hex_byte. intros [= H1 H2].
  pose proof (u8_from_hex_byte a) as Ha. rewrite H1, H2, u8_from_hex_byte in Ha. by simplify_eq.
Qed.

Lemma hex_inj x y : flat_map hex_byte x = flat_map hex_byte y → x = y.
Proof.
  revert y. induction x as [|a x IH]; intros [|b y]; cbn [flat_map]; try done.
  intros H. apply app_inj_1 in H as [Hb Hr]; [|done].
  f_equal; [by apply (inj hex_byte)|by apply IH].
Qed.

Lemma hex_digits_ascii b :
  forallb (λ c, byte_val c <? 128) (hex_byte b) = true.
Proof.
  revert b. apply (byte_forall (λ b, forallb (λ c, byte_val c <? 128) (hex_byte b))).
  vm_compute. reflexivity.
Qed.

(** ** Order *)

(** [str::cmp]: the order of the bytes, lexicographically. *)
Fixpoint str_leb (a b : rstr) : bool :=
  match a, b with
  | [], _ => true
  | _ :: _, [] => false
  | x :: a, y :: b =>
      (byte_val x <? byte_val y) || ((byte_val x =? byte_val y) && str_leb a b)
  end.
Definition str_le (a b : rstr) : Prop := str_leb a b = true.
#[global] Instance str_le_dec : RelDecision str_le.
Proof. intros a b. unfold str_le. apply _. Defined.

Lemma str_leb_refl a : str_leb a a = true.
Proof.
  induction a as [|x a IH]; [done|]. cbn. by rewrite Z.eqb_refl, IH, orb_true_r.
Qed.

#[global] Instance str_le_trans : Transitive str_le.
Proof.
  unfold str_le. intros a b c. revert a c.
  induction b as [|y b IH]; intros [|x a] [|z c] H1 H2; cbn in *; try done.
  apply orb_true_iff in H1, H2. apply orb_true_iff.
  destruct H1 as [H1|H1], H2 as [H2|H2]; split_bools.
  - left. apply Z.ltb_lt. lia.
  - left. apply Z.ltb_lt. lia.
  - left. apply Z.ltb_lt. lia.
  - right. apply andb_true_iff. split; [apply Z.eqb_eq; lia|by eapply IH].
Qed.

#[global] Instance str_le_total : Total str_le.
Proof.
  unfold str_le. intros a. induction a as [|x a IH]; intros [|y b]; cbn; auto.
  destruct (Z.lt_trichotomy (byte_val x) (byte_val y)) as [H|[H|H]].
  - left. apply orb_true_iff. left. by apply Z.ltb_lt.
  - rewrite H, Z.eqb_refl. cbn. destruct (IH b) as [->| ->]; rewrite orb_true_r; auto.
  - right. apply orb_true_iff. left. by apply Z.ltb_lt.
Qed.

#[global] Instance str_le_antisymm : AntiSymm (=) str_le.
Proof.
  unfold str_le. intros a. induction a as [|x a IH]; intros [|y b] H1 H2; cbn in *; try done.
  apply orb_true_iff in H1, H2.
  destruct H1 as [H1|H1], H2 as [H2|H2]; split_bools; try lia.
  f_equal; [by apply (inj byte_val)|by apply IH].
Qed.

(** ** Ordered maps

    A [BTreeMap<String, V>] is a finite map that is iterated in the order of its
    keys. *)

Section btree.
Context {V : Type}.

Definition entry_le (a b : rstr * V) : Prop := str_le a.1 b.1.
#[global] Instance entry_le_dec : RelDecision entry_le.
Proof. intros a b. unfold entry_le. apply _. Defined.

(** [map.iter()]. *)
Definition btree_iter (m : gmap rstr V) : list (rstr * V) := merge_sort entry_le (map_to_list m).

(** [map.iter().find(f)]. *)
Definition btree_find (f : V → bool) (m : gmap rstr V) : option (rstr * V) :=
  List.find (λ kv, f kv.2) (btree_iter m).

Lemma btree_iter_elem m k v : (k, v) ∈ btree_iter m ↔ m !! k = Some v.
Proof. unfold btree_iter. by rewrite merge_sort_Permutation, elem_of_map_to_list. Qed.

Lemma btree_find_some f m k v : btree_find f m = Some (k, v) → m !! k = Some v ∧ f v = true.
Proof. intros H. apply List.find_some in H as [Hin Hf]. split; [|done]. apply btree_iter_elem. by apply list_elem_of_In. Qed.

Lemma btree_find_none f m : btree_find f m = None ↔ ∀ k v, m !! k = Some v → f v = false.
Proof.
  split.
  - intros H k v Hk. apply (List.find_none _ _ H (k, v)). apply list_elem_of_In. by apply btree_iter_elem.
  - intros H. destruct (btree_find f m) as [[k v]|] eqn:E; [|done]. apply btree_find_some in E as [Hk Hf].
    by rewrite (H k v Hk) in Hf.
Qed.
End btree.
