(* ===== verification/Canonical.v ===== *)
(** * Canonical length-prefixed encoding

    Models [CanonicalWriter] of crates/remote-protocol/src/canonical.rs, the
    encoder behind every signed, hashed or MACed structure of the protocol. The
    abstract view is the list of (name, value) fields that were pushed; the
    theorems show that the byte string determines that list, so two different
    structures never share an encoding. *)

From S2P Require Import Prelude.

Inductive CanonicalError :=
| NameTooLong
| ValueTooLong
| JsonCanonicalization
| InvalidHttpMethod
| InvalidRequestTarget.

#[global] Instance CanonicalError_eq_dec : EqDecision CanonicalError.
Proof. solve_decision. Defined.

Record CanonicalWriter := { cw_bytes : bytes }.

(** [u32::try_from] on a length. *)
Definition u32_try_from (n : Z) : option Z :=
  if n <? 2 ^ 32 then Some n else None.

Definition push_field (w : CanonicalWriter) (name value : bytes)
    : result CanonicalError CanonicalWriter :=
  name_len ← ok_or (u32_try_from (len name)) NameTooLong;
  value_len ← ok_or (u32_try_from (len value)) ValueTooLong;
  Ok {| cw_bytes := w.(cw_bytes) ++ be_bytes 4 name_len ++ name
                    ++ be_bytes 4 value_len ++ value |}.

Definition without_domain : CanonicalWriter := {| cw_bytes := [] |}.

Definition writer_new (domain : rstr) : result CanonicalError CanonicalWriter :=
  push_field without_domain (str "domain") domain.

Definition push_str (w : CanonicalWriter) (name value : rstr) := push_field w name value.

Definition push_optional_str (w : CanonicalWriter) (name : rstr) (value : option rstr) :=
  push_field w name (default [] value).

Definition push_bool (w : CanonicalWriter) (name : rstr) (value : bool) :=
  push_field w name [if value then x01 else x00].

Definition push_u16 (w : CanonicalWriter) (name : rstr) (value : Z) :=
  push_field w name (be_bytes 2 value).
Definition push_u32 (w : CanonicalWriter) (name : rstr) (value : Z) :=
  push_field w name (be_bytes 4 value).
Definition push_u64 (w : CanonicalWriter) (name : rstr) (value : Z) :=
  push_field w name (be_bytes 8 value).
Definition push_u128 (w : CanonicalWriter) (name : rstr) (value : Z) :=
  push_field w name (be_bytes 16 value).

Definition finish (w : CanonicalWriter) : bytes := w.(cw_bytes).

(** ** The abstract view: a list of fields *)

Definition field : Type := bytes * bytes.

Definition small_field (f : field) : Prop := len f.1 < 2 ^ 32 ∧ len f.2 < 2 ^ 32.

Definition encode_field (f : field) : bytes :=
  be_bytes 4 (len f.1) ++ f.1 ++ be_bytes 4 (len f.2) ++ f.2.

Definition encode_fields (fs : list field) : bytes := flat_map encode_field fs.

Lemma push_field_ok w name value w' :
  push_field w name value = Ok w' ↔
  small_field (name, value) ∧ w'.(cw_bytes) = w.(cw_bytes) ++ encode_field (name, value).
Proof.
  unfold push_field, u32_try_from, small_field, encode_field. cbn [fst snd].
  destruct (Z.ltb_spec (len name) (2 ^ 32)), (Z.ltb_spec (len value) (2 ^ 32));
    cbn; split; intros H'; try naive_solver lia; simplify_eq; try done.
  destruct H' as [_ H']. destruct w'; cbn in *. by rewrite H'.
Qed.

(** A length-prefixed block at the front of a buffer. *)
Definition take_block (bs : bytes) : option (bytes * bytes) :=
  if len bs <? 4 then None
  else let n := Z.to_nat (be_val (take 4 bs)) in
       let rest := drop 4 bs in
       if decide (n ≤ length rest)%nat then Some (take n rest, drop n rest) else None.

Fixpoint parse_fields (fuel : nat) (bs : bytes) : option (list field) :=
  match bs, fuel with
  | [], _ => Some []
  | _, O => None
  | _, S fuel =>
      '(name, bs) ← take_block bs;
      '(value, bs) ← take_block bs;
      fs ← parse_fields fuel bs;
      Some ((name, value) :: fs)
  end.

Lemma take_block_encode v rest :
  len v < 2 ^ 32 → take_block (be_bytes 4 (len v) ++ v ++ rest) = Some (v, rest).
Proof.
  intros Hv. unfold take_block.
  autorewrite with rctl_len. pose proof (len_nonneg v). pose proof (len_nonneg rest).
  destruct (Z.ltb_spec (Z.of_nat 4 + (len v + len rest)) 4) as [?|_]; [lia|].
  rewrite take_app_length', drop_app_length' by (by rewrite be_bytes_length).
  rewrite be_val_bytes_small by (split; done).
  assert (Z.to_nat (len v) = length v) as -> by (unfold len; lia).
  rewrite decide_True by (rewrite length_app; lia).
  by rewrite take_app_length, drop_app_length.
Qed.

Lemma encode_field_app f bs :
  encode_field f ++ bs =
  be_bytes 4 (len f.1) ++ f.1 ++ (be_bytes 4 (len f.2) ++ f.2 ++ bs).
Proof. unfold encode_field. by rewrite <-!app_assoc. Qed.

Lemma encode_field_cons f bs : ∃ b bs', encode_field f ++ bs = b :: bs'.
Proof. rewrite encode_field_app. unfold be_bytes. simpl. eauto. Qed.

Lemma parse_encode_fields fs fuel :
  Forall small_field fs → (length fs ≤ fuel)%nat →
  parse_fields fuel (encode_fields fs) = Some fs.
Proof.
  intros Hs. revert fuel.
  induction Hs as [|f fs [Hn Hv] _ IH]; intros fuel Hf.
  { by destruct fuel. }
  destruct fuel as [|fuel]; [simpl in Hf; lia|].
  cbn [encode_fields flat_map]. fold (encode_fields fs).
  destruct (encode_field_cons f (encode_fields fs)) as (b & bs & Hb).
  rewrite Hb. cbn [parse_fields]. rewrite <-Hb, encode_field_app.
  rewrite take_block_encode by done. cbn.
  rewrite take_block_encode by done. cbn.
  rewrite IH by (simpl in Hf; lia). cbn. by destruct f.
Qed.

Lemma encode_fields_inj fs gs :
  Forall small_field fs → Forall small_field gs →
  encode_fields fs = encode_fields gs → fs = gs.
Proof.
  intros Hf Hg He.
  pose proof (parse_encode_fields fs (length fs + length gs) Hf ltac:(lia)) as H1.
  pose proof (parse_encode_fields gs (length fs + length gs) Hg ltac:(lia)) as H2.
  rewrite He in H1. congruence.
Qed.

(** Encodings of as many fields, followed by anything, can be told apart. *)
Lemma encode_fields_app_inj fs gs x y :
  Forall small_field fs → Forall small_field gs → length fs = length gs →
  encode_fields fs ++ x = encode_fields gs ++ y → fs = gs ∧ x = y.
Proof.
  intros Hf. revert gs. induction Hf as [|f fs [Hf1 Hf2] _ IH]; intros gs Hg Hl He.
  { by destruct gs. }
  destruct Hg as [|g gs [Hg1 Hg2] Hg]; [done|].
  cbn [encode_fields flat_map] in He. fold (encode_fields fs) (encode_fields gs) in He.
  rewrite <-!app_assoc, !encode_field_app in He.
  pose proof (f_equal take_block He) as Hb. rewrite !take_block_encode in Hb by done.
  apply (inj Some), pair_equal_spec in Hb as [Hn Hb].
  apply (f_equal take_block) in Hb. rewrite !take_block_encode in Hb by done.
  apply (inj Some), pair_equal_spec in Hb as [Hv Hb]. apply IH in Hb as [-> ->]; [|done|by injection Hl].
  split; [|done]. f_equal. destruct f, g; cbn in *. congruence.
Qed.

(** A run of the writer that produced a byte string pushed these fields. *)
Definition writes (w : CanonicalWriter) (fs : list field) : Prop :=
  Forall small_field fs ∧ w.(cw_bytes) = encode_fields fs.

Lemma writes_nil : writes without_domain [].
Proof. split; [constructor|done]. Qed.

Lemma writes_push w fs name value w' :
  writes w fs → push_field w name value = Ok w' → writes w' (fs ++ [(name, value)]).
Proof.
  intros [Hs Hw] [Hf Hp]%push_field_ok. split.
  - apply Forall_app. split; [done|]. by apply Forall_singleton.
  - rewrite Hp, Hw. unfold encode_fields. rewrite flat_map_app. cbn. by rewrite app_nil_r.
Qed.

(** Conversely the writer succeeds on fields that fit their length prefix. *)
Lemma push_small w name value :
  small_field (name, value) →
  push_field w name value = Ok {| cw_bytes := w.(cw_bytes) ++ encode_field (name, value) |}.
Proof. intros H. by apply push_field_ok. Qed.

(** A chain of pushes of fields that fit succeeds. *)
Ltac push_all :=
  unfold writer_new, push_str, push_optional_str, push_bool, push_u16, push_u32, push_u64, push_u128;
  repeat (rewrite push_small;
    [cbn [mbind result_bind]
    |split; cbn [fst snd]; autorewrite with rctl_len; first [done | lia]]).

(** Follow a chain of pushes, collecting the fields written. *)
Ltac collect_fields :=
  unfold writer_new, push_str, push_optional_str, push_bool, push_u16, push_u32,
    push_u64, push_u128, finish in *;
  invert_ok;
  repeat match goal with
  | Hp : push_field without_domain _ _ = Ok _ |- _ =>
      apply (writes_push _ _ _ _ _ writes_nil) in Hp
  | Hw : writes ?w _, Hp : push_field ?w _ _ = Ok _ |- _ =>
      apply (writes_push _ _ _ _ _ Hw) in Hp; clear Hw
  end; cbn [app] in *.

Lemma field_cons_inj (n m v u : bytes) (fs gs : list field) :
  (n, v) :: fs = (m, u) :: gs → v = u ∧ fs = gs.
Proof. by intros [= -> -> ->]. Qed.

(** Turn an equation of field lists into the equations of the field values. *)
Ltac split_fields H :=
  repeat (apply field_cons_inj in H as [? H]); clear H.
