(* ===== verification/RequestTarget.v ===== *)
(** * Canonical HTTP requests

    Models the request half of crates/remote-protocol/src/canonical.rs: the
    canonical form of a request target (percent-encoding, dot segments, query
    order), of an HTTP method, and the byte strings that bind a request to a
    device signature, to a step-up operation and to an idempotency key.

    Strings are byte lists; [canonical_request_target] refuses anything that is
    not ASCII before it looks at characters. [remove_dot_segments] is a loop over
    a shrinking string: it is modelled with fuel, shown never to run out of it,
    and shown equal to a reference that works on the list of segments. *)

From Stdlib Require Import Sorting.Sorted.
From stdpp Require Import sorting.
From S2P Require Import Prelude Text Canonical.

(** ** Characters *)

Definition is_ascii_alphanumeric (b : byte) : bool :=
  byte_in 48 57 b || byte_in 65 90 b || byte_in 97 122 b.

Definition is_ascii_control (b : byte) : bool := (byte_val b <? 32) || (byte_val b =? 127).

(** [matches!(byte, b'..' | ...)]. *)
Definition one_of (set : rstr) (b : byte) : bool := contains_byte b set.

Definition is_unreserved (b : byte) : bool := is_ascii_alphanumeric b || one_of (str "-._~") b.

Definition path_allowed (b : byte) : bool := is_unreserved b || one_of (str "/:@!$&'()*+,;=") b.

Definition hex_nibble (b : byte) : option Z := hex_value b.

(** One digit of the upper-case hexadecimal table. *)
Definition hex_upper (n : Z) : byte := if n <? 10 then byte_of (48 + n) else byte_of (55 + n).

Definition push_percent_encoded (b : byte) : rstr :=
  [x25; hex_upper (Z.shiftr (byte_val b) 4); hex_upper (Z.land (byte_val b) 15)].

(** ** Percent-encoding *)

Fixpoint normalize_percent_encoding (is_allowed_raw : byte → bool) (s : rstr)
    : result CanonicalError rstr :=
  match s with
  | [] => Ok []
  | b :: s =>
      if b =! x25 then
        match s with
        | h :: l :: rest =>
            high ← ok_or (hex_nibble h) InvalidRequestTarget;
            low ← ok_or (hex_nibble l) InvalidRequestTarget;
            let decoded := byte_of (Z.lor (Z.shiftl high 4) low) in
            out ← normalize_percent_encoding is_allowed_raw rest;
            Ok ((if is_unreserved decoded then [decoded] else push_percent_encoded decoded) ++ out)
        | _ => Err InvalidRequestTarget
        end
      else
        out ← normalize_percent_encoding is_allowed_raw s;
        Ok ((if is_allowed_raw b then [b] else push_percent_encoded b) ++ out)
  end.

Definition normalize_path (path : rstr) : result CanonicalError rstr :=
  normalize_percent_encoding path_allowed path.

Definition normalize_query_component (value : rstr) : result CanonicalError rstr :=
  normalize_percent_encoding is_unreserved value.

(** ** Dot segments *)

(** [s.strip_prefix(p)]. *)
Fixpoint strip_prefix (p s : rstr) : option rstr :=
  match p, s with
  | [], _ => Some s
  | a :: p, b :: s => if a =! b then strip_prefix p s else None
  | _ :: _, [] => None
  end.

(** [s.find(c)] and [s.rfind(c)]. *)
Fixpoint find_byte (c : byte) (s : rstr) : option nat :=
  match s with
  | [] => None
  | x :: s => if x =! c then Some 0%nat else S <$> find_byte c s
  end.

Fixpoint rfind_byte (c : byte) (s : rstr) : option nat :=
  match s with
  | [] => None
  | x :: s => match rfind_byte c s with
              | Some n => Some (S n)
              | None => if x =! c then Some 0%nat else None
              end
  end.

Definition remove_last_path_segment (output : rstr) : rstr :=
  take (default 0%nat (rfind_byte x2f output)) output.

Definition segment_end (input : rstr) : nat :=
  match strip_prefix (str "/") input with
  | Some rest => match find_byte x2f rest with Some i => S i | None => length input end
  | None => default (length input) (find_byte x2f input)
  end.

(** One iteration of the loop: the new input and output. *)
Definition dot_step (input output : rstr) : rstr * rstr :=
  match strip_prefix (str "../") input, strip_prefix (str "./") input with
  | Some rest, _ | None, Some rest => (rest, output)
  | None, None =>
  match strip_prefix (str "/./") input with
  | Some rest => (x2f :: rest, output)
  | None =>
  if input =! str "/." then (str "/", output) else
  match strip_prefix (str "/../") input with
  | Some rest => (x2f :: rest, remove_last_path_segment output)
  | None =>
  if input =! str "/.." then (str "/", remove_last_path_segment output)
  else if (input =! str ".") || (input =! str "..") then ([], output)
  else (drop (segment_end input) input, output ++ take (segment_end input) input)
  end end end.

(** [while !input.is_empty()]; [None] when the fuel runs out. *)
Fixpoint dot_loop (fuel : nat) (input output : rstr) : option rstr :=
  match input, fuel with
  | [], _ => Some output
  | _, O => None
  | _, S fuel => let '(input, output) := dot_step input output in dot_loop fuel input output
  end.

Definition remove_dot_segments (value : rstr) : rstr :=
  default [] (dot_loop (length value) value []).

(** ** The order of query pairs *)

Fixpoint bytes_cmp (a b : bytes) : comparison :=
  match a, b with
  | [], [] => Eq
  | [], _ :: _ => Lt
  | _ :: _, [] => Gt
  | x :: a, y :: b => match byte_val x ?= byte_val y with Eq => bytes_cmp a b | c => c end
  end.

Definition bool_cmp (a b : bool) : comparison :=
  match a, b with false, true => Lt | true, false => Gt | _, _ => Eq end.

(** A query pair: key, value, and whether there was an equals sign. *)
Definition query_pair : Type := rstr * rstr * bool.

(** The derived order of tuples. *)
Definition pair_cmp (p q : query_pair) : comparison :=
  match bytes_cmp p.1.1 q.1.1 with
  | Eq => match bytes_cmp p.1.2 q.1.2 with Eq => bool_cmp p.2 q.2 | c => c end
  | c => c
  end.

Definition pair_le (p q : query_pair) : Prop := pair_cmp p q ≠ Gt.
#[global] Instance pair_le_dec : RelDecision pair_le.
Proof. unfold pair_le. solve_decision. Defined.

(** [pairs.sort_unstable()]: equal tuples are identical, so the stability of the
    sort cannot be observed. *)
Definition sort_pairs (l : list query_pair) : list query_pair := merge_sort pair_le l.

(** ** The canonical target *)

Definition parse_pair (pair : rstr) : result CanonicalError query_pair :=
  _ ← ensure (pair ≠! []) InvalidRequestTarget;
  let '(key, value, had_equals) := match split_once x3d pair with
                                   | Some (key, value) => (key, value, true)
                                   | None => (pair, [], false)
                                   end in
  _ ← ensure (key ≠! []) InvalidRequestTarget;
  k ← normalize_query_component key;
  v ← normalize_query_component value;
  Ok (k, v, had_equals).

Definition print_pair (p : query_pair) : rstr :=
  p.1.1 ++ (if p.2 then x3d :: p.1.2 else []).

(** Pieces joined by a separator. *)
Fixpoint join (sep : byte) (l : list rstr) : rstr :=
  match l with
  | [] => []
  | [w] => w
  | w :: l => w ++ sep :: join sep l
  end.

Definition valid_target (value : rstr) : bool :=
  negb ((value =! []) || negb (bool_decide (is_Some (strip_prefix (str "/") value)))
        || negb (forallb (λ b, byte_val b <? 128) value)
        || existsb (λ b, is_ascii_control b || (b =! x5c) || (b =! x23)) value).

Definition canonical_request_target (value : rstr) : result CanonicalError rstr :=
  _ ← ensure (valid_target value) InvalidRequestTarget;
  let '(path, query) := match split_once x3f value with
                        | Some (path, query) => (path, Some query)
                        | None => (value, None)
                        end in
  normalized ← normalize_path path;
  let normalized_path := remove_dot_segments normalized in
  _ ← ensure (negb ((normalized_path =! [])
                    || negb (bool_decide (is_Some (strip_prefix (str "/") normalized_path)))))
        InvalidRequestTarget;
  match query with
  | None | Some [] => Ok normalized_path
  | Some query =>
      _ ← ensure (negb (contains_byte x2b query)) InvalidRequestTarget;
      pairs ← collect parse_pair (split_on (λ b, b =! x26) query);
      Ok (normalized_path ++ x3f :: join x26 (print_pair <$> sort_pairs pairs))
  end.

Definition method_char (b : byte) : bool :=
  is_ascii_alphanumeric b || one_of (str "!#$%&'*+-.^_`|~") b.

(** [to_ascii_uppercase] of a byte. *)
Definition ascii_upper (b : byte) : byte :=
  if byte_in 97 122 b then byte_of (byte_val b - 32) else b.

Definition canonical_http_method (method : rstr) : result CanonicalError rstr :=
  _ ← ensure (negb ((method =! []) || negb (forallb (λ b, byte_val b <? 128) method)
               || negb (forallb method_char method))) InvalidHttpMethod;
  Ok (ascii_upper <$> method).

(** ** Bound requests *)

Definition canonical_api_request_bytes (method request_target : rstr) (body_hash : bytes)
    (request_id device_id account_id : rstr) (timestamp : Z) (api_nonce : rstr)
    : result CanonicalError bytes :=
  method ← canonical_http_method method;
  request_target ← canonical_request_target request_target;
  w ← writer_new (str "rctl-api-input-v1");
  w ← push_str w (str "method") method;
  w ← push_str w (str "path") request_target;
  w ← push_field w (str "body_hash") body_hash;
  w ← push_str w (str "request_id") request_id;
  w ← push_str w (str "device_id") device_id;
  w ← push_str w (str "account_id") account_id;
  w ← push_u64 w (str "timestamp") timestamp;
  w ← push_str w (str "api_nonce") api_nonce;
  Ok (finish w).

Definition canonical_operation_binding_bytes (account_id device_id purpose method request_target : rstr)
    (body_hash : bytes) (request_id : rstr) (expires_at : Z) : result CanonicalError bytes :=
  method ← canonical_http_method method;
  request_target ← canonical_request_target request_target;
  w ← writer_new (str "rctl-operation-binding-v1");
  w ← push_str w (str "account_id") account_id;
  w ← push_str w (str "device_id") device_id;
  w ← push_str w (str "purpose") purpose;
  w ← push_str w (str "method") method;
  w ← push_str w (str "path") request_target;
  w ← push_field w (str "body_hash") body_hash;
  w ← push_str w (str "request_id") request_id;
  w ← push_u64 w (str "expires_at_epoch_millis") expires_at;
  Ok (finish w).

Definition canonical_idempotency_binding_bytes (account_id device_id method request_target : rstr)
    (body_hash : bytes) : result CanonicalError bytes :=
  method ← canonical_http_method method;
  request_target ← canonical_request_target request_target;
  w ← writer_new (str "rctl-idempotency-binding-v1");
  w ← push_str w (str "account_id") account_id;
  w ← push_str w (str "device_id") device_id;
  w ← push_str w (str "method") method;
  w ← push_str w (str "path") request_target;
  w ← push_field w (str "body_hash") body_hash;
  Ok (finish w).

Example target_example :
  canonical_request_target (str "/a/./b/%2e%2E/c%2fd?z=1&a=%7e&b&a=1")
  = Ok (str "/a/c%2Fd?a=1&a=~&b&z=1").
Proof. vm_compute. reflexivity. Qed.

(** ** Dot segments: termination *)

Lemma strip_prefix_some p s r : strip_prefix p s = Some r ↔ s = p ++ r.
Proof.
  revert s. induction p as [|a p IH]; intros s; cbn; [naive_solver|].
  destruct s as [|b s]; [naive_solver|]. case_bool_decide as Hab.
  - subst. rewrite IH. naive_solver.
  - naive_solver.
Qed.

Lemma strip_prefix_none p s : strip_prefix p s = None ↔ ∀ r, s ≠ p ++ r.
Proof.
  destruct (strip_prefix p s) as [r|] eqn:E; split; try done.
  - intros H. apply strip_prefix_some in E. by destruct (H r).
  - intros _ r Hr. apply strip_prefix_some in Hr. congruence.
Qed.

Lemma find_byte_none c s : find_byte c s = None ↔ c ∉ s.
Proof.
  induction s as [|x s IH]; cbn; [set_solver|]. case_bool_decide; subst; [set_solver|].
  destruct (find_byte c s); cbn; set_solver.
Qed.

Lemma find_byte_first c s t : c ∉ s → find_byte c (s ++ c :: t) = Some (length s).
Proof.
  intros Hc. induction s as [|x s IH]; cbn; [by rewrite bool_decide_eq_true_2|].
  rewrite bool_decide_eq_false_2 by set_solver. by rewrite IH by set_solver.
Qed.

Lemma segment_end_pos input : input ≠ [] → (0 < segment_end input)%nat.
Proof.
  intros Hi. unfold segment_end. destruct (strip_prefix (str "/") input) as [r|] eqn:E.
  - destruct (find_byte x2f r); [lia|]. destruct input; [done|]. cbn. lia.
  - destruct input as [|b input]; [done|]. cbn. case_bool_decide as Hb.
    + subst. by cbn in E.
    + destruct (find_byte x2f input); cbn; lia.
Qed.

Ltac shrink E :=
  apply strip_prefix_some in E as ->; rewrite length_app;
  repeat match goal with |- context [length (str ?x)] =>
    let n := eval vm_compute in (length (str x)) in change (length (str x)) with n end;
  cbn; lia.

(** Every iteration consumes input. *)
Lemma dot_step_shrinks input output :
  input ≠ [] → (length (dot_step input output).1 < length input)%nat.
Proof.
  intros Hi. unfold dot_step.
  destruct (strip_prefix (str "../") input) as [r|] eqn:E1;
    [shrink E1|].
  destruct (strip_prefix (str "./") input) as [r|] eqn:E2;
    [shrink E2|].
  destruct (strip_prefix (str "/./") input) as [r|] eqn:E3;
    [shrink E3|].
  case_bool_decide as E4; [rewrite E4; vm_compute; lia|].
  destruct (strip_prefix (str "/../") input) as [r|] eqn:E5;
    [shrink E5|].
  case_bool_decide as E6; [rewrite E6; vm_compute; lia|].
  destruct (_ || _); cbn; [destruct input; [done|cbn; lia]|].
  rewrite length_drop. pose proof (segment_end_pos input Hi). destruct input; [done|cbn in *; lia].
Qed.

Lemma dot_loop_total fuel input output :
  (length input ≤ fuel)%nat → ∃ out, dot_loop fuel input output = Some out.
Proof.
  revert input output. induction fuel as [|fuel IH]; intros [|b input] output Hl; cbn [length] in Hl;
    try (by eexists); [lia|]. cbn [dot_loop].
  pose proof (dot_step_shrinks (b :: input) output ltac:(done)) as Hs.
  destruct (dot_step (b :: input) output) as [i o]. cbn [fst length] in Hs. apply IH. lia.
Qed.

Lemma dot_loop_more fuel fuel' input output out :
  dot_loop fuel input output = Some out → (fuel ≤ fuel')%nat → dot_loop fuel' input output = Some out.
Proof.
  revert fuel' input output. induction fuel as [|fuel IH]; intros fuel' [|b input] output H Hl;
    destruct fuel' as [|fuel']; try done; try lia. cbn [dot_loop] in *.
  destruct (dot_step (b :: input) output) as [i o]. apply IH; [done|lia].
Qed.

(** ** Dot segments: the reference *)

(** A path of segments, each after a slash. *)
Definition render (segs : list rstr) : rstr := flat_map (λ s, x2f :: s) segs.

(** The reference works on the segments with a stack: [.] is dropped, [..] drops
    the segment before it, and either of them at the end leaves a final slash. *)
Fixpoint resolve (stack segs : list rstr) : list rstr :=
  match segs with
  | [] => stack
  | s :: rest =>
      if s =! str "." then match rest with [] => stack ++ [[]] | _ => resolve stack rest end
      else if s =! str ".." then
        match rest with [] => removelast stack ++ [[]] | _ => resolve (removelast stack) rest end
      else resolve (stack ++ [s]) rest
  end.

Definition slash_free (s : rstr) : Prop := x2f ∉ s.

Lemma render_app a b : render (a ++ b) = render a ++ render b.
Proof. apply flat_map_app. Qed.

(** A slash-free segment in front of a path is determined. *)
Lemma segment_unique s t rest r :
  slash_free s → slash_free t → s ++ render rest = t ++ x2f :: r → s = t ∧ render rest = x2f :: r.
Proof.
  unfold slash_free. revert t. induction s as [|a s IH]; intros [|b t] Hs Ht H; cbn in H.
  - done.
  - destruct rest as [|q rest]; cbn in H; [done|]. injection H as <- _. destruct Ht. left.
  - injection H as -> _. destruct Hs. left.
  - injection H as -> H. destruct (IH t) as [-> ?]; [| |done|done]; intros ?; [apply Hs|apply Ht]; by right.
Qed.

Lemma segment_whole s t rest :
  slash_free t → s ++ render rest = t → rest = [] ∧ s = t.
Proof.
  intros Ht <-. destruct rest as [|q rest]; [by rewrite app_nil_r|].
  destruct Ht. apply elem_of_app. right. left.
Qed.

Lemma slash_free_str t : forallb (λ b, negb (b =! x2f)) t = true → slash_free t.
Proof.
  intros H Hin. rewrite forallb_forall in H. apply list_elem_of_In in Hin. apply H in Hin.
  by rewrite bool_decide_eq_true_2 in Hin.
Qed.

(** *** One iteration on a rendered path *)

Lemma no_relative_prefix p s rest :
  forallb (λ b, negb (b =! x2f)) (take 1 p) = true → p ≠ [] →
  strip_prefix p (render (s :: rest)) = None.
Proof.
  intros Hp Hn. destruct p as [|b p]; [done|]. cbn in Hp |- *.
  case_bool_decide as Hb; [subst; discriminate Hp|done].
Qed.

Lemma strip_segment t s rest :
  slash_free s → slash_free t →
  strip_prefix (x2f :: t ++ [x2f]) (render (s :: rest)) =
  if decide (s = t ∧ rest ≠ []) then Some (drop 1 (render rest)) else None.
Proof.
  intros Hs Ht. destruct (decide _) as [[-> Hr]|Hn].
  - apply strip_prefix_some. destruct rest as [|q rest]; [done|]. cbn. by rewrite <-app_assoc.
  - apply strip_prefix_none. intros r H. cbn in H. injection H as H. rewrite <-app_assoc in H. cbn in H.
    destruct (segment_unique _ _ _ _ Hs Ht H) as [-> Hr]. destruct Hn. split; [done|]. by intros ->.
Qed.

Lemma segment_end_render s rest :
  slash_free s → segment_end (render (s :: rest)) = S (length s).
Proof.
  intros Hs. unfold segment_end.
  assert (strip_prefix (str "/") (render (s :: rest)) = Some (s ++ render rest)) as ->
    by (by apply strip_prefix_some).
  destruct rest as [|q rest]; cbn.
  - rewrite app_nil_r. by rewrite (proj2 (find_byte_none _ _) Hs).
  - by rewrite find_byte_first.
Qed.

Lemma dot_free : slash_free (str ".") ∧ slash_free (str "..").
Proof. split; by apply slash_free_str. Qed.

Lemma render_eq s t rest :
  slash_free t → (render (s :: rest) =! x2f :: t) = bool_decide (s = t ∧ rest = []).
Proof.
  intros Ht. apply bool_decide_ext. cbn. split.
  - intros [= H]. destruct (segment_whole _ _ _ Ht H). done.
  - intros [-> ->]. by rewrite app_nil_r.
Qed.

Lemma dot_step_render s rest out :
  slash_free s →
  dot_step (render (s :: rest)) out =
  if s =! str "." then (match rest with [] => str "/" | _ => render rest end, out)
  else if s =! str ".." then
    (match rest with [] => str "/" | _ => render rest end, remove_last_path_segment out)
  else (render rest, out ++ x2f :: s).
Proof.
  intros Hs. destruct dot_free as [H1 H2]. unfold dot_step.
  rewrite !no_relative_prefix by done.
  change (str "/./") with (x2f :: str "." ++ [x2f]). change (str "/../") with (x2f :: str ".." ++ [x2f]).
  change (str "/.") with (x2f :: str "."). change (str "/..") with (x2f :: str "..").
  rewrite !strip_segment, !render_eq by done.
  assert (∀ q t, x2f :: drop 1 (render (q :: t)) = render (q :: t)) as Hd by done.
  assert ((render (s :: rest) =! str ".") = false ∧ (render (s :: rest) =! str "..") = false) as [-> ->]
    by (split; apply bool_decide_eq_false_2; discriminate).
  rewrite segment_end_render by done. cbn [orb].
  destruct (decide (s = str ".")) as [->|N1]; [|destruct (decide (s = str "..")) as [->|N2]].
  - rewrite (bool_decide_eq_true_2 (str "." = str ".")) by done.
    destruct rest; [by rewrite decide_False by naive_solver|by rewrite decide_True].
  - rewrite (bool_decide_eq_false_2 (str ".." = str ".")) by done.
    rewrite (bool_decide_eq_true_2 (str ".." = str "..")) by done.
    rewrite decide_False by naive_solver. rewrite bool_decide_eq_false_2 by naive_solver.
    destruct rest; [by rewrite decide_False by naive_solver|by rewrite decide_True].
  - rewrite !decide_False, !bool_decide_eq_false_2 by naive_solver. cbn [render flat_map].
    f_equal; [|f_equal]; cbn [app].
    + cbn. by rewrite drop_app_length.
    + cbn. by rewrite take_app_length.
Qed.

Lemma rfind_last c s t : c ∉ t → rfind_byte c (s ++ c :: t) = Some (length s).
Proof.
  intros Hc. assert (rfind_byte c t = None) as Ht.
  { induction t as [|x t IH]; cbn; [done|]. rewrite IH by (intros ?; apply Hc; by right).
    rewrite bool_decide_eq_false_2; [done|]. intros ->. apply Hc. by left. }
  induction s as [|x s IH]; cbn; [by rewrite Ht, bool_decide_eq_true_2|by rewrite IH].
Qed.

Lemma remove_last_render stack :
  Forall slash_free stack → remove_last_path_segment (render stack) = render (removelast stack).
Proof.
  intros Hs. destruct stack as [|s stack _] using rev_ind; [done|].
  apply Forall_app in Hs as [_ Hs]. rewrite Forall_singleton in Hs.
  rewrite removelast_last, render_app. unfold remove_last_path_segment. cbn.
  rewrite app_nil_r, rfind_last by done. cbn. by rewrite take_app_length.
Qed.

Lemma removelast_Forall {A} (Q : A → Prop) l : Forall Q l → Forall Q (removelast l).
Proof.
  destruct l as [|x l _] using rev_ind; [done|]. rewrite removelast_last. by intros [? _]%Forall_app.
Qed.

(** The loop on a rendered path computes the reference. *)
Lemma dot_loop_resolve fuel segs stack :
  Forall slash_free segs → Forall slash_free stack → (length (render segs) ≤ fuel)%nat →
  dot_loop fuel (render segs) (render stack) = Some (render (resolve stack segs)).
Proof.
  revert fuel stack. induction segs as [|s rest IH]; intros fuel stack Hsegs Hst Hf;
    [by destruct fuel|].
  apply Forall_cons in Hsegs as [Hs Hrest].
  destruct fuel as [|fuel]; [cbn in Hf; lia|].
  change (S (length (s ++ render rest)) ≤ S fuel)%nat in Hf.
  assert (∀ stack, Forall slash_free stack → (1 ≤ fuel)%nat →
    dot_loop fuel (str "/") (render stack) = Some (render (stack ++ [[]]))) as Hend.
  { intros st Hst' Hl. destruct fuel as [|fuel']; [lia|].
    change (str "/") with (render [[]]). cbn [dot_loop render flat_map app].
    change [x2f] with (render [[]]). rewrite dot_step_render by (by apply slash_free_str).
    cbn. rewrite render_app. by destruct fuel'. }
  change (dot_loop (S fuel) (render (s :: rest)) (render stack)) with
    (let '(i, o) := dot_step (render (s :: rest)) (render stack) in dot_loop fuel i o).
  rewrite dot_step_render by done. cbn [resolve]. rewrite length_app in Hf.
  assert (length (str ".") = 1%nat ∧ length (str "..") = 2%nat) as [L1 L2] by done.
  case_bool_decide as E1; [|case_bool_decide as E2].
  - subst. destruct rest as [|q rest]; [apply Hend; [done|lia]|]. apply IH; [done..|lia].
  - subst. rewrite remove_last_render by done. pose proof (removelast_Forall _ _ Hst).
    destruct rest as [|q rest]; [apply Hend; [done|lia]|]. apply IH; [done..|lia].
  - replace (render stack ++ x2f :: s) with (render (stack ++ [s]))
      by (rewrite render_app; cbn; by rewrite app_nil_r).
    apply IH; [done| |lia]. apply Forall_app. split; [done|]. by apply Forall_singleton.
Qed.

Definition is_slash (b : byte) : bool := b =! x2f.

Lemma render_split r : render (split_on is_slash r) = x2f :: r.
Proof.
  induction r as [|b r IH]; [done|]. cbn [split_on]. unfold is_slash at 1. case_bool_decide as Hb.
  - subst. change (x2f :: render (split_on is_slash r) = x2f :: x2f :: r). by rewrite IH.
  - destruct (split_on is_slash r) as [|w ws]; [done|]. cbn in IH |- *. by injection IH as ->.
Qed.

Lemma split_slash_free r : Forall slash_free (split_on is_slash r).
Proof.
  induction r as [|b r IH]; cbn; [by repeat constructor; apply not_elem_of_nil|].
  unfold is_slash at 1. case_bool_decide as Hb; [by constructor; [apply not_elem_of_nil|]|].
  destruct (split_on is_slash r) as [|w ws]; [constructor; [|done]|].
  - intros [?|[]%elem_of_nil]%elem_of_cons. congruence.
  - apply Forall_cons in IH as [Hw Hws]. constructor; [|done].
    intros [?|?]%elem_of_cons; [congruence|done].
Qed.

Lemma split_render segs :
  Forall slash_free segs → segs ≠ [] → ∃ r, render segs = x2f :: r ∧ split_on is_slash r = segs.
Proof.
  intros Hs Hn. destruct segs as [|s segs]; [done|]. clear Hn. exists (s ++ render segs).
  split; [done|]. revert s Hs. induction segs as [|q segs IH]; intros s Hs.
  - cbn. rewrite app_nil_r. apply split_on_none. apply Forall_cons in Hs as [Hs _].
    apply forallb_forall. intros b Hb%list_elem_of_In. unfold is_slash.
    rewrite bool_decide_eq_false_2; [done|]. by intros ->.
  - apply Forall_cons in Hs as [Hs Hq]. specialize (IH q Hq).
    change (split_on is_slash (s ++ x2f :: (q ++ render segs)) = s :: q :: segs).
    revert Hs IH. generalize (q ++ render segs). intros t Hs IH.
    induction s as [|b s IHs]; cbn; [by rewrite IH|].
    unfold is_slash at 1. rewrite bool_decide_eq_false_2 by (intros ->; apply Hs; left).
    rewrite IHs; [done|]. intros Hin. apply Hs. by right.
Qed.

Lemma remove_dots_resolve r :
  remove_dot_segments (x2f :: r) = render (resolve [] (split_on is_slash r)).
Proof.
  unfold remove_dot_segments. rewrite <-(render_split r) at 2.
  rewrite (dot_loop_resolve _ _ []); [done|apply split_slash_free|done|]. by rewrite render_split.
Qed.

(** What the reference leaves: segments of the input or empty ones, none of them
    a dot segment, at least one. *)
Definition plain (s : rstr) : Prop := s ≠ str "." ∧ s ≠ str "..".

Lemma resolve_Forall (Q : rstr → Prop) stack segs :
  Q [] → Forall Q stack → Forall (λ s, plain s → Q s) segs → Forall Q (resolve stack segs).
Proof.
  intros Hnil. revert stack. induction segs as [|s rest IH]; intros stack Hst Hs; [done|].
  apply Forall_cons in Hs as [Hs Hr]. cbn [resolve].
  assert (∀ l, Forall Q l → Forall Q (l ++ [[]])) as Happ
    by (intros l ?; apply Forall_app; split; [done|by apply Forall_singleton]).
  pose proof (removelast_Forall _ _ Hst).
  case_bool_decide; [destruct rest; eauto|]. case_bool_decide; [destruct rest; eauto|].
  apply IH; [|done]. apply Forall_app. split; [done|]. apply Forall_singleton, Hs. by split.
Qed.

Lemma resolve_plain stack segs : Forall plain stack → Forall plain (resolve stack segs).
Proof. intros H. apply resolve_Forall; [done|done|]. by apply Forall_true. Qed.

Lemma resolve_nonempty stack segs : segs ≠ [] → resolve stack segs ≠ [].
Proof.
  revert stack. induction segs as [|s rest IH]; intros stack Hn; [done|]. cbn [resolve].
  assert (∀ l : list rstr, l ++ [[]] ≠ []) as Happ by (by intros []).
  case_bool_decide; [destruct rest; eauto|]. case_bool_decide; [destruct rest; eauto|].
  destruct rest as [|q rest]; [by destruct stack|]. by apply IH.
Qed.

Lemma resolve_id stack segs : Forall plain segs → resolve stack segs = stack ++ segs.
Proof.
  revert stack. induction segs as [|s rest IH]; intros stack Hs; [by rewrite app_nil_r|].
  apply Forall_cons in Hs as [[H1 H2] Hr]. cbn [resolve]. rewrite !bool_decide_eq_false_2 by done.
  rewrite IH by done. by rewrite <-app_assoc.
Qed.

Lemma split_nonempty r : split_on is_slash r ≠ [].
Proof. destruct (split_on_cons is_slash r) as (w & ws & -> & _). done. Qed.

Lemma resolve_slash_free segs : Forall slash_free segs → Forall slash_free (resolve [] segs).
Proof.
  intros H. apply resolve_Forall; [apply not_elem_of_nil|done|]. by eapply Forall_impl.
Qed.

(** The result is an absolute path without dot segments, and a fixed point. *)
Lemma remove_dots_shape r :
  ∃ t, remove_dot_segments (x2f :: r) = x2f :: t ∧ Forall plain (split_on is_slash t) ∧
       remove_dot_segments (x2f :: t) = x2f :: t ∧
       split_on is_slash t = resolve [] (split_on is_slash r).
Proof.
  destruct (split_render (resolve [] (split_on is_slash r))) as (t & Ht & Hsp);
    [apply resolve_slash_free, split_slash_free|apply resolve_nonempty, split_nonempty|].
  exists t. rewrite remove_dots_resolve. split; [done|].
  rewrite remove_dots_resolve, Hsp. pose proof (resolve_plain [] (split_on is_slash r) ltac:(done)).
  split; [done|]. split; [|done]. rewrite resolve_id by done. done.
Qed.

(** ** Percent-encoding: the normal form *)

(** A string of allowed characters and of upper-case escapes of characters that
    must be escaped. *)
Inductive normal (allowed : byte → bool) : rstr → Prop :=
| normal_nil : normal allowed []
| normal_raw b s : allowed b = true → normal allowed s → normal allowed (b :: s)
| normal_escape b s :
    is_unreserved b = false → normal allowed s → normal allowed (push_percent_encoded b ++ s).

(** What the proofs need of the set of raw characters. *)
Class RawSet (allowed : byte → bool) : Prop := {
  raw_unreserved b : is_unreserved b = true → allowed b = true;
  raw_percent : allowed x25 = false }.

#[global] Instance path_raw : RawSet path_allowed.
Proof. split; [|vm_compute; reflexivity]. intros b H. unfold path_allowed. by rewrite H. Qed.

#[global] Instance query_raw : RawSet is_unreserved.
Proof. split; [done|vm_compute; reflexivity]. Qed.

(** The escape of a byte is read back as that byte. *)
Lemma escape_decodes b :
  ∃ h l n m, push_percent_encoded b = [x25; h; l] ∧ hex_nibble h = Some n ∧ hex_nibble l = Some m ∧
    byte_of (Z.lor (Z.shiftl n 4) m) = b.
Proof.
  assert (∀ b, match hex_nibble (hex_upper (Z.shiftr (byte_val b) 4)),
                     hex_nibble (hex_upper (Z.land (byte_val b) 15)) with
               | Some n, Some m => byte_of (Z.lor (Z.shiftl n 4) m) =! b
               | _, _ => false
               end = true) as H by (apply byte_forall; vm_compute; reflexivity).
  specialize (H b). unfold push_percent_encoded.
  destruct (hex_nibble (hex_upper (Z.shiftr _ _))) as [n|] eqn:E1; [|done].
  destruct (hex_nibble (hex_upper (Z.land _ _))) as [m|] eqn:E2; [|done].
  apply bool_decide_eq_true_1 in H. by exists (hex_upper (Z.shiftr (byte_val b) 4)),
    (hex_upper (Z.land (byte_val b) 15)), n, m.
Qed.

Section normal_form.
Context (allowed : byte → bool) `{R : !RawSet allowed}.

Lemma allowed_not_percent b : allowed b = true → b ≠ x25.
Proof. intros H ->. rewrite raw_percent in H. done. Qed.

Lemma percent_reserved : is_unreserved x25 = false.
Proof. reflexivity. Qed.

Lemma normalize_ind (Q : rstr → Prop) :
  Q [] → (∀ b s, b ≠ x25 → Q s → Q (b :: s)) → (∀ h l s, Q s → Q (x25 :: h :: l :: s)) →
  (Q [x25]) → (∀ h, Q [x25; h]) → ∀ s, Q s.
Proof.
  intros H0 H1 H2 H3 H4 s. remember (length s) as n eqn:Hn.
  assert (length s ≤ n)%nat as Hl by lia. clear Hn. revert s Hl.
  induction n as [|n IH]; intros [|b s] Hl; cbn in Hl; try done; [lia|].
  destruct (decide (b = x25)) as [->|Hb]; [|apply H1; [done|apply IH; lia]].
  destruct s as [|h [|l s]]; [done|apply H4|]. apply H2, IH. cbn in Hl. lia.
Qed.

Lemma normalize_normal s t : normalize_percent_encoding allowed s = Ok t → normal allowed t.
Proof.
  revert s t. apply (normalize_ind (λ s, ∀ t, normalize_percent_encoding allowed s = Ok t → normal allowed t)).
  - intros t [= <-]. constructor.
  - intros b s Hb IH t H. cbn [normalize_percent_encoding] in H. rewrite bool_decide_eq_false_2 in H by done.
    apply bind_ok in H as (out & Ho & [= <-]). specialize (IH _ Ho).
    destruct (allowed b) eqn:E; [by apply normal_raw|]. apply normal_escape; [|done].
    destruct (is_unreserved b) eqn:F; [|done]. apply raw_unreserved in F. congruence.
  - intros h l s IH t H. cbn [normalize_percent_encoding] in H. rewrite bool_decide_eq_true_2 in H by done.
    invert_ok. specialize (IH _ ltac:(eassumption)).
    destruct (is_unreserved _) eqn:E; [by apply normal_raw; [apply raw_unreserved|]|by apply normal_escape].
  - intros t H. done.
  - intros h t H. done.
Qed.

Lemma normal_normalize t : normal allowed t → normalize_percent_encoding allowed t = Ok t.
Proof.
  induction 1 as [|b s Hb _ IH|b s Hb _ IH]; [done| |].
  - cbn [normalize_percent_encoding]. rewrite bool_decide_eq_false_2 by (by apply allowed_not_percent).
    by rewrite IH, Hb.
  - destruct (escape_decodes b) as (h & l & n & m & E & Hh & Hl & Hd). rewrite E.
    cbn [app normalize_percent_encoding]. rewrite bool_decide_eq_true_2 by done.
    rewrite Hh, Hl. cbn [ok_or mbind result_bind]. rewrite IH. cbn [mbind result_bind].
    by rewrite Hd, Hb, E.
Qed.

Lemma normalize_nonempty s t : normalize_percent_encoding allowed s = Ok t → s ≠ [] → t ≠ [].
Proof.
  destruct s as [|b s]; [done|]. cbn. intros H _.
  repeat first [progress simplify_eq/= | break_match | progress invert_ok]; try done;
    destruct (is_unreserved _) || idtac; try done.
Qed.

(** The characters of a normal string. *)
Definition normal_char (b : byte) : bool := allowed b || (b =! x25).

Lemma escape_chars b : Forall (λ c, normal_char c = true) (push_percent_encoded b).
Proof.
  assert (∀ b, forallb (λ c, is_unreserved c || (c =! x25)) (push_percent_encoded b) = true) as H
    by (apply byte_forall; vm_compute; reflexivity).
  specialize (H b). rewrite forallb_forall in H. apply Forall_forall. intros c Hc.
  apply list_elem_of_In, H, orb_true_iff in Hc. unfold normal_char.
  destruct Hc as [Hc| ->]; [by rewrite (raw_unreserved _ Hc)|by rewrite orb_true_r].
Qed.

Lemma normal_chars t : normal allowed t → Forall (λ c, normal_char c = true) t.
Proof.
  induction 1 as [|b s Hb _ IH|b s Hb _ IH]; [done| |].
  - constructor; [|done]. unfold normal_char. by rewrite Hb.
  - apply Forall_app. split; [apply escape_chars|done].
Qed.

Lemma normal_app s t : normal allowed s → normal allowed t → normal allowed (s ++ t).
Proof.
  intros Hs Ht. induction Hs as [|b s Hb _ IH|b s Hb _ IH]; [done|by constructor|].
  rewrite <-app_assoc. by constructor.
Qed.
End normal_form.

(** ** The order of query pairs is a total order *)

Class Ordering {A} (cmp : A → A → comparison) : Prop := {
  cmp_eq x y : cmp x y = Eq ↔ x = y;
  cmp_opp x y : cmp y x = CompOpp (cmp x y);
  cmp_trans x y z : cmp x y = Lt → cmp y z = Lt → cmp x z = Lt }.

#[global] Instance bool_ordering : Ordering bool_cmp.
Proof. split; [intros [] []; cbn; naive_solver|by intros [] []|by intros [] [] []]. Qed.

#[global] Instance bytes_ordering : Ordering bytes_cmp.
Proof.
  split.
  - intros x. induction x as [|a x IH]; intros [|b y]; cbn; try done.
    destruct (Z.compare_spec (byte_val a) (byte_val b)) as [E|E|E].
    + apply (inj byte_val) in E as ->. rewrite IH. naive_solver.
    + split; [done|]. intros [= -> _]. lia.
    + split; [done|]. intros [= -> _]. lia.
  - intros x. induction x as [|a x IH]; intros [|b y]; cbn; try done.
    rewrite (Z.compare_antisym (byte_val a) (byte_val b)).
    destruct (byte_val a ?= byte_val b); cbn; [apply IH|done|done].
  - intros x. induction x as [|a x IH]; intros [|b y] [|c z]; cbn; try done.
    destruct (Z.compare_spec (byte_val a) (byte_val b)) as [E|E|E],
      (Z.compare_spec (byte_val b) (byte_val c)) as [F|F|F]; intros H1 H2; try done.
    1: rewrite E, F, Z.compare_refl; by eapply IH.
    all: by rewrite (proj2 (Z.compare_lt_iff (byte_val a) (byte_val c))) by lia.
Qed.

(** Lexicographic comparison of two orderings. *)
Definition lex_cmp {A B} (c : A → A → comparison) (d : B → B → comparison) (p q : A * B) : comparison :=
  match c p.1 q.1 with Eq => d p.2 q.2 | r => r end.

#[global] Instance lex_ordering {A B} (c : A → A → comparison) (d : B → B → comparison)
  `{!Ordering c, !Ordering d} : Ordering (lex_cmp c d).
Proof.
  unfold lex_cmp. split.
  - intros [a b] [a' b']; cbn. destruct (c a a') eqn:E.
    + apply cmp_eq in E as ->. rewrite cmp_eq. naive_solver.
    + split; [done|]. intros [= -> ->]. by rewrite (proj2 (cmp_eq a' a')) in E.
    + split; [done|]. intros [= -> ->]. by rewrite (proj2 (cmp_eq a' a')) in E.
  - intros [a b] [a' b']; cbn. rewrite (cmp_opp a a'). destruct (c a a'); cbn; [apply cmp_opp|done|done].
  - intros [a b] [a' b'] [a'' b'']; cbn. destruct (c a a') eqn:E; [| |done].
    + apply cmp_eq in E as ->. destruct (c a' a'') eqn:F; [|done..]. apply cmp_trans.
    + intros _. destruct (c a' a'') eqn:F; [|intros _|done].
      * apply cmp_eq in F as <-. by rewrite E.
      * by rewrite (cmp_trans _ _ _ E F).
Qed.

Lemma pair_cmp_lex p q : pair_cmp p q = lex_cmp (lex_cmp bytes_cmp bytes_cmp) bool_cmp p q.
Proof. unfold pair_cmp, lex_cmp. by repeat destruct (bytes_cmp _ _). Qed.

#[global] Instance pair_ordering : Ordering pair_cmp.
Proof.
  pose proof (lex_ordering (lex_cmp bytes_cmp bytes_cmp) bool_cmp) as [H1 H2 H3].
  split; intros *; rewrite !pair_cmp_lex; [apply H1|apply H2|apply H3].
Qed.

#[global] Instance pair_le_total : Total pair_le.
Proof.
  intros p q. unfold pair_le. rewrite (cmp_opp (cmp:=pair_cmp) p q). destruct (pair_cmp p q); naive_solver.
Qed.

#[global] Instance pair_le_antisym : AntiSymm (=) pair_le.
Proof.
  intros p q. unfold pair_le. rewrite (cmp_opp (cmp:=pair_cmp) p q).
  destruct (pair_cmp p q) eqn:E; [intros _ _; by apply cmp_eq|done..].
Qed.

#[global] Instance pair_le_trans : Transitive pair_le.
Proof.
  intros p q r. unfold pair_le. destruct (pair_cmp p q) eqn:E; [| |done].
  - apply cmp_eq in E as ->. done.
  - intros _. destruct (pair_cmp q r) eqn:F; [|intros _|done].
    + apply cmp_eq in F as <-. by rewrite E.
    + by rewrite (cmp_trans _ _ _ E F).
Qed.

Lemma sort_pairs_idem l : sort_pairs (sort_pairs l) = sort_pairs l.
Proof.
  apply (Sorted_unique pair_le); [apply (Sorted_merge_sort pair_le)..|apply merge_sort_Permutation].
Qed.

(** ** Canonical targets are fixed points *)

Lemma byte_class (p q : byte → bool) b :
  forallb (λ b, negb (p b) || q b) all_bytes = true → p b = true → q b = true.
Proof.
  intros H Hp. pose proof (byte_forall _ H b) as Hb. cbn in Hb. by rewrite Hp in Hb.
Qed.

(** Characters of one class are not of another. *)
Lemma class_excludes (p : byte → bool) c s :
  Forall (λ b, p b = true) s → p c = false → c ∉ s.
Proof. rewrite Forall_forall. intros H Hc Hin. apply H in Hin. congruence. Qed.

Lemma split_escape e s w ws :
  slash_free e → split_on is_slash s = w :: ws → split_on is_slash (e ++ s) = (e ++ w) :: ws.
Proof.
  intros He Hs. induction e as [|b e IH]; [done|]. cbn. unfold is_slash at 1.
  rewrite bool_decide_eq_false_2 by (intros ->; apply He; left).
  by rewrite IH by (intros ?; apply He; by right).
Qed.

Lemma normal_segments s :
  normal path_allowed s → Forall (normal path_allowed) (split_on is_slash s).
Proof.
  induction 1 as [|b s Hb _ IH|b s Hb _ IH]; [by repeat constructor| |].
  - cbn. unfold is_slash at 1. case_bool_decide; [by constructor; [constructor|]|].
    destruct (split_on is_slash s) as [|w ws]; [by repeat constructor|].
    apply Forall_cons in IH as [? ?]. constructor; [by constructor|done].
  - destruct (split_on is_slash s) as [|w ws] eqn:E; [by destruct (split_nonempty s)|].
    rewrite (split_escape _ _ w ws); [|eapply class_excludes; [apply (escape_chars is_unreserved)|]|done];
      [|by vm_compute].
    apply Forall_cons in IH as [? ?]. constructor; [by constructor|done].
Qed.

Lemma normal_render segs : Forall (normal path_allowed) segs → normal path_allowed (render segs).
Proof.
  induction 1 as [|s segs Hs _ IH]; [constructor|]. cbn. apply normal_raw; [by vm_compute|].
  by apply normal_app.
Qed.

(** The normalised path of an absolute path. *)
Lemma path_fixed r n :
  normalize_path (x2f :: r) = Ok n →
  ∃ t, remove_dot_segments n = x2f :: t ∧ normal path_allowed (x2f :: t) ∧
       Forall plain (split_on is_slash t) ∧ normalize_path (x2f :: t) = Ok (x2f :: t) ∧
       remove_dot_segments (x2f :: t) = x2f :: t.
Proof.
  intros Hn. pose proof (normalize_normal _ _ _ Hn) as Hnn. unfold normalize_path in Hn.
  cbn [normalize_percent_encoding] in Hn. rewrite bool_decide_eq_false_2 in Hn by done.
  apply bind_ok in Hn as (m & _ & Hn). change (path_allowed x2f) with true in Hn.
  cbn [app] in Hn. injection Hn as <-.
  destruct (remove_dots_shape m) as (t & Ht & Hp & Hf & Hs). exists t. split; [done|].
  assert (normal path_allowed (x2f :: t)) as Hnt.
  { rewrite <-Ht, remove_dots_resolve. apply normal_render.
    assert (normal path_allowed m) as Hm.
    { by inversion Hnn. }
    apply resolve_Forall; [constructor|done|]. eapply Forall_impl; [by apply normal_segments|]. done. }
  split_and!; try done. by apply normal_normalize; [apply _|].
Qed.

(** A pair that came out of [parse_pair]. *)
Definition pair_ok (p : query_pair) : Prop :=
  p.1.1 ≠ [] ∧ normal is_unreserved p.1.1 ∧ normal is_unreserved p.1.2 ∧ (p.2 = false → p.1.2 = []).

Lemma parse_pair_ok s p : parse_pair s = Ok p → pair_ok p.
Proof.
  unfold parse_pair. intros (_ & _ & H)%bind_ok.
  assert (∀ key value eq, (eq = false → value = []) →
    (_ ← ensure (key ≠! []) InvalidRequestTarget;
     k ← normalize_query_component key; v ← normalize_query_component value; Ok (k, v, eq)) = Ok p →
    pair_ok p) as Hgen.
  { intros key value eq Heq (_ & Hk%ensure_ok & (k & Ek & (v & Ev & [= <-])%bind_ok)%bind_ok)%bind_ok.
    apply negb_true_iff, bool_decide_eq_false_1 in Hk. unfold pair_ok. cbn.
    split_and!; [by eapply normalize_nonempty|by eapply normalize_normal; [apply _|]..|].
    intros ->. rewrite Heq in Ev by done. by injection Ev as <-. }
  destruct (split_once x3d s) as [[k v]|]; [by apply (Hgen k v true)|by apply (Hgen s [] false)].
Qed.

Definition query_char (b : byte) : bool := is_unreserved b || (b =! x25).

Lemma pair_chars s : normal is_unreserved s → Forall (λ b, query_char b = true) s.
Proof. apply (normal_chars is_unreserved). Qed.

Lemma parse_print p : pair_ok p → parse_pair (print_pair p) = Ok p.
Proof.
  destruct p as [[k v] b]. intros (Hk & Nk & Nv & Hb). cbn in *. unfold parse_pair, print_pair. cbn.
  assert (x3d ∉ k) as Hkeq by (eapply class_excludes; [by apply pair_chars|by vm_compute]).
  rewrite bool_decide_eq_false_2 by (by destruct k). cbn [negb ensure mbind result_bind].
  assert (normalize_query_component k = Ok k ∧ normalize_query_component v = Ok v) as [Ek Ev]
    by (split; apply normal_normalize; apply _ || done).
  destruct b.
  - rewrite split_once_app by done. rewrite bool_decide_eq_false_2 by done. cbn.
    rewrite Ek. cbn. by rewrite Ev.
  - rewrite app_nil_r. destruct (split_once x3d k) as [[a c]|] eqn:E.
    { apply split_once_some in E as [-> _]. destruct Hkeq. apply elem_of_app. right. left. }
    rewrite bool_decide_eq_false_2 by done. cbn. rewrite Ek. cbn. rewrite Hb by done. done.
Qed.

Lemma split_join c ws :
  ws ≠ [] → Forall (λ w, c ∉ w) ws → split_on (λ b, b =! c) (join c ws) = ws.
Proof.
  intros Hn Hw. induction Hw as [|w ws Hw Hws IH]; [done|]. destruct ws as [|w' ws].
  - cbn. apply split_on_none, forallb_forall. intros b Hb%list_elem_of_In.
    rewrite bool_decide_eq_false_2; [done|]. by intros ->.
  - specialize (IH ltac:(done)). change (join c (w :: w' :: ws)) with (w ++ c :: join c (w' :: ws)).
    revert IH. generalize (join c (w' :: ws)). intros t IH.
    induction w as [|b w IHw]; cbn; [by rewrite bool_decide_eq_true_2, IH|].
    rewrite bool_decide_eq_false_2 by (intros ->; apply Hw; left).
    by rewrite IHw by (intros Hin; apply Hw; by right).
Qed.

Lemma join_Forall (Q : byte → Prop) c ws :
  Q c → Forall (Forall Q) ws → Forall Q (join c ws).
Proof.
  intros Hc. induction 1 as [|w ws Hw Hws IH]; [done|]. destruct ws; [done|].
  change (Forall Q (w ++ c :: join c (l :: ws))). apply Forall_app. split; [done|by constructor].
Qed.

(** The characters of a canonical target. *)
Definition target_char (b : byte) : bool := path_allowed b || one_of (str "%?") b.

Lemma valid_target_chars r :
  Forall (λ b, target_char b = true) r → valid_target (x2f :: r) = true.
Proof.
  intros Hr. unfold valid_target. assert (Forall (λ b, target_char b = true) (x2f :: r)) as Hall
    by (constructor; [by vm_compute|done]).
  assert (bool_decide (is_Some (strip_prefix (str "/") (x2f :: r))) = true) as ->
    by (apply bool_decide_eq_true_2; by eexists).
  assert (forallb (λ b, byte_val b <? 128) (x2f :: r) = true) as ->.
  { apply forallb_forall. intros b Hb%list_elem_of_In. rewrite Forall_forall in Hall.
    apply (byte_class target_char (λ b, byte_val b <? 128) b); [vm_compute; reflexivity|by apply Hall]. }
  assert (existsb (λ b, is_ascii_control b || (b =! x5c) || (b =! x23)) (x2f :: r) = false) as ->; [|done].
  apply not_true_iff_false. intros (b & Hb%list_elem_of_In & Hc)%existsb_exists.
  rewrite Forall_forall in Hall. apply Hall in Hb.
  apply (byte_class target_char (λ b, negb (is_ascii_control b || (b =! x5c) || (b =! x23))) b) in Hb;
    [|vm_compute; reflexivity]. by rewrite Hc in Hb.
Qed.

Lemma valid_target_slash value : valid_target value = true → ∃ r, value = x2f :: r.
Proof.
  unfold valid_target. intros H. split_bools.
  match goal with H : is_Some _ |- _ => destruct H as [r Hr%strip_prefix_some] end. by exists r.
Qed.

(** A path and, when there is a query, its sorted pairs. *)
Definition print_target (r : rstr) (pairs : list query_pair) : rstr :=
  x2f :: r ++ match pairs with [] => [] | _ => x3f :: join x26 (print_pair <$> pairs) end.

Record fixed_target (r : rstr) (pairs : list query_pair) : Prop := {
  ft_normal : normal path_allowed (x2f :: r);
  ft_plain : Forall plain (split_on is_slash r);
  ft_dots : remove_dot_segments (x2f :: r) = x2f :: r;
  ft_pairs : Forall pair_ok pairs;
  ft_sorted : sort_pairs pairs = pairs }.

Lemma sort_pairs_nil l : sort_pairs l = [] → l = [].
Proof.
  intros H. symmetry. apply Permutation_nil_l. rewrite <-H. apply (merge_sort_Permutation pair_le).
Qed.

Lemma target_parse value t :
  canonical_request_target value = Ok t → ∃ r pairs, fixed_target r pairs ∧ t = print_target r pairs.
Proof.
  unfold canonical_request_target. intros (_ & Hv%ensure_ok & H)%bind_ok.
  apply valid_target_slash in Hv as [v ->].
  assert (∃ p q, match split_once x3f (x2f :: v) with
    | Some (path, query) => (path, Some query) | None => (x2f :: v, None) end = (x2f :: p, q)) as (p & q & E).
  { cbn. rewrite bool_decide_eq_false_2 by done. destruct (split_once x3f v) as [[a b]|]; eauto. }
  rewrite E in H. apply bind_ok in H as (n & Hn & H).
  destruct (path_fixed p n Hn) as (r & Hr & Nr & Pr & _ & Dr). rewrite Hr in H.
  apply bind_ok in H as (_ & _ & H). exists r.
  destruct q as [[|c q]|].
  - injection H as <-. exists []. split; [by split|]. unfold print_target. by rewrite app_nil_r.
  - apply bind_ok in H as (_ & _ & (pairs & Hp & [= <-])%bind_ok).
    apply collect_ok in Hp. exists (sort_pairs pairs). split.
    + split; try done; [|apply sort_pairs_idem].
      assert (Forall pair_ok pairs) as Hok.
      { clear -Hp. induction Hp as [|a b l l' Hab _ IH]; constructor; [by eapply parse_pair_ok|done]. }
      unfold sort_pairs. by rewrite (merge_sort_Permutation pair_le pairs).
    + unfold print_target. destruct (sort_pairs pairs) eqn:Es; [|done].
      apply sort_pairs_nil in Es as ->.
      destruct (split_on_cons (λ b, b =! x26) (c :: q)) as (w & ws & Ew & _).
      rewrite Ew in Hp. by inversion Hp.
  - injection H as <-. exists []. split; [by split|]. unfold print_target. by rewrite app_nil_r.
Qed.

Lemma print_pair_chars p :
  pair_ok p → Forall (λ b, query_char b || (b =! x3d) = true) (print_pair p).
Proof.
  destruct p as [[k v] b]. intros (_ & Hk%pair_chars & Hv%pair_chars & _). unfold print_pair. cbn in *.
  assert (∀ s, Forall (λ b, query_char b = true) s → Forall (λ b, query_char b || (b =! x3d) = true) s) as Hw
    by (intros s Hs; eapply Forall_impl; [exact Hs|]; intros c Hc; cbn in Hc; by rewrite Hc).
  apply Forall_app. split; [auto|]. destruct b; [|done]. constructor; [by vm_compute|auto].
Qed.

(** A printed query is read back. *)
Lemma print_query l :
  l ≠ [] → Forall pair_ok l →
  let q := join x26 (print_pair <$> l) in
  q ≠ [] ∧ Forall (λ b, query_char b || one_of (str "=&") b = true) q ∧
  split_on (λ b, b =! x26) q = print_pair <$> l ∧ collect parse_pair (print_pair <$> l) = Ok l.
Proof.
  intros Hn Hok q.
  assert (Forall (λ w, Forall (λ b, query_char b || (b =! x3d) = true) w) (print_pair <$> l)) as Hch
    by (apply Forall_fmap; eapply Forall_impl; [exact Hok|]; apply print_pair_chars).
  split_and!.
  - destruct l as [|p ps]; [done|]. apply Forall_cons in Hok as [(Hk & _) _].
    destruct p as [[[|k0 k] v] b]; [done|]. unfold q. cbn. by destruct (print_pair <$> ps).
  - apply join_Forall; [by vm_compute|]. eapply Forall_impl; [exact Hch|].
    intros w Hw. eapply Forall_impl; [exact Hw|]. intros b Hb.
    apply (byte_class (λ b, query_char b || (b =! x3d)) (λ b, query_char b || one_of (str "=&") b));
      [vm_compute; reflexivity|done].
  - apply split_join; [by destruct l|]. eapply Forall_impl; [exact Hch|].
    intros w Hw. eapply class_excludes; [exact Hw|by vm_compute].
  - apply collect_map. eapply Forall_impl; [exact Hok|]. apply parse_print.
Qed.

Lemma weaken_chars (p : byte → bool) s :
  forallb (λ b, negb (p b) || target_char b) all_bytes = true →
  Forall (λ b, p b = true) s → Forall (λ b, target_char b = true) s.
Proof. intros Hp Hs. eapply Forall_impl; [exact Hs|]. intros b. by apply byte_class. Qed.

Lemma target_print r pairs :
  fixed_target r pairs → canonical_request_target (print_target r pairs) = Ok (print_target r pairs).
Proof.
  intros [Hn _ Hd Hok Hs].
  assert (Forall (λ b, path_allowed b || (b =! x25) = true) r) as Hr.
  { pose proof (normal_chars _ _ Hn) as Hc. by apply Forall_cons in Hc as [_ Hc]. }
  assert (x3f ∉ x2f :: r) as Hq.
  { intros [|Hin]%elem_of_cons; [done|]. revert Hin. eapply class_excludes; [exact Hr|by vm_compute]. }
  apply weaken_chars in Hr; [|vm_compute; reflexivity].
  assert (normalize_path (x2f :: r) = Ok (x2f :: r)) as Hnp by (by apply normal_normalize; [apply _|]).
  unfold canonical_request_target. destruct pairs as [|p ps].
  - unfold print_target. rewrite app_nil_r, valid_target_chars by done. cbn [ensure mbind result_bind].
    destruct (split_once x3f (x2f :: r)) as [[a b]|] eqn:E.
    { apply split_once_some in E as [E _]. destruct Hq. rewrite E. apply elem_of_app. right. left. }
    rewrite Hnp. cbn [mbind result_bind]. by rewrite Hd.
  - destruct (print_query (p :: ps)) as (Hne & Hqc & Hsp & Hcol); [done|done|].
    assert (join x26 (print_pair <$> sort_pairs (p :: ps)) = join x26 (print_pair <$> (p :: ps))) as Hj
      by (by rewrite Hs).
    change (print_target r (p :: ps)) with ((x2f :: r) ++ x3f :: join x26 (print_pair <$> (p :: ps))).
    revert Hne Hqc Hsp Hcol Hj. generalize (join x26 (print_pair <$> (p :: ps))). generalize (p :: ps).
    intros l q Hne Hqc Hsp Hcol Hj.
    rewrite split_once_app by done. cbn [app]. rewrite valid_target_chars.
    2:{ apply Forall_app. split; [done|]. constructor; [by vm_compute|].
        eapply weaken_chars; [|exact Hqc]. vm_compute. reflexivity. }
    cbn [ensure mbind result_bind]. rewrite Hnp. cbn [mbind result_bind]. rewrite Hd.
    assert (contains_byte x2b q = false) as Hplus.
    { apply bool_decide_eq_false_2. eapply class_excludes; [exact Hqc|by vm_compute]. }
    destruct q as [|c q]; [done|]. rewrite Hplus, Hsp. cbn [negb ensure mbind result_bind].
    rewrite Hcol. cbn [mbind result_bind]. by rewrite Hj.
Qed.

(** ** Theorems *)

(** C33: The loop of [remove_dot_segments] ends on every string, absolute or
    not, after at most as many iterations as the string has bytes: each
    iteration shortens the input, and any larger bound gives the same result. *)
Theorem dot_segments_terminate value fuel :
  (∀ input output, input ≠ [] → (length (dot_step input output).1 < length input)%nat) ∧
  ((length value ≤ fuel)%nat → dot_loop fuel value [] = Some (remove_dot_segments value)).
Proof.
  split; [apply dot_step_shrinks|]. intros Hl.
  destruct (dot_loop_total (length value) value []) as [out Ho]; [done|].
  unfold remove_dot_segments. rewrite Ho. by eapply dot_loop_more.
Qed.

Lemma dot_segments_terminate_witness :
  dot_loop 12 (str "../a/./b/..") [] = Some (remove_dot_segments (str "../a/./b/..")).
Proof. apply (dot_segments_terminate (str "../a/./b/..") 12). vm_compute. lia. Defined.

(** C32: The string loop is the segment algorithm: on an absolute path it
    computes what processing the segments with a stack gives, where [.] is
    dropped, [..] removes the segment before it, and both leave a final slash at
    the end. *)
Theorem dot_segments_reference r :
  remove_dot_segments (x2f :: r) = render (resolve [] (split_on is_slash r)).
Proof. apply remove_dots_resolve. Qed.

(** Canonical targets are a normal form: canonicalising a canonical target
    changes nothing, and its path is absolute, has no question mark and no dot
    segment, also not one that was percent-encoded in the request. *)
Theorem canonical_target_normal_form value t :
  canonical_request_target value = Ok t →
  canonical_request_target t = Ok t ∧
  ∃ r q, t = x2f :: (r ++ q) ∧ (x3f ∉ r) ∧ (q = [] ∨ ∃ q', q = x3f :: q') ∧
         Forall plain (split_on is_slash r).
Proof.
  intros (r & pairs & Hf & ->)%target_parse. split; [by apply target_print|].
  destruct Hf as [Hn Hp _ _ _]. exists r. eexists. split; [done|]. split.
  - pose proof (normal_chars _ _ Hn) as Hc. apply Forall_cons in Hc as [_ Hc].
    eapply class_excludes; [exact Hc|by vm_compute].
  - split; [destruct pairs; eauto|done].
Qed.

Lemma canonical_target_normal_form_witness :
  canonical_request_target (str "/a/c%2Fd?a=1&a=~&b&z=1") = Ok (str "/a/c%2Fd?a=1&a=~&b&z=1").
Proof.
  apply (canonical_target_normal_form (str "/a/./b/%2e%2E/c%2fd?z=1&a=%7e&b&a=1")).
  vm_compute. reflexivity.
Defined.

(** ** What the bindings of a request determine *)

Inductive BoundRequest :=
| ApiRequest (method request_target : rstr) (body_hash : bytes)
    (request_id device_id account_id : rstr) (timestamp : Z) (api_nonce : rstr)
| OperationBinding (account_id device_id purpose method request_target : rstr)
    (body_hash : bytes) (request_id : rstr) (expires_at : Z)
| IdempotencyBinding (account_id device_id method request_target : rstr) (body_hash : bytes).

Definition bound_bytes (r : BoundRequest) : result CanonicalError bytes :=
  match r with
  | ApiRequest m t h i d a ts n => canonical_api_request_bytes m t h i d a ts n
  | OperationBinding a d p m t h i e => canonical_operation_binding_bytes a d p m t h i e
  | IdempotencyBinding a d m t h => canonical_idempotency_binding_bytes a d m t h
  end.

Definition bound_times (r : BoundRequest) : Prop :=
  match r with
  | ApiRequest _ _ _ _ _ _ t _ | OperationBinding _ _ _ _ _ _ _ t => in_u64 t
  | IdempotencyBinding _ _ _ _ _ => True
  end.

(** The same request, up to the spelling of its method and target. *)
Definition canonical_request (r : BoundRequest) : option BoundRequest :=
  match r with
  | ApiRequest m t h i d a ts n =>
      m ← ok (canonical_http_method m); t ← ok (canonical_request_target t);
      Some (ApiRequest m t h i d a ts n)
  | OperationBinding a d p m t h i e =>
      m ← ok (canonical_http_method m); t ← ok (canonical_request_target t);
      Some (OperationBinding a d p m t h i e)
  | IdempotencyBinding a d m t h =>
      m ← ok (canonical_http_method m); t ← ok (canonical_request_target t);
      Some (IdempotencyBinding a d m t h)
  end.

Definition bound_fields (r : BoundRequest) : list field :=
  match r with
  | ApiRequest m t h i d a ts n =>
      [(str "domain", str "rctl-api-input-v1"); (str "method", m); (str "path", t);
       (str "body_hash", h); (str "request_id", i); (str "device_id", d); (str "account_id", a);
       (str "timestamp", be_bytes 8 ts); (str "api_nonce", n)]
  | OperationBinding a d p m t h i e =>
      [(str "domain", str "rctl-operation-binding-v1"); (str "account_id", a); (str "device_id", d);
       (str "purpose", p); (str "method", m); (str "path", t); (str "body_hash", h);
       (str "request_id", i); (str "expires_at_epoch_millis", be_bytes 8 e)]
  | IdempotencyBinding a d m t h =>
      [(str "domain", str "rctl-idempotency-binding-v1"); (str "account_id", a); (str "device_id", d);
       (str "method", m); (str "path", t); (str "body_hash", h)]
  end.

Lemma bound_writes r bs :
  bound_bytes r = Ok bs →
  ∃ c, canonical_request r = Some c ∧ writes {| cw_bytes := bs |} (bound_fields c) ∧
       (bound_times r → bound_times c).
Proof.
  destruct r; cbn [bound_bytes canonical_request];
    unfold canonical_api_request_bytes, canonical_operation_binding_bytes,
      canonical_idempotency_binding_bytes; intros H;
    apply bind_ok in H as (m & -> & H); apply bind_ok in H as (t & -> & H);
    eexists; (split; [reflexivity|]); (split; [|done]); revert H;
    (intros H; collect_fields; match goal with H : writes _ _ |- _ => exact H end).
Qed.

Lemma bound_fields_inj r r' :
  bound_times r → bound_times r' → bound_fields r = bound_fields r' → r = r'.
Proof.
  intros Ht Ht' H. destruct r, r'; cbn in H; try (by injection H); cbn in Ht, Ht'.
  all: split_fields H; repeat match goal with
    | H : be_bytes _ _ = be_bytes _ _ |- _ => apply be_bytes_inj in H; [|done|done] end; by subst.
Qed.

(** The bytes a device signs for a request, those of a step-up operation and
    those of an idempotency key determine the request: two requests with the same
    bytes are of the same kind and have the same canonical method and target, body
    hash, identifiers and times. So a signature made for one kind is never valid
    for another, and only spellings with the same canonical form share one. *)
Theorem bound_request_injective r r' bs :
  bound_times r → bound_times r' → bound_bytes r = Ok bs → bound_bytes r' = Ok bs →
  ∃ c, canonical_request r = Some c ∧ canonical_request r' = Some c.
Proof.
  intros Ht Ht' (c & Hc & [Fc Ec] & Tc)%bound_writes (c' & Hc' & [Fc' Ec'] & Tc')%bound_writes.
  exists c. split; [done|]. rewrite Hc'. f_equal. symmetry.
  apply bound_fields_inj; [auto|auto|]. apply encode_fields_inj; [done..|]. cbn in *. congruence.
Qed.

Lemma bound_request_injective_witness :
  let a := ApiRequest (str "get") (str "/v1/./devices?b=2&a=1") (repeat x01 32) (str "r") (str "d") (str "a") 5 (str "n") in
  let b := ApiRequest (str "GET") (str "/v1/devices?a=1&b=%32") (repeat x01 32) (str "r") (str "d") (str "a") 5 (str "n") in
  ∃ c, canonical_request a = Some c ∧ canonical_request b = Some c.
Proof.
  intros a b. destruct (is_ok_ex (bound_bytes a)) as [bs E]; [vm_compute; reflexivity|].
  apply (bound_request_injective a b bs); [vm_compute; split; congruence..|exact E|].
  rewrite <-E. vm_compute. reflexivity.
Defined.
