(* ===== verification/Security.v ===== *)
(** * Session identities, permissions and signed structures

    Models crates/remote-protocol/src/security.rs and permissions.rs: roles,
    transport paths, traffic directions, the nine session permissions, and the
    structures whose canonical encodings are hashed, signed or MACed during the
    key exchange. *)

From S2P Require Import Prelude Header Canonical.

Inductive SessionRole := Controller | Controlled.
#[global] Instance SessionRole_eq_dec : EqDecision SessionRole.
Proof. solve_decision. Defined.

Definition role_as_str (r : SessionRole) : rstr :=
  match r with Controller => str "controller" | Controlled => str "controlled" end.

Inductive TransportPath := LanDirect | UdpP2p | QuicRelay | Tls443Relay.
#[global] Instance TransportPath_eq_dec : EqDecision TransportPath.
Proof. solve_decision. Defined.

Definition path_as_str (p : TransportPath) : rstr :=
  match p with
  | LanDirect => str "lan_direct"
  | UdpP2p => str "udp_p2p"
  | QuicRelay => str "quic_relay"
  | Tls443Relay => str "tls_443_relay"
  end.

Definition is_relay (p : TransportPath) : bool :=
  match p with QuicRelay | Tls443Relay => true | _ => false end.

Inductive TrafficDirection := ControllerToControlled | ControlledToController.
#[global] Instance TrafficDirection_eq_dec : EqDecision TrafficDirection.
Proof. solve_decision. Defined.

Definition direction_as_str (d : TrafficDirection) : rstr :=
  match d with
  | ControllerToControlled => str "controller_to_controlled"
  | ControlledToController => str "controlled_to_controller"
  end.

Definition from_sender_role (r : SessionRole) : TrafficDirection :=
  match r with
  | Controller => ControllerToControlled
  | Controlled => ControlledToController
  end.

Definition reverse_direction (d : TrafficDirection) : TrafficDirection :=
  match d with
  | ControllerToControlled => ControlledToController
  | ControlledToController => ControllerToControlled
  end.

(** The role of the other side, as [verify_peer_key_confirm] and
    [RoleHandshake::expected_peer_role] compute it. *)
Definition peer_role (r : SessionRole) : SessionRole :=
  match r with Controller => Controlled | Controlled => Controller end.

(** ** Permissions *)

Record Permissions := {
  pm_remote_desktop : bool; pm_input_control : bool; pm_clipboard : bool;
  pm_file_transfer : bool; pm_unattended : bool }.

Record SessionPermissions := {
  remote_desktop : bool; input_control : bool; clipboard : bool;
  file_transfer : bool; unattended : bool; privacy_screen : bool;
  block_local_input : bool; require_prompt : bool; allow_relay : bool }.

#[global] Instance SessionPermissions_eq_dec : EqDecision SessionPermissions.
Proof. solve_decision. Defined.

Definition permissions_default : SessionPermissions := {|
  remote_desktop := false; input_control := false; clipboard := false;
  file_transfer := false; unattended := false; privacy_screen := false;
  block_local_input := false; require_prompt := true; allow_relay := false |}.

Definition from_permissions (v : Permissions) : SessionPermissions := {|
  remote_desktop := v.(pm_remote_desktop); input_control := v.(pm_input_control);
  clipboard := v.(pm_clipboard); file_transfer := v.(pm_file_transfer);
  unattended := v.(pm_unattended);
  privacy_screen := permissions_default.(privacy_screen);
  block_local_input := permissions_default.(block_local_input);
  require_prompt := permissions_default.(require_prompt);
  allow_relay := permissions_default.(allow_relay) |}.

Definition permissions_canonical_bytes (p : SessionPermissions)
    : result CanonicalError bytes :=
  let w := without_domain in
  w ← push_bool w (str "remote_desktop") p.(remote_desktop);
  w ← push_bool w (str "input_control") p.(input_control);
  w ← push_bool w (str "clipboard") p.(clipboard);
  w ← push_bool w (str "file_transfer") p.(file_transfer);
  w ← push_bool w (str "unattended") p.(unattended);
  w ← push_bool w (str "privacy_screen") p.(privacy_screen);
  w ← push_bool w (str "block_local_input") p.(block_local_input);
  w ← push_bool w (str "require_prompt") p.(require_prompt);
  w ← push_bool w (str "allow_relay") p.(allow_relay);
  Ok (finish w).

(** ** Session context *)

Record SessionContext := {
  sc_account_id : rstr;
  sc_session_id : Z;
  sc_controller_device_id : rstr;
  sc_controlled_device_id : rstr;
  sc_permissions_digest : bytes;
  sc_protocol_version : Z;
  sc_session_expires_at : Z }.

Definition session_context_canonical_bytes (c : SessionContext)
    : result CanonicalError bytes :=
  w ← writer_new (str "rctl-session-context-v1");
  w ← push_str w (str "account_id") c.(sc_account_id);
  w ← push_u128 w (str "session_id") c.(sc_session_id);
  w ← push_str w (str "controller_device_id") c.(sc_controller_device_id);
  w ← push_str w (str "controlled_device_id") c.(sc_controlled_device_id);
  w ← push_field w (str "permissions_digest") c.(sc_permissions_digest);
  w ← push_u16 w (str "protocol_version") c.(sc_protocol_version);
  w ← push_u64 w (str "session_expires_at_epoch_millis") c.(sc_session_expires_at);
  Ok (finish w).

(** ** Key exchange *)

Record SignedKeyExchangePayload := {
  kx_session_id : Z;
  kx_device_id : rstr;
  kx_role : SessionRole;
  kx_session_context_hash : bytes;
  kx_permissions_digest : bytes;
  kx_session_expires_at : Z;
  kx_ephemeral_public_key : bytes;
  kx_nonce : bytes;
  kx_transport_path : TransportPath;
  kx_candidate_pair_id : Z;
  kx_relay_node_id : option rstr;
  kx_timestamp : Z }.

#[global] Instance SignedKeyExchangePayload_eq_dec : EqDecision SignedKeyExchangePayload.
Proof. solve_decision. Defined.

Definition key_exchange_canonical_bytes (p : SignedKeyExchangePayload)
    : result CanonicalError bytes :=
  w ← writer_new (str "rctl-signed-key-exchange-v1");
  w ← push_u128 w (str "session_id") p.(kx_session_id);
  w ← push_str w (str "device_id") p.(kx_device_id);
  w ← push_str w (str "role") (role_as_str p.(kx_role));
  w ← push_field w (str "session_context_hash") p.(kx_session_context_hash);
  w ← push_field w (str "permissions_digest") p.(kx_permissions_digest);
  w ← push_u64 w (str "session_expires_at_epoch_millis") p.(kx_session_expires_at);
  w ← push_field w (str "ephemeral_public_key") p.(kx_ephemeral_public_key);
  w ← push_field w (str "key_exchange_nonce") p.(kx_nonce);
  w ← push_str w (str "selected_transport_path") (path_as_str p.(kx_transport_path));
  w ← push_u128 w (str "selected_candidate_pair_id") p.(kx_candidate_pair_id);
  w ← push_optional_str w (str "relay_node_id") p.(kx_relay_node_id);
  w ← push_u64 w (str "timestamp") p.(kx_timestamp);
  Ok (finish w).

Definition validate_path_binding (p : SignedKeyExchangePayload) : bool :=
  Bool.eqb (is_relay p.(kx_transport_path)) (bool_decide (is_Some p.(kx_relay_node_id))).

Record SignedKeyExchange := {
  ske_payload : SignedKeyExchangePayload;
  ske_signature : bytes }.

(** [signature.as_slice().try_into().ok()] for [[u8; 64]]. *)
Definition signature_bytes (m : SignedKeyExchange) : option bytes :=
  if (length m.(ske_signature) =? 64)%nat then Some m.(ske_signature) else None.

Record KeyConfirm := {
  kc_session_id : Z;
  kc_device_id : rstr;
  kc_role : SessionRole;
  kc_transcript_hash : bytes;
  kc_mac : bytes;
  kc_timestamp : Z }.

Definition key_confirm_mac_input (c : KeyConfirm) : result CanonicalError bytes :=
  w ← writer_new (str "rctl-key-confirm-v1");
  w ← push_u128 w (str "session_id") c.(kc_session_id);
  w ← push_str w (str "device_id") c.(kc_device_id);
  w ← push_str w (str "role") (role_as_str c.(kc_role));
  w ← push_field w (str "key_exchange_transcript_hash") c.(kc_transcript_hash);
  w ← push_u64 w (str "timestamp") c.(kc_timestamp);
  Ok (finish w).

Record SessionKdfContext := {
  kdf_account_id : rstr;
  kdf_session_id : Z;
  kdf_controller_device_id : rstr;
  kdf_controlled_device_id : rstr;
  kdf_permissions_digest : bytes;
  kdf_protocol_version : Z;
  kdf_session_expires_at : Z;
  kdf_transport_path : TransportPath;
  kdf_candidate_pair_id : Z;
  kdf_relay_node_id : option rstr;
  kdf_transcript_hash : bytes }.

Definition salt_canonical_bytes (k : SessionKdfContext) : result CanonicalError bytes :=
  w ← writer_new (str "rctl-hkdf-salt-v1");
  w ← push_u128 w (str "session_id") k.(kdf_session_id);
  w ← push_str w (str "controller_device_id") k.(kdf_controller_device_id);
  w ← push_str w (str "controlled_device_id") k.(kdf_controlled_device_id);
  w ← push_field w (str "permissions_digest") k.(kdf_permissions_digest);
  w ← push_u64 w (str "session_expires_at_epoch_millis") k.(kdf_session_expires_at);
  Ok (finish w).

Definition info_base (k : SessionKdfContext) : result CanonicalError bytes :=
  w ← writer_new (str "rctl-session-v1");
  w ← push_str w (str "account_id") k.(kdf_account_id);
  w ← push_u128 w (str "session_id") k.(kdf_session_id);
  w ← push_str w (str "controller_device_id") k.(kdf_controller_device_id);
  w ← push_str w (str "controlled_device_id") k.(kdf_controlled_device_id);
  w ← push_field w (str "permissions_digest") k.(kdf_permissions_digest);
  w ← push_u16 w (str "protocol_version") k.(kdf_protocol_version);
  w ← push_u64 w (str "session_expires_at_epoch_millis") k.(kdf_session_expires_at);
  w ← push_str w (str "selected_transport_path") (path_as_str k.(kdf_transport_path));
  w ← push_u128 w (str "selected_candidate_pair_id") k.(kdf_candidate_pair_id);
  w ← push_optional_str w (str "relay_node_id") k.(kdf_relay_node_id);
  w ← push_field w (str "key_exchange_transcript_hash") k.(kdf_transcript_hash);
  Ok (finish w).

(** ** Field lists of the encodings *)

Definition bool_byte (b : bool) : bytes := [if b then x01 else x00].

Definition domain_field (d : rstr) : field := (str "domain", d).

Definition permissions_fields (p : SessionPermissions) : list field :=
  [(str "remote_desktop", bool_byte p.(remote_desktop));
   (str "input_control", bool_byte p.(input_control));
   (str "clipboard", bool_byte p.(clipboard));
   (str "file_transfer", bool_byte p.(file_transfer));
   (str "unattended", bool_byte p.(unattended));
   (str "privacy_screen", bool_byte p.(privacy_screen));
   (str "block_local_input", bool_byte p.(block_local_input));
   (str "require_prompt", bool_byte p.(require_prompt));
   (str "allow_relay", bool_byte p.(allow_relay))].

Definition session_context_fields (c : SessionContext) : list field :=
  [domain_field (str "rctl-session-context-v1");
   (str "account_id", c.(sc_account_id));
   (str "session_id", be_bytes 16 c.(sc_session_id));
   (str "controller_device_id", c.(sc_controller_device_id));
   (str "controlled_device_id", c.(sc_controlled_device_id));
   (str "permissions_digest", c.(sc_permissions_digest));
   (str "protocol_version", be_bytes 2 c.(sc_protocol_version));
   (str "session_expires_at_epoch_millis", be_bytes 8 c.(sc_session_expires_at))].

Definition key_exchange_fields (p : SignedKeyExchangePayload) : list field :=
  [domain_field (str "rctl-signed-key-exchange-v1");
   (str "session_id", be_bytes 16 p.(kx_session_id));
   (str "device_id", p.(kx_device_id));
   (str "role", role_as_str p.(kx_role));
   (str "session_context_hash", p.(kx_session_context_hash));
   (str "permissions_digest", p.(kx_permissions_digest));
   (str "session_expires_at_epoch_millis", be_bytes 8 p.(kx_session_expires_at));
   (str "ephemeral_public_key", p.(kx_ephemeral_public_key));
   (str "key_exchange_nonce", p.(kx_nonce));
   (str "selected_transport_path", path_as_str p.(kx_transport_path));
   (str "selected_candidate_pair_id", be_bytes 16 p.(kx_candidate_pair_id));
   (str "relay_node_id", default [] p.(kx_relay_node_id));
   (str "timestamp", be_bytes 8 p.(kx_timestamp))].

Definition key_confirm_fields (c : KeyConfirm) : list field :=
  [domain_field (str "rctl-key-confirm-v1");
   (str "session_id", be_bytes 16 c.(kc_session_id));
   (str "device_id", c.(kc_device_id));
   (str "role", role_as_str c.(kc_role));
   (str "key_exchange_transcript_hash", c.(kc_transcript_hash));
   (str "timestamp", be_bytes 8 c.(kc_timestamp))].

Definition info_fields (k : SessionKdfContext) : list field :=
  [domain_field (str "rctl-session-v1");
   (str "account_id", k.(kdf_account_id));
   (str "session_id", be_bytes 16 k.(kdf_session_id));
   (str "controller_device_id", k.(kdf_controller_device_id));
   (str "controlled_device_id", k.(kdf_controlled_device_id));
   (str "permissions_digest", k.(kdf_permissions_digest));
   (str "protocol_version", be_bytes 2 k.(kdf_protocol_version));
   (str "session_expires_at_epoch_millis", be_bytes 8 k.(kdf_session_expires_at));
   (str "selected_transport_path", path_as_str k.(kdf_transport_path));
   (str "selected_candidate_pair_id", be_bytes 16 k.(kdf_candidate_pair_id));
   (str "relay_node_id", default [] k.(kdf_relay_node_id));
   (str "key_exchange_transcript_hash", k.(kdf_transcript_hash))].

Ltac solve_writes :=
  intros H; collect_fields; match goal with H : writes _ _ |- _ => exact H end.

Lemma permissions_writes p bs :
  permissions_canonical_bytes p = Ok bs →
  writes {| cw_bytes := bs |} (permissions_fields p).
Proof. unfold permissions_canonical_bytes. solve_writes. Qed.

Lemma session_context_writes c bs :
  session_context_canonical_bytes c = Ok bs →
  writes {| cw_bytes := bs |} (session_context_fields c).
Proof. unfold session_context_canonical_bytes. solve_writes. Qed.

Lemma key_exchange_writes p bs :
  key_exchange_canonical_bytes p = Ok bs →
  writes {| cw_bytes := bs |} (key_exchange_fields p).
Proof. unfold key_exchange_canonical_bytes. solve_writes. Qed.

Lemma key_confirm_writes c bs :
  key_confirm_mac_input c = Ok bs →
  writes {| cw_bytes := bs |} (key_confirm_fields c).
Proof. unfold key_confirm_mac_input. solve_writes. Qed.

Lemma info_writes k bs :
  info_base k = Ok bs → writes {| cw_bytes := bs |} (info_fields k).
Proof. unfold info_base. solve_writes. Qed.

#[global] Instance role_as_str_inj : Inj (=) (=) role_as_str.
Proof. by intros [] []. Qed.
#[global] Instance path_as_str_inj : Inj (=) (=) path_as_str.
Proof. by intros [] []. Qed.
#[global] Instance direction_as_str_inj : Inj (=) (=) direction_as_str.
Proof. by intros [] []. Qed.
#[global] Instance bool_byte_inj : Inj (=) (=) bool_byte.
Proof. by intros [] []. Qed.

(** An optional string whose presence is fixed by another field is determined
    by the string that is written for it. *)
Lemma optional_by_flag (f : bool) (a b : option rstr) :
  bool_decide (is_Some a) = f → bool_decide (is_Some b) = f →
  default [] a = default [] b → a = b.
Proof.
  intros Ha Hb H. rewrite <-Hb in Ha.
  destruct a, b; cbn in *; try congruence; by rewrite bool_decide_eq_true_2 in * by eauto.
Qed.

(** From the equality of encoded field values to that of the values. *)
Ltac unwrap_values :=
  repeat match goal with
  | H : be_bytes _ _ = be_bytes _ _ |- _ => apply be_bytes_inj in H; [|done|done]
  | H : role_as_str _ = role_as_str _ |- _ => apply (inj role_as_str) in H
  | H : path_as_str _ = path_as_str _ |- _ => apply (inj path_as_str) in H
  | H : bool_byte _ = bool_byte _ |- _ => apply (inj bool_byte) in H
  | H : Bool.eqb _ _ = true |- _ => apply Bool.eqb_prop in H
  | H : ?x = ?x |- _ => clear H
  end; subst.

(** ** One sum type for everything that is signed, hashed or MACed *)

Inductive signed_struct :=
| SPermissions (p : SessionPermissions)
| SContext (c : SessionContext)
| SKeyExchange (p : SignedKeyExchangePayload)
| SKeyConfirm (c : KeyConfirm)
| SKdfInfo (k : SessionKdfContext).

Definition signed_canonical (s : signed_struct) : result CanonicalError bytes :=
  match s with
  | SPermissions p => permissions_canonical_bytes p
  | SContext c => session_context_canonical_bytes c
  | SKeyExchange p => key_exchange_canonical_bytes p
  | SKeyConfirm c => key_confirm_mac_input c
  | SKdfInfo k => info_base k
  end.

Definition signed_fields (s : signed_struct) : list field :=
  match s with
  | SPermissions p => permissions_fields p
  | SContext c => session_context_fields c
  | SKeyExchange p => key_exchange_fields p
  | SKeyConfirm c => key_confirm_fields c
  | SKdfInfo k => info_fields k
  end.

(** Field widths, and the path binding the code checks before it signs
    ([sign_key_exchange], [derive_session_keys]). *)
Definition signed_wf (s : signed_struct) : Prop :=
  match s with
  | SPermissions _ => True
  | SContext c => in_u128 c.(sc_session_id) ∧ in_u16 c.(sc_protocol_version) ∧
      in_u64 c.(sc_session_expires_at)
  | SKeyExchange p => in_u128 p.(kx_session_id) ∧ in_u64 p.(kx_session_expires_at) ∧
      in_u128 p.(kx_candidate_pair_id) ∧ in_u64 p.(kx_timestamp) ∧
      validate_path_binding p = true
  | SKeyConfirm c => in_u128 c.(kc_session_id) ∧ in_u64 c.(kc_timestamp)
  | SKdfInfo k => in_u128 k.(kdf_session_id) ∧ in_u16 k.(kdf_protocol_version) ∧
      in_u64 k.(kdf_session_expires_at) ∧ in_u128 k.(kdf_candidate_pair_id) ∧
      is_relay k.(kdf_transport_path) = bool_decide (is_Some k.(kdf_relay_node_id))
  end.

(** The MAC of a key confirmation is computed over the other fields, so it is
    not part of what the encoding determines. *)
Definition erase_mac (s : signed_struct) : signed_struct :=
  match s with
  | SKeyConfirm c => SKeyConfirm
      {| kc_session_id := c.(kc_session_id); kc_device_id := c.(kc_device_id);
         kc_role := c.(kc_role); kc_transcript_hash := c.(kc_transcript_hash);
         kc_mac := []; kc_timestamp := c.(kc_timestamp) |}
  | s => s
  end.

Lemma signed_writes s bs :
  signed_canonical s = Ok bs → writes {| cw_bytes := bs |} (signed_fields s).
Proof.
  destruct s; cbn; eauto using permissions_writes, session_context_writes,
    key_exchange_writes, key_confirm_writes, info_writes.
Qed.

(** The first field of an encoding, its domain, identifies the structure kind. *)
Definition signed_tag (s : signed_struct) : nat :=
  match s with
  | SPermissions _ => 0 | SContext _ => 1 | SKeyExchange _ => 2
  | SKeyConfirm _ => 3 | SKdfInfo _ => 4
  end%nat.

Lemma signed_fields_tag s t : signed_fields s = signed_fields t → signed_tag s = signed_tag t.
Proof.
  intros H. apply (f_equal (take 1)) in H. by destruct s, t.
Qed.

Lemma signed_fields_inj s t :
  signed_wf s → signed_wf t → signed_fields s = signed_fields t →
  erase_mac s = erase_mac t.
Proof.
  intros Hs Ht H. pose proof (signed_fields_tag _ _ H) as Htag.
  destruct s as [a|a|a|a|a], t as [b|b|b|b|b]; try discriminate Htag; clear Htag;
    cbn [signed_fields] in H;
    unfold permissions_fields, session_context_fields, key_exchange_fields,
      key_confirm_fields, info_fields, domain_field in H;
    split_fields H; destruct a, b; cbn in * |-;
    unfold validate_path_binding in *; cbn in * |-; destruct_and?;
    unwrap_values;
    try match goal with
    | H : default [] ?x = default [] ?y |- _ =>
        eapply optional_by_flag in H; [|symmetry; eassumption|symmetry; eassumption]
    end; by subst.
Qed.

(** ** Theorems *)

(** C31: The canonical encoding is injective across every structure that the
    protocol signs, hashes or MACs: permissions, session context, key-exchange
    payload, key confirmation (up to the MAC itself, which is computed from the
    rest) and KDF context. Two well-formed structures with the same encoding are
    equal, so neither a field nor the kind of structure can be confused under
    one digest. *)
Theorem canonical_encoding_injective s t bs :
  signed_wf s → signed_wf t →
  signed_canonical s = Ok bs → signed_canonical t = Ok bs →
  erase_mac s = erase_mac t.
Proof.
  intros Hs Ht [Fs Es]%signed_writes [Ft Et]%signed_writes.
  apply signed_fields_inj; [done..|]. cbn in *. apply encode_fields_inj; congruence.
Qed.

(** The example session context of the repository's key tests. *)
Definition example_context : SessionContext := {|
  sc_account_id := str "account-a"; sc_session_id := 1;
  sc_controller_device_id := str "controller-a";
  sc_controlled_device_id := str "controlled-a";
  sc_permissions_digest := repeat x03 32; sc_protocol_version := 1;
  sc_session_expires_at := 10000 |}.

Lemma canonical_encoding_injective_witness :
  ∃ bs, signed_canonical (SContext example_context) = Ok bs ∧
        erase_mac (SContext example_context) = erase_mac (SContext example_context).
Proof.
  eexists. split; [vm_compute; reflexivity|].
  eapply (canonical_encoding_injective (SContext example_context) (SContext example_context));
    [vm_compute; repeat split; congruence..|vm_compute; reflexivity|vm_compute; reflexivity].
Defined.
