(* ===== verification/Primitives.v ===== *)
(** * Cryptographic primitives as an interface

    The code under src/ calls the crates sha2, hmac, hkdf, chacha20poly1305,
    ed25519-dalek and x25519-dalek. They are not part of the repository, so they
    are a class of operations, [Primitives], and the facts of their
    documentation the code relies on are a class of laws, [PrimitiveLaws]. No
    law states an unconditional cryptographic impossibility: statements about
    hashes are of the form "equal, or here is a collision".

    [toy] is a concrete (insecure) instance that satisfies every law; it is what
    the witnesses compute with. [CryptoError] and [SecretBytes] are those of
    crates/remote-crypto/src/lib.rs. *)

From S2P Require Import Prelude.

Inductive CryptoError :=
| InvalidPublicKey | InvalidSignature | SignatureMismatch | CanonicalEncoding
| InvalidKeyExchangeContext | NonContributoryKeyExchange | KeyDerivation
| AuthenticationFailed | CryptoInvalidChannel | InvalidPayloadLength
| CryptoSequenceExhausted | ReplayDetected | MessageTooOld
| TimestampOutsideWindow | DeviceRoleMismatch.

#[global] Instance CryptoError_eq_dec : EqDecision CryptoError.
Proof. solve_decision. Defined.

(** [SecretBytes<N>]: a wrapper whose only observable is its content. *)
Record SecretBytes := { secret : bytes }.
Definition expose_for_crypto (s : SecretBytes) : bytes := s.(secret).

Class Primitives := {
  (** [Sha256::digest] *)
  sha256 : bytes → bytes;
  (** [Hmac::<Sha256>]: key, message *)
  hmac_sha256 : bytes → bytes → bytes;
  (** [Hkdf::<Sha256>::new(Some(salt), ikm).expand(info, n bytes)] *)
  hkdf_sha256 : bytes → bytes → bytes → nat → option bytes;
  (** [ChaCha20Poly1305]: key, nonce, associated data, message *)
  chacha_encrypt : bytes → bytes → bytes → bytes → option bytes;
  chacha_decrypt : bytes → bytes → bytes → bytes → option bytes;
  (** Ed25519: public key of a private key, validity of a public key encoding,
      signature, verification *)
  ed25519_public : bytes → bytes;
  ed25519_valid_public : bytes → bool;
  ed25519_sign : bytes → bytes → bytes;
  ed25519_verify : bytes → bytes → bytes → bool;
  (** X25519: public key, shared secret *)
  x25519_public : bytes → bytes;
  x25519_shared : bytes → bytes → bytes
}.

Class PrimitiveLaws (P : Primitives) : Prop := {
  sha256_length m : length (sha256 m) = 32%nat;
  hmac_length k m : length (hmac_sha256 k m) = 32%nat;
  hkdf_length s i f n o : hkdf_sha256 s i f n = Some o → length o = n;
  hkdf_total s i f n : Z.of_nat n ≤ 255 * 32 → is_Some (hkdf_sha256 s i f n);
  chacha_total k n a m : len m < 2 ^ 32 → is_Some (chacha_encrypt k n a m);
  chacha_length k n a m c :
    chacha_encrypt k n a m = Some c → len c = len m + 16;
  chacha_open k n a m c :
    chacha_encrypt k n a m = Some c → chacha_decrypt k n a c = Some m;
  chacha_canonical k n a m c :
    chacha_decrypt k n a c = Some m → chacha_encrypt k n a m = Some c;
  ed25519_public_valid sk : ed25519_valid_public (ed25519_public sk) = true;
  ed25519_sign_length sk m : length (ed25519_sign sk m) = 64%nat;
  ed25519_verify_sign sk m :
    ed25519_verify (ed25519_public sk) m (ed25519_sign sk m) = true;
  x25519_agree a b :
    x25519_shared a (x25519_public b) = x25519_shared b (x25519_public a)
}.

(** A hash collision, exhibited. *)
Definition sha256_collision `{Primitives} (a b : bytes) : Prop :=
  a ≠ b ∧ sha256 a = sha256 b.

Lemma sha256_equal `{Primitives} a b :
  sha256 a = sha256 b → a = b ∨ sha256_collision a b.
Proof. intros He. destruct (decide (a = b)); [by left|by right]. Qed.

(** ** A concrete instance *)

Definition toy_tag (k n a : bytes) : bytes := be_bytes 16 (be_val (k ++ n ++ a)).

Definition toy_decrypt (k n a c : bytes) : option bytes :=
  if (length c <? 16)%nat then None
  else let m := take (length c - 16) c in
       if (drop (length c - 16) c) =! toy_tag k n a then
         if len m <? 2 ^ 32 then Some m else None
       else None.

Definition toy_encrypt (k n a m : bytes) : option bytes :=
  if len m <? 2 ^ 32 then Some (m ++ toy_tag k n a) else None.

Definition toy : Primitives := {|
  sha256 m := be_bytes 32 (be_val (take 16 m) + len m);
  hmac_sha256 k m := be_bytes 32 (be_val k + len m);
  hkdf_sha256 s i f n :=
    if Z.of_nat n <=? 255 * 32 then Some (be_bytes n (be_val i + len f)) else None;
  chacha_encrypt := toy_encrypt;
  chacha_decrypt := toy_decrypt;
  ed25519_public sk := sk;
  ed25519_valid_public _ := true;
  ed25519_sign sk m := be_bytes 64 (be_val (sk ++ m));
  ed25519_verify pk m s := s =! be_bytes 64 (be_val (pk ++ m));
  x25519_public sk := sk;
  x25519_shared a b := be_bytes 32 (be_val a + be_val b)
|}.

Lemma toy_tag_length k n a : length (toy_tag k n a) = 16%nat.
Proof. apply be_bytes_length. Qed.

Lemma toy_open k n a m c : toy_encrypt k n a m = Some c → toy_decrypt k n a c = Some m.
Proof.
  unfold toy_encrypt, toy_decrypt. destruct (len m <? 2 ^ 32) eqn:E; [|done].
  intros [= <-]. rewrite length_app, toy_tag_length.
  destruct (Nat.ltb_spec (length m + 16) 16) as [?|_]; [lia|].
  rewrite Nat.add_sub, drop_app_length, take_app_length, E.
  by rewrite bool_decide_eq_true_2.
Qed.

Lemma toy_canonical k n a m c : toy_decrypt k n a c = Some m → toy_encrypt k n a m = Some c.
Proof.
  unfold toy_encrypt, toy_decrypt.
  destruct (Nat.ltb_spec (length c) 16) as [?|?]; [done|].
  case_bool_decide as Ht; [|done].
  destruct (len (take (length c - 16) c) <? 2 ^ 32) eqn:E; [|done].
  intros [= <-]. rewrite E. f_equal. rewrite <-Ht. apply take_drop.
Qed.

Lemma toy_laws : PrimitiveLaws toy.
Proof.
  split; cbn; intros.
  - apply be_bytes_length.
  - apply be_bytes_length.
  - case_match; simplify_eq. apply be_bytes_length.
  - destruct (Z.leb_spec (Z.of_nat n) (255 * 32)); [eauto|lia].
  - unfold toy_encrypt. destruct (Z.ltb_spec (len m) (2 ^ 32)); [eauto|lia].
  - unfold toy_encrypt in *. destruct (len m <? 2 ^ 32); simplify_eq.
    rewrite len_app. unfold len at 2. rewrite toy_tag_length. lia.
  - by apply toy_open.
  - by apply toy_canonical.
  - done.
  - apply be_bytes_length.
  - by apply bool_decide_eq_true_2.
  - by rewrite Z.add_comm.
Qed.

(** ** Base64

    [URL_SAFE_NO_PAD] of the base64 crate; only the decoder's result matters to
    the services. *)
Class Base64 := { b64url_decode : rstr → option bytes }.

(** [decode_array::<N>] of the services: decode, then [try_into] an array. *)
Definition decode_array `{Base64} (n : nat) (value : rstr) : option bytes :=
  match b64url_decode value with
  | Some b => if (length b =? n)%nat then Some b else None
  | None => None
  end.
