(* ===== verification/E2ee.v ===== *)
(** * End-to-end encryption and replay protection

    Models crates/remote-crypto/src/e2ee.rs: the nonce and associated-data
    construction, [encrypt_payload]/[decrypt_payload], the 64-bit sliding replay
    window and the per-channel guard. The window is proved to refine a
    specification over the list of accepted sequence numbers. *)

From S2P Require Import Prelude Header Security Primitives.

Definition AUTH_TAG_LEN : Z := 16.
Definition REPLAY_WINDOW_BITS : Z := 64.

(** ** Nonce and associated data *)

(** [sequence.to_be_bytes()[2..8]] keeps the low six bytes. *)
Definition build_nonce (prefix : bytes) (c : ChannelId) (seq : Z)
    : result CryptoError bytes :=
  _ ← ensure (negb (MAX_SECURE_SEQUENCE <? seq)) CryptoSequenceExhausted;
  Ok (prefix ++ be_bytes 2 (channel_code c) ++ slice (be_bytes 8 seq) 2 8).

Definition build_aad (h : MessageHeader) (digest : bytes) (d : TrafficDirection) : bytes :=
  encode_header h ++ digest ++ direction_as_str d.

(** [header.payload_len = n]. *)
Definition set_payload_len (h : MessageHeader) (n : Z) : MessageHeader :=
  {| version := h.(version); kind := h.(kind); flags := h.(flags);
     channel_id := h.(channel_id); session_id := h.(session_id);
     sequence := h.(sequence); payload_len := n |}.

(** ** The replay window *)

Record ReplayWindow := { highest : option Z; bitmap : Z }.

Definition window_default : ReplayWindow := {| highest := None; bitmap := 0 |}.

(** [1_u64 << n]; a shift of 64 or more, which the callers exclude, is taken
    modulo 64 as in a release build. *)
Definition u64_shl (b n : Z) : Z := Z.shiftl b (n mod 64) mod 2 ^ 64.

Definition window_check (w : ReplayWindow) (seq : Z) : result CryptoError unit :=
  match w.(highest) with
  | None => Ok tt
  | Some hi =>
      if hi <? seq then Ok tt
      else
        let distance := hi - seq in
        _ ← ensure (negb (REPLAY_WINDOW_BITS <=? distance)) MessageTooOld;
        ensure (Z.land w.(bitmap) (u64_shl 1 distance) =? 0) ReplayDetected
  end.

Definition window_record (w : ReplayWindow) (seq : Z) : ReplayWindow :=
  match w.(highest) with
  | None => {| highest := Some seq; bitmap := 1 |}
  | Some hi =>
      if hi <? seq then
        let shift := seq - hi in
        {| highest := Some seq;
           bitmap := if REPLAY_WINDOW_BITS <=? shift then 1
                     else Z.lor (u64_shl w.(bitmap) shift) 1 |}
      else {| highest := Some hi;
              bitmap := Z.lor w.(bitmap) (u64_shl 1 (hi - seq)) |}
  end.

(** The guard is an array of nine windows indexed by [channel as usize]. *)
Record ReplayGuard := { channels : list ReplayWindow }.

Definition guard_default : ReplayGuard := {| channels := repeat window_default 9 |}.

Definition channel_index (c : ChannelId) : nat := Z.to_nat (channel_code c).

Definition guard_window (g : ReplayGuard) (c : ChannelId) : ReplayWindow :=
  default window_default (g.(channels) !! channel_index c).

Definition guard_check (g : ReplayGuard) (c : ChannelId) (seq : Z)
    : result CryptoError unit :=
  _ ← ensure (negb (MAX_SECURE_SEQUENCE <? seq)) CryptoSequenceExhausted;
  window_check (guard_window g c) seq.

Definition guard_record (g : ReplayGuard) (c : ChannelId) (seq : Z) : ReplayGuard :=
  {| channels := <[channel_index c := window_record (guard_window g c) seq]> g.(channels) |}.

(** ** Encryption and decryption *)

Section payload.
Context `{P : Primitives}.

Definition encrypt_payload (key prefix digest : bytes) (d : TrafficDirection)
    (h : MessageHeader) (plaintext : bytes) : result CryptoError (MessageHeader * bytes) :=
  _ ← map_err (λ _, CryptoInvalidChannel) (validate_kind_channel h);
  let encrypted_len := len plaintext + AUTH_TAG_LEN in
  _ ← ensure (encrypted_len <? 2 ^ 32) InvalidPayloadLength;
  let h := set_payload_len h encrypted_len in
  nonce ← build_nonce prefix h.(channel_id) h.(sequence);
  let aad := build_aad h digest d in
  ciphertext ← ok_or (chacha_encrypt key nonce aad plaintext) AuthenticationFailed;
  Ok (h, ciphertext).

(** [&mut replay_guard] is threaded: it changes only when the payload is
    accepted. *)
Definition decrypt_payload (key prefix digest : bytes) (d : TrafficDirection)
    (h : MessageHeader) (ciphertext : bytes) (g : ReplayGuard)
    : result CryptoError bytes * ReplayGuard :=
  let r :=
    _ ← map_err (λ _, CryptoInvalidChannel) (validate_kind_channel h);
    _ ← ensure (h.(payload_len) =? len ciphertext) InvalidPayloadLength;
    _ ← guard_check g h.(channel_id) h.(sequence);
    nonce ← build_nonce prefix h.(channel_id) h.(sequence);
    let aad := build_aad h digest d in
    ok_or (chacha_decrypt key nonce aad ciphertext) AuthenticationFailed in
  match r with
  | Ok plaintext => (Ok plaintext, guard_record g h.(channel_id) h.(sequence))
  | Err e => (Err e, g)
  end.
End payload.

(** ** Specification of the window: the list of accepted sequence numbers *)

Definition newest (seen : list Z) : option Z :=
  match seen with [] => None | s :: ss => Some (foldr Z.max s ss) end.

(** Accept anything newer than everything seen; inside the window accept what
    was not seen; outside the window refuse. *)
Definition spec_check (seen : list Z) (seq : Z) : result CryptoError unit :=
  match newest seen with
  | None => Ok tt
  | Some hi =>
      if hi <? seq then Ok tt
      else if 64 <=? hi - seq then Err MessageTooOld
      else if bool_decide (seq ∈ seen) then Err ReplayDetected
      else Ok tt
  end.

Lemma foldr_max_swap x s ss :
  Z.max s (foldr Z.max x ss) = Z.max x (foldr Z.max s ss).
Proof. induction ss as [|y ss IH]; cbn; lia. Qed.

Lemma newest_cons x seen :
  newest (x :: seen) = Some (match newest seen with None => x | Some h => Z.max x h end).
Proof.
  unfold newest. destruct seen as [|s ss]; [done|]. f_equal. apply foldr_max_swap.
Qed.

Lemma newest_upper seen h s : newest seen = Some h → s ∈ seen → s ≤ h.
Proof.
  revert h. induction seen as [|x seen IH]; intros h Hh Hs; [by apply elem_of_nil in Hs|].
  rewrite newest_cons in Hh. injection Hh as <-.
  apply elem_of_cons in Hs as [->|Hs].
  - destruct (newest seen); lia.
  - destruct (newest seen) as [h|] eqn:E.
    + specialize (IH h eq_refl Hs). lia.
    + destruct seen; [by apply elem_of_nil in Hs|]. by rewrite newest_cons in E.
Qed.

Lemma newest_in seen h : newest seen = Some h → h ∈ seen.
Proof.
  revert h. induction seen as [|x seen IH]; intros h Hh; [done|].
  rewrite newest_cons in Hh. injection Hh as <-. destruct (newest seen) as [h|]; [|by left].
  destruct (Z.max_spec x h) as [[_ ->]|[_ ->]]; [right; by apply IH|by left].
Qed.

(** The window represents the history [seen]: [highest] is its maximum and bit
    [d] of the bitmap says whether [highest - d] was accepted. *)
Record window_rel (w : ReplayWindow) (seen : list Z) : Prop := {
  rel_highest : w.(highest) = newest seen;
  rel_width : in_u64 w.(bitmap);
  rel_bits h d : w.(highest) = Some h → 0 ≤ d < 64 →
    Z.testbit w.(bitmap) d = bool_decide (h - d ∈ seen)
}.

Lemma window_rel_default : window_rel window_default [].
Proof. split; cbn; [done|by vm_compute|by intros ?? [=]]. Qed.

Lemma u64_shl_testbit b n i :
  0 ≤ n < 64 → 0 ≤ i → Z.testbit (u64_shl b n) i = (i <? 64) && Z.testbit b (i - n).
Proof.
  intros Hn Hi. unfold u64_shl. rewrite (Z.mod_small n 64) by lia.
  rewrite Z.testbit_mod_pow2 by lia.
  by rewrite Z.shiftl_spec.
Qed.

Lemma u64_shl_width b n : in_u64 (u64_shl b n).
Proof. apply Z.mod_pos_bound. reflexivity. Qed.

Lemma testbit_one i : Z.testbit 1 i = (i =? 0).
Proof. by destruct i. Qed.

Lemma land_one_shl_zero b n :
  0 ≤ n < 64 → (Z.land b (u64_shl 1 n) =? 0) = negb (Z.testbit b n).
Proof.
  intros Hn. destruct (Z.testbit b n) eqn:E; cbn.
  - apply Z.eqb_neq. intros H0. apply (f_equal (λ z, Z.testbit z n)) in H0.
    rewrite Z.land_spec, E, u64_shl_testbit, testbit_one, Z.testbit_0_l in H0 by lia.
    rewrite Z.sub_diag in H0. destruct (Z.ltb_spec n 64); [done|lia].
  - apply Z.eqb_eq, Z.bits_inj'. intros i Hi.
    rewrite Z.land_spec, u64_shl_testbit, testbit_one, Z.testbit_0_l by lia.
    destruct (Z.eqb_spec (i - n) 0) as [?|?]; [|by rewrite !andb_false_r].
    replace i with n by lia. by rewrite E.
Qed.

Lemma lor_width a b : in_u64 a → in_u64 b → in_u64 (Z.lor a b).
Proof.
  intros [Ha1 Ha2] [Hb1 Hb2]. split; [by apply Z.lor_nonneg|].
  destruct (Z.eq_dec (Z.lor a b) 0) as [->|Hn]; [done|].
  assert (0 < Z.lor a b) by (pose proof (proj2 (Z.lor_nonneg a b) (conj Ha1 Hb1)); lia).
  apply Z.log2_lt_pow2; [done|]. rewrite Z.log2_lor by done.
  destruct (Z.eq_dec a 0) as [->|], (Z.eq_dec b 0) as [->|]; try done;
    apply Z.max_lub_lt; try done; apply Z.log2_lt_pow2; lia.
Qed.

(** The check of the bitmap is the check of the history. *)
Lemma window_check_refines w seen seq :
  window_rel w seen → window_check w seq = spec_check seen seq.
Proof.
  intros [Hh Hw Hb]. unfold window_check, spec_check. rewrite <-Hh.
  destruct (highest w) as [h|] eqn:E; [|done].
  destruct (Z.ltb_spec h seq) as [?|?]; [done|].
  unfold REPLAY_WINDOW_BITS. destruct (Z.leb_spec 64 (h - seq)) as [?|?]; [done|].
  cbn. rewrite land_one_shl_zero by lia. rewrite (Hb h (h - seq)) by (done || lia).
  replace (h - (h - seq)) with seq by lia. by case_bool_decide.
Qed.

Lemma newest_record w seen seq :
  highest w = newest seen → highest (window_record w seq) = newest (seq :: seen).
Proof.
  intros Hh. rewrite newest_cons, <-Hh. unfold window_record.
  destruct (highest w) as [h|]; [|done].
  destruct (Z.ltb_spec h seq); cbn; f_equal; lia.
Qed.

Lemma not_seen_above seen h s : newest seen = Some h → h < s → bool_decide (s ∈ seen) = false.
Proof.
  intros Hh Hs. apply bool_decide_eq_false_2. intros Hin.
  pose proof (newest_upper _ _ _ Hh Hin). lia.
Qed.

Lemma bool_decide_cons (x s : Z) seen :
  bool_decide (x ∈ s :: seen) = (x =? s) || bool_decide (x ∈ seen).
Proof.
  rewrite (bool_decide_ext _ (x = s ∨ x ∈ seen)) by apply elem_of_cons.
  rewrite bool_decide_or. f_equal. by destruct (Z.eqb_spec x s); case_bool_decide.
Qed.

(** Bits after recording a sequence number newer than the window. *)
Lemma record_newer_bits w seen h seq d :
  window_rel w seen → highest w = Some h → h < seq → 0 ≤ d < 64 →
  Z.testbit (bitmap (window_record w seq)) d = bool_decide (seq - d ∈ seq :: seen).
Proof.
  intros [Hh Hw Hb] E Hs Hd. unfold window_record. rewrite E.
  destruct (Z.ltb_spec h seq) as [_|?]; [|lia]. cbn.
  rewrite bool_decide_cons. rewrite E in Hh. symmetry in Hh.
  destruct (Z.eqb_spec (seq - d) seq) as [?|?]; cbn.
  - replace d with 0 by lia. unfold REPLAY_WINDOW_BITS.
    destruct (64 <=? seq - h); [done|]. by rewrite Z.lor_spec, orb_true_r.
  - unfold REPLAY_WINDOW_BITS. destruct (Z.leb_spec 64 (seq - h)) as [?|?].
    + rewrite testbit_one. destruct (Z.eqb_spec d 0); [lia|].
      symmetry. apply (not_seen_above _ h); [done|lia].
    + rewrite Z.lor_spec, testbit_one, u64_shl_testbit by lia.
      destruct (Z.ltb_spec d 64) as [_|?]; [|lia]. destruct (Z.eqb_spec d 0); [lia|].
      rewrite orb_false_r. cbn. destruct (Z_lt_dec (d - (seq - h)) 0).
      * rewrite Z.testbit_neg_r by lia. symmetry. apply (not_seen_above _ h); [done|lia].
      * rewrite (Hb h) by (done || lia).
        by replace (h - (d - (seq - h))) with (seq - d) by lia.
Qed.

(** Bits after recording a sequence number inside the window. *)
Lemma record_inside_bits w seen h seq d :
  window_rel w seen → highest w = Some h → 0 ≤ h - seq < 64 → 0 ≤ d < 64 →
  Z.testbit (bitmap (window_record w seq)) d = bool_decide (h - d ∈ seq :: seen).
Proof.
  intros [Hh Hw Hb] E Hs Hd. unfold window_record. rewrite E.
  destruct (Z.ltb_spec h seq) as [?|_]; [lia|]. cbn.
  rewrite Z.lor_spec, u64_shl_testbit, testbit_one, (Hb h), bool_decide_cons by (done || lia).
  destruct (Z.ltb_spec d 64) as [_|?]; [|lia].
  rewrite orb_comm. f_equal. cbn.
  destruct (Z.eqb_spec (d - (h - seq)) 0), (Z.eqb_spec (h - d) seq); first [done|exfalso; lia].
Qed.

Lemma window_check_inside w seen h seq :
  window_rel w seen → window_check w seq = Ok tt → highest w = Some h →
  seq ≤ h → h - seq < 64 ∧ seq ∉ seen.
Proof.
  intros Hr Hc E Hs. rewrite (window_check_refines _ _ _ Hr) in Hc.
  unfold spec_check in Hc. rewrite <-(rel_highest _ _ Hr), E in Hc.
  destruct (Z.ltb_spec h seq); [lia|].
  destruct (Z.leb_spec 64 (h - seq)); [done|].
  case_bool_decide; [done|]. split; [lia|done].
Qed.

(** Recording an accepted sequence number appends it to the history. *)
Lemma window_record_refines w seen seq :
  window_rel w seen → window_check w seq = Ok tt →
  window_rel (window_record w seq) (seq :: seen).
Proof.
  intros Hr Hc. split.
  - apply newest_record, (rel_highest _ _ Hr).
  - unfold window_record. destruct (highest w) as [h|]; cbn; [|by vm_compute].
    destruct (h <? seq); cbn.
    + destruct (REPLAY_WINDOW_BITS <=? seq - h); [by vm_compute|].
      apply lor_width; [apply u64_shl_width|by vm_compute].
    + apply lor_width; [apply (rel_width _ _ Hr)|apply u64_shl_width].
  - intros h' d Hh' Hd. destruct (highest w) as [h|] eqn:E.
    + destruct (Z_lt_dec h seq) as [Hlt|Hge].
      * assert (h' = seq) as ->.
        { unfold window_record in Hh'. rewrite E in Hh'.
          destruct (Z.ltb_spec h seq); [cbn in Hh'; congruence|lia]. }
        by eapply record_newer_bits.
      * assert (h' = h) as ->.
        { unfold window_record in Hh'. rewrite E in Hh'.
          destruct (Z.ltb_spec h seq); [lia|cbn in Hh'; congruence]. }
        destruct (window_check_inside _ _ _ _ Hr Hc E ltac:(lia)) as [? _].
        eapply record_inside_bits; eauto. lia.
    + unfold window_record in *. rewrite E in *. cbn in *. injection Hh' as <-.
      pose proof (rel_highest _ _ Hr) as Hn. rewrite E in Hn.
      destruct seen as [|? ?]; [|by rewrite newest_cons in Hn].
      rewrite testbit_one, bool_decide_cons. cbn. rewrite orb_false_r.
      destruct (Z.eqb_spec d 0), (Z.eqb_spec (seq - d) seq); first [done|exfalso; lia].
Qed.

(** An accepted sequence number was never accepted before. *)
Lemma window_check_fresh w seen seq :
  window_rel w seen → window_check w seq = Ok tt → seq ∉ seen.
Proof.
  intros Hr Hc Hin. destruct (highest w) as [h|] eqn:E.
  - pose proof (rel_highest _ _ Hr) as Hh. rewrite E in Hh. symmetry in Hh.
    pose proof (newest_upper _ _ _ Hh Hin).
    by destruct (window_check_inside _ _ _ _ Hr Hc E ltac:(done)).
  - pose proof (rel_highest _ _ Hr) as Hn. rewrite E in Hn.
    destruct seen; [by apply elem_of_nil in Hin|by rewrite newest_cons in Hn].
Qed.

(** ** The guard: one history per channel *)

Record guard_rel (g : ReplayGuard) (hist : ChannelId → list Z) : Prop := {
  guard_size : length g.(channels) = 9%nat;
  guard_windows c : window_rel (guard_window g c) (hist c)
}.

Lemma guard_rel_default : guard_rel guard_default (λ _, []).
Proof.
  split; [done|]. intros c.
  assert (guard_window guard_default c = window_default) as -> by (by destruct c).
  apply window_rel_default.
Qed.

Definition push_history (hist : ChannelId → list Z) (c : ChannelId) (s : Z) : ChannelId → list Z :=
  λ c', if decide (c' = c) then s :: hist c' else hist c'.

Lemma channel_index_lt c : (channel_index c < 9)%nat.
Proof. destruct c; vm_compute; lia. Qed.

Lemma channel_index_inj c c' : channel_index c = channel_index c' → c = c'.
Proof. by destruct c, c'. Qed.

Lemma guard_record_window g c s c' :
  length g.(channels) = 9%nat →
  guard_window (guard_record g c s) c' =
  if decide (c' = c) then window_record (guard_window g c) s else guard_window g c'.
Proof.
  intros Hl. unfold guard_record, guard_window. cbn. case_decide as Hc.
  - subst. rewrite list_lookup_insert_eq; [done|]. rewrite Hl. apply channel_index_lt.
  - rewrite list_lookup_insert_ne; [done|]. intros He. by apply channel_index_inj in He.
Qed.

Lemma guard_record_refines g hist c s :
  guard_rel g hist → guard_check g c s = Ok tt →
  guard_rel (guard_record g c s) (push_history hist c s).
Proof.
  intros [Hl Hw] Hc. unfold guard_check in Hc. invert_ok.
  split; [cbn; by rewrite length_insert|].
  intros c'. rewrite guard_record_window by done. unfold push_history.
  case_decide; [subst; by apply window_record_refines|done].
Qed.

(** The specification of the guard: one history of accepted sequence numbers
    per channel, below the last sequence number of the nonce space. *)
Definition spec_guard_check (hist : ChannelId → list Z) (c : ChannelId) (s : Z)
    : result CryptoError unit :=
  if MAX_SECURE_SEQUENCE <? s then Err CryptoSequenceExhausted else spec_check (hist c) s.

Lemma guard_check_refines g hist c s :
  guard_rel g hist → guard_check g c s = spec_guard_check hist c s.
Proof.
  intros [_ Hw]. unfold guard_check, spec_guard_check.
  destruct (_ <? _); [done|]. by apply window_check_refines.
Qed.

(** Messages are offered in order; the accepted ones are recorded. *)
Fixpoint guard_run (g : ReplayGuard) (ms : list (ChannelId * Z)) : list (result CryptoError unit) :=
  match ms with
  | [] => []
  | (c, s) :: ms =>
      let r := guard_check g c s in
      r :: guard_run (if is_ok r then guard_record g c s else g) ms
  end.

Fixpoint spec_run (hist : ChannelId → list Z) (ms : list (ChannelId * Z))
    : list (result CryptoError unit) :=
  match ms with
  | [] => []
  | (c, s) :: ms =>
      let r := spec_guard_check hist c s in
      r :: spec_run (if is_ok r then push_history hist c s else hist) ms
  end.

Lemma guard_run_refines g hist ms :
  guard_rel g hist → guard_run g ms = spec_run hist ms.
Proof.
  revert g hist. induction ms as [|[c s] ms IH]; intros g hist Hr; [done|].
  cbn. rewrite <-(guard_check_refines _ _ _ _ Hr). f_equal. apply IH.
  destruct (guard_check g c s) as [[]|] eqn:E; cbn; [|done].
  by apply guard_record_refines.
Qed.

(** C17: The sliding bitmap windows of the guard answer every sequence of
    messages exactly as the specification that remembers every accepted sequence
    number of every channel. *)
Theorem replay_guard_refines_history (ms : list (ChannelId * Z)) :
  guard_run guard_default ms = spec_run (λ _, []) ms.
Proof. apply guard_run_refines, guard_rel_default. Qed.

(** ** Nonces *)

Lemma build_nonce_ok prefix c seq n :
  build_nonce prefix c seq = Ok n →
  seq ≤ MAX_SECURE_SEQUENCE ∧
  n = prefix ++ be_bytes 2 (channel_code c) ++ be_bytes 6 seq.
Proof.
  intros H. unfold build_nonce in H. invert_ok. by split.
Qed.

Lemma build_nonce_defined prefix c seq :
  0 ≤ seq ≤ MAX_SECURE_SEQUENCE →
  build_nonce prefix c seq = Ok (prefix ++ be_bytes 2 (channel_code c) ++ be_bytes 6 seq).
Proof.
  intros [_ H]. unfold build_nonce. destruct (Z.ltb_spec MAX_SECURE_SEQUENCE seq); [lia|done].
Qed.

Lemma build_nonce_injective p p' c c' s s' n :
  length p = length p' → 0 ≤ s → 0 ≤ s' →
  build_nonce p c s = Ok n → build_nonce p' c' s' = Ok n →
  p = p' ∧ c = c' ∧ s = s'.
Proof.
  intros Hp Hs Hs' H H'.
  apply build_nonce_ok in H as [Hm ->], H' as [Hm' He].
  apply app_inj_1 in He as [-> He]; [|done].
  apply app_inj_1 in He as [Hc Hq]; [|by rewrite !be_bytes_length].
  unfold MAX_SECURE_SEQUENCE in *. split; [done|]. split.
  - apply (inj channel_code), (be_bytes_inj 2); [apply channel_code_u16..|done].
  - apply (be_bytes_inj 6); [| |done]; unfold in_u; change (2 ^ (8 * Z.of_nat 6)) with (2 ^ 48); lia.
Qed.

(** ** Payloads *)

Section payload_lemmas.
Context `{P : Primitives}.

Lemma encrypt_payload_ok key prefix digest d h m h' c :
  encrypt_payload key prefix digest d h m = Ok (h', c) →
  accepts_channel h.(kind) h.(channel_id) = true ∧ len m + 16 < 2 ^ 32 ∧
  h' = set_payload_len h (len m + 16) ∧
  ∃ n, build_nonce prefix h.(channel_id) h.(sequence) = Ok n ∧
       chacha_encrypt key n (build_aad h' digest d) m = Some c.
Proof.
  unfold encrypt_payload, validate_kind_channel. intros H. invert_ok.
  unfold AUTH_TAG_LEN in *. cbn in *.
  split; [assumption|]. split; [assumption|]. split; [done|]. eexists. by split.
Qed.

(** Whatever [encrypt_payload] produces, [decrypt_payload] opens under the same
    key, prefix, digest and direction, provided the guard accepts the
    sequence number, and it then records it. *)
Lemma decrypt_encrypt_payload {L : PrimitiveLaws P} key prefix digest d h m h' c g :
  encrypt_payload key prefix digest d h m = Ok (h', c) →
  guard_check g h.(channel_id) h.(sequence) = Ok tt →
  decrypt_payload key prefix digest d h' c g =
    (Ok m, guard_record g h.(channel_id) h.(sequence)).
Proof.
  intros H Hg. apply encrypt_payload_ok in H as (Ha & _ & -> & n & Hn & He).
  pose proof (chacha_length _ _ _ _ _ He) as Hl. unfold decrypt_payload, validate_kind_channel. cbn. rewrite Ha. cbn.
  rewrite (proj2 (Z.eqb_eq _ _) (eq_sym Hl)). cbn. rewrite Hg. cbn. rewrite Hn. cbn.
  by rewrite (chacha_open _ _ _ _ _ He).
Qed.

Lemma decrypt_payload_ok key prefix digest d h c g m g' :
  decrypt_payload key prefix digest d h c g = (Ok m, g') →
  guard_check g h.(channel_id) h.(sequence) = Ok tt ∧
  g' = guard_record g h.(channel_id) h.(sequence) ∧
  accepts_channel h.(kind) h.(channel_id) = true ∧ h.(payload_len) = len c ∧
  ∃ n, build_nonce prefix h.(channel_id) h.(sequence) = Ok n ∧
       chacha_decrypt key n (build_aad h digest d) c = Some m.
Proof.
  unfold decrypt_payload, validate_kind_channel. intros H. break_match; simplify_eq.
  invert_ok. eauto 10.
Qed.

Lemma decrypt_payload_err key prefix digest d h c g e g' :
  decrypt_payload key prefix digest d h c g = (Err e, g') → g' = g.
Proof. unfold decrypt_payload. intros H. break_match; by simplify_eq. Qed.

(** What [decrypt_payload] accepts is exactly the output of [encrypt_payload]
    on the plaintext it returns: no other header and no other bytes open to
    it. *)
Lemma decrypt_payload_sound {L : PrimitiveLaws P} key prefix digest d h c g m g' :
  decrypt_payload key prefix digest d h c g = (Ok m, g') → in_u32 h.(payload_len) →
  encrypt_payload key prefix digest d h m = Ok (h, c).
Proof.
  intros H Hp. apply decrypt_payload_ok in H as (_ & _ & Ha & Hl & n & Hn & Hd).
  apply chacha_canonical in Hd. pose proof (chacha_length _ _ _ _ _ Hd) as Hlen.
  unfold encrypt_payload, validate_kind_channel, AUTH_TAG_LEN. rewrite Ha. cbn.
  assert (set_payload_len h (len m + 16) = h) as Hh by (rewrite <-Hlen, <-Hl; by destruct h).
  destruct (Z.ltb_spec (len m + 16) (2 ^ 32)) as [?|?]; [|unfold in_u in Hp; lia].
  cbn. rewrite Hn. cbn. by rewrite Hh, Hd.
Qed.

Lemma encrypt_payload_defined {L : PrimitiveLaws P} key prefix digest d h m :
  0 ≤ h.(sequence) ≤ MAX_SECURE_SEQUENCE → accepts_channel h.(kind) h.(channel_id) = true →
  len m + 16 < 2 ^ 32 →
  ∃ c, encrypt_payload key prefix digest d h m = Ok (set_payload_len h (len m + 16), c).
Proof.
  intros Hs Ha Hl. unfold encrypt_payload, validate_kind_channel, AUTH_TAG_LEN. rewrite Ha. cbn.
  rewrite (proj2 (Z.ltb_lt _ _) Hl). cbn. rewrite build_nonce_defined by done. cbn.
  match goal with |- context [chacha_encrypt ?k ?n ?a m] =>
    destruct (chacha_total k n a m) as [ct ->]; [pose proof (len_nonneg m); lia|] end.
  by exists ct.
Qed.

(** The length in the header given to [encrypt_payload] does not matter. *)
Lemma encrypt_ignores_length key prefix digest d h m n :
  encrypt_payload key prefix digest d (set_payload_len h n) m = encrypt_payload key prefix digest d h m.
Proof. done. Qed.
End payload_lemmas.

(** The deliveries a receiver processes: each with the arguments of one
    [decrypt_payload] call, all sharing one guard. *)
Record Delivery := {
  dl_key : bytes; dl_prefix : bytes; dl_digest : bytes; dl_direction : TrafficDirection;
  dl_header : MessageHeader; dl_ciphertext : bytes }.

Fixpoint receive_all `{P : Primitives} (g : ReplayGuard) (ds : list Delivery)
    : list (ChannelId * Z) * ReplayGuard :=
  match ds with
  | [] => ([], g)
  | d :: ds =>
      let '(r, g) := decrypt_payload d.(dl_key) d.(dl_prefix) d.(dl_digest)
        d.(dl_direction) d.(dl_header) d.(dl_ciphertext) g in
      let '(acc, g) := receive_all g ds in
      (if is_ok r then (d.(dl_header).(channel_id), d.(dl_header).(sequence)) :: acc else acc, g)
  end.

Lemma receive_all_fresh `{P : Primitives} g hist ds :
  guard_rel g hist →
  NoDup (receive_all g ds).1 ∧ ∀ c s, (c, s) ∈ (receive_all g ds).1 → s ∉ hist c.
Proof.
  revert g hist. induction ds as [|d ds IH]; intros g hist Hr; cbn.
  { split; [constructor|]. intros c s Hin. by apply elem_of_nil in Hin. }
  destruct (decrypt_payload _ _ _ _ _ _ _) as [[m|e] g'] eqn:E.
  - apply decrypt_payload_ok in E as (Hc & -> & _).
    pose proof (guard_record_refines _ _ _ _ Hr Hc) as Hr'.
    specialize (IH _ _ Hr') as [IHn IHf].
    destruct (receive_all _ ds) as [acc g'']. cbn in *.
    assert (sequence (dl_header d) ∉ hist (channel_id (dl_header d))) as Hfresh.
    { unfold guard_check in Hc. invert_ok. by eapply window_check_fresh; [apply Hr|]. }
    split.
    + constructor; [|done]. intros Hin. apply IHf in Hin. unfold push_history in Hin.
      rewrite decide_True in Hin by done. set_solver.
    + intros c s Hin. apply elem_of_cons in Hin as [[= -> ->]|Hin]; [done|].
      apply IHf in Hin. unfold push_history in Hin. case_decide; set_solver.
  - apply decrypt_payload_err in E as ->. specialize (IH _ _ Hr).
    destruct (receive_all _ ds) as [acc g'']. done.
Qed.

(** C16: Over any sequence of deliveries, under any keys and with any forged or
    repeated headers, no pair of channel and sequence number is accepted twice. *)
Theorem no_payload_accepted_twice `{P : Primitives} (ds : list Delivery) :
  NoDup (receive_all guard_default ds).1.
Proof. eapply receive_all_fresh, guard_rel_default. Qed.

(** C34: Encryption and decryption are inverse: under a key, prefix, digest and
    direction, a plaintext of less than 2^32 - 16 bytes on a channel of its
    kind, with a sequence number below the limit, is encrypted, whatever payload
    length its header carried; the header that comes out carries the length of
    the ciphertext, 16 bytes more than the plaintext, and with it the ciphertext
    opens to the plaintext when the guard accepts the number. Conversely
    whatever opens, under any header, is the encryption of what it opens to, and
    encryption gives back that very header, length included. *)
Theorem payload_roundtrip `{P : Primitives} {L : PrimitiveLaws P} key prefix digest d h m g :
  0 ≤ h.(sequence) ≤ MAX_SECURE_SEQUENCE →
  accepts_channel h.(kind) h.(channel_id) = true →
  len m + 16 < 2 ^ 32 →
  guard_check g h.(channel_id) h.(sequence) = Ok tt →
  (∃ h' c, encrypt_payload key prefix digest d h m = Ok (h', c)
    ∧ h' = set_payload_len h (len c) ∧ len c = len m + 16
    ∧ decrypt_payload key prefix digest d h' c g = (Ok m, guard_record g h.(channel_id) h.(sequence)))
  ∧ (∀ h' c' m' g', in_u32 h'.(payload_len) →
      decrypt_payload key prefix digest d h' c' g = (Ok m', g') →
      ∀ n, encrypt_payload key prefix digest d (set_payload_len h' n) m' = Ok (h', c')).
Proof.
  intros Hs Ha Hl Hg. split.
  - destruct (encrypt_payload_defined key prefix digest d h m Hs Ha Hl) as [c He].
    pose proof He as (_ & _ & _ & nonce & _ & Hc)%encrypt_payload_ok. apply chacha_length in Hc.
    exists (set_payload_len h (len m + 16)), c. rewrite Hc. split_and!; try done.
    by eapply decrypt_encrypt_payload.
  - intros h' c' m' g' Hu Hd n. rewrite <-(decrypt_payload_sound _ _ _ _ _ _ _ _ _ Hd Hu).
    apply encrypt_ignores_length.
Qed.

Lemma payload_roundtrip_witness :
  let h := header_new ClipboardText 7 5 0 in
  let m := str "hi" in
  (∃ h' c, @encrypt_payload toy [x01] [x00;x00;x00;x02] [] ControllerToControlled h m = Ok (h', c)
    ∧ h' = set_payload_len h 18
    ∧ @decrypt_payload toy [x01] [x00;x00;x00;x02] [] ControllerToControlled h' c guard_default
      = (Ok m, guard_record guard_default Clipboard 5)
    ∧ @encrypt_payload toy [x01] [x00;x00;x00;x02] [] ControllerToControlled (set_payload_len h' 3) m = Ok (h', c)).
Proof.
  intros h m.
  destruct (@payload_roundtrip toy toy_laws [x01] [x00;x00;x00;x02] [] ControllerToControlled h m guard_default)
    as [(h' & c & He & Hh & Hc & Hd) Hback]; [vm_compute; split; congruence|reflexivity..|].
  exists h', c. rewrite Hc in Hh. split; [exact He|]. split; [exact Hh|]. split; [exact Hd|].
  eapply (Hback h' c m); [rewrite Hh; vm_compute; split; congruence|exact Hd].
Defined.
