(* ===== verification/KeySession.v ===== *)
(** * Device identities, session key derivation and key confirmation

    Models crates/remote-crypto/src/identity.rs and session.rs: device and
    ephemeral key pairs, signed key exchange, the transcript hash, HKDF session
    keys, key confirmation and its replay guard. Every operation is parametric
    in the cryptographic primitives. *)

From S2P Require Import Prelude Header Canonical Security Primitives.

Definition KEY_LEN : nat := 32.
Definition NONCE_PREFIX_LEN : nat := 4.
Definition KEY_CONFIRM_WINDOW_MILLIS : Z := 30000.

(** [SecretBytes::new]. *)
Definition secret_new (b : bytes) : SecretBytes := {| secret := b |}.

(** ** Identities *)

Section identity.
Context `{P : Primitives}.

Record DeviceKeyPair := { dkp_public_key : bytes; dkp_private_key : SecretBytes }.

Definition from_private_key (private_key : bytes) : DeviceKeyPair :=
  {| dkp_public_key := ed25519_public private_key;
     dkp_private_key := secret_new private_key |}.

(** [DeviceKeyPair::generate], with the generated signing key as an argument. *)
Definition generate_device (random : bytes) : DeviceKeyPair := from_private_key random.

Definition try_from_platform_keys (public_key private_key : bytes)
    : result CryptoError DeviceKeyPair :=
  let key_pair := from_private_key private_key in
  if key_pair.(dkp_public_key) =! public_key then Ok key_pair else Err InvalidPublicKey.

Definition private_key_for_platform_crypto (k : DeviceKeyPair) : bytes :=
  expose_for_crypto k.(dkp_private_key).

Definition sign_digest (k : DeviceKeyPair) (digest : bytes) : bytes :=
  ed25519_sign (expose_for_crypto k.(dkp_private_key)) digest.

Definition sign_canonical (k : DeviceKeyPair) (canonical : bytes) : bytes :=
  sign_digest k (sha256 canonical).

Definition verify_digest_signature (public_key digest signature : bytes)
    : result CryptoError unit :=
  _ ← ensure (ed25519_valid_public public_key) InvalidPublicKey;
  ensure (ed25519_verify public_key digest signature) SignatureMismatch.

Definition verify_canonical_signature (public_key canonical signature : bytes)
    : result CryptoError unit :=
  verify_digest_signature public_key (sha256 canonical) signature.

Record EphemeralKeyPair := { eph_secret : bytes; eph_public_key : bytes }.

Definition from_secret_bytes (s : bytes) : EphemeralKeyPair :=
  {| eph_secret := s; eph_public_key := x25519_public s |}.

(** [EphemeralKeyPair::generate], with the random secret as an argument. *)
Definition generate_ephemeral (random : bytes) : EphemeralKeyPair := from_secret_bytes random.

Definition diffie_hellman (k : EphemeralKeyPair) (peer : bytes) : result CryptoError bytes :=
  let shared := x25519_shared k.(eph_secret) peer in
  if shared =! repeat x00 32 then Err NonContributoryKeyExchange else Ok shared.
End identity.

(** ** Derived keys *)

Record DerivedSessionKeys := {
  controller_to_controlled_key : SecretBytes;
  controller_to_controlled_nonce_prefix : SecretBytes;
  controlled_to_controller_key : SecretBytes;
  controlled_to_controller_nonce_prefix : SecretBytes;
  key_confirmation_controller_to_controlled : SecretBytes;
  key_confirmation_controlled_to_controller : SecretBytes }.

Definition traffic_key (k : DerivedSessionKeys) (d : TrafficDirection) : bytes :=
  match d with
  | ControllerToControlled => expose_for_crypto k.(controller_to_controlled_key)
  | ControlledToController => expose_for_crypto k.(controlled_to_controller_key)
  end.

Definition nonce_prefix (k : DerivedSessionKeys) (d : TrafficDirection) : bytes :=
  match d with
  | ControllerToControlled => expose_for_crypto k.(controller_to_controlled_nonce_prefix)
  | ControlledToController => expose_for_crypto k.(controlled_to_controller_nonce_prefix)
  end.

Definition confirmation_key (k : DerivedSessionKeys) (d : TrafficDirection) : bytes :=
  match d with
  | ControllerToControlled => expose_for_crypto k.(key_confirmation_controller_to_controlled)
  | ControlledToController => expose_for_crypto k.(key_confirmation_controlled_to_controller)
  end.

Record SessionKeys := { sk_send_key : SecretBytes; sk_receive_key : SecretBytes }.

Definition from_key_exchange (send receive : bytes) : SessionKeys :=
  {| sk_send_key := secret_new send; sk_receive_key := secret_new receive |}.
Definition send_key_for_platform_crypto (k : SessionKeys) : bytes :=
  expose_for_crypto k.(sk_send_key).
Definition receive_key_for_platform_crypto (k : SessionKeys) : bytes :=
  expose_for_crypto k.(sk_receive_key).

Section session.
Context `{P : Primitives}.

(** [r.map(|bytes| sha256(&bytes)).map_err(|_| CanonicalEncoding)]. *)
Definition hashed (r : result CanonicalError bytes) : result CryptoError bytes :=
  map_err (λ _, CanonicalEncoding) (sha256 <$> r).

Definition permissions_digest (p : SessionPermissions) : result CryptoError bytes :=
  hashed (permissions_canonical_bytes p).

Definition session_context_hash (c : SessionContext) : result CryptoError bytes :=
  hashed (session_context_canonical_bytes c).

Definition sign_key_exchange (payload : SignedKeyExchangePayload) (k : DeviceKeyPair)
    : result CryptoError SignedKeyExchange :=
  _ ← ensure (validate_path_binding payload) InvalidKeyExchangeContext;
  canonical ← map_err (λ _, CanonicalEncoding) (key_exchange_canonical_bytes payload);
  Ok {| ske_payload := payload; ske_signature := sign_canonical k canonical |}.

Definition verify_key_exchange (m : SignedKeyExchange) (expected : SignedKeyExchangePayload)
    (device_public_key : bytes) : result CryptoError unit :=
  _ ← ensure (negb ((m.(ske_payload) ≠! expected) || negb (validate_path_binding m.(ske_payload))))
        InvalidKeyExchangeContext;
  canonical ← map_err (λ _, CanonicalEncoding) (key_exchange_canonical_bytes m.(ske_payload));
  signature ← ok_or (signature_bytes m) InvalidSignature;
  verify_canonical_signature device_public_key canonical signature.

Definition key_exchange_transcript_hash (controller controlled : SignedKeyExchange)
    : result CryptoError bytes :=
  _ ← ensure (negb ((controller.(ske_payload).(kx_role) ≠! Controller)
                    || (controlled.(ske_payload).(kx_role) ≠! Controlled))) DeviceRoleMismatch;
  controller_canonical ←
    map_err (λ _, CanonicalEncoding) (key_exchange_canonical_bytes controller.(ske_payload));
  controlled_canonical ←
    map_err (λ _, CanonicalEncoding) (key_exchange_canonical_bytes controlled.(ske_payload));
  controller_signature ← ok_or (signature_bytes controller) InvalidSignature;
  controlled_signature ← ok_or (signature_bytes controlled) InvalidSignature;
  Ok (sha256 (controller_canonical ++ controller_signature ++
              controlled_canonical ++ controlled_signature)).

(** [expand::<N>]; [hkdf] is the salt and the input keying material. *)
Definition expand (n : nat) (hkdf : bytes * bytes) (info_base label : bytes)
    : result CryptoError bytes :=
  ok_or (hkdf_sha256 hkdf.1 hkdf.2 (info_base ++ label) n) KeyDerivation.

Definition derive_session_keys (shared_secret : bytes) (context : SessionKdfContext)
    : result CryptoError DerivedSessionKeys :=
  _ ← ensure (Bool.eqb (is_relay context.(kdf_transport_path))
                       (bool_decide (is_Some context.(kdf_relay_node_id))))
        InvalidKeyExchangeContext;
  salt ← hashed (salt_canonical_bytes context);
  info ← map_err (λ _, CanonicalEncoding) (info_base context);
  let hkdf := (salt, shared_secret) in
  k1 ← expand 32 hkdf info (str "controller_to_controlled_key");
  p1 ← expand 4 hkdf info (str "controller_to_controlled_nonce_prefix");
  k2 ← expand 32 hkdf info (str "controlled_to_controller_key");
  p2 ← expand 4 hkdf info (str "controlled_to_controller_nonce_prefix");
  c1 ← expand 32 hkdf info (str "key_confirmation_controller_to_controlled");
  c2 ← expand 32 hkdf info (str "key_confirmation_controlled_to_controller");
  Ok {| controller_to_controlled_key := secret_new k1;
        controller_to_controlled_nonce_prefix := secret_new p1;
        controlled_to_controller_key := secret_new k2;
        controlled_to_controller_nonce_prefix := secret_new p2;
        key_confirmation_controller_to_controlled := secret_new c1;
        key_confirmation_controlled_to_controller := secret_new c2 |}.

(** [Hmac::new_from_slice] accepts keys of every length. *)
Definition create_key_confirm (sid : Z) (device_id : rstr) (role : SessionRole)
    (transcript_hash : bytes) (timestamp : Z) (keys : DerivedSessionKeys)
    : result CryptoError KeyConfirm :=
  let confirm := {| kc_session_id := sid; kc_device_id := device_id; kc_role := role;
                    kc_transcript_hash := transcript_hash; kc_mac := repeat x00 32;
                    kc_timestamp := timestamp |} in
  canonical ← map_err (λ _, CanonicalEncoding) (key_confirm_mac_input confirm);
  let direction := from_sender_role role in
  Ok {| kc_session_id := sid; kc_device_id := device_id; kc_role := role;
        kc_transcript_hash := transcript_hash;
        kc_mac := hmac_sha256 (confirmation_key keys direction) canonical;
        kc_timestamp := timestamp |}.

(** [HashSet<[u8; 32]>]. *)
Record KeyConfirmReplayGuard := { accepted : gset bytes }.
Definition confirm_guard_default : KeyConfirmReplayGuard := {| accepted := ∅ |}.

Definition confirm_verify (g : KeyConfirmReplayGuard) (confirm : KeyConfirm)
    (expected_device_id : rstr) (expected_role : SessionRole)
    (expected_transcript_hash : bytes) (now : Z) (keys : DerivedSessionKeys)
    : result CryptoError unit * KeyConfirmReplayGuard :=
  let r :=
    _ ← ensure (negb ((confirm.(kc_device_id) ≠! expected_device_id)
                      || (confirm.(kc_role) ≠! expected_role))) DeviceRoleMismatch;
    _ ← ensure (confirm.(kc_transcript_hash) =! expected_transcript_hash)
          InvalidKeyExchangeContext;
    _ ← ensure (negb (KEY_CONFIRM_WINDOW_MILLIS <? abs_diff now confirm.(kc_timestamp)))
          TimestampOutsideWindow;
    canonical ← map_err (λ _, CanonicalEncoding) (key_confirm_mac_input confirm);
    let direction := from_sender_role confirm.(kc_role) in
    _ ← ensure (hmac_sha256 (confirmation_key keys direction) canonical =! confirm.(kc_mac))
          AuthenticationFailed;
    Ok (sha256 (canonical ++ confirm.(kc_mac))) in
  match r with
  | Err e => (Err e, g)
  | Ok fingerprint =>
      if bool_decide (fingerprint ∈ g.(accepted)) then (Err ReplayDetected, g)
      else (Ok tt, {| accepted := {[fingerprint]} ∪ g.(accepted) |})
  end.
End session.

(** ** Lemmas *)

Section lemmas.
Context `{P : Primitives}.

(** Reading back the chain of checks of a verification. *)
Lemma verify_digest_ok pk digest s :
  verify_digest_signature pk digest s = Ok tt →
  ed25519_valid_public pk = true ∧ ed25519_verify pk digest s = true.
Proof. unfold verify_digest_signature. intros H. by invert_ok. Qed.

Lemma signature_bytes_some m s :
  signature_bytes m = Some s → s = m.(ske_signature) ∧ length s = 64%nat.
Proof.
  unfold signature_bytes. destruct (Nat.eqb_spec (length (ske_signature m)) 64); naive_solver.
Qed.

(** The bytes that the transcript hash is computed over. *)
Definition transcript_bytes (a b : SignedKeyExchange) : option bytes :=
  x ← ok (key_exchange_canonical_bytes a.(ske_payload));
  y ← ok (key_exchange_canonical_bytes b.(ske_payload));
  Some (x ++ a.(ske_signature) ++ y ++ b.(ske_signature)).

Lemma transcript_hash_ok a b h :
  key_exchange_transcript_hash a b = Ok h →
  a.(ske_payload).(kx_role) = Controller ∧ b.(ske_payload).(kx_role) = Controlled ∧
  length a.(ske_signature) = 64%nat ∧ length b.(ske_signature) = 64%nat ∧
  ∃ t, transcript_bytes a b = Some t ∧ h = sha256 t.
Proof.
  unfold key_exchange_transcript_hash, transcript_bytes. intros H. invert_ok.
  repeat match goal with H : signature_bytes _ = Some _ |- _ =>
    apply signature_bytes_some in H as [-> ?] end.
  repeat match goal with H : key_exchange_canonical_bytes _ = Ok _ |- _ => rewrite H; clear H end.
  repeat split; try done. eauto.
Qed.

Lemma key_exchange_prefix p q bs bs' x y :
  signed_wf (SKeyExchange p) → signed_wf (SKeyExchange q) →
  key_exchange_canonical_bytes p = Ok bs → key_exchange_canonical_bytes q = Ok bs' →
  bs ++ x = bs' ++ y → p = q ∧ x = y.
Proof.
  intros Hp Hq [Fp Ep]%key_exchange_writes [Fq Eq]%key_exchange_writes He. cbn [cw_bytes] in Ep, Eq.
  subst bs bs'. apply encode_fields_app_inj in He as [He ->]; [|done..].
  split; [|done]. by pose proof (signed_fields_inj _ _ Hp Hq He) as [= ?].
Qed.

Lemma transcript_bytes_inj a b a' b' t :
  signed_wf (SKeyExchange a.(ske_payload)) → signed_wf (SKeyExchange a'.(ske_payload)) →
  signed_wf (SKeyExchange b.(ske_payload)) → signed_wf (SKeyExchange b'.(ske_payload)) →
  length a.(ske_signature) = length a'.(ske_signature) →
  transcript_bytes a b = Some t → transcript_bytes a' b' = Some t → a = a' ∧ b = b'.
Proof.
  unfold transcript_bytes. intros Ha Ha' Hb Hb' Hl H H'.
  destruct (key_exchange_canonical_bytes (ske_payload a)) as [x|] eqn:Ex; [|done].
  destruct (key_exchange_canonical_bytes (ske_payload b)) as [y|] eqn:Ey; [|done].
  destruct (key_exchange_canonical_bytes (ske_payload a')) as [x'|] eqn:Ex'; [|done].
  destruct (key_exchange_canonical_bytes (ske_payload b')) as [y'|] eqn:Ey'; [|done].
  cbn in H, H'. injection H as <-. injection H' as He. symmetry in He.
  apply (key_exchange_prefix (ske_payload a) (ske_payload a')) in He as [Hpa He]; [|done..].
  apply app_inj_1 in He as [Hsa He]; [|done].
  apply (key_exchange_prefix (ske_payload b) (ske_payload b')) in He as [Hpb Hsb]; [|done..].
  destruct a, a', b, b'; cbn in *. by subst.
Qed.

(** The checks a confirmation passes before its fingerprint is looked up. *)
Definition confirm_valid (c : KeyConfirm) (device_id : rstr) (role : SessionRole)
    (transcript_hash : bytes) (now : Z) (keys : DerivedSessionKeys) : Prop :=
  c.(kc_device_id) = device_id ∧ c.(kc_role) = role ∧
  c.(kc_transcript_hash) = transcript_hash ∧
  abs_diff now c.(kc_timestamp) ≤ KEY_CONFIRM_WINDOW_MILLIS ∧
  ∃ bs, key_confirm_mac_input c = Ok bs ∧
        c.(kc_mac) = hmac_sha256 (confirmation_key keys (from_sender_role role)) bs.

Definition confirm_fingerprint (c : KeyConfirm) : option bytes :=
  (λ bs, sha256 (bs ++ c.(kc_mac))) <$> ok (key_confirm_mac_input c).

Lemma confirm_verify_ok g c dev role th now keys g' :
  confirm_verify g c dev role th now keys = (Ok tt, g') ↔
  confirm_valid c dev role th now keys ∧
  ∃ f, confirm_fingerprint c = Some f ∧ (f ∉ g.(accepted)) ∧
       g' = {| accepted := {[f]} ∪ g.(accepted) |}.
Proof.
  unfold confirm_verify, confirm_valid, confirm_fingerprint. split.
  - intros H. break_match; simplify_eq. case_bool_decide; simplify_eq. invert_ok.
    match goal with H : key_confirm_mac_input c = Ok _ |- _ => rewrite H end.
    cbn. split; [repeat split; eauto|eauto].
  - intros ((-> & -> & -> & Ht & bs & Hb & Hm) & f & Hf & Hn & ->).
    rewrite Hb in Hf |- *. cbn in Hf |- *. injection Hf as <-.
    rewrite 3!bool_decide_eq_true_2 by done. cbn.
    destruct (Z.ltb_spec KEY_CONFIRM_WINDOW_MILLIS (abs_diff now (kc_timestamp c))); [lia|].
    cbn. rewrite bool_decide_eq_true_2 by done. cbn. by rewrite bool_decide_eq_false_2.
Qed.

Lemma confirm_verify_replay g c dev role th now keys f :
  confirm_valid c dev role th now keys → confirm_fingerprint c = Some f →
  f ∈ g.(accepted) → confirm_verify g c dev role th now keys = (Err ReplayDetected, g).
Proof.
  unfold confirm_verify, confirm_fingerprint.
  intros (-> & -> & -> & Ht & bs & Hb & Hm) Hf Hin.
  rewrite Hb in Hf |- *. cbn in Hf |- *. injection Hf as <-.
  rewrite 3!bool_decide_eq_true_2 by done. cbn.
  destruct (Z.ltb_spec KEY_CONFIRM_WINDOW_MILLIS (abs_diff now (kc_timestamp c))); [lia|].
  cbn. rewrite bool_decide_eq_true_2 by done. cbn. by rewrite bool_decide_eq_true_2.
Qed.

Lemma confirm_verify_err g c dev role th now keys e g' :
  confirm_verify g c dev role th now keys = (Err e, g') → g' = g.
Proof. unfold confirm_verify. intros H. repeat break_match; by simplify_eq. Qed.

(** What [create_key_confirm] makes passes every check inside the window. *)
Lemma create_key_confirm_valid sid dev role th ts keys c now :
  create_key_confirm sid dev role th ts keys = Ok c →
  abs_diff now ts ≤ KEY_CONFIRM_WINDOW_MILLIS →
  confirm_valid c dev role th now keys ∧ c.(kc_session_id) = sid ∧ c.(kc_timestamp) = ts.
Proof.
  unfold create_key_confirm, confirm_valid. intros H Hw. invert_ok. cbn.
  repeat split; try done. eexists. split; [|done].
  match goal with H : key_confirm_mac_input _ = Ok _ |- _ => exact H end.
Qed.

Lemma confirm_valid_fingerprint c dev role th now keys :
  confirm_valid c dev role th now keys → is_Some (confirm_fingerprint c).
Proof. intros (_ & _ & _ & _ & bs & Hb & _). unfold confirm_fingerprint. rewrite Hb. eauto. Qed.

Lemma expand_length {L : PrimitiveLaws P} n h i l o : expand n h i l = Ok o → length o = n.
Proof. unfold expand. intros H. invert_ok. by eapply hkdf_length. Qed.

Lemma derive_lengths {L : PrimitiveLaws P} s ctx k d :
  derive_session_keys s ctx = Ok k →
  length (traffic_key k d) = 32%nat ∧ length (nonce_prefix k d) = 4%nat ∧
  length (confirmation_key k d) = 32%nat.
Proof.
  unfold derive_session_keys. intros H. invert_ok.
  repeat match goal with H : expand _ _ _ _ = Ok _ |- _ => apply expand_length in H end.
  by destruct d.
Qed.
End lemmas.

(** ** Theorems *)

(** The transcript hash binds both signed messages: two accepted
    transcripts with the same hash consist of the same two payloads and
    signatures, or they are themselves a SHA-256 collision. *)
Theorem transcript_hash_binds `{P : Primitives} a b a' b' h :
  signed_wf (SKeyExchange a.(ske_payload)) → signed_wf (SKeyExchange a'.(ske_payload)) →
  signed_wf (SKeyExchange b.(ske_payload)) → signed_wf (SKeyExchange b'.(ske_payload)) →
  key_exchange_transcript_hash a b = Ok h → key_exchange_transcript_hash a' b' = Ok h →
  (a = a' ∧ b = b') ∨
  ∃ t t', transcript_bytes a b = Some t ∧ transcript_bytes a' b' = Some t' ∧
          sha256_collision t t'.
Proof.
  intros Ha Ha' Hb Hb' (_ & _ & Hl & _ & t & Ht & ->)%transcript_hash_ok
    (_ & _ & Hl' & _ & t' & Ht' & He)%transcript_hash_ok.
  apply sha256_equal in He as [->|Hc]; [left|right; eauto].
  eapply transcript_bytes_inj; eauto. congruence.
Qed.

(** The signed messages of the repository's key-exchange tests, signed with
    the toy primitives. *)
Definition example_payload (role : SessionRole) : SignedKeyExchangePayload := {|
  kx_session_id := 1;
  kx_device_id := match role with Controller => str "controller-a" | Controlled => str "controlled-a" end;
  kx_role := role; kx_session_context_hash := repeat x04 32;
  kx_permissions_digest := repeat x03 32; kx_session_expires_at := 10000;
  kx_ephemeral_public_key := repeat x05 32; kx_nonce := repeat x06 32;
  kx_transport_path := QuicRelay; kx_candidate_pair_id := 9;
  kx_relay_node_id := Some (str "relay-a"); kx_timestamp := 1000 |}.

Definition example_signed (role : SessionRole) : SignedKeyExchange :=
  match @sign_key_exchange toy (example_payload role) (@from_private_key toy (repeat x07 32)) with
  | Ok m => m
  | Err _ => {| ske_payload := example_payload role; ske_signature := [] |}
  end.

Lemma transcript_hash_binds_witness :
  let a := example_signed Controller in let b := example_signed Controlled in
  (a = a ∧ b = b) ∨
  ∃ t t', transcript_bytes a b = Some t ∧ transcript_bytes a b = Some t' ∧
          @sha256_collision toy t t'.
Proof.
  intros a b.
  destruct (is_ok_ex (@key_exchange_transcript_hash toy a b)) as [h E];
    [vm_compute; reflexivity|].
  apply (@transcript_hash_binds toy a b a b h); try exact E;
    vm_compute; repeat split; congruence.
Defined.

(** Signing and verifying a key exchange are inverse: a message signed by a
    device verifies under its public key and the payload that was signed, and a
    message that verifies carries exactly the expected payload, a transport path
    with a relay node exactly when it is relayed, and a valid 64-byte signature
    of its canonical digest. *)
Theorem key_exchange_sign_verify `{P : Primitives} {L : PrimitiveLaws P} payload expected sk pk m :
  (sign_key_exchange payload (from_private_key sk) = Ok m →
   m.(ske_payload) = payload ∧
   verify_key_exchange m payload (ed25519_public sk) = Ok tt) ∧
  (verify_key_exchange m expected pk = Ok tt →
   m.(ske_payload) = expected ∧ validate_path_binding expected = true ∧
   ∃ bs, key_exchange_canonical_bytes expected = Ok bs ∧
         length m.(ske_signature) = 64%nat ∧
         ed25519_verify pk (sha256 bs) m.(ske_signature) = true).
Proof.
  split.
  - unfold sign_key_exchange, verify_key_exchange. intros H. invert_ok. cbn. split; [done|].
    rewrite bool_decide_eq_true_2 by done.
    repeat match goal with H : _ = _ |- _ => rewrite H; clear H; cbn end.
    unfold signature_bytes, sign_canonical, sign_digest. cbn.
    rewrite ed25519_sign_length. cbn. unfold verify_canonical_signature, verify_digest_signature.
    by rewrite ed25519_public_valid, ed25519_verify_sign.
  - unfold verify_key_exchange. intros H. invert_ok.
    apply verify_digest_ok in H as [_ H].
    match goal with H : signature_bytes _ = Some _ |- _ =>
      apply signature_bytes_some in H as [-> ?] end. eauto 10.
Qed.

Lemma key_exchange_sign_verify_witness :
  ∃ m, @sign_key_exchange toy (example_payload Controller) (@from_private_key toy (repeat x07 32)) = Ok m ∧
       @verify_key_exchange toy m (example_payload Controller) (repeat x07 32) = Ok tt.
Proof.
  destruct (is_ok_ex (@sign_key_exchange toy (example_payload Controller)
    (@from_private_key toy (repeat x07 32)))) as [m E]; [vm_compute; reflexivity|].
  exists m. split; [exact E|].
  apply (@key_exchange_sign_verify toy toy_laws (example_payload Controller)
    (example_payload Controller) (repeat x07 32) (repeat x07 32) m). exact E.
Defined.

(** Both sides of a Diffie-Hellman exchange derive the same six keys from the
    same context, of the lengths the cipher and the MAC use. *)
Theorem key_agreement `{P : Primitives} {L : PrimitiveLaws P} a b ctx shared k :
  diffie_hellman (from_secret_bytes a) (from_secret_bytes b).(eph_public_key) = Ok shared →
  derive_session_keys shared ctx = Ok k →
  (∃ shared', diffie_hellman (from_secret_bytes b) (from_secret_bytes a).(eph_public_key) = Ok shared' ∧
              derive_session_keys shared' ctx = Ok k) ∧
  ∀ d, length (traffic_key k d) = 32%nat ∧ length (nonce_prefix k d) = 4%nat ∧
       length (confirmation_key k d) = 32%nat.
Proof.
  intros Hd Hk. split; [|intros d; by eapply derive_lengths].
  exists shared. split; [|done]. unfold diffie_hellman in *. cbn in *.
  by rewrite x25519_agree.
Qed.

Definition example_kdf_context : SessionKdfContext := {|
  kdf_account_id := str "account-a"; kdf_session_id := 1;
  kdf_controller_device_id := str "controller-a"; kdf_controlled_device_id := str "controlled-a";
  kdf_permissions_digest := repeat x03 32; kdf_protocol_version := 1;
  kdf_session_expires_at := 10000; kdf_transport_path := QuicRelay;
  kdf_candidate_pair_id := 9; kdf_relay_node_id := Some (str "relay-a");
  kdf_transcript_hash := repeat x08 32 |}.

Lemma key_agreement_witness :
  ∃ k, @derive_session_keys toy (be_bytes 32 3) example_kdf_context = Ok k ∧
  ∀ d, length (traffic_key k d) = 32%nat ∧ length (nonce_prefix k d) = 4%nat ∧
       length (confirmation_key k d) = 32%nat.
Proof.
  destruct (is_ok_ex (@derive_session_keys toy (be_bytes 32 3) example_kdf_context)) as [k E];
    [vm_compute; reflexivity|].
  exists k. split; [done|].
  apply (@key_agreement toy toy_laws [x01] [x02] example_kdf_context (be_bytes 32 3) k);
    [reflexivity|exact E].
Defined.

(** A key confirmation made for a role, device and transcript is accepted
    by the peer inside the 30 second window, exactly once: presented again it is
    reported as a replay. Whatever is accepted names the expected device, role
    and transcript and carries the MAC of its fields under the key of the
    sender's direction. *)
Theorem key_confirm_accepted_once `{P : Primitives} sid dev role th ts keys c now :
  create_key_confirm sid dev role th ts keys = Ok c →
  abs_diff now ts ≤ KEY_CONFIRM_WINDOW_MILLIS →
  ∃ g, confirm_verify confirm_guard_default c dev role th now keys = (Ok tt, g) ∧
       (∀ now', abs_diff now' ts ≤ KEY_CONFIRM_WINDOW_MILLIS →
          confirm_verify g c dev role th now' keys = (Err ReplayDetected, g)) ∧
       (∀ g1 c' dev' role' th' now' keys' g2,
          confirm_verify g1 c' dev' role' th' now' keys' = (Ok tt, g2) →
          confirm_valid c' dev' role' th' now' keys').
Proof.
  intros Hc Hw.
  destruct (create_key_confirm_valid _ _ _ _ _ _ _ _ Hc Hw) as (Hv & _ & Hts).
  destruct (confirm_valid_fingerprint _ _ _ _ _ _ Hv) as [f Hf].
  eexists. split; [|split].
  - apply confirm_verify_ok. split; [done|]. exists f. split; [done|]. split; [|done]. set_solver.
  - intros now' Hw'. eapply confirm_verify_replay; [|exact Hf|set_solver].
    by eapply create_key_confirm_valid.
  - intros * H. by apply confirm_verify_ok in H as [? _].
Qed.

Definition example_keys : DerivedSessionKeys := {|
  controller_to_controlled_key := secret_new (repeat x11 32);
  controller_to_controlled_nonce_prefix := secret_new (repeat x12 4);
  controlled_to_controller_key := secret_new (repeat x13 32);
  controlled_to_controller_nonce_prefix := secret_new (repeat x14 4);
  key_confirmation_controller_to_controlled := secret_new (repeat x15 32);
  key_confirmation_controlled_to_controller := secret_new (repeat x16 32) |}.

Lemma key_confirm_accepted_once_witness :
  let k := example_keys in ∃ c g,
  @create_key_confirm toy 1 (str "controller-a") Controller (repeat x08 32) 1000 k = Ok c ∧
  @confirm_verify toy confirm_guard_default c (str "controller-a") Controller
    (repeat x08 32) 2000 k = (Ok tt, g).
Proof.
  intros k.
  destruct (is_ok_ex (@create_key_confirm toy 1 (str "controller-a") Controller
    (repeat x08 32) 1000 k)) as [c Ec]; [vm_compute; reflexivity|].
  destruct (@key_confirm_accepted_once toy 1 (str "controller-a") Controller (repeat x08 32)
    1000 k c 2000 Ec) as (g & Hg & _); [vm_compute; congruence|].
  exists c, g. done.
Defined.
