(* ===== verification/SecureSession.v ===== *)
(** * The secure session state machine

    Models crates/remote-core/src/session_crypto.rs: one side of an established
    session, from key confirmation through sealing and opening of messages to
    invalidation. The theorems are about every sequence of calls: nonces are
    never reused, nothing is sealed or opened before both confirmations,
    invalidation is final, and two peers understand each other. *)

From S2P Require Import Prelude Header Canonical Security Primitives E2ee KeySession.

Inductive SecureSessionState := AwaitingKeyConfirm | Ready | InvalidatedState.

Inductive SecureSessionError :=
| KeyConfirmationRequired | Invalidated | PermissionDenied | SessionMismatch
| PathChanged | PermissionsChanged | Crypto (e : CryptoError).

#[global] Instance SecureSessionError_eq_dec : EqDecision SecureSessionError.
Proof. solve_decision. Defined.

Record SecureSession := {
  ss_session_id : Z;
  ss_local_role : SessionRole;
  ss_permissions : SessionPermissions;
  ss_permissions_digest : bytes;
  ss_path : TransportPath;
  ss_candidate_pair_id : Z;
  ss_relay_node_id : option rstr;
  ss_transcript_hash : bytes;
  ss_keys : DerivedSessionKeys;
  ss_send_sequences : list Z;
  ss_receive_replay_guard : ReplayGuard;
  ss_key_confirm_replay_guard : KeyConfirmReplayGuard;
  ss_local_confirm_sent : bool;
  ss_peer_confirmed : bool;
  ss_invalidated : bool }.

Definition secure_session_new (session_id : Z) (local_role : SessionRole)
    (permissions : SessionPermissions) (digest : bytes) (path : TransportPath)
    (candidate_pair_id : Z) (relay_node_id : option rstr) (transcript_hash : bytes)
    (keys : DerivedSessionKeys) : result SecureSessionError SecureSession :=
  _ ← ensure (Bool.eqb (is_relay path) (bool_decide (is_Some relay_node_id))) PathChanged;
  Ok {| ss_session_id := session_id; ss_local_role := local_role;
        ss_permissions := permissions; ss_permissions_digest := digest;
        ss_path := path; ss_candidate_pair_id := candidate_pair_id;
        ss_relay_node_id := relay_node_id; ss_transcript_hash := transcript_hash;
        ss_keys := keys; ss_send_sequences := repeat 0 9;
        ss_receive_replay_guard := guard_default;
        ss_key_confirm_replay_guard := confirm_guard_default;
        ss_local_confirm_sent := false; ss_peer_confirmed := false;
        ss_invalidated := false |}.

(** Assignments to the mutable fields. *)
Definition set_sequences (s : SecureSession) (q : list Z) : SecureSession :=
  {| ss_session_id := s.(ss_session_id); ss_local_role := s.(ss_local_role);
     ss_permissions := s.(ss_permissions); ss_permissions_digest := s.(ss_permissions_digest);
     ss_path := s.(ss_path); ss_candidate_pair_id := s.(ss_candidate_pair_id);
     ss_relay_node_id := s.(ss_relay_node_id); ss_transcript_hash := s.(ss_transcript_hash);
     ss_keys := s.(ss_keys); ss_send_sequences := q;
     ss_receive_replay_guard := s.(ss_receive_replay_guard);
     ss_key_confirm_replay_guard := s.(ss_key_confirm_replay_guard);
     ss_local_confirm_sent := s.(ss_local_confirm_sent);
     ss_peer_confirmed := s.(ss_peer_confirmed); ss_invalidated := s.(ss_invalidated) |}.

Definition set_guard (s : SecureSession) (g : ReplayGuard) : SecureSession :=
  {| ss_session_id := s.(ss_session_id); ss_local_role := s.(ss_local_role);
     ss_permissions := s.(ss_permissions); ss_permissions_digest := s.(ss_permissions_digest);
     ss_path := s.(ss_path); ss_candidate_pair_id := s.(ss_candidate_pair_id);
     ss_relay_node_id := s.(ss_relay_node_id); ss_transcript_hash := s.(ss_transcript_hash);
     ss_keys := s.(ss_keys); ss_send_sequences := s.(ss_send_sequences);
     ss_receive_replay_guard := g;
     ss_key_confirm_replay_guard := s.(ss_key_confirm_replay_guard);
     ss_local_confirm_sent := s.(ss_local_confirm_sent);
     ss_peer_confirmed := s.(ss_peer_confirmed); ss_invalidated := s.(ss_invalidated) |}.

Definition set_flags (s : SecureSession) (g : KeyConfirmReplayGuard)
    (sent confirmed invalid : bool) : SecureSession :=
  {| ss_session_id := s.(ss_session_id); ss_local_role := s.(ss_local_role);
     ss_permissions := s.(ss_permissions); ss_permissions_digest := s.(ss_permissions_digest);
     ss_path := s.(ss_path); ss_candidate_pair_id := s.(ss_candidate_pair_id);
     ss_relay_node_id := s.(ss_relay_node_id); ss_transcript_hash := s.(ss_transcript_hash);
     ss_keys := s.(ss_keys); ss_send_sequences := s.(ss_send_sequences);
     ss_receive_replay_guard := s.(ss_receive_replay_guard);
     ss_key_confirm_replay_guard := g;
     ss_local_confirm_sent := sent; ss_peer_confirmed := confirmed;
     ss_invalidated := invalid |}.

Definition mark_invalidated (s : SecureSession) : SecureSession :=
  set_flags s s.(ss_key_confirm_replay_guard) s.(ss_local_confirm_sent)
    s.(ss_peer_confirmed) true.

Definition session_state (s : SecureSession) : SecureSessionState :=
  if s.(ss_invalidated) then InvalidatedState
  else if s.(ss_local_confirm_sent) && s.(ss_peer_confirmed) then Ready
  else AwaitingKeyConfirm.

Definition ensure_not_invalidated (s : SecureSession) : result SecureSessionError unit :=
  if s.(ss_invalidated) then Err Invalidated else Ok tt.

Definition ensure_ready (s : SecureSession) : result SecureSessionError unit :=
  _ ← ensure_not_invalidated s;
  if s.(ss_local_confirm_sent) && s.(ss_peer_confirmed) then Ok tt
  else Err KeyConfirmationRequired.

Definition allowed (p : SessionPermissions) (k : MessageKind) : bool :=
  match k with
  | KeyExchangeMessage | KeyConfirmKind | ErrorReport => true
  | InputEventKind => p.(input_control)
  | MediaCapabilities | MediaConfigRequest | MediaConfigState
  | MediaQualityRequest | MediaQualityState | KeyframeRequest
  | VideoFrameInfo | VideoFrameData
  | DisplayList | DisplaySelect | DisplayChanged => p.(remote_desktop)
  | ClipboardPermissionRequest | ClipboardPermissionState | ClipboardText => p.(clipboard)
  | FileTransferRequest | FileTransferAck | FileChunk | FileTransferCancel => p.(file_transfer)
  | PrivacyModeRequest | PrivacyModeState | PrivacyModeRestore =>
      p.(privacy_screen) || p.(block_local_input)
  | RebootRequest | RebootStateKind | RebootCancel | RebootResumeHint | Stats => true
  end.

Definition authorize (s : SecureSession) (k : MessageKind) : result SecureSessionError unit :=
  if allowed s.(ss_permissions) k then Ok tt else Err PermissionDenied.

(** [self.send_sequences[channel as usize]]; the array has nine entries. *)
Definition send_sequence (s : SecureSession) (c : ChannelId) : Z :=
  default 0 (s.(ss_send_sequences) !! channel_index c).

Definition set_send_sequence (s : SecureSession) (c : ChannelId) (q : Z) : SecureSession :=
  set_sequences s (<[channel_index c := q]> s.(ss_send_sequences)).

(** [header.flags = n]. *)
Definition set_flags_field (h : MessageHeader) (n : Z) : MessageHeader :=
  {| version := h.(version); kind := h.(kind); flags := n;
     channel_id := h.(channel_id); session_id := h.(session_id);
     sequence := h.(sequence); payload_len := h.(payload_len) |}.

Section operations.
Context `{P : Primitives}.

Definition create_local_key_confirm (s : SecureSession) (device_id : rstr) (timestamp : Z)
    : result SecureSessionError KeyConfirm * SecureSession :=
  let r :=
    _ ← ensure_not_invalidated s;
    _ ← ensure (negb s.(ss_local_confirm_sent)) (Crypto ReplayDetected);
    map_err Crypto (create_key_confirm s.(ss_session_id) device_id s.(ss_local_role)
      s.(ss_transcript_hash) timestamp s.(ss_keys)) in
  match r with
  | Ok confirm => (Ok confirm, set_flags s s.(ss_key_confirm_replay_guard) true
                                 s.(ss_peer_confirmed) s.(ss_invalidated))
  | Err e => (Err e, s)
  end.

Definition verify_peer_key_confirm (s : SecureSession) (confirm : KeyConfirm)
    (expected_peer_device_id : rstr) (now : Z)
    : result SecureSessionError unit * SecureSession :=
  match ensure_not_invalidated s with
  | Err e => (Err e, s)
  | Ok _ =>
      if s.(ss_peer_confirmed) then (Err (Crypto ReplayDetected), mark_invalidated s)
      else if (confirm.(kc_session_id) ≠! s.(ss_session_id))
              || (confirm.(kc_role) =! s.(ss_local_role))
      then (Err SessionMismatch, mark_invalidated s)
      else
        let '(verification, guard) :=
          confirm_verify s.(ss_key_confirm_replay_guard) confirm expected_peer_device_id
            (peer_role s.(ss_local_role)) s.(ss_transcript_hash) now s.(ss_keys) in
        match verification with
        | Err error => (Err (Crypto error), set_flags s guard s.(ss_local_confirm_sent)
                                              s.(ss_peer_confirmed) true)
        | Ok _ => (Ok tt, set_flags s guard s.(ss_local_confirm_sent) true s.(ss_invalidated))
        end
  end.

Definition seal (s : SecureSession) (k : MessageKind) (c : ChannelId) (fl : Z) (plaintext : bytes)
    : result SecureSessionError (MessageHeader * bytes) * SecureSession :=
  let seq := send_sequence s c in
  let r :=
    _ ← ensure_ready s;
    _ ← authorize s k;
    _ ← ensure (negb (MAX_SECURE_SEQUENCE <? seq)) (Crypto CryptoSequenceExhausted);
    header ← map_err (λ _, Crypto CryptoInvalidChannel)
               (header_new_on_channel k c s.(ss_session_id) seq 0);
    let header := set_flags_field header fl in
    let direction := from_sender_role s.(ss_local_role) in
    map_err Crypto (encrypt_payload (traffic_key s.(ss_keys) direction)
      (nonce_prefix s.(ss_keys) direction) s.(ss_permissions_digest) direction
      header plaintext) in
  match r with
  | Ok encrypted => (Ok encrypted, set_send_sequence s c (sat_add 64 seq 1))
  | Err e => (Err e, s)
  end.

(** The payload is recorded in the replay guard before its kind is
    authorized. *)
Definition open (s : SecureSession) (header : MessageHeader) (ciphertext : bytes)
    : result SecureSessionError bytes * SecureSession :=
  match (_ ← ensure_ready s;
         ensure (header.(session_id) =! s.(ss_session_id)) SessionMismatch) with
  | Err e => (Err e, s)
  | Ok _ =>
      let direction := reverse_direction (from_sender_role s.(ss_local_role)) in
      let '(r, guard) := decrypt_payload (traffic_key s.(ss_keys) direction)
        (nonce_prefix s.(ss_keys) direction) s.(ss_permissions_digest) direction
        header ciphertext s.(ss_receive_replay_guard) in
      let s := set_guard s guard in
      match r with
      | Err e => (Err (Crypto e), s)
      | Ok plaintext =>
          (_ ← authorize s header.(kind); Ok plaintext, s)
      end
  end.

Definition invalidate_if_binding_changed (s : SecureSession) (digest : bytes)
    (path : TransportPath) (candidate_pair_id : Z) (relay_node_id : option rstr)
    : result SecureSessionError unit * SecureSession :=
  if digest ≠! s.(ss_permissions_digest) then (Err PermissionsChanged, mark_invalidated s)
  else if (path ≠! s.(ss_path)) || (candidate_pair_id ≠! s.(ss_candidate_pair_id))
          || (relay_node_id ≠! s.(ss_relay_node_id))
  then (Err PathChanged, mark_invalidated s)
  else (Ok tt, s).

Definition invalidate_for_reboot (s : SecureSession) : SecureSession := mark_invalidated s.

Definition restore_send_sequence (s : SecureSession) (c : ChannelId) (next_sequence : Z)
    : result SecureSessionError unit * SecureSession :=
  match ensure_not_invalidated s with
  | Err e => (Err e, s)
  | Ok _ =>
      if (next_sequence <? send_sequence s c) || (MAX_SECURE_SEQUENCE <? next_sequence)
      then (Err (Crypto ReplayDetected), s)
      else (Ok tt, set_send_sequence s c next_sequence)
  end.
End operations.

(** ** Sequences of calls *)

Inductive Op :=
| OpCreate (device_id : rstr) (timestamp : Z)
| OpVerify (confirm : KeyConfirm) (device_id : rstr) (now : Z)
| OpSeal (k : MessageKind) (c : ChannelId) (fl : Z) (plaintext : bytes)
| OpOpen (h : MessageHeader) (ciphertext : bytes)
| OpBinding (digest : bytes) (path : TransportPath) (pair : Z) (relay : option rstr)
| OpReboot
| OpRestore (c : ChannelId) (next : Z).

Inductive Out :=
| OutConfirm (r : result SecureSessionError KeyConfirm)
| OutVerify (r : result SecureSessionError unit)
| OutSeal (r : result SecureSessionError (MessageHeader * bytes))
| OutOpen (r : result SecureSessionError bytes)
| OutBinding (r : result SecureSessionError unit)
| OutReboot
| OutRestore (r : result SecureSessionError unit).

Section traces.
Context `{P : Primitives}.

Definition step (s : SecureSession) (op : Op) : Out * SecureSession :=
  match op with
  | OpCreate d t => prod_map OutConfirm id (create_local_key_confirm s d t)
  | OpVerify c d n => prod_map OutVerify id (verify_peer_key_confirm s c d n)
  | OpSeal k c f p => prod_map OutSeal id (seal s k c f p)
  | OpOpen h c => prod_map OutOpen id (open s h c)
  | OpBinding d p c r => prod_map OutBinding id (invalidate_if_binding_changed s d p c r)
  | OpReboot => (OutReboot, invalidate_for_reboot s)
  | OpRestore c n => prod_map OutRestore id (restore_send_sequence s c n)
  end.

Fixpoint run (s : SecureSession) (ops : list Op) : list Out * SecureSession :=
  match ops with
  | [] => ([], s)
  | op :: ops =>
      let '(o, s) := step s op in
      let '(os, s) := run s ops in (o :: os, s)
  end.

(** The messages that were sealed. *)
Definition sealed_out (o : Out) : option (MessageHeader * bytes) :=
  match o with OutSeal (Ok m) => Some m | _ => None end.

Definition sealed (os : list Out) : list (MessageHeader * bytes) :=
  omap sealed_out os.

(** *** What a call can change *)

Ltac unfold_ops :=
  unfold create_local_key_confirm, verify_peer_key_confirm, seal, open,
    invalidate_if_binding_changed, restore_send_sequence, invalidate_for_reboot,
    mark_invalidated, set_send_sequence, ensure_not_invalidated in *.

(** Identity, permissions, binding and keys never change. *)
Definition frozen (s : SecureSession) :=
  (s.(ss_session_id), s.(ss_local_role), s.(ss_permissions), s.(ss_permissions_digest),
   s.(ss_path), s.(ss_candidate_pair_id), s.(ss_relay_node_id), s.(ss_transcript_hash),
   s.(ss_keys)).

Lemma step_frozen s op : frozen (step s op).2 = frozen s.
Proof. destruct op; cbn; unfold_ops; repeat break_match; reflexivity. Qed.

Lemma authorize_ok s k : authorize s k = Ok tt ↔ allowed s.(ss_permissions) k = true.
Proof. unfold authorize. by destruct (allowed _ _). Qed.

Lemma ensure_ready_ok s :
  ensure_ready s = Ok tt ↔
  s.(ss_invalidated) = false ∧ s.(ss_local_confirm_sent) = true ∧ s.(ss_peer_confirmed) = true.
Proof.
  unfold ensure_ready, ensure_not_invalidated.
  destruct (ss_invalidated s), (ss_local_confirm_sent s), (ss_peer_confirmed s); naive_solver.
Qed.

(** The header a session puts on a message. *)
Definition message_header (s : SecureSession) (k : MessageKind) (c : ChannelId) (fl n : Z)
    : MessageHeader :=
  {| version := PROTOCOL_VERSION; kind := k; flags := fl; channel_id := c;
     session_id := s.(ss_session_id); sequence := send_sequence s c; payload_len := n |}.

Definition send_direction (s : SecureSession) : TrafficDirection :=
  from_sender_role s.(ss_local_role).

Lemma seal_ok s k c f p h ct s' :
  seal s k c f p = (Ok (h, ct), s') →
  ensure_ready s = Ok tt ∧ allowed s.(ss_permissions) k = true ∧
  send_sequence s c ≤ MAX_SECURE_SEQUENCE ∧
  s' = set_send_sequence s c (send_sequence s c + 1) ∧
  h = message_header s k c f (len p + 16) ∧
  encrypt_payload (traffic_key s.(ss_keys) (send_direction s))
    (nonce_prefix s.(ss_keys) (send_direction s))
    s.(ss_permissions_digest) (send_direction s) (message_header s k c f 0) p = Ok (h, ct).
Proof.
  unfold seal. intros H. break_match; simplify_eq. invert_ok.
  match goal with H : header_new_on_channel _ _ _ _ _ = Ok _ |- _ =>
    unfold header_new_on_channel in H; invert_ok end.
  match goal with H : encrypt_payload _ _ _ _ _ _ = Ok _ |- _ =>
    pose proof (encrypt_payload_ok _ _ _ _ _ _ _ _ H) as (_ & _ & -> & _) end.
  match goal with H : authorize _ _ = Ok _ |- _ => apply authorize_ok in H end.
  unfold MAX_SECURE_SEQUENCE in *.
  rewrite sat_add_small by lia. repeat split; done.
Qed.

Lemma seal_err s k c f p e s' : seal s k c f p = (Err e, s') → s' = s.
Proof. unfold seal. intros H. break_match; by simplify_eq. Qed.

(** The sequence array has an entry for every channel. *)
Definition sequences_wf (s : SecureSession) : Prop :=
  length s.(ss_send_sequences) = 9%nat ∧ Forall (λ q, 0 ≤ q) s.(ss_send_sequences).

Lemma send_sequence_nonneg s c : sequences_wf s → 0 ≤ send_sequence s c.
Proof.
  intros [_ Hf]. unfold send_sequence. destruct (_ !! _) eqn:E; cbn; [|done].
  by eapply Forall_lookup_1 in Hf.
Qed.

Lemma set_send_sequence_lookup s c q c' :
  length s.(ss_send_sequences) = 9%nat →
  send_sequence (set_send_sequence s c q) c' = if decide (c' = c) then q else send_sequence s c'.
Proof.
  intros Hl. unfold send_sequence, set_send_sequence. cbn. case_decide as Hc.
  - subst. rewrite list_lookup_insert_eq; [done|]. rewrite Hl. apply channel_index_lt.
  - rewrite list_lookup_insert_ne; [done|]. intros He. by apply channel_index_inj in He.
Qed.

Lemma set_send_sequence_wf s c q :
  sequences_wf s → 0 ≤ q → sequences_wf (set_send_sequence s c q).
Proof.
  intros [Hl Hf] Hq. split; cbn; [by rewrite length_insert|].
  by apply Forall_insert.
Qed.

(** No call other than a successful [seal] or [restore_send_sequence] touches
    the counters, and those only raise one of them. *)
Lemma step_sequences s op :
  sequences_wf s →
  sequences_wf (step s op).2 ∧ ∀ c, send_sequence s c ≤ send_sequence (step s op).2 c.
Proof.
  intros Hwf. pose proof (send_sequence_nonneg s) as Hnn.
  destruct op as [d t|c d n|k c f p|h ct|d p c r| |c n].
  1,2,4,5,6: split; [|intros c0]; cbn; unfold_ops; repeat break_match; done.
  - cbn. destruct (seal s k c f p) as [[[h ct]|e] s'] eqn:E; cbn.
    + apply seal_ok in E as (_ & _ & _ & -> & _). specialize (Hnn c Hwf).
      split; [apply set_send_sequence_wf; [done|lia]|].
      intros c'. rewrite set_send_sequence_lookup by apply Hwf. case_decide; [subst|]; lia.
    + by apply seal_err in E as ->.
  - cbn. unfold restore_send_sequence. destruct (ensure_not_invalidated s); [|done].
    destruct (_ || _) eqn:E; [done|]. split_bools. cbn. specialize (Hnn c Hwf).
    split; [apply set_send_sequence_wf; [done|lia]|].
    intros c'. rewrite set_send_sequence_lookup by apply Hwf. case_decide; [subst|]; lia.
Qed.

Lemma run_cons s op ops :
  run s (op :: ops) = ((step s op).1 :: (run (step s op).2 ops).1, (run (step s op).2 ops).2).
Proof. cbn [run]. destruct (step s op) as [o s']. cbn. by destruct (run s' ops). Qed.

Lemma run_frozen s ops : frozen (run s ops).2 = frozen s.
Proof.
  revert s. induction ops as [|op ops IH]; intros s; [done|].
  rewrite run_cons. cbn. by rewrite IH, step_frozen.
Qed.

(** The channel and sequence number a sealed message was encrypted under. *)
Definition message_slot (m : MessageHeader * bytes) : ChannelId * Z :=
  (m.1.(channel_id), m.1.(sequence)).

(** Only [seal] seals. *)
Lemma step_sealed s op :
  sealed_out (step s op).1 = None ∨
  ∃ k c f p h ct, (step s op).1 = OutSeal (Ok (h, ct)) ∧ seal s k c f p = (Ok (h, ct), (step s op).2).
Proof.
  destruct op as [| |k c f p| | | |]; cbn; try (left; by repeat case_match).
  destruct (seal s k c f p) as [[[h ct]|e] s'] eqn:E; cbn; [right|by left]. naive_solver.
Qed.

(** Everything sealed from [s] on uses a counter value [s] has not used, and no
    slot is used twice. *)
Lemma run_slots s ops :
  sequences_wf s →
  NoDup (message_slot <$> sealed (run s ops).1) ∧
  ∀ c q, (c, q) ∈ message_slot <$> sealed (run s ops).1 →
    send_sequence s c ≤ q ≤ MAX_SECURE_SEQUENCE.
Proof.
  revert s. induction ops as [|op ops IH]; intros s Hwf.
  { split; [constructor|]. intros c q Hin. by apply elem_of_nil in Hin. }
  rewrite run_cons. cbn [fst]. destruct (step_sequences s op Hwf) as [Hwf' Hmono].
  specialize (IH _ Hwf') as [IHn IHs].
  destruct (step_sealed s op) as [Hnone|(k & c & f & p & h & ct & Ho & Es)].
  - unfold sealed at 1 2. cbn [omap list_omap]. rewrite Hnone. split; [done|].
    intros c q Hin. specialize (Hmono c). specialize (IHs c q Hin). lia.
  - cbn in *. rewrite Ho. cbn. apply seal_ok in Es as (_ & _ & Hq & Es & -> & _).
    rewrite Es in *. split.
    + constructor; [|done]. intros Hin. apply IHs in Hin.
      rewrite set_send_sequence_lookup, decide_True in Hin by (done || apply Hwf). cbn in Hin. lia.
    + intros c' q Hin. apply elem_of_cons in Hin as [[= -> ->]|Hin]; [done|].
      specialize (Hmono c'). specialize (IHs c' q Hin). lia.
Qed.
End traces.

Lemma secure_session_new_ok sid role p dg path pair relay th keys s :
  secure_session_new sid role p dg path pair relay th keys = Ok s →
  sequences_wf s ∧ s.(ss_keys) = keys ∧ s.(ss_local_role) = role ∧
  s.(ss_receive_replay_guard) = guard_default ∧
  s.(ss_local_confirm_sent) = false ∧ s.(ss_peer_confirmed) = false.
Proof.
  unfold secure_session_new. intros H. invert_ok. split; [|done].
  split; cbn; [done|]. by repeat constructor.
Qed.

(** ** Two peers *)

(** A message on its way: the plaintext it was sealed from, and what was sealed. *)
Abbreviation InFlight := (bytes * (MessageHeader * bytes))%type.

(** The two ends of a session, and what each has sent that has neither arrived nor
    been lost. *)
Record Line := { ends : SessionRole → SecureSession; flight : SessionRole → list InFlight }.

Definition at_role {A} (r : SessionRole) (x : A) (f : SessionRole → A) : SessionRole → A :=
  λ r', if decide (r' = r) then x else f r'.

(** What happens next on the line: an end seals a message and sends it, one of the
    messages on their way from an end arrives at the other end, or is lost. *)
Inductive Turn :=
| Say (from : SessionRole) (k : MessageKind) (c : ChannelId) (fl : Z) (p : bytes)
| Arrive (from : SessionRole) (i : nat)
| Lose (from : SessionRole) (i : nat).

(** What is seen: whether a message was sealed, and the counter it met; what an
    arriving message with its header opened to, and the plaintext it was sealed
    from. *)
Inductive Outcome :=
| Said (from : SessionRole) (k : MessageKind) (c : ChannelId) (p : bytes) (counter : Z) (sealed : bool)
| Heard (from : SessionRole) (h : MessageHeader) (p : bytes) (r : result SecureSessionError bytes).

Lemma delete_slot_gone (fl : list InFlight) i m m' :
  NoDup (message_slot <$> fl.*2) → fl !! i = Some m → m' ∈ delete i fl → message_slot m'.2 ≠ message_slot m.2.
Proof.
  intros Hn Hi Hin He. rewrite (delete_Permutation fl i m Hi) in Hn. cbn in Hn.
  apply NoDup_cons in Hn as [Hn _]. apply Hn. rewrite <-He.
  by apply list_elem_of_fmap_2, list_elem_of_fmap_2.
Qed.

Section peers.
Context `{P : Primitives}.

Definition turn (l : Line) (t : Turn) : list Outcome * Line :=
  match t with
  | Say r k c fl p =>
      let '(m, s) := seal (l.(ends) r) k c fl p in
      ([Said r k c p (send_sequence (l.(ends) r) c) (is_ok m)],
       {| ends := at_role r s l.(ends);
          flight := match m with
                    | Ok m => at_role r (l.(flight) r ++ [(p, m)]) l.(flight)
                    | Err _ => l.(flight)
                    end |})
  | Arrive r i =>
      match l.(flight) r !! i with
      | Some (p, (h, ct)) =>
          let '(o, s) := open (l.(ends) (peer_role r)) h ct in
          ([Heard r h p o],
           {| ends := at_role (peer_role r) s l.(ends);
              flight := at_role r (delete i (l.(flight) r)) l.(flight) |})
      | None => ([], l)
      end
  | Lose r i => ([], {| ends := l.(ends); flight := at_role r (delete i (l.(flight) r)) l.(flight) |})
  end.

Fixpoint converse (l : Line) (ts : list Turn) : list Outcome :=
  match ts with
  | [] => []
  | t :: ts => let '(o, l) := turn l t in o ++ converse l ts
  end.

(** A line on which nothing has been sent. *)
Definition quiet_line (a b : SecureSession) : Line :=
  {| ends := λ r, match r with Controller => a | Controlled => b end; flight := λ _, [] |}.

(** An end refuses to seal only kinds that are not granted, kinds on a foreign
    channel, payloads that are too long and an exhausted counter; what arrives opens
    to what was sealed, unless a message of its channel at least 64 numbers on was
    opened before it. *)
Definition carried_at (granted : SessionPermissions) (os : list Outcome) (i : nat) (o : Outcome) : Prop :=
  match o with
  | Said _ k c p n ok =>
      ok = allowed granted k && (n <=? MAX_SECURE_SEQUENCE) && accepts_channel k c && (len p + 16 <? 2 ^ 32)
  | Heard r h p got =>
      got = Ok p
      ∨ got = Err (Crypto MessageTooOld)
        ∧ ∃ j h' p', (j < i)%nat ∧ os !! j = Some (Heard r h' p' (Ok p'))
            ∧ h'.(channel_id) = h.(channel_id) ∧ h.(sequence) + 64 ≤ h'.(sequence)
  end.

Definition carried (granted : SessionPermissions) (os : list Outcome) : Prop :=
  ∀ i o, os !! i = Some o → carried_at granted os i o.

(** What [a] sealed as [h] and [ct]. *)
Record sealed_as (a : SecureSession) (p : bytes) (h : MessageHeader) (ct : bytes) : Prop := {
  as_session : h.(session_id) = a.(ss_session_id);
  as_allowed : allowed a.(ss_permissions) h.(kind) = true;
  as_numbered : h.(sequence) < send_sequence a h.(channel_id);
  as_bounded : h.(sequence) ≤ MAX_SECURE_SEQUENCE;
  as_encrypted : ∃ h0, encrypt_payload (traffic_key a.(ss_keys) (send_direction a))
    (nonce_prefix a.(ss_keys) (send_direction a)) a.(ss_permissions_digest) (send_direction a) h0 p = Ok (h, ct) }.

(** [b] shares the session with [a], has accepted the numbers [hist] of it and can
    still accept what is on its way. *)
Record in_sync (a b : SecureSession) (fl : list InFlight) (hist : ChannelId → list Z) : Prop := {
  sync_id : b.(ss_session_id) = a.(ss_session_id);
  sync_keys : b.(ss_keys) = a.(ss_keys);
  sync_digest : b.(ss_permissions_digest) = a.(ss_permissions_digest);
  sync_permissions : b.(ss_permissions) = a.(ss_permissions);
  sync_role : b.(ss_local_role) = peer_role a.(ss_local_role);
  sync_ready : ensure_ready a = Ok tt ∧ ensure_ready b = Ok tt;
  sync_sequences : sequences_wf a;
  sync_guard : guard_rel b.(ss_receive_replay_guard) hist;
  sync_below c q : q ∈ hist c → q < send_sequence a c;
  sync_flight p h ct : (p, (h, ct)) ∈ fl → sealed_as a p h ct ∧ h.(sequence) ∉ hist h.(channel_id);
  sync_distinct : NoDup (message_slot <$> fl.*2) }.

Lemma receive_direction r : reverse_direction (from_sender_role (peer_role r)) = from_sender_role r.
Proof. by destruct r. Qed.

(** Traffic the other way leaves this way in sync. *)
Lemma in_sync_sender_opens a b fl hist g : in_sync a b fl hist → in_sync (set_guard a g) b fl hist.
Proof.
  intros []. split; try done. intros p h ct Hin. destruct (sync_flight0 p h ct Hin) as [[] ?]. by split.
Qed.

Lemma in_sync_receiver_seals a b fl hist c q : in_sync a b fl hist → in_sync a (set_send_sequence b c q) fl hist.
Proof. intros []. by split. Qed.

(** When a ready end seals. *)
Lemma seal_accepts {L : PrimitiveLaws P} a k c fl p :
  ensure_ready a = Ok tt → sequences_wf a →
  is_ok (seal a k c fl p).1
  = allowed a.(ss_permissions) k && (send_sequence a c <=? MAX_SECURE_SEQUENCE) && accepts_channel k c
    && (len p + 16 <? 2 ^ 32).
Proof.
  intros Hr Hwf. destruct (_ && _) eqn:E.
  - split_bools. unfold seal, authorize. rewrite Hr. cbn.
    match goal with H : allowed _ _ = true |- _ => rewrite H end. cbn.
    rewrite (proj2 (Z.ltb_ge _ _)) by lia. cbn.
    unfold header_new_on_channel, validate_kind_channel. cbn.
    match goal with H : accepts_channel _ _ = true |- _ => rewrite H end. cbn.
    match goal with |- context [encrypt_payload ?key ?pre ?dg ?d ?h p] =>
      destruct (encrypt_payload_defined key pre dg d h p) as [ct ->] end; [|done|done|done].
    cbn. split; [by apply send_sequence_nonneg|lia].
  - destruct (seal a k c fl p) as [[[h ct]|e] a'] eqn:Es; [|done]. exfalso.
    apply seal_ok in Es as (_ & Hal & Hq & _ & _ & He). apply encrypt_payload_ok in He as (Hc & Hl & _).
    cbn in Hc. rewrite Hal, Hc, (proj2 (Z.leb_le _ _) Hq), (proj2 (Z.ltb_lt _ _) Hl) in E. done.
Qed.

Lemma in_sync_says a b fl hist k c f p h ct a' :
  in_sync a b fl hist → seal a k c f p = (Ok (h, ct), a') → in_sync a' b (fl ++ [(p, (h, ct))]) hist.
Proof.
  intros [Hid Hk Hd Hp Hr Hrd Hwf Hg Hh Hf Hn] Hs.
  apply seal_ok in Hs as (_ & Hal & Hq & -> & Eh & He).
  pose proof (send_sequence_nonneg a c Hwf).
  assert (Hup : ∀ c', send_sequence a c' ≤ send_sequence (set_send_sequence a c (send_sequence a c + 1)) c').
  { intros c'. rewrite set_send_sequence_lookup by apply Hwf. case_decide; [subst|]; lia. }
  split; try done.
  - apply set_send_sequence_wf; [done|lia].
  - intros c' q Hin. specialize (Hh _ _ Hin). specialize (Hup c'). lia.
  - intros p' h' ct' [Hin|Hin]%elem_of_app.
    + destruct (Hf _ _ _ Hin) as [[] ?]. split; [|done]. split; try done.
      eapply Z.lt_le_trans; [done|apply Hup].
    + apply list_elem_of_singleton in Hin. simplify_eq. split.
      * split; try done; [|by eexists]. cbn.
        rewrite set_send_sequence_lookup, decide_True by (done || apply Hwf). cbn. lia.
      * cbn. intros Hin. specialize (Hh _ _ Hin). cbn in Hh. lia.
  - rewrite fmap_app, fmap_app. apply NoDup_app. split; [done|]. split; [|apply NoDup_singleton].
    intros slot Hin [->|Hc]%elem_of_cons; [|by apply elem_of_nil in Hc].
    apply list_elem_of_fmap in Hin as (m & Hm & ([p' [h' ct']] & -> & Hin)%list_elem_of_fmap).
    destruct (Hf _ _ _ Hin) as [[_ _ Hnum _ _] _]. subst h. unfold message_slot in Hm. cbn in Hm.
    injection Hm as Hc Hs. rewrite <-Hc, <-Hs in Hnum. lia.
Qed.

Lemma in_sync_loses a b fl hist i : in_sync a b fl hist → in_sync a b (delete i fl) hist.
Proof.
  intros []. split; try done.
  - intros p h ct Hin. apply sync_flight0. eapply elem_of_submseteq; [exact Hin|].
    apply sublist_submseteq, sublist_delete.
  - eapply sublist_NoDup; [done|]. apply fmap_sublist, fmap_sublist, sublist_delete.
Qed.

(** The guard on a number it has not accepted. *)
Lemma guard_check_fresh g hist c q :
  guard_rel g hist → q ∉ hist c → q ≤ MAX_SECURE_SEQUENCE →
  guard_check g c q = Ok tt
  ∨ guard_check g c q = Err MessageTooOld ∧ ∃ hi, hi ∈ hist c ∧ q + 64 ≤ hi.
Proof.
  intros Hr Hq Hm. rewrite (guard_check_refines _ _ _ _ Hr). unfold spec_guard_check, spec_check.
  destruct (Z.ltb_spec MAX_SECURE_SEQUENCE q); [lia|].
  destruct (newest (hist c)) as [hi|] eqn:En; [|by left].
  destruct (Z.ltb_spec hi q) as [?|?]; [by left|].
  destruct (Z.leb_spec 64 (hi - q)); [right|left; by rewrite bool_decide_eq_false_2].
  split; [done|]. exists hi. split; [by apply newest_in|lia].
Qed.

(** What arrives opens, or the window has passed it; either way the ends stay in
    sync. *)
Lemma in_sync_hears {L : PrimitiveLaws P} a b fl hist i p h ct :
  in_sync a b fl hist → fl !! i = Some (p, (h, ct)) →
  ∃ o g, open b h ct = (o, set_guard b g) ∧
    ((o = Ok p ∧ in_sync a (set_guard b g) (delete i fl) (push_history hist h.(channel_id) h.(sequence)))
     ∨ (o = Err (Crypto MessageTooOld) ∧ in_sync a (set_guard b g) (delete i fl) hist
        ∧ ∃ hi, hi ∈ hist h.(channel_id) ∧ h.(sequence) + 64 ≤ hi)).
Proof.
  intros Hsync Hi. pose proof (in_sync_loses _ _ _ _ i Hsync) as Hrest.
  destruct Hsync as [Hid Hk Hd Hp Hr [_ Hrd] Hwf Hg Hh Hf Hn].
  destruct (Hf p h ct) as [[Hsid Hal Hnum Hmax [h0 He]] Hnew]; [by eapply list_elem_of_lookup_2|].
  pose proof (encrypt_payload_ok _ _ _ _ _ _ _ _ He) as (Hacc & _ & Eh & _).
  assert (Ech : h0.(channel_id) = h.(channel_id) ∧ h0.(sequence) = h.(sequence)) by (by rewrite Eh).
  destruct Ech as [Ec Eq].
  unfold open. rewrite Hrd. cbn. rewrite Hsid, Hid, bool_decide_eq_true_2 by done. cbn.
  rewrite Hk, Hd, Hr, receive_direction.
  destruct (guard_check_fresh _ _ _ _ Hg Hnew Hmax) as [Hc|[Hc Hold]].
  - pose proof (decrypt_encrypt_payload _ _ _ _ _ _ _ _ _ He (eq_trans (f_equal2 _ Ec Eq) Hc)) as Hdec.
    unfold send_direction in Hdec. rewrite Hdec. unfold authorize. cbn. rewrite Hp, Hal. cbn.
    eexists _, _. split; [reflexivity|]. left. split; [done|]. rewrite Ec, Eq.
    destruct Hrest as [? ? ? ? ? ? ? ? ? Hf' ?]. split; try done.
    + by apply guard_record_refines.
    + intros c q Hin. unfold push_history in Hin. case_decide; [subst|by apply Hh].
      apply elem_of_cons in Hin as [->|Hin]; [done|by apply Hh].
    + intros p' h' ct' Hin. destruct (Hf' p' h' ct' Hin) as [Has Hnew']. split; [done|].
      unfold push_history. case_decide as Hch; [|done].
      intros [Hsq|?]%elem_of_cons; [|done]. eapply delete_slot_gone; [exact Hn|exact Hi|exact Hin|].
      unfold message_slot. cbn. by rewrite Hch, Hsq.
  - unfold decrypt_payload, validate_kind_channel.
    assert (Ek : h.(kind) = h0.(kind)) by (by rewrite Eh). rewrite <-Ec, Ek, Hacc. cbn.
    destruct (_ =? _) eqn:El.
    + rewrite Ec, Hc. cbn. eexists _, _. split; [reflexivity|]. right. split; [done|].
      split; [|by rewrite <-?Ec in *]. by destruct Hrest; split.
    + exfalso. apply Z.eqb_neq in El. apply El.
      pose proof (encrypt_payload_ok _ _ _ _ _ _ _ _ He) as (_ & _ & _ & n & _ & Hct).
      apply chacha_length in Hct. by rewrite Eh, Hct.
Qed.

(** Both ways are in sync. *)
Definition line_ok (granted : SessionPermissions) (l : Line) (hist : SessionRole → ChannelId → list Z) : Prop :=
  ∀ r, (l.(ends) r).(ss_permissions) = granted
    ∧ in_sync (l.(ends) r) (l.(ends) (peer_role r)) (l.(flight) r) (hist r).

(** [carried_at], for ends that have already accepted [hist]. *)
Definition carried_since granted (hist : SessionRole → ChannelId → list Z) os i o : Prop :=
  carried_at granted os i o
  ∨ match o with
    | Heard r h _ got => got = Err (Crypto MessageTooOld)
                         ∧ ∃ q, q ∈ hist r h.(channel_id) ∧ h.(sequence) + 64 ≤ q
    | Said _ _ _ _ _ _ => False
    end.

Lemma at_role_eq {A} r (x : A) f : at_role r x f r = x.
Proof. unfold at_role. by rewrite decide_True. Qed.

Lemma at_role_peer {A} r (x : A) f : at_role r x f (peer_role r) = f (peer_role r).
Proof. unfold at_role. by destruct r. Qed.

Lemma at_peer_role {A} r (x : A) f : at_role (peer_role r) x f r = f r.
Proof. unfold at_role. by destruct r. Qed.

Lemma peer_peer r : peer_role (peer_role r) = r.
Proof. by destruct r. Qed.

Lemma line_ok_intro granted l hist r :
  (l.(ends) r).(ss_permissions) = granted
  ∧ in_sync (l.(ends) r) (l.(ends) (peer_role r)) (l.(flight) r) (hist r) →
  (l.(ends) (peer_role r)).(ss_permissions) = granted
  ∧ in_sync (l.(ends) (peer_role r)) (l.(ends) r) (l.(flight) (peer_role r)) (hist (peer_role r)) →
  line_ok granted l hist.
Proof. intros H1 H2 r'. by destruct r, r'. Qed.

Lemma line_says granted l hist r k c fl p :
  line_ok granted l hist → line_ok granted (turn l (Say r k c fl p)).2 hist.
Proof.
  intros Hl. destruct (Hl r) as [Hp Hs], (Hl (peer_role r)) as [Hp' Hs']. rewrite peer_peer in Hs'.
  cbn. destruct (seal (ends l r) k c fl p) as [[[h ct]|e] a'] eqn:E.
  - pose proof (in_sync_says _ _ _ _ _ _ _ _ _ _ _ Hs E) as Hn.
    apply seal_ok in E as (_ & _ & _ & -> & _). apply (line_ok_intro _ _ _ r); cbn.
    + rewrite !at_role_eq, at_role_peer. by split.
    + rewrite !at_role_peer, at_role_eq. split; [done|]. by apply in_sync_receiver_seals.
  - apply seal_err in E as ->. cbn. apply (line_ok_intro _ _ _ r); cbn.
    + rewrite at_role_eq, at_role_peer. exact (conj Hp Hs).
    + rewrite at_role_peer, at_role_eq. exact (conj Hp' Hs').
Qed.

Lemma line_hears {L : PrimitiveLaws P} granted l hist r i p h ct :
  line_ok granted l hist → l.(flight) r !! i = Some (p, (h, ct)) →
  ∃ o l', turn l (Arrive r i) = ([Heard r h p o], l') ∧
    ((o = Ok p ∧ line_ok granted l' (at_role r (push_history (hist r) h.(channel_id) h.(sequence)) hist))
     ∨ (o = Err (Crypto MessageTooOld) ∧ line_ok granted l' hist
        ∧ ∃ q, q ∈ hist r h.(channel_id) ∧ h.(sequence) + 64 ≤ q)).
Proof.
  intros Hl Hi. destruct (Hl r) as [Hp Hs], (Hl (peer_role r)) as [Hp' Hs']. rewrite peer_peer in Hs'.
  destruct (in_sync_hears _ _ _ _ _ _ _ _ Hs Hi) as (o & g & Ho & Hcase).
  cbn. rewrite Hi, Ho. eexists _, _. split; [reflexivity|].
  pose proof (in_sync_sender_opens _ _ _ _ g Hs') as Hback.
  destruct Hcase as [[-> Hn]|(-> & Hn & Hq)]; [left|right]; (split; [done|]); try (split; [|done]).
  all: apply (line_ok_intro _ _ _ r); cbn.
  1,3: rewrite at_peer_role, at_role_eq, ?at_role_eq; by split.
  all: rewrite at_role_eq, at_peer_role, ?at_role_peer; by split.
Qed.

Lemma line_loses granted l hist r i : line_ok granted l hist → line_ok granted (turn l (Lose r i)).2 hist.
Proof.
  intros Hl. destruct (Hl r) as [Hp Hs], (Hl (peer_role r)) as [Hp' Hs']. cbn. apply (line_ok_intro _ _ _ r); cbn.
  - rewrite at_role_eq. split; [done|]. by apply in_sync_loses.
  - rewrite at_role_peer. rewrite peer_peer in Hs'. by split.
Qed.

(** One outcome more in front. *)
Lemma carried_cons granted hist hist' o0 os :
  carried_since granted hist (o0 :: os) 0 o0 →
  (∀ r h q, q ∈ hist' r h.(channel_id) →
    q ∈ hist r h.(channel_id)
    ∨ ∃ h' p', o0 = Heard r h' p' (Ok p') ∧ h'.(channel_id) = h.(channel_id) ∧ h'.(sequence) = q) →
  (∀ i o, os !! i = Some o → carried_since granted hist' os i o) →
  ∀ i o, (o0 :: os) !! i = Some o → carried_since granted hist (o0 :: os) i o.
Proof.
  intros H0 Hh IH [|i] o Ho; [by injection Ho as <-|]. cbn in Ho. specialize (IH i o Ho).
  unfold carried_since in *. destruct o as [? k c p n ok|r h p got]; [by destruct IH; left|].
  destruct IH as [[Hok|(Herr & j & h' & p' & Hj & Hos & Hc)]|(Herr & q & Hq & Hle)].
  - left. by left.
  - left. right. split; [done|]. exists (S j), h', p'. split; [lia|done].
  - destruct (Hh _ _ _ Hq) as [?|(h' & p' & -> & Hc & <-)]; [right; eauto|].
    left. right. split; [done|]. exists 0%nat, h', p'. split; [lia|done].
Qed.

Lemma converse_since {L : PrimitiveLaws P} granted ts l hist :
  line_ok granted l hist → ∀ i o, converse l ts !! i = Some o → carried_since granted hist (converse l ts) i o.
Proof.
  revert l hist. induction ts as [|t ts IH]; intros l hist Hl; [done|]. cbn [converse].
  destruct t as [r k c fl p|r i|r i].
  - pose proof (line_says _ _ _ r k c fl p Hl) as Hl'. destruct (Hl r) as [Hp Hs].
    pose proof (seal_accepts (ends l r) k c fl p (proj1 (sync_ready _ _ _ _ Hs)) (sync_sequences _ _ _ _ Hs)) as Hok.
    cbn in Hl' |- *. destruct (seal (ends l r) k c fl p) as [m a']. cbn in Hl', Hok |- *.
    apply (carried_cons _ hist hist); [left; cbn; by rewrite Hok, Hp|by left|]. by apply IH.
  - destruct (flight l r !! i) as [[p [h ct]]|] eqn:Hi; [|unfold turn; rewrite Hi; by apply IH].
    destruct (line_hears _ _ _ _ _ _ _ _ Hl Hi) as (o & l' & -> & [[-> Hl']|(-> & Hl' & Hold)]); cbn [app].
    + eapply (carried_cons _ hist); [left; by left| |by apply IH].
      intros r' h' q Hq. unfold at_role, push_history in Hq. case_decide as Hr; [subst|by left].
      case_decide as Hc; [|by left]. apply elem_of_cons in Hq as [->|Hq]; [right|by left].
      exists h, p. by rewrite Hc.
    + apply (carried_cons _ hist hist); [by right|by left|]. by apply IH.
  - cbn. apply IH. by apply (line_loses _ _ _ r i) in Hl.
Qed.

Lemma quiet_line_carries {L : PrimitiveLaws P} granted a b :
  line_ok granted (quiet_line a b) (λ _ _, []) → ∀ ts, carried granted (converse (quiet_line a b) ts).
Proof.
  intros Hl ts i o Ho. destruct (converse_since _ ts _ _ Hl i o Ho) as [?|Hc]; [done|].
  destruct o; [done|]. destruct Hc as (_ & q & Hq & _). by apply elem_of_nil in Hq.
Qed.
End peers.

(** ** Establishing a session *)

Section establish.
Context `{P : Primitives}.

Lemma create_local_ok s dev ts c s' :
  create_local_key_confirm s dev ts = (Ok c, s') →
  s.(ss_invalidated) = false ∧ s.(ss_local_confirm_sent) = false ∧
  create_key_confirm s.(ss_session_id) dev s.(ss_local_role) s.(ss_transcript_hash) ts
    s.(ss_keys) = Ok c ∧
  s' = set_flags s s.(ss_key_confirm_replay_guard) true s.(ss_peer_confirmed) false.
Proof.
  unfold create_local_key_confirm, ensure_not_invalidated. intros H.
  destruct (ss_invalidated s); [done|]. break_match; simplify_eq. by invert_ok.
Qed.

(** A confirmation of the peer, in time, is accepted by a session that has not
    accepted one. *)
Lemma verify_peer_accepts s c dev ts now :
  s.(ss_invalidated) = false → s.(ss_peer_confirmed) = false →
  s.(ss_key_confirm_replay_guard) = confirm_guard_default →
  create_key_confirm s.(ss_session_id) dev (peer_role s.(ss_local_role))
    s.(ss_transcript_hash) ts s.(ss_keys) = Ok c →
  abs_diff now ts ≤ KEY_CONFIRM_WINDOW_MILLIS →
  ∃ g, verify_peer_key_confirm s c dev now =
       (Ok tt, set_flags s g s.(ss_local_confirm_sent) true false).
Proof.
  intros Hi Hp Hg Hc Hw.
  destruct (create_key_confirm_valid _ _ _ _ _ _ _ _ Hc Hw) as (Hv & Hsid & _).
  destruct (confirm_valid_fingerprint _ _ _ _ _ _ Hv) as [f Hf].
  pose proof Hv as (_ & Hrole & _).
  unfold verify_peer_key_confirm, ensure_not_invalidated. rewrite Hi, Hp, Hsid, Hrole, Hg.
  rewrite bool_decide_eq_true_2 by done. cbn [negb orb].
  rewrite bool_decide_eq_false_2 by (by destruct (ss_local_role s)).
  rewrite (proj2 (confirm_verify_ok _ _ _ _ _ _ _ {| accepted := {[f]} ∪ ∅ |})).
  - eauto.
  - split; [done|]. exists f. split; [done|]. split; [set_solver|done].
Qed.
End establish.

(** ** Theorems *)

(** Two sessions of the same parameters and opposite roles confirm each other's
    keys and then understand each other. *)
Lemma sessions_establish `{P : Primitives} {L : PrimitiveLaws P}
    sid p dg path pair relay th keys a0 b0 deva devb tsa tsb ca cb a1 b1 now :
  secure_session_new sid Controller p dg path pair relay th keys = Ok a0 →
  secure_session_new sid Controlled p dg path pair relay th keys = Ok b0 →
  create_local_key_confirm a0 deva tsa = (Ok ca, a1) →
  create_local_key_confirm b0 devb tsb = (Ok cb, b1) →
  abs_diff now tsa ≤ KEY_CONFIRM_WINDOW_MILLIS → abs_diff now tsb ≤ KEY_CONFIRM_WINDOW_MILLIS →
  ∃ a2 b2,
    verify_peer_key_confirm a1 cb devb now = (Ok tt, a2) ∧
    verify_peer_key_confirm b1 ca deva now = (Ok tt, b2) ∧
    session_state a2 = Ready ∧ session_state b2 = Ready ∧
    ∀ ts, carried p (converse (quiet_line a2 b2) ts).
Proof.
  unfold secure_session_new. intros Ha Hb Hca Hcb Hwa Hwb. invert_ok.
  apply create_local_ok in Hca as (_ & _ & Hca & ->), Hcb as (_ & _ & Hcb & ->). cbn in Hca, Hcb.
  lazymatch goal with
  | |- ∃ _ _, verify_peer_key_confirm ?a _ _ _ = _ ∧ verify_peer_key_confirm ?b _ _ _ = _ ∧ _ =>
      destruct (verify_peer_accepts a cb devb tsb now) as [ga Hva]; [done..|];
      destruct (verify_peer_accepts b ca deva tsa now) as [gb Hvb]; [done..|]
  end.
  eexists _, _. split; [exact Hva|]. split; [exact Hvb|]. do 2 (split; [done|]).
  apply quiet_line_carries. intros r. split; [by destruct r|].
  destruct r; (split; try done); try (split; [done|by repeat constructor]); try apply guard_rel_default;
    try (intros * Hin; by apply elem_of_nil in Hin); try constructor.
Qed.

(** C2: End to end: two sessions created with the same parameters and opposite
    roles, whose key confirmations are exchanged within 30 seconds, both become
    ready. From then on the two talk to each other, in both directions at once:
    whatever the order in which messages are sealed at either end, and in which
    those on their way arrive or are lost, an end seals every message of a kind
    that is granted, on a channel of the kind, that is not too long, until the
    counter of the channel is exhausted; and every message that arrives opens to
    exactly its plaintext, except that it is refused as too old when a message
    of its channel at least 64 numbers further on was opened before it. *)
Theorem session_end_to_end `{P : Primitives} {L : PrimitiveLaws P}
    sid p dg path pair relay th keys a0 b0 deva devb tsa tsb ca cb a1 b1 now :
  secure_session_new sid Controller p dg path pair relay th keys = Ok a0 →
  secure_session_new sid Controlled p dg path pair relay th keys = Ok b0 →
  create_local_key_confirm a0 deva tsa = (Ok ca, a1) →
  create_local_key_confirm b0 devb tsb = (Ok cb, b1) →
  abs_diff now tsa ≤ KEY_CONFIRM_WINDOW_MILLIS → abs_diff now tsb ≤ KEY_CONFIRM_WINDOW_MILLIS →
  ∃ a2 b2,
    verify_peer_key_confirm a1 cb devb now = (Ok tt, a2) ∧
    verify_peer_key_confirm b1 ca deva now = (Ok tt, b2) ∧
    session_state a2 = Ready ∧ session_state b2 = Ready ∧
    ∀ ts, carried p (converse (quiet_line a2 b2) ts).
Proof. apply sessions_establish. Qed.

(** A relayed session in which everything but unattended access is granted. *)
Definition example_permissions : SessionPermissions := {|
  remote_desktop := true; input_control := true; clipboard := true; file_transfer := true;
  unattended := false; privacy_screen := true; block_local_input := true;
  require_prompt := true; allow_relay := true |}.

Definition example_session (role : SessionRole) : SecureSession := {|
  ss_session_id := 1; ss_local_role := role; ss_permissions := example_permissions;
  ss_permissions_digest := repeat x03 32; ss_path := QuicRelay; ss_candidate_pair_id := 9;
  ss_relay_node_id := Some (str "relay-a"); ss_transcript_hash := repeat x08 32;
  ss_keys := example_keys; ss_send_sequences := repeat 0 9;
  ss_receive_replay_guard := guard_default;
  ss_key_confirm_replay_guard := confirm_guard_default;
  ss_local_confirm_sent := false; ss_peer_confirmed := false; ss_invalidated := false |}.

Definition example_confirm (role : SessionRole) : KeyConfirm :=
  match @create_local_key_confirm toy (example_session role) (role_as_str role) 1000 with
  | (Ok c, _) => c
  | (Err _, _) => {| kc_session_id := 0; kc_device_id := []; kc_role := role;
                     kc_transcript_hash := []; kc_mac := []; kc_timestamp := 0 |}
  end.

(** Messages that cross, overtake one another and get lost. *)
Definition example_talk : list Turn :=
  [Say Controller ClipboardText Clipboard 0 (str "one"); Say Controlled ClipboardText Clipboard 0 (str "two");
   Say Controller ClipboardText Clipboard 0 (str "three"); Arrive Controller 1; Arrive Controlled 0;
   Say Controlled ClipboardText Clipboard 0 (str "four"); Arrive Controller 0; Lose Controlled 0;
   Say Controlled ClipboardText Clipboard 0 (str "five"); Arrive Controlled 0].

Lemma session_end_to_end_witness :
  ∃ a2 b2,
    @verify_peer_key_confirm toy
      (@create_local_key_confirm toy (example_session Controller) (role_as_str Controller) 1000).2
      (example_confirm Controlled) (role_as_str Controlled) 2000 = (Ok tt, a2) ∧
    @verify_peer_key_confirm toy
      (@create_local_key_confirm toy (example_session Controlled) (role_as_str Controlled) 1000).2
      (example_confirm Controller) (role_as_str Controller) 2000 = (Ok tt, b2) ∧
    session_state a2 = Ready ∧ session_state b2 = Ready ∧
    carried example_permissions (@converse toy (quiet_line a2 b2) example_talk).
Proof.
  destruct (@session_end_to_end toy toy_laws 1 example_permissions (repeat x03 32) QuicRelay 9
    (Some (str "relay-a")) (repeat x08 32) example_keys
    (example_session Controller) (example_session Controlled)
    (role_as_str Controller) (role_as_str Controlled) 1000 1000
    (example_confirm Controller) (example_confirm Controlled)
    (@create_local_key_confirm toy (example_session Controller) (role_as_str Controller) 1000).2
    (@create_local_key_confirm toy (example_session Controlled) (role_as_str Controlled) 1000).2
    2000) as (a2 & b2 & H1 & H2 & H3 & H4 & H5);
    [reflexivity|reflexivity|vm_compute; reflexivity|vm_compute; reflexivity
    |vm_compute; congruence|vm_compute; congruence|].
  exists a2, b2. exact (conj H1 (conj H2 (conj H3 (conj H4 (H5 example_talk))))).
Defined.

(** C1: No nonce is used twice under the session's sending key: over any
    sequence of calls on a new session, in any order and with any arguments,
    including restored counters, the nonces of the sealed messages are pairwise
    different. *)
Theorem nonces_never_reused `{P : Primitives} sid role p dg path pair relay th keys s ops :
  secure_session_new sid role p dg path pair relay th keys = Ok s →
  NoDup ((λ m : MessageHeader * bytes,
            build_nonce (nonce_prefix keys (from_sender_role role))
              m.1.(channel_id) m.1.(sequence)) <$> sealed (run s ops).1).
Proof.
  intros Hn. apply secure_session_new_ok in Hn as (Hwf & _).
  destruct (run_slots s ops Hwf) as [Hd Hs].
  rewrite (list_fmap_compose message_slot
    (λ slot, build_nonce (nonce_prefix keys (from_sender_role role)) slot.1 slot.2)).
  apply NoDup_fmap_2_strong; [|done].
  intros [c q] [c' q'] Hin Hin' He. cbn in He.
  apply Hs in Hin, Hin'. pose proof (send_sequence_nonneg s c Hwf).
  pose proof (send_sequence_nonneg s c' Hwf).
  eassert (_ ∧ c = c' ∧ q = q') as (_ & -> & ->); [|done].
  eapply build_nonce_injective; [reflexivity| | |apply build_nonce_defined; lia|];
    [lia..|]. rewrite <-He. apply build_nonce_defined. lia.
Qed.

Lemma nonces_never_reused_witness :
  NoDup ((λ m : MessageHeader * bytes,
            build_nonce (nonce_prefix example_keys (from_sender_role Controller))
              m.1.(channel_id) m.1.(sequence)) <$>
    sealed (@run toy (example_session Controller)
      [OpCreate (role_as_str Controller) 1000;
       OpVerify (example_confirm Controlled) (role_as_str Controlled) 2000;
       OpSeal ClipboardText Clipboard 0 (str "a"); OpSeal Stats Telemetry 0 (str "b");
       OpRestore Clipboard 7; OpSeal ClipboardText Clipboard 0 (str "c")]).1).
Proof.
  apply (@nonces_never_reused toy 1 Controller example_permissions (repeat x03 32) QuicRelay 9
    (Some (str "relay-a")) (repeat x08 32)). reflexivity.
Defined.

Section history.
Context `{P : Primitives}.

(** A message was sealed or opened. *)
Definition data_out (o : Out) : bool :=
  match o with OutSeal (Ok _) | OutOpen (Ok _) => true | _ => false end.

(** The kind of message a call works on. *)
Definition op_kind (op : Op) : option MessageKind :=
  match op with OpSeal k _ _ _ => Some k | OpOpen h _ => Some h.(kind) | _ => None end.

Definition failed_out (o : Out) : bool :=
  match o with OutVerify (Err _) | OutBinding (Err _) | OutReboot => true | _ => false end.

Definition confirm_out (o : Out) : bool :=
  match o with OutConfirm (Ok _) => true | _ => false end.
Definition verify_out (o : Out) : bool :=
  match o with OutVerify (Ok _) => true | _ => false end.

Lemma open_ok s h ct m s' :
  open s h ct = (Ok m, s') →
  ensure_ready s = Ok tt ∧ allowed s.(ss_permissions) h.(kind) = true.
Proof.
  unfold open. intros H.
  destruct (ensure_ready s) as [[]|] eqn:E; cbn in H; [|done].
  destruct (ensure _ _); [|done]. destruct (decrypt_payload _ _ _ _ _ _ _) as [[pt|e] g]; [|done].
  unfold authorize in H. cbn in H. by destruct (allowed _ _).
Qed.

Lemma step_data s op :
  data_out (step s op).1 = true →
  ensure_ready s = Ok tt ∧ ∃ k, op_kind op = Some k ∧ allowed s.(ss_permissions) k = true.
Proof.
  destruct op as [| |k c f p|h ct| | |]; cbn; try by (intros H; repeat break_match).
  - destruct (seal s k c f p) as [[[h ct]|e] s'] eqn:E; cbn; [|done].
    apply seal_ok in E as (? & ? & _). eauto.
  - destruct (open s h ct) as [[m|e] s'] eqn:E; cbn; [|done].
    apply open_ok in E as [? ?]. eauto.
Qed.

(** How the three flags of the state machine come about. *)
Lemma step_flags s op :
  ((step s op).2.(ss_local_confirm_sent) = s.(ss_local_confirm_sent)
     || confirm_out (step s op).1) ∧
  ((step s op).2.(ss_peer_confirmed) = s.(ss_peer_confirmed) || verify_out (step s op).1) ∧
  ((step s op).2.(ss_invalidated) = s.(ss_invalidated) || failed_out (step s op).1).
Proof.
  destruct op as [d t|c d n|k c f p|h ct|d p c r| |c n]; cbn;
    unfold create_local_key_confirm, verify_peer_key_confirm, seal, open,
      invalidate_if_binding_changed, restore_send_sequence, ensure_not_invalidated;
    repeat break_match; cbn; rewrite ?orb_false_r, ?orb_true_r; try done.
Qed.

Lemma run_flags s ops :
  ((run s ops).2.(ss_local_confirm_sent) = s.(ss_local_confirm_sent)
     || existsb confirm_out (run s ops).1) ∧
  ((run s ops).2.(ss_peer_confirmed) = s.(ss_peer_confirmed)
     || existsb verify_out (run s ops).1) ∧
  ((run s ops).2.(ss_invalidated) = s.(ss_invalidated) || existsb failed_out (run s ops).1).
Proof.
  revert s. induction ops as [|op ops IH]; intros s; [by rewrite !orb_false_r|].
  rewrite run_cons. cbn [fst snd existsb].
  destruct (IH (step s op).2) as (-> & -> & ->), (step_flags s op) as (-> & -> & ->).
  by rewrite !orb_assoc.
Qed.

Lemma run_lookup s ops i op :
  ops !! i = Some op →
  (run s ops).1 !! i = Some (step (run s (take i ops)).2 op).1 ∧
  take i (run s ops).1 = (run s (take i ops)).1.
Proof.
  revert s i. induction ops as [|op' ops IH]; intros s i Hi; [done|].
  rewrite run_cons. destruct i as [|i]; cbn in Hi; [by simplify_eq|].
  cbn [take firstn lookup list_lookup fst snd]. rewrite run_cons. cbn [fst snd].
  destruct (IH (step s op').2 i Hi) as [H1 H2]. split; [exact H1|]. f_equal. exact H2.
Qed.

(** What an invalidated session answers. *)
Definition is_invalidated {T} (r : result SecureSessionError T) : bool :=
  match r with Err Invalidated => true | _ => false end.

Definition refused (o : Out) : bool :=
  match o with
  | OutConfirm r => is_invalidated r
  | OutVerify r | OutRestore r => is_invalidated r
  | OutSeal r => is_invalidated r
  | OutOpen r => is_invalidated r
  | OutBinding _ | OutReboot => true
  end.

Lemma step_refused s op : s.(ss_invalidated) = true → refused (step s op).1 = true.
Proof.
  intros Hi. destruct op; cbn; try done;
    unfold create_local_key_confirm, verify_peer_key_confirm, seal, open,
      restore_send_sequence, ensure_ready, ensure_not_invalidated; by rewrite Hi.
Qed.
End history.

(** C21: Nothing is sealed or opened before both key confirmations: when a call
    of a new session's history seals or opens a message, an earlier call created
    the local confirmation, an earlier call accepted the peer's, no earlier call
    failed a confirmation, found a changed binding or announced a reboot, and
    the kind of the message is allowed by the session's permissions. *)
Theorem data_only_when_confirmed `{P : Primitives} sid role p dg path pair relay th keys s ops i op o :
  secure_session_new sid role p dg path pair relay th keys = Ok s →
  ops !! i = Some op → (run s ops).1 !! i = Some o → data_out o = true →
  existsb confirm_out (take i (run s ops).1) = true ∧
  existsb verify_out (take i (run s ops).1) = true ∧
  existsb failed_out (take i (run s ops).1) = false ∧
  ∃ k, op_kind op = Some k ∧ allowed p k = true.
Proof.
  intros Hn Hop Ho Hd. destruct (run_lookup s ops i op Hop) as [Hi ->].
  rewrite Hi in Ho. injection Ho as <-.
  apply step_data in Hd as [Hr (k & Hk & Ha)]. apply ensure_ready_ok in Hr as (H1 & H2 & H3).
  destruct (run_flags s (take i ops)) as (E1 & E2 & E3).
  assert ((run s (take i ops)).2.(ss_permissions) = s.(ss_permissions)) as Hf.
  { pose proof (run_frozen s (take i ops)). unfold frozen in *. congruence. }
  unfold secure_session_new in Hn. invert_ok. cbn in E1, E2, E3.
  split; [congruence|]. split; [congruence|]. split; [congruence|]. exists k. split; [done|].
  by rewrite Hf in Ha.
Qed.

Lemma data_only_when_confirmed_witness :
  let ops := [OpCreate (role_as_str Controller) 1000;
              OpVerify (example_confirm Controlled) (role_as_str Controlled) 2000;
              OpSeal ClipboardText Clipboard 0 (str "a")] in
  existsb verify_out (take 2 (@run toy (example_session Controller) ops).1) = true.
Proof.
  intros ops.
  eapply (@data_only_when_confirmed toy 1 Controller example_permissions (repeat x03 32)
    QuicRelay 9 (Some (str "relay-a")) (repeat x08 32) example_keys
    (example_session Controller) ops 2%nat _
    (default OutReboot ((@run toy (example_session Controller) ops).1 !! 2%nat)));
    [reflexivity|reflexivity|vm_compute; reflexivity|vm_compute; reflexivity].
Defined.

(** Invalidation is final. After a rejected key confirmation, a changed
    permission digest, path, candidate pair or relay node, or a reboot, the
    session stays invalidated for every later sequence of calls, and each of
    those calls that would confirm, seal, open or restore a counter is answered
    with [Invalidated]. *)
Theorem invalidation_is_final `{P : Primitives} s op ops :
  failed_out (step s op).1 = true →
  (run (step s op).2 ops).2.(ss_invalidated) = true ∧
  Forall (λ o, refused o = true) (run (step s op).2 ops).1.
Proof.
  intros Hf. destruct (step_flags s op) as (_ & _ & Hi). rewrite Hf, orb_true_r in Hi.
  generalize dependent (step s op).2. clear Hf s op.
  induction ops as [|op ops IH]; intros s Hi; [by split|].
  rewrite run_cons. cbn [fst snd].
  assert ((step s op).2.(ss_invalidated) = true) as Hi'.
  { destruct (step_flags s op) as (_ & _ & ->). by rewrite Hi. }
  destruct (IH _ Hi') as [? ?]. split; [done|]. constructor; [by apply step_refused|done].
Qed.

Lemma invalidation_is_final_witness :
  let s := (@step toy (example_session Controller)
    (OpVerify (example_confirm Controller) (role_as_str Controlled) 2000)).2 in
  s.(ss_invalidated) = true ∧
  Forall (λ o, refused o = true)
    (@run toy s [OpSeal Stats Telemetry 0 []; OpCreate (role_as_str Controller) 1000]).1.
Proof.
  intros s. split; [vm_compute; reflexivity|].
  apply (@invalidation_is_final toy). vm_compute. reflexivity.
Defined.
