(* ===== verification/Handshake.v ===== *)
(** * The session handshake of the runtime

    Models crates/remote-runtime/src/handshake.rs: one side of the signed key
    exchange, from its configuration to a secure session with a key confirmation
    ready to send. The device signature is made outside (by the platform key
    store) and handed in, as in the code; the ephemeral key is an argument. The
    handshake composes the key exchange of [KeySession] with [SecureSession]. *)

From S2P Require Import Prelude Header Canonical Security Primitives E2ee KeySession SecureSession.

Definition KEY_EXCHANGE_WINDOW_MILLIS : Z := 30000.

Record SessionHandshakeConfig := {
  hc_context : SessionKdfContext;
  hc_permissions : SessionPermissions;
  hc_local_role : SessionRole;
  hc_local_device_id : rstr;
  hc_local_device_public_key : bytes;
  hc_key_exchange_nonce : bytes;
  hc_timestamp : Z }.

Inductive SessionHandshakeError :=
| InvalidConfiguration
| HandshakeInvalidState
| InvalidLocalSignature
| PeerBindingMismatch
| PeerMessageTooOld
| SessionExpired
| HandshakeCrypto (e : CryptoError)
| HandshakeSession (e : SecureSessionError).

Record SessionHandshakeReady := {
  hr_secure_session : SecureSession;
  hr_local_key_confirm : KeyConfirm;
  hr_transcript_hash : bytes }.

Record SessionHandshake := {
  hs_config : SessionHandshakeConfig;
  hs_ephemeral_key : EphemeralKeyPair;
  hs_local_payload : SignedKeyExchangePayload;
  hs_local_message : option SignedKeyExchange;
  hs_peer_message : option SignedKeyExchange }.

Definition device_for_role (c : SessionKdfContext) (r : SessionRole) : rstr :=
  match r with
  | Controller => c.(kdf_controller_device_id)
  | Controlled => c.(kdf_controlled_device_id)
  end.

Definition opposite_role (r : SessionRole) : SessionRole :=
  match r with Controller => Controlled | Controlled => Controller end.

(** The context with its transcript hash filled in. *)
Definition with_transcript (c : SessionKdfContext) (h : bytes) : SessionKdfContext := {|
  kdf_account_id := c.(kdf_account_id); kdf_session_id := c.(kdf_session_id);
  kdf_controller_device_id := c.(kdf_controller_device_id);
  kdf_controlled_device_id := c.(kdf_controlled_device_id);
  kdf_permissions_digest := c.(kdf_permissions_digest);
  kdf_protocol_version := c.(kdf_protocol_version);
  kdf_session_expires_at := c.(kdf_session_expires_at);
  kdf_transport_path := c.(kdf_transport_path);
  kdf_candidate_pair_id := c.(kdf_candidate_pair_id);
  kdf_relay_node_id := c.(kdf_relay_node_id);
  kdf_transcript_hash := h |}.

Definition context_of (c : SessionKdfContext) : SessionContext := {|
  sc_account_id := c.(kdf_account_id); sc_session_id := c.(kdf_session_id);
  sc_controller_device_id := c.(kdf_controller_device_id);
  sc_controlled_device_id := c.(kdf_controlled_device_id);
  sc_permissions_digest := c.(kdf_permissions_digest);
  sc_protocol_version := c.(kdf_protocol_version);
  sc_session_expires_at := c.(kdf_session_expires_at) |}.

Section operations.
Context `{P : Primitives}.

Definition validate_config (c : SessionHandshakeConfig) : result SessionHandshakeError unit :=
  let x := c.(hc_context) in
  ensure (negb (
    (x.(kdf_account_id) =! []) || (x.(kdf_session_id) =? 0) || (c.(hc_local_device_id) =! [])
    || (x.(kdf_controller_device_id) =! []) || (x.(kdf_controlled_device_id) =! [])
    || (x.(kdf_controller_device_id) =! x.(kdf_controlled_device_id))
    || negb (x.(kdf_protocol_version) =? PROTOCOL_VERSION)
    || (x.(kdf_session_expires_at) <=? c.(hc_timestamp))
    || (x.(kdf_candidate_pair_id) =? 0)
    || (c.(hc_key_exchange_nonce) =! repeat x00 32)
    || negb (Bool.eqb (is_relay x.(kdf_transport_path)) (bool_decide (is_Some x.(kdf_relay_node_id))))
    || (device_for_role x c.(hc_local_role) ≠! c.(hc_local_device_id))
    || (ok (permissions_digest c.(hc_permissions)) ≠! Some x.(kdf_permissions_digest))))
  InvalidConfiguration.

Definition payload_of (c : SessionHandshakeConfig) (context_hash public_key : bytes)
    : SignedKeyExchangePayload := {|
  kx_session_id := c.(hc_context).(kdf_session_id);
  kx_device_id := c.(hc_local_device_id);
  kx_role := c.(hc_local_role);
  kx_session_context_hash := context_hash;
  kx_permissions_digest := c.(hc_context).(kdf_permissions_digest);
  kx_session_expires_at := c.(hc_context).(kdf_session_expires_at);
  kx_ephemeral_public_key := public_key;
  kx_nonce := c.(hc_key_exchange_nonce);
  kx_transport_path := c.(hc_context).(kdf_transport_path);
  kx_candidate_pair_id := c.(hc_context).(kdf_candidate_pair_id);
  kx_relay_node_id := c.(hc_context).(kdf_relay_node_id);
  kx_timestamp := c.(hc_timestamp) |}.

Definition with_ephemeral_key (c : SessionHandshakeConfig) (e : EphemeralKeyPair)
    : result SessionHandshakeError SessionHandshake :=
  _ ← validate_config c;
  context_hash ← map_err HandshakeCrypto (session_context_hash (context_of c.(hc_context)));
  Ok {| hs_config := c; hs_ephemeral_key := e;
        hs_local_payload := payload_of c context_hash e.(eph_public_key);
        hs_local_message := None; hs_peer_message := None |}.

(** [SessionHandshake::new], with the random secret as an argument. *)
Definition handshake_new (c : SessionHandshakeConfig) (random : bytes)
    : result SessionHandshakeError SessionHandshake :=
  with_ephemeral_key c (generate_ephemeral random).

Definition local_signature_digest (h : SessionHandshake) : result SessionHandshakeError bytes :=
  map_err HandshakeCrypto (hashed (key_exchange_canonical_bytes h.(hs_local_payload))).

Definition set_local_message (h : SessionHandshake) (m : SignedKeyExchange) : SessionHandshake :=
  {| hs_config := h.(hs_config); hs_ephemeral_key := h.(hs_ephemeral_key);
     hs_local_payload := h.(hs_local_payload); hs_local_message := Some m;
     hs_peer_message := h.(hs_peer_message) |}.

Definition set_peer_message (h : SessionHandshake) (m : SignedKeyExchange) : SessionHandshake :=
  {| hs_config := h.(hs_config); hs_ephemeral_key := h.(hs_ephemeral_key);
     hs_local_payload := h.(hs_local_payload); hs_local_message := h.(hs_local_message);
     hs_peer_message := Some m |}.

Definition canonical_or_crypto (p : SignedKeyExchangePayload) : result SessionHandshakeError bytes :=
  map_err (λ _, HandshakeCrypto CanonicalEncoding) (key_exchange_canonical_bytes p).

Definition set_local_signature (h : SessionHandshake) (signature : bytes)
    : result SessionHandshakeError SignedKeyExchange * SessionHandshake :=
  match (_ ← ensure (negb (bool_decide (is_Some h.(hs_local_message))
                           || negb (length signature =? 64)%nat)) HandshakeInvalidState;
         canonical ← canonical_or_crypto h.(hs_local_payload);
         map_err (λ _, InvalidLocalSignature)
           (verify_canonical_signature h.(hs_config).(hc_local_device_public_key) canonical signature)) with
  | Err e => (Err e, h)
  | Ok _ =>
      let m := {| ske_payload := h.(hs_local_payload); ske_signature := signature |} in
      (Ok m, set_local_message h m)
  end.

Definition verify_peer_message (h : SessionHandshake) (m : SignedKeyExchange)
    (peer_device_public_key : bytes) (now : Z)
    : result SessionHandshakeError unit * SessionHandshake :=
  let x := h.(hs_config).(hc_context) in
  let p := m.(ske_payload) in
  let peer_role := opposite_role h.(hs_config).(hc_local_role) in
  match (_ ← ensure (negb (bool_decide (is_Some h.(hs_peer_message)))) HandshakeInvalidState;
         _ ← ensure (negb ((x.(kdf_session_expires_at) <=? now)
                           || (x.(kdf_session_expires_at) <=? p.(kx_timestamp)))) SessionExpired;
         _ ← ensure (negb (
               negb (p.(kx_session_id) =? x.(kdf_session_id))
               || (p.(kx_device_id) ≠! device_for_role x peer_role)
               || (p.(kx_role) ≠! peer_role)
               || (p.(kx_session_context_hash) ≠! h.(hs_local_payload).(kx_session_context_hash))
               || (p.(kx_permissions_digest) ≠! x.(kdf_permissions_digest))
               || negb (p.(kx_session_expires_at) =? x.(kdf_session_expires_at))
               || (p.(kx_transport_path) ≠! x.(kdf_transport_path))
               || negb (p.(kx_candidate_pair_id) =? x.(kdf_candidate_pair_id))
               || (p.(kx_relay_node_id) ≠! x.(kdf_relay_node_id))
               || (p.(kx_ephemeral_public_key) =! repeat x00 32)
               || (p.(kx_nonce) =! repeat x00 32)
               || negb (validate_path_binding p))) PeerBindingMismatch;
         _ ← ensure (negb (KEY_EXCHANGE_WINDOW_MILLIS <? abs_diff p.(kx_timestamp) now))
               PeerMessageTooOld;
         signature ← ok_or (signature_bytes m) PeerBindingMismatch;
         canonical ← canonical_or_crypto p;
         map_err HandshakeCrypto
           (verify_canonical_signature peer_device_public_key canonical signature)) with
  | Err e => (Err e, h)
  | Ok _ => (Ok tt, set_peer_message h m)
  end.

Definition handshake_finish (h : SessionHandshake) (confirm_timestamp : Z)
    : result SessionHandshakeError SessionHandshakeReady :=
  let x := h.(hs_config).(hc_context) in
  _ ← ensure (negb (x.(kdf_session_expires_at) <=? confirm_timestamp)) SessionExpired;
  local ← ok_or h.(hs_local_message) HandshakeInvalidState;
  peer ← ok_or h.(hs_peer_message) HandshakeInvalidState;
  let '(controller, controlled) := match h.(hs_config).(hc_local_role) with
                                   | Controller => (local, peer)
                                   | Controlled => (peer, local)
                                   end in
  transcript_hash ← map_err HandshakeCrypto (key_exchange_transcript_hash controller controlled);
  shared_secret ← map_err HandshakeCrypto
    (diffie_hellman h.(hs_ephemeral_key) peer.(ske_payload).(kx_ephemeral_public_key));
  let kdf := with_transcript x transcript_hash in
  keys ← map_err HandshakeCrypto (derive_session_keys shared_secret kdf);
  session ← map_err HandshakeSession
    (secure_session_new kdf.(kdf_session_id) h.(hs_config).(hc_local_role)
      h.(hs_config).(hc_permissions) kdf.(kdf_permissions_digest) kdf.(kdf_transport_path)
      kdf.(kdf_candidate_pair_id) kdf.(kdf_relay_node_id) transcript_hash keys);
  let '(confirm, session) :=
    create_local_key_confirm session h.(hs_config).(hc_local_device_id) confirm_timestamp in
  confirm ← map_err HandshakeSession confirm;
  Ok {| hr_secure_session := session; hr_local_key_confirm := confirm;
        hr_transcript_hash := transcript_hash |}.
End operations.

(** ** Lemmas *)

Section lemmas.
Context `{P : Primitives}.

Lemma hashed_ok r d : hashed r = Ok d ↔ ∃ bs, r = Ok bs ∧ d = sha256 bs.
Proof. unfold hashed. destruct r; cbn; naive_solver. Qed.

Lemma verify_canonical_signed {L : PrimitiveLaws P} sk bs :
  verify_canonical_signature (ed25519_public sk) bs (ed25519_sign sk (sha256 bs)) = Ok tt.
Proof.
  unfold verify_canonical_signature, verify_digest_signature.
  by rewrite ed25519_public_valid, ed25519_verify_sign.
Qed.

(** What a configuration that is accepted satisfies. *)
Lemma validate_config_ok c :
  validate_config c = Ok tt →
  let x := c.(hc_context) in
  c.(hc_timestamp) < x.(kdf_session_expires_at) ∧ c.(hc_key_exchange_nonce) ≠ repeat x00 32 ∧
  is_relay x.(kdf_transport_path) = bool_decide (is_Some x.(kdf_relay_node_id)) ∧
  c.(hc_local_device_id) = device_for_role x c.(hc_local_role) ∧
  permissions_digest c.(hc_permissions) = Ok x.(kdf_permissions_digest).
Proof.
  intros H x. unfold validate_config in H. apply ensure_ok in H. fold x in H.
  rewrite negb_true_iff in H. split_bools.
  repeat match goal with H : Bool.eqb _ _ = true |- _ => apply Bool.eqb_prop in H end.
  split_and!; try done.
  destruct (permissions_digest (hc_permissions c)); cbn in *; congruence.
Qed.

Lemma with_ephemeral_ok c e h :
  with_ephemeral_key c e = Ok h →
  validate_config c = Ok tt ∧
  ∃ ch, session_context_hash (context_of c.(hc_context)) = Ok ch ∧
        h = {| hs_config := c; hs_ephemeral_key := e;
               hs_local_payload := payload_of c ch e.(eph_public_key);
               hs_local_message := None; hs_peer_message := None |}.
Proof. unfold with_ephemeral_key. intros H. invert_ok. eauto. Qed.

(** The signature of the local payload is accepted, once. *)
Lemma sign_local {L : PrimitiveLaws P} h sk d :
  h.(hs_local_message) = None →
  h.(hs_config).(hc_local_device_public_key) = ed25519_public sk →
  local_signature_digest h = Ok d →
  let m := {| ske_payload := h.(hs_local_payload); ske_signature := ed25519_sign sk d |} in
  set_local_signature h (ed25519_sign sk d) = (Ok m, set_local_message h m).
Proof.
  intros Hn Hk Hd m. unfold local_signature_digest in Hd. invert_ok.
  apply hashed_ok in Hd as (bs & E & ->).
  unfold set_local_signature, canonical_or_crypto. rewrite Hn, E, Hk, ed25519_sign_length.
  cbn [map_err mbind result_bind]. by rewrite verify_canonical_signed.
Qed.

(** The message of the other side of the same session is accepted. *)
Lemma verify_peer {L : PrimitiveLaws P} h c ch e sk d now :
  h.(hs_peer_message) = None →
  c.(hc_context) = h.(hs_config).(hc_context) →
  c.(hc_local_role) = opposite_role h.(hs_config).(hc_local_role) →
  validate_config c = Ok tt →
  h.(hs_local_payload).(kx_session_context_hash) = ch →
  e ≠ repeat x00 32 → now < c.(hc_context).(kdf_session_expires_at) →
  abs_diff c.(hc_timestamp) now ≤ KEY_EXCHANGE_WINDOW_MILLIS →
  hashed (key_exchange_canonical_bytes (payload_of c ch e)) = Ok d →
  let m := {| ske_payload := payload_of c ch e; ske_signature := ed25519_sign sk d |} in
  verify_peer_message h m (ed25519_public sk) now = (Ok tt, set_peer_message h m).
Proof.
  intros Hn Hx Hr Hv Hch He Hnow Hw Hd m.
  apply validate_config_ok in Hv as (Hts & Hnz & Hrel & Hdev & _).
  apply hashed_ok in Hd as (bs & E & ->).
  unfold verify_peer_message. rewrite Hn, <-Hx. cbn [m ske_payload].
  match goal with |- match ?x with _ => _ end = _ => assert (x = Ok tt) as ->; [|done] end.
  pass. apply bind_ok. exists tt. split; [apply ensure_ok; cbn; lia|].
  apply bind_ok. exists tt. split.
  { apply ensure_ok. unfold validate_path_binding. cbn.
    rewrite Hdev, Hr, Hrel, !Z.eqb_refl, Bool.eqb_reflx.
    rewrite !(bool_decide_eq_true_2 (_ = _)) by done. rewrite !bool_decide_eq_false_2 by done. done. }
  pass. unfold signature_bytes, canonical_or_crypto. cbn [m ske_signature ske_payload].
  rewrite ed25519_sign_length. cbn [Nat.eqb ok_or mbind result_bind].
  rewrite E. cbn [map_err mbind result_bind]. by rewrite verify_canonical_signed.
Qed.
End lemmas.

(** ** Two sides of one session *)

Section two_sides.
Context `{P : Primitives} {L : PrimitiveLaws P}.

(** Strings that fit the length prefix of the canonical encoding. *)
Definition context_fits (x : SessionKdfContext) : Prop :=
  len x.(kdf_account_id) < 2 ^ 32 ∧ len x.(kdf_controller_device_id) < 2 ^ 32 ∧
  len x.(kdf_controlled_device_id) < 2 ^ 32 ∧ len x.(kdf_permissions_digest) < 2 ^ 32 ∧
  len (default [] x.(kdf_relay_node_id)) < 2 ^ 32.

Ltac forall_fields :=
  repeat match goal with
  | H : Forall _ (_ :: _) |- _ => apply Forall_cons in H as [[? ?] H]; cbn [fst snd] in *
  end.

(** A context whose two encodings are signed fits. *)
Lemma signed_context_fits c ch e d :
  session_context_hash (context_of c.(hc_context)) = Ok ch →
  hashed (key_exchange_canonical_bytes (payload_of c ch e)) = Ok d →
  context_fits c.(hc_context).
Proof.
  intros (bs & Hc & _)%hashed_ok (bs' & Hk & _)%hashed_ok.
  apply session_context_writes in Hc as [Hc _]. apply key_exchange_writes in Hk as [Hk _].
  unfold session_context_fields, key_exchange_fields, domain_field in *.
  cbn [payload_of context_of kx_relay_node_id sc_account_id sc_controller_device_id
    sc_controlled_device_id sc_permissions_digest] in *.
  forall_fields. by repeat split.
Qed.

Lemma expand_defined n h i l : Z.of_nat n ≤ 255 * 32 → ∃ o, expand n h i l = Ok o.
Proof. intros Hn. unfold expand. destruct (hkdf_total h.1 h.2 (i ++ l) n Hn) as [o ->]. by exists o. Qed.

(** The key schedule of such a context is defined. *)
Lemma derive_defined s x :
  context_fits x → len x.(kdf_transcript_hash) < 2 ^ 32 →
  is_relay x.(kdf_transport_path) = bool_decide (is_Some x.(kdf_relay_node_id)) →
  ∃ k, derive_session_keys s x = Ok k.
Proof.
  intros (? & ? & ? & ? & ?) ? Hr. unfold derive_session_keys, salt_canonical_bytes, info_base, hashed.
  rewrite Hr, Bool.eqb_reflx.
  assert (len (path_as_str (kdf_transport_path x)) < 2 ^ 32) by (by destruct (kdf_transport_path x)).
  push_all. cbn [ensure mbind result_bind map_err fmap result_fmap].
  do 6 lazymatch goal with |- ∃ k, (expand ?n ?h ?i ?l ≫= _) = _ =>
    destruct (expand_defined n h i l) as [? ->]; [done|]; cbn [mbind result_bind] end.
  by eexists.
Qed.

Lemma confirm_defined sid dev role th ts keys :
  len dev < 2 ^ 32 → len th < 2 ^ 32 → ∃ c, create_key_confirm sid dev role th ts keys = Ok c.
Proof.
  intros ??. unfold create_key_confirm, key_confirm_mac_input.
  assert (len (role_as_str role) < 2 ^ 32) by (by destruct role).
  cbn [kc_session_id kc_device_id kc_role kc_transcript_hash kc_timestamp].
  push_all. by eexists.
Qed.

Lemma transcript_defined a b x y :
  a.(ske_payload).(kx_role) = Controller → b.(ske_payload).(kx_role) = Controlled →
  key_exchange_canonical_bytes a.(ske_payload) = Ok x →
  key_exchange_canonical_bytes b.(ske_payload) = Ok y →
  length a.(ske_signature) = 64%nat → length b.(ske_signature) = 64%nat →
  ∃ th, key_exchange_transcript_hash a b = Ok th ∧ len th < 2 ^ 32.
Proof.
  intros Ha Hb Hx Hy Hl Hm. unfold key_exchange_transcript_hash, signature_bytes.
  rewrite Ha, Hb, Hx, Hy, Hl, Hm. eexists. split; [reflexivity|].
  unfold len. by rewrite sha256_length.
Qed.

(** What [finish] makes of the pieces. *)
Lemma finish_ok h loc peer a b th ss keys s0 cf s1 now :
  h.(hs_local_message) = Some loc → h.(hs_peer_message) = Some peer →
  let x := h.(hs_config).(hc_context) in
  now < x.(kdf_session_expires_at) →
  (a, b) = match h.(hs_config).(hc_local_role) with
           | Controller => (loc, peer) | Controlled => (peer, loc) end →
  key_exchange_transcript_hash a b = Ok th →
  diffie_hellman h.(hs_ephemeral_key) peer.(ske_payload).(kx_ephemeral_public_key) = Ok ss →
  derive_session_keys ss (with_transcript x th) = Ok keys →
  secure_session_new x.(kdf_session_id) h.(hs_config).(hc_local_role)
    h.(hs_config).(hc_permissions) x.(kdf_permissions_digest) x.(kdf_transport_path)
    x.(kdf_candidate_pair_id) x.(kdf_relay_node_id) th keys = Ok s0 →
  create_local_key_confirm s0 h.(hs_config).(hc_local_device_id) now = (Ok cf, s1) →
  handshake_finish h now =
  Ok {| hr_secure_session := s1; hr_local_key_confirm := cf; hr_transcript_hash := th |}.
Proof.
  intros Hl Hp x Hn Hab Ht Hd Hk Hs Hc. unfold handshake_finish. fold x. pass.
  rewrite Hl, Hp. cbn [ok_or mbind result_bind]. rewrite <-Hab, Ht. cbn [map_err mbind result_bind].
  rewrite Hd. cbn [map_err mbind result_bind]. rewrite Hk. cbn [map_err mbind result_bind].
  cbn [with_transcript kdf_session_id kdf_permissions_digest kdf_transport_path
    kdf_candidate_pair_id kdf_relay_node_id]. rewrite Hs. cbn [map_err mbind result_bind].
  by rewrite Hc.
Qed.

(** A session on a consistent path is created and confirms its key. *)
Lemma session_confirms sid role p dg path pair relay th keys dev ts :
  is_relay path = bool_decide (is_Some relay) → len dev < 2 ^ 32 → len th < 2 ^ 32 →
  ∃ s0 cf s1, secure_session_new sid role p dg path pair relay th keys = Ok s0 ∧
              create_local_key_confirm s0 dev ts = (Ok cf, s1).
Proof.
  intros Hr Hd Ht. unfold secure_session_new. rewrite Hr, Bool.eqb_reflx. cbn.
  destruct (confirm_defined sid dev role th ts keys Hd Ht) as [cf Hc].
  eexists _, cf, _. split; [reflexivity|].
  unfold create_local_key_confirm, ensure_not_invalidated. cbn. by rewrite Hc.
Qed.

Lemma device_fits x r : context_fits x → len (device_for_role x r) < 2 ^ 32.
Proof. intros (? & ? & ? & ? & ?). by destruct r. Qed.

(** A side before the messages are exchanged, and the message it signs. *)
Definition started (c : SessionHandshakeConfig) (s ch : bytes) : SessionHandshake :=
  {| hs_config := c; hs_ephemeral_key := from_secret_bytes s;
     hs_local_payload := payload_of c ch (x25519_public s);
     hs_local_message := None; hs_peer_message := None |}.

Definition signed_of (c : SessionHandshakeConfig) (s ch sk d : bytes) : SignedKeyExchange :=
  {| ske_payload := payload_of c ch (x25519_public s); ske_signature := ed25519_sign sk d |}.

Lemma new_started c s h d sk :
  handshake_new c s = Ok h → local_signature_digest h = Ok d →
  c.(hc_local_device_public_key) = ed25519_public sk →
  validate_config c = Ok tt ∧
  ∃ ch, session_context_hash (context_of c.(hc_context)) = Ok ch ∧ h = started c s ch ∧
        hashed (key_exchange_canonical_bytes (payload_of c ch (x25519_public s))) = Ok d ∧
        set_local_signature h (ed25519_sign sk d)
        = (Ok (signed_of c s ch sk d), set_local_message h (signed_of c s ch sk d)).
Proof.
  intros Hn Hd Hk. apply with_ephemeral_ok in Hn as (Hv & ch & Hc & ->).
  split; [done|]. exists ch. split; [done|]. split; [done|]. split.
  - unfold local_signature_digest in Hd. by invert_ok.
  - by apply sign_local.
Qed.

(** A side that has both messages finishes. *)
Lemma side_finishes c s ch loc peer a b th ss keys now :
  validate_config c = Ok tt → context_fits c.(hc_context) → len th < 2 ^ 32 →
  let x := c.(hc_context) in
  now < x.(kdf_session_expires_at) →
  (a, b) = match c.(hc_local_role) with
           | Controller => (loc, peer) | Controlled => (peer, loc) end →
  key_exchange_transcript_hash a b = Ok th →
  x25519_shared s peer.(ske_payload).(kx_ephemeral_public_key) = ss → ss ≠ repeat x00 32 →
  derive_session_keys ss (with_transcript x th) = Ok keys →
  ∃ s0 cf s1,
    secure_session_new x.(kdf_session_id) c.(hc_local_role)
      c.(hc_permissions) x.(kdf_permissions_digest) x.(kdf_transport_path)
      x.(kdf_candidate_pair_id) x.(kdf_relay_node_id) th keys = Ok s0 ∧
    create_local_key_confirm s0 c.(hc_local_device_id) now = (Ok cf, s1) ∧
    handshake_finish (set_peer_message (set_local_message (started c s ch) loc) peer) now
    = Ok {| hr_secure_session := s1; hr_local_key_confirm := cf; hr_transcript_hash := th |}.
Proof.
  intros Hv Hf Hth x Hn Hab Ht Hs Hz Hk.
  apply validate_config_ok in Hv as (_ & _ & Hrel & Hdev & _).
  destruct (session_confirms x.(kdf_session_id) c.(hc_local_role) c.(hc_permissions)
    x.(kdf_permissions_digest) x.(kdf_transport_path) x.(kdf_candidate_pair_id)
    x.(kdf_relay_node_id) th keys c.(hc_local_device_id) now) as (s0 & cf & s1 & H0 & H1);
    [done|rewrite Hdev; by apply device_fits|done|].
  exists s0, cf, s1. split; [done|]. split; [done|].
  eapply finish_ok; [reflexivity|reflexivity|exact Hn|exact Hab|exact Ht| |exact Hk|exact H0|exact H1].
  unfold diffie_hellman. cbn [set_peer_message set_local_message started hs_ephemeral_key
    from_secret_bytes eph_secret]. by rewrite Hs, bool_decide_eq_false_2.
Qed.
End two_sides.

(** ** Theorems *)

(** C15: Two devices that were handed the same session context and permissions,
    and opposite roles, complete the handshake: each signature made over the
    local digest is accepted, each signed message is accepted by the other side
    within the 30 second window, both sides finish with the same transcript
    hash, and both key confirmations are accepted. From then on the two sides
    talk in both directions at once, messages crossing, overtaking one another
    and getting lost: each seals what the granted permissions, the channels, the
    length and the counter allow, and what arrives opens to its plaintext,
    unless a message of its channel 64 or more numbers further on was opened
    before. The public keys and the shared secret must not be zero, which the
    code refuses, and the session must not have expired. *)
Theorem handshake_completes `{P : Primitives} {L : PrimitiveLaws P}
    ca cb sa sb ska skb ha hb da db now :
  ca.(hc_context) = cb.(hc_context) → ca.(hc_permissions) = cb.(hc_permissions) →
  ca.(hc_local_role) = Controller → cb.(hc_local_role) = Controlled →
  ca.(hc_local_device_public_key) = ed25519_public ska →
  cb.(hc_local_device_public_key) = ed25519_public skb →
  handshake_new ca sa = Ok ha → handshake_new cb sb = Ok hb →
  local_signature_digest ha = Ok da → local_signature_digest hb = Ok db →
  x25519_public sa ≠ repeat x00 32 → x25519_public sb ≠ repeat x00 32 →
  x25519_shared sa (x25519_public sb) ≠ repeat x00 32 →
  now < ca.(hc_context).(kdf_session_expires_at) →
  abs_diff ca.(hc_timestamp) now ≤ KEY_EXCHANGE_WINDOW_MILLIS →
  abs_diff cb.(hc_timestamp) now ≤ KEY_EXCHANGE_WINDOW_MILLIS →
  ∃ ma mb ha1 hb1 ha2 hb2 ra rb ssa ssb,
    set_local_signature ha (ed25519_sign ska da) = (Ok ma, ha1) ∧
    set_local_signature hb (ed25519_sign skb db) = (Ok mb, hb1) ∧
    verify_peer_message ha1 mb (ed25519_public skb) now = (Ok tt, ha2) ∧
    verify_peer_message hb1 ma (ed25519_public ska) now = (Ok tt, hb2) ∧
    handshake_finish ha2 now = Ok ra ∧ handshake_finish hb2 now = Ok rb ∧
    ra.(hr_transcript_hash) = rb.(hr_transcript_hash) ∧
    verify_peer_key_confirm ra.(hr_secure_session) rb.(hr_local_key_confirm)
      cb.(hc_local_device_id) now = (Ok tt, ssa) ∧
    verify_peer_key_confirm rb.(hr_secure_session) ra.(hr_local_key_confirm)
      ca.(hc_local_device_id) now = (Ok tt, ssb) ∧
    session_state ssa = Ready ∧ session_state ssb = Ready ∧
    ∀ ts, carried cb.(hc_permissions) (converse (quiet_line ssa ssb) ts).
Proof.
  intros Hctx Hperm Hra Hrb Hpka Hpkb Hna Hnb Hda Hdb Hea Heb Hss Hnow Hwa Hwb.
  destruct (new_started _ _ _ _ _ Hna Hda Hpka) as (Hva & ch & Hch & -> & Hka & Hsa).
  destruct (new_started _ _ _ _ _ Hnb Hdb Hpkb) as (Hvb & ch' & Hch' & -> & Hkb & Hsb).
  rewrite <-Hctx, Hch in Hch'. injection Hch' as <-.
  pose proof (signed_context_fits _ _ _ _ Hch Hka) as Hfit.
  pose proof (validate_config_ok _ Hva) as (_ & _ & Hrel & _).
  destruct (proj1 (hashed_ok _ _) Hka) as (xa & Hxa & _), (proj1 (hashed_ok _ _) Hkb) as (xb & Hxb & _).
  set (ma := signed_of ca sa ch ska da) in *. set (mb := signed_of cb sb ch skb db) in *.
  destruct (transcript_defined ma mb xa xb) as (th & Hth & Hlt);
    [done|done|done|done|apply ed25519_sign_length|apply ed25519_sign_length|].
  destruct (derive_defined (x25519_shared sa (x25519_public sb))
    (with_transcript ca.(hc_context) th)) as [keys Hkeys]; [done|done|done|].
  destruct (side_finishes ca sa ch ma mb ma mb th _ keys now Hva Hfit Hlt Hnow
    ltac:(by rewrite Hra) Hth eq_refl Hss Hkeys) as (a0 & cfa & a1 & Ha0 & Hca & Hfa).
  rewrite Hctx in Hfit, Hkeys, Hnow.
  destruct (side_finishes cb sb ch mb ma ma mb th _ keys now Hvb Hfit Hlt Hnow
    ltac:(by rewrite Hrb) Hth (x25519_agree _ _) Hss Hkeys) as (b0 & cfb & b1 & Hb0 & Hcb & Hfb).
  rewrite Hra, Hctx, Hperm in Ha0. rewrite Hrb in Hb0.
  destruct (sessions_establish _ _ _ _ _ _ _ _ _ _ _ _ _ _ _ _ _ _ now Ha0 Hb0 Hca Hcb)
    as (ssa & ssb & Hssa & Hssb & Hend); [unfold abs_diff, KEY_CONFIRM_WINDOW_MILLIS; lia..|].
  exists ma, mb. do 2 eexists. exists (set_peer_message (set_local_message (started ca sa ch) ma) mb),
    (set_peer_message (set_local_message (started cb sb ch) mb) ma).
  do 2 eexists. exists ssa, ssb.
  split; [exact Hsa|]. split; [exact Hsb|].
  split; [apply (verify_peer _ cb ch (x25519_public sb)); try done; cbn; by rewrite Hra|].
  split; [apply (verify_peer _ ca ch (x25519_public sa)); try done; cbn; by rewrite ?Hrb, ?Hctx|].
  split; [exact Hfa|]. split; [exact Hfb|]. split; [done|].
  split; [exact Hssa|]. split; [exact Hssb|]. exact Hend.
Qed.

(** The two configurations of a relayed session, and their sides. *)
Definition example_handshake (role : SessionRole) : SessionHandshakeConfig := {|
  hc_context := {|
    kdf_account_id := str "account-a"; kdf_session_id := 1;
    kdf_controller_device_id := str "controller-a"; kdf_controlled_device_id := str "controlled-a";
    kdf_permissions_digest := default [] (ok (@permissions_digest toy example_permissions));
    kdf_protocol_version := PROTOCOL_VERSION; kdf_session_expires_at := 10000;
    kdf_transport_path := QuicRelay; kdf_candidate_pair_id := 9;
    kdf_relay_node_id := Some (str "relay-a"); kdf_transcript_hash := repeat x00 32 |};
  hc_permissions := example_permissions; hc_local_role := role;
  hc_local_device_id :=
    match role with Controller => str "controller-a" | Controlled => str "controlled-a" end;
  hc_local_device_public_key := repeat x07 32; hc_key_exchange_nonce := repeat x06 32;
  hc_timestamp := 1000 |}.

Lemma handshake_completes_witness :
  let ca := example_handshake Controller in let cb := example_handshake Controlled in
  ∃ ha hb da db ma mb ha1 hb1 ha2 hb2 ra rb ssa ssb,
    @handshake_new toy ca (repeat x01 32) = Ok ha ∧ @handshake_new toy cb (repeat x02 32) = Ok hb ∧
    @set_local_signature toy ha (@ed25519_sign toy (repeat x07 32) da) = (Ok ma, ha1) ∧
    @set_local_signature toy hb (@ed25519_sign toy (repeat x07 32) db) = (Ok mb, hb1) ∧
    @verify_peer_message toy ha1 mb (repeat x07 32) 2000 = (Ok tt, ha2) ∧
    @verify_peer_message toy hb1 ma (repeat x07 32) 2000 = (Ok tt, hb2) ∧
    @handshake_finish toy ha2 2000 = Ok ra ∧ @handshake_finish toy hb2 2000 = Ok rb ∧
    ra.(hr_transcript_hash) = rb.(hr_transcript_hash) ∧
    carried example_permissions (@converse toy (quiet_line ssa ssb) example_talk).
Proof.
  intros ca cb.
  destruct (is_ok_ex (@handshake_new toy ca (repeat x01 32))) as [ha Ha]; [vm_compute; reflexivity|].
  destruct (is_ok_ex (@handshake_new toy cb (repeat x02 32))) as [hb Hb]; [vm_compute; reflexivity|].
  destruct (is_ok_ex (@local_signature_digest toy ha)) as [da Hda];
    [assert (is_ok (h ← @handshake_new toy ca (repeat x01 32); @local_signature_digest toy h) = true)
       as E by (vm_compute; reflexivity); by rewrite Ha in E|].
  destruct (is_ok_ex (@local_signature_digest toy hb)) as [db Hdb];
    [assert (is_ok (h ← @handshake_new toy cb (repeat x02 32); @local_signature_digest toy h) = true)
       as E by (vm_compute; reflexivity); by rewrite Hb in E|].
  destruct (@handshake_completes toy toy_laws ca cb (repeat x01 32) (repeat x02 32)
    (repeat x07 32) (repeat x07 32) ha hb da db 2000 eq_refl eq_refl eq_refl eq_refl eq_refl eq_refl
    Ha Hb Hda Hdb) as (ma & mb & ha1 & hb1 & ha2 & hb2 & ra & rb & ssa & ssb
      & H1 & H2 & H3 & H4 & H5 & H6 & H7 & _ & _ & _ & _ & H8);
    [vm_compute; congruence..|].
  exists ha, hb, da, db, ma, mb, ha1, hb1, ha2, hb2, ra, rb, ssa, ssb.
  exact (conj Ha (conj Hb (conj H1 (conj H2 (conj H3 (conj H4 (conj H5 (conj H6 (conj H7 (H8 example_talk)))))))))).
Defined.
