(* ===== verification/Input.v ===== *)
(** * Input events

    Models crates/remote-protocol/src/input.rs (the event, its channel rule and
    its validation) and crates/remote-core/src/input.rs (the pressed-key state
    of the controlled side). An [f64] is an IEEE binary64 value of the Standard
    Library's [SpecFloat]. *)

From Stdlib Require Export SpecFloat.
From S2P Require Import Prelude Header.

Inductive InputKind :=
| MouseMove | MouseButtonInput | MouseWheel | PhysicalKey | TextCommit
| ImeComposition | Shortcut | TouchGesture | ReleaseAllKeys.
#[global] Instance InputKind_eq_dec : EqDecision InputKind.
Proof. solve_decision. Defined.

Inductive KeyEventKind := KeyDown | KeyUp | KeyRepeat | KeyTap.
#[global] Instance KeyEventKind_eq_dec : EqDecision KeyEventKind.
Proof. solve_decision. Defined.

Inductive MouseButton := ButtonLeft | ButtonRight | ButtonMiddle | ButtonBack | ButtonForward.
Inductive CompositionState :=
| CompositionStarted | CompositionUpdated | CompositionCommitted | CompositionCancelled.
Inductive InputModifier := Ctrl | Alt | Shift | Meta | CapsLock.

Record InputEvent := {
  ie_session_id : Z;
  ie_event_id : Z;
  ie_display_id : rstr;
  ie_input_kind : InputKind;
  ie_key_event_kind : option KeyEventKind;
  ie_physical_code : option Z;
  ie_scan_code : option Z;
  ie_virtual_key : option Z;
  ie_logical_key : option rstr;
  ie_x_norm : option spec_float;
  ie_y_norm : option spec_float;
  ie_button : option MouseButton;
  ie_key_code : Z;
  ie_modifiers : list InputModifier;
  ie_wheel_delta_x : spec_float;
  ie_wheel_delta_y : spec_float;
  ie_text : option rstr;
  ie_composition_text : option rstr;
  ie_composition_state : option CompositionState;
  ie_keyboard_layout : option rstr;
  ie_is_auto_repeat : bool;
  ie_timestamp : Z }.

(** [InputEvent::accepts_channel]. *)
Definition event_accepts_channel (e : InputEvent) (c : ChannelId) : bool :=
  match e.(ie_input_kind) with
  | MouseMove => match c with InputReliable | InputRealtime => true | _ => false end
  | _ => c =! InputReliable
  end.

Inductive InputValidationError :=
| InvalidNormalizedCoordinate | InvalidWheelDelta | UnexpectedText.

(** [f64::is_finite]. *)
Definition f64_is_finite (x : spec_float) : bool :=
  match x with S754_zero _ | S754_finite _ _ _ => true | _ => false end.

Definition f64_zero : spec_float := S754_zero false.
Definition f64_one : spec_float := S754_finite false (2 ^ 52) (-52).

(** [(0.0..=1.0).contains(&x)]. *)
Definition in_unit_interval (x : spec_float) : bool := SFleb f64_zero x && SFleb x f64_one.

Definition valid_coordinate (x : spec_float) : bool := f64_is_finite x && in_unit_interval x.

Definition option_list {A} (o : option A) : list A :=
  match o with Some x => [x] | None => [] end.

(** [InputEvent::validate]. *)
Definition event_validate (e : InputEvent) : result InputValidationError unit :=
  _ ← ensure (forallb valid_coordinate (option_list e.(ie_x_norm) ++ option_list e.(ie_y_norm)))
        InvalidNormalizedCoordinate;
  _ ← ensure (f64_is_finite e.(ie_wheel_delta_x) && f64_is_finite e.(ie_wheel_delta_y))
        InvalidWheelDelta;
  ensure (negb ((e.(ie_input_kind) =! ReleaseAllKeys)
                && (bool_decide (is_Some e.(ie_text))
                    || bool_decide (is_Some e.(ie_composition_text)))))
    UnexpectedText.

(** ** Pressed keys *)

Inductive InputApplyResult :=
| ForwardInput | KeyPressed | KeyReleased | ReleasedAll (count : Z).
#[global] Instance InputApplyResult_eq_dec : EqDecision InputApplyResult.
Proof. solve_decision. Defined.

Inductive InputStateError := InvalidEvent | KeyNotPressed.
#[global] Instance InputStateError_eq_dec : EqDecision InputStateError.
Proof. solve_decision. Defined.

Record InputState := { pressed_keys : gset Z }.
Definition input_state_default : InputState := {| pressed_keys := ∅ |}.

Definition pressed_count (s : InputState) : Z := Z.of_nat (size s.(pressed_keys)).

Definition release_all (s : InputState) : InputApplyResult * InputState :=
  (ReleasedAll (pressed_count s), {| pressed_keys := ∅ |}).

Definition input_apply (s : InputState) (e : InputEvent)
    : result InputStateError InputApplyResult * InputState :=
  match event_validate e with
  | Err _ => (Err InvalidEvent, s)
  | Ok _ =>
      if e.(ie_input_kind) =! ReleaseAllKeys then
        let '(r, s) := release_all s in (Ok r, s)
      else if e.(ie_input_kind) ≠! PhysicalKey then (Ok ForwardInput, s)
      else
        let key := e.(ie_key_code) in
        if key =? 0 then (Err InvalidEvent, s)
        else match e.(ie_key_event_kind) with
        | Some KeyDown => (Ok KeyPressed, {| pressed_keys := {[key]} ∪ s.(pressed_keys) |})
        | Some KeyRepeat =>
            (if bool_decide (key ∈ s.(pressed_keys)) then Ok ForwardInput else Err KeyNotPressed, s)
        | Some KeyUp | Some KeyTap =>
            if bool_decide (key ∈ s.(pressed_keys))
            then (Ok KeyReleased, {| pressed_keys := s.(pressed_keys) ∖ {[key]} |})
            else (Err KeyNotPressed, s)
        | None => (Err InvalidEvent, s)
        end
  end.

(** ** A reference: which keys a history of events holds down *)

Definition key_down (k : Z) (e : InputEvent) : bool :=
  is_ok (event_validate e) && (e.(ie_input_kind) =! PhysicalKey) && negb (e.(ie_key_code) =? 0)
  && (e.(ie_key_code) =? k) && (e.(ie_key_event_kind) =! Some KeyDown).

Definition key_up (k : Z) (e : InputEvent) : bool :=
  is_ok (event_validate e) &&
  ((e.(ie_input_kind) =! ReleaseAllKeys)
   || ((e.(ie_input_kind) =! PhysicalKey) && negb (e.(ie_key_code) =? 0) && (e.(ie_key_code) =? k)
       && ((e.(ie_key_event_kind) =! Some KeyUp) || (e.(ie_key_event_kind) =! Some KeyTap)))).

(** Key [k] is held after [es] (newest event first) when the newest event that
    presses or releases it presses it. *)
Fixpoint held (k : Z) (es : list InputEvent) : bool :=
  match es with
  | [] => false
  | e :: es => if key_down k e then true else if key_up k e then false else held k es
  end.

(** The state after a history, newest event first. *)
Fixpoint input_history (es : list InputEvent) : InputState :=
  match es with
  | [] => input_state_default
  | e :: es => (input_apply (input_history es) e).2
  end.

Lemma input_apply_held s e k :
  bool_decide (k ∈ (input_apply s e).2.(pressed_keys)) =
  if key_down k e then true else if key_up k e then false else bool_decide (k ∈ s.(pressed_keys)).
Proof.
  unfold input_apply, key_down, key_up. destruct (event_validate e) as [u|]; [|done]. cbn [is_ok andb].
  destruct (ie_input_kind e); cbn; try done.
  destruct (Z.eqb_spec (ie_key_code e) 0) as [->|?]; [done|]. cbn.
  destruct (Z.eqb_spec (ie_key_code e) k) as [<-|?]; cbn;
    destruct (ie_key_event_kind e) as [[]|]; cbn; repeat case_bool_decide; cbn; set_solver.
Qed.

Lemma input_history_held es k :
  bool_decide (k ∈ (input_history es).(pressed_keys)) = held k es.
Proof.
  induction es as [|e es IH]; [by rewrite bool_decide_eq_false_2 by set_solver|].
  cbn [input_history held]. by rewrite input_apply_held, IH.
Qed.

(** The set of pressed keys is exactly the set of keys that the history of
    events holds down, for every history; so releasing all keys after it reports
    their number and leaves none held. *)
Theorem pressed_keys_are_held es k :
  (k ∈ (input_history es).(pressed_keys) ↔ held k es = true) ∧
  release_all (input_history es) =
    (ReleasedAll (Z.of_nat (size (input_history es).(pressed_keys))), input_state_default).
Proof.
  split; [|done]. rewrite <-input_history_held. by rewrite bool_decide_eq_true.
Qed.
