(* ===== verification/Controller.v ===== *)
(** * The controller session

    Models crates/remote-core/src/controller/mod.rs: the state machine of the
    controlling side over an abstract transport. The transport is the trait
    [ControllerTransport], here a class; the theorems hold for every instance.
    JSON serialization of input events ([serde_json::to_vec]) is a parameter. *)

From S2P Require Import Prelude Header Input.

Definition MAX_H264_ACCESS_UNIT_BYTES : Z := 32 * 1024 * 1024.

Inductive ControllerSessionState := Idle | Connecting | Streaming | Reconnecting | Closed.
#[global] Instance ControllerSessionState_eq_dec : EqDecision ControllerSessionState.
Proof. solve_decision. Defined.

Record H264AccessUnit := {
  h264_data : bytes; h264_presentation_time : Z; h264_is_keyframe : bool; h264_frame_id : Z }.

Inductive ControllerTransportError := Unavailable (message : rstr) | TransportClosed.
#[global] Instance ControllerTransportError_eq_dec : EqDecision ControllerTransportError.
Proof. solve_decision. Defined.

Inductive ControllerSessionError :=
| InvalidState | InvalidInput | InputSessionMismatch | InvalidAccessUnit | Serialization
| Transport (e : ControllerTransportError).
#[global] Instance ControllerSessionError_eq_dec : EqDecision ControllerSessionError.
Proof. solve_decision. Defined.

(** [slice.starts_with(prefix)]. *)
Definition starts_with (p l : bytes) : bool := take (length p) l =! p.

(** [H264AccessUnit::validate]. *)
Definition h264_validate (a : H264AccessUnit) : result ControllerSessionError unit :=
  _ ← ensure (negb ((a.(h264_data) =! []) || (MAX_H264_ACCESS_UNIT_BYTES <? len a.(h264_data))))
        InvalidAccessUnit;
  ensure (starts_with [x00; x00; x01] a.(h264_data)
          || starts_with [x00; x00; x00; x01] a.(h264_data)) InvalidAccessUnit.

Inductive ControllerSessionEvent :=
| StateChanged (s : ControllerSessionState)
| EventH264 (a : H264AccessUnit)
| RecoverableTransportError (reason : rstr)
| FatalTransportError (reason : rstr).

Inductive ControllerTransportEvent :=
| Connected
| TransportH264 (a : H264AccessUnit)
| Disconnected (recoverable : bool) (reason : rstr)
| ClosedEvent.

Inductive InputDelivery := Realtime | Reliable.

(** The trait: each method may change the transport and may fail. *)
Class ControllerTransport (T : Type) := {
  transport_start : T → Z → result ControllerTransportError unit * T;
  transport_send_input : T → bytes → InputDelivery → result ControllerTransportError unit * T;
  transport_close : T → result ControllerTransportError unit * T }.

Section session.
Context {T : Type} `{TT : ControllerTransport T}.
(** [serde_json::to_vec]. *)
Context (to_json : InputEvent → option bytes).

Record ControllerSession := {
  cs_session_id : Z;
  cs_transport : T;
  cs_state : ControllerSessionState;
  cs_connection_epoch : Z;
  cs_events : list ControllerSessionEvent;
  cs_close_started : bool }.

Definition controller_new (session_id : Z) (transport : T) : ControllerSession :=
  {| cs_session_id := session_id; cs_transport := transport; cs_state := Idle;
     cs_connection_epoch := 0; cs_events := []; cs_close_started := false |}.

(** Assignments. *)
Definition push_event (s : ControllerSession) (e : ControllerSessionEvent) : ControllerSession :=
  {| cs_session_id := s.(cs_session_id); cs_transport := s.(cs_transport);
     cs_state := s.(cs_state); cs_connection_epoch := s.(cs_connection_epoch);
     cs_events := s.(cs_events) ++ [e]; cs_close_started := s.(cs_close_started) |}.
Definition set_transport (s : ControllerSession) (t : T) : ControllerSession :=
  {| cs_session_id := s.(cs_session_id); cs_transport := t;
     cs_state := s.(cs_state); cs_connection_epoch := s.(cs_connection_epoch);
     cs_events := s.(cs_events); cs_close_started := s.(cs_close_started) |}.
Definition next_epoch (s : ControllerSession) : ControllerSession :=
  {| cs_session_id := s.(cs_session_id); cs_transport := s.(cs_transport);
     cs_state := s.(cs_state); cs_connection_epoch := sat_add 64 s.(cs_connection_epoch) 1;
     cs_events := s.(cs_events); cs_close_started := s.(cs_close_started) |}.
Definition start_close (s : ControllerSession) : ControllerSession :=
  {| cs_session_id := s.(cs_session_id); cs_transport := s.(cs_transport);
     cs_state := s.(cs_state); cs_connection_epoch := s.(cs_connection_epoch);
     cs_events := s.(cs_events); cs_close_started := true |}.

Definition transition_to (s : ControllerSession) (state : ControllerSessionState)
    : ControllerSession :=
  if s.(cs_state) =! state then s
  else push_event
    {| cs_session_id := s.(cs_session_id); cs_transport := s.(cs_transport);
       cs_state := state; cs_connection_epoch := s.(cs_connection_epoch);
       cs_events := s.(cs_events); cs_close_started := s.(cs_close_started) |}
    (StateChanged state).

Definition controller_close (s : ControllerSession)
    : result ControllerSessionError unit * ControllerSession :=
  if s.(cs_close_started) then (Ok tt, s)
  else
    let s := next_epoch (start_close s) in
    let '(close_result, t) := transport_close s.(cs_transport) in
    let s := transition_to (set_transport s t) Closed in
    (map_err Transport close_result, s).

Definition fail_transport (s : ControllerSession) (e : ControllerTransportError)
    : ControllerSession :=
  let message := match e with
                 | Unavailable m => m
                 | TransportClosed => str "transport closed"
                 end in
  (controller_close (push_event s (FatalTransportError message))).2.

(** The common tail of [connect] and [restart_transport]. *)
Definition start_transport (s : ControllerSession)
    : result ControllerSessionError unit * ControllerSession :=
  let '(r, t) := transport_start s.(cs_transport) s.(cs_connection_epoch) in
  let s := set_transport s t in
  match r with
  | Err e => (Err (Transport e), fail_transport s e)
  | Ok _ => (Ok tt, s)
  end.

Definition controller_connect (s : ControllerSession)
    : result ControllerSessionError Z * ControllerSession :=
  if (s.(cs_state) ≠! Idle) || s.(cs_close_started) then (Err InvalidState, s)
  else
    let s := transition_to (next_epoch s) Connecting in
    let '(r, s) := start_transport s in
    (match r with Ok _ => Ok s.(cs_connection_epoch) | Err e => Err e end, s).

Definition restart_transport (s : ControllerSession)
    : result ControllerSessionError unit * ControllerSession :=
  match s.(cs_state) with
  | Connecting | Streaming | Reconnecting =>
      start_transport (transition_to (next_epoch s) Reconnecting)
  | _ => (Err InvalidState, s)
  end.

Definition handle_transport_event (s : ControllerSession) (connection_epoch : Z)
    (event : ControllerTransportEvent) : result ControllerSessionError unit * ControllerSession :=
  if s.(cs_close_started) || (connection_epoch ≠! s.(cs_connection_epoch)) then (Ok tt, s)
  else match event with
  | Connected =>
      match s.(cs_state) with
      | Connecting | Reconnecting => (Ok tt, transition_to s Streaming)
      | _ => (Err InvalidState, s)
      end
  | TransportH264 access_unit =>
      if s.(cs_state) ≠! Streaming then (Ok tt, s)
      else match h264_validate access_unit with
      | Err e => (Err e, s)
      | Ok _ => (Ok tt, push_event s (EventH264 access_unit))
      end
  | Disconnected recoverable reason =>
      if recoverable then restart_transport (push_event s (RecoverableTransportError reason))
      else controller_close (push_event s (FatalTransportError reason))
  | ClosedEvent => controller_close s
  end.

Definition send_input (s : ControllerSession) (event : InputEvent)
    : result ControllerSessionError unit * ControllerSession :=
  let checks :=
    _ ← ensure (negb ((s.(cs_state) ≠! Streaming) || s.(cs_close_started))) InvalidState;
    _ ← ensure (event.(ie_session_id) =! s.(cs_session_id)) InputSessionMismatch;
    _ ← map_err (λ _, InvalidInput) (event_validate event);
    ok_or (to_json event) Serialization in
  match checks with
  | Err e => (Err e, s)
  | Ok payload =>
      let delivery := if event.(ie_input_kind) =! MouseMove then Realtime else Reliable in
      let '(r, t) := transport_send_input s.(cs_transport) payload delivery in
      (map_err Transport r, set_transport s t)
  end.

Definition poll_event (s : ControllerSession) : option ControllerSessionEvent * ControllerSession :=
  match s.(cs_events) with
  | [] => (None, s)
  | e :: es =>
      (Some e, {| cs_session_id := s.(cs_session_id); cs_transport := s.(cs_transport);
                  cs_state := s.(cs_state); cs_connection_epoch := s.(cs_connection_epoch);
                  cs_events := es; cs_close_started := s.(cs_close_started) |})
  end.

(** [Drop::drop]: what is left of the session is its transport. *)
Definition controller_drop (s : ControllerSession) : T :=
  if s.(cs_close_started) then s.(cs_transport) else (transport_close s.(cs_transport)).2.

(** ** Sequences of calls *)

Inductive ControllerOp :=
| DoConnect | DoEvent (epoch : Z) (e : ControllerTransportEvent) | DoSend (e : InputEvent)
| DoPoll | DoClose.

(** The state after a call, and the event it polled. *)
Definition controller_step (s : ControllerSession) (op : ControllerOp)
    : list ControllerSessionEvent * ControllerSession :=
  match op with
  | DoConnect => ([], (controller_connect s).2)
  | DoEvent n e => ([], (handle_transport_event s n e).2)
  | DoSend e => ([], (send_input s e).2)
  | DoPoll => let '(o, s) := poll_event s in (option_list o, s)
  | DoClose => ([], (controller_close s).2)
  end.

(** The events polled by a sequence of calls, and the final state. *)
Fixpoint controller_run (s : ControllerSession) (ops : list ControllerOp)
    : list ControllerSessionEvent * ControllerSession :=
  match ops with
  | [] => ([], s)
  | op :: ops =>
      let '(e, s) := controller_step s op in
      let '(es, s) := controller_run s ops in (e ++ es, s)
  end.
End session.
#[global] Arguments ControllerSession : clear implicits.

(** ** The event stream *)

Definition may_follow (a b : ControllerSessionState) : bool :=
  match a, b with
  | Idle, (Connecting | Closed)
  | Connecting, (Streaming | Reconnecting | Closed)
  | Streaming, (Reconnecting | Closed)
  | Reconnecting, (Streaming | Closed) => true
  | _, _ => false
  end.

(** What an observer may see next when the last announced state is [st]:
    nothing after [Closed], video only while streaming, and only announced
    states that may follow. *)
Definition event_next (st : ControllerSessionState) (e : ControllerSessionEvent)
    : option ControllerSessionState :=
  match st, e with
  | Closed, _ => None
  | _, StateChanged st' => if may_follow st st' then Some st' else None
  | Streaming, EventH264 a => if is_ok (h264_validate a) then Some Streaming else None
  | _, EventH264 _ => None
  | _, RecoverableTransportError _ | _, FatalTransportError _ => Some st
  end.

Fixpoint observe_events (st : ControllerSessionState) (es : list ControllerSessionEvent)
    : option ControllerSessionState :=
  match es with
  | [] => Some st
  | e :: es => match event_next st e with Some st => observe_events st es | None => None end
  end.

Lemma observe_events_app st es fs :
  observe_events st (es ++ fs) =
  match observe_events st es with Some st => observe_events st fs | None => None end.
Proof.
  revert st. induction es as [|e es IH]; intros st; [done|]. cbn.
  by destruct (event_next st e).
Qed.

Section events.
Context {T : Type} `{TT : ControllerTransport T} (to_json : InputEvent → option bytes).
Implicit Types s : ControllerSession T.

(** The queue continues what was already polled; the session is closed exactly
    when closing has started. *)
Record stream_inv (polled : list ControllerSessionEvent) s : Prop := {
  stream_events : observe_events Idle (polled ++ s.(cs_events)) = Some s.(cs_state);
  stream_closed : s.(cs_close_started) = bool_decide (s.(cs_state) = Closed) }.

Lemma push_event_inv polled s e :
  stream_inv polled s → event_next s.(cs_state) e = Some s.(cs_state) →
  stream_inv polled (push_event s e).
Proof.
  intros [He Hc] Hn. split; [|done]. cbn.
  by rewrite app_assoc, observe_events_app, He; cbn; rewrite Hn.
Qed.

Lemma transition_inv polled s st :
  stream_inv polled s → may_follow s.(cs_state) st = true → st ≠ Closed →
  stream_inv polled (transition_to s st).
Proof.
  intros [He Hc] Hf Hst. unfold transition_to.
  destruct (bool_decide (cs_state s = st)); [by split|].
  assert (s.(cs_state) ≠ Closed) by (intros E; by rewrite E in Hf).
  split; cbn.
  - rewrite app_assoc, observe_events_app, He. cbn. by destruct (cs_state s), st.
  - rewrite Hc. by rewrite !bool_decide_eq_false_2.
Qed.

Lemma next_epoch_inv polled s : stream_inv polled s → stream_inv polled (next_epoch s).
Proof. intros [He Hc]. by split. Qed.

Lemma transition_state s st : (transition_to s st).(cs_state) = st.
Proof. unfold transition_to. by case_bool_decide. Qed.

Lemma close_inv polled s : stream_inv polled s → stream_inv polled (controller_close s).2.
Proof.
  intros [He Hc]. unfold controller_close. destruct (cs_close_started s) eqn:E; [split; [done|exact (eq_trans E Hc)]|].
  assert (s.(cs_state) ≠ Closed) by (symmetry in Hc; by apply bool_decide_eq_false_1 in Hc).
  destruct (transport_close _) as [r t]. cbn. unfold transition_to. cbn.
  rewrite bool_decide_eq_false_2 by done. split; cbn; [|done].
  rewrite app_assoc, observe_events_app, He. cbn. by destruct (cs_state s).
Qed.

Lemma start_transport_inv polled s :
  stream_inv polled s → s.(cs_state) ≠ Closed → stream_inv polled (start_transport s).2.
Proof.
  intros Hs Hn. unfold start_transport. destruct (transport_start _ _) as [[u|e] t]; cbn.
  - destruct Hs. by split.
  - unfold fail_transport. apply close_inv, push_event_inv; [destruct Hs; by split|].
    cbn. by destruct (cs_state s).
Qed.

Lemma restart_inv polled s : stream_inv polled s → stream_inv polled (restart_transport s).2.
Proof.
  intros Hs. unfold restart_transport. destruct (cs_state s) eqn:Est; try done;
    (apply start_transport_inv; [|by rewrite transition_state]).
  - apply transition_inv; [by apply next_epoch_inv|cbn; by rewrite Est|done].
  - apply transition_inv; [by apply next_epoch_inv|cbn; by rewrite Est|done].
  - unfold transition_to. cbn. rewrite Est. by apply next_epoch_inv.
Qed.

Lemma step_inv polled s op :
  stream_inv polled s →
  stream_inv (polled ++ (controller_step to_json s op).1) (controller_step to_json s op).2.
Proof.
  intros Hs. destruct op as [|n e|e| |]; cbn; rewrite ?app_nil_r.
  - unfold controller_connect. destruct (cs_state s) eqn:Est; cbn; try done.
    destruct (cs_close_started s); [done|].
    destruct (start_transport _) as [r s'] eqn:E. cbn. change s' with (r, s').2. rewrite <-E.
    apply start_transport_inv; [|by rewrite transition_state].
    apply transition_inv; [by apply next_epoch_inv|cbn; by rewrite Est|done].
  - unfold handle_transport_event. destruct (cs_close_started s || _) eqn:Eg; [done|].
    apply orb_false_iff in Eg as [Ecl _].
    assert (s.(cs_state) ≠ Closed) as Hn.
    { destruct Hs as [_ Hc]. rewrite Ecl in Hc. symmetry in Hc; by apply bool_decide_eq_false_1 in Hc. }
    destruct e as [|a|[] reason|]; cbn.
    + destruct (cs_state s) eqn:Est; cbn; try done;
        (apply transition_inv; [done|by rewrite Est|done]).
    + case_bool_decide as Est; cbn; [|done]. destruct (h264_validate a) eqn:Eh; cbn; [|done].
      apply push_event_inv; [done|]. rewrite Est. cbn. by rewrite Eh.
    + assert (stream_inv polled (push_event s (RecoverableTransportError reason))) as Hp.
      { apply push_event_inv; [done|]. by destruct (cs_state s). }
      by apply restart_inv.
    + apply close_inv, push_event_inv; [done|]. by destruct (cs_state s).
    + by apply close_inv.
  - unfold send_input. repeat case_match; try done; destruct Hs; by split.
  - unfold poll_event. destruct Hs as [He Hc].
    destruct (cs_events s) as [|e es] eqn:Ee; cbn; rewrite ?app_nil_r.
    + split; [by rewrite Ee|done].
    + split; cbn; [|done]. by rewrite <-app_assoc.
  - by apply close_inv.
Qed.

Lemma controller_run_cons s op ops :
  controller_run to_json s (op :: ops) =
  ((controller_step to_json s op).1 ++ (controller_run to_json (controller_step to_json s op).2 ops).1,
   (controller_run to_json (controller_step to_json s op).2 ops).2).
Proof.
  cbn [controller_run]. destruct (controller_step to_json s op) as [e s']. cbn [fst snd].
  by destruct (controller_run to_json s' ops).
Qed.

Lemma run_inv polled s ops :
  stream_inv polled s →
  stream_inv (polled ++ (controller_run to_json s ops).1) (controller_run to_json s ops).2.
Proof.
  revert polled s. induction ops as [|op ops IH]; intros polled s Hs; [by rewrite app_nil_r|].
  rewrite controller_run_cons. cbn [fst snd]. rewrite app_assoc. by apply IH, step_inv.
Qed.
End events.

(** ** The calls the transport sees *)

Inductive TransportCall := CallStart (epoch : Z) | CallSend (p : bytes) (d : InputDelivery) | CallClose.

(** Any transport, with a log of the calls made on it. *)
Record Recorder (T : Type) := { rec_inner : T; rec_log : list TransportCall }.
Arguments rec_inner {T} _.
Arguments rec_log {T} _.

Definition record_call {T A} (r : Recorder T) (c : TransportCall) (x : A * T) : A * Recorder T :=
  (x.1, {| rec_inner := x.2; rec_log := r.(rec_log) ++ [c] |}).

#[global] Instance recorder_transport {T} `{ControllerTransport T} :
    ControllerTransport (Recorder T) := {|
  transport_start r e := record_call r (CallStart e) (transport_start r.(rec_inner) e);
  transport_send_input r p d :=
    record_call r (CallSend p d) (transport_send_input r.(rec_inner) p d);
  transport_close r := record_call r CallClose (transport_close r.(rec_inner)) |}.

Definition start_epochs (cs : list TransportCall) : list Z :=
  omap (λ c, match c with CallStart e => Some e | _ => None end) cs.

(** The epochs of the first [n] starts: 1, 2, 3, ..., saturating at [u64::MAX]. *)
Definition first_epochs (n : nat) : list Z :=
  (λ i, Z.min (Z.of_nat i) (u_max 64)) <$> seq 1 n.

Lemma first_epochs_S n : first_epochs (S n) = first_epochs n ++ [Z.min (Z.of_nat (S n)) (u_max 64)].
Proof. unfold first_epochs. by rewrite seq_S, fmap_app. Qed.

Definition first_call_starts (cs : list TransportCall) : bool :=
  match cs with [] => true | CallStart e :: _ => e =? 1 | _ => false end.

(** What may have been called while the session is open: starts with successive
    epochs, before anything else, and no close. *)
Definition open_calls (n : nat) (cs : list TransportCall) : Prop :=
  (CallClose ∉ cs) ∧ start_epochs cs = first_epochs n ∧ first_call_starts cs = true ∧
  (n = 0%nat → cs = []).

Lemma start_epochs_app cs c : start_epochs (cs ++ [c]) = start_epochs cs ++ start_epochs [c].
Proof. apply omap_app. Qed.

Lemma open_calls_start n cs :
  open_calls n cs → open_calls (S n) (cs ++ [CallStart (Z.min (Z.of_nat (S n)) (u_max 64))]).
Proof.
  intros (Hc & He & Hf & H0). split; [set_solver|]. split; [|split; [|done]].
  - by rewrite start_epochs_app, He, first_epochs_S.
  - destruct cs; [|done]. cbn in He. destruct n; [done|by rewrite first_epochs_S in He; destruct (first_epochs n)].
Qed.

Lemma open_calls_send n cs p d :
  open_calls n cs → n ≠ 0%nat → open_calls n (cs ++ [CallSend p d]).
Proof.
  intros (Hc & He & Hf & H0) Hn. split; [set_solver|]. split; [|split; [|done]].
  - rewrite start_epochs_app, He. apply app_nil_r.
  - destruct cs as [|[] ?]; try done. destruct n; [done|].
    rewrite first_epochs_S in He. by destruct (first_epochs n).
Qed.

Section discipline.
Context {T : Type} `{TT : ControllerTransport T} (to_json : InputEvent → option bytes).
Implicit Types s : ControllerSession (Recorder T).

(** Open: the calls are those of [n] starts and the epoch is that of the last
    one, [Idle] meaning no start. Closed: one close has been called, last. *)
Definition calls_inv s : Prop :=
  if s.(cs_close_started)
  then ∃ n cs, s.(cs_transport).(rec_log) = cs ++ [CallClose] ∧ open_calls n cs
  else ∃ n, open_calls n s.(cs_transport).(rec_log) ∧
            s.(cs_connection_epoch) = Z.min (Z.of_nat n) (u_max 64) ∧
            (s.(cs_state) = Idle ↔ n = 0%nat).

Lemma calls_push_event s e : calls_inv s → calls_inv (push_event s e).
Proof. done. Qed.

Lemma calls_transition s st :
  calls_inv s → (s.(cs_state) = Idle ↔ st = Idle) → calls_inv (transition_to s st).
Proof.
  intros Hs Hst. unfold transition_to. destruct (bool_decide _); [done|].
  unfold calls_inv in *. cbn. destruct (cs_close_started s); [done|].
  destruct Hs as (n & ? & ? & ?). exists n. split_and!; [done..|]. by rewrite <-Hst.
Qed.

Lemma calls_close s : calls_inv s → calls_inv (controller_close s).2.
Proof.
  intros Hs. unfold controller_close. destruct (cs_close_started s) eqn:E; [done|].
  unfold calls_inv in *. rewrite E in Hs. destruct Hs as (n & Ho & _).
  cbn. unfold transition_to. cbn. destruct (bool_decide _); cbn; eauto.
Qed.

(** Starting in a session whose epoch has just been advanced. *)
Lemma calls_start s st :
  calls_inv s → s.(cs_close_started) = false → st ≠ Idle →
  calls_inv (start_transport (transition_to (next_epoch s) st)).2.
Proof.
  intros Hs Ho Hst. unfold calls_inv in Hs. rewrite Ho in Hs. destruct Hs as (n & Hc & He & Hi).
  set (s1 := transition_to (next_epoch s) st).
  assert (s1.(cs_transport) = s.(cs_transport) ∧ s1.(cs_close_started) = false ∧
    s1.(cs_connection_epoch) = Z.min (Z.of_nat (S n)) (u_max 64) ∧ s1.(cs_state) = st)
    as (Ht & Hcl & Hep & Hs1).
  { unfold s1, transition_to. destruct (bool_decide _) eqn:Eb; cbn in *.
    - apply bool_decide_eq_true_1 in Eb. rewrite He. unfold sat_add, u_max in *. split_and!; try done. lia.
    - rewrite He. unfold sat_add, u_max in *. split_and!; try done. lia. }
  assert (∀ u, calls_inv (set_transport s1
    {| rec_inner := u; rec_log := rec_log s1.(cs_transport) ++ [CallStart s1.(cs_connection_epoch)] |})) as Hok.
  { intros u. unfold calls_inv. cbn. rewrite Hcl, Ht, Hep, Hs1. exists (S n).
    split; [by apply open_calls_start|]. split; [done|]. split; [done|lia]. }
  unfold start_transport. cbn. destruct (transport_start _ _) as [[?|e] u]; cbn.
  - apply Hok.
  - apply calls_close, calls_push_event, Hok.
Qed.

Lemma calls_step s op : calls_inv s → calls_inv (controller_step to_json s op).2.
Proof.
  intros Hs. destruct op as [|n e|e| |]; cbn.
  - unfold controller_connect. destruct (bool_decide (cs_state s = Idle)) eqn:Ei; [|done].
    destruct (cs_close_started s) eqn:Ec; [done|]. cbn [negb orb].
    pose proof (calls_start s Connecting Hs Ec ltac:(done)) as Hst.
    by destruct (start_transport (transition_to (next_epoch s) Connecting)) as [r s'].
  - unfold handle_transport_event. destruct (cs_close_started s || _) eqn:Eg; [done|].
    apply orb_false_iff in Eg as [Ec _].
    destruct e as [|a|[] reason|]; cbn.
    + destruct (cs_state s) eqn:Est; try done; (apply calls_transition; [done|by rewrite Est]).
    + destruct (bool_decide _); [|done]. by destruct (h264_validate a).
    + unfold restart_transport. cbn. destruct (cs_state s); try done; by apply calls_start.
    + by apply calls_close.
    + by apply calls_close.
  - unfold send_input. destruct (_ ≫= _) as [payload|] eqn:E; [|done]. invert_ok.
    destruct (cs_close_started s) eqn:Ec; [done|]. cbn in *.
    destruct (cs_state s) eqn:Est; try done.
    unfold calls_inv in *. cbn. rewrite Ec in *. destruct Hs as (n & Ho & He & Hi).
    exists n. rewrite Est in *. split; [|done]. apply open_calls_send; [done|].
    intros ->. discriminate (proj2 Hi eq_refl).
  - unfold poll_event. by destruct (cs_events s).
  - by apply calls_close.
Qed.

Lemma calls_run s ops : calls_inv s → calls_inv (controller_run to_json s ops).2.
Proof.
  revert s. induction ops as [|op ops IH]; intros s Hs; [done|].
  rewrite controller_run_cons. by apply IH, calls_step.
Qed.

Lemma calls_drop s :
  calls_inv s → ∃ n cs, (controller_drop s).(rec_log) = cs ++ [CallClose] ∧ open_calls n cs.
Proof.
  unfold calls_inv, controller_drop. destruct (cs_close_started s); [done|].
  intros (n & Ho & _). cbn. eauto.
Qed.
End discipline.

(** ** Theorems *)

(** For every transport and every sequence of calls, the events a session
    has delivered followed by those still queued form a valid history that ends
    in the current state: states change only along the edges of the state
    machine, video is announced only while streaming and only for valid access
    units, and nothing is announced after [Closed], which is reached exactly
    when closing has started. *)
Theorem controller_event_stream {T} `{ControllerTransport T} to_json session_id (t : T) ops :
  let '(polled, s) := controller_run to_json (controller_new session_id t) ops in
  observe_events Idle (polled ++ s.(cs_events)) = Some s.(cs_state) ∧
  (s.(cs_close_started) = true ↔ s.(cs_state) = Closed).
Proof.
  assert (stream_inv [] (controller_new session_id t)) as Hi by by split.
  apply (run_inv to_json _ _ ops) in Hi.
  destruct (controller_run _ _ _) as [polled s]. destruct Hi as [He Hc]. cbn in *.
  split; [done|]. rewrite Hc. apply bool_decide_eq_true.
Qed.

(** Over the life of a session, drop included, the transport is started
    with the epochs 1, 2, 3, ... (saturating at [u64::MAX]) before anything is
    sent, and is closed exactly once, as its last call. *)
Theorem transport_call_discipline {T} `{ControllerTransport T} to_json session_id (t : T) ops :
  let s := (controller_run to_json
              (controller_new session_id {| rec_inner := t; rec_log := [] |}) ops).2 in
  ∃ n cs, (controller_drop s).(rec_log) = cs ++ [CallClose] ∧ (CallClose ∉ cs) ∧
          start_epochs cs = first_epochs n ∧ first_call_starts cs = true.
Proof.
  intros s. destruct (calls_drop s) as (n & cs & Hl & Ho).
  - apply calls_run. exists 0%nat. split; [|done]. split; [set_solver|done].
  - destruct Ho as (? & ? & ? & _). exists n, cs. done.
Qed.

(** A transport event of an earlier connection, or one that arrives after
    closing has started, changes nothing: no state, no event, no call on the
    transport. *)
Theorem stale_transport_event_ignored {T} `{ControllerTransport T} (s : ControllerSession T) n e :
  s.(cs_close_started) = true ∨ n ≠ s.(cs_connection_epoch) →
  handle_transport_event s n e = (Ok tt, s).
Proof.
  intros Hs. unfold handle_transport_event.
  destruct Hs as [->|Hn]; [done|]. by rewrite bool_decide_eq_false_2, orb_true_r.
Qed.

(** A transport that always succeeds, for concrete runs. *)
Definition null_transport : ControllerTransport unit := {|
  transport_start t _ := (Ok tt, t);
  transport_send_input t _ _ := (Ok tt, t);
  transport_close t := (Ok tt, t) |}.

Lemma stale_transport_event_ignored_witness :
  let s := (@controller_run unit null_transport (λ _, None) (controller_new 5 tt)
              [DoConnect; DoEvent 1 Connected; DoEvent 1 (Disconnected true [])]).2 in
  s.(cs_state) = Reconnecting ∧
  @handle_transport_event unit null_transport s 1 ClosedEvent = (Ok tt, s).
Proof.
  intros s. split; [reflexivity|].
  apply (@stale_transport_event_ignored unit null_transport). right. vm_compute. congruence.
Defined.

Example controller_happy_path :
  (@controller_run unit null_transport (λ _, None) (controller_new 5 tt)
     [DoConnect; DoPoll; DoEvent 1 Connected; DoPoll; DoEvent 1 (Disconnected true (str "x"));
      DoPoll; DoPoll; DoEvent 2 Connected; DoEvent 1 ClosedEvent; DoClose; DoPoll; DoPoll; DoPoll]).1
  = [StateChanged Connecting; StateChanged Streaming; RecoverableTransportError (str "x");
     StateChanged Reconnecting; StateChanged Streaming; StateChanged Closed].
Proof. reflexivity. Qed.
