(* ===== verification/Reboot.v ===== *)
(** * Resume tokens

    Models crates/remote-core/src/reboot.rs: the token that lets a session
    resume after a reboot. Slicing a string inside a character panics in Rust,
    so hexadecimal decoding, and with it [verify], may panic. *)

From S2P Require Import Prelude Text Primitives.

Inductive RebootState := RebootRequested | RebootAccepted | RebootCancelled | RebootExecuted | RebootResumed.

Inductive ResumeTokenError := Malformed | Mismatch | Consumed.
#[global] Instance ResumeTokenError_eq_dec : EqDecision ResumeTokenError.
Proof. solve_decision. Defined.

Record ResumeToken := { token_id : rstr; token_secret_hash : bytes }.

Definition hex (bs : bytes) : rstr := flat_map hex_byte bs.

(** Two bytes at a time: [&value[index..index + 2]] panics when it ends inside a
    character (each slice starts where the previous one ended), and the first
    pair that is not a number ends the iteration. *)
Fixpoint decode_hex_pairs (value : rstr) : may_panic (option bytes) :=
  match value with
  | a :: b :: rest =>
      if boundary_before rest then
        match u8_from_hex2 a b with
        | None => Return None
        | Some x =>
            r ← decode_hex_pairs rest;
            Return (option_map (cons x) r)
        end
      else Panic
  | _ => Return (Some [])
  end.

Definition decode_hex (value : rstr) : may_panic (option bytes) :=
  if len value mod 2 =? 0 then decode_hex_pairs value else Return None.

Section token.
Context `{P : Primitives}.

Definition token_issue (id : rstr) (secret : bytes) : result ResumeTokenError (ResumeToken * rstr) :=
  if (id =! []) || (secret =! []) || contains_byte x2e id then Err Malformed
  else Ok ({| token_id := id; token_secret_hash := sha256 secret |}, id ++ x2e :: hex secret).

Definition token_verify (t : ResumeToken) (token : rstr) : may_panic (result ResumeTokenError unit) :=
  match split_once x2e token with
  | None => Return (Err Malformed)
  | Some (id, secret) =>
      if (id ≠! t.(token_id)) || (secret =! []) then Return (Err Mismatch)
      else
        d ← decode_hex secret;
        match d with
        | None => Return (Err Malformed)
        | Some decoded =>
            Return (if t.(token_secret_hash) =! sha256 decoded then Ok tt else Err Mismatch)
        end
  end.
End token.

(** ** Lemmas *)

Lemma hex_length bs : length (hex bs) = (2 * length bs)%nat.
Proof. induction bs as [|b bs IH]; cbn; [done|]. unfold hex in IH. rewrite IH. lia. Qed.

Lemma hex_boundary bs : boundary_before (hex bs) = true.
Proof.
  destruct bs as [|b bs]; [done|]. pose proof (hex_digits_ascii b) as H. cbn in *.
  apply andb_true_iff in H as [H _]. unfold is_continuation. split_bools.
  destruct (Z.leb_spec 128 (byte_val (hex_digit (byte_val b / 16)))); [lia|done].
Qed.

Lemma decode_hex_pairs_hex bs : decode_hex_pairs (hex bs) = Return (Some bs).
Proof.
  induction bs as [|b bs IH]; [done|].
  change (hex (b :: bs)) with (hex_byte b ++ hex bs). unfold hex_byte. cbn [app decode_hex_pairs].
  rewrite hex_boundary, u8_from_hex_byte, IH. done.
Qed.

Lemma decode_hex_hex bs : decode_hex (hex bs) = Return (Some bs).
Proof.
  unfold decode_hex, len. rewrite hex_length, Nat2Z.inj_mul, Z.mul_comm, Z.mod_mul by done.
  apply decode_hex_pairs_hex.
Qed.

Lemma decode_hex_ascii value :
  Forall (λ b, byte_val b < 128) value → ∃ d, decode_hex value = Return d.
Proof.
  intros Ha. unfold decode_hex. destruct (_ =? _); [|eauto].
  remember (length value) as n eqn:Hn. assert (length value ≤ n)%nat as Hle by lia. clear Hn.
  revert value Ha Hle. induction n as [|n IH]; intros [|a [|b rest]] Ha Hle; cbn in *; eauto; try lia.
  inversion_clear Ha as [|? ? _ Hb]. inversion_clear Hb as [|? ? _ Hr].
  assert (boundary_before rest = true) as ->.
  { destruct Hr as [|x r Hx _]; [done|]. cbn. unfold is_continuation.
    destruct (Z.leb_spec 128 (byte_val x)); [lia|done]. }
  destruct (u8_from_hex2 a b); [|eauto].
  destruct (IH rest Hr ltac:(lia)) as [d ->]. cbn. eauto.
Qed.

(** ** Theorems *)

(** An issued token verifies, and a token that verifies names the token's
    id and decodes to a secret whose hash is the stored one: the issued secret,
    or a SHA-256 collision with it. *)
Theorem resume_token_roundtrip `{P : Primitives} id secret t token :
  token_issue id secret = Ok (t, token) →
  token_verify t token = Return (Ok tt) ∧
  ∀ token', token_verify t token' = Return (Ok tt) →
    ∃ s d, token' = id ++ x2e :: s ∧ decode_hex s = Return (Some d) ∧
           (d = secret ∨ sha256_collision secret d).
Proof.
  unfold token_issue. intros H. destruct (_ || _) eqn:E; [done|]. invert_ok.
  unfold contains_byte in *. split_bools. unfold token_verify. cbn [token_id token_secret_hash]. split.
  - rewrite split_once_app by done. rewrite bool_decide_eq_true_2 by done. cbn.
    rewrite bool_decide_eq_false_2; cbn.
    + rewrite decode_hex_hex. cbn. by rewrite bool_decide_eq_true_2.
    + by destruct secret.
  - intros token' H. destruct (split_once x2e token') as [[id' s]|] eqn:Es; [|done].
    apply split_once_some in Es as [-> _].
    destruct (_ || _) eqn:Eo; [done|]. split_bools. subst.
    destruct (decode_hex s) as [[d|]|] eqn:Ed; cbn in H; try done.
    case_bool_decide as Hh; [|done]. exists s, d. split_and!; try done.
    apply sha256_equal in Hh as [?|?]; auto.
Qed.

Lemma resume_token_roundtrip_witness :
  ∃ t token, @token_issue toy (str "reboot-1") [x0a; xff] = Ok (t, token) ∧
    token = str "reboot-1.0aff" ∧ @token_verify toy t token = Return (Ok tt).
Proof.
  eexists _, _. split; [vm_compute; reflexivity|]. split; [vm_compute; reflexivity|].
  apply (@resume_token_roundtrip toy (str "reboot-1") [x0a; xff]). vm_compute. reflexivity.
Defined.

(** Verification never panics on an ASCII token; on other tokens it can: a
    two-byte character across a pair boundary of the secret makes the slice
    panic, whatever the stored hash is. *)
Theorem resume_token_panics `{P : Primitives} :
  (∀ t token, Forall (λ b, byte_val b < 128) token → ∃ r, token_verify t token = Return r) ∧
  ∃ token, ∀ h, token_verify {| token_id := str "a"; token_secret_hash := h |} token = Panic.
Proof.
  split.
  - intros t token Ha. unfold token_verify.
    destruct (split_once x2e token) as [[id s]|] eqn:E; [|eauto].
    apply split_once_some in E as [-> _]. destruct (_ || _); [eauto|].
    apply Forall_app in Ha as [_ Ha]. inversion_clear Ha as [|? ? _ Hs].
    destruct (decode_hex_ascii s Hs) as [[d|] ->]; cbn; eauto.
  - exists (str "a." ++ [x61; xc3; xa9; x62]). intros h. vm_compute. reflexivity.
Qed.
