(* ===== verification/Sharing.v ===== *)
(** * Clipboard, privacy mode and file transfer

    Models crates/remote-core/src/clipboard.rs, privacy.rs and file_transfer.rs,
    three small state machines of a session, each in a module of its own. Each
    is related to a reference over the history of its calls. *)

From S2P Require Import Prelude Text Primitives.

Module ClipboardGate.

Inductive ClipboardDirection := ControllerToControlled | ControlledToController.
Inductive ClipboardState := Disabled | Requested | Accepted | Rejected.
#[global] Instance ClipboardState_eq_dec : EqDecision ClipboardState.
Proof. solve_decision. Defined.
Inductive ClipboardError := ErrDisabled | ErrPending | ErrInvalidPayload | ErrTooLarge.

Definition MAX_CLIPBOARD_BYTES : Z := 1024 * 1024.

Record ClipboardGate := { enabled : bool; state : ClipboardState; direction : ClipboardDirection }.

Definition clipboard_new (d : ClipboardDirection) : ClipboardGate :=
  {| enabled := false; state := Disabled; direction := d |}.

Definition set_enabled (g : ClipboardGate) (b : bool) : ClipboardGate :=
  {| enabled := b; state := if b then Requested else Disabled; direction := g.(direction) |}.

Definition respond (g : ClipboardGate) (accepted : bool) : result ClipboardError unit * ClipboardGate :=
  if negb g.(enabled) || (g.(state) ≠! Requested) then (Err ErrPending, g)
  else (Ok tt, {| enabled := g.(enabled); state := if accepted then Accepted else Rejected;
                  direction := g.(direction) |}).

Definition validate_payload (g : ClipboardGate) (payload : bytes) : result ClipboardError unit :=
  _ ← ensure g.(enabled) ErrDisabled;
  _ ← ensure (g.(state) =! Accepted) ErrPending;
  _ ← ensure (payload ≠! []) ErrInvalidPayload;
  ensure (negb (MAX_CLIPBOARD_BYTES <? len payload)) ErrTooLarge.

Inductive ClipboardOp := SetEnabled (b : bool) | Respond (accepted : bool).

Definition clipboard_step (g : ClipboardGate) (op : ClipboardOp) : ClipboardGate :=
  match op with SetEnabled b => set_enabled g b | Respond a => (respond g a).2 end.

Definition clipboard_run (d : ClipboardDirection) (ops : list ClipboardOp) : ClipboardGate :=
  foldl clipboard_step (clipboard_new d) ops.

(** The reference: what the history says about consent. [None]: sharing is off;
    [Some None]: it is on and was not answered; [Some (Some a)]: the first
    answer since it was last turned on is [a]. *)
Definition consent_step (c : option (option bool)) (op : ClipboardOp) : option (option bool) :=
  match op, c with
  | SetEnabled b, _ => if b then Some None else None
  | Respond a, Some None => Some (Some a)
  | Respond _, c => c
  end.

Definition consent (ops : list ClipboardOp) : option (option bool) := foldl consent_step None ops.

Definition gate_of (d : ClipboardDirection) (c : option (option bool)) : ClipboardGate :=
  match c with
  | None => {| enabled := false; state := Disabled; direction := d |}
  | Some None => {| enabled := true; state := Requested; direction := d |}
  | Some (Some a) => {| enabled := true; state := if a then Accepted else Rejected; direction := d |}
  end.

Lemma gate_step d c op : clipboard_step (gate_of d c) op = gate_of d (consent_step c op).
Proof. destruct op as [[]|[]], c as [[[]|]|]; reflexivity. Qed.

Lemma gate_run d ops : clipboard_run d ops = gate_of d (consent ops).
Proof.
  unfold clipboard_run, consent. change (clipboard_new d) with (gate_of d None).
  generalize (@None (option bool)). induction ops as [|op ops IH]; intros c; [done|].
  cbn. by rewrite gate_step, IH.
Qed.

(** Clipboard data passes the gate exactly when sharing is on, the first
    answer since it was last turned on was an acceptance, and the payload has
    between 1 byte and 1 MiB; otherwise the error says which of these failed. *)
Theorem clipboard_needs_consent d ops payload :
  validate_payload (clipboard_run d ops) payload =
  match consent ops with
  | None => Err ErrDisabled
  | Some (Some true) =>
      if len payload =? 0 then Err ErrInvalidPayload
      else if MAX_CLIPBOARD_BYTES <? len payload then Err ErrTooLarge else Ok tt
  | Some _ => Err ErrPending
  end.
Proof.
  rewrite gate_run. destruct (consent ops) as [[[]|]|]; try done.
  unfold validate_payload. destruct payload as [|b p]; [done|]. cbn.
  rewrite len_cons. pose proof (len_nonneg p).
  destruct (Z.eqb_spec (1 + len p) 0); [lia|]. by destruct (_ <? _).
Qed.
End ClipboardGate.

Module PrivacyController.

Inductive PrivacyCapability := Supported | NeedsPermission | NotSupported.
Inductive PrivacyState := Disabled | Enabling | Enabled | Restoring | Failed.
#[global] Instance PrivacyState_eq_dec : EqDecision PrivacyState.
Proof. solve_decision. Defined.
Inductive PrivacyError := Unsupported | PermissionRequired | InvalidState.

Record PrivacyController := { capability : PrivacyCapability; state : PrivacyState }.

Definition privacy_new (c : PrivacyCapability) : PrivacyController :=
  {| capability := c; state := Disabled |}.

Definition set_state (p : PrivacyController) (s : PrivacyState) : PrivacyController :=
  {| capability := p.(capability); state := s |}.

Definition enable (p : PrivacyController) : result PrivacyError unit * PrivacyController :=
  match p.(capability) with
  | NotSupported => (Err Unsupported, p)
  | NeedsPermission => (Err PermissionRequired, p)
  | Supported =>
      if p.(state) =! Disabled then (Ok tt, set_state p Enabled) else (Err InvalidState, p)
  end.

Definition disable (p : PrivacyController) : PrivacyController := set_state p Disabled.
Definition connection_lost (p : PrivacyController) : PrivacyController :=
  if p.(state) =! Enabled then set_state p Restoring else p.
Definition restore_local_state (p : PrivacyController) : PrivacyController :=
  if p.(state) =! Restoring then set_state p Disabled else p.
Definition mark_failed (p : PrivacyController) : PrivacyController := set_state p Failed.
Definition restore_after_failure (p : PrivacyController) : PrivacyController :=
  if p.(state) ≠! Failed then p else set_state p Disabled.

Inductive PrivacyOp :=
| Enable | Disable | ConnectionLost | RestoreLocalState | MarkFailed | RestoreAfterFailure.

Definition privacy_step (p : PrivacyController) (op : PrivacyOp) : PrivacyController :=
  match op with
  | Enable => (enable p).2
  | Disable => disable p
  | ConnectionLost => connection_lost p
  | RestoreLocalState => restore_local_state p
  | MarkFailed => mark_failed p
  | RestoreAfterFailure => restore_after_failure p
  end.

(** The states that can be reached; [Enabling] is never used. *)
Inductive reachable (c : PrivacyCapability) : PrivacyController → Prop :=
| reach_new : reachable c (privacy_new c)
| reach_step p op : reachable c p → reachable c (privacy_step p op).

Definition privacy_ok (c : PrivacyCapability) (p : PrivacyController) : Prop :=
  p.(capability) = c ∧ p.(state) ≠ Enabling ∧
  (p.(state) = Enabled ∨ p.(state) = Restoring → c = Supported).

Lemma privacy_reachable_ok c p : reachable c p → privacy_ok c p.
Proof.
  induction 1 as [|[cap st] op _ (Hc & He & Hs)]; [by split_and!; [..|intros [?|?]]|].
  cbn in Hc. subst cap. destruct op, c, st; unfold privacy_ok; cbn in *;
    (split_and!; [done|done|]); naive_solver.
Qed.

(** In every reachable state of a privacy controller the screen is hidden (or
    its restoration pending) only on a platform that supports it; losing the
    connection never leaves it hidden; and from every reachable state,
    [disable], or the restoration that matches the state, leads back to
    [Disabled]. *)
Theorem privacy_never_stuck c p :
  reachable c p →
  (p.(state) = Enabled ∨ p.(state) = Restoring → c = Supported) ∧
  (connection_lost p).(state) ≠ Enabled ∧
  (disable p).(state) = Disabled ∧
  (restore_after_failure (restore_local_state (connection_lost p))).(state) = Disabled.
Proof.
  intros Hr. apply privacy_reachable_ok in Hr as (_ & He & Hs).
  split; [done|]. destruct p as [cap st]. cbn in *. by destruct st.
Qed.

Lemma privacy_never_stuck_witness :
  let p := privacy_step (privacy_new Supported) Enable in
  p.(state) = Enabled ∧
  (restore_after_failure (restore_local_state (connection_lost p))).(state) = Disabled.
Proof.
  intros p. split; [reflexivity|].
  apply (privacy_never_stuck Supported p). apply reach_step, reach_new.
Defined.
End PrivacyController.

Module FileTransfer.

Definition MAX_FILE_TRANSFER_BYTES : Z := 100 * 1024 * 1024.

Inductive TransferState := Requested | Accepted | Running | Completed | Cancelled | Failed.
#[global] Instance TransferState_eq_dec : EqDecision TransferState.
Proof. solve_decision. Defined.
Inductive FileTransferError := EmptyName | PathTraversal | InvalidName | TooLarge | InvalidState.
#[global] Instance FileTransferError_eq_dec : EqDecision FileTransferError.
Proof. solve_decision. Defined.

Definition validate_file_name (name : rstr) (size : Z) : result FileTransferError unit :=
  _ ← ensure (negb (is_blank name)) EmptyName;
  _ ← ensure (negb (MAX_FILE_TRANSFER_BYTES <? size)) TooLarge;
  _ ← ensure (negb ((name =! str ".") || (name =! str "..")
                    || contains_byte x2f name || contains_byte x5c name)) PathTraversal;
  _ ← ensure (negb (existsb is_control (chars name))) InvalidName;
  ensure (negb (ends_with_byte x2e name || ends_with_byte x20 name)) InvalidName.

(** The incremental hasher is represented by the bytes it was fed. *)
Record TransferLedger := {
  ledger_state : TransferState; expected_size : Z; received : Z; digest : bytes }.

Definition ledger_new (name : rstr) (size : Z) : result FileTransferError TransferLedger :=
  _ ← validate_file_name name size;
  Ok {| ledger_state := Requested; expected_size := size; received := 0; digest := [] |}.

Definition set_ledger_state (l : TransferLedger) (s : TransferState) : TransferLedger :=
  {| ledger_state := s; expected_size := l.(expected_size); received := l.(received);
     digest := l.(digest) |}.

Definition transfer_accept (l : TransferLedger) : result FileTransferError unit * TransferLedger :=
  if l.(ledger_state) ≠! Requested then (Err InvalidState, l)
  else (Ok tt, set_ledger_state l Accepted).

Definition transfer_append (l : TransferLedger) (chunk : bytes)
    : result FileTransferError unit * TransferLedger :=
  match l.(ledger_state) with
  | Accepted | Running =>
      let next := sat_add 64 l.(received) (len chunk) in
      if l.(expected_size) <? next then (Err TooLarge, l)
      else (Ok tt, {| ledger_state := Running; expected_size := l.(expected_size);
                      received := next; digest := l.(digest) ++ chunk |})
  | _ => (Err InvalidState, l)
  end.

Definition transfer_finish `{P : Primitives} (l : TransferLedger) (expected_sha256 : bytes)
    : result FileTransferError unit * TransferLedger :=
  if (l.(received) ≠! l.(expected_size)) || (l.(ledger_state) ≠! Running) then (Err InvalidState, l)
  else if sha256 l.(digest) ≠! expected_sha256
  then (Err InvalidState, set_ledger_state l Failed)
  else (Ok tt, set_ledger_state l Completed).

Definition transfer_cancel (l : TransferLedger) : TransferLedger :=
  {| ledger_state := Cancelled; expected_size := l.(expected_size); received := l.(received);
     digest := [] |}.

Inductive TransferOp := Accept | Append (chunk : bytes) | Finish (h : bytes) | Cancel.

Section run.
Context `{P : Primitives}.

Definition transfer_step (l : TransferLedger) (op : TransferOp)
    : result FileTransferError unit * TransferLedger :=
  match op with
  | Accept => transfer_accept l
  | Append c => transfer_append l c
  | Finish h => transfer_finish l h
  | Cancel => (Ok tt, transfer_cancel l)
  end.

(** The chunk a call added to the file. *)
Definition accepted_chunk (op : TransferOp) (r : result FileTransferError unit) : list bytes :=
  match op, r with Append c, Ok _ => [c] | _, _ => [] end.

(** The chunks accepted since the beginning, and the ledger. *)
Fixpoint transfer_run (l : TransferLedger) (ops : list TransferOp) : list bytes * TransferLedger :=
  match ops with
  | [] => ([], l)
  | op :: ops =>
      let '(r, l') := transfer_step l op in
      let '(cs, l'') := transfer_run l' ops in
      (accepted_chunk op r ++ cs, l'')
  end.

(** While the transfer is not cancelled the hasher has been fed exactly the
    accepted chunks, and the counter is their total length. *)
Record ledger_inv (size : Z) (chunks : list bytes) (l : TransferLedger) : Prop := {
  inv_size : l.(expected_size) = size;
  inv_bound : 0 ≤ l.(received) ≤ size;
  inv_digest : l.(ledger_state) ≠ Cancelled →
    l.(digest) = concat chunks ∧ l.(received) = len (concat chunks) }.

Lemma concat_snoc (cs : list bytes) c : concat (cs ++ [c]) = concat cs ++ c.
Proof. rewrite concat_app. cbn. by rewrite app_nil_r. Qed.

Lemma append_inv size cs l c :
  size < u_max 64 → ledger_inv size cs l →
  match transfer_append l c with
  | (Ok _, l') => ledger_inv size (cs ++ [c]) l'
  | (Err _, l') => ledger_inv size cs l'
  end.
Proof.
  intros Hs [He Hb Hd]. unfold transfer_append.
  destruct (ledger_state l) eqn:E; try (by split; rewrite ?E);
    destruct (Z.ltb_spec (expected_size l) (sat_add 64 (received l) (len c))); try (by split; rewrite ?E);
    (destruct Hd as [Hd1 Hd2]; [done|]; pose proof (len_nonneg c); unfold sat_add, u_max in *;
     split; cbn; [done|lia|]; intros _; rewrite concat_snoc, Hd1, len_app; split; [done|lia]).
Qed.

Lemma transfer_step_inv size cs l op :
  size < u_max 64 → ledger_inv size cs l →
  ledger_inv size (cs ++ accepted_chunk op (transfer_step l op).1) (transfer_step l op).2.
Proof.
  intros Hs Hl. destruct op as [|c|h|]; cbn; rewrite ?app_nil_r.
  - unfold transfer_accept. destruct Hl as [He Hb Hd]. case_bool_decide as E; cbn; split; try done.
    intros _. apply Hd. by rewrite E.
  - pose proof (append_inv size cs l c Hs Hl) as H. destruct (transfer_append l c) as [[?|?] l']; cbn; by rewrite ?app_nil_r.
  - unfold transfer_finish. destruct Hl as [He Hb Hd]. case_bool_decide; cbn; [|by split].
    case_bool_decide as E; cbn; [|by split].
    case_bool_decide; cbn; (split; [done|done|]); intros _; apply Hd; by rewrite E.
  - destruct Hl as [He Hb Hd]. by split.
Qed.

Lemma transfer_run_inv size cs l ops :
  size < u_max 64 → ledger_inv size cs l →
  ledger_inv size (cs ++ (transfer_run l ops).1) (transfer_run l ops).2.
Proof.
  intros Hs. revert cs l. induction ops as [|op ops IH]; intros cs l Hl; cbn [transfer_run]; [by rewrite app_nil_r|].
  pose proof (transfer_step_inv size cs l op Hs Hl) as H.
  destruct (transfer_step l op) as [r l']. cbn [fst snd] in H.
  specialize (IH _ _ H). destruct (transfer_run l' ops) as [cs' l'']. cbn [fst snd] in *.
  by rewrite app_assoc.
Qed.
End run.

(** C37: A file is accepted as complete only when it is intact: if, after any
    sequence of calls on a new ledger, [transfer_finish] succeeds, then the
    chunks accepted so far concatenate to a file of exactly the announced size
    whose SHA-256 is the expected one. Whatever happens, the count of received
    bytes never exceeds the announced size, which is at most 100 MiB. *)
Theorem transfer_completes_intact `{P : Primitives} name size l0 ops h l' :
  0 ≤ size → ledger_new name size = Ok l0 →
  let '(chunks, l) := transfer_run l0 ops in
  (0 ≤ l.(received) ≤ size ∧ size ≤ MAX_FILE_TRANSFER_BYTES) ∧
  (transfer_finish l h = (Ok tt, l') →
   len (concat chunks) = size ∧ sha256 (concat chunks) = h ∧ l'.(ledger_state) = Completed).
Proof.
  intros H0 Hn. unfold ledger_new, validate_file_name in Hn. invert_ok.
  assert (size < u_max 64) as Hs by (unfold MAX_FILE_TRANSFER_BYTES, u_max in *; lia).
  match goal with |- context [transfer_run ?l ops] =>
    pose proof (transfer_run_inv size [] l ops Hs) as Hi; destruct (transfer_run l ops) as [cs l1] end.
  destruct Hi as [He Hb Hd]; [split; cbn; [done|lia|done]|]. cbn in *.
  split; [done|]. unfold transfer_finish. case_bool_decide as E1; cbn; [|done].
  case_bool_decide as E2; cbn; [|done]. case_bool_decide as E3; cbn; [|done].
  intros [= <-]. destruct Hd as [Hd1 Hd2]; [by rewrite E2|]. rewrite <-Hd1. split_and!; [congruence|done|done].
Qed.

Lemma transfer_completes_intact_witness :
  ∃ l0, ledger_new (str "a.txt") 5 = Ok l0 ∧
  let '(chunks, l) := @transfer_run toy l0 [Accept; Append (str "he"); Append (str "llo")] in
  len (concat chunks) = 5.
Proof.
  eexists. split; [reflexivity|].
  pose proof (@transfer_completes_intact toy (str "a.txt") 5 _
    [Accept; Append (str "he"); Append (str "llo")] (@sha256 toy (str "hello"))
    (set_ledger_state {| ledger_state := Running; expected_size := 5; received := 5;
                         digest := str "hello" |} Completed) ltac:(lia) eq_refl) as H.
  destruct (transfer_run _ _) as [cs l] eqn:E.
  destruct H as [_ H]. apply H. vm_compute in E. injection E as _ <-. reflexivity.
Defined.

(** An accepted file name is a single path component on every platform: cut
    at both kinds of separator it stays whole, it is neither [.] nor [..], it
    has a visible character and no control character, and it does not end in a
    dot or a space. *)
Theorem file_name_is_one_component name size :
  validate_file_name name size = Ok tt ↔
  split_on (λ b, (b =! x2f) || (b =! x5c)) name = [name] ∧ name ≠ str "." ∧ name ≠ str ".." ∧
  (∃ c, c ∈ chars name ∧ is_whitespace c = false) ∧ (∀ c, c ∈ chars name → is_control c = false) ∧
  last name ≠ Some x2e ∧ last name ≠ Some x20 ∧ size ≤ MAX_FILE_TRANSFER_BYTES.
Proof.
  rewrite split_on_single, forallb_true_iff, <-existsb_false_iff, <-forallb_false_iff.
  unfold validate_file_name, contains_byte, ends_with_byte, is_blank. split.
  - intros H. invert_ok. split_and!; try done.
    intros b Hb. apply negb_true_iff, orb_false_iff. split; apply bool_decide_eq_false_2; congruence.
  - intros (Hs & H1 & H2 & -> & -> & H3 & H4 & H5).
    rewrite !bool_decide_eq_false_2; try done.
    + destruct (Z.ltb_spec MAX_FILE_TRANSFER_BYTES size); [lia|done].
    + intros Hin. by specialize (Hs _ Hin).
    + intros Hin. by specialize (Hs _ Hin).
Qed.

Example file_names_refused :
  validate_file_name (str "../x") 1 = Err PathTraversal ∧
  validate_file_name (str "..") 1 = Err PathTraversal ∧
  validate_file_name [xe3; x80; x80] 1 = Err EmptyName ∧
  validate_file_name (str "a" ++ [xc2; x85]) 1 = Err InvalidName ∧
  validate_file_name (str "a.") 1 = Err InvalidName.
Proof. repeat split; vm_compute; reflexivity. Qed.
End FileTransfer.
