(* ===== verification/Access.v ===== *)
(** * Session policy, device registry and verification codes

    Models crates/remote-core/src/policy.rs and lib.rs: the decision that turns
    requested permissions into effective ones, the registry of devices, the
    verification-code challenge and the session record. *)

From stdpp Require Import sorting.
From S2P Require Import Prelude Text Canonical Security Primitives KeySession.

(** ** Policy *)

Inductive AntiAbuseDecision := AllowUser | WarnUser | Cooldown | DenyUser | Suspend | RelayQuarantine.
#[global] Instance AntiAbuseDecision_eq_dec : EqDecision AntiAbuseDecision.
Proof. solve_decision. Defined.

Definition blocks_session (d : AntiAbuseDecision) : bool :=
  match d with Cooldown | DenyUser | Suspend => true | _ => false end.

Inductive SessionAccessDecision := Allow | RequirePrompt | RequireMfa | Deny.
#[global] Instance SessionAccessDecision_eq_dec : EqDecision SessionAccessDecision.
Proof. solve_decision. Defined.

Record PolicyInput := {
  requested : SessionPermissions; controlled_capabilities : SessionPermissions;
  mfa_verified : bool; mfa_required : bool; blacklisted : bool;
  anti_abuse : AntiAbuseDecision }.

Record PolicyDecision := {
  access : SessionAccessDecision; decided_anti_abuse : AntiAbuseDecision;
  effective_permissions : SessionPermissions; decided_digest : bytes }.

Definition intersect (l r : SessionPermissions) : SessionPermissions := {|
  remote_desktop := l.(remote_desktop) && r.(remote_desktop);
  input_control := l.(input_control) && r.(input_control);
  clipboard := l.(clipboard) && r.(clipboard);
  file_transfer := l.(file_transfer) && r.(file_transfer);
  unattended := l.(unattended) && r.(unattended);
  privacy_screen := l.(privacy_screen) && r.(privacy_screen);
  block_local_input := l.(block_local_input) && r.(block_local_input);
  require_prompt := l.(require_prompt) || r.(require_prompt);
  allow_relay := l.(allow_relay) && r.(allow_relay) |}.

Definition set_require_prompt (p : SessionPermissions) (b : bool) : SessionPermissions := {|
  remote_desktop := p.(remote_desktop); input_control := p.(input_control);
  clipboard := p.(clipboard); file_transfer := p.(file_transfer);
  unattended := p.(unattended); privacy_screen := p.(privacy_screen);
  block_local_input := p.(block_local_input); require_prompt := b;
  allow_relay := p.(allow_relay) |}.

Definition clear_allow_relay (p : SessionPermissions) : SessionPermissions := {|
  remote_desktop := p.(remote_desktop); input_control := p.(input_control);
  clipboard := p.(clipboard); file_transfer := p.(file_transfer);
  unattended := p.(unattended); privacy_screen := p.(privacy_screen);
  block_local_input := p.(block_local_input); require_prompt := p.(require_prompt);
  allow_relay := false |}.

Definition clear_mfa_grants (p : SessionPermissions) : SessionPermissions := {|
  remote_desktop := p.(remote_desktop); input_control := p.(input_control);
  clipboard := p.(clipboard); file_transfer := p.(file_transfer);
  unattended := false; privacy_screen := false; block_local_input := false;
  require_prompt := p.(require_prompt); allow_relay := p.(allow_relay) |}.

Section policy.
Context `{P : Primitives}.

Definition evaluate (input : PolicyInput) : PolicyDecision :=
  let blocked := input.(blacklisted) || blocks_session input.(anti_abuse) in
  let p := intersect input.(requested) input.(controlled_capabilities) in
  let p := set_require_prompt p input.(requested).(require_prompt) in
  let p := if input.(anti_abuse) =! RelayQuarantine then clear_allow_relay p else p in
  let p := if input.(mfa_verified) then p else clear_mfa_grants p in
  let '(p, access) :=
    if blocked then (permissions_default, Deny)
    else if input.(mfa_required) && negb input.(mfa_verified) then (p, RequireMfa)
    else if p.(require_prompt) then (p, RequirePrompt)
    else (p, Allow) in
  let digest := match permissions_canonical_bytes p with
                | Ok bs => sha256 bs
                | Err _ => repeat x00 32
                end in
  {| access := access; decided_anti_abuse := input.(anti_abuse);
     effective_permissions := p; decided_digest := digest |}.
End policy.

(** The grants of a permission set, [require_prompt] (a restriction) apart. *)
Definition grants (p : SessionPermissions) : list bool :=
  [p.(remote_desktop); p.(input_control); p.(clipboard); p.(file_transfer); p.(unattended);
   p.(privacy_screen); p.(block_local_input); p.(allow_relay)].

(** Every grant of [p] is a grant of [q]. *)
Definition within (p q : SessionPermissions) : Prop :=
  Forall2 (λ a b, a = true → b = true) (grants p) (grants q).

Lemma permissions_bytes_ok p : ∃ bs, permissions_canonical_bytes p = Ok bs.
Proof. by destruct p as [[] [] [] [] [] [] [] [] []]; eexists; vm_compute. Qed.

Section policy_lemmas.
Context `{P : Primitives}.

(** The permissions before the access decision. *)
Definition narrowed (i : PolicyInput) : SessionPermissions :=
  let p := set_require_prompt (intersect i.(requested) i.(controlled_capabilities))
             i.(requested).(require_prompt) in
  let p := if i.(anti_abuse) =! RelayQuarantine then clear_allow_relay p else p in
  if i.(mfa_verified) then p else clear_mfa_grants p.

Lemma narrowed_prompt i : (narrowed i).(require_prompt) = i.(requested).(require_prompt).
Proof. unfold narrowed. by destruct (mfa_verified i), (bool_decide _). Qed.

Lemma narrowed_within i :
  within (narrowed i) i.(requested) ∧ within (narrowed i) i.(controlled_capabilities).
Proof.
  unfold narrowed.
  destruct (mfa_verified i), (bool_decide _); split; unfold within, grants; cbn;
    repeat (constructor; [intros; split_bools; done|]); constructor.
Qed.

Lemma evaluate_effective i :
  (evaluate i).(effective_permissions) =
  if i.(blacklisted) || blocks_session i.(anti_abuse) then permissions_default else narrowed i.
Proof.
  unfold evaluate. fold (narrowed i). destruct (_ || _); [done|].
  destruct (_ && _); [done|]. by destruct (require_prompt _).
Qed.

Lemma evaluate_access i :
  (evaluate i).(access) =
  if i.(blacklisted) || blocks_session i.(anti_abuse) then Deny
  else if i.(mfa_required) && negb i.(mfa_verified) then RequireMfa
  else if i.(requested).(require_prompt) then RequirePrompt else Allow.
Proof.
  unfold evaluate. fold (narrowed i). destruct (_ || _); [done|].
  destruct (_ && _); [done|]. rewrite narrowed_prompt. by destruct (require_prompt _).
Qed.

Lemma evaluate_digest i :
  permissions_digest (evaluate i).(effective_permissions) = Ok (evaluate i).(decided_digest).
Proof.
  unfold evaluate, permissions_digest, hashed. fold (narrowed i).
  destruct (if _ || _ then _ else _) as [p a]. cbn.
  destruct (permissions_bytes_ok p) as [bs ->]. done.
Qed.

Lemma default_within q : within permissions_default q.
Proof. unfold within, grants. cbn. repeat (constructor; [done|]). constructor. Qed.
End policy_lemmas.

(** The policy is fail-closed: the effective permissions grant nothing that
    was not both requested and offered by the controlled device; a blacklisted
    or blocked user gets the default permissions, which grant nothing, and
    [Deny]; without a verified second factor no unattended access, privacy
    screen or input blocking is granted; a quarantined user gets no relay;
    access is allowed outright only when nothing blocks it, no factor is missing
    and no prompt was requested; and the digest is that of the effective
    permissions. *)
Theorem policy_fail_closed `{P : Primitives} (i : PolicyInput) :
  let d := evaluate i in
  let e := d.(effective_permissions) in
  within e i.(requested) ∧ within e i.(controlled_capabilities) ∧
  (i.(blacklisted) || blocks_session i.(anti_abuse) = true →
     e = permissions_default ∧ d.(access) = Deny) ∧
  (i.(mfa_verified) = false →
     e.(unattended) || e.(privacy_screen) || e.(block_local_input) = false) ∧
  (i.(anti_abuse) = RelayQuarantine → e.(allow_relay) = false) ∧
  (d.(access) = Allow ↔
     i.(blacklisted) || blocks_session i.(anti_abuse) = false ∧
     (i.(mfa_required) = true → i.(mfa_verified) = true) ∧
     i.(requested).(require_prompt) = false) ∧
  permissions_digest e = Ok d.(decided_digest).
Proof.
  cbn zeta. rewrite evaluate_digest, evaluate_access, evaluate_effective.
  destruct (narrowed_within i) as [Hq Hc].
  destruct (_ || _); [split_and!; auto using default_within; naive_solver|].
  split_and!; try done.
  - intros Hm. unfold narrowed. by rewrite Hm.
  - intros Ha. unfold narrowed. rewrite Ha. by destruct (mfa_verified i).
  - destruct (mfa_required i), (mfa_verified i), (require_prompt (requested i)); cbn; naive_solver.
Qed.

(** The prompt requirement of the controlled device is not taken over: with
    a request that asks for no prompt, access is allowed outright although the
    controlled side's own permissions require one. *)
Theorem policy_ignores_controlled_prompt `{P : Primitives} :
  ∃ i, i.(controlled_capabilities).(require_prompt) = true ∧
       (intersect i.(requested) i.(controlled_capabilities)).(require_prompt) = true ∧
       (evaluate i).(access) = Allow.
Proof.
  exists {| requested := set_require_prompt permissions_default false;
            controlled_capabilities := permissions_default; mfa_verified := true;
            mfa_required := false; blacklisted := false; anti_abuse := AllowUser |}.
  by rewrite evaluate_access.
Qed.

(** ** Device registry *)

Inductive PlatformKind := Windows | Ubuntu | Ios.
Inductive DeviceStatus := Online | Offline | Busy.
#[global] Instance DeviceStatus_eq_dec : EqDecision DeviceStatus.
Proof. solve_decision. Defined.

Record DeviceIdentity := {
  device_id : rstr; display_name : rstr; platform : PlatformKind; os_version : rstr;
  arch : rstr; public_key : bytes }.

Record DeviceRecord := {
  identity : DeviceIdentity; status : DeviceStatus; last_seen : Z }.

Record DeviceRegistry := { devices : gmap bytes DeviceRecord }.

Inductive DeviceRegistryError := UnknownDevice.

Definition registry_default : DeviceRegistry := {| devices := ∅ |}.

Definition register (r : DeviceRegistry) (i : DeviceIdentity) (seen_at : Z) : DeviceRegistry :=
  {| devices := <[i.(device_id) := {| identity := i; status := Online; last_seen := seen_at |}]>
                  r.(devices) |}.

Definition mark_status (r : DeviceRegistry) (id : rstr) (st : DeviceStatus) (seen_at : Z)
    : result DeviceRegistryError unit * DeviceRegistry :=
  match r.(devices) !! id with
  | None => (Err UnknownDevice, r)
  | Some record =>
      (Ok tt, {| devices := <[id := {| identity := record.(identity); status := st;
                                       last_seen := seen_at |}]> r.(devices) |})
  end.

Definition registry_get (r : DeviceRegistry) (id : rstr) : option DeviceRecord := r.(devices) !! id.

Definition record_le (a b : DeviceRecord) : Prop :=
  str_le a.(identity).(device_id) b.(identity).(device_id).
#[global] Instance record_le_dec : RelDecision record_le.
Proof. intros a b. unfold record_le, str_le. apply _. Defined.

(** [sort_by] is a stable sort; the order in which the hash map is iterated is
    unspecified, here that of [map_to_list]. *)
Definition list_online (r : DeviceRegistry) : list DeviceRecord :=
  merge_sort record_le
    (filter (λ d, d.(status) = Online) (snd <$> map_to_list r.(devices))).

Inductive RegistryOp := Register (i : DeviceIdentity) (at_ : Z) | MarkStatus (id : rstr) (s : DeviceStatus) (at_ : Z).

Definition registry_step (r : DeviceRegistry) (op : RegistryOp) : DeviceRegistry :=
  match op with
  | Register i t => register r i t
  | MarkStatus id s t => (mark_status r id s t).2
  end.

#[global] Instance record_le_trans : Transitive record_le.
Proof. intros a b c. unfold record_le. apply str_le_trans. Qed.
#[global] Instance record_le_total : Total record_le.
Proof. intros a b. apply str_le_total. Qed.

(** Every record is stored under its own id. *)
Definition registry_ok (r : DeviceRegistry) : Prop :=
  map_Forall (λ id d, d.(identity).(device_id) = id) r.(devices).

Lemma registry_step_ok r op : registry_ok r → registry_ok (registry_step r op).
Proof.
  intros Hr. destruct op as [i t|id s t]; cbn.
  - by apply map_Forall_insert_2.
  - unfold mark_status. destruct (devices r !! id) as [d|] eqn:E; [|done].
    apply map_Forall_insert_2; [|done]. cbn. by apply (Hr _ _ E).
Qed.

Lemma list_online_elem r d :
  registry_ok r →
  d ∈ list_online r ↔ registry_get r d.(identity).(device_id) = Some d ∧ d.(status) = Online.
Proof.
  intros Hr. unfold list_online, registry_get. rewrite merge_sort_Permutation, list_elem_of_filter.
  rewrite list_elem_of_fmap. split.
  - intros [Hs ([id d'] & -> & Hin)]. apply elem_of_map_to_list in Hin. cbn in *.
    by rewrite (Hr _ _ Hin).
  - intros [Hg Hs]. split; [done|]. exists (d.(identity).(device_id), d).
    split; [done|]. by apply elem_of_map_to_list.
Qed.

Lemma list_online_ids r :
  registry_ok r → NoDup ((λ d, d.(identity).(device_id)) <$> list_online r).
Proof.
  intros Hr. apply NoDup_fmap_2_strong.
  - intros a b Ha Hb Heq. apply (list_online_elem _ _ Hr) in Ha as [Ha _], Hb as [Hb _].
    rewrite Heq in Ha. congruence.
  - unfold list_online. rewrite merge_sort_Permutation. apply NoDup_filter.
    apply NoDup_fmap_2_strong; [|apply NoDup_map_to_list].
    intros [i a] [j b] Ha Hb Heq. cbn in *. subst b.
    apply elem_of_map_to_list in Ha, Hb. by rewrite <-(Hr _ _ Ha), <-(Hr _ _ Hb).
Qed.

(** After any sequence of registrations and status changes, the list of
    online devices contains exactly the registered devices whose status is
    online, each once, in increasing order of their ids. *)
Theorem list_online_exact ops :
  let r := foldl registry_step registry_default ops in
  Sorted record_le (list_online r) ∧
  NoDup ((λ d, d.(identity).(device_id)) <$> list_online r) ∧
  ∀ d, d ∈ list_online r ↔
       registry_get r d.(identity).(device_id) = Some d ∧ d.(status) = Online.
Proof.
  intros r. assert (registry_ok r) as Hr.
  { assert (registry_ok registry_default) as H0 by apply map_Forall_empty.
    unfold r. clear r. revert H0. generalize registry_default.
    induction ops as [|op ops IH]; intros r Hr; [done|]. cbn. by apply IH, registry_step_ok. }
  split; [apply Sorted_merge_sort, _|]. split; [by apply list_online_ids|].
  intros d. by apply list_online_elem.
Qed.

(** ** Verification codes *)

Record VerificationCode := {
  code_device_id : rstr; code : rstr; expires_at : Z; max_attempts : Z }.

Record VerificationChallenge := { challenge_code : VerificationCode; attempts_remaining : Z }.

Inductive VerificationResult :=
| CodeAccepted | CodeRejected (remaining : Z) | CodeExpired | AttemptsExceeded.
#[global] Instance VerificationResult_eq_dec : EqDecision VerificationResult.
Proof. solve_decision. Defined.

Definition challenge_new (c : VerificationCode) : VerificationChallenge :=
  {| challenge_code := c; attempts_remaining := c.(max_attempts) |}.

(** [attempts_remaining -= 1] cannot underflow: it is not zero there. *)
Definition challenge_verify (c : VerificationChallenge) (candidate : rstr) (now : Z)
    : VerificationResult * VerificationChallenge :=
  if c.(challenge_code).(expires_at) <? now then (CodeExpired, c)
  else if c.(attempts_remaining) =? 0 then (AttemptsExceeded, c)
  else if candidate =! c.(challenge_code).(code) then (CodeAccepted, c)
  else let n := c.(attempts_remaining) - 1 in
       (CodeRejected n, {| challenge_code := c.(challenge_code); attempts_remaining := n |}).

Fixpoint challenge_run (c : VerificationChallenge) (tries : list (rstr * Z))
    : list VerificationResult :=
  match tries with
  | [] => []
  | (candidate, now) :: tries =>
      let '(r, c) := challenge_verify c candidate now in r :: challenge_run c tries
  end.

Definition is_rejection (r : VerificationResult) : bool :=
  match r with CodeRejected _ => true | _ => false end.

(** The number of wrong codes in time. *)
Definition rejections (rs : list VerificationResult) : Z := len (List.filter is_rejection rs).

(** The answer to a try after [n] rejections. *)
Definition expected_answer (c : VerificationCode) (n : Z) (candidate : rstr) (now : Z)
    : VerificationResult :=
  if c.(expires_at) <? now then CodeExpired
  else if c.(max_attempts) =? n then AttemptsExceeded
  else if candidate =! c.(code) then CodeAccepted
  else CodeRejected (c.(max_attempts) - n - 1).

(** [rs] are the answers to [tries] when [k] rejections came before. *)
Definition answers (c : VerificationCode) (k : Z) (tries : list (rstr * Z))
    (rs : list VerificationResult) : Prop :=
  k + rejections rs ≤ c.(max_attempts) ∧
  ∀ i t, tries !! i = Some t →
    rs !! i = Some (expected_answer c (k + rejections (take i rs)) t.1 t.2).

Lemma rejections_cons k r rs :
  k + rejections (r :: rs) = (if is_rejection r then k + 1 else k) + rejections rs.
Proof. unfold rejections. cbn. destruct (is_rejection r); [rewrite len_cons|]; lia. Qed.

Lemma answers_cons c k cand now tries r rs :
  r = expected_answer c k cand now →
  answers c (if is_rejection r then k + 1 else k) tries rs →
  answers c k ((cand, now) :: tries) (r :: rs).
Proof.
  intros Hr [H1 H2]. split; [by rewrite rejections_cons|].
  intros [|i] t Hi.
  - injection Hi as <-. change (rejections (take 0 (r :: rs))) with 0. rewrite Z.add_0_r. by rewrite Hr.
  - change ((r :: rs) !! S i) with (rs !! i). rewrite (H2 i t Hi).
    change (take (S i) (r :: rs)) with (r :: take i rs). by rewrite rejections_cons.
Qed.

Lemma challenge_run_spec c k tries :
  0 ≤ k ≤ c.(max_attempts) →
  answers c k tries
    (challenge_run {| challenge_code := c; attempts_remaining := c.(max_attempts) - k |} tries).
Proof.
  revert k. induction tries as [|[cand now] tries IH]; intros k Hk.
  { split; [unfold rejections; cbn; rewrite len_nil; lia|]. intros i t Hi. done. }
  cbn [challenge_run]. unfold challenge_verify. cbn [challenge_code attempts_remaining].
  destruct (expires_at c <? now) eqn:E1.
  { apply answers_cons; [|by apply IH]. unfold expected_answer. by rewrite E1. }
  destruct (Z.eqb_spec (max_attempts c - k) 0) as [E2|E2].
  { apply answers_cons; [|by apply IH]. unfold expected_answer. rewrite E1.
    destruct (Z.eqb_spec (max_attempts c) k); [done|lia]. }
  assert ((max_attempts c =? k) = false) as E3 by (apply Z.eqb_neq; lia).
  destruct (bool_decide (cand = code c)) eqn:E4;
    (apply answers_cons; [unfold expected_answer; by rewrite E1, E3, E4|]).
  - by apply IH.
  - replace (max_attempts c - k - 1) with (max_attempts c - (k + 1)) by lia. apply IH. lia.
Qed.

(** The challenge answers every sequence of tries exactly by the number of
    wrong codes before: at most [max_attempts] wrong codes are ever looked at,
    after which even the right code is refused, and the right code is accepted
    only before the deadline. *)
Theorem verification_attempts_bounded c tries :
  0 ≤ c.(max_attempts) →
  let rs := challenge_run (challenge_new c) tries in
  rejections rs ≤ c.(max_attempts) ∧
  ∀ i candidate now, tries !! i = Some (candidate, now) →
    rs !! i = Some (expected_answer c (rejections (take i rs)) candidate now).
Proof.
  intros Hm. pose proof (challenge_run_spec c 0 tries ltac:(lia)) as H.
  rewrite Z.sub_0_r in H. destruct H as [H1 H2]. split; [done|].
  intros i cand now Hi. by specialize (H2 i _ Hi).
Qed.

Lemma verification_attempts_bounded_witness :
  let c := {| code_device_id := str "d"; code := str "123456"; expires_at := 100; max_attempts := 2 |} in
  let tries := [(str "0", 5); (str "1", 6); (str "123456", 7)] in
  challenge_run (challenge_new c) tries = [CodeRejected 1; CodeRejected 0; AttemptsExceeded] ∧
  rejections (challenge_run (challenge_new c) tries) ≤ 2.
Proof.
  intros c tries. split; [vm_compute; reflexivity|].
  apply (verification_attempts_bounded c tries). vm_compute. congruence.
Defined.

(** ** The session record: unconditional setters *)

Inductive SessionFailure := FailRejected | FailUnauthorized | FailTransportUnavailable | FailTimedOut | FailInternal.
Inductive SessionState :=
| Created | WaitingForApproval | Approved | SessionConnecting | SessionConnected | Degraded
| SessionReconnecting | SessionClosed | SessionFailed (f : SessionFailure).

Record SessionPolicy := {
  policy_permissions : Permissions; require_controlled_side_prompt : bool; audit_required : bool }.

Definition session_policy_default : SessionPolicy :=
  {| policy_permissions := {| pm_remote_desktop := false; pm_input_control := false;
       pm_clipboard := false; pm_file_transfer := false; pm_unattended := false |};
     require_controlled_side_prompt := true; audit_required := true |}.

Record Session := {
  s_session_id : Z; s_controller : DeviceIdentity; s_controlled : DeviceIdentity;
  s_state : SessionState; s_policy : SessionPolicy }.

Definition session_new (id : Z) (controller controlled : DeviceIdentity) (p : SessionPolicy) : Session :=
  {| s_session_id := id; s_controller := controller; s_controlled := controlled;
     s_state := Created; s_policy := p |}.

Definition set_session_state (s : Session) (st : SessionState) : Session :=
  {| s_session_id := s.(s_session_id); s_controller := s.(s_controller);
     s_controlled := s.(s_controlled); s_state := st; s_policy := s.(s_policy) |}.

Definition request_approval (s : Session) : Session := set_session_state s WaitingForApproval.
Definition approve (s : Session) : Session := set_session_state s Approved.
Definition session_connect (s : Session) : Session := set_session_state s SessionConnecting.
Definition mark_connected (s : Session) : Session := set_session_state s SessionConnected.
Definition session_close (s : Session) : Session := set_session_state s SessionClosed.
Definition session_fail (s : Session) (r : SessionFailure) : Session :=
  set_session_state s (SessionFailed r).
