(* ===== verification/Media.v ===== *)
(** * Media negotiation and displays

    Models crates/remote-protocol/src/media.rs (the media messages),
    crates/remote-core/src/media.rs (negotiation and adaptation) and display.rs
    (the display topology). The [f32] arithmetic of the adaptation is on
    non-negative integers and quarters, written out as rounding to 24
    significant bits. *)

From S2P Require Import Prelude Text Security Input.

(** ** Messages *)

Inductive VideoCodec := H264 | H265Reserved | Av1Reserved.
#[global] Instance VideoCodec_eq_dec : EqDecision VideoCodec.
Proof. solve_decision. Defined.

Inductive QualityProfile := Balanced | TextClear | LowBandwidth | LowLatency.

Record CodecCapability := {
  cap_codec : VideoCodec; cap_profiles : list rstr; cap_pixel_formats : list rstr;
  cap_color_modes : list rstr; cap_max_width : Z; cap_max_height : Z; cap_max_fps : Z;
  cap_hardware_encode : bool; cap_hardware_decode : bool;
  cap_software_encode : bool; cap_software_decode : bool }.

Record DisplayCapability := {
  dc_max_displays : Z; dc_max_width : Z; dc_max_height : Z; dc_rotation : bool;
  dc_dynamic_resize : bool }.

Record InputCapability := {
  ic_mouse : bool; ic_physical_keyboard : bool; ic_text_commit : bool;
  ic_ime_composition : bool; ic_touch : bool; ic_external_pointer : bool }.

Record MediaCapabilities := {
  mc_session_id : Z; mc_role : SessionRole; mc_codecs : list CodecCapability;
  mc_display : DisplayCapability; mc_input : InputCapability }.

Record MediaConfigRequest := {
  mr_session_id : Z; mr_display_id : rstr; mr_preferred_codec : VideoCodec;
  mr_max_width : Z; mr_max_height : Z; mr_max_fps : Z; mr_max_bitrate_kbps : Z;
  mr_quality_profile : QualityProfile; mr_color_mode : rstr; mr_timestamp : Z }.

Inductive MediaConfigStatus := MediaActive | MediaDegraded | MediaUnsupported | MediaFailed.

Record MediaConfigState := {
  ms_session_id : Z; ms_display_id : rstr; ms_codec : VideoCodec; ms_width : Z; ms_height : Z;
  ms_fps : Z; ms_bitrate_kbps : Z; ms_profile : rstr; ms_pixel_format : rstr;
  ms_color_mode : rstr; ms_hardware_acceleration : bool; ms_state : MediaConfigStatus;
  ms_reason : option rstr; ms_timestamp : Z }.

Record MediaQualityState := {
  mq_session_id : Z; mq_display_id : rstr; mq_rtt_ms : Z; mq_loss_ppm : Z; mq_jitter_ms : Z;
  mq_bitrate_kbps : Z; mq_fps : Z; mq_dropped_frames : Z; mq_encode_ms : Z; mq_decode_ms : Z;
  mq_cpu_percent : Z; mq_memory_mb : Z; mq_timestamp : Z }.

(** ** Negotiation *)

Inductive MediaError := MediaSessionMismatch | DisplayMissing | H264Unavailable | InvalidRequest.

Definition find_h264 (caps : list CodecCapability) : option CodecCapability :=
  List.find (λ c, c.(cap_codec) =! H264) caps.

Definition choose_pixel_format (sender receiver : CodecCapability) : rstr :=
  match List.find (λ f, bool_decide (f ∈ receiver.(cap_pixel_formats))) sender.(cap_pixel_formats) with
  | Some f => f
  | None => str "nv12"
  end.

Definition quality_name (p : QualityProfile) : rstr :=
  match p with
  | Balanced => str "balanced" | TextClear => str "text_clear"
  | LowBandwidth => str "low_bandwidth" | LowLatency => str "low_latency"
  end.

Definition negotiate (sender receiver : MediaCapabilities) (request : MediaConfigRequest)
    : result MediaError MediaConfigState :=
  _ ← ensure (negb ((sender.(mc_session_id) ≠! request.(mr_session_id))
                    || (receiver.(mc_session_id) ≠! request.(mr_session_id)))) MediaSessionMismatch;
  _ ← ensure (request.(mr_preferred_codec) =! H264) H264Unavailable;
  _ ← ensure (negb ((request.(mr_display_id) =! []) || (request.(mr_max_width) =? 0)
                    || (request.(mr_max_height) =? 0) || (request.(mr_max_fps) =? 0)
                    || (request.(mr_max_bitrate_kbps) =? 0))) InvalidRequest;
  _ ← ensure (negb (receiver.(mc_display).(dc_max_displays) =? 0)) DisplayMissing;
  s ← ok_or (find_h264 sender.(mc_codecs)) H264Unavailable;
  r ← ok_or (find_h264 receiver.(mc_codecs)) H264Unavailable;
  let width := Z.min (Z.min request.(mr_max_width) s.(cap_max_width)) r.(cap_max_width) in
  let height := Z.min (Z.min request.(mr_max_height) s.(cap_max_height)) r.(cap_max_height) in
  let fps := Z.min (Z.min request.(mr_max_fps) s.(cap_max_fps)) r.(cap_max_fps) in
  _ ← ensure (negb ((width =? 0) || (height =? 0) || (fps =? 0))) InvalidRequest;
  Ok {| ms_session_id := request.(mr_session_id); ms_display_id := request.(mr_display_id);
        ms_codec := H264; ms_width := width; ms_height := height; ms_fps := fps;
        ms_bitrate_kbps := request.(mr_max_bitrate_kbps);
        ms_profile := quality_name request.(mr_quality_profile);
        ms_pixel_format := choose_pixel_format s r;
        ms_color_mode := request.(mr_color_mode);
        ms_hardware_acceleration := s.(cap_hardware_encode) && r.(cap_hardware_decode);
        ms_state := MediaActive; ms_reason := None; ms_timestamp := request.(mr_timestamp) |}.

(** ** Adaptation *)

(** Round a non-negative integer to 24 significant bits, ties to even: the
    significand of an [f32]. *)
Definition round24 (n : Z) : Z :=
  if n <? 2 ^ 24 then n
  else
    let unit := 2 ^ (Z.log2 n - 23) in
    let q := n / unit in let r := n mod unit in
    let q := if (unit / 2 <? r) || ((unit / 2 =? r) && Z.odd q) then q + 1 else q in
    q * unit.

(** [(n as f32 * factor) as u32] for a factor of [quarters / 4]: the conversion
    rounds, the product is rounded, the cast truncates and saturates. *)
Definition scale_f32 (n quarters : Z) : Z :=
  Z.min (round24 (round24 n * quarters) / 4) (u_max 32).

Definition adapt (current : MediaConfigState) (metrics : MediaQualityState) : MediaConfigState :=
  let severe := (100000 <=? metrics.(mq_loss_ppm)) || (500 <=? metrics.(mq_rtt_ms))
                || (95 <=? metrics.(mq_cpu_percent)) in
  let moderate := (30000 <=? metrics.(mq_loss_ppm)) || (250 <=? metrics.(mq_rtt_ms))
                  || (80 <=? metrics.(mq_jitter_ms)) in
  let '(quarters, state, reason) :=
    if severe then (2, MediaDegraded, str "link_or_cpu_degraded")
    else if moderate then (3, MediaDegraded, str "link_quality_reduced")
    else (4, MediaActive, str "link_quality_recovered") in
  {| ms_session_id := current.(ms_session_id); ms_display_id := current.(ms_display_id);
     ms_codec := current.(ms_codec); ms_width := current.(ms_width);
     ms_height := current.(ms_height);
     ms_fps := Z.max (scale_f32 current.(ms_fps) quarters) 1;
     ms_bitrate_kbps := Z.max (scale_f32 current.(ms_bitrate_kbps) quarters) 128;
     ms_profile := current.(ms_profile); ms_pixel_format := current.(ms_pixel_format);
     ms_color_mode := current.(ms_color_mode);
     ms_hardware_acceleration := current.(ms_hardware_acceleration);
     ms_state := state; ms_reason := Some reason; ms_timestamp := current.(ms_timestamp) |}.

(** The integer rounding agrees with the IEEE single-precision operations of the
    Standard Library on the conversion and the product. *)
Definition f32_of_z (z : Z) : spec_float := binary_normalize 24 128 z 0 false.
Definition f32_quarters (q : Z) : spec_float := binary_normalize 24 128 q (-2) false.
Definition f32_trunc (x : spec_float) : Z :=
  match x with
  | S754_finite false m e => if 0 <=? e then Zpos m * 2 ^ e else Zpos m / 2 ^ (- e)
  | _ => 0
  end.
Definition scale_ieee (n q : Z) : Z := f32_trunc (SFmul 24 128 (f32_of_z n) (f32_quarters q)).

Example scale_f32_agrees :
  forallb (λ n, forallb (λ q, scale_f32 n q =? scale_ieee n q) [2; 3; 4])
    ([0; 1; 2; 3; 5; 7; 60; 127; 128; 129; 8000; 99999; 2 ^ 22 + 1; 5592405; 5592406;
      2 ^ 23 + 1; 2 ^ 24 - 1; 2 ^ 24; 2 ^ 24 + 1; 2 ^ 24 + 3; 2 ^ 25 + 2; 2 ^ 25 + 6;
      123456789; 2 ^ 31 + 127; 2 ^ 31 + 128; 2 ^ 31 + 129; 2 ^ 32 - 2 ^ 8; 2 ^ 32 - 129]) = true.
Proof. vm_compute. reflexivity. Qed.

Lemma scale_f32_exact n q : 0 ≤ n < 2 ^ 22 → 0 ≤ q ≤ 4 → scale_f32 n q = n * q / 4.
Proof.
  intros Hn Hq. unfold scale_f32, round24.
  destruct (Z.ltb_spec n (2 ^ 24)); [|lia].
  assert (0 ≤ n * q < 2 ^ 24) by nia.
  destruct (Z.ltb_spec (n * q) (2 ^ 24)); [|lia].
  apply Z.min_l. unfold u_max. apply Z.lt_le_pred, Z.div_lt_upper_bound; lia.
Qed.

Lemma find_some_iff {A} (f : A → bool) l x :
  List.find f l = Some x → x ∈ l ∧ f x = true.
Proof. intros H. apply List.find_some in H. by rewrite list_elem_of_In. Qed.

(** A negotiated configuration is one that all three parties can carry out:
    an H.264 capability of the sender and one of the receiver, with width,
    height and frame rate positive and within the request and both capabilities;
    the bit rate is the requested maximum; hardware acceleration is used only
    when the sender can encode and the receiver decode in hardware; and the
    pixel format is one both list, or the fallback nv12 when they share none. *)
Theorem negotiate_within_limits sender receiver request st :
  0 ≤ request.(mr_max_width) → 0 ≤ request.(mr_max_height) → 0 ≤ request.(mr_max_fps) →
  Forall (λ c, 0 ≤ c.(cap_max_width) ∧ 0 ≤ c.(cap_max_height) ∧ 0 ≤ c.(cap_max_fps))
    (sender.(mc_codecs) ++ receiver.(mc_codecs)) →
  negotiate sender receiver request = Ok st →
  st.(ms_session_id) = sender.(mc_session_id) ∧ st.(ms_session_id) = receiver.(mc_session_id) ∧
  ∃ s r, s ∈ sender.(mc_codecs) ∧ r ∈ receiver.(mc_codecs) ∧
    s.(cap_codec) = H264 ∧ r.(cap_codec) = H264 ∧ st.(ms_codec) = H264 ∧
    0 < st.(ms_width) ≤ Z.min (Z.min s.(cap_max_width) r.(cap_max_width)) request.(mr_max_width) ∧
    0 < st.(ms_height) ≤ Z.min (Z.min s.(cap_max_height) r.(cap_max_height)) request.(mr_max_height) ∧
    0 < st.(ms_fps) ≤ Z.min (Z.min s.(cap_max_fps) r.(cap_max_fps)) request.(mr_max_fps) ∧
    st.(ms_bitrate_kbps) = request.(mr_max_bitrate_kbps) ∧ st.(ms_bitrate_kbps) ≠ 0 ∧
    st.(ms_hardware_acceleration) = s.(cap_hardware_encode) && r.(cap_hardware_decode) ∧
    (st.(ms_pixel_format) ∈ s.(cap_pixel_formats) ∧ st.(ms_pixel_format) ∈ r.(cap_pixel_formats) ∨
     st.(ms_pixel_format) = str "nv12" ∧
     ∀ f, f ∈ s.(cap_pixel_formats) → f ∉ r.(cap_pixel_formats)).
Proof.
  intros H1 H2 H3 Hc Hn. unfold negotiate in Hn. invert_ok.
  repeat match goal with H : find_h264 _ = Some _ |- _ =>
    apply find_some_iff in H as [? ?]; split_bools end.
  rewrite Forall_forall in Hc.
  match goal with H : ?x ∈ mc_codecs sender, H' : ?y ∈ mc_codecs receiver |- _ =>
    pose proof (Hc x ltac:(set_solver)) as (? & ? & ?);
    pose proof (Hc y ltac:(set_solver)) as (? & ? & ?);
    split; [done|]; split; [done|]; exists x, y end.
  cbn. split_and!; try done; try lia.
  unfold choose_pixel_format. destruct (List.find _ _) as [f|] eqn:E.
  - left. apply find_some_iff in E as [? ?]. by split_bools.
  - right. split; [done|]. intros f Hf Hin.
    eapply List.find_none in E; [|by apply list_elem_of_In]. by apply bool_decide_eq_false_1 in E.
Qed.

Definition example_codec : CodecCapability := {|
  cap_codec := H264; cap_profiles := []; cap_pixel_formats := [str "i420"; str "nv12"];
  cap_color_modes := []; cap_max_width := 1920; cap_max_height := 1080; cap_max_fps := 60;
  cap_hardware_encode := true; cap_hardware_decode := true;
  cap_software_encode := true; cap_software_decode := true |}.
Definition example_caps (role : SessionRole) : MediaCapabilities := {|
  mc_session_id := 1; mc_role := role; mc_codecs := [example_codec];
  mc_display := {| dc_max_displays := 1; dc_max_width := 1920; dc_max_height := 1080;
                   dc_rotation := false; dc_dynamic_resize := false |};
  mc_input := {| ic_mouse := true; ic_physical_keyboard := true; ic_text_commit := true;
                 ic_ime_composition := true; ic_touch := false; ic_external_pointer := false |} |}.
Definition example_request : MediaConfigRequest := {|
  mr_session_id := 1; mr_display_id := str "main"; mr_preferred_codec := H264;
  mr_max_width := 2560; mr_max_height := 1440; mr_max_fps := 30; mr_max_bitrate_kbps := 8000;
  mr_quality_profile := Balanced; mr_color_mode := str "sdr"; mr_timestamp := 7 |}.

Lemma negotiate_within_limits_witness :
  ∃ st, negotiate (example_caps Controlled) (example_caps Controller) example_request = Ok st ∧
        st.(ms_session_id) = 1.
Proof.
  eexists. split; [vm_compute; reflexivity|].
  eapply (negotiate_within_limits (example_caps Controlled) (example_caps Controller) example_request);
    [vm_compute; congruence..|repeat constructor; vm_compute; congruence|vm_compute; reflexivity].
Defined.

(** Below 2^22 the single-precision arithmetic is exact, so adaptation
    scales bit rate and frame rate by 1/2, 3/4 or 1, rounded down, with floors
    of 128 kbit/s and 1 frame per second; nothing else of the configuration
    changes but its status and reason. In particular it never raises a bit rate
    of at least 128 kbit/s, and never takes back an earlier reduction. *)
Theorem adapt_exact current metrics :
  0 ≤ current.(ms_bitrate_kbps) < 2 ^ 22 → 0 ≤ current.(ms_fps) < 2 ^ 22 →
  let st := adapt current metrics in
  ∃ q, q ∈ [2; 3; 4] ∧
    st.(ms_bitrate_kbps) = Z.max (current.(ms_bitrate_kbps) * q / 4) 128 ∧
    st.(ms_fps) = Z.max (current.(ms_fps) * q / 4) 1 ∧
    (128 ≤ current.(ms_bitrate_kbps) → 128 ≤ st.(ms_bitrate_kbps) ≤ current.(ms_bitrate_kbps)) ∧
    (1 ≤ current.(ms_fps) → 1 ≤ st.(ms_fps) ≤ current.(ms_fps)) ∧
    (st.(ms_state) = MediaActive ↔ q = 4) ∧
    st.(ms_width) = current.(ms_width) ∧ st.(ms_height) = current.(ms_height).
Proof.
  intros Hb Hf. unfold adapt.
  destruct (_ || _ || _); [exists 2|destruct (_ || _ || _); [exists 3|exists 4]]; cbn;
    rewrite !scale_f32_exact by lia; (split; [set_solver|]); split_and!; try done; intros; try lia.
  all: split; [lia|apply Z.max_lub; [apply Z.div_le_upper_bound; lia|lia]].
Qed.

Definition example_config : MediaConfigState := {|
  ms_session_id := 1; ms_display_id := str "main"; ms_codec := H264; ms_width := 1920;
  ms_height := 1080; ms_fps := 30; ms_bitrate_kbps := 8000; ms_profile := str "balanced";
  ms_pixel_format := str "i420"; ms_color_mode := str "sdr"; ms_hardware_acceleration := true;
  ms_state := MediaActive; ms_reason := None; ms_timestamp := 7 |}.
Definition example_metrics : MediaQualityState := {|
  mq_session_id := 1; mq_display_id := str "main"; mq_rtt_ms := 300; mq_loss_ppm := 0;
  mq_jitter_ms := 0; mq_bitrate_kbps := 8000; mq_fps := 30; mq_dropped_frames := 0;
  mq_encode_ms := 1; mq_decode_ms := 1; mq_cpu_percent := 10; mq_memory_mb := 100;
  mq_timestamp := 8 |}.

Lemma adapt_exact_witness :
  (adapt example_config example_metrics).(ms_bitrate_kbps) = 6000 ∧
  ∃ q, q ∈ [2; 3; 4] ∧
    (adapt example_config example_metrics).(ms_bitrate_kbps) = Z.max (8000 * q / 4) 128.
Proof.
  split; [vm_compute; reflexivity|].
  destruct (adapt_exact example_config example_metrics) as (q & Hq & Hb & _);
    [vm_compute; split; congruence..|]. exists q. exact (conj Hq Hb).
Defined.

(** ** Displays *)

Record DisplayInfo := {
  di_id : rstr; di_x : Z; di_y : Z; di_width : Z; di_height : Z; di_scale_milli : Z;
  di_rotation_degrees : Z }.

Inductive DisplayError := EmptyId | InvalidGeometry | UnknownDisplay | InvalidCoordinate.

Record DisplayTopology := { displays : list DisplayInfo; selected_id : option rstr }.
Definition topology_default : DisplayTopology := {| displays := []; selected_id := None |}.

Definition has_display (ds : list DisplayInfo) (id : rstr) : bool :=
  existsb (λ d, d.(di_id) =! id) ds.

Definition invalid_display (d : DisplayInfo) : bool :=
  is_blank d.(di_id) || (d.(di_width) =? 0) || (d.(di_height) =? 0) || (d.(di_scale_milli) =? 0).

Definition topology_replace (t : DisplayTopology) (ds : list DisplayInfo)
    : result DisplayError unit * DisplayTopology :=
  if existsb invalid_display ds then (Err InvalidGeometry, t)
  else
    let selected :=
      match t.(selected_id) with
      | Some id => if has_display ds id then Some id else None
      | None => None
      end in
    (Ok tt, {| displays := ds;
               selected_id := match selected with
                              | Some id => Some id
                              | None => di_id <$> head ds
                              end |}).

Definition topology_select (t : DisplayTopology) (id : rstr)
    : result DisplayError unit * DisplayTopology :=
  if has_display t.(displays) id
  then (Ok tt, {| displays := t.(displays); selected_id := Some id |})
  else (Err UnknownDisplay, t).

Definition find_display (ds : list DisplayInfo) (id : rstr) : option DisplayInfo :=
  List.find (λ d, d.(di_id) =! id) ds.

Definition topology_selected (t : DisplayTopology) : option DisplayInfo :=
  match t.(selected_id) with Some id => find_display t.(displays) id | None => None end.

(** [f64::from(n)] for a [u32]: exact. *)
Definition f64_of_u32 (n : Z) : spec_float := binary_normalize 53 1024 n 0 false.

(** [x.round() as i32]: half away from zero, then saturating. *)
Definition f64_round_i32 (x : spec_float) : Z :=
  match x with
  | S754_finite s m e =>
      let n := if 0 <=? e then Zpos m * 2 ^ e
               else (2 * Zpos m + 2 ^ (- e)) / (2 * 2 ^ (- e)) in
      if s then Z.max (- n) (- 2 ^ 31) else Z.min n (2 ^ 31 - 1)
  | S754_infinity s => if s then - 2 ^ 31 else 2 ^ 31 - 1
  | _ => 0
  end.

(** [display.x + offset] panics on overflow of [i32] where overflow is
    checked. *)
Definition i32_add (a b : Z) : may_panic Z :=
  if (- 2 ^ 31 <=? a + b) && (a + b <? 2 ^ 31) then Return (a + b) else Panic.

Definition map_normalized (t : DisplayTopology) (id : rstr) (x y : spec_float)
    : may_panic (result DisplayError (Z * Z)) :=
  if negb (f64_is_finite x) || negb (f64_is_finite y)
     || negb (in_unit_interval x) || negb (in_unit_interval y)
  then Return (Err InvalidCoordinate)
  else match find_display t.(displays) id with
  | None => Return (Err UnknownDisplay)
  | Some d =>
      px ← i32_add d.(di_x) (f64_round_i32 (SFmul 53 1024 x (f64_of_u32 (d.(di_width) - 1))));
      py ← i32_add d.(di_y) (f64_round_i32 (SFmul 53 1024 y (f64_of_u32 (d.(di_height) - 1))));
      Return (Ok (px, py))
  end.

Inductive TopologyOp := Replace (ds : list DisplayInfo) | Select (id : rstr).

Definition topology_step (t : DisplayTopology) (op : TopologyOp) : DisplayTopology :=
  match op with
  | Replace ds => (topology_replace t ds).2
  | Select id => (topology_select t id).2
  end.

(** The selected id names a display, and one is selected whenever there is one. *)
Definition topology_ok (t : DisplayTopology) : Prop :=
  match t.(selected_id) with
  | Some id => has_display t.(displays) id = true
  | None => t.(displays) = []
  end ∧ existsb invalid_display t.(displays) = false.

Lemma topology_step_ok t op : topology_ok t → topology_ok (topology_step t op).
Proof.
  intros [Hs Hv]. destruct op as [ds|id]; cbn.
  - unfold topology_replace. destruct (existsb invalid_display ds) eqn:E; [by split|].
    split; [|done]. cbn. destruct (selected_id t) as [id|].
    + destruct (has_display ds id) eqn:Eh; [done|]. destruct ds as [|d ds]; [done|].
      cbn. by rewrite bool_decide_eq_true_2.
    + destruct ds as [|d ds]; [done|]. cbn. by rewrite bool_decide_eq_true_2.
  - unfold topology_select. destruct (has_display _ _) eqn:E; by split.
Qed.

Lemma find_display_has ds id :
  has_display ds id = true → ∃ d, find_display ds id = Some d ∧ d ∈ ds ∧ d.(di_id) = id.
Proof.
  induction ds as [|d ds IH]; cbn; [done|]. case_bool_decide as E; cbn.
  - intros _. exists d. split; [done|]. split; [left|done].
  - intros H. destruct (IH H) as (d' & ? & ? & ?). exists d'. split; [done|]. split; [by right|done].
Qed.

(** After any sequence of topology updates and selections, a display is
    selected exactly when there is one; the selected display is one of the
    current topology, and it has a visible id and non-zero width, height and
    scale. *)
Theorem selected_display_valid ops :
  let t := foldl topology_step topology_default ops in
  match topology_selected t with
  | Some d => d ∈ t.(displays) ∧ t.(selected_id) = Some d.(di_id) ∧ is_blank d.(di_id) = false ∧
              d.(di_width) ≠ 0 ∧ d.(di_height) ≠ 0 ∧ d.(di_scale_milli) ≠ 0
  | None => t.(displays) = []
  end.
Proof.
  intros t. assert (topology_ok t) as [Hs Hv].
  { assert (topology_ok topology_default) as H0 by done. unfold t. clear t. revert H0.
    generalize topology_default. induction ops as [|op ops IH]; intros t Ht; [done|].
    cbn. by apply IH, topology_step_ok. }
  unfold topology_selected. destruct (selected_id t) as [id|]; [|done].
  apply find_display_has in Hs as (d & -> & Hd & <-).
  rewrite existsb_false_iff in Hv. specialize (Hv d Hd). unfold invalid_display in Hv.
  split_bools. done.
Qed.

Example map_normalized_corners :
  let d := {| di_id := str "a"; di_x := -100; di_y := 0; di_width := 1920; di_height := 1080;
              di_scale_milli := 1000; di_rotation_degrees := 0 |} in
  let t := {| displays := [d]; selected_id := Some (str "a") |} in
  map_normalized t (str "a") f64_one f64_zero = Return (Ok (1819, 0)) ∧
  map_normalized t (str "a") (S754_finite false (2 ^ 52) (-53)) f64_one = Return (Ok (860, 1079)) ∧
  map_normalized t (str "a") S754_nan f64_one = Return (Err InvalidCoordinate) ∧
  map_normalized t (str "b") f64_one f64_one = Return (Err UnknownDisplay).
Proof. repeat split; vm_compute; reflexivity. Qed.

(** Mapping overflows on a display whose right edge lies beyond the largest
    coordinate. *)
Theorem map_normalized_overflows :
  let d := {| di_id := str "a"; di_x := 2 ^ 31 - 1; di_y := 0; di_width := 2; di_height := 1;
              di_scale_milli := 1000; di_rotation_degrees := 0 |} in
  let t := foldl topology_step topology_default [Replace [d]] in
  topology_selected t = Some d ∧ map_normalized t (str "a") f64_one f64_zero = Panic.
Proof. split; vm_compute; reflexivity. Qed.
