(* ===== verification/Scheduler.v ===== *)
(** * The priority scheduler

    Models crates/remote-transport/src/scheduler.rs: six FIFO queues, a slot
    that keeps only the latest realtime input, and a bound on the queued bytes.
    It is proved to refine a scheduler over the plain list of pending packets in
    order of arrival. *)

From S2P Require Import Prelude Header.

Definition DEFAULT_MAX_QUEUED_BYTES : Z := 8 * 1024 * 1024.
Definition PRIORITY_LEVELS : nat := 6.

Inductive SchedulerError := SchedInvalidChannel | PayloadLengthMismatch | Backpressure.
#[global] Instance SchedulerError_eq_dec : EqDecision SchedulerError.
Proof. solve_decision. Defined.

Record ScheduledPacket := { sp_header : MessageHeader; sp_payload : bytes }.

Definition wire_len (p : ScheduledPacket) : Z := sat_add 64 (Z.of_nat HEADER_LEN) (len p.(sp_payload)).

Record PriorityScheduler := {
  queues : list (list ScheduledPacket);
  latest_realtime_input : option ScheduledPacket;
  max_queued_bytes : Z;
  queued_bytes : Z }.

Definition scheduler_new (max : Z) : PriorityScheduler :=
  {| queues := repeat [] PRIORITY_LEVELS; latest_realtime_input := None;
     max_queued_bytes := max; queued_bytes := 0 |}.

Definition scheduler_default : PriorityScheduler := scheduler_new DEFAULT_MAX_QUEUED_BYTES.

Definition channel_priority (c : ChannelId) : nat :=
  match c with
  | SecureControl | InputReliable | DeviceControl => 0
  | MediaControl => 1
  | Video => 2
  | Clipboard => 3
  | FileTransfer => 4
  | Telemetry => 5
  | InputRealtime => 0
  end.

Definition priority (p : ScheduledPacket) : nat := channel_priority p.(sp_header).(channel_id).

Definition enqueue (s : PriorityScheduler) (p : ScheduledPacket)
    : result SchedulerError unit * PriorityScheduler :=
  match (_ ← map_err (λ _, SchedInvalidChannel) (validate_kind_channel p.(sp_header));
         ensure (p.(sp_header).(payload_len) =? len p.(sp_payload)) PayloadLengthMismatch) with
  | Err e => (Err e, s)
  | Ok _ =>
      if p.(sp_header).(channel_id) =! InputRealtime then
        let replaced_len := match s.(latest_realtime_input) with
                            | Some q => wire_len q | None => 0 end in
        let projected := sat_add 64 (sat_sub s.(queued_bytes) replaced_len) (wire_len p) in
        if s.(max_queued_bytes) <? projected then (Err Backpressure, s)
        else (Ok tt, {| queues := s.(queues); latest_realtime_input := Some p;
                        max_queued_bytes := s.(max_queued_bytes); queued_bytes := projected |})
      else
        let projected := sat_add 64 s.(queued_bytes) (wire_len p) in
        if s.(max_queued_bytes) <? projected then (Err Backpressure, s)
        else (Ok tt, {| queues := alter (λ q, q ++ [p]) (priority p) s.(queues);
                        latest_realtime_input := s.(latest_realtime_input);
                        max_queued_bytes := s.(max_queued_bytes); queued_bytes := projected |})
  end.

(** [queues.iter_mut().find_map(|queue| queue.pop_front())]. *)
Fixpoint pop_queues (qs : list (list ScheduledPacket))
    : option (ScheduledPacket * list (list ScheduledPacket)) :=
  match qs with
  | [] => None
  | (p :: q) :: qs => Some (p, q :: qs)
  | [] :: qs =>
      match pop_queues qs with
      | Some (p, qs) => Some (p, [] :: qs)
      | None => None
      end
  end.

Definition pop_next (s : PriorityScheduler) : option ScheduledPacket * PriorityScheduler :=
  match s.(latest_realtime_input) with
  | Some p =>
      (Some p, {| queues := s.(queues); latest_realtime_input := None;
                  max_queued_bytes := s.(max_queued_bytes);
                  queued_bytes := sat_sub s.(queued_bytes) (wire_len p) |})
  | None =>
      match pop_queues s.(queues) with
      | None => (None, s)
      | Some (p, qs) =>
          (Some p, {| queues := qs; latest_realtime_input := None;
                      max_queued_bytes := s.(max_queued_bytes);
                      queued_bytes := sat_sub s.(queued_bytes) (wire_len p) |})
      end
  end.

Definition scheduler_is_empty (s : PriorityScheduler) : bool :=
  match s.(latest_realtime_input) with
  | Some _ => false
  | None => forallb (λ q, match q with [] => true | _ => false end) s.(queues)
  end.

(** ** The specification: pending packets in order of arrival *)

Record Pending := { realtime : option ScheduledPacket; arrivals : list ScheduledPacket }.

Definition total (ps : list ScheduledPacket) : Z := foldr (λ p n, wire_len p + n) 0 ps.
#[global] Arguments total : simpl never.
Definition slot (o : option ScheduledPacket) : list ScheduledPacket :=
  match o with Some p => [p] | None => [] end.

Definition pending_bytes (s : Pending) : Z := total (slot s.(realtime)) + total s.(arrivals).

(** A realtime packet replaces the previous one; any other joins the end. The
    bound applies to what would then be pending. *)
Definition spec_enqueue (max : Z) (s : Pending) (p : ScheduledPacket)
    : result SchedulerError unit * Pending :=
  if negb (accepts_channel p.(sp_header).(kind) p.(sp_header).(channel_id))
  then (Err SchedInvalidChannel, s)
  else if negb (p.(sp_header).(payload_len) =? len p.(sp_payload))
  then (Err PayloadLengthMismatch, s)
  else
    let s' := if p.(sp_header).(channel_id) =! InputRealtime
              then {| realtime := Some p; arrivals := s.(arrivals) |}
              else {| realtime := s.(realtime); arrivals := s.(arrivals) ++ [p] |} in
    if max <? pending_bytes s' then (Err Backpressure, s) else (Ok tt, s').

(** Remove the first packet of level [k]. *)
Fixpoint take_level (k : nat) (ps : list ScheduledPacket)
    : option (ScheduledPacket * list ScheduledPacket) :=
  match ps with
  | [] => None
  | p :: ps =>
      if bool_decide (priority p = k) then Some (p, ps)
      else match take_level k ps with Some (x, ps) => Some (x, p :: ps) | None => None end
  end.

(** The oldest packet of the most urgent level present, from level [k] on. *)
Fixpoint take_urgent (fuel k : nat) (ps : list ScheduledPacket)
    : option (ScheduledPacket * list ScheduledPacket) :=
  match fuel with
  | O => None
  | S fuel => match take_level k ps with
              | Some r => Some r
              | None => take_urgent fuel (S k) ps
              end
  end.

Definition spec_pop (s : Pending) : option ScheduledPacket * Pending :=
  match s.(realtime) with
  | Some p => (Some p, {| realtime := None; arrivals := s.(arrivals) |})
  | None => match take_urgent PRIORITY_LEVELS 0 s.(arrivals) with
            | Some (p, ps) => (Some p, {| realtime := None; arrivals := ps |})
            | None => (None, s)
            end
  end.

Definition level (ps : list ScheduledPacket) (k : nat) : list ScheduledPacket :=
  filter (λ p, priority p = k) ps.

Record sched_rel (max : Z) (s : PriorityScheduler) (a : Pending) : Prop := {
  rel_queues : s.(queues) = level a.(arrivals) <$> seq 0 PRIORITY_LEVELS;
  rel_realtime : s.(latest_realtime_input) = a.(realtime);
  rel_max : s.(max_queued_bytes) = max;
  rel_bytes : s.(queued_bytes) = pending_bytes a;
  rel_bound : pending_bytes a ≤ max }.

Lemma priority_lt p : (priority p < PRIORITY_LEVELS)%nat.
Proof. unfold priority, PRIORITY_LEVELS. destruct (channel_id _); cbn; lia. Qed.

Lemma wire_len_nonneg p : 0 ≤ wire_len p.
Proof. unfold wire_len, sat_add, u_max. pose proof (len_nonneg (sp_payload p)). lia. Qed.

Lemma total_cons p ps : total (p :: ps) = wire_len p + total ps.
Proof. done. Qed.

Lemma total_nil : total [] = 0.
Proof. done. Qed.

Lemma total_nonneg ps : 0 ≤ total ps.
Proof.
  induction ps as [|p ps IH]; [done|]. pose proof (wire_len_nonneg p). rewrite total_cons. lia.
Qed.

Lemma total_app ps qs : total (ps ++ qs) = total ps + total qs.
Proof. induction ps as [|p ps IH]; cbn [app]; rewrite ?total_cons, ?total_nil; lia. Qed.

Lemma pending_bytes_snoc a p :
  pending_bytes {| realtime := a.(realtime); arrivals := a.(arrivals) ++ [p] |} =
  pending_bytes a + wire_len p.
Proof. unfold pending_bytes. cbn. rewrite total_app, total_cons, total_nil. lia. Qed.

Lemma pending_bytes_realtime a p :
  pending_bytes {| realtime := Some p; arrivals := a.(arrivals) |} =
  pending_bytes a - match a.(realtime) with Some q => wire_len q | None => 0 end + wire_len p.
Proof.
  unfold pending_bytes. destruct (realtime a); cbn; rewrite !total_cons, ?total_nil; lia.
Qed.

Lemma pending_bytes_slot a :
  0 ≤ match a.(realtime) with Some q => wire_len q | None => 0 end ≤ pending_bytes a.
Proof.
  unfold pending_bytes. pose proof (total_nonneg (arrivals a)).
  destruct (realtime a) as [q|]; cbn; rewrite ?total_cons, ?total_nil;
    [pose proof (wire_len_nonneg q)|]; lia.
Qed.

Lemma level_snoc ps p k :
  level (ps ++ [p]) k = if bool_decide (priority p = k) then level ps k ++ [p] else level ps k.
Proof.
  unfold level. rewrite filter_app. case_bool_decide.
  - by rewrite filter_cons_True by done.
  - rewrite filter_cons_False by done. by rewrite app_nil_r.
Qed.

Lemma levels_snoc ps p :
  level (ps ++ [p]) <$> seq 0 PRIORITY_LEVELS =
  alter (λ q, q ++ [p]) (priority p) (level ps <$> seq 0 PRIORITY_LEVELS).
Proof.
  apply list_eq. intros k. rewrite list_lookup_fmap.
  destruct (decide (k = priority p)) as [->|Hk].
  - rewrite list_lookup_alter_eq, list_lookup_fmap.
    rewrite lookup_seq_lt by apply priority_lt. cbn. rewrite level_snoc.
    by rewrite bool_decide_eq_true_2.
  - rewrite list_lookup_alter_ne by done. rewrite list_lookup_fmap.
    destruct (decide (k < PRIORITY_LEVELS)%nat).
    + rewrite lookup_seq_lt by done. cbn. rewrite level_snoc.
      by rewrite bool_decide_eq_false_2 by congruence.
    + by rewrite lookup_seq_ge by lia.
Qed.

Lemma take_level_none k ps : take_level k ps = None ↔ level ps k = [].
Proof.
  unfold level. induction ps as [|p ps IH]; cbn [take_level]; [done|]. case_bool_decide as E.
  - by rewrite filter_cons_True by done.
  - rewrite filter_cons_False by done. rewrite <-IH. by destruct (take_level k ps) as [[]|].
Qed.

Lemma take_level_some k ps p ps' :
  take_level k ps = Some (p, ps') →
  priority p = k ∧ level ps k = p :: level ps' k ∧ total ps = wire_len p + total ps' ∧
  ∀ j, j ≠ k → level ps' j = level ps j.
Proof.
  unfold level. revert ps'. induction ps as [|x ps IH]; intros ps' H; cbn in H; [done|].
  case_bool_decide as E; simplify_eq.
  - split; [done|]. split; [by rewrite filter_cons_True|]. split; [done|].
    intros j Hj. by rewrite filter_cons_False by congruence.
  - destruct (take_level k ps) as [[y qs]|]; simplify_eq.
    destruct (IH _ eq_refl) as (Hp & Hl & Ht & Hn).
    split; [done|]. split; [by rewrite !filter_cons_False|].
    split; [rewrite !total_cons; lia|].
    intros j Hj. rewrite !filter_cons. by rewrite Hn.
Qed.

Lemma take_urgent_some n k ps p ps' :
  take_urgent n k ps = Some (p, ps') → ∃ j, (k ≤ j)%nat ∧ take_level j ps = Some (p, ps').
Proof.
  revert k. induction n as [|n IH]; intros k H; cbn in H; [done|].
  destruct (take_level k ps) as [r|] eqn:E; simplify_eq; [by eauto|].
  destruct (IH _ H) as (j & ? & ?). exists j. split; [lia|done].
Qed.

Lemma pop_queues_levels n k ps :
  pop_queues (level ps <$> seq k n) =
  match take_urgent n k ps with
  | Some (p, ps') => Some (p, level ps' <$> seq k n)
  | None => None
  end.
Proof.
  revert k. induction n as [|n IH]; intros k; [done|]. cbn [seq fmap list_fmap take_urgent].
  change (list_fmap ?A ?B ?f ?l) with (f <$> l).
  destruct (take_level k ps) as [[p ps']|] eqn:E.
  - apply take_level_some in E as (_ & Hl & _ & Hn). rewrite Hl. cbn. do 3 f_equal.
    apply list_fmap_ext. intros i j Hj. apply lookup_seq in Hj as [-> ?]. symmetry. apply Hn. lia.
  - apply take_level_none in E. rewrite E. cbn. rewrite IH.
    destruct (take_urgent n (S k) ps) as [[p ps']|] eqn:Eu; [|done].
    apply take_urgent_some in Eu as (j & Hj & Ej). apply take_level_some in Ej as (_ & _ & _ & Hn).
    by rewrite (Hn k), E by lia.
Qed.

Lemma enqueue_refines max s a p :
  max < u_max 64 → sched_rel max s a →
  (enqueue s p).1 = (spec_enqueue max a p).1 ∧ sched_rel max (enqueue s p).2 (spec_enqueue max a p).2.
Proof.
  intros Hmax [Hq Hr Hm Hb Hbd]. unfold enqueue, spec_enqueue, validate_kind_channel.
  destruct (accepts_channel _ _); cbn; [|by split].
  destruct (payload_len _ =? _); cbn; [|by split].
  pose proof (wire_len_nonneg p) as Hw. pose proof (pending_bytes_slot a) as Hs.
  rewrite Hr, Hm, Hb. destruct (bool_decide _).
  - rewrite pending_bytes_realtime. unfold sat_add, sat_sub, u_max in *.
    set (old := match realtime a with Some q => wire_len q | None => 0 end) in *.
    rewrite Z.max_r by lia.
    destruct (Z.ltb_spec max (pending_bytes a - old + wire_len p)) as [Hlt|Hge].
    + destruct (Z.ltb_spec max (Z.min (pending_bytes a - old + wire_len p) (2 ^ 64 - 1))); [by split|lia].
    + destruct (Z.ltb_spec max (Z.min (pending_bytes a - old + wire_len p) (2 ^ 64 - 1))); [lia|].
      split; [done|]. split; cbn; try done; rewrite pending_bytes_realtime; lia.
  - rewrite pending_bytes_snoc. unfold sat_add, u_max in *.
    destruct (Z.ltb_spec max (pending_bytes a + wire_len p)) as [Hlt|Hge].
    + destruct (Z.ltb_spec max (Z.min (pending_bytes a + wire_len p) (2 ^ 64 - 1))); [by split|lia].
    + destruct (Z.ltb_spec max (Z.min (pending_bytes a + wire_len p) (2 ^ 64 - 1))); [lia|].
      split; [done|]. split; cbn; try done; rewrite ?pending_bytes_snoc; try lia.
      rewrite Hq. symmetry. apply levels_snoc.
Qed.

Lemma pop_refines max s a :
  sched_rel max s a →
  (pop_next s).1 = (spec_pop a).1 ∧ sched_rel max (pop_next s).2 (spec_pop a).2.
Proof.
  intros [Hq Hr Hm Hb Hbd]. unfold pop_next, spec_pop. rewrite Hr.
  pose proof (total_nonneg (arrivals a)) as Ht.
  destruct a as [[p|] ps]; unfold pending_bytes in *; cbn [realtime arrivals slot] in *.
  - pose proof (wire_len_nonneg p). rewrite total_cons, total_nil in *.
    split; [done|]. split; cbn; try done; unfold pending_bytes, sat_sub; cbn; rewrite total_nil; lia.
  - rewrite Hq, pop_queues_levels. destruct (take_urgent _ _ _) as [[p qs]|] eqn:E; cbn; [|by split].
    apply take_urgent_some in E as (j & _ & Ej). apply take_level_some in Ej as (_ & _ & Htot & _).
    pose proof (wire_len_nonneg p). pose proof (total_nonneg qs). rewrite total_nil in *.
    split; [done|]. split; cbn; try done; unfold pending_bytes, sat_sub; cbn; rewrite total_nil; lia.
Qed.

(** ** Sequences of calls *)

Inductive SchedOp := Enqueue (p : ScheduledPacket) | Pop.

Inductive SchedOut := Enqueued (r : result SchedulerError unit) | Popped (p : option ScheduledPacket).

Fixpoint sched_run (s : PriorityScheduler) (ops : list SchedOp) : list SchedOut * PriorityScheduler :=
  match ops with
  | [] => ([], s)
  | Enqueue p :: ops =>
      let '(r, s) := enqueue s p in let '(os, s) := sched_run s ops in (Enqueued r :: os, s)
  | Pop :: ops =>
      let '(r, s) := pop_next s in let '(os, s) := sched_run s ops in (Popped r :: os, s)
  end.

Fixpoint spec_sched_run (max : Z) (a : Pending) (ops : list SchedOp) : list SchedOut * Pending :=
  match ops with
  | [] => ([], a)
  | Enqueue p :: ops =>
      let '(r, a) := spec_enqueue max a p in
      let '(os, a) := spec_sched_run max a ops in (Enqueued r :: os, a)
  | Pop :: ops =>
      let '(r, a) := spec_pop a in
      let '(os, a) := spec_sched_run max a ops in (Popped r :: os, a)
  end.

Lemma sched_run_refines max s a ops :
  max < u_max 64 → sched_rel max s a →
  (sched_run s ops).1 = (spec_sched_run max a ops).1 ∧
  sched_rel max (sched_run s ops).2 (spec_sched_run max a ops).2.
Proof.
  intros Hmax. revert s a. induction ops as [|[p|] ops IH]; intros s a Hr; [done|..];
    cbn [sched_run spec_sched_run].
  - destruct (enqueue_refines max s a p Hmax Hr) as [He Hr'].
    destruct (enqueue s p) as [r s'], (spec_enqueue max a p) as [r' a']. cbn [fst snd] in *.
    destruct (IH _ _ Hr') as [Ho Hr''].
    destruct (sched_run s' ops), (spec_sched_run max a' ops). cbn [fst snd] in *. by subst.
  - destruct (pop_refines max s a Hr) as [He Hr'].
    destruct (pop_next s) as [r s'], (spec_pop a) as [r' a']. cbn [fst snd] in *.
    destruct (IH _ _ Hr') as [Ho Hr''].
    destruct (sched_run s' ops), (spec_sched_run max a' ops). cbn [fst snd] in *. by subst.
Qed.

Lemma levels_empty ps :
  forallb (λ q : list ScheduledPacket, match q with [] => true | _ => false end)
    (level ps <$> seq 0 PRIORITY_LEVELS) = true ↔ ps = [].
Proof.
  split; [|by intros ->]. intros H. destruct ps as [|p ps]; [done|].
  rewrite forallb_true_iff in H.
  assert (p :: level ps (priority p) ∈ level (p :: ps) <$> seq 0 PRIORITY_LEVELS) as Hin.
  { apply list_elem_of_fmap. exists (priority p). split.
    - unfold level. by rewrite filter_cons_True.
    - apply elem_of_seq. pose proof (priority_lt p). lia. }
  discriminate (H _ Hin).
Qed.

(** C35: The scheduler with its six queues and a bound below the largest 64-bit
    number behaves, for every sequence of calls, as the specification over the
    list of pending packets: realtime input goes first and only its latest
    value, then the oldest packet of the most urgent level. A packet on a
    channel that is not of its kind is refused, then one whose header states
    another length than its payload has, then, and only then, one with which the
    pending bytes would exceed the bound; a refused packet changes nothing. The
    byte counter is always the number of bytes pending, which never exceeds the
    bound, and the scheduler is empty exactly when nothing is pending. *)
Theorem scheduler_refines_pending max ops :
  0 ≤ max < u_max 64 →
  let '(outs, s) := sched_run (scheduler_new max) ops in
  let '(spec_outs, a) := spec_sched_run max {| realtime := None; arrivals := [] |} ops in
  outs = spec_outs ∧ s.(queued_bytes) = pending_bytes a ∧ pending_bytes a ≤ max ∧
  (scheduler_is_empty s = true ↔ a = {| realtime := None; arrivals := [] |}).
Proof.
  intros Hmax.
  assert (sched_rel max (scheduler_new max) {| realtime := None; arrivals := [] |}) as Hr.
  { split; cbn; try done. unfold pending_bytes. cbn. rewrite total_nil. lia. }
  destruct (sched_run_refines max _ _ ops ltac:(lia) Hr) as [Ho [Hq Hl _ Hb Hbd]].
  destruct (sched_run _ ops) as [outs s], (spec_sched_run _ _ ops) as [outs' a].
  cbn [fst snd] in *. split_and!; try done.
  unfold scheduler_is_empty. rewrite Hl, Hq. destruct a as [[p|] ps]; cbn [realtime arrivals]; [done|].
  rewrite levels_empty. naive_solver.
Qed.

(** Telemetry, a mouse move, a newer mouse move, control: the newer move is
    sent first, then control, then telemetry. *)
Definition example_packet (k : MessageKind) (c : ChannelId) (seq : Z) : ScheduledPacket :=
  {| sp_header := {| version := 1; kind := k; flags := 0; channel_id := c; session_id := 1;
                     sequence := seq; payload_len := 2 |}; sp_payload := str "ab" |}.

Lemma scheduler_refines_pending_witness :
  let ops := [Enqueue (example_packet Stats Telemetry 0);
              Enqueue (example_packet InputEventKind InputRealtime 1);
              Enqueue (example_packet InputEventKind InputRealtime 2);
              Enqueue (example_packet ErrorReport SecureControl 3); Pop; Pop; Pop; Pop] in
  let '(outs, s) := sched_run (scheduler_new 200) ops in
  let '(spec_outs, a) := spec_sched_run 200 {| realtime := None; arrivals := [] |} ops in
  outs = spec_outs ∧ s.(queued_bytes) = pending_bytes a ∧ pending_bytes a ≤ 200 ∧
  (scheduler_is_empty s = true ↔ a = {| realtime := None; arrivals := [] |}).
Proof. intros ops. apply (scheduler_refines_pending 200 ops). vm_compute. split; congruence. Defined.

Example scheduler_order :
  (sched_run (scheduler_new 200)
    [Enqueue (example_packet Stats Telemetry 0);
     Enqueue (example_packet InputEventKind InputRealtime 1);
     Enqueue (example_packet InputEventKind InputRealtime 2);
     Enqueue (example_packet ErrorReport SecureControl 3); Pop; Pop; Pop; Pop]).1 =
  [Enqueued (Ok tt); Enqueued (Ok tt); Enqueued (Ok tt); Enqueued (Ok tt);
   Popped (Some (example_packet InputEventKind InputRealtime 2));
   Popped (Some (example_packet ErrorReport SecureControl 3));
   Popped (Some (example_packet Stats Telemetry 0)); Popped None].
Proof. vm_compute. reflexivity. Qed.
