(* ===== verification/Racing.v ===== *)
(** * Path racing

    Models crates/remote-transport/src/lib.rs (transport kinds, candidates, link
    metrics, the choice of the best candidate) and racing.rs (the race of
    connection attempts). [Iterator::min_by] keeps the first of equal elements. *)

From S2P Require Import Prelude Security.

Inductive TransportKind := KLanDirect | KUdpP2p | KQuicRelay | KTls443Relay.
#[global] Instance TransportKind_eq_dec : EqDecision TransportKind.
Proof. solve_decision. Defined.

Definition kind_priority (k : TransportKind) : Z :=
  match k with KLanDirect => 0 | KUdpP2p => 1 | KQuicRelay => 2 | KTls443Relay => 3 end.

(** [From<TransportKind> for TransportPath]. *)
Definition path_of_kind (k : TransportKind) : TransportPath :=
  match k with
  | KLanDirect => LanDirect | KUdpP2p => UdpP2p
  | KQuicRelay => QuicRelay | KTls443Relay => Tls443Relay
  end.

Record ConnectionCandidate := {
  cand_kind : TransportKind; cand_endpoint : rstr; cand_rtt_ms : option Z }.
#[global] Instance ConnectionCandidate_eq_dec : EqDecision ConnectionCandidate.
Proof. solve_decision. Defined.

Record LinkMetrics := { lm_rtt_ms : Z; lm_loss_ppm : Z; lm_jitter_ms : Z }.
#[global] Instance LinkMetrics_eq_dec : EqDecision LinkMetrics.
Proof. solve_decision. Defined.

(** [Ordering::then_with]. *)
Definition then_with (c d : comparison) : comparison := match c with Eq => d | c => c end.

(** [Iterator::min_by]. *)
Definition min_by {A} (cmp : A → A → comparison) (l : list A) : option A :=
  match l with
  | [] => None
  | x :: l => Some (fold_left (λ x y, match cmp x y with Gt => y | _ => x end) l x)
  end.

(** The key [(priority, rtt)] of [choose_best_candidate]; [u32::MAX / 2] for an
    unknown round-trip time. *)
Definition candidate_key (c : ConnectionCandidate) : Z * Z :=
  (kind_priority c.(cand_kind), default ((2 ^ 32 - 1) / 2) c.(cand_rtt_ms)).

Definition compare_pair (a b : Z * Z) : comparison :=
  then_with (a.1 ?= b.1) (a.2 ?= b.2).

Definition choose_best_candidate (cs : list ConnectionCandidate) : option ConnectionCandidate :=
  min_by (λ a b, compare_pair (candidate_key a) (candidate_key b)) cs.

(** ** The race *)

Definition DEFAULT_TLS_443_START_DELAY_MILLIS : Z := 500.
Definition DEFAULT_RTT_CLOSE_THRESHOLD_MILLIS : Z := 10.

Record RaceConfig := { tls_443_start_delay_millis : Z; rtt_close_threshold_millis : Z }.

Definition race_config_default : RaceConfig :=
  {| tls_443_start_delay_millis := DEFAULT_TLS_443_START_DELAY_MILLIS;
     rtt_close_threshold_millis := DEFAULT_RTT_CLOSE_THRESHOLD_MILLIS |}.

Inductive RaceAttemptState := AttemptPending | AttemptStarted | AttemptSucceeded (m : LinkMetrics) | AttemptFailed.
#[global] Instance RaceAttemptState_eq_dec : EqDecision RaceAttemptState.
Proof. solve_decision. Defined.

Record RaceAttempt := { ra_attempt_id : nat; ra_candidate : ConnectionCandidate }.
Record RaceWinner := { rw_attempt_id : nat; rw_candidate : ConnectionCandidate; rw_metrics : LinkMetrics }.

Record AttemptEntry := { ae_candidate : ConnectionCandidate; ae_state : RaceAttemptState }.

Record PathRace := {
  race_config : RaceConfig; race_started_at : Z; race_attempts : list AttemptEntry }.

Definition race_new (cs : list ConnectionCandidate) (started_at : Z) (config : RaceConfig) : PathRace :=
  {| race_config := config; race_started_at := started_at;
     race_attempts := (λ c, {| ae_candidate := c; ae_state := AttemptPending |}) <$> cs |}.

Definition set_attempts (r : PathRace) (l : list AttemptEntry) : PathRace :=
  {| race_config := r.(race_config); race_started_at := r.(race_started_at); race_attempts := l |}.

Definition tls_due (r : PathRace) (now : Z) : bool :=
  r.(race_config).(tls_443_start_delay_millis) <=? sat_sub now r.(race_started_at).

Definition entry_due (due : bool) (e : AttemptEntry) : bool :=
  negb ((e.(ae_state) ≠! AttemptPending)
        || ((e.(ae_candidate).(cand_kind) =! KTls443Relay) && negb due)).

(** The entries from index [i] on, with the attempts that are released. *)
Fixpoint release_from (due : bool) (i : nat) (l : list AttemptEntry)
    : list RaceAttempt * list AttemptEntry :=
  match l with
  | [] => ([], [])
  | e :: l =>
      let '(out, l) := release_from due (S i) l in
      if entry_due due e then
        ({| ra_attempt_id := i; ra_candidate := e.(ae_candidate) |} :: out,
         {| ae_candidate := e.(ae_candidate); ae_state := AttemptStarted |} :: l)
      else (out, e :: l)
  end.

Definition take_due_attempts (r : PathRace) (now : Z) : list RaceAttempt * PathRace :=
  let '(out, l) := release_from (tls_due r now) 0 r.(race_attempts) in (out, set_attempts r l).

Inductive TransportError :=
| TransportNotConnected | TransportBackpressure | TransportIsClosed | TransportInvalidState
| TransportInvalidBinding | TransportIo (m : rstr).

(** The common body of [record_success] and [record_failure]. *)
Definition record_outcome (r : PathRace) (id : nat) (st : RaceAttemptState)
    : result TransportError unit * PathRace :=
  match r.(race_attempts) !! id with
  | None => (Err TransportInvalidState, r)
  | Some e =>
      if e.(ae_state) ≠! AttemptStarted then (Err TransportInvalidState, r)
      else (Ok tt, set_attempts r
              (<[id := {| ae_candidate := e.(ae_candidate); ae_state := st |}]> r.(race_attempts)))
  end.
Definition record_success (r : PathRace) (id : nat) (m : LinkMetrics) := record_outcome r id (AttemptSucceeded m).
Definition record_failure (r : PathRace) (id : nat) := record_outcome r id AttemptFailed.

Definition attempt_state (r : PathRace) (id : nat) : option RaceAttemptState :=
  ae_state <$> r.(race_attempts) !! id.

Definition compare_same_path_metrics (l r : LinkMetrics) (config : RaceConfig) : comparison :=
  if abs_diff l.(lm_rtt_ms) r.(lm_rtt_ms) <=? config.(rtt_close_threshold_millis)
  then then_with (l.(lm_loss_ppm) ?= r.(lm_loss_ppm))
         (then_with (l.(lm_jitter_ms) ?= r.(lm_jitter_ms)) (l.(lm_rtt_ms) ?= r.(lm_rtt_ms)))
  else l.(lm_rtt_ms) ?= r.(lm_rtt_ms).

Definition compare_winners (config : RaceConfig) (l r : RaceWinner) : comparison :=
  then_with (kind_priority l.(rw_candidate).(cand_kind) ?= kind_priority r.(rw_candidate).(cand_kind))
    (then_with (compare_same_path_metrics l.(rw_metrics) r.(rw_metrics) config)
       (Nat.compare l.(rw_attempt_id) r.(rw_attempt_id))).

Fixpoint successes_from (i : nat) (l : list AttemptEntry) : list RaceWinner :=
  match l with
  | [] => []
  | e :: l =>
      match e.(ae_state) with
      | AttemptSucceeded m =>
          {| rw_attempt_id := i; rw_candidate := e.(ae_candidate); rw_metrics := m |}
            :: successes_from (S i) l
      | _ => successes_from (S i) l
      end
  end.

Definition best_success (r : PathRace) : option RaceWinner :=
  min_by (compare_winners r.(race_config)) (successes_from 0 r.(race_attempts)).

Definition race_is_complete (r : PathRace) : bool :=
  forallb (λ e, match e.(ae_state) with AttemptSucceeded _ | AttemptFailed => true | _ => false end)
    r.(race_attempts).

(** ** Minima *)

(** When [cmp] decides a preorder [R], up to ties, the minimum is least for [R],
    whatever [cmp] does between [R]-equivalent elements. *)
Section minima.
Context {A : Type} (cmp : A → A → comparison) (R : A → A → Prop) `{!PreOrder R}.
Context (Hgt : ∀ a b, cmp a b = Gt → R b a) (Hle : ∀ a b, cmp a b ≠ Gt → R a b).

Lemma min_fold_least l a :
  let m := fold_left (λ x y, match cmp x y with Gt => y | _ => x end) l a in
  (m = a ∨ m ∈ l) ∧ R m a ∧ ∀ y, y ∈ l → R m y.
Proof.
  revert a. induction l as [|b l IH]; intros a; cbn.
  { split; [by left|]. split; [done|]. intros y Hy. by apply elem_of_nil in Hy. }
  set (a' := match cmp a b with Gt => b | _ => a end).
  assert ((a' = a ∨ a' = b) ∧ R a' a ∧ R a' b) as (Hor & Ha & Hb).
  { unfold a'. specialize (Hgt a b). specialize (Hle a b).
    destruct (cmp a b); split_and!; auto; reflexivity. }
  destruct (IH a') as (Hm & Hma & Hml). clearbody a'. split; [|split; [by etransitivity|]].
  { rewrite elem_of_cons. destruct Hm as [Hm|Hm]; [rewrite Hm|]; naive_solver. }
  intros y Hy. apply elem_of_cons in Hy as [->|Hy]; [by etransitivity|by apply Hml].
Qed.

Lemma min_by_least l x : min_by cmp l = Some x → x ∈ l ∧ ∀ y, y ∈ l → R x y.
Proof.
  destruct l as [|a l]; [done|]. cbn. intros [= <-].
  destruct (min_fold_least l a) as (Hm & Ha & Hl). split; [rewrite elem_of_cons; naive_solver|].
  intros y Hy. apply elem_of_cons in Hy as [->|Hy]; [done|by apply Hl].
Qed.
End minima.

Lemma min_by_some {A} (cmp : A → A → comparison) l : l ≠ [] → is_Some (min_by cmp l).
Proof. destruct l; [done|]. cbn. eauto. Qed.

Lemma then_with_gt a b d : then_with (a ?= b) d = Gt → b ≤ a.
Proof. unfold then_with. destruct (Z.compare_spec a b); intros; (lia || done). Qed.

Lemma then_with_not_gt a b d : then_with (a ?= b) d ≠ Gt → a ≤ b.
Proof. unfold then_with. destruct (Z.compare_spec a b); intros; (lia || done). Qed.

(** Preference by kind. *)
Definition winner_kind_le (a b : RaceWinner) : Prop :=
  kind_priority a.(rw_candidate).(cand_kind) ≤ kind_priority b.(rw_candidate).(cand_kind).
#[global] Instance winner_kind_le_preorder : PreOrder winner_kind_le.
Proof. split; [intros a; unfold winner_kind_le; lia|intros a b c; unfold winner_kind_le; lia]. Qed.

(** The lexicographic order of candidate keys. *)
Definition candidate_le (a b : ConnectionCandidate) : Prop :=
  (candidate_key a).1 < (candidate_key b).1 ∨
  (candidate_key a).1 = (candidate_key b).1 ∧ (candidate_key a).2 ≤ (candidate_key b).2.
#[global] Instance candidate_le_preorder : PreOrder candidate_le.
Proof. split; [intros a; unfold candidate_le; lia|intros a b c; unfold candidate_le; lia]. Qed.

Lemma compare_pair_gt a b :
  (compare_pair a b = Gt → b.1 < a.1 ∨ b.1 = a.1 ∧ b.2 ≤ a.2) ∧
  (compare_pair a b ≠ Gt → a.1 < b.1 ∨ a.1 = b.1 ∧ a.2 ≤ b.2).
Proof.
  unfold compare_pair, then_with.
  destruct (Z.compare_spec a.1 b.1), (Z.compare_spec a.2 b.2); split; intros; (lia || done).
Qed.

Lemma successes_from_elem i l w :
  w ∈ successes_from i l ↔
  ∃ j, w.(rw_attempt_id) = (i + j)%nat ∧
       l !! j = Some {| ae_candidate := w.(rw_candidate); ae_state := AttemptSucceeded w.(rw_metrics) |}.
Proof.
  revert i. induction l as [|e l IH]; intros i; cbn.
  { split; [intros H; by apply elem_of_nil in H|]. by intros (j & _ & Hj). }
  assert ((∃ j, rw_attempt_id w = (S i + j)%nat ∧ l !! j =
      Some {| ae_candidate := rw_candidate w; ae_state := AttemptSucceeded (rw_metrics w) |}) ↔
    (∃ j, rw_attempt_id w = (i + S j)%nat ∧ l !! j =
      Some {| ae_candidate := rw_candidate w; ae_state := AttemptSucceeded (rw_metrics w) |})) as Hsh.
  { split; intros (j & ? & ?); exists j; (split; [lia|done]). }
  assert (∀ Q, (∃ j, rw_attempt_id w = (i + j)%nat ∧ (e :: l) !! j = Some Q) ↔
    (rw_attempt_id w = i ∧ e = Q) ∨ (∃ j, rw_attempt_id w = (i + S j)%nat ∧ l !! j = Some Q)) as Hc.
  { intros Q. split.
    - intros ([|j] & ? & Hj); [left|right; eauto]. injection Hj as ->. split; [lia|done].
    - intros [[? ->]|(j & ? & ?)]; [exists 0%nat|exists (S j)]; (split; [lia|done]). }
  rewrite Hc, <-Hsh, <-IH. destruct e as [c st]. cbn.
  destruct st as [| |m|]; rewrite ?elem_of_cons; destruct w; cbn; naive_solver.
Qed.

(** ** Sequences of calls *)

Inductive RaceOp := TakeDue (now : Z) | Success (id : nat) (m : LinkMetrics) | Failure (id : nat).

Definition race_step (r : PathRace) (op : RaceOp) : list (Z * RaceAttempt) * PathRace :=
  match op with
  | TakeDue now => let '(out, r) := take_due_attempts r now in (pair now <$> out, r)
  | Success id m => ([], (record_success r id m).2)
  | Failure id => ([], (record_failure r id).2)
  end.

(** The attempts released, each with the time of its release. *)
Fixpoint race_run (r : PathRace) (ops : list RaceOp) : list (Z * RaceAttempt) * PathRace :=
  match ops with
  | [] => ([], r)
  | op :: ops =>
      let '(o, r) := race_step r op in
      let '(os, r) := race_run r ops in (o ++ os, r)
  end.

Definition started_entry (due : bool) (e : AttemptEntry) : AttemptEntry :=
  if entry_due due e then {| ae_candidate := e.(ae_candidate); ae_state := AttemptStarted |} else e.

Lemma release_from_entries due i l : (release_from due i l).2 = started_entry due <$> l.
Proof.
  revert i. induction l as [|e l IH]; intros i; [done|]. cbn. rewrite <-(IH (S i)).
  unfold started_entry. destruct (release_from due (S i) l). by destruct (entry_due due e).
Qed.

Lemma release_from_out due i l a :
  a ∈ (release_from due i l).1 ↔
  ∃ j e, a.(ra_attempt_id) = (i + j)%nat ∧ l !! j = Some e ∧ entry_due due e = true ∧
         a.(ra_candidate) = e.(ae_candidate).
Proof.
  revert i. induction l as [|e l IH]; intros i; cbn.
  { split; [intros H; by apply elem_of_nil in H|]. by intros (j & e & _ & Hj & _). }
  assert (a ∈ (release_from due (S i) l).1 ↔ ∃ j e', ra_attempt_id a = (i + S j)%nat ∧
    l !! j = Some e' ∧ entry_due due e' = true ∧ ra_candidate a = ae_candidate e') as Htl.
  { rewrite IH. split; intros (j & e' & ? & ?); exists j, e'; (split; [lia|done]). }
  destruct (release_from due (S i) l) as [out l']. cbn in Htl.
  transitivity ((entry_due due e = true ∧ a = {| ra_attempt_id := i; ra_candidate := ae_candidate e |})
    ∨ a ∈ out).
  - destruct (entry_due due e); cbn; rewrite ?elem_of_cons; naive_solver.
  - rewrite Htl. split.
    + intros [[He ->]|(j & e' & ? & ?)]; [exists 0%nat, e|exists (S j), e']; (split; [cbn; lia|done]).
    + intros ([|j] & e' & Hi & Hl & He & Hc); [left|right; by exists j, e']. injection Hl as <-.
      split; [done|]. destruct a; cbn in *. subst. f_equal. lia.
Qed.

Lemma release_from_ids due i l : NoDup (ra_attempt_id <$> (release_from due i l).1).
Proof.
  revert i. induction l as [|e l IH]; intros i; cbn; [constructor|].
  specialize (IH (S i)). pose proof (release_from_out due (S i) l) as Hout.
  destruct (release_from due (S i) l) as [out l']. cbn in *.
  destruct (entry_due due e); [|done]. cbn. constructor; [|done].
  intros (a & Ha & Hin)%list_elem_of_fmap. apply Hout in Hin as (j & e' & Hj & _). cbn in Ha. lia.
Qed.

Lemma entry_due_true due e :
  entry_due due e = true ↔
  e.(ae_state) = AttemptPending ∧ (e.(ae_candidate).(cand_kind) = KTls443Relay → due = true).
Proof.
  unfold entry_due. repeat case_bool_decide; destruct due; cbn; naive_solver.
Qed.

(** A call never makes an attempt pending again, and never changes a candidate,
    the start time or the configuration. *)
Lemma race_step_mono r op :
  (race_step r op).2.(race_config) = r.(race_config) ∧
  (race_step r op).2.(race_started_at) = r.(race_started_at) ∧
  ∀ j e', (race_step r op).2.(race_attempts) !! j = Some e' →
    ∃ e, r.(race_attempts) !! j = Some e ∧ e'.(ae_candidate) = e.(ae_candidate) ∧
         (e'.(ae_state) = AttemptPending → e.(ae_state) = AttemptPending).
Proof.
  assert (∀ id st, st ≠ AttemptPending →
    let r' := (record_outcome r id st).2 in
    race_config r' = race_config r ∧ race_started_at r' = race_started_at r ∧
    ∀ j e', race_attempts r' !! j = Some e' → ∃ e, race_attempts r !! j = Some e ∧
      ae_candidate e' = ae_candidate e ∧ (ae_state e' = AttemptPending → ae_state e = AttemptPending))
    as Hrec.
  { intros id st Hst. unfold record_outcome. destruct (race_attempts r !! id) as [e|] eqn:E; [|naive_solver].
    case_bool_decide; cbn; [|naive_solver]. split_and!; [done..|]. intros j e' Hj.
    destruct (decide (id = j)) as [<-|Hn].
    - rewrite list_lookup_insert_eq in Hj by (by eapply lookup_lt_Some). injection Hj as <-. naive_solver.
    - rewrite list_lookup_insert_ne in Hj by done. naive_solver. }
  destruct op as [now|id m|id]; cbn; [|by apply Hrec..].
  unfold take_due_attempts. pose proof (release_from_entries (tls_due r now) 0 (race_attempts r)) as He.
  destruct (release_from _ _ _) as [out l]. cbn in *. split_and!; [done..|]. intros j e' Hj.
  rewrite He, list_lookup_fmap in Hj. destruct (race_attempts r !! j) as [e|]; [|done].
  injection Hj as <-. exists e. unfold started_entry. destruct (entry_due _ e); naive_solver.
Qed.

(** What a call releases was pending and due, and is pending no more. *)
Lemma race_step_released r op now a :
  (now, a) ∈ (race_step r op).1 →
  (∃ e, r.(race_attempts) !! a.(ra_attempt_id) = Some e ∧ e.(ae_state) = AttemptPending ∧
        a.(ra_candidate) = e.(ae_candidate) ∧
        (e.(ae_candidate).(cand_kind) = KTls443Relay → tls_due r now = true)) ∧
  attempt_state (race_step r op).2 a.(ra_attempt_id) = Some AttemptStarted.
Proof.
  destruct op as [t|id m|id]; cbn; [|intros H; by apply elem_of_nil in H..].
  unfold take_due_attempts. pose proof (release_from_entries (tls_due r t) 0 (race_attempts r)) as He.
  pose proof (release_from_out (tls_due r t) 0 (race_attempts r)) as Ho.
  destruct (release_from _ _ _) as [out l]. cbn in *.
  intros (a' & [= -> ->] & Hin)%list_elem_of_fmap.
  apply Ho in Hin as (j & e & Hj & Hl & Hd & Hc). cbn in Hj. subst j.
  pose proof (proj1 (entry_due_true _ _) Hd) as [Hs Ht].
  split; [eauto|]. unfold attempt_state. cbn. rewrite He, list_lookup_fmap, Hl. cbn.
  unfold started_entry. by rewrite Hd.
Qed.

Lemma race_step_ids r op : NoDup ((λ x, x.2.(ra_attempt_id)) <$> (race_step r op).1).
Proof.
  destruct op as [t|id m|id]; cbn; [|constructor..]. unfold take_due_attempts.
  pose proof (release_from_ids (tls_due r t) 0 (race_attempts r)) as H.
  destruct (release_from _ _ _) as [out l]. cbn in *. by rewrite <-list_fmap_compose.
Qed.

Lemma race_run_cons r op ops :
  race_run r (op :: ops) = ((race_step r op).1 ++ (race_run (race_step r op).2 ops).1,
                            (race_run (race_step r op).2 ops).2).
Proof. cbn [race_run]. destruct (race_step r op) as [o r']. cbn. by destruct (race_run r' ops). Qed.

Lemma race_run_released r ops :
  NoDup ((λ x, x.2.(ra_attempt_id)) <$> (race_run r ops).1) ∧
  ∀ now a, (now, a) ∈ (race_run r ops).1 →
    ∃ e, r.(race_attempts) !! a.(ra_attempt_id) = Some e ∧ e.(ae_state) = AttemptPending ∧
         a.(ra_candidate) = e.(ae_candidate) ∧
         (e.(ae_candidate).(cand_kind) = KTls443Relay → tls_due r now = true).
Proof.
  revert r. induction ops as [|op ops IH]; intros r.
  { split; [constructor|]. intros now a H. by apply elem_of_nil in H. }
  rewrite race_run_cons. cbn [fst]. specialize (IH (race_step r op).2) as [IHn IHs].
  destruct (race_step_mono r op) as (Hcf & Hst & Hmono). split.
  - rewrite fmap_app. apply NoDup_app. split_and!; [apply race_step_ids| |done].
    intros id ([now a] & -> & Ha)%list_elem_of_fmap ([now' a'] & Heq & Ha')%list_elem_of_fmap.
    cbn in Heq. apply race_step_released in Ha as [_ Ha].
    apply IHs in Ha' as (e & He & Hp & _). unfold attempt_state in Ha.
    rewrite Heq, He in Ha. cbn in Ha. congruence.
  - intros now a [Ha|Ha]%elem_of_app; [by apply race_step_released in Ha as [? _]|].
    apply IHs in Ha as (e' & He' & Hp & Hc & Ht).
    destruct (Hmono _ _ He') as (e & He & Hce & Hpe). exists e.
    split_and!; [done|by apply Hpe|congruence|].
    intros Hk. unfold tls_due in *. rewrite Hcf, Hst in Ht. apply Ht. congruence.
Qed.

(** ** Theorems *)

(** Over any sequence of polls and outcomes every attempt is started at
    most once; each started attempt is one of the race's candidates; and an
    attempt over TLS 443 is never started before its configured delay has
    passed. *)
Theorem race_starts_each_attempt_once cs started_at config ops :
  let released := (race_run (race_new cs started_at config) ops).1 in
  NoDup ((λ x, x.2.(ra_attempt_id)) <$> released) ∧
  ∀ now a, (now, a) ∈ released →
    cs !! a.(ra_attempt_id) = Some a.(ra_candidate) ∧
    (a.(ra_candidate).(cand_kind) = KTls443Relay →
     config.(tls_443_start_delay_millis) ≤ Z.max 0 (now - started_at)).
Proof.
  destruct (race_run_released (race_new cs started_at config) ops) as [Hn Hs].
  split; [done|]. intros now a Ha. apply Hs in Ha as (e & He & _ & Hc & Ht).
  cbn in He. rewrite list_lookup_fmap in He.
  destruct (cs !! ra_attempt_id a) as [c|]; [|done]. injection He as <-. cbn in *.
  split; [by rewrite Hc|]. intros Hk. rewrite Hc in Hk. specialize (Ht Hk).
  unfold tls_due, sat_sub in Ht. cbn in Ht. by apply Z.leb_le.
Qed.

(** The winner of a race is a successful attempt of the most preferred
    kind: no successful attempt has a kind that comes before the winner's in the
    order LAN, UDP, QUIC relay, TLS relay; and there is a winner exactly when
    some attempt succeeded. *)
Theorem race_winner_most_preferred r :
  match best_success r with
  | Some w =>
      r.(race_attempts) !! w.(rw_attempt_id) =
        Some {| ae_candidate := w.(rw_candidate); ae_state := AttemptSucceeded w.(rw_metrics) |} ∧
      ∀ id e m, r.(race_attempts) !! id = Some e → e.(ae_state) = AttemptSucceeded m →
        kind_priority w.(rw_candidate).(cand_kind) ≤ kind_priority e.(ae_candidate).(cand_kind)
  | None => ∀ id e m, r.(race_attempts) !! id = Some e → e.(ae_state) ≠ AttemptSucceeded m
  end.
Proof.
  unfold best_success. destruct (min_by _ _) as [w|] eqn:E.
  - apply (min_by_least _ winner_kind_le) in E as [Hin Hmin].
    + apply successes_from_elem in Hin as (j & Hj & Hl). cbn in Hj. rewrite <-Hj in Hl. split; [done|].
      intros id [c st] m He Hm. cbn in Hm. subst st.
      apply (Hmin {| rw_attempt_id := id; rw_candidate := c; rw_metrics := m |}).
      apply successes_from_elem. eauto.
    + intros a b. apply then_with_gt.
    + intros a b. apply then_with_not_gt.
  - intros id [c st] m He Hm. cbn in Hm. subst st.
    destruct (min_by_some (compare_winners (race_config r)) (successes_from 0 (race_attempts r))) as [w Hw];
      [|congruence].
    intros Hnil. assert ({| rw_attempt_id := id; rw_candidate := c; rw_metrics := m |}
      ∈ successes_from 0 (race_attempts r)) as Hin by (apply successes_from_elem; eauto).
    rewrite Hnil in Hin. by apply elem_of_nil in Hin.
Qed.

(** The best candidate is the first of those with the most preferred kind and,
    among these, the least round-trip time (an unknown one counting as half of
    [u32::MAX]); there is none only for an empty list. *)
Theorem best_candidate_least cs :
  match choose_best_candidate cs with
  | Some c => c ∈ cs ∧ ∀ d, d ∈ cs → candidate_le c d
  | None => cs = []
  end.
Proof.
  unfold choose_best_candidate. destruct (min_by _ cs) as [c|] eqn:E.
  - apply (min_by_least _ candidate_le) in E; [done| |]; intros a b; apply compare_pair_gt.
  - by destruct cs.
Qed.

(** A finished race of three LAN attempts. *)
Definition lan (name : string) : ConnectionCandidate :=
  {| cand_kind := KLanDirect; cand_endpoint := str name; cand_rtt_ms := None |}.
Definition finished_race (l : list (string * LinkMetrics)) : PathRace :=
  (race_run (race_new ((λ x, lan x.1) <$> l) 0 race_config_default)
     (TakeDue 0 :: imap (λ i x, Success i x.2) l)).2.

(** The comparison of link metrics is not transitive: with the default 10
    ms threshold there are three links each of which is better than the next,
    cyclically. So the winner of a race depends on the order in which the
    candidates were listed: the same three links, listed in three orders, give
    three winners. *)
Theorem metrics_order_cyclic :
  let a := {| lm_rtt_ms := 0; lm_loss_ppm := 3; lm_jitter_ms := 0 |} in
  let b := {| lm_rtt_ms := 10; lm_loss_ppm := 2; lm_jitter_ms := 0 |} in
  let c := {| lm_rtt_ms := 20; lm_loss_ppm := 1; lm_jitter_ms := 0 |} in
  compare_same_path_metrics b a race_config_default = Lt ∧
  compare_same_path_metrics c b race_config_default = Lt ∧
  compare_same_path_metrics a c race_config_default = Lt ∧
  rw_metrics <$> best_success (finished_race [("a"%string, a); ("b"%string, b); ("c"%string, c)]) = Some c ∧
  rw_metrics <$> best_success (finished_race [("b"%string, b); ("c"%string, c); ("a"%string, a)]) = Some a ∧
  rw_metrics <$> best_success (finished_race [("c"%string, c); ("a"%string, a); ("b"%string, b)]) = Some b.
Proof. repeat split; vm_compute; reflexivity. Qed.
