(* ===== verification/Reconnect.v ===== *)
(** * The connection state machine

    Models crates/remote-transport/src/reconnect.rs: the phases of a connection,
    the binding of a secure session to its path, and the decision whether a
    reconnect may resume the existing keys. *)

From S2P Require Import Prelude Security.

Definition DEFAULT_RECONNECT_WINDOW_MILLIS : Z := 30000.

Inductive ConnectionPhase :=
| PhaseIdle | Preparing | GatheringCandidates | ExchangingCandidates | PhaseRacing
| EstablishingSecureSession | PhaseConnected | PhaseDegraded | PhaseReconnecting
| PhaseClosed | PhaseFailed.
#[global] Instance ConnectionPhase_eq_dec : EqDecision ConnectionPhase.
Proof. solve_decision. Defined.

Inductive ReconnectTrigger :=
| HeartbeatTimeout | TransportClosedTrigger | SustainedHighRtt | SustainedHighLoss
| NetworkInterfaceChanged.

Inductive KeyReuseDecision := ResumeExistingKeys | RekeyRequired.
#[global] Instance KeyReuseDecision_eq_dec : EqDecision KeyReuseDecision.
Proof. solve_decision. Defined.

Record SecurePathBinding := {
  spb_transport_path : TransportPath; spb_candidate_pair_id : Z;
  spb_relay_node_id : option rstr; spb_permissions_digest : bytes }.
#[global] Instance SecurePathBinding_eq_dec : EqDecision SecurePathBinding.
Proof. solve_decision. Defined.

Definition binding_validate (b : SecurePathBinding) : bool :=
  Bool.eqb (is_relay b.(spb_transport_path)) (bool_decide (is_Some b.(spb_relay_node_id))).

Record ReconnectConfig := { key_reuse_window_millis : Z }.
Definition reconnect_config_default : ReconnectConfig :=
  {| key_reuse_window_millis := DEFAULT_RECONNECT_WINDOW_MILLIS |}.

Inductive ReconnectError := ReconnectInvalidState | InvalidPathBinding | ReconnectForbidden.
#[global] Instance ReconnectError_eq_dec : EqDecision ReconnectError.
Proof. solve_decision. Defined.

Record ConnectionStateMachine := {
  phase : ConnectionPhase;
  csm_config : ReconnectConfig;
  active_binding : option SecurePathBinding;
  pending_binding : option SecurePathBinding;
  last_authenticated_activity : option Z;
  reconnect_forbidden : bool }.

Definition csm_new (config : ReconnectConfig) : ConnectionStateMachine :=
  {| phase := PhaseIdle; csm_config := config; active_binding := None; pending_binding := None;
     last_authenticated_activity := None; reconnect_forbidden := false |}.

Definition set_phase (m : ConnectionStateMachine) (p : ConnectionPhase) : ConnectionStateMachine :=
  {| phase := p; csm_config := m.(csm_config); active_binding := m.(active_binding);
     pending_binding := m.(pending_binding);
     last_authenticated_activity := m.(last_authenticated_activity);
     reconnect_forbidden := m.(reconnect_forbidden) |}.
Definition set_pending (m : ConnectionStateMachine) (b : option SecurePathBinding) : ConnectionStateMachine :=
  {| phase := m.(phase); csm_config := m.(csm_config); active_binding := m.(active_binding);
     pending_binding := b;
     last_authenticated_activity := m.(last_authenticated_activity);
     reconnect_forbidden := m.(reconnect_forbidden) |}.
Definition set_active (m : ConnectionStateMachine) (b : option SecurePathBinding) : ConnectionStateMachine :=
  {| phase := m.(phase); csm_config := m.(csm_config); active_binding := b;
     pending_binding := m.(pending_binding);
     last_authenticated_activity := m.(last_authenticated_activity);
     reconnect_forbidden := m.(reconnect_forbidden) |}.
Definition set_activity (m : ConnectionStateMachine) (t : option Z) : ConnectionStateMachine :=
  {| phase := m.(phase); csm_config := m.(csm_config); active_binding := m.(active_binding);
     pending_binding := m.(pending_binding); last_authenticated_activity := t;
     reconnect_forbidden := m.(reconnect_forbidden) |}.

Definition transition (m : ConnectionStateMachine) (expected next : ConnectionPhase)
    : result ReconnectError unit * ConnectionStateMachine :=
  if m.(phase) ≠! expected then (Err ReconnectInvalidState, m) else (Ok tt, set_phase m next).

Definition csm_start m := transition m PhaseIdle Preparing.
Definition permissions_prepared m := transition m Preparing GatheringCandidates.
Definition candidates_gathered m := transition m GatheringCandidates ExchangingCandidates.
Definition candidates_exchanged m := transition m ExchangingCandidates PhaseRacing.
Definition mark_degraded m := transition m PhaseConnected PhaseDegraded.

Definition set_pending_binding (m : ConnectionStateMachine) (b : SecurePathBinding)
    : result ReconnectError unit * ConnectionStateMachine :=
  if binding_validate b then (Ok tt, set_pending m (Some b)) else (Err InvalidPathBinding, m).

Definition initial_path_selected (m : ConnectionStateMachine) (b : SecurePathBinding)
    : result ReconnectError KeyReuseDecision * ConnectionStateMachine :=
  if m.(phase) ≠! PhaseRacing then (Err ReconnectInvalidState, m)
  else match set_pending_binding m b with
  | (Err e, m) => (Err e, m)
  | (Ok _, m) => (Ok RekeyRequired, set_phase m EstablishingSecureSession)
  end.

Definition secure_session_established (m : ConnectionStateMachine) (now : Z)
    : result ReconnectError unit * ConnectionStateMachine :=
  if m.(phase) ≠! EstablishingSecureSession then (Err ReconnectInvalidState, m)
  else
    let m := match m.(pending_binding) with
             | Some b => set_active (set_pending m None) (Some b)
             | None => m
             end in
    match m.(active_binding) with
    | None => (Err ReconnectInvalidState, m)
    | Some _ => (Ok tt, set_phase (set_activity m (Some now)) PhaseConnected)
    end.

Definition record_authenticated_activity (m : ConnectionStateMachine) (now : Z)
    : result ReconnectError unit * ConnectionStateMachine :=
  match m.(phase) with
  | PhaseConnected | PhaseDegraded => (Ok tt, set_activity m (Some now))
  | _ => (Err ReconnectInvalidState, m)
  end.

Definition begin_reconnect (m : ConnectionStateMachine) (trigger : ReconnectTrigger)
    : result ReconnectError unit * ConnectionStateMachine :=
  if m.(reconnect_forbidden) then (Err ReconnectForbidden, m)
  else match m.(phase) with
  | PhaseConnected | PhaseDegraded => (Ok tt, set_phase m PhaseReconnecting)
  | _ => (Err ReconnectInvalidState, m)
  end.

Definition reconnect_path_selected (m : ConnectionStateMachine) (b : SecurePathBinding) (now : Z)
    : result ReconnectError KeyReuseDecision * ConnectionStateMachine :=
  if m.(reconnect_forbidden) then (Err ReconnectForbidden, m)
  else if m.(phase) ≠! PhaseReconnecting then (Err ReconnectInvalidState, m)
  else if negb (binding_validate b) then (Err InvalidPathBinding, m)
  else
    let within_window := match m.(last_authenticated_activity) with
                         | Some last => sat_sub now last <=? m.(csm_config).(key_reuse_window_millis)
                         | None => false
                         end in
    let unchanged := m.(active_binding) =! Some b in
    let decision := if within_window && unchanged then ResumeExistingKeys else RekeyRequired in
    (Ok decision, set_phase (set_pending m (Some b)) EstablishingSecureSession).

Definition forbid_reconnect_and_close (m : ConnectionStateMachine) : ConnectionStateMachine :=
  {| phase := PhaseClosed; csm_config := m.(csm_config); active_binding := None;
     pending_binding := None; last_authenticated_activity := None; reconnect_forbidden := true |}.

Definition close_by_local_or_remote_user m := forbid_reconnect_and_close m.
Definition close_for_remote_reboot m := forbid_reconnect_and_close m.
Definition csm_fail (m : ConnectionStateMachine) : ConnectionStateMachine :=
  set_phase (set_pending m None) PhaseFailed.

(** ** Sequences of calls *)

Inductive ConnOp :=
| Start | PermissionsPrepared | CandidatesGathered | CandidatesExchanged
| InitialPathSelected (b : SecurePathBinding) | SecureSessionEstablished (now : Z)
| RecordActivity (now : Z) | MarkDegraded | BeginReconnect (t : ReconnectTrigger)
| ReconnectPathSelected (b : SecurePathBinding) (now : Z)
| CloseByUser | CloseForReboot | FailConnection.

(** The result, with the key decision where there is one. *)
Definition conn_step (m : ConnectionStateMachine) (op : ConnOp)
    : result ReconnectError (option KeyReuseDecision) * ConnectionStateMachine :=
  let unit_result := prod_map (fmap (M := result ReconnectError) (λ _ : unit, None)) id in
  match op with
  | Start => unit_result (csm_start m)
  | PermissionsPrepared => unit_result (permissions_prepared m)
  | CandidatesGathered => unit_result (candidates_gathered m)
  | CandidatesExchanged => unit_result (candidates_exchanged m)
  | InitialPathSelected b => prod_map (fmap (M := result ReconnectError) Some) id (initial_path_selected m b)
  | SecureSessionEstablished t => unit_result (secure_session_established m t)
  | RecordActivity t => unit_result (record_authenticated_activity m t)
  | MarkDegraded => unit_result (mark_degraded m)
  | BeginReconnect t => unit_result (begin_reconnect m t)
  | ReconnectPathSelected b t => prod_map (fmap (M := result ReconnectError) Some) id (reconnect_path_selected m b t)
  | CloseByUser => (Ok None, close_by_local_or_remote_user m)
  | CloseForReboot => (Ok None, close_for_remote_reboot m)
  | FailConnection => (Ok None, csm_fail m)
  end.

Fixpoint conn_run (m : ConnectionStateMachine) (ops : list ConnOp)
    : list (result ReconnectError (option KeyReuseDecision)) * ConnectionStateMachine :=
  match ops with
  | [] => ([], m)
  | op :: ops =>
      let '(r, m) := conn_step m op in
      let '(rs, m) := conn_run m ops in (r :: rs, m)
  end.

(** The bindings and times that go with each phase. *)
Definition valid_opt (o : option SecurePathBinding) : Prop :=
  match o with Some b => binding_validate b = true | None => True end.

Definition phase_ok (m : ConnectionStateMachine) : Prop :=
  match m.(phase) with
  | PhaseIdle | Preparing | GatheringCandidates | ExchangingCandidates | PhaseRacing =>
      m.(active_binding) = None ∧ m.(pending_binding) = None
  | EstablishingSecureSession => is_Some m.(pending_binding)
  | PhaseConnected | PhaseDegraded | PhaseReconnecting =>
      is_Some m.(active_binding) ∧ is_Some m.(last_authenticated_activity) ∧
      m.(pending_binding) = None
  | PhaseClosed => m.(active_binding) = None ∧ m.(pending_binding) = None ∧
      m.(reconnect_forbidden) = true
  | PhaseFailed => m.(pending_binding) = None
  end.

Record conn_ok (m : ConnectionStateMachine) : Prop := {
  ok_phase : phase_ok m;
  ok_active : valid_opt m.(active_binding);
  ok_pending : valid_opt m.(pending_binding);
  ok_forbidden : m.(reconnect_forbidden) = true → m.(phase) = PhaseClosed ∨ m.(phase) = PhaseFailed }.

Lemma conn_step_ok m op : conn_ok m → conn_ok (conn_step m op).2.
Proof.
  intros [Hp Ha Hn Hf]. unfold phase_ok in Hp.
  destruct op; cbn; unfold csm_start, permissions_prepared, candidates_gathered, candidates_exchanged,
      mark_degraded, transition, initial_path_selected, set_pending_binding,
      secure_session_established, record_authenticated_activity, begin_reconnect,
      reconnect_path_selected, close_by_local_or_remote_user, close_for_remote_reboot, csm_fail;
    destruct m as [ph cf ab pb la rf]; cbn in *;
    repeat (case_match; cbn in *; simplify_eq; try done);
    split_bools; (split; cbn; unfold phase_ok; cbn; naive_solver).
Qed.

Lemma conn_run_cons m op ops :
  conn_run m (op :: ops) = ((conn_step m op).1 :: (conn_run (conn_step m op).2 ops).1,
                            (conn_run (conn_step m op).2 ops).2).
Proof. cbn [conn_run]. destruct (conn_step m op) as [r m']. cbn. by destruct (conn_run m' ops). Qed.

Lemma conn_run_ok m ops : conn_ok m → conn_ok (conn_run m ops).2.
Proof.
  revert m. induction ops as [|op ops IH]; intros m Hm; [done|].
  rewrite conn_run_cons. by apply IH, conn_step_ok.
Qed.

Lemma csm_new_ok config : conn_ok (csm_new config).
Proof. by split. Qed.

Definition is_closed (s : ConnectionStateMachine) : Prop :=
  s.(reconnect_forbidden) = true ∧ (s.(phase) = PhaseClosed ∨ s.(phase) = PhaseFailed).

(** What a closed connection may answer. *)
Definition closed_answer (op : ConnOp) (r : result ReconnectError (option KeyReuseDecision)) : Prop :=
  (∀ d, r ≠ Ok (Some d)) ∧
  match op with
  | BeginReconnect _ | ReconnectPathSelected _ _ => r = Err ReconnectForbidden
  | _ => True
  end.

Lemma closed_step s op :
  is_closed s → is_closed (conn_step s op).2 ∧ closed_answer op (conn_step s op).1.
Proof.
  destruct s as [ph cf ab pb la rf]. unfold is_closed, closed_answer. cbn. intros [-> Hph].
  destruct op; cbn; unfold csm_start, permissions_prepared, candidates_gathered,
    candidates_exchanged, mark_degraded, transition, initial_path_selected,
    secure_session_established, record_authenticated_activity, begin_reconnect,
    reconnect_path_selected; cbn; destruct Hph as [-> | ->]; cbn; split_and!; auto; done.
Qed.

Lemma closed_run s ops :
  is_closed s →
  is_closed (conn_run s ops).2 ∧
  ∀ i op r, ops !! i = Some op → (conn_run s ops).1 !! i = Some r → closed_answer op r.
Proof.
  revert s. induction ops as [|op ops IH]; intros s Hs; [naive_solver|].
  rewrite conn_run_cons. cbn [fst snd]. destruct (closed_step s op Hs) as [Hs' Ha].
  destruct (IH _ Hs') as [IHp IHr]. split; [done|].
  intros [|i] op' r Hop Hr; [|by eapply IHr]. cbn in Hop, Hr. by simplify_eq.
Qed.

(** ** Theorems *)

(** In every reachable state the bindings fit the phase: while connected,
    degraded or reconnecting there is an active binding and a time of last
    authenticated activity; a secure session is being established only for a
    selected path; every recorded binding names a relay node exactly when its
    path is relayed; and once reconnecting is forbidden the connection is closed
    or failed. In such a state, a reconnect may resume the existing keys exactly
    when the new path is in every respect the active one (path, candidate pair,
    relay node and permissions) and the last authenticated activity lies within
    the window; otherwise new keys are required. *)
Theorem key_reuse_only_on_unchanged_path config ops b now d m' :
  let m := (conn_run (csm_new config) ops).2 in
  conn_ok m ∧
  (reconnect_path_selected m b now = (Ok d, m') →
   d = ResumeExistingKeys ↔
   m.(active_binding) = Some b ∧
   ∃ last, m.(last_authenticated_activity) = Some last ∧
           Z.max 0 (now - last) ≤ m.(csm_config).(key_reuse_window_millis)).
Proof.
  intros m. split; [apply conn_run_ok, csm_new_ok|]. unfold reconnect_path_selected.
  destruct (reconnect_forbidden m); [done|]. case_bool_decide; [|done]. cbn.
  destruct (binding_validate b); [|done]. cbn. intros [= <- _].
  destruct (last_authenticated_activity m) as [last|]; cbn; [|naive_solver].
  unfold sat_sub.
  destruct (Z.leb_spec (Z.max 0 (now - last)) (key_reuse_window_millis (csm_config m)));
    case_bool_decide; cbn; naive_solver lia.
Qed.

(** Closing by a user or for a reboot is final: whatever is called
    afterwards, the phase stays closed or failed, no path is ever selected
    again, and every attempt to reconnect is answered with [ReconnectForbidden]. *)
Theorem close_forbids_reconnect m ops :
  let s := forbid_reconnect_and_close m in
  is_closed (conn_run s ops).2 ∧
  ∀ i op r, ops !! i = Some op → (conn_run s ops).1 !! i = Some r → closed_answer op r.
Proof. intros s. apply closed_run. split; [done|by left]. Qed.

(** A session that drops and comes back within the window on the same path may
    resume its keys; on another candidate pair it may not. *)
Definition example_binding (pair : Z) : SecurePathBinding :=
  {| spb_transport_path := QuicRelay; spb_candidate_pair_id := pair;
     spb_relay_node_id := Some (str "relay-a"); spb_permissions_digest := repeat x03 32 |}.

Example resume_or_rekey :
  let connected := [Start; PermissionsPrepared; CandidatesGathered; CandidatesExchanged;
                    InitialPathSelected (example_binding 1); SecureSessionEstablished 1000;
                    BeginReconnect HeartbeatTimeout] in
  last (conn_run (csm_new reconnect_config_default)
          (connected ++ [ReconnectPathSelected (example_binding 1) 31000])).1
    = Some (Ok (Some ResumeExistingKeys)) ∧
  last (conn_run (csm_new reconnect_config_default)
          (connected ++ [ReconnectPathSelected (example_binding 1) 31001])).1
    = Some (Ok (Some RekeyRequired)) ∧
  last (conn_run (csm_new reconnect_config_default)
          (connected ++ [ReconnectPathSelected (example_binding 2) 2000])).1
    = Some (Ok (Some RekeyRequired)).
Proof. repeat split; vm_compute; reflexivity. Qed.
