(* ===== verification/Channel.v ===== *)
(** * Opaque frames and channel routing

    Models the data model of crates/remote-transport/src/channel.rs: the limits
    of a data channel and their validation, opaque frames with their wire form,
    the role handshake and the routing of channels over QUIC. The asynchronous
    helpers of that file (cancellation, deadlines) are not modelled. *)

From S2P Require Import Prelude Header Security Racing.

Definition RELIABLE_CHANNELS : list ChannelId :=
  [SecureControl; InputReliable; MediaControl; Clipboard; FileTransfer; DeviceControl].

(** Durations are in milliseconds. *)
Record DataChannelLimits := {
  connect_timeout : Z; handshake_timeout : Z; io_timeout : Z; idle_timeout : Z;
  keep_alive_interval : Z; max_frame_payload_bytes : Z; max_video_stream_bytes : Z;
  max_video_stream_messages : Z; max_datagram_bytes : Z; stream_receive_window_bytes : Z;
  connection_receive_window_bytes : Z; datagram_buffer_bytes : Z;
  max_bidirectional_streams : Z; max_unidirectional_streams : Z }.

Definition limits_default : DataChannelLimits := {|
  connect_timeout := 3000; handshake_timeout := 3000; io_timeout := 5000; idle_timeout := 30000;
  keep_alive_interval := 10000; max_frame_payload_bytes := 8 * 1024 * 1024;
  max_video_stream_bytes := 16 * 1024 * 1024; max_video_stream_messages := 1024;
  max_datagram_bytes := 1200; stream_receive_window_bytes := 2 * 1024 * 1024;
  connection_receive_window_bytes := 16 * 1024 * 1024; datagram_buffer_bytes := 256 * 1024;
  max_bidirectional_streams := 8; max_unidirectional_streams := 64 |}.

Inductive DataChannelFailure :=
| DCancelled | DTimeout | DInvalidAddress | DAuthentication | DConnection | DClosed | DProtocol
| DFrameTooLarge | DResourceLimit | DDatagramUnavailable | DBackpressure
| DInvalidConfiguration | DIo.
#[global] Instance DataChannelFailure_eq_dec : EqDecision DataChannelFailure.
Proof. solve_decision. Defined.

Record DataChannelError := { dce_kind : DataChannelFailure; dce_operation : rstr }.
#[global] Instance DataChannelError_eq_dec : EqDecision DataChannelError.
Proof. solve_decision. Defined.

Definition dc_error (k : DataChannelFailure) (op : rstr) : DataChannelError :=
  {| dce_kind := k; dce_operation := op |}.

Definition limits_validate (l : DataChannelLimits) : result DataChannelError DataChannelLimits :=
  if (l.(connect_timeout) =? 0) || (l.(handshake_timeout) =? 0) || (l.(io_timeout) =? 0)
     || (l.(idle_timeout) =? 0) || (l.(keep_alive_interval) =? 0)
     || (l.(idle_timeout) <=? l.(keep_alive_interval))
     || (l.(max_frame_payload_bytes) =? 0)
     || (l.(max_video_stream_bytes) <? Z.of_nat HEADER_LEN)
     || (l.(max_video_stream_messages) <? 2)
     || (l.(max_datagram_bytes) <? Z.of_nat HEADER_LEN)
     || (l.(stream_receive_window_bytes) =? 0)
     || (l.(connection_receive_window_bytes) <? l.(stream_receive_window_bytes))
     || (l.(datagram_buffer_bytes) <? l.(max_datagram_bytes))
     || (l.(max_bidirectional_streams) <? len RELIABLE_CHANNELS)
     || (l.(max_unidirectional_streams) =? 0)
  then Err (dc_error DInvalidConfiguration (str "validate_limits"))
  else Ok l.

(** ** Frames *)

Record OpaqueFrame := { of_header : MessageHeader; of_payload : bytes }.
#[global] Instance OpaqueFrame_eq_dec : EqDecision OpaqueFrame.
Proof. solve_decision. Defined.

Definition frame_new (h : MessageHeader) (payload : bytes) : result DataChannelError OpaqueFrame :=
  _ ← map_err (λ _, dc_error DProtocol (str "validate_frame")) (validate_kind_channel h);
  _ ← ensure (negb (negb (h.(payload_len) =? len payload) || (MAX_SECURE_SEQUENCE <? h.(sequence))))
        (dc_error DProtocol (str "validate_frame"));
  Ok {| of_header := h; of_payload := payload |}.

Definition frame_wire_len (f : OpaqueFrame) : Z := sat_add 64 (Z.of_nat HEADER_LEN) (len f.(of_payload)).

Definition to_wire_bytes (f : OpaqueFrame) : bytes := encode_header f.(of_header) ++ f.(of_payload).

Definition validate_for (f : OpaqueFrame) (sid : Z) (l : DataChannelLimits) : result DataChannelError unit :=
  _ ← ensure (f.(of_header).(session_id) =? sid) (dc_error DProtocol (str "validate_session"));
  ensure (negb (l.(max_frame_payload_bytes) <? len f.(of_payload)))
    (dc_error DFrameTooLarge (str "validate_frame")).

Definition from_wire_bytes (bs : bytes) (sid : Z) (l : DataChannelLimits)
    : result DataChannelError OpaqueFrame :=
  _ ← ensure (negb (len bs <? Z.of_nat HEADER_LEN)) (dc_error DProtocol (str "decode_frame"));
  header ← map_err (λ _, dc_error DProtocol (str "decode_frame_header"))
             (decode_header (slice bs 0 HEADER_LEN));
  let payload_len := header.(payload_len) in
  _ ← ensure (negb (l.(max_frame_payload_bytes) <? payload_len))
        (dc_error DFrameTooLarge (str "decode_frame_length"));
  _ ← ensure (len bs =? sat_add 64 (Z.of_nat HEADER_LEN) payload_len)
        (dc_error DProtocol (str "decode_frame_length"));
  frame ← frame_new header (drop HEADER_LEN bs);
  _ ← validate_for frame sid l;
  Ok frame.

(** ** Roles and routes *)

Record RoleHandshake := { rh_session_id : Z; rh_role : SessionRole }.
Definition role_handshake_new (sid : Z) (r : SessionRole) : RoleHandshake :=
  {| rh_session_id := sid; rh_role := r |}.
Definition expected_peer_role (h : RoleHandshake) : SessionRole :=
  match h.(rh_role) with Controller => Controlled | Controlled => Controller end.

Inductive QuicFrameRoute := ReliableStream (c : ChannelId) | VideoFrameStream | Datagram.
#[global] Instance QuicFrameRoute_eq_dec : EqDecision QuicFrameRoute.
Proof. solve_decision. Defined.

Definition quic_route (c : ChannelId) : QuicFrameRoute :=
  match c with
  | Video => VideoFrameStream
  | InputRealtime | Telemetry => Datagram
  | c => ReliableStream c
  end.

Definition supports_quic_data_path (k : TransportKind) : bool :=
  match k with KLanDirect | KUdpP2p | KQuicRelay => true | KTls443Relay => false end.

(** [From<DataChannelError> for TransportError]; [text] renders an error. *)
Definition transport_error_of (text : DataChannelError → rstr) (e : DataChannelError) : TransportError :=
  match e.(dce_kind) with
  | DCancelled | DClosed => TransportIsClosed
  | DBackpressure => TransportBackpressure
  | DInvalidConfiguration | DProtocol => TransportInvalidState
  | _ => TransportIo (text e)
  end.

(** ** Theorems *)

(** A frame that may travel in session [sid] under limits [l]. *)
Record frame_ok (sid : Z) (l : DataChannelLimits) (f : OpaqueFrame) : Prop := {
  fok_header : header_wf f.(of_header);
  fok_length : f.(of_header).(payload_len) = len f.(of_payload);
  fok_sequence : f.(of_header).(sequence) ≤ MAX_SECURE_SEQUENCE;
  fok_session : f.(of_header).(session_id) = sid;
  fok_size : len f.(of_payload) ≤ l.(max_frame_payload_bytes) }.

Lemma from_wire_sound bs sid l f :
  from_wire_bytes bs sid l = Ok f → frame_ok sid l f ∧ to_wire_bytes f = bs.
Proof.
  unfold from_wire_bytes, frame_new, validate_for. intros H. invert_ok. cbn in *.
  match goal with H : decode_header _ = Ok _ |- _ =>
    apply decode_header_sound in H as [Hwf He] end.
  split; [by split|]. unfold to_wire_bytes. cbn. rewrite He.
  change HEADER_LEN with 40%nat. rewrite take_take, drop_0. apply take_drop.
Qed.

Lemma from_wire_complete sid l f :
  frame_ok sid l f → from_wire_bytes (to_wire_bytes f) sid l = Ok f.
Proof.
  intros [Hwf Hl Hq Hs Hz]. unfold from_wire_bytes, to_wire_bytes.
  pose proof (encode_header_length (of_header f)) as Hlen.
  pose proof (len_nonneg (of_payload f)).
  rewrite len_app, encode_header_len. change (Z.of_nat HEADER_LEN) with 40.
  destruct (Z.ltb_spec (40 + len (of_payload f)) 40); [lia|].
  cbn [negb ensure mbind result_bind]. rewrite slice_app_here by (by rewrite Hlen).
  pose proof (decode_encode_header (of_header f) [] Hwf) as Hd. rewrite app_nil_r in Hd.
  rewrite Hd. cbn [map_err mbind result_bind]. cbv zeta. rewrite Hl.
  destruct (Z.ltb_spec (max_frame_payload_bytes l) (len (of_payload f))); [lia|].
  cbn [negb ensure mbind result_bind]. pose proof (wf_payload _ Hwf) as Hp. unfold in_u in Hp.
  rewrite sat_add_small by lia. rewrite Z.eqb_refl. cbn [ensure mbind result_bind].
  rewrite drop_app_length' by (by rewrite Hlen).
  unfold frame_new, validate_kind_channel. rewrite (wf_channel _ Hwf). cbn [ensure map_err mbind result_bind].
  rewrite Hl, Z.eqb_refl. cbn [negb orb].
  destruct (Z.ltb_spec MAX_SECURE_SEQUENCE (sequence (of_header f))); [lia|]. cbn [negb ensure mbind result_bind].
  unfold validate_for. cbn. rewrite Hs, Z.eqb_refl. cbn.
  destruct (Z.ltb_spec (max_frame_payload_bytes l) (len (of_payload f))); [lia|]. cbn.
  by destruct f.
Qed.

(** The wire form of a frame is exact: bytes are accepted in a session
    under given limits precisely when they are the wire form of a frame that may
    travel there, and the decoded frame is that frame. So nothing is accepted
    that the encoder cannot produce, no two byte strings decode to the same
    frame, and no frame decodes to another. *)
Theorem frame_codec_exact bs sid l f :
  from_wire_bytes bs sid l = Ok f ↔ frame_ok sid l f ∧ bs = to_wire_bytes f.
Proof.
  split.
  - intros H. by apply from_wire_sound in H as [? <-].
  - intros [Hok ->]. by apply from_wire_complete.
Qed.

(** Every channel has exactly one route, and the reliable streams of a
    connection are exactly the reliable channels; a validated configuration
    provides a stream for each of them. *)
Theorem reliable_channels_routed c l :
  (c ∈ RELIABLE_CHANNELS ↔ quic_route c = ReliableStream c) ∧
  (limits_validate l = Ok l →
   len (filter (λ c, quic_route c = ReliableStream c) RELIABLE_CHANNELS) ≤ l.(max_bidirectional_streams)).
Proof.
  split.
  - unfold RELIABLE_CHANNELS. destruct c; cbn; set_solver.
  - unfold limits_validate. intros H. break_match; [done|]. split_bools.
    change (filter _ RELIABLE_CHANNELS) with RELIABLE_CHANNELS. done.
Qed.
