(* ===== verification/Binding.v ===== *)
(** * Candidate and relay token bindings

    Models crates/remote-transport/src/binding.rs and the structures of
    crates/remote-protocol/src/candidates.rs it works on: the identifier of a
    connection candidate and of a candidate pair, the hash a candidate token is
    bound to, the hash a relay token is bound to, and the two replay guards that
    stand in front of a relay connection and of a P2P probe.

    A [HashSet] or [HashMap] is a [gset] or [gmap]; [ct_eq] is equality (two
    slices of different length are unequal). The result of verifying the
    signature of a relay token is an argument, as in the code. *)

From Stdlib Require Import Sorting.Sorted.
From S2P Require Import Prelude Canonical Security Primitives KeySession.

#[global] Instance SessionRole_countable : Countable SessionRole.
Proof.
  refine (inj_countable' (λ r, match r with Controller => false | Controlled => true end)
            (λ b : bool, if b then Controlled else Controller) _).
  by intros [].
Defined.

Inductive CandidateSource := LocalInterface | UdpObserved | RelayAllocated.
#[global] Instance CandidateSource_eq_dec : EqDecision CandidateSource.
Proof. solve_decision. Defined.

Definition source_as_str (s : CandidateSource) : rstr :=
  match s with
  | LocalInterface => str "local_interface"
  | UdpObserved => str "udp_observed"
  | RelayAllocated => str "relay_allocated"
  end.

Record ConnectionCandidateDto := {
  cd_candidate_id : Z;
  cd_session_id : Z;
  cd_device_id : rstr;
  cd_role : SessionRole;
  cd_kind : TransportPath;
  cd_endpoint : rstr;
  cd_source : CandidateSource;
  cd_observe_result_id : option rstr;
  cd_priority : Z;
  cd_rtt_ms : option Z;
  cd_loss_ppm : option Z;
  cd_jitter_ms : option Z;
  cd_relay_node_id : option rstr }.

Record CandidateAuthorization := {
  ca_candidate_token : bytes;
  ca_candidate_token_binding_hash : bytes;
  ca_expires_at : Z }.

Record RelayAllocation := {
  al_session_id : Z;
  al_device_id : rstr;
  al_role : SessionRole;
  al_controller_device_id : rstr;
  al_controlled_device_id : rstr;
  al_relay_node_id : rstr;
  al_transport : TransportPath;
  al_public_endpoint : rstr;
  al_permissions_digest : bytes;
  al_relay_token_epoch : Z;
  al_issued_at : Z;
  al_expires_at : Z;
  al_relay_token_id : rstr;
  al_session_relay_token : bytes;
  al_token_binding_hash : bytes }.

Record RelayOpen := {
  ro_session_id : Z;
  ro_device_id : rstr;
  ro_role : SessionRole;
  ro_controller_device_id : rstr;
  ro_controlled_device_id : rstr;
  ro_relay_node_id : rstr;
  ro_transport : TransportPath;
  ro_permissions_digest : bytes;
  ro_relay_token_epoch : Z;
  ro_issued_at : Z;
  ro_expires_at : Z;
  ro_relay_token_id : rstr;
  ro_relay_open_nonce : bytes;
  ro_session_relay_token : bytes;
  ro_token_binding_hash : bytes;
  ro_device_signature : bytes }.

Definition OBSERVE_TOKEN_MAX_TTL_MILLIS : Z := 30000.
Definition CANDIDATE_TOKEN_MAX_TTL_MILLIS : Z := 60000.
Definition RELAY_TOKEN_MAX_TTL_MILLIS : Z := 60000.

Inductive BindingError :=
| BindingCanonicalEncoding | CandidateIdMismatch | InvalidCandidateKindSource
| InvalidRelayNodeBinding | TokenMismatch | TokenBindingMismatch | TokenExpired
| TokenTtlExceeded | TokenSignatureInvalid | AuthorizationUnavailable
| AuthorizationExpired | BindingSessionClosed | RelayNotAllowed | RelayNodeNotAllowed
| RelayEpochMismatch | PermissionsMismatch | DeviceMismatch
| DeviceKeyVersionMismatch | DeviceKeyRevoked | DeviceSignatureInvalid
| NonceReplay | ProbeReplay | InvalidEndpoint | LanAddressForbidden
| LanPortForbidden | LanCandidateLimitExceeded | LanClaimMissing
| LanClaimHashMismatch | BindingTimestampOutsideWindow | InvalidInterfaceHash
| ObserveContextMismatch | ObserveResultMismatch | InvalidRequestedTtl
| ProbeRoleMismatch | ProbeMalformed | ProbeRateLimited | LanNotRoutable
| BindingInvalidState.

#[global] Instance BindingError_eq_dec : EqDecision BindingError.
Proof. solve_decision. Defined.

Definition source_matches_kind (k : TransportPath) (s : CandidateSource) : bool :=
  match k, s with
  | LanDirect, LocalInterface | UdpP2p, UdpObserved
  | QuicRelay, RelayAllocated | Tls443Relay, RelayAllocated => true
  | _, _ => false
  end.

Definition validate_candidate_shape (c : ConnectionCandidateDto) : result BindingError unit :=
  _ ← ensure (source_matches_kind c.(cd_kind) c.(cd_source)) InvalidCandidateKindSource;
  _ ← ensure (Bool.eqb (is_relay c.(cd_kind)) (bool_decide (is_Some c.(cd_relay_node_id))))
        InvalidRelayNodeBinding;
  ensure (Bool.eqb (c.(cd_source) =! UdpObserved)
            (bool_decide (is_Some c.(cd_observe_result_id)))) InvalidCandidateKindSource.

(** [map_err(|_| BindingError::CanonicalEncoding)]. *)
Definition encoding {T} (r : result CanonicalError T) : result BindingError T :=
  map_err (λ _, BindingCanonicalEncoding) r.

Definition push_candidate_id_fields (c : ConnectionCandidateDto) : result CanonicalError bytes :=
  w ← writer_new (str "rctl-candidate-id-v1");
  w ← push_u128 w (str "session_id") c.(cd_session_id);
  w ← push_str w (str "device_id") c.(cd_device_id);
  w ← push_str w (str "role") (role_as_str c.(cd_role));
  w ← push_str w (str "kind") (path_as_str c.(cd_kind));
  w ← push_str w (str "endpoint") c.(cd_endpoint);
  w ← push_str w (str "source") (source_as_str c.(cd_source));
  w ← push_optional_str w (str "relay_node_id") c.(cd_relay_node_id);
  Ok (finish w).

Definition push_pair_id_fields (session_id controller controlled : Z) (path : TransportPath)
    (relay_node_id : option rstr) : result CanonicalError bytes :=
  w ← writer_new (str "rctl-candidate-pair-id-v1");
  w ← push_u128 w (str "session_id") session_id;
  w ← push_u128 w (str "controller_candidate_id") controller;
  w ← push_u128 w (str "controlled_candidate_id") controlled;
  w ← push_str w (str "selected_transport_path") (path_as_str path);
  w ← push_optional_str w (str "relay_node_id") relay_node_id;
  Ok (finish w).

Definition push_token_binding_fields (c : ConnectionCandidateDto) (expires_at : Z)
    : result CanonicalError bytes :=
  w ← writer_new (str "rctl-candidate-token-binding-v1");
  w ← push_u128 w (str "session_id") c.(cd_session_id);
  w ← push_str w (str "device_id") c.(cd_device_id);
  w ← push_str w (str "role") (role_as_str c.(cd_role));
  w ← push_u128 w (str "candidate_id") c.(cd_candidate_id);
  w ← push_str w (str "kind") (path_as_str c.(cd_kind));
  w ← push_str w (str "endpoint") c.(cd_endpoint);
  w ← push_str w (str "source") (source_as_str c.(cd_source));
  w ← push_optional_str w (str "observe_result_id") c.(cd_observe_result_id);
  w ← push_u64 w (str "expires_at_epoch_millis") expires_at;
  Ok (finish w).

Definition push_relay_binding_fields (w : CanonicalWriter) (session_id : Z)
    (device_id : rstr) (role : SessionRole)
    (controller_device_id controlled_device_id relay_node_id : rstr)
    (transport : TransportPath) (permissions_digest : bytes)
    (relay_token_epoch issued_at expires_at : Z) (relay_token_id : rstr)
    : result CanonicalError CanonicalWriter :=
  w ← push_u128 w (str "session_id") session_id;
  w ← push_str w (str "device_id") device_id;
  w ← push_str w (str "role") (role_as_str role);
  w ← push_str w (str "controller_device_id") controller_device_id;
  w ← push_str w (str "controlled_device_id") controlled_device_id;
  w ← push_str w (str "relay_node_id") relay_node_id;
  w ← push_str w (str "transport") (path_as_str transport);
  w ← push_field w (str "permissions_digest") permissions_digest;
  w ← push_u64 w (str "relay_token_epoch") relay_token_epoch;
  w ← push_u64 w (str "issued_at_epoch_millis") issued_at;
  w ← push_u64 w (str "expires_at_epoch_millis") expires_at;
  push_str w (str "relay_token_id") relay_token_id.

Definition relay_token_bytes (a : RelayAllocation) : result CanonicalError bytes :=
  w ← writer_new (str "rctl-relay-token-binding-v1");
  w ← push_relay_binding_fields w a.(al_session_id) a.(al_device_id) a.(al_role)
        a.(al_controller_device_id) a.(al_controlled_device_id) a.(al_relay_node_id)
        a.(al_transport) a.(al_permissions_digest) a.(al_relay_token_epoch)
        a.(al_issued_at) a.(al_expires_at) a.(al_relay_token_id);
  Ok (finish w).

Definition relay_open_canonical_bytes (o : RelayOpen) : result BindingError bytes :=
  encoding (
  w ← writer_new (str "rctl-relay-open-v1");
  w ← push_relay_binding_fields w o.(ro_session_id) o.(ro_device_id) o.(ro_role)
        o.(ro_controller_device_id) o.(ro_controlled_device_id) o.(ro_relay_node_id)
        o.(ro_transport) o.(ro_permissions_digest) o.(ro_relay_token_epoch)
        o.(ro_issued_at) o.(ro_expires_at) o.(ro_relay_token_id);
  w ← push_field w (str "relay_open_nonce") o.(ro_relay_open_nonce);
  w ← push_field w (str "session_relay_token") o.(ro_session_relay_token);
  w ← push_field w (str "token_binding_hash") o.(ro_token_binding_hash);
  Ok (finish w)).

Inductive RelaySessionStatus := CanConnect | RelayConnected | RelayClosed.
#[global] Instance RelaySessionStatus_eq_dec : EqDecision RelaySessionStatus.
Proof. solve_decision. Defined.

Record RelayAuthorizationSnapshot := {
  as_session_id : Z;
  as_device_id : rstr;
  as_role : SessionRole;
  as_status : RelaySessionStatus;
  as_allow_relay : bool;
  as_permissions_digest : bytes;
  as_relay_token_epoch : Z;
  as_allowed_relay_node_ids : list rstr;
  as_device_public_key : bytes;
  as_device_public_key_version : Z;
  as_expected_device_public_key_version : Z;
  as_device_key_revoked : bool;
  as_expires_at : Z }.

Definition relay_open_matches_allocation (o : RelayOpen) (a : RelayAllocation) : bool :=
  (o.(ro_session_id) =? a.(al_session_id))
  && (o.(ro_device_id) =! a.(al_device_id))
  && (o.(ro_role) =! a.(al_role))
  && (o.(ro_controller_device_id) =! a.(al_controller_device_id))
  && (o.(ro_controlled_device_id) =! a.(al_controlled_device_id))
  && (o.(ro_relay_node_id) =! a.(al_relay_node_id))
  && (o.(ro_transport) =! a.(al_transport))
  && (o.(ro_permissions_digest) =! a.(al_permissions_digest))
  && (o.(ro_relay_token_epoch) =? a.(al_relay_token_epoch))
  && (o.(ro_issued_at) =? a.(al_issued_at))
  && (o.(ro_expires_at) =? a.(al_expires_at))
  && (o.(ro_relay_token_id) =! a.(al_relay_token_id))
  && (o.(ro_session_relay_token) =! a.(al_session_relay_token)).

Definition relay_open_key : Type := rstr * SessionRole * bytes.
Record RelayOpenReplayGuard := { ro_seen : gset relay_open_key }.
Definition relay_guard_default : RelayOpenReplayGuard := {| ro_seen := ∅ |}.

Definition probe_key : Type := Z * Z * SessionRole * bytes.
Record ProbeReplayGuard := { pr_seen : gmap probe_key Z }.
Definition probe_guard_default : ProbeReplayGuard := {| pr_seen := ∅ |}.

(** [seen.retain(|_, expires_at| *expires_at >= now)]. *)
Definition retain_unexpired (now : Z) (seen : gmap probe_key Z) : gmap probe_key Z :=
  filter (λ kv, now ≤ kv.2) seen.

Section operations.
Context `{P : Primitives}.

(** [u128::from_be_bytes(digest[0..16])]. *)
Definition hash_prefix (bs : bytes) : Z := be_val (slice (sha256 bs) 0 16).

Definition candidate_id (c : ConnectionCandidateDto) : result BindingError Z :=
  _ ← validate_candidate_shape c;
  bs ← encoding (push_candidate_id_fields c);
  Ok (hash_prefix bs).

Definition candidate_pair_id (session_id controller controlled : Z) (path : TransportPath)
    (relay_node_id : option rstr) : result BindingError Z :=
  _ ← ensure (Bool.eqb (is_relay path) (bool_decide (is_Some relay_node_id)))
        InvalidRelayNodeBinding;
  bs ← encoding (push_pair_id_fields session_id controller controlled path relay_node_id);
  Ok (hash_prefix bs).

Definition candidate_token_binding_hash (c : ConnectionCandidateDto) (expires_at : Z)
    : result BindingError bytes :=
  recomputed_id ← candidate_id c;
  _ ← ensure (recomputed_id =? c.(cd_candidate_id)) CandidateIdMismatch;
  bs ← encoding (push_token_binding_fields c expires_at);
  Ok (sha256 bs).

Definition validate_candidate_authorization (c : ConnectionCandidateDto)
    (a : CandidateAuthorization) (now : Z) : result BindingError unit :=
  _ ← ensure (negb (a.(ca_expires_at) <? now)) TokenExpired;
  _ ← ensure (negb (CANDIDATE_TOKEN_MAX_TTL_MILLIS <? sat_sub a.(ca_expires_at) now))
        TokenTtlExceeded;
  expected ← candidate_token_binding_hash c a.(ca_expires_at);
  _ ← ensure (expected =! a.(ca_candidate_token_binding_hash)) TokenBindingMismatch;
  ensure (a.(ca_candidate_token) ≠! []) TokenMismatch.

Definition relay_token_binding_hash (a : RelayAllocation) : result BindingError bytes :=
  _ ← ensure (is_relay a.(al_transport)) InvalidRelayNodeBinding;
  bs ← encoding (relay_token_bytes a);
  Ok (sha256 bs).

(** The checks of [RelayOpenReplayGuard::validate] up to the insertion into
    [seen]. *)
Definition relay_open_checks (o : RelayOpen) (a : RelayAllocation)
    (s : RelayAuthorizationSnapshot) (token_signature_valid : bool) (now : Z)
    : result BindingError unit :=
  _ ← ensure token_signature_valid TokenSignatureInvalid;
  _ ← ensure (negb (s.(as_expires_at) <? now)) AuthorizationExpired;
  _ ← ensure (s.(as_status) ≠! RelayClosed) BindingSessionClosed;
  _ ← ensure s.(as_allow_relay) RelayNotAllowed;
  _ ← ensure (negb s.(as_device_key_revoked)) DeviceKeyRevoked;
  _ ← ensure (s.(as_device_public_key_version) =? s.(as_expected_device_public_key_version))
        DeviceKeyVersionMismatch;
  _ ← ensure (negb (o.(ro_expires_at) <? now)) TokenExpired;
  _ ← ensure (negb (RELAY_TOKEN_MAX_TTL_MILLIS <? sat_sub o.(ro_expires_at) o.(ro_issued_at)))
        TokenTtlExceeded;
  _ ← ensure (bool_decide (o.(ro_relay_node_id) ∈ s.(as_allowed_relay_node_ids)))
        RelayNodeNotAllowed;
  _ ← ensure ((o.(ro_session_id) =? s.(as_session_id)) && (o.(ro_device_id) =! s.(as_device_id))
              && (o.(ro_role) =! s.(as_role))) DeviceMismatch;
  _ ← ensure (o.(ro_permissions_digest) =! s.(as_permissions_digest)) PermissionsMismatch;
  _ ← ensure (o.(ro_relay_token_epoch) =? s.(as_relay_token_epoch)) RelayEpochMismatch;
  _ ← ensure (relay_open_matches_allocation o a) TokenMismatch;
  expected_binding ← relay_token_binding_hash a;
  _ ← ensure ((expected_binding =! o.(ro_token_binding_hash))
              && (expected_binding =! a.(al_token_binding_hash))) TokenBindingMismatch;
  _ ← ensure (length o.(ro_device_signature) =? 64)%nat DeviceSignatureInvalid;
  canonical ← relay_open_canonical_bytes o;
  map_err (λ _, DeviceSignatureInvalid)
    (verify_canonical_signature s.(as_device_public_key) canonical o.(ro_device_signature)).

Definition open_key (o : RelayOpen) : relay_open_key :=
  (o.(ro_relay_token_id), o.(ro_role), o.(ro_relay_open_nonce)).

Definition relay_open_validate (g : RelayOpenReplayGuard) (o : RelayOpen) (a : RelayAllocation)
    (s : RelayAuthorizationSnapshot) (token_signature_valid : bool) (now : Z)
    : result BindingError unit * RelayOpenReplayGuard :=
  match relay_open_checks o a s token_signature_valid now with
  | Err e => (Err e, g)
  | Ok _ =>
      (if bool_decide (open_key o ∈ g.(ro_seen)) then Err NonceReplay else Ok tt,
       {| ro_seen := {[open_key o]} ∪ g.(ro_seen) |})
  end.

Definition probe_checks (c : ConnectionCandidateDto) (a : CandidateAuthorization)
    (returned_token : bytes) (probe_role : SessionRole) (now : Z) : result BindingError unit :=
  _ ← validate_candidate_authorization c a now;
  _ ← ensure (probe_role ≠! c.(cd_role)) ProbeRoleMismatch;
  ensure (returned_token =! a.(ca_candidate_token)) TokenMismatch.

(** The insertion happens whether or not the key was there: a rejected replay
    overwrites the stored expiry. *)
Definition probe_validate (g : ProbeReplayGuard) (c : ConnectionCandidateDto)
    (a : CandidateAuthorization) (returned_token : bytes) (probe_role : SessionRole)
    (probe_nonce : bytes) (now : Z) : result BindingError unit * ProbeReplayGuard :=
  match probe_checks c a returned_token probe_role now with
  | Err e => (Err e, g)
  | Ok _ =>
      let seen := retain_unexpired now g.(pr_seen) in
      let k : probe_key := (c.(cd_session_id), c.(cd_candidate_id), probe_role, probe_nonce) in
      (match seen !! k with Some _ => Err ProbeReplay | None => Ok tt end,
       {| pr_seen := <[k := a.(ca_expires_at)]> seen |})
  end.
End operations.

(** ** What the identifiers and hashes determine *)

#[global] Instance source_as_str_inj : Inj (=) (=) source_as_str.
Proof. by intros [] []. Qed.

Lemma validate_shape_ok c :
  validate_candidate_shape c = Ok tt →
  source_matches_kind c.(cd_kind) c.(cd_source) = true ∧
  bool_decide (is_Some c.(cd_relay_node_id)) = is_relay c.(cd_kind) ∧
  bool_decide (is_Some c.(cd_observe_result_id)) = (c.(cd_source) =! UdpObserved).
Proof.
  unfold validate_candidate_shape. intros H. invert_ok.
  repeat match goal with H : Bool.eqb _ _ = true |- _ => apply Bool.eqb_prop in H end.
  by split_and!.
Qed.

Definition candidate_id_fields (c : ConnectionCandidateDto) : list field :=
  [domain_field (str "rctl-candidate-id-v1");
   (str "session_id", be_bytes 16 c.(cd_session_id));
   (str "device_id", c.(cd_device_id));
   (str "role", role_as_str c.(cd_role));
   (str "kind", path_as_str c.(cd_kind));
   (str "endpoint", c.(cd_endpoint));
   (str "source", source_as_str c.(cd_source));
   (str "relay_node_id", default [] c.(cd_relay_node_id))].

Definition pair_id_fields (sid a b : Z) (p : TransportPath) (r : option rstr) : list field :=
  [domain_field (str "rctl-candidate-pair-id-v1");
   (str "session_id", be_bytes 16 sid);
   (str "controller_candidate_id", be_bytes 16 a);
   (str "controlled_candidate_id", be_bytes 16 b);
   (str "selected_transport_path", path_as_str p);
   (str "relay_node_id", default [] r)].

Definition token_binding_fields (c : ConnectionCandidateDto) (e : Z) : list field :=
  [domain_field (str "rctl-candidate-token-binding-v1");
   (str "session_id", be_bytes 16 c.(cd_session_id));
   (str "device_id", c.(cd_device_id));
   (str "role", role_as_str c.(cd_role));
   (str "candidate_id", be_bytes 16 c.(cd_candidate_id));
   (str "kind", path_as_str c.(cd_kind));
   (str "endpoint", c.(cd_endpoint));
   (str "source", source_as_str c.(cd_source));
   (str "observe_result_id", default [] c.(cd_observe_result_id));
   (str "expires_at_epoch_millis", be_bytes 8 e)].

Lemma candidate_id_writes c bs :
  push_candidate_id_fields c = Ok bs → writes {| cw_bytes := bs |} (candidate_id_fields c).
Proof. unfold push_candidate_id_fields. solve_writes. Qed.

Lemma pair_id_writes sid a b p r bs :
  push_pair_id_fields sid a b p r = Ok bs → writes {| cw_bytes := bs |} (pair_id_fields sid a b p r).
Proof. unfold push_pair_id_fields. solve_writes. Qed.

Lemma token_binding_writes c e bs :
  push_token_binding_fields c e = Ok bs → writes {| cw_bytes := bs |} (token_binding_fields c e).
Proof. unfold push_token_binding_fields. solve_writes. Qed.

(** Two encodings of field lists that agree, agree field by field. *)
Lemma writes_inj bs fs gs :
  writes {| cw_bytes := bs |} fs → writes {| cw_bytes := bs |} gs → fs = gs.
Proof.
  intros [Hf Ef] [Hg Eg]. apply encode_fields_inj; [done..|]. cbn [cw_bytes] in *. congruence.
Qed.

(** What a candidate identifier stands for. *)
Definition candidate_identity (c : ConnectionCandidateDto) :=
  (c.(cd_session_id), c.(cd_device_id), c.(cd_role), c.(cd_kind), c.(cd_endpoint),
   c.(cd_source), c.(cd_relay_node_id)).

(** What a candidate token is bound to. *)
Definition token_scope (c : ConnectionCandidateDto) :=
  (c.(cd_session_id), c.(cd_device_id), c.(cd_role), c.(cd_candidate_id), c.(cd_kind),
   c.(cd_endpoint), c.(cd_source), c.(cd_observe_result_id)).

(** The equations of the values of two equal field lists. *)
Ltac unwrap_fields H :=
  split_fields H; cbn in *; unwrap_values;
  repeat match goal with
  | H : source_as_str _ = source_as_str _ |- _ => apply (inj source_as_str) in H
  end; subst.

Lemma candidate_id_fields_inj c c' :
  in_u128 c.(cd_session_id) → in_u128 c'.(cd_session_id) →
  validate_candidate_shape c = Ok tt → validate_candidate_shape c' = Ok tt →
  candidate_id_fields c = candidate_id_fields c' → candidate_identity c = candidate_identity c'.
Proof.
  intros Hs Hs' (_ & Hr & _)%validate_shape_ok (_ & Hr' & _)%validate_shape_ok H.
  unfold candidate_id_fields, domain_field in H. unfold candidate_identity.
  destruct c, c'; cbn in *. unwrap_fields H.
  by rewrite (optional_by_flag _ _ _ Hr Hr').
Qed.

Lemma token_binding_fields_inj c c' e e' :
  in_u128 c.(cd_session_id) → in_u128 c'.(cd_session_id) →
  in_u128 c.(cd_candidate_id) → in_u128 c'.(cd_candidate_id) → in_u64 e → in_u64 e' →
  validate_candidate_shape c = Ok tt → validate_candidate_shape c' = Ok tt →
  token_binding_fields c e = token_binding_fields c' e' →
  token_scope c = token_scope c' ∧ e = e'.
Proof.
  intros ?????? (_ & _ & Hr)%validate_shape_ok (_ & _ & Hr')%validate_shape_ok H.
  unfold token_binding_fields, domain_field in H. unfold token_scope.
  destruct c, c'; cbn in *. unwrap_fields H.
  by rewrite (optional_by_flag _ _ _ Hr Hr').
Qed.

Lemma pair_id_fields_inj sid a b p r sid' a' b' p' r' :
  in_u128 sid → in_u128 sid' → in_u128 a → in_u128 a' → in_u128 b → in_u128 b' →
  bool_decide (is_Some r) = is_relay p → bool_decide (is_Some r') = is_relay p' →
  pair_id_fields sid a b p r = pair_id_fields sid' a' b' p' r' →
  (sid, a, b, p, r) = (sid', a', b', p', r').
Proof.
  intros ?????? Hr Hr' H. unfold pair_id_fields, domain_field in H. unwrap_fields H.
  by rewrite (optional_by_flag _ _ _ Hr Hr').
Qed.

Section binding_lemmas.
Context `{P : Primitives}.

(** Two different encodings with the same 128-bit identifier. *)
Definition prefix_collision (x y : bytes) : Prop := x ≠ y ∧ hash_prefix x = hash_prefix y.

Lemma candidate_id_ok c i :
  candidate_id c = Ok i →
  validate_candidate_shape c = Ok tt ∧
  ∃ bs, push_candidate_id_fields c = Ok bs ∧ i = hash_prefix bs.
Proof. unfold candidate_id, encoding. intros H. invert_ok. eauto. Qed.

Lemma candidate_pair_id_ok sid a b p r i :
  candidate_pair_id sid a b p r = Ok i →
  bool_decide (is_Some r) = is_relay p ∧
  ∃ bs, push_pair_id_fields sid a b p r = Ok bs ∧ i = hash_prefix bs.
Proof.
  unfold candidate_pair_id, encoding. intros H. invert_ok.
  match goal with H : Bool.eqb _ _ = true |- _ => apply Bool.eqb_prop in H end. eauto.
Qed.

Lemma token_binding_ok c e h :
  candidate_token_binding_hash c e = Ok h →
  validate_candidate_shape c = Ok tt ∧ candidate_id c = Ok c.(cd_candidate_id) ∧
  ∃ bs, push_token_binding_fields c e = Ok bs ∧ h = sha256 bs.
Proof.
  unfold candidate_token_binding_hash, encoding. intros H. invert_ok.
  match goal with H : candidate_id c = Ok _ |- _ =>
    pose proof (candidate_id_ok _ _ H) as [? _]; rewrite H end. naive_solver.
Qed.

Lemma candidate_authorization_ok c a now :
  validate_candidate_authorization c a now = Ok tt →
  now ≤ a.(ca_expires_at) ≤ now + CANDIDATE_TOKEN_MAX_TTL_MILLIS ∧
  a.(ca_candidate_token) ≠ [] ∧
  candidate_token_binding_hash c a.(ca_expires_at) = Ok a.(ca_candidate_token_binding_hash).
Proof.
  unfold validate_candidate_authorization, sat_sub. intros H. invert_ok.
  split; [unfold CANDIDATE_TOKEN_MAX_TTL_MILLIS in *; lia|]. by split.
Qed.
End binding_lemmas.

(** The identifier of a candidate stands for its session, device, role,
    path, endpoint, source and relay node, and the identifier of a candidate
    pair for its session, both candidates, path and relay node: two well-formed
    inputs with the same identifier agree on all of them, or their encodings are
    a collision of the 128-bit hash prefix. *)
Theorem candidate_ids_bind `{P : Primitives} :
  (∀ c c' i, in_u128 c.(cd_session_id) → in_u128 c'.(cd_session_id) →
     candidate_id c = Ok i → candidate_id c' = Ok i →
     candidate_identity c = candidate_identity c' ∨
     ∃ x y, push_candidate_id_fields c = Ok x ∧ push_candidate_id_fields c' = Ok y ∧
            prefix_collision x y) ∧
  (∀ sid a b p r sid' a' b' p' r' i,
     in_u128 sid → in_u128 sid' → in_u128 a → in_u128 a' → in_u128 b → in_u128 b' →
     candidate_pair_id sid a b p r = Ok i → candidate_pair_id sid' a' b' p' r' = Ok i →
     (sid, a, b, p, r) = (sid', a', b', p', r') ∨
     ∃ x y, push_pair_id_fields sid a b p r = Ok x ∧
            push_pair_id_fields sid' a' b' p' r' = Ok y ∧ prefix_collision x y).
Proof.
  split.
  - intros c c' i Hs Hs' (V & x & Hx & Hi)%candidate_id_ok (V' & y & Hy & Hi')%candidate_id_ok.
    destruct (decide (x = y)) as [->|Hne].
    + left. apply candidate_id_fields_inj; [done..|].
      by eapply writes_inj; apply candidate_id_writes.
    + right. exists x, y. repeat split; congruence.
  - intros * ?????? (V & y & Hy & Hi)%candidate_pair_id_ok (V' & z & Hz & Hi')%candidate_pair_id_ok.
    destruct (decide (y = z)) as [->|Hne].
    + left. apply pair_id_fields_inj; [done..|].
      by eapply writes_inj; apply pair_id_writes.
    + right. exists y, z. repeat split; congruence.
Qed.

(** A candidate authorization is accepted only inside its lifetime, at most
    60 s long, and only for the candidate its hash was computed for: two
    authorizations accepted with the same binding hash are for the same session,
    device, role, candidate identifier, path, endpoint, source, observe result
    and expiry, or a SHA-256 collision is exhibited. *)
Theorem candidate_token_binds `{P : Primitives} c c' a a' now now' :
  in_u128 c.(cd_session_id) → in_u128 c'.(cd_session_id) →
  in_u128 c.(cd_candidate_id) → in_u128 c'.(cd_candidate_id) →
  in_u64 a.(ca_expires_at) → in_u64 a'.(ca_expires_at) →
  validate_candidate_authorization c a now = Ok tt →
  validate_candidate_authorization c' a' now' = Ok tt →
  a.(ca_candidate_token_binding_hash) = a'.(ca_candidate_token_binding_hash) →
  now ≤ a.(ca_expires_at) ≤ now + 60000 ∧ candidate_id c = Ok c.(cd_candidate_id) ∧
  ((token_scope c = token_scope c' ∧ a.(ca_expires_at) = a'.(ca_expires_at)) ∨
   ∃ x y, push_token_binding_fields c a.(ca_expires_at) = Ok x ∧
          push_token_binding_fields c' a'.(ca_expires_at) = Ok y ∧ sha256_collision x y).
Proof.
  intros ?????? (T & _ & B)%candidate_authorization_ok (_ & _ & B')%candidate_authorization_ok Hh.
  apply token_binding_ok in B as (V & Hid & x & Hx & Ex), B' as (V' & _ & y & Hy & Ey).
  split; [done|]. split; [done|].
  destruct (sha256_equal x y) as [->|Hc]; [congruence| |eauto 6].
  left. apply token_binding_fields_inj; [done..|].
  by eapply writes_inj; apply token_binding_writes.
Qed.

(** ** Relay opens *)

(** Everything [RelayOpenReplayGuard::validate] requires of an open before it
    looks at the nonce. *)
Record relay_authorized `{Primitives} (o : RelayOpen) (a : RelayAllocation)
    (s : RelayAuthorizationSnapshot) (sig_valid : bool) (now : Z) : Prop := {
  ra_token_signature : sig_valid = true;
  ra_fresh : now ≤ s.(as_expires_at) ∧ now ≤ o.(ro_expires_at) ∧
    o.(ro_expires_at) ≤ o.(ro_issued_at) + RELAY_TOKEN_MAX_TTL_MILLIS;
  ra_session_open : s.(as_status) ≠ RelayClosed ∧ s.(as_allow_relay) = true;
  ra_key_current : s.(as_device_key_revoked) = false ∧
    s.(as_device_public_key_version) = s.(as_expected_device_public_key_version);
  ra_node : o.(ro_relay_node_id) ∈ s.(as_allowed_relay_node_ids);
  ra_party : (o.(ro_session_id), o.(ro_device_id), o.(ro_role)) =
             (s.(as_session_id), s.(as_device_id), s.(as_role));
  ra_permissions : o.(ro_permissions_digest) = s.(as_permissions_digest);
  ra_epoch : o.(ro_relay_token_epoch) = s.(as_relay_token_epoch);
  ra_allocated : relay_open_matches_allocation o a = true;
  ra_bound : relay_token_binding_hash a = Ok o.(ro_token_binding_hash) ∧
    a.(al_token_binding_hash) = o.(ro_token_binding_hash);
  ra_signed : length o.(ro_device_signature) = 64%nat ∧
    ∃ bs, relay_open_canonical_bytes o = Ok bs ∧
      verify_canonical_signature s.(as_device_public_key) bs o.(ro_device_signature) = Ok tt }.

(** One presentation of an open to the guard. *)
Record open_request := {
  rq_open : RelayOpen;
  rq_allocation : RelayAllocation;
  rq_snapshot : RelayAuthorizationSnapshot;
  rq_signature_valid : bool;
  rq_now : Z }.

Section relay_open.
Context `{P : Primitives}.

Definition rq_checks (q : open_request) : result BindingError unit :=
  relay_open_checks q.(rq_open) q.(rq_allocation) q.(rq_snapshot)
    q.(rq_signature_valid) q.(rq_now).

Definition rq_authorized (q : open_request) : Prop :=
  relay_authorized q.(rq_open) q.(rq_allocation) q.(rq_snapshot)
    q.(rq_signature_valid) q.(rq_now).

Definition rq_validate (g : RelayOpenReplayGuard) (q : open_request) :=
  relay_open_validate g q.(rq_open) q.(rq_allocation) q.(rq_snapshot)
    q.(rq_signature_valid) q.(rq_now).

(** The answers to a sequence of presentations. *)
Fixpoint relay_open_run (g : RelayOpenReplayGuard) (qs : list open_request)
    : list (result BindingError unit) :=
  match qs with
  | [] => []
  | q :: qs => let '(r, g) := rq_validate g q in r :: relay_open_run g qs
  end.

Lemma relay_checks_ok o a s v now :
  relay_open_checks o a s v now = Ok tt ↔ relay_authorized o a s v now.
Proof.
  unfold relay_open_checks. split.
  - intros H. invert_ok. unfold sat_sub in *.
    split; try (done || congruence).
    + unfold RELAY_TOKEN_MAX_TTL_MILLIS in *; lia.
    + split; [by apply Nat.eqb_eq|eauto].
  - intros [-> (?&?&?) [??] [??] ? Hp ? ? ? [Hb ?] [? (bs & Hc & Hv)]].
    injection Hp as ???. unfold RELAY_TOKEN_MAX_TTL_MILLIS in *. do 13 pass.
    rewrite Hb. cbn [mbind result_bind]. do 2 pass. rewrite Hc. cbn [mbind result_bind].
    by rewrite Hv.
Qed.

Lemma relay_checks_err o a s v now :
  (∃ e, relay_open_checks o a s v now = Err e) ↔ ¬ relay_authorized o a s v now.
Proof.
  rewrite <-relay_checks_ok. destruct (relay_open_checks o a s v now) as [[]|e]; naive_solver.
Qed.

(** The keys of the presentations that passed the checks. *)
Definition rq_key (q : open_request) : relay_open_key := open_key q.(rq_open).

(** The guard's promise: accept the first authorized open of each key. *)
Definition open_answer (earlier : list open_request) (q : open_request)
    (r : result BindingError unit) : Prop :=
  (r = Ok tt ↔ rq_authorized q ∧ ∀ p, p ∈ earlier → rq_authorized p → rq_key p ≠ rq_key q) ∧
  (r = Err NonceReplay ↔ rq_authorized q ∧ ∃ p, p ∈ earlier ∧ rq_authorized p ∧ rq_key p = rq_key q).

Definition guard_knows (g : RelayOpenReplayGuard) (earlier : list open_request) : Prop :=
  ∀ k, k ∈ g.(ro_seen) ↔ ∃ p, p ∈ earlier ∧ rq_authorized p ∧ rq_key p = k.

(** No check of its own answers [NonceReplay]. *)
Lemma relay_checks_not_replay o a s v now :
  relay_open_checks o a s v now ≠ Err NonceReplay.
Proof.
  unfold relay_open_checks, relay_token_binding_hash, relay_open_canonical_bytes, encoding.
  intros H. refute_err.
Qed.

Lemma rq_validate_step g earlier q :
  guard_knows g earlier →
  open_answer earlier q (rq_validate g q).1 ∧ guard_knows (rq_validate g q).2 (earlier ++ [q]).
Proof.
  intros Hg. unfold rq_validate, relay_open_validate, open_answer, guard_knows in *.
  pose proof (relay_checks_not_replay q.(rq_open) q.(rq_allocation) q.(rq_snapshot)
    q.(rq_signature_valid) q.(rq_now)) as Hn.
  destruct (relay_open_checks _ _ _ _ _) as [[]|e] eqn:E.
  - apply relay_checks_ok in E. cbn [fst snd]. fold (rq_authorized q) in E.
    pose proof (Hg (rq_key q)) as Hk. split.
    + unfold rq_key in *. case_bool_decide as Hin.
      * apply Hk in Hin as (p & ? & ? & ?). split; split; [done| |eauto|done].
        intros [_ Hall]. by destruct (Hall p).
      * assert (∀ p, p ∈ earlier → rq_authorized p → open_key (rq_open p) ≠ open_key (rq_open q))
          by (intros p ???; apply Hin, Hk; eauto).
        split; split; [done..|]. intros (_ & p & ? & ? & ?).
        by destruct (H p).
    + intros k. cbn. rewrite elem_of_union, elem_of_singleton, Hg.
      setoid_rewrite elem_of_app. setoid_rewrite list_elem_of_singleton.
      unfold rq_key. naive_solver.
  - assert (¬ rq_authorized q) as Hq by (apply relay_checks_err; eauto).
    cbn [fst snd]. split; [naive_solver|].
    intros k. rewrite Hg. setoid_rewrite elem_of_app. setoid_rewrite list_elem_of_singleton.
    naive_solver.
Qed.

Lemma relay_open_run_from g earlier qs i q :
  guard_knows g earlier → qs !! i = Some q →
  ∃ r, relay_open_run g qs !! i = Some r ∧ open_answer (earlier ++ take i qs) q r.
Proof.
  revert g earlier i. induction qs as [|q' qs IH]; intros g earlier i Hg Hi; [done|].
  cbn [relay_open_run]. destruct (rq_validate_step g earlier q' Hg) as [Ha Hg'].
  destruct (rq_validate g q') as [r g'] eqn:E. cbn [fst snd] in *.
  destruct i as [|i]; cbn in Hi.
  - injection Hi as ->. exists r. cbn. by rewrite app_nil_r.
  - destruct (IH g' (earlier ++ [q']) i Hg' Hi) as (r' & Hr & Hans).
    exists r'. cbn. rewrite <-app_assoc in Hans. by split.
Qed.
End relay_open.

(** For any sequence of relay opens presented to a fresh guard, an open is
    accepted exactly when it is fully authorized (valid token signature, session
    open and relay allowed, current device key, inside both lifetimes, allowed
    node, matching session, device, role, permissions, epoch and allocation,
    correct binding hashes and device signature) and no earlier authorized open
    used the same token, role and nonce; in the latter case the answer is
    [NonceReplay]. *)
Theorem relay_open_accepted_once `{P : Primitives} (qs : list open_request) i q :
  qs !! i = Some q →
  ∃ r, relay_open_run relay_guard_default qs !! i = Some r ∧ open_answer (take i qs) q r.
Proof.
  intros Hi. apply (relay_open_run_from _ []); [|done].
  intros k. cbn. rewrite elem_of_empty. split; [done|]. intros (p & Hp & _).
  by apply elem_of_nil in Hp.
Qed.

(** ** Probes *)

(** One presentation of a probe to the guard. *)
Record probe_request := {
  pq_candidate : ConnectionCandidateDto;
  pq_authorization : CandidateAuthorization;
  pq_token : bytes;
  pq_role : SessionRole;
  pq_nonce : bytes;
  pq_now : Z }.

Definition pq_key (q : probe_request) : probe_key :=
  (q.(pq_candidate).(cd_session_id), q.(pq_candidate).(cd_candidate_id), q.(pq_role), q.(pq_nonce)).

Section probe.
Context `{P : Primitives}.

Definition pq_valid (q : probe_request) : bool :=
  is_ok (probe_checks q.(pq_candidate) q.(pq_authorization) q.(pq_token) q.(pq_role) q.(pq_now)).

Definition pq_validate (g : ProbeReplayGuard) (q : probe_request) :=
  probe_validate g q.(pq_candidate) q.(pq_authorization) q.(pq_token) q.(pq_role)
    q.(pq_nonce) q.(pq_now).

Fixpoint probe_run (g : ProbeReplayGuard) (qs : list probe_request)
    : list (result BindingError unit) :=
  match qs with
  | [] => []
  | q :: qs => let '(r, g) := pq_validate g q in r :: probe_run g qs
  end.

(** The expiry presented with the latest valid probe of a key. *)
Fixpoint last_expiry (k : probe_key) (earlier : list probe_request) : option Z :=
  match earlier with
  | [] => None
  | q :: earlier =>
      match last_expiry k earlier with
      | Some e => Some e
      | None => if pq_valid q && bool_decide (pq_key q = k)
                then Some q.(pq_authorization).(ca_expires_at) else None
      end
  end.

Lemma last_expiry_snoc k earlier q :
  last_expiry k (earlier ++ [q]) =
  if pq_valid q && bool_decide (pq_key q = k)
  then Some q.(pq_authorization).(ca_expires_at) else last_expiry k earlier.
Proof.
  induction earlier as [|p earlier IH]; cbn; [done|].
  rewrite IH. by destruct (pq_valid q && _).
Qed.

(** The guard holds the latest expiry of each key, except expired ones. *)
Definition probe_guard_knows (g : ProbeReplayGuard) (earlier : list probe_request) (now : Z) : Prop :=
  ∀ k, match g.(pr_seen) !! k with
       | Some e => last_expiry k earlier = Some e
       | None => ∀ e, last_expiry k earlier = Some e → e < now
       end.

(** The answer: a valid probe is accepted unless the latest valid probe with
    its key has not expired. *)
Definition probe_answer (earlier : list probe_request) (q : probe_request)
    (r : result BindingError unit) : Prop :=
  (r = Ok tt ↔ pq_valid q = true ∧
     ∀ e, last_expiry (pq_key q) earlier = Some e → e < q.(pq_now)) ∧
  (r = Err ProbeReplay ↔ pq_valid q = true ∧
     ∃ e, last_expiry (pq_key q) earlier = Some e ∧ q.(pq_now) ≤ e).

Lemma probe_checks_not_replay c a t r now : probe_checks c a t r now ≠ Err ProbeReplay.
Proof.
  unfold probe_checks, validate_candidate_authorization, candidate_token_binding_hash,
    candidate_id, validate_candidate_shape, encoding.
  intros H. refute_err.
Qed.

Lemma retained_lookup g earlier now now' k :
  probe_guard_knows g earlier now → now ≤ now' →
  match retain_unexpired now' g.(pr_seen) !! k with
  | Some e => last_expiry k earlier = Some e ∧ now' ≤ e
  | None => ∀ e, last_expiry k earlier = Some e → e < now'
  end.
Proof.
  intros Hg Hn. specialize (Hg k). unfold retain_unexpired. rewrite map_lookup_filter.
  destruct (pr_seen g !! k) as [e|] eqn:E; cbn.
  - destruct (decide (now' ≤ e)).
    + rewrite option_guard_True by done. done.
    + rewrite option_guard_False by done. intros e' He. simplify_eq. lia.
  - intros e He. specialize (Hg e He). lia.
Qed.

Lemma pq_validate_step g earlier now q :
  probe_guard_knows g earlier now → now ≤ q.(pq_now) →
  probe_answer earlier q (pq_validate g q).1 ∧
  probe_guard_knows (pq_validate g q).2 (earlier ++ [q]) q.(pq_now).
Proof.
  intros Hg Hn. unfold pq_validate, probe_validate, probe_answer.
  pose proof (probe_checks_not_replay q.(pq_candidate) q.(pq_authorization) q.(pq_token)
    q.(pq_role) q.(pq_now)) as Hr.
  pose proof (last_expiry_snoc) as Hs. unfold pq_valid in *.
  destruct (probe_checks _ _ _ _ _) as [[]|e] eqn:E; cbn [fst snd is_ok].
  - fold (pq_key q). split.
    + pose proof (retained_lookup g earlier now (pq_now q) (pq_key q) Hg Hn) as Hl.
      destruct (retain_unexpired _ _ !! pq_key q) as [e|].
      * destruct Hl as [Hl Hle]. split; split; [done| |eauto|done].
        intros [_ He]. specialize (He e Hl). lia.
      * split; split; [done..|]. intros (_ & e & He & ?). specialize (Hl e He). lia.
    + intros k. cbn [pr_seen]. rewrite Hs, E. cbn.
      destruct (decide (pq_key q = k)) as [<-|Hk].
      * rewrite lookup_insert_eq, bool_decide_eq_true_2 by done. done.
      * rewrite lookup_insert_ne, bool_decide_eq_false_2 by done.
        pose proof (retained_lookup g earlier now (pq_now q) k Hg Hn) as Hl.
        destruct (retain_unexpired _ _ !! k); naive_solver.
  - split; [split; split; naive_solver|].
    intros k. rewrite Hs, E. cbn. specialize (Hg k). destruct (pr_seen g !! k); [done|].
    intros e' He. specialize (Hg e' He). lia.
Qed.

Lemma probe_run_from g earlier now qs i q :
  probe_guard_knows g earlier now → StronglySorted Z.le (now :: (pq_now <$> qs)) →
  qs !! i = Some q →
  ∃ r, probe_run g qs !! i = Some r ∧ probe_answer (earlier ++ take i qs) q r.
Proof.
  revert g earlier now i. induction qs as [|q' qs IH]; intros g earlier now i Hg Hs Hi; [done|].
  apply StronglySorted_inv in Hs as [Hs Hn]. apply Forall_cons in Hn as [Hn _].
  cbn [probe_run]. destruct (pq_validate_step g earlier now q' Hg Hn) as [Ha Hg'].
  destruct (pq_validate g q') as [r g']. cbn [fst snd] in *.
  destruct i as [|i]; cbn in Hi.
  - injection Hi as ->. exists r. cbn. by rewrite app_nil_r.
  - destruct (IH g' (earlier ++ [q']) (pq_now q') i Hg' Hs Hi) as (r' & Hr & Hans).
    exists r'. cbn. rewrite <-app_assoc in Hans. by split.
Qed.
End probe.

(** For any sequence of probes presented to a fresh guard under a clock
    that does not run backwards, a probe is accepted exactly when it is valid
    (authorized candidate inside its lifetime, opposite role, right token) and
    the latest valid probe with the same session, candidate, role and nonce, if
    there was one, carried an expiry that has passed; otherwise a valid probe is
    answered [ProbeReplay]. With one expiry per candidate, a nonce is therefore
    never accepted twice while its token lives. *)
Theorem probe_replay_exact `{P : Primitives} (qs : list probe_request) i q :
  StronglySorted Z.le (pq_now <$> qs) → qs !! i = Some q →
  ∃ r, probe_run probe_guard_default qs !! i = Some r ∧ probe_answer (take i qs) q r.
Proof.
  intros Hs Hi.
  destruct qs as [|q0 qs]; [done|].
  apply (probe_run_from _ [] (pq_now q0)); [| |done].
  - intros k. cbn. rewrite lookup_empty. done.
  - constructor; [done|]. apply StronglySorted_inv in Hs as [Hs Hf].
    cbn. constructor; [lia|]. done.
Qed.

(** ** Concrete inputs *)

Definition example_candidate : ConnectionCandidateDto := {|
  cd_candidate_id := 0; cd_session_id := 7; cd_device_id := str "device-a";
  cd_role := Controlled; cd_kind := LanDirect; cd_endpoint := str "192.168.1.2:4000";
  cd_source := LocalInterface; cd_observe_result_id := None; cd_priority := 1;
  cd_rtt_ms := None; cd_loss_ppm := None; cd_jitter_ms := None; cd_relay_node_id := None |}.

Definition example_authorization (expires_at : Z) : CandidateAuthorization := {|
  ca_candidate_token := str "token";
  ca_candidate_token_binding_hash :=
    default [] (ok (@candidate_token_binding_hash toy example_candidate expires_at));
  ca_expires_at := expires_at |}.

Definition example_probe (expires_at now : Z) : probe_request := {|
  pq_candidate := example_candidate; pq_authorization := example_authorization expires_at;
  pq_token := str "token"; pq_role := Controller; pq_nonce := repeat x05 32; pq_now := now |}.

Lemma candidate_ids_bind_witness :
  candidate_identity example_candidate = candidate_identity example_candidate ∨
  ∃ x y, push_candidate_id_fields example_candidate = Ok x ∧
         push_candidate_id_fields example_candidate = Ok y ∧ @prefix_collision toy x y.
Proof.
  destruct (@candidate_ids_bind toy) as [H _]. apply (H example_candidate example_candidate 0);
    [split; done..|vm_compute; reflexivity|vm_compute; reflexivity].
Defined.

Lemma candidate_token_binds_witness :
  @validate_candidate_authorization toy example_candidate (example_authorization 1000) 500 = Ok tt ∧
  500 ≤ 1000 ≤ 500 + 60000 ∧ @candidate_id toy example_candidate = Ok 0.
Proof.
  assert (@validate_candidate_authorization toy example_candidate (example_authorization 1000) 500
    = Ok tt) as E by (vm_compute; reflexivity).
  destruct (@candidate_token_binds toy example_candidate example_candidate
    (example_authorization 1000) (example_authorization 1000) 500 500) as (H1 & H2 & _);
    [split; done..|exact E|exact E|reflexivity|].
  split; [exact E|]. split; [exact H1|exact H2].
Defined.

(** The same nonce is refused while the token lives. *)
Lemma probe_replay_exact_witness :
  @probe_run toy probe_guard_default [example_probe 1000 500; example_probe 1000 600] =
    [Ok tt; Err ProbeReplay] ∧
  ∃ r, @probe_run toy probe_guard_default [example_probe 1000 500; example_probe 1000 600] !! 1%nat
         = Some r ∧ @probe_answer toy [example_probe 1000 500] (example_probe 1000 600) r.
Proof.
  split; [vm_compute; reflexivity|].
  apply (@probe_replay_exact toy [example_probe 1000 500; example_probe 1000 600] 1);
    [|reflexivity].
  repeat (constructor; [|]); cbn; repeat constructor; lia.
Defined.

(** A rejected replay overwrites the stored expiry, so presenting the same
    nonce under a shorter-lived authorization of the same candidate ends the
    protection early: the probe accepted at time 0 with a token valid until 1000
    is accepted a second time at 600, after a replay under a token valid until
    500 was refused at 100. *)
Theorem rejected_replay_shortens_window :
  @probe_run toy probe_guard_default
    [example_probe 1000 0; example_probe 500 100; example_probe 1000 600] =
  [Ok tt; Err ProbeReplay; Ok tt].
Proof. vm_compute. reflexivity. Qed.

(** A relay open that passes every check, signed with the toy scheme. *)
Definition example_allocation_unbound : RelayAllocation := {|
  al_session_id := 7; al_device_id := str "device-a"; al_role := Controller;
  al_controller_device_id := str "device-a"; al_controlled_device_id := str "device-b";
  al_relay_node_id := str "relay-1"; al_transport := QuicRelay;
  al_public_endpoint := str "relay.example:443"; al_permissions_digest := repeat x01 32;
  al_relay_token_epoch := 1; al_issued_at := 1000; al_expires_at := 31000;
  al_relay_token_id := str "token-1"; al_session_relay_token := str "secret";
  al_token_binding_hash := [] |}.

Definition example_relay_hash : bytes :=
  default [] (ok (@relay_token_binding_hash toy example_allocation_unbound)).

Definition example_allocation : RelayAllocation := {|
  al_session_id := 7; al_device_id := str "device-a"; al_role := Controller;
  al_controller_device_id := str "device-a"; al_controlled_device_id := str "device-b";
  al_relay_node_id := str "relay-1"; al_transport := QuicRelay;
  al_public_endpoint := str "relay.example:443"; al_permissions_digest := repeat x01 32;
  al_relay_token_epoch := 1; al_issued_at := 1000; al_expires_at := 31000;
  al_relay_token_id := str "token-1"; al_session_relay_token := str "secret";
  al_token_binding_hash := example_relay_hash |}.

Definition example_open_with (signature : bytes) : RelayOpen := {|
  ro_session_id := 7; ro_device_id := str "device-a"; ro_role := Controller;
  ro_controller_device_id := str "device-a"; ro_controlled_device_id := str "device-b";
  ro_relay_node_id := str "relay-1"; ro_transport := QuicRelay;
  ro_permissions_digest := repeat x01 32; ro_relay_token_epoch := 1;
  ro_issued_at := 1000; ro_expires_at := 31000; ro_relay_token_id := str "token-1";
  ro_relay_open_nonce := repeat x09 32; ro_session_relay_token := str "secret";
  ro_token_binding_hash := example_relay_hash; ro_device_signature := signature |}.

Definition example_open : RelayOpen := example_open_with
  (@ed25519_sign toy (repeat x07 32)
    (@sha256 toy (default [] (ok (relay_open_canonical_bytes (example_open_with [])))))).

Definition example_snapshot : RelayAuthorizationSnapshot := {|
  as_session_id := 7; as_device_id := str "device-a"; as_role := Controller;
  as_status := CanConnect; as_allow_relay := true; as_permissions_digest := repeat x01 32;
  as_relay_token_epoch := 1; as_allowed_relay_node_ids := [str "relay-0"; str "relay-1"];
  as_device_public_key := repeat x07 32; as_device_public_key_version := 3;
  as_expected_device_public_key_version := 3; as_device_key_revoked := false;
  as_expires_at := 60000 |}.

Definition example_request (now : Z) : open_request := {|
  rq_open := example_open; rq_allocation := example_allocation;
  rq_snapshot := example_snapshot; rq_signature_valid := true; rq_now := now |}.

(** Accepted once, then refused as a replay, then refused as expired. *)
Lemma relay_open_accepted_once_witness :
  @relay_open_run toy relay_guard_default
    [example_request 2000; example_request 3000; example_request 31001] =
    [Ok tt; Err NonceReplay; Err TokenExpired] ∧
  ∃ r, @relay_open_run toy relay_guard_default
         [example_request 2000; example_request 3000; example_request 31001] !! 1%nat = Some r ∧
       @open_answer toy [example_request 2000] (example_request 3000) r.
Proof.
  split; [vm_compute; reflexivity|].
  apply (@relay_open_accepted_once toy
    [example_request 2000; example_request 3000; example_request 31001] 1). reflexivity.
Defined.
