(* ===== verification/RelayAuth.v ===== *)
(** * Admission to the relay

    Models the authentication half of services/relay-server/src/lib.rs: what a
    relay node checks before it lets a device into a session (node, transport,
    lifetime, role, the HMAC of the relay token, the binding hash, the API's
    authorization and the device signature), and the cache that makes an
    admission single-use.

    Base64, JSON and the HTTP call to the API are not part of the repository:
    the decoders are the class [RelayDecoders] and the answer of the API is an
    argument of each call, so that the theorems hold for every answer. *)

From S2P Require Import Prelude Text Header Canonical Security Primitives KeySession Binding.

Definition MAX_RELAY_TOKEN_TTL_MILLIS : Z := 60000.
Definition REPLAY_RETENTION_MILLIS : Z := 60000.
Definition MAX_REPLAY_ENTRIES : nat := Z.to_nat 100000.

(** The error text is left out. *)
Definition parse_transport (value : rstr) : option TransportPath :=
  if value =! str "quic_relay" then Some QuicRelay
  else if value =! str "tls_443_relay" then Some Tls443Relay
  else None.

Record RelayTokenClaims := {
  tc_session_id : Z;
  tc_device_id : rstr;
  tc_role : SessionRole;
  tc_controller_device_id : rstr;
  tc_controlled_device_id : rstr;
  tc_relay_node_id : rstr;
  tc_transport : TransportPath;
  tc_permissions_digest : bytes;
  tc_relay_token_epoch : Z;
  tc_issued_at : Z;
  tc_expires_at : Z;
  tc_relay_token_id : rstr }.

#[global] Instance RelayTokenClaims_eq_dec : EqDecision RelayTokenClaims.
Proof. solve_decision. Defined.

Record RelayAuthorizeRequest := {
  rq_session_id : rstr;
  rq_device_id : rstr;
  rq_role : rstr;
  rq_permissions_digest : rstr;
  rq_relay_token_epoch : Z }.

Record RelayAuthorization := {
  za_authorized : bool;
  za_session_id : rstr;
  za_role : rstr;
  za_controller_device_id : rstr;
  za_controlled_device_id : rstr;
  za_permissions_digest : rstr;
  za_relay_token_epoch : Z;
  za_expires_at : Z;
  za_device_public_key : rstr;
  za_device_public_key_id : rstr;
  za_device_public_key_version : Z }.

Inductive AuthError :=
| InvalidToken | TokenBindingMismatch | TokenExpired | TokenTtlExceeded | RoleMismatch
| NodeMismatch | TransportMismatch | AuthorizationUnavailable | AuthorizationRejected
| AuthorizationBindingMismatch | AuthorizationExpired | InvalidDeviceKey
| InvalidDeviceSignature | ReplayDetected | ReplayCacheFull.

#[global] Instance AuthError_eq_dec : EqDecision AuthError.
Proof. solve_decision. Defined.

Record AuthenticatedOpen := { ao_device_id : rstr }.

(** The fields of [AppConfig] that admission reads. *)
Record RelayConfig := {
  rc_relay_node_id : rstr;
  rc_relay_token_secret : bytes;
  rc_allowed_transports : list TransportPath }.

(** [ReplayKey] is the token id, the role and the nonce; the cache maps it to
    the time until which it is retained. *)
Abbreviation Replays := (gmap relay_open_key Z).

(** Base64 and [serde_json::from_slice]. *)
Class RelayDecoders := {
  relay_base64 :: Base64;
  claims_from_json : bytes → option RelayTokenClaims;
  authorization_from_json : bytes → option RelayAuthorization
}.

Definition relay_hex (value : bytes) : rstr := flat_map hex_byte value.

(** [{value:032x}] of a [u128] is the hexadecimal text of its 16 bytes. *)
Definition uuid_string (value : Z) : rstr :=
  let v := relay_hex (be_bytes 16 value) in
  slice v 0 8 ++ str "-" ++ slice v 8 12 ++ str "-" ++ slice v 12 16 ++ str "-"
    ++ slice v 16 20 ++ str "-" ++ slice v 20 32.

Definition claims_from_open (o : RelayOpen) : RelayTokenClaims := {|
  tc_session_id := o.(ro_session_id); tc_device_id := o.(ro_device_id);
  tc_role := o.(ro_role); tc_controller_device_id := o.(ro_controller_device_id);
  tc_controlled_device_id := o.(ro_controlled_device_id);
  tc_relay_node_id := o.(ro_relay_node_id); tc_transport := o.(ro_transport);
  tc_permissions_digest := o.(ro_permissions_digest);
  tc_relay_token_epoch := o.(ro_relay_token_epoch); tc_issued_at := o.(ro_issued_at);
  tc_expires_at := o.(ro_expires_at); tc_relay_token_id := o.(ro_relay_token_id) |}.

Definition append_claim_fields (w : CanonicalWriter) (c : RelayTokenClaims)
    : result AuthError CanonicalWriter :=
  map_err (λ _, TokenBindingMismatch) (
  w ← push_u128 w (str "session_id") c.(tc_session_id);
  w ← push_str w (str "device_id") c.(tc_device_id);
  w ← push_str w (str "role") (role_as_str c.(tc_role));
  w ← push_str w (str "controller_device_id") c.(tc_controller_device_id);
  w ← push_str w (str "controlled_device_id") c.(tc_controlled_device_id);
  w ← push_str w (str "relay_node_id") c.(tc_relay_node_id);
  w ← push_str w (str "transport") (path_as_str c.(tc_transport));
  w ← push_field w (str "permissions_digest") c.(tc_permissions_digest);
  w ← push_u64 w (str "relay_token_epoch") c.(tc_relay_token_epoch);
  w ← push_u64 w (str "issued_at_epoch_millis") c.(tc_issued_at);
  w ← push_u64 w (str "expires_at_epoch_millis") c.(tc_expires_at);
  push_str w (str "relay_token_id") c.(tc_relay_token_id)).

(** [relay_open_canonical_bytes] of the server. *)
Definition server_open_canonical_bytes (o : RelayOpen) : result AuthError bytes :=
  w ← map_err (λ _, InvalidDeviceSignature) (writer_new (str "rctl-relay-open-v1"));
  w ← append_claim_fields w (claims_from_open o);
  map_err (λ _, InvalidDeviceSignature) (
  w ← push_field w (str "relay_open_nonce") o.(ro_relay_open_nonce);
  w ← push_field w (str "session_relay_token") o.(ro_session_relay_token);
  w ← push_field w (str "token_binding_hash") o.(ro_token_binding_hash);
  Ok (finish w)).

Definition validate_authorization (o : RelayOpen) (rq : RelayAuthorizeRequest)
    (a : RelayAuthorization) (now : Z) : result AuthError unit :=
  _ ← ensure (negb (
        negb a.(za_authorized)
        || (a.(za_session_id) ≠! rq.(rq_session_id))
        || (a.(za_role) ≠! rq.(rq_role))
        || (a.(za_permissions_digest) ≠! rq.(rq_permissions_digest))
        || negb (a.(za_relay_token_epoch) =? rq.(rq_relay_token_epoch))
        || (a.(za_controller_device_id) ≠! o.(ro_controller_device_id))
        || (a.(za_controlled_device_id) ≠! o.(ro_controlled_device_id))
        || (a.(za_device_public_key_id) =! [])
        || (a.(za_device_public_key_version) =? 0))) AuthorizationBindingMismatch;
  ensure (negb (a.(za_expires_at) <=? now)) AuthorizationExpired.

(** [replays.retain(|_, retain_until| *retain_until > now)]. *)
Definition retain_replays (now : Z) (r : Replays) : Replays :=
  filter (λ kv, now < kv.2) r.

Definition record_replay (r : Replays) (o : RelayOpen) (now : Z)
    : result AuthError unit * Replays :=
  let r := retain_replays now r in
  if (MAX_REPLAY_ENTRIES <=? size r)%nat then (Err ReplayCacheFull, r)
  else
    (if bool_decide (is_Some (r !! open_key o)) then Err ReplayDetected else Ok tt,
     <[open_key o := sat_add 64 o.(ro_expires_at) REPLAY_RETENTION_MILLIS]> r).

Section operations.
Context `{P : Primitives} `{D : RelayDecoders}.

Definition decode_authorization_response (status : Z) (body : bytes)
    : result AuthError RelayAuthorization :=
  _ ← ensure (negb ((status =? 401) || (status =? 403) || (status =? 404)))
        AuthorizationRejected;
  _ ← ensure ((200 <=? status) && (status <? 300)) AuthorizationUnavailable;
  ok_or (authorization_from_json body) AuthorizationUnavailable.

(** [ApiRelayAuthorizer::authorize]: [api] is the HTTP exchange, [None] when the
    request could not be sent or its answer not read. *)
Definition api_authorize (api : RelayAuthorizeRequest → option (Z * bytes))
    (rq : RelayAuthorizeRequest) : result AuthError RelayAuthorization :=
  '(status, body) ← ok_or (api rq) AuthorizationUnavailable;
  decode_authorization_response status body.

Definition verify_relay_token (token secret : bytes) : result AuthError RelayTokenClaims :=
  _ ← ensure (utf8_valid token) InvalidToken;
  '(payload, encoded_signature) ← ok_or (split_once x2e token) InvalidToken;
  signature ← ok_or (b64url_decode encoded_signature) InvalidToken;
  _ ← ensure (signature =! hmac_sha256 secret payload) InvalidToken;
  payload ← ok_or (b64url_decode payload) InvalidToken;
  ok_or (claims_from_json payload) InvalidToken.

(** [relay_token_binding_hash] of the server. *)
Definition server_token_binding_hash (c : RelayTokenClaims) : result AuthError bytes :=
  w ← map_err (λ _, TokenBindingMismatch) (writer_new (str "rctl-relay-token-binding-v1"));
  w ← append_claim_fields w c;
  Ok (sha256 (finish w)).

Definition authorize_request (o : RelayOpen) : RelayAuthorizeRequest := {|
  rq_session_id := uuid_string o.(ro_session_id); rq_device_id := o.(ro_device_id);
  rq_role := role_as_str o.(ro_role); rq_permissions_digest := relay_hex o.(ro_permissions_digest);
  rq_relay_token_epoch := o.(ro_relay_token_epoch) |}.

(** [authenticate_open] up to the replay cache. *)
Definition open_checks (cfg : RelayConfig) (enabled : bool) (o : RelayOpen)
    (expected_transport : TransportPath) (api : RelayAuthorizeRequest → option (Z * bytes))
    (now : Z) : result AuthError unit :=
  _ ← ensure (negb (negb enabled || (o.(ro_relay_node_id) ≠! cfg.(rc_relay_node_id)))) NodeMismatch;
  _ ← ensure (negb ((o.(ro_transport) ≠! expected_transport) || negb (is_relay o.(ro_transport))
               || negb (bool_decide (o.(ro_transport) ∈ cfg.(rc_allowed_transports)))))
        TransportMismatch;
  _ ← ensure (negb (o.(ro_expires_at) <=? now)) TokenExpired;
  _ ← ensure (negb ((sat_add 64 now 5000 <? o.(ro_issued_at))
               || (MAX_RELAY_TOKEN_TTL_MILLIS <? sat_sub o.(ro_expires_at) o.(ro_issued_at))))
        TokenTtlExceeded;
  let role_device := match o.(ro_role) with
                     | Controller => o.(ro_controller_device_id)
                     | Controlled => o.(ro_controlled_device_id)
                     end in
  _ ← ensure (o.(ro_device_id) =! role_device) RoleMismatch;
  claims ← verify_relay_token o.(ro_session_relay_token) cfg.(rc_relay_token_secret);
  _ ← ensure (claims =! claims_from_open o) TokenBindingMismatch;
  binding_hash ← server_token_binding_hash claims;
  _ ← ensure (binding_hash =! o.(ro_token_binding_hash)) TokenBindingMismatch;
  let request := authorize_request o in
  authorization ← api_authorize api request;
  _ ← validate_authorization o request authorization now;
  public_key ← ok_or (decode_array 32 authorization.(za_device_public_key)) InvalidDeviceKey;
  _ ← ensure (length o.(ro_device_signature) =? 64)%nat InvalidDeviceSignature;
  canonical ← server_open_canonical_bytes o;
  _ ← ensure (ed25519_valid_public public_key) InvalidDeviceKey;
  ensure (ed25519_verify public_key (sha256 canonical) o.(ro_device_signature))
    InvalidDeviceSignature.

Definition authenticate_open (cfg : RelayConfig) (enabled : bool) (r : Replays) (o : RelayOpen)
    (expected_transport : TransportPath) (api : RelayAuthorizeRequest → option (Z * bytes))
    (now : Z) : result AuthError AuthenticatedOpen * Replays :=
  match open_checks cfg enabled o expected_transport api now with
  | Err e => (Err e, r)
  | Ok _ =>
      let '(res, r) := record_replay r o now in
      (_ ← res; Ok {| ao_device_id := o.(ro_device_id) |}, r)
  end.
End operations.

(** ** What admission requires *)

Section lemmas.
Context `{P : Primitives} `{D : RelayDecoders}.

(** The server and the transport library write the same bytes. *)
Lemma append_claims_same w o :
  append_claim_fields w (claims_from_open o) =
  map_err (λ _, TokenBindingMismatch)
    (push_relay_binding_fields w o.(ro_session_id) o.(ro_device_id) o.(ro_role)
        o.(ro_controller_device_id) o.(ro_controlled_device_id) o.(ro_relay_node_id)
        o.(ro_transport) o.(ro_permissions_digest) o.(ro_relay_token_epoch)
        o.(ro_issued_at) o.(ro_expires_at) o.(ro_relay_token_id)).
Proof. done. Qed.

Lemma server_open_bytes_ok o bs :
  server_open_canonical_bytes o = Ok bs ↔ relay_open_canonical_bytes o = Ok bs.
Proof.
  unfold server_open_canonical_bytes, relay_open_canonical_bytes, encoding. rewrite map_err_ok.
  rewrite !bind_ok. setoid_rewrite map_err_ok. f_equiv. intros w. rewrite append_claims_same.
  rewrite !bind_ok. setoid_rewrite map_err_ok. done.
Qed.

Lemma server_binding_ok o h :
  server_token_binding_hash (claims_from_open o) = Ok h ↔
  ∃ w bs, writer_new (str "rctl-relay-token-binding-v1") = Ok w ∧
    push_relay_binding_fields w o.(ro_session_id) o.(ro_device_id) o.(ro_role)
        o.(ro_controller_device_id) o.(ro_controlled_device_id) o.(ro_relay_node_id)
        o.(ro_transport) o.(ro_permissions_digest) o.(ro_relay_token_epoch)
        o.(ro_issued_at) o.(ro_expires_at) o.(ro_relay_token_id) = Ok bs ∧ h = sha256 (finish bs).
Proof.
  unfold server_token_binding_hash. split.
  - intros (w & Hw%map_err_ok & (v & Hv & [= <-])%bind_ok)%bind_ok.
    rewrite append_claims_same in Hv. apply map_err_ok in Hv. by exists w, v.
  - intros (w & v & Hw & Hv & ->). rewrite Hw. cbn [map_err mbind result_bind].
    by rewrite append_claims_same, Hv.
Qed.

(** Everything [authenticate_open] requires before the replay cache. [z] is the
    authorization the API answered. *)
Record admissible (cfg : RelayConfig) (o : RelayOpen) (expected : TransportPath)
    (api : RelayAuthorizeRequest → option (Z * bytes)) (now : Z) : Prop := {
  ad_node : o.(ro_relay_node_id) = cfg.(rc_relay_node_id);
  ad_transport : o.(ro_transport) = expected ∧ is_relay expected = true ∧
    expected ∈ cfg.(rc_allowed_transports);
  ad_fresh : now < o.(ro_expires_at) ∧ o.(ro_issued_at) ≤ sat_add 64 now 5000 ∧
    o.(ro_expires_at) ≤ o.(ro_issued_at) + MAX_RELAY_TOKEN_TTL_MILLIS;
  ad_party : o.(ro_device_id) = match o.(ro_role) with
                                | Controller => o.(ro_controller_device_id)
                                | Controlled => o.(ro_controlled_device_id) end;
  ad_token : verify_relay_token o.(ro_session_relay_token) cfg.(rc_relay_token_secret)
             = Ok (claims_from_open o);
  ad_bound : server_token_binding_hash (claims_from_open o) = Ok o.(ro_token_binding_hash);
  ad_authorized : ∃ z pk bs,
    api_authorize api (authorize_request o) = Ok z ∧
    validate_authorization o (authorize_request o) z now = Ok tt ∧
    decode_array 32 z.(za_device_public_key) = Some pk ∧
    length o.(ro_device_signature) = 64%nat ∧
    server_open_canonical_bytes o = Ok bs ∧ ed25519_valid_public pk = true ∧
    ed25519_verify pk (sha256 bs) o.(ro_device_signature) = true }.

Lemma open_checks_ok cfg enabled o expected api now :
  open_checks cfg enabled o expected api now = Ok tt ↔
  enabled = true ∧ admissible cfg o expected api now.
Proof.
  unfold open_checks. split.
  - intros H. invert_ok. split; [done|]. unfold sat_sub in *.
    split; try done; [unfold MAX_RELAY_TOKEN_TTL_MILLIS in *; lia|].
    do 3 eexists. split_and!; try done; by apply Nat.eqb_eq.
  - intros [-> [? (? & ? & ?) (? & ? & ?) ? Ht Hb (z & pk & bs & Ha & Hv & Hd & Hl & Hc & Hp & Hs)]].
    subst expected. unfold MAX_RELAY_TOKEN_TTL_MILLIS in *. do 5 pass.
    rewrite Ht. cbn [mbind result_bind]. pass. rewrite Hb. cbn [mbind result_bind]. pass.
    rewrite Ha. cbn [mbind result_bind]. rewrite Hv. cbn [mbind result_bind].
    rewrite Hd. cbn [ok_or mbind result_bind]. pass. rewrite Hc. cbn [mbind result_bind].
    by rewrite Hp, Hs.
Qed.
End lemmas.

(** ** The replay cache over a history of opens *)

(** One call of [authenticate_open], with what the call reads: the node's
    switch, the connection's transport, the API's answer and the clock. *)
Record open_call := {
  oc_enabled : bool;
  oc_open : RelayOpen;
  oc_transport : TransportPath;
  oc_api : RelayAuthorizeRequest → option (Z * bytes);
  oc_now : Z }.

Definition oc_key (c : open_call) : relay_open_key := open_key c.(oc_open).

Section history.
Context `{P : Primitives} `{D : RelayDecoders}.

Definition try_open (cfg : RelayConfig) (r : Replays) (c : open_call)
    : result AuthError AuthenticatedOpen * Replays :=
  authenticate_open cfg c.(oc_enabled) r c.(oc_open) c.(oc_transport) c.(oc_api) c.(oc_now).

Lemma retain_size now r : (size (retain_replays now r) ≤ size r)%nat.
Proof. apply map_subseteq_size, map_filter_subseteq. Qed.

Lemma record_replay_size r o now :
  (size r ≤ MAX_REPLAY_ENTRIES)%nat → (size (record_replay r o now).2 ≤ MAX_REPLAY_ENTRIES)%nat.
Proof.
  intros Hr. unfold record_replay. pose proof (retain_size now r).
  destruct (Nat.leb_spec MAX_REPLAY_ENTRIES (size (retain_replays now r))); cbn [snd]; [lia|].
  etrans; [apply size_insert_le|lia].
Qed.

Lemma admit_size cfg r c :
  (size r ≤ MAX_REPLAY_ENTRIES)%nat → (size (try_open cfg r c).2 ≤ MAX_REPLAY_ENTRIES)%nat.
Proof.
  intros Hr. unfold try_open, authenticate_open. destruct (open_checks _ _ _ _ _ _); [|done].
  pose proof (record_replay_size r (oc_open c) (oc_now c) Hr). by destruct (record_replay _ _ _).
Qed.

(** A key is remembered until its expiry, at a time [t]. *)
Definition remembered (k : relay_open_key) (e t : Z) (r : Replays) : Prop :=
  (∃ v, r !! k = Some v ∧ e ≤ v) ∨ e ≤ t.

Lemma retain_remembered k e t now r :
  t ≤ now → remembered k e t r → remembered k e now (retain_replays now r).
Proof.
  intros Ht [(v & Hv & He)|He]; [|right; lia].
  destruct (decide (now < v)); [left|right; lia].
  exists v. split; [|done]. apply map_lookup_filter_Some. by split.
Qed.

Lemma admit_remembered cfg k e t r c :
  in_u64 e → t ≤ c.(oc_now) → (oc_key c = k → c.(oc_open).(ro_expires_at) = e) →
  remembered k e t r →
  remembered k e c.(oc_now) (try_open cfg r c).2 ∧
  (oc_key c = k → ∀ a, (try_open cfg r c).1 ≠ Ok a).
Proof.
  intros Hu Ht Hk Hr. unfold try_open, authenticate_open.
  destruct (open_checks _ _ _ _ _ _) as [[]|err] eqn:Hc; cbn [fst snd].
  2:{ split; [|done]. destruct Hr as [?|?]; [by left|right; lia]. }
  apply open_checks_ok in Hc as [_ Hc]. pose proof (ad_fresh _ _ _ _ _ Hc) as (Hnow & _).
  apply (retain_remembered _ _ _ (oc_now c)) in Hr; [|done].
  unfold record_replay. destruct (_ <=? _)%nat; cbn [fst snd]; [by split|].
  unfold oc_key in *. destruct (decide (open_key (oc_open c) = k)) as [<-|Hne].
  - specialize (Hk eq_refl). destruct Hr as [(v & Hv & He)|?]; [|lia].
    rewrite Hv, bool_decide_eq_true_2 by eauto. split; [|done]. left.
    eexists. split; [apply lookup_insert_eq|]. rewrite Hk.
    unfold sat_add, u_max, REPLAY_RETENTION_MILLIS, in_u in *. lia.
  - split; [|done]. destruct Hr as [(v & Hv & He)|?]; [left|right; lia].
    exists v. split; [|done]. by rewrite lookup_insert_ne.
Qed.

(** The key of an admitted open is remembered. *)
Lemma admit_ok_remembered cfg r c a :
  in_u64 c.(oc_open).(ro_expires_at) → (try_open cfg r c).1 = Ok a →
  remembered (oc_key c) c.(oc_open).(ro_expires_at) c.(oc_now) (try_open cfg r c).2.
Proof.
  intros Hu. unfold try_open, authenticate_open.
  destruct (open_checks _ _ _ _ _ _) as [[]|err] eqn:Hc; cbn [fst snd]; [|done].
  unfold record_replay. destruct (_ <=? _)%nat; cbn [fst snd mbind result_bind]; [done|].
  intros _. left. eexists. split; [apply lookup_insert_eq|].
  unfold sat_add, u_max, REPLAY_RETENTION_MILLIS, in_u in *. lia.
Qed.

Lemma admissions_remembered cfg k e t r cs i c :
  in_u64 e → remembered k e t r →
  (∀ i c, cs !! i = Some c → t ≤ c.(oc_now)) →
  (∀ i j a b, (i ≤ j)%nat → cs !! i = Some a → cs !! j = Some b → a.(oc_now) ≤ b.(oc_now)) →
  (∀ c, c ∈ cs → oc_key c = k → c.(oc_open).(ro_expires_at) = e) →
  cs !! i = Some c → oc_key c = k → ∀ a, (runs (try_open cfg) r cs).1 !! i ≠ Some (Ok a).
Proof.
  intros Hu. revert t r i. induction cs as [|c' cs IH]; intros t r i Hr Ht Hs He Hi Hk a; [done|].
  rewrite runs_cons. pose proof (Ht 0%nat c' eq_refl) as Ht'.
  destruct (admit_remembered cfg k e t r c' Hu Ht') as [Hr' Hn];
    [apply He; by left|done|].
  destruct i as [|i]; cbn in Hi |- *.
  - injection Hi as ->. intros [= Hi]. by apply (Hn Hk a).
  - apply (IH c'.(oc_now)); try done.
    + intros i' c'' Hi'. by apply (Hs 0%nat (S i')); [lia| |].
    + intros i' j' b b' Hl Hb Hb'. by apply (Hs (S i') (S j')); [lia| |].
    + intros b Hb. apply He. by right.
Qed.
End history.

(** ** The texts in a request to the API *)

#[global] Instance relay_hex_inj : Inj (=) (=) relay_hex.
Proof. intros x y. apply hex_inj. Qed.

Lemma relay_hex_length x : length (relay_hex x) = (2 * length x)%nat.
Proof. induction x as [|b x IH]; cbn; [done|]. unfold relay_hex in IH. rewrite IH. lia. Qed.

Lemma uuid_string_inj a b : in_u128 a → in_u128 b → uuid_string a = uuid_string b → a = b.
Proof.
  intros Ha Hb H. unfold uuid_string in H.
  assert (∀ v, length (relay_hex (be_bytes 16 v)) = 32%nat) as Hl by (intros; by rewrite relay_hex_length, be_bytes_length).
  repeat (apply app_inj_1 in H as [? H]; [|rewrite ?slice_length by (rewrite Hl; lia); done]).
  assert (∀ v : rstr, length v = 32%nat →
    v = slice v 0 8 ++ slice v 8 12 ++ slice v 12 16 ++ slice v 16 20 ++ slice v 20 32) as Hs.
  { intros v Hv. rewrite !slice_app_slice by lia. by rewrite slice_here. }
  apply (be_bytes_inj 16); [done..|]. apply (inj relay_hex).
  rewrite (Hs _ (Hl a)), (Hs _ (Hl b)). congruence.
Qed.

(** ** Agreement with the transport library *)

(** The claims of a token that was issued for an allocation. *)
Definition claims_of_allocation (a : RelayAllocation) : RelayTokenClaims := {|
  tc_session_id := a.(al_session_id); tc_device_id := a.(al_device_id);
  tc_role := a.(al_role); tc_controller_device_id := a.(al_controller_device_id);
  tc_controlled_device_id := a.(al_controlled_device_id);
  tc_relay_node_id := a.(al_relay_node_id); tc_transport := a.(al_transport);
  tc_permissions_digest := a.(al_permissions_digest);
  tc_relay_token_epoch := a.(al_relay_token_epoch); tc_issued_at := a.(al_issued_at);
  tc_expires_at := a.(al_expires_at); tc_relay_token_id := a.(al_relay_token_id) |}.

(** The API's answer [z] to the request of [o] and the library's snapshot [s]
    are two records of the same session. *)
Record describes `{RelayDecoders} (s : RelayAuthorizationSnapshot) (z : RelayAuthorization)
    (o : RelayOpen) : Prop := {
  ds_authorized : z.(za_authorized) = true ↔
    s.(as_status) ≠ RelayClosed ∧ s.(as_allow_relay) = true ∧
    s.(as_device_key_revoked) = false ∧
    s.(as_device_public_key_version) = s.(as_expected_device_public_key_version) ∧
    o.(ro_relay_node_id) ∈ s.(as_allowed_relay_node_ids) ∧ o.(ro_device_id) = s.(as_device_id);
  ds_session : z.(za_session_id) = uuid_string s.(as_session_id) ∧ in_u128 s.(as_session_id);
  ds_role : z.(za_role) = role_as_str s.(as_role);
  ds_permissions : z.(za_permissions_digest) = relay_hex s.(as_permissions_digest);
  ds_epoch : z.(za_relay_token_epoch) = s.(as_relay_token_epoch);
  ds_expires : z.(za_expires_at) = s.(as_expires_at);
  ds_devices : z.(za_controller_device_id) = o.(ro_controller_device_id) ∧
               z.(za_controlled_device_id) = o.(ro_controlled_device_id);
  ds_key : decode_array 32 z.(za_device_public_key) = Some s.(as_device_public_key);
  ds_key_id : z.(za_device_public_key_id) ≠ [] ∧ z.(za_device_public_key_version) ≠ 0 }.

Section agreement.
Context `{P : Primitives} `{D : RelayDecoders}.

Lemma matches_allocation_iff o a :
  relay_open_matches_allocation o a = true ↔
  claims_of_allocation a = claims_from_open o ∧
  o.(ro_session_relay_token) = a.(al_session_relay_token).
Proof.
  unfold relay_open_matches_allocation, claims_of_allocation, claims_from_open.
  rewrite !andb_true_iff, !Z.eqb_eq, !bool_decide_eq_true. split.
  - intros H. destruct_and! H. split; [congruence|done].
  - intros [[= ? ? ? ? ? ? ? ? ? ? ? ?] Ht]. by split_and!.
Qed.

(** The library's binding hash of the allocation is the server's of its claims. *)
Lemma binding_hash_same o a h :
  claims_of_allocation a = claims_from_open o → is_relay o.(ro_transport) = true →
  relay_token_binding_hash a = Ok h ↔ server_token_binding_hash (claims_from_open o) = Ok h.
Proof.
  intros Hc Ht. rewrite server_binding_ok. unfold relay_token_binding_hash, relay_token_bytes, encoding.
  injection Hc as -> -> -> -> -> -> -> -> -> -> -> ->. rewrite Ht. split.
  - intros H. cbn [ensure mbind result_bind] in H.
    apply bind_ok in H as (bs & Hb%map_err_ok & [= <-]).
    apply bind_ok in Hb as (w & Hw & (v & Hv & [= <-])%bind_ok). by exists w, v.
  - intros (w & v & Hw & Hv & ->). cbn [ensure mbind result_bind].
    apply bind_ok. exists (finish v). split; [|done]. apply map_err_ok, bind_ok.
    exists w. split; [done|]. apply bind_ok. by exists v.
Qed.

Lemma validate_authorization_iff s z o now :
  describes s z o → in_u128 o.(ro_session_id) →
  validate_authorization o (authorize_request o) z now = Ok tt ↔
  z.(za_authorized) = true ∧ now < s.(as_expires_at) ∧
  (o.(ro_session_id), o.(ro_role)) = (s.(as_session_id), s.(as_role)) ∧
  o.(ro_permissions_digest) = s.(as_permissions_digest) ∧
  o.(ro_relay_token_epoch) = s.(as_relay_token_epoch).
Proof.
  intros [_ [Hs Hu] Hr Hp He Hx [Hc Hd] _ [Hk Hv]] Ho. unfold validate_authorization, authorize_request.
  cbn [rq_session_id rq_role rq_permissions_digest rq_relay_token_epoch].
  rewrite Hs, Hr, Hp, He, Hx, Hc, Hd. split.
  - intros H. invert_ok. split_and!; try done.
    + f_equal; [symmetry; by apply uuid_string_inj|by apply (inj role_as_str)].
    + by apply (inj relay_hex).
  - intros (Ha & Hn & [= -> ->] & -> & ->). pass. by apply ensure_ok, negb_true_iff, Z.leb_gt.
Qed.
End agreement.

(** ** Theorems *)

(** The relay server and the transport library accept the same opens. For
    an open whose token was issued for the allocation, presented to the right
    node over an allowed relay transport by the device of its role, and an API
    answer and a library snapshot that describe the same session, the server's
    checks pass exactly when the library's do, except at the very millisecond an
    authorization expires, where only the library still accepts. *)
Theorem relay_admission_agrees `{P : Primitives} `{D : RelayDecoders} cfg o a s z expected api now :
  o.(ro_relay_node_id) = cfg.(rc_relay_node_id) →
  o.(ro_transport) = expected → is_relay expected = true →
  expected ∈ cfg.(rc_allowed_transports) →
  o.(ro_device_id) = match o.(ro_role) with
                     | Controller => o.(ro_controller_device_id)
                     | Controlled => o.(ro_controlled_device_id) end →
  o.(ro_issued_at) ≤ sat_add 64 now 5000 → now ≠ o.(ro_expires_at) → now ≠ s.(as_expires_at) →
  o.(ro_session_relay_token) = a.(al_session_relay_token) →
  verify_relay_token a.(al_session_relay_token) cfg.(rc_relay_token_secret)
    = Ok (claims_of_allocation a) →
  relay_token_binding_hash a = Ok a.(al_token_binding_hash) →
  api_authorize api (authorize_request o) = Ok z → describes s z o →
  in_u128 o.(ro_session_id) →
  open_checks cfg true o expected api now = Ok tt ↔ relay_open_checks o a s true now = Ok tt.
Proof.
  intros Hnode Htr Hrel Hall Hparty Hskew Hne Hne' Htok Hver Hal Hapi Hd Hu.
  pose proof (validate_authorization_iff s z o now Hd Hu) as Hva.
  pose proof (ds_authorized _ _ _ Hd) as Hauth. pose proof (ds_key _ _ _ Hd) as Hkey.
  rewrite open_checks_ok, relay_checks_ok. split.
  - intros [_ [_ _ (? & _ & ?) _ Ht Hb (z' & pk & bs & Ha & Hv & Hk & Hl & Hc & Hp & Hs)]].
    rewrite Hapi in Ha. injection Ha as <-. rewrite Hkey in Hk. injection Hk as <-.
    apply Hva in Hv as (Hz & ? & [= ? ?] & ? & ?). apply Hauth in Hz as (? & ? & ? & ? & ? & ?).
    rewrite Htok, Hver in Ht. injection Ht as Ht.
    assert (claims_of_allocation a = claims_from_open o) as Hcl by (unfold claims_of_allocation, claims_from_open; congruence).
    rewrite <-Htr in Hrel. apply (binding_hash_same o a _ Hcl Hrel) in Hb.
    split; try done; [unfold RELAY_TOKEN_MAX_TTL_MILLIS, MAX_RELAY_TOKEN_TTL_MILLIS in *; lia|congruence| | |].
    + by apply matches_allocation_iff.
    + split; congruence.
    + split; [done|]. exists bs. split; [by apply server_open_bytes_ok|].
      unfold verify_canonical_signature, verify_digest_signature. by rewrite Hp, Hs.
  - intros [_ (? & ? & ?) [? ?] [? ?] ? [= ? ? ?] ? ? Hm [Hb ?] [Hl (bs & Hc & Hs)]].
    apply matches_allocation_iff in Hm as [Hcl _]. split; [done|].
    unfold verify_canonical_signature, verify_digest_signature in Hs. invert_ok.
    split; try done; [unfold RELAY_TOKEN_MAX_TTL_MILLIS, MAX_RELAY_TOKEN_TTL_MILLIS in *; lia|congruence| |].
    + by apply (binding_hash_same o a _ Hcl).
    + exists z, s.(as_device_public_key), bs. split_and!; try done.
      * apply Hva. split_and!; try done; [|lia|congruence]. by apply Hauth.
      * by apply server_open_bytes_ok.
Qed.

(** C24: The relay admits an open at most once: in any sequence of opens
    presented at non-decreasing times, with any interleaving of other sessions,
    any answers of the API and any switching of the node, two opens that carry
    the same token id, role and nonce (tokens of one id having one expiry) are
    never both admitted; and the cache that ensures it never exceeds 100,000
    entries. *)
Theorem relay_open_admitted_once `{P : Primitives} `{D : RelayDecoders} cfg cs i j ci cj a :
  (∀ i j a b, (i ≤ j)%nat → cs !! i = Some a → cs !! j = Some b → a.(oc_now) ≤ b.(oc_now)) →
  cs !! i = Some ci → cs !! j = Some cj → (i < j)%nat → oc_key cj = oc_key ci →
  (∀ c, c ∈ cs → oc_key c = oc_key ci →
        c.(oc_open).(ro_expires_at) = ci.(oc_open).(ro_expires_at)) →
  in_u64 ci.(oc_open).(ro_expires_at) →
  (runs (try_open cfg) ∅ cs).1 !! i = Some (Ok a) →
  (∀ b, (runs (try_open cfg) ∅ cs).1 !! j ≠ Some (Ok b)) ∧
  (size (runs (try_open cfg) ∅ cs).2 ≤ MAX_REPLAY_ENTRIES)%nat.
Proof.
  intros Hs Hi Hj Hij Hk He Hu Ha. split.
  2:{ apply (runs_inv _ (λ r, (size r ≤ MAX_REPLAY_ENTRIES)%nat)); [rewrite map_size_empty; lia|].
      intros r c _. apply admit_size. }
  rewrite (runs_lookup _ _ _ _ _ Hi) in Ha. injection Ha as Ha.
  apply admit_ok_remembered in Ha; [|done].
  intros b. rewrite (runs_lookup_after _ _ _ _ _ _ Hi Hij).
  assert (drop (S i) cs !! (j - S i)%nat = Some cj) as Hj'.
  { rewrite lookup_drop. rewrite <-Hj. f_equal. lia. }
  eapply (admissions_remembered cfg (oc_key ci) _ ci.(oc_now)); try done.
  - intros i' c. rewrite lookup_drop. intros Hc. by apply (Hs i (S i + i')%nat); [lia| |].
  - intros i' j' x y Hl. rewrite !lookup_drop. intros Hx Hy. by apply (Hs (S i + i')%nat (S i + j')%nat); [lia| |].
  - intros c Hc. apply He. rewrite <-(take_drop (S i) cs). apply elem_of_app. by right.
Qed.

(** An open, its token and the two records of its session, with decoders that
    read exactly these. *)
Definition example_relay_config : RelayConfig := {|
  rc_relay_node_id := str "relay-a"; rc_relay_token_secret := repeat x00 32;
  rc_allowed_transports := [QuicRelay; Tls443Relay] |}.

Definition role_device (r : SessionRole) : rstr :=
  match r with Controller => str "controller-a" | Controlled => str "controlled-a" end.

Definition example_allocation (r : SessionRole) (hash : bytes) : RelayAllocation := {|
  al_session_id := 7; al_device_id := role_device r; al_role := r;
  al_controller_device_id := str "controller-a"; al_controlled_device_id := str "controlled-a";
  al_relay_node_id := str "relay-a"; al_transport := QuicRelay; al_public_endpoint := str "relay:443";
  al_permissions_digest := repeat x03 32; al_relay_token_epoch := 1; al_issued_at := 1000;
  al_expires_at := 20000; al_relay_token_id := str "token-1";
  al_session_relay_token :=
    role_as_str r ++ str "." ++ @hmac_sha256 toy (repeat x00 32) (role_as_str r);
  al_token_binding_hash := hash |}.

Definition example_relay_hash (r : SessionRole) : bytes :=
  default [] (ok (@relay_token_binding_hash toy (example_allocation r []))).

Definition example_open (r : SessionRole) (signature : bytes) : RelayOpen :=
  let a := example_allocation r (example_relay_hash r) in {|
  ro_session_id := a.(al_session_id); ro_device_id := a.(al_device_id); ro_role := a.(al_role);
  ro_controller_device_id := a.(al_controller_device_id);
  ro_controlled_device_id := a.(al_controlled_device_id);
  ro_relay_node_id := a.(al_relay_node_id); ro_transport := a.(al_transport);
  ro_permissions_digest := a.(al_permissions_digest);
  ro_relay_token_epoch := a.(al_relay_token_epoch); ro_issued_at := a.(al_issued_at);
  ro_expires_at := a.(al_expires_at); ro_relay_token_id := a.(al_relay_token_id);
  ro_relay_open_nonce := repeat x09 32; ro_session_relay_token := a.(al_session_relay_token);
  ro_token_binding_hash := a.(al_token_binding_hash); ro_device_signature := signature |}.

Definition example_signed_open (r : SessionRole) : RelayOpen :=
  example_open r (@ed25519_sign toy (repeat x07 32)
    (@sha256 toy (default [] (ok (server_open_canonical_bytes (example_open r [])))))).

Definition example_authorization (r : SessionRole) : RelayAuthorization := {|
  za_authorized := true; za_session_id := uuid_string 7; za_role := role_as_str r;
  za_controller_device_id := str "controller-a"; za_controlled_device_id := str "controlled-a";
  za_permissions_digest := relay_hex (repeat x03 32); za_relay_token_epoch := 1; za_expires_at := 30000;
  za_device_public_key := repeat x07 32; za_device_public_key_id := str "key-1";
  za_device_public_key_version := 1 |}.

Definition example_relay_snapshot : RelayAuthorizationSnapshot := {|
  as_session_id := 7; as_device_id := str "controller-a"; as_role := Controller;
  as_status := CanConnect; as_allow_relay := true; as_permissions_digest := repeat x03 32;
  as_relay_token_epoch := 1; as_allowed_relay_node_ids := [str "relay-a"];
  as_device_public_key := repeat x07 32; as_device_public_key_version := 1;
  as_expected_device_public_key_version := 1; as_device_key_revoked := false;
  as_expires_at := 30000 |}.

Definition example_role (b : bytes) : option SessionRole :=
  if b =! str "controller" then Some Controller
  else if b =! str "controlled" then Some Controlled else None.

Definition example_decoders : RelayDecoders := {|
  relay_base64 := {| b64url_decode s := Some s |};
  claims_from_json b := (λ r, claims_of_allocation (example_allocation r [])) <$> example_role b;
  authorization_from_json b := example_authorization <$> example_role b |}.
#[local] Existing Instance example_decoders.

Definition example_api (rq : RelayAuthorizeRequest) : option (Z * bytes) := Some (200, rq.(rq_role)).

Lemma relay_admission_agrees_witness :
  @open_checks toy _ example_relay_config true (example_signed_open Controller) QuicRelay example_api 2000 = Ok tt ↔
  @relay_open_checks toy (example_signed_open Controller)
    (example_allocation Controller (example_relay_hash Controller))
    example_relay_snapshot true 2000 = Ok tt.
Proof.
  apply (@relay_admission_agrees toy example_decoders example_relay_config (example_signed_open Controller)
    (example_allocation Controller (example_relay_hash Controller)) example_relay_snapshot
    (example_authorization Controller));
    try (vm_compute; first [reflexivity|congruence]).
  - left.
  - split; try (vm_compute; first [reflexivity|split_and!; first [reflexivity|congruence]]).
    split; [intros _|done]. split_and!; try done. left.
  - vm_compute. split; congruence.
Defined.

Definition example_call (r : SessionRole) (now : Z) : open_call := {|
  oc_enabled := true; oc_open := example_signed_open r; oc_transport := QuicRelay;
  oc_api := example_api; oc_now := now |}.

Lemma two_calls_sorted c d :
  c.(oc_now) ≤ d.(oc_now) →
  ∀ i j a b, (i ≤ j)%nat → [c; d] !! i = Some a → [c; d] !! j = Some b → a.(oc_now) ≤ b.(oc_now).
Proof. intros H [|[|i]] [|[|j]] a b Hl; cbn; intros; simplify_eq; lia. Qed.

Lemma relay_open_admitted_once_witness :
  let cs := [example_call Controller 2000; example_call Controller 3000] in
  (runs (@try_open toy _ example_relay_config) ∅ cs).1 !! 0%nat
    = Some (Ok {| ao_device_id := str "controller-a" |}) ∧
  ∀ b, (runs (@try_open toy _ example_relay_config) ∅ cs).1 !! 1%nat ≠ Some (Ok b).
Proof.
  intros cs. assert ((runs (@try_open toy _ example_relay_config) ∅ cs).1 !! 0%nat
    = Some (Ok {| ao_device_id := str "controller-a" |})) as H0 by (vm_compute; reflexivity).
  split; [exact H0|].
  refine (proj1 (@relay_open_admitted_once toy _ example_relay_config cs 0 1 (example_call Controller 2000)
    (example_call Controller 3000) {| ao_device_id := str "controller-a" |} _ eq_refl eq_refl _ eq_refl _ _ H0)).
  - by apply two_calls_sorted.
  - lia.
  - intros c [->|[->|[]%elem_of_nil]%elem_of_cons]%elem_of_cons _; reflexivity.
  - vm_compute. split; congruence.
Defined.
