(* ===== verification/Relay.v ===== *)
(** * The relay: pairing and forwarding

    Models the forwarding half of services/relay-server/src/lib.rs: the table of
    connected peers, the bounded queue of each connection, and the task that
    serves one connection ([handle_relay_stream]): admission ([RelayAuth]),
    registration, the read and write loops under [select!], and removal.

    The server runs one such task per connection; tasks interleave at their
    [await] points and share the peer table, the replay cache and the queues. The
    step relation [relay_step] has one rule per atomic piece of a task, so its traces
    are the interleavings of any number of connections. A queue is the channel of
    [mpsc]; it is closed once its receiver is dropped, at the end of the task.

    Connection ids come from a [u64] counter; the model covers the connections
    up to the counter's wrap-around (at a million connections per second, the
    first half million years of a process). *)

From S2P Require Import Prelude Text Header Canonical Security Primitives KeySession Binding RelayAuth.

Definition MAX_OPEN_BYTES : Z := 64 * 1024.
Definition MAX_FRAME_BYTES : Z := 1024 * 1024.
Definition FRAME_QUEUE_CAPACITY : nat := 32.

#[global] Instance TransportPath_countable : Countable TransportPath.
Proof.
  refine (inj_countable' (λ p, match p with LanDirect => 0 | UdpP2p => 1
                               | QuicRelay => 2 | Tls443Relay => 3 end)%nat
    (λ n, match n with O => LanDirect | 1 => UdpP2p | 2 => QuicRelay | _ => Tls443Relay end)%nat _).
  by intros [].
Defined.

(** ** Frames on the wire *)

Inductive FrameError := FrameOutOfBounds | FrameTooLarge | UnexpectedEof.

(** [read_frame] on the bytes a stream still holds; the rest of the stream is
    returned. A stream that ends inside the prefix is an end of stream. *)
Definition read_frame (maximum : Z) (stream : bytes) : result FrameError (option (bytes * bytes)) :=
  if (length stream <? 4)%nat then Ok None
  else
    let n := be_val (take 4 stream) in
    let rest := drop 4 stream in
    _ ← ensure (negb ((n =? 0) || (maximum <? n))) FrameOutOfBounds;
    _ ← ensure (n <=? len rest) UnexpectedEof;
    Ok (Some (take (Z.to_nat n) rest, drop (Z.to_nat n) rest)).

Definition write_frame (frame : bytes) : result FrameError bytes :=
  n ← ok_or (u32_try_from (len frame)) FrameTooLarge;
  Ok (be_bytes 4 n ++ frame).

(** ** The peer table *)

(** [sender] is the channel of the connection with that id. *)
Record Peer := { peer_connection_id : Z; peer_sender : Z }.
Record PeerSet := { ps_controller : option Peer; ps_controlled : option Peer }.
Definition peer_set_default : PeerSet := {| ps_controller := None; ps_controlled := None |}.

Abbreviation session_key := (Z * TransportPath)%type.
Abbreviation Sessions := (gmap session_key PeerSet).

Inductive PeerError := RoleAlreadyConnected | SessionNotPaired | PeerNotConnected | PeerQueueClosed.
#[global] Instance PeerError_eq_dec : EqDecision PeerError.
Proof. solve_decision. Defined.

(** The slot of a role, and an assignment to it. *)
Definition slot (ps : PeerSet) (r : SessionRole) : option Peer :=
  match r with Controller => ps.(ps_controller) | Controlled => ps.(ps_controlled) end.

Definition set_slot (ps : PeerSet) (r : SessionRole) (p : option Peer) : PeerSet :=
  match r with
  | Controller => {| ps_controller := p; ps_controlled := ps.(ps_controlled) |}
  | Controlled => {| ps_controller := ps.(ps_controller); ps_controlled := p |}
  end.

Definition register_peer (sessions : Sessions) (session_id : Z) (transport : TransportPath)
    (role : SessionRole) (connection_id sender : Z) : result PeerError unit * Sessions :=
  let key : session_key := (session_id, transport) in
  let peers := default peer_set_default (sessions !! key) in
  match slot peers role with
  | Some _ => (Err RoleAlreadyConnected, <[key := peers]> sessions)
  | None => (Ok tt, <[key := set_slot peers role
                               (Some {| peer_connection_id := connection_id; peer_sender := sender |})]> sessions)
  end.

(** [forward] up to the [send]: the channel of the other role. *)
Definition forward_sender (sessions : Sessions) (session_id : Z) (transport : TransportPath)
    (sender_role : SessionRole) : result PeerError Z :=
  peers ← ok_or (sessions !! ((session_id, transport) : session_key)) SessionNotPaired;
  peer ← ok_or (match sender_role with
                | Controller => peers.(ps_controlled)
                | Controlled => peers.(ps_controller)
                end) PeerNotConnected;
  Ok peer.(peer_sender).

Definition remove_peer (sessions : Sessions) (session_id : Z) (transport : TransportPath)
    (role : SessionRole) (connection_id : Z) : Sessions :=
  let key : session_key := (session_id, transport) in
  match sessions !! key with
  | None => sessions
  | Some peers =>
      let peers := match slot peers role with
                   | Some p => if p.(peer_connection_id) =? connection_id
                               then set_slot peers role None else peers
                   | None => peers
                   end in
      match peers.(ps_controller), peers.(ps_controlled) with
      | None, None => delete key sessions
      | _, _ => <[key := peers]> sessions
      end
  end.

(** ** Tasks *)

(** Where the task of a connection is. [Active] holds the frame the read loop is
    sending to the channel of the peer. *)
Inductive Phase :=
| Authenticated
| Active (sending : option (Z * bytes))
| Ending
| Removed
| Finished.

Record Conn := { cn_open : RelayOpen; cn_phase : Phase }.

Record RelayState := {
  rl_replays : Replays;
  rl_sessions : Sessions;
  rl_conns : gmap Z Conn;
  rl_queues : gmap Z (list bytes);
  rl_next_connection_id : Z }.

Definition relay_new : RelayState := {|
  rl_replays := ∅; rl_sessions := ∅; rl_conns := ∅; rl_queues := ∅; rl_next_connection_id := 1 |}.

Inductive Event :=
| EvAdmit (i : Z) (c : open_call)
| EvRefuse (c : open_call) (e : AuthError)
| EvRegister (i : Z)
| EvRegisterFailed (i : Z) (e : PeerError)
| EvRead (i : Z) (f : bytes)
| EvReadFailed (i : Z) (f : bytes) (e : PeerError)
| EvEnqueue (i j : Z) (f : bytes)
| EvSendFailed (i : Z) (f : bytes) (e : PeerError)
| EvDeliver (j : Z) (f : bytes)
| EvHangup (i : Z)
| EvRemove (i : Z)
| EvDrop (i : Z).

Definition set_conn (s : RelayState) (i : Z) (o : RelayOpen) (p : Phase) : RelayState := {|
  rl_replays := s.(rl_replays); rl_sessions := s.(rl_sessions);
  rl_conns := <[i := {| cn_open := o; cn_phase := p |}]> s.(rl_conns);
  rl_queues := s.(rl_queues); rl_next_connection_id := s.(rl_next_connection_id) |}.

Definition set_sessions (s : RelayState) (ss : Sessions) : RelayState := {|
  rl_replays := s.(rl_replays); rl_sessions := ss; rl_conns := s.(rl_conns);
  rl_queues := s.(rl_queues); rl_next_connection_id := s.(rl_next_connection_id) |}.

Definition set_queues (s : RelayState) (q : gmap Z (list bytes)) : RelayState := {|
  rl_replays := s.(rl_replays); rl_sessions := s.(rl_sessions); rl_conns := s.(rl_conns);
  rl_queues := q; rl_next_connection_id := s.(rl_next_connection_id) |}.

Definition set_replays (s : RelayState) (r : Replays) : RelayState := {|
  rl_replays := r; rl_sessions := s.(rl_sessions); rl_conns := s.(rl_conns);
  rl_queues := s.(rl_queues); rl_next_connection_id := s.(rl_next_connection_id) |}.

(** [next_connection_id.fetch_add(1)] and the new channel. *)
Definition accept_conn (s : RelayState) (o : RelayOpen) : RelayState :=
  let i := s.(rl_next_connection_id) in {|
  rl_replays := s.(rl_replays); rl_sessions := s.(rl_sessions);
  rl_conns := <[i := {| cn_open := o; cn_phase := Authenticated |}]> s.(rl_conns);
  rl_queues := <[i := []]> s.(rl_queues); rl_next_connection_id := i + 1 |}.

Definition conn_key (o : RelayOpen) : session_key := (o.(ro_session_id), o.(ro_transport)).

Section steps.
Context `{P : Primitives} `{D : RelayDecoders} (cfg : RelayConfig).

Inductive relay_step (s : RelayState) : Event → RelayState → Prop :=
| step_admit c a r :
    try_open cfg s.(rl_replays) c = (Ok a, r) → in_u64 (s.(rl_next_connection_id) + 1) →
    relay_step s (EvAdmit s.(rl_next_connection_id) c) (accept_conn (set_replays s r) c.(oc_open))
| step_refuse c e r :
    try_open cfg s.(rl_replays) c = (Err e, r) →
    relay_step s (EvRefuse c e) (set_replays s r)
| step_register i o ss :
    s.(rl_conns) !! i = Some {| cn_open := o; cn_phase := Authenticated |} →
    register_peer s.(rl_sessions) o.(ro_session_id) o.(ro_transport) o.(ro_role) i i = (Ok tt, ss) →
    relay_step s (EvRegister i) (set_conn (set_sessions s ss) i o (Active None))
| step_register_failed i o e ss :
    s.(rl_conns) !! i = Some {| cn_open := o; cn_phase := Authenticated |} →
    register_peer s.(rl_sessions) o.(ro_session_id) o.(ro_transport) o.(ro_role) i i = (Err e, ss) →
    relay_step s (EvRegisterFailed i e)
      (set_conn (set_queues (set_sessions s ss) (delete i s.(rl_queues))) i o Finished)
| step_read i o f j :
    s.(rl_conns) !! i = Some {| cn_open := o; cn_phase := Active None |} →
    0 < len f ≤ MAX_FRAME_BYTES →
    forward_sender s.(rl_sessions) o.(ro_session_id) o.(ro_transport) o.(ro_role) = Ok j →
    relay_step s (EvRead i f) (set_conn s i o (Active (Some (j, f))))
| step_read_failed i o f e :
    s.(rl_conns) !! i = Some {| cn_open := o; cn_phase := Active None |} →
    0 < len f ≤ MAX_FRAME_BYTES →
    forward_sender s.(rl_sessions) o.(ro_session_id) o.(ro_transport) o.(ro_role) = Err e →
    relay_step s (EvReadFailed i f e) (set_conn s i o Ending)
| step_enqueue i o j f q :
    s.(rl_conns) !! i = Some {| cn_open := o; cn_phase := Active (Some (j, f)) |} →
    s.(rl_queues) !! j = Some q → (length q < FRAME_QUEUE_CAPACITY)%nat →
    relay_step s (EvEnqueue i j f)
      (set_conn (set_queues s (<[j := q ++ [f]]> s.(rl_queues))) i o (Active None))
| step_send_failed i o j f :
    s.(rl_conns) !! i = Some {| cn_open := o; cn_phase := Active (Some (j, f)) |} →
    s.(rl_queues) !! j = None →
    relay_step s (EvSendFailed i f PeerQueueClosed) (set_conn s i o Ending)
| step_deliver j o p f q :
    s.(rl_conns) !! j = Some {| cn_open := o; cn_phase := Active p |} →
    s.(rl_queues) !! j = Some (f :: q) →
    relay_step s (EvDeliver j f) (set_queues s (<[j := q]> s.(rl_queues)))
| step_hangup i o p :
    s.(rl_conns) !! i = Some {| cn_open := o; cn_phase := Active p |} →
    relay_step s (EvHangup i) (set_conn s i o Ending)
| step_remove i o :
    s.(rl_conns) !! i = Some {| cn_open := o; cn_phase := Ending |} →
    relay_step s (EvRemove i) (set_conn (set_sessions s
      (remove_peer s.(rl_sessions) o.(ro_session_id) o.(ro_transport) o.(ro_role) i)) i o Removed)
| step_drop i o :
    s.(rl_conns) !! i = Some {| cn_open := o; cn_phase := Removed |} →
    relay_step s (EvDrop i) (set_conn (set_queues s (delete i s.(rl_queues))) i o Finished).

(** The step relation is a function of the event. *)
Definition exec (s : RelayState) (ev : Event) : option RelayState :=
  match ev with
  | EvAdmit i c =>
      match try_open cfg s.(rl_replays) c with
      | (Ok _, r) => guard (i = s.(rl_next_connection_id) ∧ 0 ≤ i + 1 < 2 ^ 64);;
                     Some (accept_conn (set_replays s r) c.(oc_open))
      | (Err _, _) => None
      end
  | EvRefuse c e =>
      match try_open cfg s.(rl_replays) c with
      | (Err e', r) => guard (e = e');; Some (set_replays s r)
      | (Ok _, _) => None
      end
  | _ =>
      let i := match ev with
               | EvRegister i | EvRegisterFailed i _ | EvRead i _ | EvReadFailed i _ _
               | EvEnqueue i _ _ | EvSendFailed i _ _ | EvDeliver i _ | EvHangup i
               | EvRemove i | EvDrop i => i
               | _ => 0
               end in
      c ← s.(rl_conns) !! i;
      let o := c.(cn_open) in
      let fits f := 0 < len f ≤ MAX_FRAME_BYTES in
      match ev, c.(cn_phase) with
      | EvRegister _, Authenticated =>
          match register_peer s.(rl_sessions) o.(ro_session_id) o.(ro_transport) o.(ro_role) i i with
          | (Ok _, ss) => Some (set_conn (set_sessions s ss) i o (Active None))
          | (Err _, _) => None
          end
      | EvRegisterFailed _ e, Authenticated =>
          match register_peer s.(rl_sessions) o.(ro_session_id) o.(ro_transport) o.(ro_role) i i with
          | (Err e', ss) => guard (e = e');;
              Some (set_conn (set_queues (set_sessions s ss) (delete i s.(rl_queues))) i o Finished)
          | (Ok _, _) => None
          end
      | EvRead _ f, Active None =>
          guard (fits f);;
          j ← ok (forward_sender s.(rl_sessions) o.(ro_session_id) o.(ro_transport) o.(ro_role));
          Some (set_conn s i o (Active (Some (j, f))))
      | EvReadFailed _ f e, Active None =>
          guard (fits f ∧ forward_sender s.(rl_sessions) o.(ro_session_id) o.(ro_transport) o.(ro_role) = Err e);;
          Some (set_conn s i o Ending)
      | EvEnqueue _ j f, Active (Some (j', f')) =>
          guard (j = j' ∧ f = f');; q ← s.(rl_queues) !! j;
          guard (length q < FRAME_QUEUE_CAPACITY)%nat;;
          Some (set_conn (set_queues s (<[j := q ++ [f]]> s.(rl_queues))) i o (Active None))
      | EvSendFailed _ f PeerQueueClosed, Active (Some (j, f')) =>
          guard (f = f' ∧ s.(rl_queues) !! j = None);; Some (set_conn s i o Ending)
      | EvDeliver _ f, Active _ =>
          match s.(rl_queues) !! i with
          | Some (f' :: q) => guard (f = f');; Some (set_queues s (<[i := q]> s.(rl_queues)))
          | _ => None
          end
      | EvHangup _, Active _ => Some (set_conn s i o Ending)
      | EvRemove _, Ending => Some (set_conn (set_sessions s
          (remove_peer s.(rl_sessions) o.(ro_session_id) o.(ro_transport) o.(ro_role) i)) i o Removed)
      | EvDrop _, Removed =>
          Some (set_conn (set_queues s (delete i s.(rl_queues))) i o Finished)
      | _, _ => None
      end
  end.

Lemma exec_step s ev s' : exec s ev = Some s' ↔ relay_step s ev s'.
Proof.
  split.
  - destruct ev; cbn [exec]; intros H;
      repeat first [progress simplify_option_eq | progress destruct_and! | break_match];
      try done; repeat match goal with
      | c : Conn |- _ => destruct c; cbn in *; subst
      | u : unit |- _ => destruct u
      | H : ok ?r = Some _ |- _ => destruct r eqn:?; cbn in H; simplify_eq
      end; by econstructor.
  - destruct 1; cbn [exec];
      repeat match goal with H : ?x = _ |- context [?x] => rewrite H; cbn end;
      rewrite ?option_guard_True by done; try done.
Qed.

(** Traces, with the latest event last. *)
Inductive steps (s : RelayState) : list Event → RelayState → Prop :=
| steps_nil : steps s [] s
| steps_snoc tr s' ev s'' : steps s tr s' → relay_step s' ev s'' → steps s (tr ++ [ev]) s''.

(** The state a trace leads to, if it is one. *)
Fixpoint exec_all (s : RelayState) (tr : list Event) : option RelayState :=
  match tr with
  | [] => Some s
  | ev :: tr => s ← exec s ev; exec_all s tr
  end.

Lemma exec_all_steps s tr0 s0 tr s' :
  steps s tr0 s0 → exec_all s0 tr = Some s' → steps s (tr0 ++ tr) s'.
Proof.
  revert tr0 s0. induction tr as [|ev tr IH]; intros tr0 s0 H0 H; cbn in H; [by simplify_eq; rewrite app_nil_r|].
  destruct (exec s0 ev) as [s1|] eqn:E; [|done]. apply exec_step in E.
  rewrite cons_middle, app_assoc. eapply IH; [by eapply steps_snoc|done].
Qed.

Definition reachable (s : RelayState) : Prop := ∃ tr, steps relay_new tr s.
End steps.

(** ** The invariant of the table *)

Definition registered (p : Phase) : bool :=
  match p with Active _ | Ending => true | _ => false end.

(** The slot of a connection in the table. *)
Definition slot_of (ss : Sessions) (k : session_key) (r : SessionRole) : option Peer :=
  ss !! k ≫= λ ps, slot ps r.

(** Two opens are the two ends of one session on one transport. *)
Definition opposite_ends (o o' : RelayOpen) : Prop :=
  conn_key o = conn_key o' ∧ o.(ro_role) ≠ o'.(ro_role).

(** A frame is only being sent to the other end, which has registered. *)
Definition sending_ok (m : gmap Z Conn) (o : RelayOpen) (p : Phase) : Prop :=
  ∀ j f, p = Active (Some (j, f)) →
  ∃ c, m !! j = Some c ∧ opposite_ends o c.(cn_open) ∧ c.(cn_phase) ≠ Authenticated.

Record relay_inv (s : RelayState) : Prop := {
  ri_ids : ∀ i c, s.(rl_conns) !! i = Some c → i < s.(rl_next_connection_id);
  ri_nonempty : ∀ k ps, s.(rl_sessions) !! k = Some ps → ∃ r p, slot ps r = Some p;
  ri_slot : ∀ k r p, slot_of s.(rl_sessions) k r = Some p →
    p.(peer_sender) = p.(peer_connection_id) ∧
    ∃ c, s.(rl_conns) !! p.(peer_connection_id) = Some c ∧ registered c.(cn_phase) = true ∧
         conn_key c.(cn_open) = k ∧ c.(cn_open).(ro_role) = r;
  ri_registered : ∀ i c, s.(rl_conns) !! i = Some c → registered c.(cn_phase) = true →
    slot_of s.(rl_sessions) (conn_key c.(cn_open)) c.(cn_open).(ro_role)
    = Some {| peer_connection_id := i; peer_sender := i |};
  ri_queue : ∀ i q, s.(rl_queues) !! i = Some q →
    (length q ≤ FRAME_QUEUE_CAPACITY)%nat ∧
    ∃ c, s.(rl_conns) !! i = Some c ∧ c.(cn_phase) ≠ Finished;
  ri_open_queue : ∀ i c, s.(rl_conns) !! i = Some c → c.(cn_phase) ≠ Finished →
    is_Some (s.(rl_queues) !! i);
  ri_sending : ∀ i c, s.(rl_conns) !! i = Some c →
    sending_ok s.(rl_conns) c.(cn_open) c.(cn_phase) }.

(** *** What the table operations do to the slots *)

Lemma slot_set_slot ps r r' p :
  slot (set_slot ps r p) r' = if bool_decide (r = r') then p else slot ps r'.
Proof. by destruct r, r'. Qed.

Lemma slot_of_insert ss k ps k' r :
  slot_of (<[k := ps]> ss) k' r = if bool_decide (k = k') then slot ps r else slot_of ss k' r.
Proof.
  unfold slot_of. case_bool_decide; [subst; by rewrite lookup_insert_eq|by rewrite lookup_insert_ne].
Qed.

Lemma slot_of_default ss k r :
  slot (default peer_set_default (ss !! k)) r = slot_of ss k r.
Proof. unfold slot_of. destruct (ss !! k); [done|]. by destruct r. Qed.

Lemma register_ok ss sid tp r i ss' :
  register_peer ss sid tp r i i = (Ok tt, ss') →
  slot_of ss (sid, tp) r = None ∧
  (∀ k' r', slot_of ss' k' r' = if bool_decide ((sid, tp) = k' ∧ r = r')
     then Some {| peer_connection_id := i; peer_sender := i |} else slot_of ss k' r') ∧
  ((∀ k ps, ss !! k = Some ps → ∃ r p, slot ps r = Some p) →
   ∀ k ps, ss' !! k = Some ps → ∃ r p, slot ps r = Some p).
Proof.
  unfold register_peer. rewrite slot_of_default. destruct (slot_of ss (sid, tp) r) eqn:E; [done|].
  intros [= <-]. split; [done|]. split.
  - intros k' r'. rewrite slot_of_insert.
    destruct (decide ((sid, tp) = k')) as [<-|Hk].
    + rewrite (bool_decide_eq_true_2 (_ = _)) by done. rewrite slot_set_slot, slot_of_default.
      repeat case_bool_decide; naive_solver.
    + rewrite !bool_decide_eq_false_2 by naive_solver. done.
  - intros Hn k ps [(? & <-)|[? ?]]%lookup_insert_Some; [|eauto].
    exists r. rewrite slot_set_slot, bool_decide_eq_true_2 by done. eauto.
Qed.

Lemma register_err ss sid tp r i e ss' :
  register_peer ss sid tp r i i = (Err e, ss') → ss' = ss.
Proof.
  unfold register_peer. destruct (slot _ r) eqn:E; [|done]. intros [= _ <-].
  rewrite slot_of_default in E. unfold slot_of in E. destruct (ss !! (sid, tp)) eqn:F; [|done].
  cbn. by apply insert_id.
Qed.

Lemma forward_sender_ok ss sid tp r j :
  forward_sender ss sid tp r = Ok j →
  ∃ p, slot_of ss (sid, tp) (peer_role r) = Some p ∧ p.(peer_sender) = j.
Proof.
  unfold forward_sender, slot_of. intros H. invert_ok.
  match goal with H : ss !! _ = Some _ |- _ => rewrite H end.
  eexists. split; [|reflexivity]. by destruct r.
Qed.

Lemma remove_ok ss sid tp r i :
  slot_of ss (sid, tp) r = Some {| peer_connection_id := i; peer_sender := i |} →
  (∀ k' r', slot_of (remove_peer ss sid tp r i) k' r' =
     if bool_decide ((sid, tp) = k' ∧ r = r') then None else slot_of ss k' r') ∧
  ((∀ k ps, ss !! k = Some ps → ∃ r p, slot ps r = Some p) →
   ∀ k ps, remove_peer ss sid tp r i !! k = Some ps → ∃ r p, slot ps r = Some p).
Proof.
  unfold remove_peer. intros Hs. pose proof Hs as Hs'. unfold slot_of in Hs'.
  destruct (ss !! (sid, tp)) as [ps|] eqn:E; cbn in Hs'; [|done].
  rewrite Hs'. cbn [peer_connection_id]. rewrite Z.eqb_refl.
  set (ps' := set_slot ps r None).
  assert (∀ k' r', slot_of (<[(sid, tp) := ps']> ss) k' r' =
    if bool_decide ((sid, tp) = k' ∧ r = r') then None else slot_of ss k' r') as Hi.
  { intros k' r'. rewrite slot_of_insert. destruct (decide ((sid, tp) = k')) as [<-|Hk].
    - rewrite (bool_decide_eq_true_2 (_ = _)) by done. unfold ps'. rewrite slot_set_slot.
      unfold slot_of. rewrite E. cbn. repeat case_bool_decide; naive_solver.
    - rewrite !bool_decide_eq_false_2 by naive_solver. done. }
  destruct (ps_controller ps') eqn:Ec; [|destruct (ps_controlled ps') eqn:Ed].
  3:{ split.
      - intros k' r'. rewrite <-Hi, slot_of_insert. unfold slot_of. case_bool_decide as Hk.
        + subst. rewrite lookup_delete_eq. by destruct r'.
        + by rewrite lookup_delete_ne.
      - intros Hn k q [_ Hq]%lookup_delete_Some. eauto. }
  all: split; [exact Hi|]; intros Hn k q [(_ & <-)|[_ ?]]%lookup_insert_Some; [|eauto].
  - by exists Controller, p.
  - by exists Controlled, p.
Qed.

(** *** Preservation *)

(** The table of tasks grows, and a task that left [Authenticated] does not
    return to it. *)
Definition conns_le (m m' : gmap Z Conn) : Prop :=
  ∀ i c, m !! i = Some c → ∃ c', m' !! i = Some c' ∧ c'.(cn_open) = c.(cn_open) ∧
    (c.(cn_phase) ≠ Authenticated → c'.(cn_phase) ≠ Authenticated).

Lemma conns_le_refl m : conns_le m m.
Proof. intros i c H. eauto. Qed.

Lemma conns_le_trans m1 m2 m3 : conns_le m1 m2 → conns_le m2 m3 → conns_le m1 m3.
Proof.
  intros H1 H2 i c Hc. destruct (H1 i c Hc) as (c2 & Hc2 & Ho & Hp).
  destruct (H2 i c2 Hc2) as (c3 & Hc3 & Ho' & Hp'). exists c3. split; [done|]. split; [congruence|auto].
Qed.

Lemma conns_le_set m i o p p' :
  m !! i = Some {| cn_open := o; cn_phase := p |} → p' ≠ Authenticated →
  conns_le m (<[i := {| cn_open := o; cn_phase := p' |}]> m).
Proof.
  intros Hi Hp j c Hj. destruct (decide (i = j)) as [<-|].
  - rewrite Hi in Hj. injection Hj as <-. eexists. by rewrite lookup_insert_eq.
  - exists c. by rewrite lookup_insert_ne.
Qed.

Lemma sending_ok_le m m' o p : conns_le m m' → sending_ok m o p → sending_ok m' o p.
Proof.
  intros Hle Hs j f ->. destruct (Hs j f eq_refl) as (c & Hc & Ho & Hp).
  destruct (Hle j c Hc) as (c' & Hc' & He & Hp'). exists c'. split; [done|].
  unfold opposite_ends in *. rewrite He. auto.
Qed.

(** A task moves between phases with the same registration. *)
Lemma inv_set_conn s i o p p' :
  relay_inv s → s.(rl_conns) !! i = Some {| cn_open := o; cn_phase := p |} →
  registered p = true → registered p' = true → sending_ok s.(rl_conns) o p' →
  relay_inv (set_conn s i o p').
Proof.
  intros [H1 H2 H3 H4 H5 H6 H7] Hi Hp Hp' Hs.
  assert (p' ≠ Authenticated ∧ p' ≠ Finished) as [Ha Hf] by (by destruct p').
  pose proof (conns_le_set _ _ _ _ _ Hi Ha) as Hle.
  split; cbn [set_conn rl_conns rl_sessions rl_queues rl_next_connection_id].
  - intros j c [(<- & <-)|[_ Hc]]%lookup_insert_Some; eauto.
  - done.
  - intros k r q Hq. destruct (H3 k r q Hq) as [Hse (c & Hc & Hr & Hk & Hro)]. split; [done|].
    destruct (decide (i = peer_connection_id q)) as [->|].
    + rewrite Hi in Hc. injection Hc as <-. eexists. by rewrite lookup_insert_eq.
    + exists c. by rewrite lookup_insert_ne.
  - intros j c [(<- & <-)|[_ Hc]]%lookup_insert_Some Hr; [|by apply H4]. by apply (H4 i _ Hi).
  - intros j q Hq. destruct (H5 j q Hq) as [Hl (c & Hc & Hfc)]. split; [done|].
    destruct (decide (i = j)) as [<-|]; [eexists; by rewrite lookup_insert_eq|].
    exists c. by rewrite lookup_insert_ne.
  - intros j c [(<- & <-)|[_ Hc]]%lookup_insert_Some Hr; [|by eapply H6]. apply (H6 i _ Hi). by destruct p.
  - intros j c [(<- & <-)|[_ Hc]]%lookup_insert_Some; apply (sending_ok_le _ _ _ _ Hle); eauto.
Qed.

(** An open queue changes within its capacity. *)
Lemma inv_set_queue s j q q' :
  relay_inv s → s.(rl_queues) !! j = Some q → (length q' ≤ FRAME_QUEUE_CAPACITY)%nat →
  relay_inv (set_queues s (<[j := q']> s.(rl_queues))).
Proof.
  intros [H1 H2 H3 H4 H5 H6 H7] Hj Hl. split; try done; cbn [set_queues rl_conns rl_queues].
  - intros i q'' [(<- & <-)|[_ Hq]]%lookup_insert_Some; [|by apply H5].
    split; [done|]. by apply (H5 j q).
  - intros i c Hc Hf. destruct (decide (j = i)) as [<-|].
    + rewrite lookup_insert_eq. eauto.
    + rewrite lookup_insert_ne by done. by eapply H6.
Qed.

(** A task ends and drops its receiver. *)
Lemma inv_finish s i o p :
  relay_inv s → s.(rl_conns) !! i = Some {| cn_open := o; cn_phase := p |} → registered p = false →
  relay_inv (set_conn (set_queues s (delete i s.(rl_queues))) i o Finished).
Proof.
  intros [H1 H2 H3 H4 H5 H6 H7] Hi Hp.
  pose proof (conns_le_set _ _ _ _ Finished Hi ltac:(done)) as Hle.
  split; cbn [set_conn set_queues rl_conns rl_sessions rl_queues rl_next_connection_id].
  - intros j c [(<- & <-)|[_ Hc]]%lookup_insert_Some; eauto.
  - done.
  - intros k r q Hq. destruct (H3 k r q Hq) as [Hse (c & Hc & Hr & Hk & Hro)]. split; [done|].
    exists c. rewrite lookup_insert_ne; [done|]. intros ->. rewrite Hi in Hc. injection Hc as <-. cbn in Hr. congruence.
  - intros j c [(<- & <-)|[_ Hc]]%lookup_insert_Some Hr; [done|by apply H4].
  - intros j q [Hn Hq]%lookup_delete_Some. destruct (H5 j q Hq) as [Hl (c & Hc & Hfc)]. split; [done|].
    exists c. by rewrite lookup_insert_ne.
  - intros j c [(<- & <-)|[Hn Hc]]%lookup_insert_Some Hr; [done|]. rewrite lookup_delete_ne by done. by eapply H6.
  - intros j c [(<- & <-)|[_ Hc]]%lookup_insert_Some; [done|]. apply (sending_ok_le _ _ _ _ Hle); eauto.
Qed.

(** A new connection has a fresh id and an empty queue. *)
Lemma inv_accept s o : relay_inv s → relay_inv (accept_conn s o).
Proof.
  intros [H1 H2 H3 H4 H5 H6 H7].
  assert (s.(rl_conns) !! s.(rl_next_connection_id) = None) as Hn.
  { destruct (rl_conns s !! _) eqn:E; [|done]. apply H1 in E. lia. }
  assert (conns_le s.(rl_conns) (accept_conn s o).(rl_conns)) as Hle.
  { intros i c Hc. exists c. cbn. rewrite lookup_insert_ne by congruence. done. }
  split; cbn [accept_conn rl_conns rl_sessions rl_queues rl_next_connection_id].
  - intros j c [(<- & _)|[_ Hc%H1]]%lookup_insert_Some; lia.
  - done.
  - intros k r q Hq. destruct (H3 k r q Hq) as [Hse (c & Hc & Hr & Hk & Hro)]. split; [done|].
    exists c. rewrite lookup_insert_ne by congruence. done.
  - intros j c [(<- & <-)|[_ Hc]]%lookup_insert_Some Hr; [done|by apply H4].
  - intros j q [(<- & <-)|[Hj Hq]]%lookup_insert_Some.
    + split; [cbn; lia|]. eexists. by rewrite lookup_insert_eq.
    + rewrite lookup_insert_ne by done. by apply H5.
  - intros j c [(<- & <-)|[Hj Hc]]%lookup_insert_Some Hf.
    + rewrite lookup_insert_eq. eauto.
    + rewrite lookup_insert_ne by done. by eapply H6.
  - intros j c [(<- & <-)|[_ Hc]]%lookup_insert_Some; [done|]. apply (sending_ok_le _ _ _ _ Hle); eauto.
Qed.

(** A task enters or leaves its slot. *)
Lemma inv_reslot s ss i o p p' :
  relay_inv s → s.(rl_conns) !! i = Some {| cn_open := o; cn_phase := p |} →
  p ≠ Finished → p' ≠ Authenticated → p' ≠ Finished → sending_ok s.(rl_conns) o p' →
  registered p = negb (registered p') →
  (∀ k ps, ss !! k = Some ps → ∃ r p, slot ps r = Some p) →
  (registered p' = true → slot_of s.(rl_sessions) (conn_key o) o.(ro_role) = None) →
  (∀ k r, slot_of ss k r = if bool_decide (conn_key o = k ∧ o.(ro_role) = r)
     then (if registered p' then Some {| peer_connection_id := i; peer_sender := i |} else None)
     else slot_of s.(rl_sessions) k r) →
  relay_inv (set_conn (set_sessions s ss) i o p').
Proof.
  intros [H1 H2 H3 H4 H5 H6 H7] Hi Hpf Ha Hf Hs Hx Hn Hfree Hss.
  pose proof (conns_le_set _ _ _ _ _ Hi Ha) as Hle.
  split; cbn [set_conn set_sessions rl_conns rl_sessions rl_queues rl_next_connection_id].
  - intros j c [(<- & <-)|[_ Hc]]%lookup_insert_Some; eauto.
  - done.
  - intros k r q. rewrite Hss. case_bool_decide as Hk.
    + destruct (registered p') eqn:Hr; [|done]. intros [= <-]. split; [done|].
      eexists. cbn. rewrite lookup_insert_eq. split; [done|]. naive_solver.
    + intros Hq. destruct (H3 k r q Hq) as [Hse (c & Hc & Hr & Hck & Hro)]. split; [done|].
      exists c. rewrite lookup_insert_ne; [done|]. intros ->. rewrite Hi in Hc.
      injection Hc as <-. by destruct Hk.
  - intros j c [(<- & <-)|[Hj Hc]]%lookup_insert_Some Hr; cbn [cn_open cn_phase] in *.
    + rewrite Hss, bool_decide_eq_true_2 by done. by rewrite Hr.
    + rewrite Hss, bool_decide_eq_false_2; [by apply H4|]. intros [Hk Hro].
      pose proof (H4 _ _ Hc Hr) as Hsl. rewrite <-Hk, <-Hro in Hsl.
      destruct (registered p') eqn:E; [rewrite Hfree in Hsl by done; done|].
      pose proof (H4 _ _ Hi Hx) as Hsl'. cbn in Hsl'. rewrite Hsl' in Hsl. congruence.
  - intros j q Hq. destruct (H5 j q Hq) as [Hl (c & Hc & Hfc)]. split; [done|].
    destruct (decide (i = j)) as [<-|]; [eexists; by rewrite lookup_insert_eq|].
    exists c. by rewrite lookup_insert_ne.
  - intros j c [(<- & <-)|[_ Hc]]%lookup_insert_Some Hr; [by apply (H6 i _ Hi)|by eapply H6].
  - intros j c [(<- & <-)|[_ Hc]]%lookup_insert_Some; apply (sending_ok_le _ _ _ _ Hle); eauto.
Qed.

Lemma inv_set_replays s r : relay_inv s → relay_inv (set_replays s r).
Proof. by intros []. Qed.

Lemma inv_new : relay_inv relay_new.
Proof. split; intros *; unfold slot_of; cbn; rewrite ?lookup_empty; try done. Qed.

Section preservation.
Context `{P : Primitives} `{D : RelayDecoders} (cfg : RelayConfig).

Lemma relay_step_inv s ev s' : relay_inv s → relay_step cfg s ev s' → relay_inv s'.
Proof.
  intros Hs Hst. destruct Hst as
    [c a r Ha Hu|c e r Ha|i o ss Hi Hr|i o e ss Hi Hr|i o f j Hi Hf Hw|i o f e Hi Hf Hw
    |i o j f q Hi Hq Hl|i o j f Hi Hq|j o p f q Hi Hq|i o p Hi|i o Hi|i o Hi].
  - by apply inv_accept, inv_set_replays.
  - by apply inv_set_replays.
  - apply register_ok in Hr as (Hfree & Hss & Hne).
    eapply inv_reslot; try done. by apply Hne, Hs.
  - apply register_err in Hr as ->. by eapply inv_finish in Hi.
  - eapply inv_set_conn; try done. intros j' f' [= <- <-].
    apply forward_sender_ok in Hw as (q & Hq & <-).
    destruct (ri_slot _ Hs _ _ _ Hq) as [-> (c & Hc & Hr & Hk & Hro)].
    exists c. split; [done|]. split; [split; [by rewrite Hk|rewrite Hro; by destruct (ro_role o)]|].
    by destruct (cn_phase c).
  - by eapply inv_set_conn.
  - assert (relay_inv (set_queues s (<[j := q ++ [f]]> s.(rl_queues)))) as Hs'.
    { eapply inv_set_queue; [done..|]. rewrite length_app. cbn. lia. }
    by eapply inv_set_conn in Hs'.
  - by eapply inv_set_conn.
  - eapply inv_set_queue; [done..|]. apply (ri_queue _ Hs) in Hq as [Hl _]. cbn in Hl. lia.
  - by eapply inv_set_conn.
  - pose proof (ri_registered _ Hs _ _ Hi eq_refl) as Hsl. cbn in Hsl.
    apply remove_ok in Hsl as [Hss Hne]. eapply inv_reslot; try done. by apply Hne, Hs.
  - by eapply inv_finish.
Qed.

Lemma steps_inv s tr s' : relay_inv s → steps cfg s tr s' → relay_inv s'.
Proof. intros Hs. induction 1; eauto using relay_step_inv. Qed.

Lemma reachable_inv s : reachable cfg s → relay_inv s.
Proof. intros [tr Htr]. eapply steps_inv; [apply inv_new|done]. Qed.
End preservation.

(** ** What a trace says about the frames *)

Definition delivered_to (j : Z) (ev : Event) : option bytes :=
  match ev with EvDeliver j' f => if bool_decide (j' = j) then Some f else None | _ => None end.
Definition enqueued_to (j : Z) (ev : Event) : option bytes :=
  match ev with EvEnqueue _ j' f => if bool_decide (j' = j) then Some f else None | _ => None end.
Definition enqueued_by (i : Z) (ev : Event) : option bytes :=
  match ev with EvEnqueue i' _ f => if bool_decide (i' = i) then Some f else None | _ => None end.
Definition read_by (i : Z) (ev : Event) : option bytes :=
  match ev with
  | EvRead i' f | EvReadFailed i' f _ => if bool_decide (i' = i) then Some f else None
  | _ => None
  end.

(** The connections an event moves frames of. *)
Definition frame_ids (ev : Event) : list Z :=
  match ev with
  | EvRead i _ | EvReadFailed i _ _ => [i]
  | EvEnqueue i j _ => [i; j]
  | EvDeliver j _ => [j]
  | _ => []
  end.

Section traces.
Context `{P : Primitives} `{D : RelayDecoders} (cfg : RelayConfig).

Lemma frames_in_table s ev s' i :
  relay_inv s → relay_step cfg s ev s' → i ∈ frame_ids ev → is_Some (s.(rl_conns) !! i).
Proof.
  intros Hs Hst Hi. destruct Hst; cbn in Hi;
    repeat (apply elem_of_cons in Hi as [->|Hi]); try by apply elem_of_nil in Hi.
  all: eauto. destruct (ri_queue _ Hs _ _ H0) as [_ (c & Hc & _)]. eauto.
Qed.

Lemma step_conns_le s ev s' :
  relay_inv s → relay_step cfg s ev s' → conns_le s.(rl_conns) s'.(rl_conns).
Proof.
  intros Hs Hst. destruct Hst; cbn; try apply conns_le_refl; try by eapply conns_le_set.
  intros i c' Hc. exists c'. rewrite lookup_insert_ne; [done|]. apply (ri_ids _ Hs) in Hc. lia.
Qed.

Lemma step_next s ev s' :
  relay_step cfg s ev s' → s.(rl_next_connection_id) ≤ s'.(rl_next_connection_id).
Proof. destruct 1; cbn; lia. Qed.

(** No event of a trace is about a connection that is still to come. *)
Lemma steps_fresh tr s i :
  steps cfg relay_new tr s → s.(rl_next_connection_id) ≤ i →
  omap (delivered_to i) tr = [] ∧ omap (enqueued_to i) tr = [] ∧
  omap (enqueued_by i) tr = [] ∧ omap (read_by i) tr = [].
Proof.
  intros Htr Hi. induction Htr as [|tr s ev s' Htr IH Hst]; [done|].
  assert (relay_inv s) as Hs by (apply (reachable_inv cfg); by exists tr).
  pose proof (step_next _ _ _ Hst). destruct IH as (E1 & E2 & E3 & E4); [lia|].
  assert (i ∉ frame_ids ev) as Hn.
  { intros Hin. destruct (frames_in_table _ _ _ _ Hs Hst Hin) as [c Hc].
    apply (ri_ids _ Hs) in Hc. lia. }
  rewrite !omap_app, E1, E2, E3, E4. destruct ev; cbn in *; repeat case_bool_decide; set_solver.
Qed.

(** What was put into a queue is what came out of it and what it still holds. *)
Definition queue_ok (tr : list Event) (s : RelayState) (j : Z) : Prop :=
  match s.(rl_queues) !! j with
  | Some q => omap (enqueued_to j) tr = omap (delivered_to j) tr ++ q
  | None => omap (delivered_to j) tr `prefix_of` omap (enqueued_to j) tr
  end.

Lemma steps_queue tr s j : steps cfg relay_new tr s → queue_ok tr s j.
Proof.
  induction 1 as [|tr s ev s' Htr IH Hst]; [unfold queue_ok; cbn; by rewrite lookup_empty|].
  pose proof (steps_fresh tr s j Htr) as Hfresh. unfold queue_ok in *. rewrite !omap_app.
  destruct Hst as [c a r Ha Hu|c e r Ha|i o ss Hi Hr|i o e ss Hi Hr|i o f j' Hi Hf Hw|i o f e Hi Hf Hw
    |i o j' f q Hi Hq Hl|i o j' f Hi Hq|j' o p f q Hi Hq|i o p Hi|i o Hi|i o Hi];
    cbn [omap list_omap delivered_to enqueued_to rl_queues accept_conn set_conn set_queues
      set_sessions set_replays rl_next_connection_id]; rewrite ?app_nil_r; try exact IH.
  - destruct (decide (s.(rl_next_connection_id) = j)) as [<-|].
    + rewrite lookup_insert_eq. by destruct Hfresh as (-> & -> & _); [lia|].
    + by rewrite lookup_insert_ne.
  - destruct (decide (i = j)) as [<-|]; [rewrite lookup_delete_eq|by rewrite lookup_delete_ne].
    destruct (rl_queues s !! i); [rewrite IH; by eexists|done].
  - case_bool_decide as Hj.
    + subst. rewrite lookup_insert_eq. rewrite Hq in IH. by rewrite IH, ?app_nil_r, app_assoc.
    + by rewrite lookup_insert_ne, ?app_nil_r.
  - case_bool_decide as Hj.
    + subst. rewrite lookup_insert_eq. rewrite Hq in IH. by rewrite IH, ?app_nil_r, <-app_assoc.
    + by rewrite lookup_insert_ne, ?app_nil_r.
  - destruct (decide (i = j)) as [<-|]; [rewrite lookup_delete_eq|by rewrite lookup_delete_ne].
    destruct (rl_queues s !! i); [rewrite IH; by eexists|done].
Qed.

(** What a task read is what it enqueued and the frame it is sending. *)
Definition reader_ok (tr : list Event) (s : RelayState) (i : Z) : Prop :=
  match cn_phase <$> s.(rl_conns) !! i with
  | Some (Active p) => omap (read_by i) tr = omap (enqueued_by i) tr ++ option_list (snd <$> p)
  | Some Authenticated => omap (read_by i) tr = [] ∧ omap (enqueued_by i) tr = []
  | _ => omap (enqueued_by i) tr `prefix_of` omap (read_by i) tr
  end.

Lemma steps_reader tr s i : steps cfg relay_new tr s → reader_ok tr s i.
Proof.
  induction 1 as [|tr s ev s' Htr IH Hst]; [unfold reader_ok; cbn; rewrite lookup_empty; by apply prefix_nil|].
  pose proof (steps_fresh tr s i Htr) as Hfresh. unfold reader_ok in *. rewrite !omap_app.
  destruct Hst as [c a r Ha Hu|c e r Ha|i' o ss Hi Hr|i' o e ss Hi Hr|i' o f j' Hi Hf Hw|i' o f e Hi Hf Hw
    |i' o j' f q Hi Hq Hl|i' o j' f Hi Hq|j' o p f q Hi Hq|i' o p Hi|i' o Hi|i' o Hi];
    cbn [omap list_omap read_by enqueued_by rl_conns accept_conn set_conn set_queues
      set_sessions set_replays rl_next_connection_id]; rewrite ?app_nil_r; try exact IH.
  1: { destruct (decide (s.(rl_next_connection_id) = i)) as [<-|].
       - rewrite lookup_insert_eq. by destruct Hfresh as (_ & _ & -> & ->); [lia|].
       - by rewrite lookup_insert_ne. }
  all: (destruct (decide (i' = i)) as [<-|];
    [rewrite lookup_insert_eq, ?bool_decide_eq_true_2 by done; rewrite Hi in IH
    |rewrite lookup_insert_ne, ?bool_decide_eq_false_2, ?app_nil_r by done; exact IH]);
    cbn in IH |- *.
  - by destruct IH as [-> ->].
  - by destruct IH as [-> ->].
  - by rewrite IH, app_nil_r.
  - rewrite IH, app_nil_r. by eexists.
  - by rewrite IH, app_nil_r.
  - rewrite IH. by eexists.
  - rewrite IH. by eexists.
  - done.
  - done.
Qed.

(** Frames are enqueued only to the other end of the sender's session. *)
Lemma steps_ends tr s i j f :
  steps cfg relay_new tr s → EvEnqueue i j f ∈ tr →
  ∃ ci cj, s.(rl_conns) !! i = Some ci ∧ s.(rl_conns) !! j = Some cj ∧
    opposite_ends ci.(cn_open) cj.(cn_open).
Proof.
  induction 1 as [|tr s ev s' Htr IH Hst]; [by intros ?%elem_of_nil|].
  assert (relay_inv s) as Hs by (apply (reachable_inv cfg); by exists tr).
  pose proof (step_conns_le _ _ _ Hs Hst) as Hle.
  intros [Hin|Hin%list_elem_of_singleton]%elem_of_app.
  - destruct (IH Hin) as (ci & cj & Hi & Hj & Ho).
    destruct (Hle _ _ Hi) as (ci' & Hi' & Ei & _), (Hle _ _ Hj) as (cj' & Hj' & Ej & _).
    exists ci', cj'. by rewrite Ei, Ej.
  - subst ev. inversion Hst as [| | | | | |? o ? ? q Hi Hq Hl| | | | |]; subst.
    destruct (ri_sending _ Hs _ _ Hi _ _ eq_refl) as (c & Hc & Ho & _). cbn in Ho.
    destruct (Hle _ _ Hi) as (ci' & Hi' & Ei & _), (Hle _ _ Hc) as (cj' & Hj' & Ej & _).
    exists ci', cj'. by rewrite Ei, Ej.
Qed.

(** Every task serves an open that passed the checks of [authenticate_open]. *)
Lemma steps_admitted tr s i c :
  steps cfg relay_new tr s → s.(rl_conns) !! i = Some c →
  ∃ call, EvAdmit i call ∈ tr ∧ call.(oc_open) = c.(cn_open) ∧
    open_checks cfg call.(oc_enabled) c.(cn_open) call.(oc_transport) call.(oc_api) call.(oc_now) = Ok tt.
Proof.
  intros Htr. revert i c. induction Htr as [|tr s ev s' Htr IH Hst]; intros i c Hi;
    [cbn in Hi; by rewrite lookup_empty in Hi|].
  assert (∀ i o, cn_open <$> s.(rl_conns) !! i = Some o → ∃ call, EvAdmit i call ∈ tr ++ [ev] ∧
    call.(oc_open) = o ∧
    open_checks cfg call.(oc_enabled) o call.(oc_transport) call.(oc_api) call.(oc_now) = Ok tt) as Hold.
  { intros i' o Ho. destruct (s.(rl_conns) !! i') as [c'|] eqn:E; [|done]. injection Ho as <-.
    destruct (IH i' c' E) as (call & Hin & H). exists call. rewrite elem_of_app. eauto. }
  inversion Hst as [call a r Ha Hu| | | | | | | | | | |]; subst; cbn in Hi;
    try (apply lookup_insert_Some in Hi as [(<- & <-)|[_ Hi]]);
    try (apply Hold; match goal with H : rl_conns s !! _ = Some _ |- _ => by rewrite H end).
  exists call. rewrite elem_of_app, list_elem_of_singleton. split; [by right|]. split; [done|].
  unfold try_open, authenticate_open in Ha. cbn [cn_open]. by destruct (open_checks _ _ _ _ _ _) as [[]|].
Qed.
End traces.

(** ** Progress *)

(** The events that need no outside party: the read loop's [send], the write
    loop, and the end of a task. *)
Definition internal (ev : Event) : bool :=
  match ev with
  | EvEnqueue _ _ _ | EvSendFailed _ _ _ | EvDeliver _ _ | EvRemove _ | EvDrop _ => true
  | _ => false
  end.

(** Nothing is under way: no task is sending or ending, and the queue of every
    connected peer is empty. *)
Definition idle (s : RelayState) (i : Z) (c : Conn) : bool :=
  match c.(cn_phase) with
  | Active None => s.(rl_queues) !! i =! Some []
  | Active (Some _) | Ending | Removed => false
  | Authenticated | Finished => true
  end.

Definition quiescent (s : RelayState) : Prop :=
  map_Forall (λ i c, idle s i c = true) s.(rl_conns).

(** The work left: what the phases still have to do, and the queued frames. *)
Definition phase_work (c : Conn) : nat :=
  match c.(cn_phase) with
  | Active (Some _) => 3 | Ending => 2 | Removed => 1 | _ => 0
  end.

Definition total {A} (f : A → nat) (m : gmap Z A) : nat := map_fold (λ _ x n, f x + n)%nat 0%nat m.

Definition work (s : RelayState) : nat :=
  (total phase_work s.(rl_conns) + total length s.(rl_queues))%nat.

Lemma total_fresh {A} (f : A → nat) m i x :
  m !! i = None → total f (<[i := x]> m) = (f x + total f m)%nat.
Proof.
  intros Hi. unfold total. rewrite map_fold_insert_L; [done|intros; lia|done].
Qed.

Lemma total_delete {A} (f : A → nat) m i x :
  m !! i = Some x → total f m = (f x + total f (delete i m))%nat.
Proof.
  intros Hi. rewrite <-(insert_delete_id m i x Hi) at 1. apply total_fresh, lookup_delete_eq.
Qed.

Lemma total_update {A} (f : A → nat) m i x y :
  m !! i = Some x → (total f (<[i := y]> m) + f x = total f m + f y)%nat.
Proof.
  intros Hi. rewrite <-insert_delete_eq, (total_fresh f _ i y) by apply lookup_delete_eq.
  rewrite (total_delete f m i x Hi). lia.
Qed.

Section progress.
Context `{P : Primitives} `{D : RelayDecoders} (cfg : RelayConfig).

Lemma internal_decreases s ev s' :
  relay_step cfg s ev s' → internal ev = true → (work s' < work s)%nat.
Proof.
  intros Hst. destruct Hst as
    [c a r Ha Hu|c e r Ha|i o ss Hi Hr|i o e ss Hi Hr|i o f j Hi Hf Hw|i o f e Hi Hf Hw
    |i o j f q Hi Hq Hl|i o j f Hi Hq|j o p f q Hi Hq|i o p Hi|i o Hi|i o Hi]; intros He; try done;
    unfold work; cbn [set_conn set_queues set_sessions rl_conns rl_queues].
  - pose proof (total_update phase_work _ _ _ {| cn_open := o; cn_phase := Active None |} Hi).
    pose proof (total_update length _ _ _ (q ++ [f]) Hq) as Hlen. rewrite length_app in Hlen. cbn in *. lia.
  - pose proof (total_update phase_work _ _ _ {| cn_open := o; cn_phase := Ending |} Hi). cbn in *. lia.
  - pose proof (total_update length _ _ _ q Hq). cbn in *. lia.
  - pose proof (total_update phase_work _ _ _ {| cn_open := o; cn_phase := Removed |} Hi). cbn in *. lia.
  - pose proof (total_update phase_work _ _ _ {| cn_open := o; cn_phase := Finished |} Hi).
    assert (total length (delete i s.(rl_queues)) ≤ total length s.(rl_queues))%nat.
    { destruct (s.(rl_queues) !! i) as [q|] eqn:E; [|by rewrite delete_id].
      rewrite (total_delete length _ _ _ E). lia. }
    cbn in *. lia.
Qed.

(** As long as something is under way, an internal step is possible. *)
Lemma internal_enabled s :
  relay_inv s → quiescent s ∨ ∃ ev s', relay_step cfg s ev s' ∧ internal ev = true.
Proof.
  intros Hs. destruct (decide (quiescent s)) as [|Hn]; [by left|]. right.
  apply map_not_Forall in Hn as (i & [o p] & Hi & Hn); [|intros; apply _].
  assert (∀ j c, s.(rl_conns) !! j = Some c → c.(cn_phase) = Ending ∨ c.(cn_phase) = Removed →
    ∃ ev s', relay_step cfg s ev s' ∧ internal ev = true) as Hend.
  { intros j [oj pj] Hj [Hp|Hp]; cbn in Hp; subst pj; do 2 eexists.
    - split; [by eapply step_remove|done].
    - split; [by eapply step_drop|done]. }
  assert (∀ j c p, s.(rl_conns) !! j = Some c → c.(cn_phase) = Active p →
    ∀ f q, s.(rl_queues) !! j = Some (f :: q) → ∃ ev s', relay_step cfg s ev s' ∧ internal ev = true) as Hdel.
  { intros j [oj pj] p' Hj Hp f q Hq. cbn in Hp; subst pj. do 2 eexists.
    split; [by eapply step_deliver|reflexivity]. }
  destruct p as [|[[j f]|]| | |]; cbn in Hn; try done; try (by eapply (Hend i); [exact Hi|auto]).
  - destruct (ri_sending _ Hs _ _ Hi _ _ eq_refl) as ([oj pj] & Hj & _ & Hna). cbn in Hna.
    destruct (s.(rl_queues) !! j) as [q|] eqn:Hq;
      [|do 2 eexists; split; [by eapply step_send_failed|reflexivity]].
    destruct (decide (length q < FRAME_QUEUE_CAPACITY)%nat) as [Hl|Hl];
      [do 2 eexists; split; [by eapply step_enqueue|reflexivity]|].
    destruct q as [|f' q]; [cbn in Hl; unfold FRAME_QUEUE_CAPACITY in Hl; lia|].
    destruct (ri_queue _ Hs _ _ Hq) as [_ (c & Hc & Hf)]. rewrite Hj in Hc. injection Hc as <-.
    destruct pj; [done|by eapply (Hdel j)|by eapply (Hend j); [exact Hj|auto]..|done].
  - destruct (ri_open_queue _ Hs _ _ Hi) as [q Hq]; [done|]. destruct q as [|f q].
    + by rewrite Hq, bool_decide_eq_true_2 in Hn.
    + by eapply (Hdel i).
Qed.

Lemma steps_app s tr s' tr' s'' :
  steps cfg s tr s' → steps cfg s' tr' s'' → steps cfg s (tr ++ tr') s''.
Proof.
  intros H. induction 1 as [|tr' s1 ev s2 _ IH Hst]; [by rewrite app_nil_r|].
  rewrite app_assoc. by eapply steps_snoc.
Qed.

Lemma drains n s :
  (work s ≤ n)%nat → relay_inv s →
  ∃ tr s', steps cfg s tr s' ∧ Forall (λ ev, internal ev = true) tr ∧ quiescent s'.
Proof.
  revert s. induction n as [|n IH]; intros s Hn Hs;
    (destruct (internal_enabled s Hs) as [Hq|(ev & s1 & Hst & Hi)]; [exists [], s; by repeat constructor|]);
    pose proof (internal_decreases s ev s1 Hst Hi); [lia|].
  destruct (IH s1) as (tr & s' & Htr & Hf & Hq); [lia|by eapply relay_step_inv|].
  exists ([ev] ++ tr), s'. split; [|split; [by constructor|done]].
  eapply steps_app; [|done]. by apply (steps_snoc _ _ [] s); [constructor|].
Qed.

Lemma internal_bounded s tr s' :
  steps cfg s tr s' → Forall (λ ev, internal ev = true) tr → (length tr + work s' ≤ work s)%nat.
Proof.
  induction 1 as [|tr s1 ev s2 _ IH Hst]; intros Hf; [done|].
  apply Forall_app in Hf as [Hf Hev]. rewrite Forall_singleton in Hev. rewrite length_app.
  pose proof (internal_decreases _ _ _ Hst Hev). specialize (IH Hf). cbn. lia.
Qed.
End progress.

(** ** Theorems *)

(** C22: The relay forwards frames only between the two ends of one session, in
    order, without inventing or repeating any. For every interleaving of
    connections: what a peer is handed is a prefix of what was put into its
    queue; what a task put into queues is a prefix of what it read; whenever a
    frame moves from one connection to another, both opens passed every
    admission check and name the same session and transport and opposite roles;
    and at most one connection holds a role of a session at a time. *)
Theorem relay_forwards_between_ends `{P : Primitives} `{D : RelayDecoders} cfg tr s :
  steps cfg relay_new tr s →
  (∀ j, omap (delivered_to j) tr `prefix_of` omap (enqueued_to j) tr) ∧
  (∀ i, omap (enqueued_by i) tr `prefix_of` omap (read_by i) tr) ∧
  (∀ i j f, EvEnqueue i j f ∈ tr → ∃ ci cj,
     EvAdmit i ci ∈ tr ∧ EvAdmit j cj ∈ tr ∧ opposite_ends ci.(oc_open) cj.(oc_open) ∧
     ∀ c, c = ci ∨ c = cj →
       open_checks cfg c.(oc_enabled) c.(oc_open) c.(oc_transport) c.(oc_api) c.(oc_now) = Ok tt) ∧
  (∀ i j ci cj, s.(rl_conns) !! i = Some ci → s.(rl_conns) !! j = Some cj →
     registered ci.(cn_phase) = true → registered cj.(cn_phase) = true →
     conn_key ci.(cn_open) = conn_key cj.(cn_open) →
     ci.(cn_open).(ro_role) = cj.(cn_open).(ro_role) → i = j).
Proof.
  intros Htr. assert (relay_inv s) as Hs by (apply (reachable_inv cfg); by exists tr). split_and!.
  - intros j. pose proof (steps_queue cfg tr s j Htr) as Hq. unfold queue_ok in Hq.
    destruct (_ !! j); [rewrite Hq; by eexists|done].
  - intros i. pose proof (steps_reader cfg tr s i Htr) as Hr. unfold reader_ok in Hr.
    destruct (cn_phase <$> _) as [[]|]; try done; [by destruct Hr as [_ ->]; apply prefix_nil|].
    rewrite Hr. by eexists.
  - intros i j f Hin. destruct (steps_ends cfg tr s i j f Htr Hin) as (ci & cj & Hi & Hj & Ho).
    destruct (steps_admitted cfg tr s i ci Htr Hi) as (a & Ha & Ea & Oa).
    destruct (steps_admitted cfg tr s j cj Htr Hj) as (b & Hb & Eb & Ob).
    exists a, b. rewrite Ea, Eb. split_and!; [done..|].
    intros c [->| ->]; [by rewrite Ea|by rewrite Eb].
  - intros i j ci cj Hi Hj Hri Hrj Hk Hr.
    pose proof (ri_registered _ Hs _ _ Hi Hri) as Si. pose proof (ri_registered _ Hs _ _ Hj Hrj) as Sj.
    rewrite Hk, Hr in Si. congruence.
Qed.


(** A frame that is written is read back unchanged, followed by the rest of the
    stream; frames of no byte or of more than the bound are refused by their
    prefix alone. *)
Theorem relay_frame_roundtrip maximum frame rest bs :
  write_frame frame = Ok bs → maximum < 2 ^ 32 →
  read_frame maximum (bs ++ rest) =
  if (0 <? len frame) && (len frame <=? maximum) then Ok (Some (frame, rest)) else Err FrameOutOfBounds.
Proof.
  unfold write_frame, u32_try_from. intros H Hm.
  destruct (Z.ltb_spec (len frame) (2 ^ 32)) as [Hl|]; [|done]. cbn [ok_or mbind result_bind] in H.
  assert (bs = be_bytes 4 (len frame) ++ frame) as -> by congruence. clear H.
  pose proof (len_nonneg frame). unfold read_frame. rewrite <-!app_assoc.
  destruct (Nat.ltb_spec (length (be_bytes 4 (len frame) ++ frame ++ rest)) 4) as [Hs|_];
    [rewrite length_app, be_bytes_length in Hs; lia|].
  rewrite take_app_length', drop_app_length' by (by rewrite be_bytes_length).
  rewrite be_val_bytes_small by (split; [done|exact Hl]).
  destruct (Z.eqb_spec (len frame) 0) as [H0|H0], (Z.ltb_spec 0 (len frame)); try lia; [done|].
  destruct (Z.ltb_spec maximum (len frame)), (Z.leb_spec (len frame) maximum); try lia; [done|].
  cbn [negb orb andb ensure mbind result_bind]. rewrite len_app.
  destruct (Z.leb_spec (len frame) (len frame + len rest)); [|pose proof (len_nonneg rest); lia].
  cbn [ensure mbind result_bind]. unfold len. rewrite Nat2Z.id.
  by rewrite take_app_length, drop_app_length.
Qed.

(** The two ends of the example session connect, and one frame travels. *)
Definition example_trace : list Event := [
  EvAdmit 1 (example_call Controller 2000); EvAdmit 2 (example_call Controlled 2500);
  EvRegister 1; EvRegister 2; EvRead 1 (str "frame"); EvEnqueue 1 2 (str "frame");
  EvDeliver 2 (str "frame")].

Lemma example_steps : ∃ s, steps (P:=toy) (D:=example_decoders) example_relay_config relay_new example_trace s.
Proof.
  assert (bool_decide (is_Some (exec_all (P:=toy) (D:=example_decoders) example_relay_config
    relay_new example_trace)) = true) as H by (vm_compute; reflexivity).
  apply bool_decide_eq_true_1 in H as [s Hs]. exists s.
  change example_trace with ([] ++ example_trace). by eapply exec_all_steps; [constructor|].
Qed.

Lemma relay_forwards_between_ends_witness :
  ∃ ci cj : open_call, EvAdmit 1 ci ∈ example_trace ∧ EvAdmit 2 cj ∈ example_trace ∧
    opposite_ends ci.(oc_open) cj.(oc_open).
Proof.
  destruct example_steps as [s Hs].
  destruct (@relay_forwards_between_ends toy example_decoders example_relay_config example_trace s Hs)
    as (_ & _ & H & _).
  destruct (H 1 2 (str "frame")) as (ci & cj & H1 & H2 & H3 & _).
  - do 5 right. left.
  - exists ci, cj. exact (conj H1 (conj H2 H3)).
Defined.


Lemma relay_frame_roundtrip_witness :
  ∃ bs, write_frame (str "frame") = Ok bs ∧
        read_frame MAX_FRAME_BYTES (bs ++ [x01]) = Ok (Some (str "frame", [x01])).
Proof.
  destruct (is_ok_ex (write_frame (str "frame"))) as [bs E]; [vm_compute; reflexivity|].
  exists bs. split; [exact E|].
  rewrite (relay_frame_roundtrip MAX_FRAME_BYTES (str "frame") [x01] bs E); [|vm_compute; reflexivity].
  vm_compute. reflexivity.
Defined.
