(* ===== verification/Net.v ===== *)
(** * Socket addresses of the Rust standard library

    The transport code parses and prints [std::net::SocketAddr] when it
    validates candidate endpoints. This file models those two functions: the
    parser of [core::net::parser] as a state-passing parser over bytes (a parser
    that fails leaves its input untouched, which is [read_atomically]), and the
    [Display] implementations. An IPv4 address is its [u32], an IPv6 address its
    [u128]; [flowinfo] is always 0 for an address that was parsed. *)

From S2P Require Import Prelude Text.

Inductive IpAddr := IpV4 (a : Z) | IpV6 (a : Z).
#[global] Instance IpAddr_eq_dec : EqDecision IpAddr.
Proof. solve_decision. Defined.

Inductive SocketAddr :=
| SockV4 (ip : Z) (port : Z)
| SockV6 (ip : Z) (port : Z) (scope_id : Z).
#[global] Instance SocketAddr_eq_dec : EqDecision SocketAddr.
Proof. solve_decision. Defined.

Definition sock_ip (s : SocketAddr) : IpAddr :=
  match s with SockV4 ip _ => IpV4 ip | SockV6 ip _ _ => IpV6 ip end.
Definition sock_port (s : SocketAddr) : Z :=
  match s with SockV4 _ p => p | SockV6 _ p _ => p end.

(** [Ipv4Addr::octets] and [Ipv6Addr::segments], from the most significant. *)
Definition octet (ip i : Z) : Z := Z.land (Z.shiftr ip (8 * (3 - i))) 255.
Definition segment (ip i : Z) : Z := Z.land (Z.shiftr ip (16 * (7 - i))) 65535.
Definition from_octets (a b c d : Z) : Z := ((a * 256 + b) * 256 + c) * 256 + d.
Definition from_segments (l : list Z) : Z := fold_left (λ acc s, acc * 65536 + s) l 0.

(** ** Parsing *)

Definition parser (A : Type) : Type := bytes → option (A * bytes).

#[global] Instance parser_ret : MRet parser := λ A a s, Some (a, s).
#[global] Instance parser_bind : MBind parser := λ A B f p s,
  match p s with Some (a, s) => f a s | None => None end.

Definition pfail {A} : parser A := λ _, None.

Definition read_given_char (c : byte) : parser unit := λ s,
  match s with x :: s => if x =! c then Some (tt, s) else None | [] => None end.

(** [char::to_digit(radix)] for the radices 10 and 16. *)
Definition to_digit (radix : Z) (b : byte) : option Z :=
  match hex_value b with
  | Some d => if d <? radix then Some d else None
  | None => None
  end.

(** The digits at the front of the input, and what follows them. *)
Fixpoint span_digits (radix : Z) (s : bytes) : list Z * bytes :=
  match s with
  | [] => ([], [])
  | x :: s' =>
      match to_digit radix x with
      | Some d => let '(ds, r) := span_digits radix s' in (d :: ds, r)
      | None => ([], s)
      end
  end.

Definition digits_val (radix : Z) (ds : list Z) : Z := fold_left (λ acc d, acc * radix + d) ds 0.

(** [read_number]: with [max_digits], more digits fail; the value must fit the
    [width]-bit result (an unsigned value that fits at the end never overflowed
    on the way). *)
Definition read_number (radix width : Z) (max_digits : option nat) (allow_zero_prefix : bool)
    : parser Z := λ s,
  let '(ds, rest) := span_digits radix s in
  if match max_digits with Some m => (m <? length ds)%nat | None => false end then None
  else match ds with
       | [] => None
       | d :: ds' =>
           if negb allow_zero_prefix && (d =? 0) && negb (match ds' with [] => true | _ => false end)
           then None
           else let v := digits_val radix ds in
                if v <? 2 ^ width then Some (v, rest) else None
       end.

Definition read_octet : parser Z := read_number 10 8 (Some 3%nat) false.

Definition read_ipv4_addr : parser Z :=
  a ← read_octet;
  _ ← read_given_char x2e;
  b ← read_octet;
  _ ← read_given_char x2e;
  c ← read_octet;
  _ ← read_given_char x2e;
  d ← read_octet;
  mret (from_octets a b c d).

Definition read_separator {A} (sep : byte) (index : nat) (inner : parser A) : parser A :=
  match index with O => inner | S _ => _ ← read_given_char sep; inner end.

(** [read_groups] with [i] groups read and [room] left: the groups that follow,
    whether they end with an embedded IPv4 address, and the rest. *)
Fixpoint read_groups_from (i room : nat) (s : bytes) : list Z * bool * bytes :=
  match room with
  | O => ([], false, s)
  | S room' =>
      let v4 := match room' with
                | O => None
                | S _ => read_separator x3a i read_ipv4_addr s
                end in
      match v4 with
      | Some (ip, s) =>
          ([Z.shiftr ip 16; Z.land ip 65535], true, s)
      | None =>
          match read_separator x3a i (read_number 16 16 (Some 4%nat) true) s with
          | Some (g, s) =>
              let '(gs, v4, s) := read_groups_from (S i) room' s in (g :: gs, v4, s)
          | None => ([], false, s)
          end
      end
  end.

Definition read_groups (limit : nat) (s : bytes) : list Z * bool * bytes := read_groups_from 0 limit s.

(** The groups after a double colon. *)
Definition read_ipv6_tail (head : list Z) : parser Z := λ s,
  let '(tail, _, s) := read_groups (8 - (length head + 1)) s in
  Some (from_segments (head ++ repeat 0 (8 - length head - length tail) ++ tail), s).

Definition read_double_colon : parser unit :=
  _ ← read_given_char x3a; read_given_char x3a.

Definition read_ipv6_addr : parser Z := λ s,
  let '(head, head_ipv4, s) := read_groups 8 s in
  if (length head =? 8)%nat then Some (from_segments head, s)
  else if head_ipv4 then None
  else match read_double_colon s with
       | Some (_, s) => read_ipv6_tail head s
       | None => None
       end.

Definition read_port : parser Z := _ ← read_given_char x3a; read_number 10 16 None true.

Definition read_scope_id : parser Z := _ ← read_given_char x25; read_number 10 32 None true.

Definition read_socket_addr_v4 : parser SocketAddr :=
  ip ← read_ipv4_addr; port ← read_port; mret (SockV4 ip port).

Definition opt_scope_id : parser Z := λ s,
  match read_scope_id s with Some r => Some r | None => Some (0, s) end.

Definition read_socket_addr_v6 : parser SocketAddr :=
  _ ← read_given_char x5b;
  ip ← read_ipv6_addr;
  scope_id ← opt_scope_id;
  _ ← read_given_char x5d;
  port ← read_port;
  mret (SockV6 ip port scope_id).

(** [str::parse::<SocketAddr>]: the whole input must be consumed. *)
Definition parse_socket_addr (s : rstr) : option SocketAddr :=
  match (match read_socket_addr_v4 s with Some r => Some r | None => read_socket_addr_v6 s end) with
  | Some (a, []) => Some a
  | _ => None
  end.

(** ** Printing *)

(** The digits of a number below [radix ^ fuel], most significant first. *)
Fixpoint digits (fuel : nat) (radix n : Z) : list Z :=
  match fuel with
  | O => []
  | S fuel => if n <? radix then [n] else digits fuel radix (n / radix) ++ [n mod radix]
  end.

(** [{}] and [{:x}] of an unsigned integer of at most 32 bits. *)
Definition show_dec (n : Z) : rstr := hex_digit <$> digits 10 10 n.
Definition show_hex (n : Z) : rstr := hex_digit <$> digits 8 16 n.

Definition show_ipv4 (ip : Z) : rstr :=
  show_dec (octet ip 0) ++ [x2e] ++ show_dec (octet ip 1) ++ [x2e] ++
  show_dec (octet ip 2) ++ [x2e] ++ show_dec (octet ip 3).

Definition segments (ip : Z) : list Z := segment ip <$> [0; 1; 2; 3; 4; 5; 6; 7].

(** The first longest run of zero segments, as (start, length). *)
Fixpoint longest_zeros (i : nat) (cur best : nat * nat) (l : list Z) : nat * nat :=
  match l with
  | [] => best
  | s :: l =>
      let cur := if s =? 0 then (if (cur.2 =? 0)%nat then (i, 1%nat) else (cur.1, S cur.2))
                 else (0%nat, 0%nat) in
      let best := if (best.2 <? cur.2)%nat then cur else best in
      longest_zeros (S i) cur best l
  end.

Definition fmt_subslice (l : list Z) : rstr :=
  match l with
  | [] => []
  | s :: l => show_hex s ++ flat_map (λ s, x3a :: show_hex s) l
  end.

Definition show_ipv6 (ip : Z) : rstr :=
  if Z.shiftr ip 32 =? 65535 then str "::ffff:" ++ show_ipv4 (Z.land ip (2 ^ 32 - 1))
  else
    let l := segments ip in
    let '(start, n) := longest_zeros 0 (0%nat, 0%nat) (0%nat, 0%nat) l in
    if (1 <? n)%nat then fmt_subslice (take start l) ++ str "::" ++ fmt_subslice (drop (start + n) l)
    else fmt_subslice l.

(** [SocketAddr::to_string]. *)
Definition socket_to_string (a : SocketAddr) : rstr :=
  match a with
  | SockV4 ip port => show_ipv4 ip ++ [x3a] ++ show_dec port
  | SockV6 ip port scope =>
      if scope =? 0 then [x5b] ++ show_ipv6 ip ++ str "]:" ++ show_dec port
      else [x5b] ++ show_ipv6 ip ++ [x25] ++ show_dec scope ++ str "]:" ++ show_dec port
  end.

Example parse_examples :
  parse_socket_addr (str "192.168.1.20:50000") = Some (SockV4 0xC0A80114 50000) ∧
  parse_socket_addr (str "192.168.01.20:50000") = None ∧
  parse_socket_addr (str "192.168.1.20") = None ∧
  parse_socket_addr (str "[fd00::1]:50000") = Some (SockV6 0xfd000000000000000000000000000001 50000 0) ∧
  parse_socket_addr (str "[::ffff:1.2.3.4%7]:080") = Some (SockV6 0xffff01020304 80 7) ∧
  parse_socket_addr (str "[1:2:3:4:5:6:7:8]:65536") = None ∧
  parse_socket_addr (str "[1:2:3:4:5:6:1.2.3.4]:1") = Some (SockV6 0x00010002000300040005000601020304 1 0) ∧
  parse_socket_addr (str "[1::2::3]:1") = None.
Proof. vm_compute. done. Qed.

Example show_examples :
  socket_to_string (SockV4 0xC0A80114 50000) = str "192.168.1.20:50000" ∧
  socket_to_string (SockV6 0xfd000000000000000000000000000001 50000 0) = str "[fd00::1]:50000" ∧
  socket_to_string (SockV6 0 80 7) = str "[::%7]:80" ∧
  socket_to_string (SockV6 0x00010000000200000000000300000000 80 0) = str "[1:0:2::3:0:0]:80" ∧
  socket_to_string (SockV6 0xffff01020304 1 0) = str "[::ffff:1.2.3.4]:1".
Proof. vm_compute. done. Qed.

(** ** Printed IPv4 addresses parse back *)

Definition stops (radix : Z) (s : bytes) : Prop :=
  match s with [] => True | x :: _ => to_digit radix x = None end.

Lemma to_digit_hex_digit radix d :
  0 ≤ d < radix → radix ≤ 16 → to_digit radix (hex_digit d) = Some d.
Proof.
  intros Hd Hr.
  assert (∀ n, (n < 16)%nat → hex_value (hex_digit (Z.of_nat n)) = Some (Z.of_nat n)) as H.
  { intros n Hn. do 16 (destruct n as [|n]; [vm_compute; reflexivity|]). lia. }
  unfold to_digit. rewrite <-(Z2Nat.id d) by lia. rewrite H by lia.
  rewrite Z2Nat.id by lia. destruct (Z.ltb_spec d radix); [done|lia].
Qed.

Lemma span_digits_show radix ds rest :
  radix ≤ 16 → Forall (λ d, 0 ≤ d < radix) ds → stops radix rest →
  span_digits radix ((hex_digit <$> ds) ++ rest) = (ds, rest).
Proof.
  intros Hr Hd Hs. induction Hd as [|d ds Hd _ IH]; cbn.
  - destruct rest as [|x rest]; [done|]. cbn in *. by rewrite Hs.
  - by rewrite to_digit_hex_digit, IH.
Qed.

Lemma digits_val_snoc radix ds d : digits_val radix (ds ++ [d]) = digits_val radix ds * radix + d.
Proof. unfold digits_val. by rewrite fold_left_app. Qed.

Lemma digits_spec fuel radix n :
  1 < radix → 0 ≤ n < radix ^ Z.of_nat fuel → (0 < fuel)%nat →
  digits_val radix (digits fuel radix n) = n ∧
  Forall (λ d, 0 ≤ d < radix) (digits fuel radix n) ∧
  (∃ d ds, digits fuel radix n = d :: ds ∧ (ds = [] ∨ d ≠ 0)).
Proof.
  intros Hr. revert n. induction fuel as [|fuel IH]; intros n Hn Hf; [lia|]. cbn [digits].
  destruct (Z.ltb_spec n radix) as [Hl|Hl].
  - split; [cbn; lia|]. split; [apply Forall_singleton; lia|]. eauto.
  - rewrite Nat2Z.inj_succ, Z.pow_succ_r in Hn by lia.
    pose proof (Z.mod_pos_bound n radix ltac:(lia)) as Hm.
    assert (0 < n / radix) by (apply Z.div_str_pos; lia).
    assert (0 < fuel)%nat. { destruct fuel; [cbn in Hn; lia|lia]. }
    destruct (IH (n / radix)) as (Hv & Ha & d & ds & E & Hz);
      [split; [lia|apply Z.div_lt_upper_bound; lia]|done|].
    split; [|split].
    + rewrite digits_val_snoc, Hv. pose proof (Z.div_mod n radix ltac:(lia)). lia.
    + apply Forall_app. split; [done|]. by apply Forall_singleton.
    + rewrite E in Hv |- *. exists d, (ds ++ [n mod radix]). split; [done|]. right.
      destruct Hz as [->|Hz]; [|done]. cbn in Hv. lia.
Qed.

Lemma digits_length fuel radix n k :
  1 < radix → 0 ≤ n < radix ^ Z.of_nat k → (0 < k)%nat → (length (digits fuel radix n) ≤ k)%nat.
Proof.
  intros Hr. revert n k. induction fuel as [|fuel IH]; intros n k Hn Hk; cbn; [lia|].
  destruct (Z.ltb_spec n radix) as [Hl|Hl]; cbn; [lia|].
  destruct k as [|k]; [lia|]. rewrite Nat2Z.inj_succ, Z.pow_succ_r in Hn by lia.
  destruct k as [|k]; [cbn in Hn; lia|]. rewrite length_app. cbn.
  specialize (IH (n / radix) (S k)). assert (0 ≤ n / radix) by (apply Z.div_pos; lia).
  assert (n / radix < radix ^ Z.of_nat (S k)) by (apply Z.div_lt_upper_bound; lia). lia.
Qed.

Lemma read_number_show width max zero n rest :
  0 ≤ n < 2 ^ width → n < 10 ^ 10 →
  match max with Some m => (0 < m)%nat ∧ n < 10 ^ Z.of_nat m | None => True end →
  stops 10 rest →
  read_number 10 width max zero (show_dec n ++ rest) = Some (n, rest).
Proof.
  intros Hn Hb Hm Hs. unfold read_number, show_dec.
  destruct (digits_spec 10 10 n) as (Hv & Ha & d & ds & E & Hz); [lia|split; [lia|done]|lia|].
  rewrite span_digits_show by done.
  assert (match max with Some m => (m <? length (digits 10 10 n))%nat | None => false end = false) as ->.
  { destruct max as [m|]; [|done]. apply Nat.ltb_ge, digits_length; [lia|lia|tauto]. }
  rewrite E in Hv |- *.
  assert (negb zero && (d =? 0) && negb (match ds with [] => true | _ => false end) = false) as ->.
  { destruct zero, ds, (Z.eqb_spec d 0); try done. by destruct Hz. }
  rewrite Hv. destruct (Z.ltb_spec n (2 ^ width)); [done|lia].
Qed.

Lemma octet_range ip i : 0 ≤ octet ip i < 256.
Proof.
  unfold octet. change 255 with (Z.ones 8). rewrite Z.land_ones by lia.
  apply Z.mod_pos_bound. lia.
Qed.

Lemma from_octets_octet ip :
  in_u32 ip → from_octets (octet ip 0) (octet ip 1) (octet ip 2) (octet ip 3) = ip.
Proof.
  intros Hip. unfold octet, from_octets. change 255 with (Z.ones 8).
  rewrite !Z.land_ones, !Z.shiftr_div_pow2 by lia.
  change (2 ^ (8 * (3 - 0))) with (256 * 256 * 256). change (2 ^ (8 * (3 - 1))) with (256 * 256).
  change (2 ^ (8 * (3 - 2))) with 256. change (2 ^ (8 * (3 - 3))) with 1.
  change (2 ^ 8) with 256. rewrite Z.div_1_r.
  unfold in_u in Hip. change (2 ^ 32) with (256 * 256 * 256 * 256) in Hip.
  rewrite <-!Z.div_div by lia.
  pose proof (Z.div_mod ip 256). pose proof (Z.div_mod (ip / 256) 256).
  pose proof (Z.div_mod (ip / 256 / 256) 256).
  rewrite (Z.mod_small (ip / 256 / 256 / 256)); [lia|].
  split; [repeat apply Z.div_pos; lia|]. repeat apply Z.div_lt_upper_bound; lia.
Qed.

Lemma read_octet_show n rest :
  0 ≤ n < 256 → stops 10 rest → read_octet (show_dec n ++ rest) = Some (n, rest).
Proof.
  intros Hn Hs. apply read_number_show; [done|lia| |done]. cbn. lia.
Qed.

Lemma parser_step {A B} (p : parser A) (f : A → parser B) s a s' :
  p s = Some (a, s') → (p ≫= f) s = f a s'.
Proof. unfold mbind, parser_bind. by intros ->. Qed.

Lemma read_char_step c s : read_given_char c (c :: s) = Some (tt, s).
Proof. cbn. by rewrite bool_decide_eq_true_2. Qed.

Lemma read_ipv4_show ip rest :
  in_u32 ip → stops 10 rest → read_ipv4_addr (show_ipv4 ip ++ rest) = Some (ip, rest).
Proof.
  intros Hip Hs. unfold read_ipv4_addr, show_ipv4. rewrite <-!app_assoc. cbn [app].
  do 3 (erewrite parser_step; [|apply read_octet_show; [apply octet_range|done]];
        erewrite parser_step; [|apply read_char_step]).
  erewrite parser_step; [|apply read_octet_show; [apply octet_range|done]].
  unfold mret, parser_ret. by rewrite from_octets_octet.
Qed.

(** The text of an IPv4 socket address parses back to it. *)
Lemma parse_show_v4 ip port :
  in_u32 ip → in_u16 port → parse_socket_addr (socket_to_string (SockV4 ip port)) = Some (SockV4 ip port).
Proof.
  intros Hip Hp. unfold parse_socket_addr, read_socket_addr_v4. cbn [socket_to_string].
  erewrite parser_step; [|by apply read_ipv4_show].
  unfold read_port. cbn [app].
  erewrite parser_step.
  2:{ erewrite parser_step; [|apply read_char_step].
      rewrite <-(app_nil_r (show_dec port)).
      apply read_number_show; [done|unfold in_u in Hp; lia|done|done]. }
  done.
Qed.
