(* ===== verification/Candidates.v ===== *)
(** * Observe tokens, candidate tokens and LAN candidates

    Models crates/remote-transport/src/candidates.rs with the token structures
    of crates/remote-protocol/src/candidates.rs: observe authorizations and
    results, ephemeral candidate authorizations, the guard that admits LAN
    candidates, the check of UDP candidates against an observe result, and the
    address rules for LAN endpoints. [EphemeralToken] is the byte string it
    wraps; its redacting [Debug] and zeroing [Drop] are not observable. *)

From S2P Require Import Prelude Canonical Security Primitives KeySession Binding Net.

Definition LAN_CANDIDATE_MAX_PER_DEVICE_SESSION : nat := 8.
Definition LAN_INTERFACE_CLAIM_WINDOW_MILLIS : Z := 30000.
Definition LAN_EPHEMERAL_PORT_MIN : Z := 49152.

Record ObserveTokenIssued := {
  ot_session_id : Z;
  ot_device_id : rstr;
  ot_role : SessionRole;
  ot_local_socket_nonce : bytes;
  ot_observe_token : bytes;
  ot_binding_hash : bytes;
  ot_expires_at : Z }.

Record CandidateTokenRequest := {
  tq_session_id : Z;
  tq_device_id : rstr;
  tq_role : SessionRole;
  tq_candidate_id : Z;
  tq_kind : TransportPath;
  tq_endpoint : rstr;
  tq_source : CandidateSource;
  tq_relay_node_id : option rstr;
  tq_observe_result_id : option rstr;
  tq_observe_result_binding_hash : option bytes;
  tq_local_interface_claim_hash : option bytes;
  tq_local_interface_signature : option bytes;
  tq_interface_name_hash : option bytes;
  tq_interface_index_hash : option bytes;
  tq_local_socket_nonce : option bytes;
  tq_timestamp : option Z;
  tq_requested_ttl_millis : Z }.

Record CandidateTokenIssued := {
  ci_session_id : Z;
  ci_device_id : rstr;
  ci_role : SessionRole;
  ci_candidate_id : Z;
  ci_candidate_token : bytes;
  ci_binding_hash : bytes;
  ci_expires_at : Z }.

Record ObserveAuthorization := {
  oa_session_id : Z;
  oa_device_id : rstr;
  oa_role : SessionRole;
  oa_local_socket_nonce : bytes;
  oa_token : bytes;
  oa_binding_hash : bytes;
  oa_expires_at : Z }.

Record EphemeralCandidateAuthorization := {
  ea_session_id : Z;
  ea_device_id : rstr;
  ea_role : SessionRole;
  ea_candidate_id : Z;
  ea_token : bytes;
  ea_binding_hash : bytes;
  ea_expires_at : Z }.

Record ValidatedObserveResult := {
  vr_session_id : Z;
  vr_device_id : rstr;
  vr_role : SessionRole;
  vr_local_socket_nonce : bytes;
  vr_observed_endpoint : rstr;
  vr_observe_result_id : rstr;
  vr_binding_hash : bytes;
  vr_expires_at : Z }.

(** ** Address rules *)

(** [Ipv4Addr::is_private] and the other classifications of [std::net]. *)
Definition v4_is_private (ip : Z) : bool :=
  (octet ip 0 =? 10)
  || (octet ip 0 =? 172) && (16 <=? octet ip 1) && (octet ip 1 <=? 31)
  || (octet ip 0 =? 192) && (octet ip 1 =? 168).
Definition v4_is_loopback (ip : Z) : bool := octet ip 0 =? 127.
Definition v4_is_link_local (ip : Z) : bool := (octet ip 0 =? 169) && (octet ip 1 =? 254).
Definition v4_is_broadcast (ip : Z) : bool := ip =? 2 ^ 32 - 1.
Definition v4_is_documentation (ip : Z) : bool :=
  (octet ip 0 =? 192) && (octet ip 1 =? 0) && (octet ip 2 =? 2)
  || (octet ip 0 =? 198) && (octet ip 1 =? 51) && (octet ip 2 =? 100)
  || (octet ip 0 =? 203) && (octet ip 1 =? 0) && (octet ip 2 =? 113).
Definition v6_is_unique_local (ip : Z) : bool := Z.land (segment ip 0) 0xfe00 =? 0xfc00.
Definition v6_is_multicast (ip : Z) : bool := Z.land (segment ip 0) 0xff00 =? 0xff00.

Definition is_private_lan_unicast (a : IpAddr) : bool :=
  match a with
  | IpV4 ip =>
      v4_is_private ip && negb (v4_is_loopback ip) && negb (v4_is_link_local ip)
      && negb (v4_is_broadcast ip) && negb (v4_is_documentation ip)
      && negb (octet ip 3 =? 0) && negb (octet ip 3 =? 255)
  | IpV6 ip => v6_is_unique_local ip && negb (v6_is_multicast ip)
  end.

Definition validate_lan_endpoint (endpoint : rstr) : result BindingError SocketAddr :=
  e ← ok_or (parse_socket_addr endpoint) InvalidEndpoint;
  _ ← ensure (negb (sock_port e <? LAN_EPHEMERAL_PORT_MIN)) LanPortForbidden;
  _ ← ensure (is_private_lan_unicast (sock_ip e)) LanAddressForbidden;
  Ok e.

Record LocalNetwork := { ln_address : IpAddr; ln_prefix_len : Z }.

Definition local_network_new (address : IpAddr) (prefix_len : Z) : result BindingError LocalNetwork :=
  let max := match address with IpV4 _ => 32 | IpV6 _ => 128 end in
  _ ← ensure (negb ((max <? prefix_len) || negb (is_private_lan_unicast address))) LanAddressForbidden;
  Ok {| ln_address := address; ln_prefix_len := prefix_len |}.

(** [MAX << (width - prefix_len)] at the width of the address. *)
Definition prefix_mask_v4 (prefix_len : Z) : Z :=
  if prefix_len =? 0 then 0 else Z.land (Z.shiftl (2 ^ 32 - 1) (32 - prefix_len)) (2 ^ 32 - 1).
Definition prefix_mask_v6 (prefix_len : Z) : Z :=
  if prefix_len =? 0 then 0 else Z.land (Z.shiftl (2 ^ 128 - 1) (128 - prefix_len)) (2 ^ 128 - 1).

Definition network_contains (n : LocalNetwork) (a : IpAddr) : bool :=
  match n.(ln_address), a with
  | IpV4 l, IpV4 r =>
      let mask := prefix_mask_v4 n.(ln_prefix_len) in Z.land l mask =? Z.land r mask
  | IpV6 l, IpV6 r =>
      let mask := prefix_mask_v6 n.(ln_prefix_len) in Z.land l mask =? Z.land r mask
  | _, _ => false
  end.

Definition validate_lan_probe_scope (endpoint : rstr) (ns : list LocalNetwork)
    : result BindingError SocketAddr :=
  e ← validate_lan_endpoint endpoint;
  _ ← ensure (existsb (λ n, network_contains n (sock_ip e)) ns) LanNotRoutable;
  Ok e.

Definition validate_token_request_ttl (ttl : Z) : result BindingError unit :=
  ensure (negb ((ttl =? 0) || (CANDIDATE_TOKEN_MAX_TTL_MILLIS <? ttl))) InvalidRequestedTtl.

(** ** Encodings *)

Definition push_observe_token_fields (session_id : Z) (device_id : rstr) (role : SessionRole)
    (nonce : bytes) (expires_at : Z) : result CanonicalError bytes :=
  w ← writer_new (str "rctl-observe-token-binding-v1");
  w ← push_u128 w (str "session_id") session_id;
  w ← push_str w (str "device_id") device_id;
  w ← push_str w (str "role") (role_as_str role);
  w ← push_field w (str "local_socket_nonce") nonce;
  w ← push_u64 w (str "expires_at_epoch_millis") expires_at;
  Ok (finish w).

Definition push_observe_result_fields (r : ValidatedObserveResult) : result CanonicalError bytes :=
  w ← writer_new (str "rctl-observe-result-binding-v1");
  w ← push_u128 w (str "session_id") r.(vr_session_id);
  w ← push_str w (str "device_id") r.(vr_device_id);
  w ← push_str w (str "role") (role_as_str r.(vr_role));
  w ← push_field w (str "local_socket_nonce") r.(vr_local_socket_nonce);
  w ← push_str w (str "observed_endpoint") r.(vr_observed_endpoint);
  w ← push_str w (str "source") (source_as_str UdpObserved);
  w ← push_u64 w (str "expires_at_epoch_millis") r.(vr_expires_at);
  w ← push_str w (str "observe_result_id") r.(vr_observe_result_id);
  Ok (finish w).

Definition push_interface_claim_fields (q : CandidateTokenRequest)
    (name_hash index_hash nonce : bytes) (timestamp : Z) : result CanonicalError bytes :=
  w ← writer_new (str "rctl-local-interface-claim-v1");
  w ← push_u128 w (str "session_id") q.(tq_session_id);
  w ← push_str w (str "device_id") q.(tq_device_id);
  w ← push_str w (str "role") (role_as_str q.(tq_role));
  w ← push_u128 w (str "candidate_id") q.(tq_candidate_id);
  w ← push_str w (str "endpoint") q.(tq_endpoint);
  w ← push_field w (str "interface_name_hash") name_hash;
  w ← push_field w (str "interface_index_hash") index_hash;
  w ← push_field w (str "local_socket_nonce") nonce;
  w ← push_u64 w (str "timestamp_epoch_millis") timestamp;
  Ok (finish w).

Definition claim_key : Type := rstr * Z * bytes * Z.

Record LanCandidateGuard := {
  lg_accepted_candidates : gmap (Z * rstr) (gset Z);
  lg_accepted_claims : gset claim_key }.

Definition lan_guard_default : LanCandidateGuard :=
  {| lg_accepted_candidates := ∅; lg_accepted_claims := ∅ |}.

Section operations.
Context `{P : Primitives}.

Definition observe_token_binding_hash (session_id : Z) (device_id : rstr) (role : SessionRole)
    (nonce : bytes) (expires_at : Z) : result BindingError bytes :=
  bs ← encoding (push_observe_token_fields session_id device_id role nonce expires_at);
  Ok (sha256 bs).

Definition validate_observe_authorization (a : ObserveAuthorization) (now : Z)
    : result BindingError unit :=
  _ ← ensure (negb (a.(oa_expires_at) <? now)) TokenExpired;
  _ ← ensure (negb (OBSERVE_TOKEN_MAX_TTL_MILLIS <? sat_sub a.(oa_expires_at) now)) TokenTtlExceeded;
  _ ← ensure (a.(oa_token) ≠! []) TokenMismatch;
  expected ← observe_token_binding_hash a.(oa_session_id) a.(oa_device_id) a.(oa_role)
               a.(oa_local_socket_nonce) a.(oa_expires_at);
  ensure (expected =! a.(oa_binding_hash)) TokenBindingMismatch.

(** [ObserveAuthorization::from_issued]. *)
Definition observe_from_issued (i : ObserveTokenIssued) (now : Z)
    : result BindingError ObserveAuthorization :=
  let a := {| oa_session_id := i.(ot_session_id); oa_device_id := i.(ot_device_id);
              oa_role := i.(ot_role); oa_local_socket_nonce := i.(ot_local_socket_nonce);
              oa_token := i.(ot_observe_token); oa_binding_hash := i.(ot_binding_hash);
              oa_expires_at := i.(ot_expires_at) |} in
  _ ← validate_observe_authorization a now;
  Ok a.

Definition observe_result_binding_hash (r : ValidatedObserveResult) : result BindingError bytes :=
  bs ← encoding (push_observe_result_fields r);
  Ok (sha256 bs).

Definition validate_observe_result (r : ValidatedObserveResult) (a : ObserveAuthorization) (now : Z)
    : result BindingError unit :=
  _ ← validate_observe_authorization a now;
  _ ← ensure (negb ((negb (r.(vr_session_id) =? a.(oa_session_id)))
                    || (r.(vr_device_id) ≠! a.(oa_device_id))
                    || (r.(vr_role) ≠! a.(oa_role))
                    || (r.(vr_local_socket_nonce) ≠! a.(oa_local_socket_nonce))))
        ObserveContextMismatch;
  _ ← ensure (negb ((r.(vr_expires_at) <? now) || (a.(oa_expires_at) <? r.(vr_expires_at))))
        TokenExpired;
  _ ← ok_or (parse_socket_addr r.(vr_observed_endpoint)) InvalidEndpoint;
  _ ← ensure (r.(vr_observe_result_id) ≠! []) ObserveResultMismatch;
  expected ← observe_result_binding_hash r;
  ensure (expected =! r.(vr_binding_hash)) ObserveResultMismatch.

Definition validate_ephemeral_candidate_authorization (c : ConnectionCandidateDto)
    (a : EphemeralCandidateAuthorization) (now : Z) : result BindingError unit :=
  _ ← ensure ((a.(ea_session_id) =? c.(cd_session_id)) && (a.(ea_device_id) =! c.(cd_device_id))
              && (a.(ea_role) =! c.(cd_role)) && (a.(ea_candidate_id) =? c.(cd_candidate_id)))
        DeviceMismatch;
  _ ← ensure (negb (a.(ea_expires_at) <? now)) TokenExpired;
  _ ← ensure (negb (CANDIDATE_TOKEN_MAX_TTL_MILLIS <? sat_sub a.(ea_expires_at) now)) TokenTtlExceeded;
  _ ← ensure (a.(ea_token) ≠! []) TokenMismatch;
  expected ← candidate_token_binding_hash c a.(ea_expires_at);
  ensure (expected =! a.(ea_binding_hash)) TokenBindingMismatch.

(** [EphemeralCandidateAuthorization::from_issued]. *)
Definition ephemeral_from_issued (c : ConnectionCandidateDto) (i : CandidateTokenIssued) (now : Z)
    : result BindingError EphemeralCandidateAuthorization :=
  _ ← ensure ((i.(ci_session_id) =? c.(cd_session_id)) && (i.(ci_device_id) =! c.(cd_device_id))
              && (i.(ci_role) =! c.(cd_role)) && (i.(ci_candidate_id) =? c.(cd_candidate_id)))
        DeviceMismatch;
  let a := {| ea_session_id := i.(ci_session_id); ea_device_id := i.(ci_device_id);
              ea_role := i.(ci_role); ea_candidate_id := i.(ci_candidate_id);
              ea_token := i.(ci_candidate_token); ea_binding_hash := i.(ci_binding_hash);
              ea_expires_at := i.(ci_expires_at) |} in
  _ ← validate_ephemeral_candidate_authorization c a now;
  Ok a.

Definition request_candidate (q : CandidateTokenRequest) : ConnectionCandidateDto := {|
  cd_candidate_id := q.(tq_candidate_id); cd_session_id := q.(tq_session_id);
  cd_device_id := q.(tq_device_id); cd_role := q.(tq_role); cd_kind := q.(tq_kind);
  cd_endpoint := q.(tq_endpoint); cd_source := q.(tq_source);
  cd_observe_result_id := q.(tq_observe_result_id); cd_priority := 0;
  cd_rtt_ms := None; cd_loss_ppm := None; cd_jitter_ms := None;
  cd_relay_node_id := q.(tq_relay_node_id) |}.

Definition candidate_from_token_request (q : CandidateTokenRequest)
    : result BindingError ConnectionCandidateDto :=
  let c := request_candidate q in
  id ← candidate_id c;
  _ ← ensure (id =? q.(tq_candidate_id)) CandidateIdMismatch;
  Ok c.

Definition local_interface_claim_hash (q : CandidateTokenRequest) : result BindingError bytes :=
  name_hash ← ok_or q.(tq_interface_name_hash) LanClaimMissing;
  index_hash ← ok_or q.(tq_interface_index_hash) LanClaimMissing;
  nonce ← ok_or q.(tq_local_socket_nonce) LanClaimMissing;
  timestamp ← ok_or q.(tq_timestamp) LanClaimMissing;
  bs ← encoding (push_interface_claim_fields q name_hash index_hash nonce timestamp);
  Ok (sha256 bs).

(** The checks of [LanCandidateGuard::validate_request] that do not look at the
    guard: the candidate and the nonce of its claim. *)
Definition lan_checks (q : CandidateTokenRequest) (session_id : Z) (device_id : rstr)
    (role : SessionRole) (device_public_key : bytes) (now : Z)
    : result BindingError (ConnectionCandidateDto * bytes) :=
  _ ← validate_token_request_ttl q.(tq_requested_ttl_millis);
  _ ← ensure ((q.(tq_session_id) =? session_id) && (q.(tq_device_id) =! device_id)
              && (q.(tq_role) =! role)) DeviceMismatch;
  _ ← ensure ((q.(tq_kind) =! LanDirect) && (q.(tq_source) =! LocalInterface)
              && (q.(tq_relay_node_id) =! None) && (q.(tq_observe_result_id) =! None)
              && (q.(tq_observe_result_binding_hash) =! None)) InvalidCandidateKindSource;
  endpoint ← validate_lan_endpoint q.(tq_endpoint);
  name_hash ← ok_or q.(tq_interface_name_hash) LanClaimMissing;
  index_hash ← ok_or q.(tq_interface_index_hash) LanClaimMissing;
  nonce ← ok_or q.(tq_local_socket_nonce) LanClaimMissing;
  timestamp ← ok_or q.(tq_timestamp) LanClaimMissing;
  _ ← ensure ((name_hash ≠! repeat x00 32) && (index_hash ≠! repeat x00 32)
              && (nonce ≠! repeat x00 32)) InvalidInterfaceHash;
  _ ← ensure (negb (LAN_INTERFACE_CLAIM_WINDOW_MILLIS <? abs_diff timestamp now))
        BindingTimestampOutsideWindow;
  candidate ← candidate_from_token_request q;
  _ ← ensure (socket_to_string endpoint =! q.(tq_endpoint)) InvalidEndpoint;
  expected_claim ← local_interface_claim_hash q;
  supplied_claim ← ok_or q.(tq_local_interface_claim_hash) LanClaimMissing;
  _ ← ensure (expected_claim =! supplied_claim) LanClaimHashMismatch;
  signature ← ok_or q.(tq_local_interface_signature) LanClaimMissing;
  _ ← ensure (length signature =? 64)%nat DeviceSignatureInvalid;
  _ ← map_err (λ _, DeviceSignatureInvalid)
        (verify_digest_signature device_public_key expected_claim signature);
  Ok (candidate, nonce).

(** [LanCandidateGuard::validate_request]. *)
Definition lan_validate_request (g : LanCandidateGuard) (q : CandidateTokenRequest)
    (session_id : Z) (device_id : rstr) (role : SessionRole) (device_public_key : bytes) (now : Z)
    : result BindingError ConnectionCandidateDto * LanCandidateGuard :=
  match lan_checks q session_id device_id role device_public_key now with
  | Err e => (Err e, g)
  | Ok (candidate, nonce) =>
      let replay_key : claim_key :=
        (q.(tq_device_id), q.(tq_session_id), nonce, q.(tq_candidate_id)) in
      if bool_decide (replay_key ∈ g.(lg_accepted_claims)) then (Err NonceReplay, g)
      else
        let k := (q.(tq_session_id), q.(tq_device_id)) in
        let candidates := default ∅ (g.(lg_accepted_candidates) !! k) in
        if negb (bool_decide (q.(tq_candidate_id) ∈ candidates))
           && (LAN_CANDIDATE_MAX_PER_DEVICE_SESSION <=? size candidates)%nat
        then (Err LanCandidateLimitExceeded,
              {| lg_accepted_candidates := <[k := candidates]> g.(lg_accepted_candidates);
                 lg_accepted_claims := g.(lg_accepted_claims) |})
        else (Ok candidate,
              {| lg_accepted_candidates :=
                   <[k := {[q.(tq_candidate_id)]} ∪ candidates]> g.(lg_accepted_candidates);
                 lg_accepted_claims := {[replay_key]} ∪ g.(lg_accepted_claims) |})
  end.

Definition validate_udp_candidate_request (q : CandidateTokenRequest) (r : ValidatedObserveResult)
    (session_id : Z) (device_id : rstr) (role : SessionRole) (now : Z)
    : result BindingError ConnectionCandidateDto :=
  _ ← validate_token_request_ttl q.(tq_requested_ttl_millis);
  _ ← ensure ((q.(tq_session_id) =? session_id) && (q.(tq_device_id) =! device_id)
              && (q.(tq_role) =! role)) DeviceMismatch;
  _ ← ensure ((q.(tq_kind) =! UdpP2p) && (q.(tq_source) =! UdpObserved)
              && (q.(tq_relay_node_id) =! None) && (q.(tq_local_interface_claim_hash) =! None)
              && (q.(tq_local_interface_signature) =! None) && (q.(tq_interface_name_hash) =! None)
              && (q.(tq_interface_index_hash) =! None) && (q.(tq_local_socket_nonce) =! None)
              && (q.(tq_timestamp) =! None)) InvalidCandidateKindSource;
  _ ← ensure (negb (r.(vr_expires_at) <? now) && (r.(vr_session_id) =? q.(tq_session_id))
              && (r.(vr_device_id) =! q.(tq_device_id)) && (r.(vr_role) =! q.(tq_role))
              && (r.(vr_observed_endpoint) =! q.(tq_endpoint))
              && (q.(tq_observe_result_id) =! Some r.(vr_observe_result_id))) ObserveResultMismatch;
  expected ← observe_result_binding_hash r;
  _ ← ensure ((expected =! r.(vr_binding_hash))
              && match q.(tq_observe_result_binding_hash) with
                 | None => false
                 | Some binding => binding =! expected
                 end) ObserveResultMismatch;
  candidate_from_token_request q.
End operations.

(** ** What the LAN guard admits *)

(** One request with the context the server expects. *)
Record lan_request := {
  lr_request : CandidateTokenRequest;
  lr_session_id : Z;
  lr_device_id : rstr;
  lr_role : SessionRole;
  lr_public_key : bytes;
  lr_now : Z }.

(** A LAN endpoint in canonical text: private unicast, ephemeral port. *)
Definition lan_endpoint_ok (text : rstr) : Prop :=
  ∃ a, parse_socket_addr text = Some a ∧ socket_to_string a = text ∧
       LAN_EPHEMERAL_PORT_MIN ≤ sock_port a ∧ is_private_lan_unicast (sock_ip a) = true.

(** Everything the guard requires of a request by itself. *)
Record lan_authorized `{Primitives} (r : lan_request) : Prop := {
  la_ttl : r.(lr_request).(tq_requested_ttl_millis) ≠ 0 ∧
    r.(lr_request).(tq_requested_ttl_millis) ≤ CANDIDATE_TOKEN_MAX_TTL_MILLIS;
  la_party : (r.(lr_request).(tq_session_id), r.(lr_request).(tq_device_id), r.(lr_request).(tq_role)) =
             (r.(lr_session_id), r.(lr_device_id), r.(lr_role));
  la_kind : (r.(lr_request).(tq_kind), r.(lr_request).(tq_source)) = (LanDirect, LocalInterface);
  la_direct : r.(lr_request).(tq_relay_node_id) = None ∧ r.(lr_request).(tq_observe_result_id) = None ∧
    r.(lr_request).(tq_observe_result_binding_hash) = None;
  la_endpoint : lan_endpoint_ok r.(lr_request).(tq_endpoint);
  la_window : ∃ t, r.(lr_request).(tq_timestamp) = Some t ∧
    abs_diff t r.(lr_now) ≤ LAN_INTERFACE_CLAIM_WINDOW_MILLIS;
  la_hashes : ∃ name index nonce,
    r.(lr_request).(tq_interface_name_hash) = Some name ∧ name ≠ repeat x00 32 ∧
    r.(lr_request).(tq_interface_index_hash) = Some index ∧ index ≠ repeat x00 32 ∧
    r.(lr_request).(tq_local_socket_nonce) = Some nonce ∧ nonce ≠ repeat x00 32;
  la_id : candidate_id (request_candidate r.(lr_request)) = Ok r.(lr_request).(tq_candidate_id);
  la_signed : ∃ h s, local_interface_claim_hash r.(lr_request) = Ok h ∧
    r.(lr_request).(tq_local_interface_claim_hash) = Some h ∧
    r.(lr_request).(tq_local_interface_signature) = Some s ∧ length s = 64%nat ∧
    verify_digest_signature r.(lr_public_key) h s = Ok tt }.

Definition lr_claim (r : lan_request) : claim_key :=
  (r.(lr_request).(tq_device_id), r.(lr_request).(tq_session_id),
   default [] r.(lr_request).(tq_local_socket_nonce), r.(lr_request).(tq_candidate_id)).

Definition lr_party (r : lan_request) : Z * rstr :=
  (r.(lr_request).(tq_session_id), r.(lr_request).(tq_device_id)).

(** The distinct candidates of a party among some requests. *)
Definition party_candidates (p : Z * rstr) (rs : list lan_request) : gset Z :=
  list_to_set ((λ r, r.(lr_request).(tq_candidate_id)) <$> filter (λ r, lr_party r = p) rs).

Section lan_guard.
Context `{P : Primitives}.

Definition lr_checks (r : lan_request) : result BindingError (ConnectionCandidateDto * bytes) :=
  lan_checks r.(lr_request) r.(lr_session_id) r.(lr_device_id) r.(lr_role)
    r.(lr_public_key) r.(lr_now).

Definition lr_validate (g : LanCandidateGuard) (r : lan_request) :=
  lan_validate_request g r.(lr_request) r.(lr_session_id) r.(lr_device_id) r.(lr_role)
    r.(lr_public_key) r.(lr_now).

(** The answers of the guard, each with the requests it had accepted before. *)
Fixpoint lan_run (g : LanCandidateGuard) (accepted : list lan_request) (rs : list lan_request)
    : list (list lan_request * result BindingError ConnectionCandidateDto) :=
  match rs with
  | [] => []
  | r :: rs =>
      let '(a, g) := lr_validate g r in
      (accepted, a) :: lan_run g (if is_ok a then accepted ++ [r] else accepted) rs
  end.

Lemma lan_checks_ok r c n :
  lr_checks r = Ok (c, n) ↔
  lan_authorized r ∧ c = request_candidate r.(lr_request) ∧
  r.(lr_request).(tq_local_socket_nonce) = Some n.
Proof.
  unfold lr_checks, lan_checks, validate_token_request_ttl, validate_lan_endpoint,
    candidate_from_token_request. split.
  - intros H. invert_ok. split; [|done]. split; try done; try congruence.
    + by eexists.
    + eauto.
    + by repeat eexists.
    + repeat eexists; try eassumption. by apply Nat.eqb_eq.
  - intros ([[??] Hp Hk (?&?&?) (a & Ha & Hs & ? & ?) (t & Ht & ?)
      (nm & ix & nn & Hnm & ? & Hix & ? & Hnn & ?) Hid (h & s & Hh & Hc & Hsig & ? & Hv)] & -> & Hn).
    injection Hp as ???. injection Hk as ??.
    assert (nn = n) as -> by congruence.
    do 3 pass. rewrite Ha, Hnm, Hix, Hnn, Ht. cbn [ok_or mbind result_bind].
    apply bind_ok; exists a. split; [by do 2 pass|].
    do 2 pass. rewrite Hid. cbn [mbind result_bind].
    apply bind_ok; eexists. split; [by pass|]. pass.
    rewrite Hh, Hc, Hsig. cbn [ok_or mbind result_bind]. do 2 pass. by rewrite Hv.
Qed.

Lemma lan_checks_not_guard r :
  lr_checks r ≠ Err NonceReplay ∧ lr_checks r ≠ Err LanCandidateLimitExceeded.
Proof.
  unfold lr_checks, lan_checks, validate_token_request_ttl, validate_lan_endpoint,
    candidate_from_token_request, local_interface_claim_hash, candidate_id,
    validate_candidate_shape, encoding.
  split; intros H; refute_err.
Qed.

Lemma party_candidates_snoc p acc r :
  party_candidates p (acc ++ [r]) =
  if decide (lr_party r = p) then {[r.(lr_request).(tq_candidate_id)]} ∪ party_candidates p acc
  else party_candidates p acc.
Proof.
  unfold party_candidates. rewrite filter_app, filter_cons, filter_nil, fmap_app, list_to_set_app_L.
  destruct (decide (lr_party r = p)); cbn; [|set_solver].
  rewrite union_empty_r_L. apply union_comm_L.
Qed.

(** The promise of the guard, given what it accepted before. *)
Definition lan_answer (acc : list lan_request) (r : lan_request)
    (a : result BindingError ConnectionCandidateDto) : Prop :=
  let fresh := ∀ p, p ∈ acc → lr_claim p ≠ lr_claim r in
  let S := party_candidates (lr_party r) acc in
  let id := r.(lr_request).(tq_candidate_id) in
  (∀ c, a = Ok c ↔ c = request_candidate r.(lr_request) ∧ lan_authorized r ∧ fresh ∧
     (id ∈ S ∨ (size S < LAN_CANDIDATE_MAX_PER_DEVICE_SESSION)%nat)) ∧
  (a = Err NonceReplay ↔ lan_authorized r ∧ ¬ fresh) ∧
  (a = Err LanCandidateLimitExceeded ↔ lan_authorized r ∧ fresh ∧ (id ∉ S) ∧
     size S = LAN_CANDIDATE_MAX_PER_DEVICE_SESSION).

Lemma lan_answer_ok acc r :
  lan_authorized r → (∀ p, p ∈ acc → lr_claim p ≠ lr_claim r) →
  (r.(lr_request).(tq_candidate_id) ∈ party_candidates (lr_party r) acc ∨
   (size (party_candidates (lr_party r) acc) < LAN_CANDIDATE_MAX_PER_DEVICE_SESSION)%nat) →
  lan_answer acc r (Ok (request_candidate r.(lr_request))).
Proof.
  intros Ha Hf Hr. split_and!; [intros c|..]; (split; [try done|]).
  - by intros [= <-].
  - by intros (-> & _).
  - by intros [_ []].
  - intros (_ & _ & ? & ?). destruct Hr; [done|lia].
Qed.

Record lan_knows (g : LanCandidateGuard) (acc : list lan_request) : Prop := {
  lk_candidates : ∀ p, default ∅ (g.(lg_accepted_candidates) !! p) = party_candidates p acc;
  lk_claims : ∀ k, k ∈ g.(lg_accepted_claims) ↔ ∃ p, p ∈ acc ∧ lr_claim p = k;
  lk_bound : ∀ p, (size (party_candidates p acc) ≤ LAN_CANDIDATE_MAX_PER_DEVICE_SESSION)%nat }.

Lemma claim_seen g acc r :
  lan_knows g acc →
  (lr_claim r ∈ g.(lg_accepted_claims)) ↔ ¬ (∀ p, p ∈ acc → lr_claim p ≠ lr_claim r).
Proof.
  intros K. rewrite (lk_claims _ _ K). split.
  - intros (p & Hp & E) H. by apply (H p).
  - intros H. destruct (decide (Exists (λ p, lr_claim p = lr_claim r) acc)) as [E|E].
    + by apply Exists_exists in E.
    + exfalso. apply H. intros p Hp Hc. apply E, Exists_exists. eauto.
Qed.

Lemma lan_knows_accept g acc r :
  lan_knows g acc →
  (r.(lr_request).(tq_candidate_id) ∈ party_candidates (lr_party r) acc ∨
   (size (party_candidates (lr_party r) acc) < LAN_CANDIDATE_MAX_PER_DEVICE_SESSION)%nat) →
  lan_knows
    {| lg_accepted_candidates :=
         <[lr_party r := {[r.(lr_request).(tq_candidate_id)]} ∪ party_candidates (lr_party r) acc]>
           g.(lg_accepted_candidates);
       lg_accepted_claims := {[lr_claim r]} ∪ g.(lg_accepted_claims) |} (acc ++ [r]).
Proof.
  intros [Kc Ks Kb] Hroom. split.
  - intros p. cbn. rewrite party_candidates_snoc.
    destruct (decide (lr_party r = p)) as [<-|Hp].
    + by rewrite lookup_insert_eq.
    + by rewrite lookup_insert_ne.
  - intros k. cbn. rewrite elem_of_union, elem_of_singleton, Ks. setoid_rewrite elem_of_app.
    setoid_rewrite list_elem_of_singleton. naive_solver.
  - intros p. rewrite party_candidates_snoc. destruct (decide _) as [<-|]; [|done].
    destruct Hroom as [Hin|Hlt].
    + rewrite subseteq_union_1_L by set_solver. done.
    + pose proof (size_union_alt {[tq_candidate_id (lr_request r)]} (party_candidates (lr_party r) acc)) as Hs.
      assert (size (party_candidates (lr_party r) acc ∖ {[tq_candidate_id (lr_request r)]}) ≤
              size (party_candidates (lr_party r) acc))%nat by (apply subseteq_size; set_solver).
      rewrite size_singleton in Hs. lia.
Qed.

Lemma lr_validate_step g acc r :
  lan_knows g acc →
  lan_answer acc r (lr_validate g r).1 ∧
  lan_knows (lr_validate g r).2 (if is_ok (lr_validate g r).1 then acc ++ [r] else acc).
Proof.
  intros K. pose proof (claim_seen g acc r K) as Hseen.
  pose proof (lan_checks_ok r) as Hok. pose proof (lan_checks_not_guard r) as [Hn1 Hn2].
  unfold lr_validate, lan_validate_request. unfold lr_checks in *.
  destruct (lan_checks _ _ _ _ _ _) as [[c n]|e].
  - destruct (proj1 (Hok c n) eq_refl) as (Ha & -> & Hn). clear Hok Hn1 Hn2.
    fold (lr_party r).
    assert ((tq_device_id (lr_request r), tq_session_id (lr_request r), n,
             tq_candidate_id (lr_request r)) = lr_claim r) as -> by (unfold lr_claim; by rewrite Hn).
    rewrite (lk_candidates _ _ K). unfold lan_answer.
    case_bool_decide as Hin.
    { apply Hseen in Hin. cbn. split; [|done].
      split_and!; [intros c|..]; (split; [done|]); [by intros (_ & _ & ? & _)|done|].
      by intros (_ & ? & _). }
    assert (∀ p, p ∈ acc → lr_claim p ≠ lr_claim r) as Hfresh.
    { intros p Hp Hc. apply Hin, (lk_claims _ _ K). eauto. }
    pose proof (lk_bound _ _ K (lr_party r)) as Hb.
    case_bool_decide as Hid; [|destruct (Nat.leb_spec LAN_CANDIDATE_MAX_PER_DEVICE_SESSION
      (size (party_candidates (lr_party r) acc))) as [Hf|Hf]]; cbn [negb andb fst snd is_ok].
    + split; [apply lan_answer_ok|apply lan_knows_accept]; auto.
    + split.
      * split_and!; [intros c|..]; (split; [try done|]).
        -- intros (_ & _ & _ & [?|?]); [done|lia].
        -- by intros [_ []].
        -- intros _. split_and!; [done..|lia].
        -- done.
      * destruct K as [Kc Ks Kb]. split; [|done..]. intros p. cbn.
        destruct (decide (lr_party r = p)) as [<-|]; by rewrite ?lookup_insert_eq, ?lookup_insert_ne.
    + split; [apply lan_answer_ok|apply lan_knows_accept]; auto.
  - cbn. split; [|done]. assert (¬ lan_authorized r) as Hna.
    { intros Ha. destruct (la_hashes _ Ha) as (? & ? & n & _ & _ & _ & _ & Hn & _).
      by pose proof (proj2 (Hok (request_candidate (lr_request r)) n) (conj Ha (conj eq_refl Hn))). }
    split_and!; [intros c|..]; (split; [congruence|]).
    + by intros (_ & ? & _).
    + by intros [? _].
    + by intros [? _].
Qed.

Lemma lan_run_from g acc rs i r :
  lan_knows g acc → rs !! i = Some r →
  ∃ acc' a, lan_run g acc rs !! i = Some (acc', a) ∧ lan_answer acc' r a ∧
    ∀ p, (size (party_candidates p acc') ≤ LAN_CANDIDATE_MAX_PER_DEVICE_SESSION)%nat.
Proof.
  revert g acc i. induction rs as [|r' rs IH]; intros g acc i K Hi; [done|].
  cbn [lan_run]. destruct (lr_validate_step g acc r' K) as [Ha K'].
  destruct (lr_validate g r') as [a g'] eqn:E. cbn [fst snd] in *.
  destruct i as [|i]; cbn in Hi.
  - injection Hi as ->. exists acc, a. split; [done|]. split; [done|]. apply K.
  - by apply IH.
Qed.

Lemma lan_knows_default : lan_knows lan_guard_default [].
Proof.
  split.
  - intros p. cbn. by rewrite lookup_empty.
  - intros k. cbn. rewrite elem_of_empty. split; [done|]. intros (p & Hp & _).
    by apply elem_of_nil in Hp.
  - intros p. cbn. rewrite size_empty. lia.
Qed.
End lan_guard.

(** For any sequence of LAN candidate requests presented to a fresh guard,
    a request is accepted exactly when it is authorized by itself (lifetime at
    most 60 s, expected session, device and role, private unicast endpoint with
    an ephemeral port in canonical text, claim inside 30 s, candidate identifier
    recomputed, claim hash and device signature valid), its claim was not
    accepted before, and its candidate is already known or the party has fewer
    than eight; the other two refusals are given in exactly the complementary
    cases, and no party ever holds more than eight candidates. *)
Theorem lan_guard_exact `{P : Primitives} (rs : list lan_request) i r :
  rs !! i = Some r →
  ∃ acc a, lan_run lan_guard_default [] rs !! i = Some (acc, a) ∧ lan_answer acc r a ∧
    ∀ p, (size (party_candidates p acc) ≤ 8)%nat.
Proof. apply lan_run_from, lan_knows_default. Qed.

Definition example_lan_unsigned (endpoint : string) (claim signature : bytes) : CandidateTokenRequest := {|
  tq_session_id := 7; tq_device_id := str "device-a"; tq_role := Controlled;
  tq_candidate_id := 0; tq_kind := LanDirect; tq_endpoint := str endpoint;
  tq_source := LocalInterface; tq_relay_node_id := None; tq_observe_result_id := None;
  tq_observe_result_binding_hash := None; tq_local_interface_claim_hash := Some claim;
  tq_local_interface_signature := Some signature;
  tq_interface_name_hash := Some (repeat x01 32); tq_interface_index_hash := Some (repeat x02 32);
  tq_local_socket_nonce := Some (repeat x03 32); tq_timestamp := Some 1000;
  tq_requested_ttl_millis := 30000 |}.

Definition example_lan (endpoint : string) : lan_request :=
  let claim := default [] (ok (@local_interface_claim_hash toy (example_lan_unsigned endpoint [] []))) in
  {| lr_request := example_lan_unsigned endpoint claim (@ed25519_sign toy (repeat x07 32) claim);
     lr_session_id := 7; lr_device_id := str "device-a"; lr_role := Controlled;
     lr_public_key := repeat x07 32; lr_now := 2000 |}.

(** Accepted; refused as a replay; refused for its port, its address and the
    non-canonical text of its port. *)
Lemma lan_guard_exact_witness :
  map snd (@lan_run toy lan_guard_default []
    [example_lan "192.168.1.20:50000"; example_lan "192.168.1.20:50000";
     example_lan "192.168.1.20:4000"; example_lan "8.8.8.8:50000";
     example_lan "192.168.1.20:050000"]) =
  [Ok (request_candidate (example_lan "192.168.1.20:50000").(lr_request)); Err NonceReplay;
   Err LanPortForbidden; Err LanAddressForbidden; Err InvalidEndpoint] ∧
  ∃ acc a, @lan_run toy lan_guard_default [] [example_lan "192.168.1.20:50000"] !! 0%nat = Some (acc, a) ∧
    @lan_answer toy acc (example_lan "192.168.1.20:50000") a ∧
    ∀ p, (size (party_candidates p acc) ≤ 8)%nat.
Proof.
  split; [vm_compute; reflexivity|].
  apply (@lan_guard_exact toy [example_lan "192.168.1.20:50000"] 0). reflexivity.
Defined.

(** ** Network prefixes *)

(** The leading [n] of [width] bits agree. *)
Definition same_prefix (width n a b : Z) : Prop :=
  ∀ i, width - n ≤ i < width → Z.testbit a i = Z.testbit b i.

Definition same_network (n : LocalNetwork) (a : IpAddr) : Prop :=
  match n.(ln_address), a with
  | IpV4 l, IpV4 r => same_prefix 32 n.(ln_prefix_len) l r
  | IpV6 l, IpV6 r => same_prefix 128 n.(ln_prefix_len) l r
  | _, _ => False
  end.

Definition prefix_mask (width n : Z) : Z :=
  if n =? 0 then 0 else Z.land (Z.shiftl (2 ^ width - 1) (width - n)) (2 ^ width - 1).

Lemma prefix_mask_bit width n i :
  0 ≤ n ≤ width → 0 ≤ i →
  Z.testbit (prefix_mask width n) i = (width - n <=? i) && (i <? width).
Proof.
  intros Hn Hi. unfold prefix_mask. destruct (Z.eqb_spec n 0) as [->|].
  { rewrite Z.testbit_0_l. destruct (Z.leb_spec (width - 0) i), (Z.ltb_spec i width); (lia || done). }
  replace (2 ^ width - 1) with (Z.ones width) by (rewrite Z.ones_equiv; lia).
  rewrite Z.land_spec, Z.shiftl_spec, !Z.testbit_ones by lia.
  destruct (Z.leb_spec 0 i), (Z.leb_spec 0 (i - (width - n))), (Z.ltb_spec (i - (width - n)) width),
    (Z.leb_spec (width - n) i), (Z.ltb_spec i width); (lia || done).
Qed.

Lemma masked_equal width n a b :
  0 ≤ n ≤ width →
  Z.land a (prefix_mask width n) = Z.land b (prefix_mask width n) ↔ same_prefix width n a b.
Proof.
  intros Hn. split.
  - intros H i Hi. apply (f_equal (λ z, Z.testbit z i)) in H. rewrite !Z.land_spec in H.
    rewrite prefix_mask_bit in H by lia.
    destruct (Z.leb_spec (width - n) i), (Z.ltb_spec i width); try lia.
    by rewrite !andb_true_r in H.
  - intros H. apply Z.bits_inj'. intros i Hi. rewrite !Z.land_spec, prefix_mask_bit by lia.
    destruct (Z.leb_spec (width - n) i), (Z.ltb_spec i width); cbn;
      rewrite ?andb_false_r, ?andb_true_r; [apply H; lia|done..].
Qed.

Lemma local_network_wf a p n :
  local_network_new a p = Ok n →
  n = {| ln_address := a; ln_prefix_len := p |} ∧
  p ≤ match a with IpV4 _ => 32 | IpV6 _ => 128 end.
Proof. unfold local_network_new. intros H. invert_ok. done. Qed.

Lemma network_contains_spec n a :
  (∃ l p, 0 ≤ p ∧ local_network_new l p = Ok n) →
  network_contains n a = true ↔ same_network n a.
Proof.
  intros (l & p & Hp & [-> Hm]%local_network_wf). unfold network_contains, same_network. cbn.
  change (prefix_mask_v4 p) with (prefix_mask 32 p).
  change (prefix_mask_v6 p) with (prefix_mask 128 p).
  destruct l, a; try (split; done); rewrite Z.eqb_eq, masked_equal by done; done.
Qed.

(** The networks a LAN candidate may be probed in: against networks made by
    [LocalNetwork::new], an endpoint passes [validate_lan_probe_scope] exactly
    when it parses, its port is ephemeral, its address is private unicast and,
    for some network of the same address family with prefix length n, the
    leading n bits of the two addresses agree. *)
Theorem lan_probe_scope_exact text ns e :
  (∀ n, n ∈ ns → ∃ a p, 0 ≤ p ∧ local_network_new a p = Ok n) →
  validate_lan_probe_scope text ns = Ok e ↔
  parse_socket_addr text = Some e ∧ 49152 ≤ sock_port e ∧
  is_private_lan_unicast (sock_ip e) = true ∧ ∃ n, n ∈ ns ∧ same_network n (sock_ip e).
Proof.
  intros Hns. unfold validate_lan_probe_scope, validate_lan_endpoint. split.
  - intros H. invert_ok. unfold LAN_EPHEMERAL_PORT_MIN in *. split_and!; [done..|].
    match goal with H : existsb _ _ = true |- _ => apply existsb_exists in H as (n & Hn & Hc) end.
    apply list_elem_of_In in Hn. exists n. split; [done|]. by apply network_contains_spec; [apply Hns|].
  - intros (-> & Hp & Hl & n & Hn & Hs). cbn [ok_or mbind result_bind].
    apply bind_ok. exists e. split; [unfold LAN_EPHEMERAL_PORT_MIN; by do 2 pass|].
    apply bind_ok. exists tt. split; [|done]. apply ensure_ok, existsb_exists.
    exists n. split; [by apply list_elem_of_In|]. by apply network_contains_spec; [apply Hns|].
Qed.

Lemma lan_probe_scope_exact_witness :
  (validate_lan_probe_scope (str "10.1.2.3:50000") [{| ln_address := IpV4 0x0A010101; ln_prefix_len := 16 |}]
     = Ok (SockV4 0x0A010203 50000)) ∧
  ∃ n, n ∈ [{| ln_address := IpV4 0x0A010101; ln_prefix_len := 16 |}] ∧
       same_network n (IpV4 0x0A010203).
Proof.
  assert (validate_lan_probe_scope (str "10.1.2.3:50000")
    [{| ln_address := IpV4 0x0A010101; ln_prefix_len := 16 |}] = Ok (SockV4 0x0A010203 50000)) as E
    by (vm_compute; reflexivity).
  split; [exact E|].
  apply (lan_probe_scope_exact (str "10.1.2.3:50000")
    [{| ln_address := IpV4 0x0A010101; ln_prefix_len := 16 |}] (SockV4 0x0A010203 50000)); [|exact E].
  intros n ->%list_elem_of_singleton. exists (IpV4 0x0A010101), 16. split; [lia|vm_compute; reflexivity].
Defined.
