(* ===== verification/Observe.v ===== *)
(** * UDP observe

    Models crates/remote-transport/src/observe.rs: the request and response
    datagrams, their reader and writer, and the two sides of one exchange. The
    socket is a parameter of the exchange: what a side receives, and from which
    address, is an argument, what it sends is part of its result. The check of
    the token signature and the generator of result identifiers are the
    callbacks the code takes. [zeroize] is not observable. *)

From S2P Require Import Prelude Text Canonical Security Primitives KeySession Binding Net Candidates.

Definition OBSERVE_REQUEST_MAGIC : bytes := str "RCO1".
Definition OBSERVE_RESPONSE_MAGIC : bytes := str "RCO2".
Definition MAX_OBSERVE_DATAGRAM_BYTES : Z := 4096.
Definition MAX_TOKEN_BYTES : Z := 2048.
Definition MAX_TEXT_BYTES : Z := 512.

Inductive ObserveError :=
| ObserveBinding (e : BindingError)
| MalformedPacket
| PacketTooLarge
| UnexpectedResponder
| ObserveTimeout
| ObserveIo
| ResultIdUnavailable.

(** ** Writing *)

Definition role_byte (r : SessionRole) : byte :=
  match r with Controller => x01 | Controlled => x02 end.

Definition decode_role (b : byte) : result ObserveError SessionRole :=
  match b with x01 => Ok Controller | x02 => Ok Controlled | _ => Err MalformedPacket end.

Definition u16_try_from (n : Z) : option Z := if n <? 2 ^ 16 then Some n else None.

Definition push_bytes (bs value : bytes) (max : Z) : result ObserveError bytes :=
  _ ← ensure (negb ((value =! []) || (max <? len value))) MalformedPacket;
  n ← ok_or (u16_try_from (len value)) PacketTooLarge;
  let bs := bs ++ be_bytes 2 n ++ value in
  _ ← ensure (negb (MAX_OBSERVE_DATAGRAM_BYTES <? len bs)) PacketTooLarge;
  Ok bs.

Definition push_text (bs value : bytes) : result ObserveError bytes :=
  push_bytes bs value MAX_TEXT_BYTES.

Definition encode_observe_request (a : ObserveAuthorization) : result ObserveError bytes :=
  let bs := OBSERVE_REQUEST_MAGIC ++ be_bytes 16 a.(oa_session_id) in
  bs ← push_text bs a.(oa_device_id);
  let bs := bs ++ [role_byte a.(oa_role)] ++ a.(oa_local_socket_nonce)
            ++ be_bytes 8 a.(oa_expires_at) ++ a.(oa_binding_hash) in
  push_bytes bs a.(oa_token) MAX_TOKEN_BYTES.

Definition encode_observe_response (r : ValidatedObserveResult) : result ObserveError bytes :=
  let bs := OBSERVE_RESPONSE_MAGIC ++ be_bytes 16 r.(vr_session_id) in
  bs ← push_text bs r.(vr_device_id);
  let bs := bs ++ [role_byte r.(vr_role)] ++ r.(vr_local_socket_nonce) in
  bs ← push_text bs r.(vr_observed_endpoint);
  bs ← push_text bs r.(vr_observe_result_id);
  Ok (bs ++ r.(vr_binding_hash) ++ be_bytes 8 r.(vr_expires_at)).

(** ** Reading

    The reader is threaded through [&mut self] methods; a method that fails ends
    the decoding, so the reader it leaves is not needed. *)

Record PacketReader := { rd_bytes : bytes; rd_offset : nat }.

Definition read (A : Type) : Type := PacketReader → result ObserveError (A * PacketReader).

#[global] Instance read_ret : MRet read := λ A a r, Ok (a, r).
#[global] Instance read_bind : MBind read := λ A B f m r,
  match m r with Ok (a, r) => f a r | Err e => Err e end.

Definition lift {A} (x : result ObserveError A) : read A := λ r,
  match x with Ok a => Ok (a, r) | Err e => Err e end.

Definition reader_new (bs : bytes) : PacketReader := {| rd_bytes := bs; rd_offset := 0 |}.

Definition rd_take (n : nat) : read bytes := λ r,
  let stop := (r.(rd_offset) + n)%nat in
  if (stop <=? length r.(rd_bytes))%nat
  then Ok (slice r.(rd_bytes) r.(rd_offset) stop, {| rd_bytes := r.(rd_bytes); rd_offset := stop |})
  else Err MalformedPacket.

Definition expect_magic (magic : bytes) : read unit :=
  m ← rd_take 4; lift (ensure (m =! magic) MalformedPacket).

Definition rd_u8 : read byte := b ← rd_take 1; mret (default x00 (head b)).
Definition rd_u16 : read Z := b ← rd_take 2; mret (be_val b).
Definition rd_u64 : read Z := b ← rd_take 8; mret (be_val b).
Definition rd_u128 : read Z := b ← rd_take 16; mret (be_val b).
Definition rd_array32 : read bytes := rd_take 32.

Definition rd_bytes_max (max : Z) : read bytes :=
  n ← rd_u16;
  _ ← lift (ensure (negb ((n =? 0) || (max <? n))) MalformedPacket);
  rd_take (Z.to_nat n).

Definition rd_text (max : Z) : read rstr :=
  b ← rd_bytes_max max;
  _ ← lift (ensure (utf8_valid b) MalformedPacket);
  mret b.

Definition rd_role : read SessionRole := b ← rd_u8; lift (decode_role b).

(** [finish(self)]: nothing may be left. *)
Definition rd_finish : read unit := λ r,
  if (r.(rd_offset) =? length r.(rd_bytes))%nat then Ok (tt, r) else Err MalformedPacket.

Definition read_request : read ObserveAuthorization :=
  _ ← expect_magic OBSERVE_REQUEST_MAGIC;
  session_id ← rd_u128;
  device_id ← rd_text MAX_TEXT_BYTES;
  role ← rd_role;
  local_socket_nonce ← rd_array32;
  expires_at ← rd_u64;
  binding_hash ← rd_array32;
  token ← rd_bytes_max MAX_TOKEN_BYTES;
  _ ← rd_finish;
  mret {| oa_session_id := session_id; oa_device_id := device_id; oa_role := role;
          oa_local_socket_nonce := local_socket_nonce; oa_token := token;
          oa_binding_hash := binding_hash; oa_expires_at := expires_at |}.

Definition read_response : read ValidatedObserveResult :=
  _ ← expect_magic OBSERVE_RESPONSE_MAGIC;
  session_id ← rd_u128;
  device_id ← rd_text MAX_TEXT_BYTES;
  role ← rd_role;
  local_socket_nonce ← rd_array32;
  observed_endpoint ← rd_text MAX_TEXT_BYTES;
  observe_result_id ← rd_text MAX_TEXT_BYTES;
  binding_hash ← rd_array32;
  expires_at ← rd_u64;
  _ ← rd_finish;
  mret {| vr_session_id := session_id; vr_device_id := device_id; vr_role := role;
          vr_local_socket_nonce := local_socket_nonce; vr_observed_endpoint := observed_endpoint;
          vr_observe_result_id := observe_result_id; vr_binding_hash := binding_hash;
          vr_expires_at := expires_at |}.

Definition run_reader {A} (m : read A) (bs : bytes) : result ObserveError A :=
  match m (reader_new bs) with Ok (a, _) => Ok a | Err e => Err e end.

Definition decode_observe_request (bs : bytes) : result ObserveError ObserveAuthorization :=
  run_reader read_request bs.

Definition decode_observe_response (bs : bytes) : result ObserveError ValidatedObserveResult :=
  run_reader read_response bs.

(** ** The two sides of an exchange *)

Section exchange.
Context `{P : Primitives}.

Definition binding {T} (r : result BindingError T) : result ObserveError T := map_err ObserveBinding r.

(** [handle_udp_observe_once] on a datagram received from [peer]: the result it
    returns and the response it sends back to [peer]. *)
Definition handle_udp_observe_once (packet : bytes) (peer : SocketAddr) (now : Z)
    (verify_token : ObserveAuthorization → result BindingError unit)
    (generate_result_id : result ObserveError rstr)
    : result ObserveError (ValidatedObserveResult * bytes) :=
  _ ← ensure (negb (MAX_OBSERVE_DATAGRAM_BYTES <? len packet)) PacketTooLarge;
  authorization ← decode_observe_request packet;
  _ ← binding (validate_observe_authorization authorization now);
  _ ← binding (verify_token authorization);
  observe_result_id ← generate_result_id;
  _ ← ensure (negb ((observe_result_id =! []) || (MAX_TEXT_BYTES <? len observe_result_id)))
        ResultIdUnavailable;
  let result := {|
    vr_session_id := authorization.(oa_session_id); vr_device_id := authorization.(oa_device_id);
    vr_role := authorization.(oa_role);
    vr_local_socket_nonce := authorization.(oa_local_socket_nonce);
    vr_observed_endpoint := socket_to_string peer; vr_observe_result_id := observe_result_id;
    vr_binding_hash := repeat x00 32; vr_expires_at := authorization.(oa_expires_at) |} in
  binding_hash ← binding (observe_result_binding_hash result);
  let result := {|
    vr_session_id := result.(vr_session_id); vr_device_id := result.(vr_device_id);
    vr_role := result.(vr_role); vr_local_socket_nonce := result.(vr_local_socket_nonce);
    vr_observed_endpoint := result.(vr_observed_endpoint);
    vr_observe_result_id := result.(vr_observe_result_id);
    vr_binding_hash := binding_hash; vr_expires_at := result.(vr_expires_at) |} in
  response ← encode_observe_response result;
  Ok (result, response).

(** [request_udp_observe] up to the send. *)
Definition observe_request_datagram (a : ObserveAuthorization) (now : Z) : result ObserveError bytes :=
  _ ← binding (validate_observe_authorization a now);
  encode_observe_request a.

(** [request_udp_observe] from the datagram it received. *)
Definition receive_observe_response (server : SocketAddr) (a : ObserveAuthorization) (now : Z)
    (response : bytes) (responder : SocketAddr) : result ObserveError ValidatedObserveResult :=
  _ ← ensure (responder =! server) UnexpectedResponder;
  _ ← ensure (negb (MAX_OBSERVE_DATAGRAM_BYTES <? len response)) PacketTooLarge;
  result ← decode_observe_response response;
  _ ← binding (validate_observe_result result a now);
  Ok result.
End exchange.

(** ** Readers that undo writers *)

(** A reader that has consumed [pre] of [pre ++ s]. *)
Definition reader_at (pre s : bytes) : PacketReader :=
  {| rd_bytes := pre ++ s; rd_offset := length pre |}.

(** [m] reads exactly the encodings [enc a] of the values with [good a]. *)
Definition reads {A} (m : read A) (enc : A → bytes) (good : A → Prop) : Prop :=
  ∀ pre s a r', m (reader_at pre s) = Ok (a, r') ↔
    good a ∧ ∃ rest, s = enc a ++ rest ∧ r' = reader_at (pre ++ enc a) rest.

Lemma reads_step {A B} (m : read A) enc good (f : A → read B) pre s b r' :
  reads m enc good →
  (m ≫= f) (reader_at pre s) = Ok (b, r') ↔
  ∃ a rest, good a ∧ s = enc a ++ rest ∧ f a (reader_at (pre ++ enc a) rest) = Ok (b, r').
Proof.
  intros Hm. unfold mbind, read_bind. split.
  - destruct (m (reader_at pre s)) as [[a r]|e] eqn:E; [|done]. intros Hf.
    apply Hm in E as (Ha & rest & -> & ->). eauto 6.
  - intros (a & rest & Ha & -> & Hf).
    assert (m (reader_at pre (enc a ++ rest)) = Ok (a, reader_at (pre ++ enc a) rest)) as ->
      by (apply Hm; eauto). done.
Qed.

Lemma reader_at_app pre x rest : reader_at (pre ++ x) rest = {| rd_bytes := pre ++ x ++ rest; rd_offset := (length pre + length x)%nat |}.
Proof. unfold reader_at. by rewrite <-app_assoc, length_app. Qed.

Lemma reads_take n : reads (rd_take n) (λ x, x) (λ x, length x = n).
Proof.
  intros pre s x r'. unfold rd_take. cbn [reader_at rd_offset rd_bytes].
  rewrite length_app. destruct (Nat.leb_spec (length pre + n) (length pre + length s)) as [Hl|Hl].
  - rewrite (slice_app_skip _ _ _ _ (length pre)) by lia.
    replace (length pre - length pre)%nat with O by lia.
    replace (length pre + n - length pre)%nat with n by lia. split.
    + intros [= <- <-]. rewrite slice_length by lia. split; [lia|]. exists (drop n s).
      unfold slice. rewrite drop_0, Nat.sub_0_r, take_drop. split; [done|].
      rewrite reader_at_app, take_drop, length_take. f_equal; lia.
    + intros (Hx & rest & -> & ->). rewrite slice_app_here by done.
      rewrite reader_at_app, Hx. done.
  - split; [done|]. intros (Hx & rest & -> & _). rewrite length_app in Hl. lia.
Qed.

(** Converting what was read. *)
Lemma reads_map {A B} (m : read A) enc good (f : A → B) (g : B → A) good' :
  reads m enc good → (∀ a, good a → good' (f a) ∧ g (f a) = a) →
  (∀ b, good' b → good (g b) ∧ f (g b) = b) →
  reads (a ← m; mret (f a)) (λ b, enc (g b)) good'.
Proof.
  intros Hm Hfg Hgf pre s b r'. rewrite (reads_step m enc good) by done.
  unfold mret, read_ret. split.
  - intros (a & rest & Ha & -> & [= <- <-]). destruct (Hfg a Ha) as [? E]. rewrite E. eauto.
  - intros (Hb & rest & -> & ->). destruct (Hgf b Hb) as [? E].
    exists (g b), rest. by rewrite E.
Qed.

Lemma reads_uint n :
  reads (b ← rd_take n; mret (be_val b)) (be_bytes n) (in_u (8 * Z.of_nat n)).
Proof.
  apply (reads_map _ _ _ be_val (be_bytes n) _ (reads_take n)).
  - intros b <-. split; [apply be_val_range|apply be_bytes_val].
  - intros z Hz. split; [apply be_bytes_length|by apply be_val_bytes_small].
Qed.

Lemma reads_u8 : reads rd_u8 (λ b, [b]) (λ _, True).
Proof.
  apply (reads_map _ _ _ (λ b, default x00 (head b)) (λ b, [b]) _ (reads_take 1)).
  - intros [|b [|? ?]] H; try done.
  - done.
Qed.

(** Values that pass a check. *)
Lemma reads_filter {A} (m : read A) enc good (c : A → bool) :
  reads m enc good →
  reads (a ← m; _ ← lift (ensure (c a) MalformedPacket); mret a) enc (λ a, good a ∧ c a = true).
Proof.
  intros Hm pre s a r'. rewrite (reads_step m enc good) by done. unfold mbind, read_bind, lift, ensure.
  split.
  - intros (b & rest & Hb & -> & H). destruct (c b) eqn:E; [|done]. injection H as <- <-. eauto.
  - intros ((Ha & Hc) & rest & -> & ->). exists a, rest. by rewrite Hc.
Qed.

Lemma reads_role : reads rd_role (λ r, [role_byte r]) (λ _, True).
Proof.
  intros pre s r r'. unfold rd_role. rewrite (reads_step rd_u8) by apply reads_u8. split.
  - intros (b & rest & _ & -> & H). unfold lift in H.
    destruct b; try done; cbn in H; injection H as <- <-; eauto.
  - intros (_ & rest & -> & ->). exists (role_byte r), rest. by destruct r.
Qed.

(** A length-prefixed block, as [push_bytes] writes it. *)
Definition block (v : bytes) : bytes := be_bytes 2 (len v) ++ v.
Definition block_ok (max : Z) (v : bytes) : Prop := v ≠ [] ∧ len v ≤ max ∧ len v < 2 ^ 16.

Lemma reads_block max : reads (rd_bytes_max max) block (block_ok max).
Proof.
  intros pre s v r'. unfold rd_bytes_max, rd_u16.
  rewrite (reads_step _ (be_bytes 2) (in_u (8 * Z.of_nat 2))) by apply (reads_uint 2).
  unfold mbind at 1, read_bind at 1, lift, block_ok, block. split.
  - intros (n & rest & Hn & -> & H).
    destruct (ensure _ _) as [[]|] eqn:E; [|done]. apply ensure_ok in E. split_bools.
    unfold in_u in Hn. cbn in Hn.
    apply reads_take in H as (Hv & rest' & -> & ->).
    assert (len v = n) as El by (unfold len; lia).
    split; [split_and!; [intros ->; cbn in *; lia|lia|cbn; lia]|].
    exists rest'. rewrite El, <-!app_assoc. done.
  - intros ((Hv & Hm & Hs) & rest & -> & ->). exists (len v), (v ++ rest).
    pose proof (len_nonneg v). split; [done|]. split; [by rewrite <-app_assoc|].
    destruct (Z.eqb_spec (len v) 0) as [E|E]; [by apply len_zero_nil in E|].
    destruct (Z.ltb_spec max (len v)); [lia|]. cbn [orb negb ensure].
    apply reads_take. split; [unfold len; lia|]. exists rest. by rewrite <-app_assoc.
Qed.

Lemma reads_magic m : length m = 4%nat → reads (expect_magic m) (λ _, m) (λ _, True).
Proof.
  intros Hm pre s [] r'. unfold expect_magic.
  rewrite (reads_step _ (λ x, x) (λ x, length x = 4%nat)) by apply reads_take.
  unfold lift, ensure. split.
  - intros (x & rest & Hx & -> & H). case_bool_decide; [|done]. subst. injection H as <-. eauto.
  - intros (_ & rest & -> & ->). exists m, rest. by rewrite bool_decide_eq_true_2.
Qed.

Lemma reads_text max : reads (rd_text max) block (λ v, block_ok max v ∧ utf8_valid v = true).
Proof. apply (reads_filter _ _ _ utf8_valid), reads_block. Qed.

(** Nothing follows the end of a packet. *)
Lemma finish_at {B} pre s (b : B) r' :
  (_ ← rd_finish; mret b) (reader_at pre s) = Ok (b, r') → s = [].
Proof.
  unfold mbind, read_bind, rd_finish. cbn [reader_at rd_offset rd_bytes]. rewrite length_app.
  destruct (Nat.eqb_spec (length pre) (length pre + length s)); [|done]. intros _.
  destruct s; [done|cbn in *; lia].
Qed.

Lemma finish_at_end {B} pre (b : B) :
  (_ ← rd_finish; mret b) (reader_at pre []) = Ok (b, reader_at pre []).
Proof.
  unfold mbind, read_bind, rd_finish. cbn [reader_at rd_offset rd_bytes].
  by rewrite app_nil_r, Nat.eqb_refl.
Qed.

(** ** The datagrams *)

Definition request_bytes (a : ObserveAuthorization) : bytes :=
  OBSERVE_REQUEST_MAGIC ++ be_bytes 16 a.(oa_session_id) ++ block a.(oa_device_id) ++
  [role_byte a.(oa_role)] ++ a.(oa_local_socket_nonce) ++ be_bytes 8 a.(oa_expires_at) ++
  a.(oa_binding_hash) ++ block a.(oa_token).

Definition response_bytes (r : ValidatedObserveResult) : bytes :=
  OBSERVE_RESPONSE_MAGIC ++ be_bytes 16 r.(vr_session_id) ++ block r.(vr_device_id) ++
  [role_byte r.(vr_role)] ++ r.(vr_local_socket_nonce) ++ block r.(vr_observed_endpoint) ++
  block r.(vr_observe_result_id) ++ r.(vr_binding_hash) ++ be_bytes 8 r.(vr_expires_at).

(** What the Rust types of the fields guarantee. *)
Record request_typed (a : ObserveAuthorization) : Prop := {
  qt_session : in_u128 a.(oa_session_id);
  qt_device : utf8_valid a.(oa_device_id) = true;
  qt_nonce : length a.(oa_local_socket_nonce) = 32%nat;
  qt_expires : in_u64 a.(oa_expires_at);
  qt_hash : length a.(oa_binding_hash) = 32%nat }.

Record response_typed (r : ValidatedObserveResult) : Prop := {
  pt_session : in_u128 r.(vr_session_id);
  pt_device : utf8_valid r.(vr_device_id) = true;
  pt_nonce : length r.(vr_local_socket_nonce) = 32%nat;
  pt_endpoint : utf8_valid r.(vr_observed_endpoint) = true;
  pt_id : utf8_valid r.(vr_observe_result_id) = true;
  pt_hash : length r.(vr_binding_hash) = 32%nat;
  pt_expires : in_u64 r.(vr_expires_at) }.

Definition request_fits (a : ObserveAuthorization) : Prop :=
  block_ok MAX_TEXT_BYTES a.(oa_device_id) ∧ block_ok MAX_TOKEN_BYTES a.(oa_token).

Definition response_fits (r : ValidatedObserveResult) : Prop :=
  block_ok MAX_TEXT_BYTES r.(vr_device_id) ∧ block_ok MAX_TEXT_BYTES r.(vr_observed_endpoint) ∧
  block_ok MAX_TEXT_BYTES r.(vr_observe_result_id).

(** One read of a packet, taken apart or put together. *)
Ltac read_in H L := apply (reads_step _ _ _ _ _ _ _ _ L) in H as (? & ? & ? & -> & H).
Ltac read_out L x :=
  apply (reads_step _ _ _ _ _ _ _ _ L); exists x; eexists; split; [|split; [reflexivity|]].

Lemma read_u128_reads : reads rd_u128 (be_bytes 16) in_u128.
Proof. apply (reads_uint 16). Qed.
Lemma read_u64_reads : reads rd_u64 (be_bytes 8) in_u64.
Proof. apply (reads_uint 8). Qed.
Lemma read_array_reads : reads rd_array32 (λ x, x) (λ x, length x = 32%nat).
Proof. apply reads_take. Qed.

Lemma decode_request_iff bs a :
  decode_observe_request bs = Ok a ↔ request_typed a ∧ request_fits a ∧ bs = request_bytes a.
Proof.
  unfold decode_observe_request, run_reader. change (reader_new bs) with (reader_at [] bs).
  split.
  - destruct (read_request (reader_at [] bs)) as [[a' r]|] eqn:H; [|done]. intros [= ->].
    unfold read_request in H.
    read_in H (reads_magic OBSERVE_REQUEST_MAGIC eq_refl). read_in H read_u128_reads.
    read_in H (reads_text MAX_TEXT_BYTES). read_in H reads_role. read_in H read_array_reads.
    read_in H read_u64_reads. read_in H read_array_reads. read_in H (reads_block MAX_TOKEN_BYTES).
    pose proof H as E. unfold mbind, read_bind, rd_finish in E. destruct (_ =? _)%nat; [|done].
    injection E as <- _. apply finish_at in H as ->. destruct_and!.
    split; [by split|]. split; [by split|]. unfold request_bytes. cbn. by rewrite app_nil_r.
  - intros ([] & [] & ->).
    assert (∃ r, read_request (reader_at [] (request_bytes a)) = Ok (a, r)) as [r ->]; [|done].
    eexists. unfold read_request, request_bytes.
    read_out (reads_magic OBSERVE_REQUEST_MAGIC eq_refl) tt; [done|].
    read_out read_u128_reads (oa_session_id a); [done|].
    read_out (reads_text MAX_TEXT_BYTES) (oa_device_id a); [done|].
    read_out reads_role (oa_role a); [done|].
    read_out read_array_reads (oa_local_socket_nonce a); [done|].
    read_out read_u64_reads (oa_expires_at a); [done|].
    read_out read_array_reads (oa_binding_hash a); [done|].
    apply (reads_step _ _ _ _ _ _ _ _ (reads_block MAX_TOKEN_BYTES)). exists (oa_token a), [].
    split; [done|]. split; [by rewrite app_nil_r|]. destruct a. apply finish_at_end.
Qed.

Lemma decode_response_iff bs r :
  decode_observe_response bs = Ok r ↔ response_typed r ∧ response_fits r ∧ bs = response_bytes r.
Proof.
  unfold decode_observe_response, run_reader. change (reader_new bs) with (reader_at [] bs).
  split.
  - destruct (read_response (reader_at [] bs)) as [[r' rd]|] eqn:H; [|done]. intros [= ->].
    unfold read_response in H.
    read_in H (reads_magic OBSERVE_RESPONSE_MAGIC eq_refl). read_in H read_u128_reads.
    read_in H (reads_text MAX_TEXT_BYTES). read_in H reads_role. read_in H read_array_reads.
    read_in H (reads_text MAX_TEXT_BYTES). read_in H (reads_text MAX_TEXT_BYTES).
    read_in H read_array_reads. read_in H read_u64_reads.
    pose proof H as E. unfold mbind, read_bind, rd_finish in E. destruct (_ =? _)%nat; [|done].
    injection E as <- _. apply finish_at in H as ->. destruct_and!.
    split; [by split|]. split; [by split_and!|]. unfold response_bytes. cbn. by rewrite app_nil_r.
  - intros ([] & (? & ? & ?) & ->).
    assert (∃ rd, read_response (reader_at [] (response_bytes r)) = Ok (r, rd)) as [rd ->]; [|done].
    eexists. unfold read_response, response_bytes.
    read_out (reads_magic OBSERVE_RESPONSE_MAGIC eq_refl) tt; [done|].
    read_out read_u128_reads (vr_session_id r); [done|].
    read_out (reads_text MAX_TEXT_BYTES) (vr_device_id r); [done|].
    read_out reads_role (vr_role r); [done|].
    read_out read_array_reads (vr_local_socket_nonce r); [done|].
    read_out (reads_text MAX_TEXT_BYTES) (vr_observed_endpoint r); [done|].
    read_out (reads_text MAX_TEXT_BYTES) (vr_observe_result_id r); [done|].
    read_out read_array_reads (vr_binding_hash r); [done|].
    apply (reads_step _ _ _ _ _ _ _ _ read_u64_reads). exists (vr_expires_at r), [].
    split; [done|]. split; [by rewrite app_nil_r|]. destruct r. apply finish_at_end.
Qed.

Lemma push_bytes_ok bs v max bs' :
  push_bytes bs v max = Ok bs' ↔
  block_ok max v ∧ len (bs ++ block v) ≤ MAX_OBSERVE_DATAGRAM_BYTES ∧ bs' = bs ++ block v.
Proof.
  unfold push_bytes, block_ok, block, u16_try_from. split.
  - intros H. invert_ok. destruct (Z.ltb_spec (len v) (2 ^ 16)); [|done]. simplify_eq.
    split_and!; done.
  - intros ((? & ? & ?) & Hl & ->). pass. destruct (Z.ltb_spec (len v) (2 ^ 16)); [|lia].
    cbn [ok_or mbind result_bind]. by pass.
Qed.

(** The size limit of a datagram is never reached: the fields are bounded. *)
Ltac bound_len :=
  unfold block_ok, block, MAX_TEXT_BYTES, MAX_TOKEN_BYTES, MAX_OBSERVE_DATAGRAM_BYTES in *;
  autorewrite with rctl_len;
  repeat match goal with H : length _ = 32%nat |- _ => apply len_length in H; rewrite ?H end;
  try change (len OBSERVE_REQUEST_MAGIC) with 4; try change (len OBSERVE_RESPONSE_MAGIC) with 4; lia.

Lemma encode_request_iff a bs :
  request_typed a →
  encode_observe_request a = Ok bs ↔ request_fits a ∧ bs = request_bytes a.
Proof.
  intros [? ? ? ? ?]. unfold encode_observe_request, push_text, request_fits. split.
  - intros H. invert_ok. apply push_bytes_ok in H as (Ht & _ & ->).
    match goal with H : push_bytes _ _ _ = Ok _ |- _ => apply push_bytes_ok in H as (Hd & _ & ->) end.
    split; [done|]. unfold request_bytes. by rewrite <-!app_assoc.
  - intros ([Hd Ht] & ->). apply bind_ok. eexists. split.
    { apply push_bytes_ok. split; [exact Hd|]. split; [|reflexivity]. destruct Hd as (? & ? & ?). bound_len. }
    apply push_bytes_ok. split; [exact Ht|]. destruct Hd as (? & ? & ?), Ht as (? & ? & ?).
    split; [bound_len|]. unfold request_bytes. by rewrite <-!app_assoc.
Qed.

Lemma encode_response_iff r bs :
  response_typed r →
  encode_observe_response r = Ok bs ↔ response_fits r ∧ bs = response_bytes r.
Proof.
  intros [? ? ? ? ? ? ?]. unfold encode_observe_response, push_text, response_fits. split.
  - intros H. invert_ok.
    repeat match goal with H : push_bytes _ _ _ = Ok _ |- _ => apply push_bytes_ok in H as (? & _ & ->) end.
    split; [done|]. unfold response_bytes. by rewrite <-!app_assoc.
  - intros ((Hd & He & Hi) & ->). pose proof Hd as (? & ? & ?). pose proof He as (? & ? & ?).
    pose proof Hi as (? & ? & ?).
    apply bind_ok. eexists. split; [apply push_bytes_ok; split; [exact Hd|split; [bound_len|reflexivity]]|].
    apply bind_ok. eexists. split; [apply push_bytes_ok; split; [exact He|split; [bound_len|reflexivity]]|].
    apply bind_ok. eexists. split; [apply push_bytes_ok; split; [exact Hi|split; [bound_len|reflexivity]]|].
    unfold response_bytes. by rewrite <-!app_assoc.
Qed.

(** The observe datagrams are an exact codec. For every authorization and
    every result of the right types, a byte string is its encoding exactly when
    decoding that byte string gives it back; and what decodes has the right
    types. So encoding then decoding is the identity, and no two datagrams
    decode to the same value (the decoder accepts no other form of it). *)
Theorem observe_codec_exact :
  (∀ a bs, request_typed a →
     encode_observe_request a = Ok bs ↔ decode_observe_request bs = Ok a) ∧
  (∀ bs a, decode_observe_request bs = Ok a → request_typed a) ∧
  (∀ r bs, response_typed r →
     encode_observe_response r = Ok bs ↔ decode_observe_response bs = Ok r) ∧
  (∀ bs r, decode_observe_response bs = Ok r → response_typed r).
Proof.
  split_and!.
  - intros a bs Ha. rewrite encode_request_iff, decode_request_iff by done. tauto.
  - intros bs a H. by apply decode_request_iff in H as [? _].
  - intros r bs Hr. rewrite encode_response_iff, decode_response_iff by done. tauto.
  - intros bs r H. by apply decode_response_iff in H as [? _].
Qed.

(** ** One exchange from end to end *)

Lemma show_dec_ascii n : 0 ≤ n < 10 ^ 10 → forallb (λ b, byte_val b <? 128) (show_dec n) = true.
Proof.
  intros Hn. unfold show_dec. destruct (digits_spec 10 10 n) as (_ & Hd & _); [lia|done|lia|].
  apply forallb_true_iff. intros b (d & -> & Hin)%list_elem_of_fmap.
  rewrite Forall_forall in Hd. apply Hd in Hin. unfold hex_digit.
  destruct (Z.ltb_spec d 10); [|lia]. rewrite byte_val_of, Z.mod_small by lia.
  apply Z.ltb_lt. lia.
Qed.

Lemma show_dec_len n k : 0 ≤ n < 10 ^ Z.of_nat k → (0 < k)%nat → len (show_dec n) ≤ Z.of_nat k.
Proof.
  intros Hn Hk. unfold show_dec, len. rewrite length_fmap.
  pose proof (digits_length 10 10 n k). lia.
Qed.

Lemma show_v4_text ip port :
  in_u32 ip → in_u16 port →
  utf8_valid (socket_to_string (SockV4 ip port)) = true ∧
  block_ok MAX_TEXT_BYTES (socket_to_string (SockV4 ip port)).
Proof.
  intros Hip Hp. cbn [socket_to_string]. unfold show_ipv4.
  pose proof (octet_range ip) as Ho. unfold in_u in Hp. split.
  - apply utf8_valid_ascii. rewrite !forallb_app, !show_dec_ascii; [done|..];
      first [lia | specialize (Ho 0); lia | specialize (Ho 1); lia
            | specialize (Ho 2); lia | specialize (Ho 3); lia].
  - assert (∀ i, len (show_dec (octet ip i)) ≤ 3) as Hl.
    { intros i. apply (show_dec_len _ 3); [|lia]. specialize (Ho i). cbn. lia. }
    pose proof (show_dec_len port 5 ltac:(cbn; lia) ltac:(lia)).
    pose proof (Hl 0). pose proof (Hl 1). pose proof (Hl 2). pose proof (Hl 3).
    unfold block_ok, MAX_TEXT_BYTES. autorewrite with rctl_len. split; [|lia].
    intros E. apply (f_equal length) in E. rewrite !length_app in E. cbn in E. lia.
Qed.

(** The result a server makes for an authorization it accepted. *)
Definition observed_result (a : ObserveAuthorization) (peer : SocketAddr) (id h : bytes)
    : ValidatedObserveResult := {|
  vr_session_id := a.(oa_session_id); vr_device_id := a.(oa_device_id); vr_role := a.(oa_role);
  vr_local_socket_nonce := a.(oa_local_socket_nonce); vr_observed_endpoint := socket_to_string peer;
  vr_observe_result_id := id; vr_binding_hash := h; vr_expires_at := a.(oa_expires_at) |}.

Section exchange_lemmas.
Context `{P : Primitives} {L : PrimitiveLaws P}.

Lemma observe_result_hash_defined r :
  len r.(vr_device_id) < 2 ^ 32 → len r.(vr_local_socket_nonce) < 2 ^ 32 →
  len r.(vr_observed_endpoint) < 2 ^ 32 → len r.(vr_observe_result_id) < 2 ^ 32 →
  ∃ h, observe_result_binding_hash r = Ok h ∧ length h = 32%nat.
Proof.
  intros. unfold observe_result_binding_hash, push_observe_result_fields, encoding.
  destruct (vr_role r); push_all; cbn [map_err mbind result_bind]; eexists; (split; [reflexivity|]); apply sha256_length.
Qed.

Lemma validate_observe_authorization_ok a now :
  validate_observe_authorization a now = Ok tt →
  now ≤ a.(oa_expires_at) ≤ now + OBSERVE_TOKEN_MAX_TTL_MILLIS.
Proof.
  unfold validate_observe_authorization, sat_sub. intros H. invert_ok.
  unfold OBSERVE_TOKEN_MAX_TTL_MILLIS in *. lia.
Qed.

Lemma request_len a :
  request_typed a → request_fits a → len (request_bytes a) ≤ MAX_OBSERVE_DATAGRAM_BYTES.
Proof.
  intros [] [(? & ? & ?) (? & ? & ?)]. unfold request_bytes. bound_len.
Qed.

Lemma response_len r :
  response_typed r → response_fits r → len (response_bytes r) ≤ MAX_OBSERVE_DATAGRAM_BYTES.
Proof.
  intros [] ((? & ? & ?) & (? & ? & ?) & (? & ? & ?)). unfold response_bytes. bound_len.
Qed.

Lemma server_accepts a peer now verify id h :
  let res := observed_result a peer id h in
  request_typed a → request_fits a → response_typed res → response_fits res →
  validate_observe_authorization a now = Ok tt → verify a = Ok tt →
  observe_result_binding_hash (observed_result a peer id (repeat x00 32)) = Ok h →
  handle_udp_observe_once (request_bytes a) peer now verify (Ok id) = Ok (res, response_bytes res).
Proof.
  intros res Ta Fa Tr Fr Hv Hverify Hh. pose proof Fr as (_ & _ & (Hid & Hidl & _)).
  unfold handle_udp_observe_once, binding. pose proof (request_len a Ta Fa). pass.
  assert (decode_observe_request (request_bytes a) = Ok a) as -> by by apply decode_request_iff.
  cbn [mbind result_bind]. rewrite Hv, Hverify. cbn [map_err mbind result_bind]. pass.
  unfold observed_result in Hh. rewrite Hh. cbn [map_err mbind result_bind].
  fold res. change {| vr_session_id := _ |} with res at 1.
  assert (encode_observe_response res = Ok (response_bytes res)) as E by by apply encode_response_iff.
  unfold res, observed_result in E |- *. cbn in E |- *. by rewrite E.
Qed.

Lemma device_accepts a peer now id h server :
  let res := observed_result a peer id h in
  response_typed res → response_fits res →
  validate_observe_authorization a now = Ok tt →
  parse_socket_addr (socket_to_string peer) = Some peer →
  observe_result_binding_hash (observed_result a peer id (repeat x00 32)) = Ok h →
  receive_observe_response server a now (response_bytes res) server = Ok res.
Proof.
  intros res Tr Fr Hv Hp Hh. pose proof Fr as (_ & _ & (Hid & _)).
  unfold receive_observe_response, binding. pose proof (response_len res Tr Fr). do 2 pass.
  assert (decode_observe_response (response_bytes res) = Ok res) as -> by by apply decode_response_iff.
  cbn [mbind result_bind]. unfold validate_observe_result. rewrite Hv. cbn [mbind result_bind].
  pose proof (validate_observe_authorization_ok a now Hv).
  assert (observe_result_binding_hash res = Ok h) as E by exact Hh. rewrite E.
  cbn [res observed_result vr_observed_endpoint]. rewrite Hp.
  cbn [res observed_result vr_session_id vr_device_id vr_role vr_local_socket_nonce vr_expires_at
    vr_observe_result_id vr_binding_hash ok_or].
  apply bind_ok. exists tt. split; [|done]. apply map_err_ok. do 2 pass.
  cbn [mbind result_bind]. pass. by apply ensure_ok, bool_decide_eq_true_2.
Qed.
End exchange_lemmas.

(** An observe exchange over a faithful network completes. When a device
    holds an authorization that is valid on both clocks and the server's token
    check accepts it, the datagram it sends is accepted, the response it gets
    back is accepted, and both sides hold the same result: the session, device,
    role, nonce and expiry of the authorization, the fresh result identifier,
    and as endpoint the text of the address the server saw, which parses back to
    that address. *)
Theorem observe_exchange_completes `{P : Primitives} {L : PrimitiveLaws P}
    a request ip port server id verify now_device now_server :
  request_typed a → in_u32 ip → in_u16 port →
  observe_request_datagram a now_device = Ok request →
  validate_observe_authorization a now_server = Ok tt → verify a = Ok tt →
  id ≠ [] → len id ≤ 512 → utf8_valid id = true →
  ∃ h response,
    handle_udp_observe_once request (SockV4 ip port) now_server verify (Ok id) =
      Ok (observed_result a (SockV4 ip port) id h, response) ∧
    receive_observe_response server a now_device response server =
      Ok (observed_result a (SockV4 ip port) id h) ∧
    parse_socket_addr (observed_result a (SockV4 ip port) id h).(vr_observed_endpoint) =
      Some (SockV4 ip port).
Proof.
  intros Ta Hip Hport Hreq Hs Hverify Hid Hidl Hidu.
  unfold observe_request_datagram, binding in Hreq. invert_ok.
  match goal with H : validate_observe_authorization a now_device = Ok _ |- _ => rename H into Hd end.
  apply encode_request_iff in Hreq as [Hfit ->]; [|done].
  pose proof Hfit as [(Hdev & Hdevl & Hdevs) _]. pose proof Ta as [? ? Hnonce ? ?].
  destruct (show_v4_text ip port Hip Hport) as [Hutf Hblock].
  pose proof Hblock as (_ & Hel & _).
  destruct (observe_result_hash_defined (observed_result a (SockV4 ip port) id (repeat x00 32)))
    as (h & Hh & Hhl); cbn [observed_result vr_device_id vr_local_socket_nonce
      vr_observed_endpoint vr_observe_result_id];
    [lia|apply len_length in Hnonce; lia|unfold MAX_TEXT_BYTES in Hel; lia|lia|].
  set (res := observed_result a (SockV4 ip port) id h).
  assert (response_typed res) as Tr by by split.
  assert (response_fits res) as Fr.
  { split; [done|]. split; [done|]. unfold block_ok, MAX_TEXT_BYTES. cbn. by split_and!; [..|lia]. }
  exists h, (response_bytes res).
  pose proof (parse_show_v4 ip port Hip Hport) as Hparse.
  split; [by apply server_accepts|]. split; [by apply device_accepts|]. done.
Qed.

Definition example_observe : ObserveAuthorization := {|
  oa_session_id := 7; oa_device_id := str "device-a"; oa_role := Controller;
  oa_local_socket_nonce := repeat x03 32; oa_token := str "token";
  oa_binding_hash := default [] (ok (@observe_token_binding_hash toy 7 (str "device-a") Controller
                       (repeat x03 32) 20000));
  oa_expires_at := 20000 |}.

Lemma example_observe_typed : request_typed example_observe.
Proof. split; try done; vm_compute; done. Qed.

Lemma observe_exchange_completes_witness :
  ∃ h response,
    @handle_udp_observe_once toy (request_bytes example_observe) (SockV4 0x0A000001 50000) 1500
      (λ _, Ok tt) (Ok (str "result-1")) =
      Ok (observed_result example_observe (SockV4 0x0A000001 50000) (str "result-1") h, response) ∧
    @receive_observe_response toy (SockV4 0x08080808 3478) example_observe 1000 response
      (SockV4 0x08080808 3478) =
      Ok (observed_result example_observe (SockV4 0x0A000001 50000) (str "result-1") h) ∧
    parse_socket_addr (socket_to_string (SockV4 0x0A000001 50000)) = Some (SockV4 0x0A000001 50000).
Proof.
  apply (@observe_exchange_completes toy toy_laws example_observe (request_bytes example_observe)
    0x0A000001 50000 (SockV4 0x08080808 3478) (str "result-1") (λ _, Ok tt) 1000 1500);
    [apply example_observe_typed|split; done|split; done|vm_compute; reflexivity
    |vm_compute; reflexivity|reflexivity|discriminate|vm_compute; discriminate|vm_compute; reflexivity].
Defined.

(** An instance of the codec: the encoding of the example, and back. *)
Lemma observe_codec_exact_witness :
  encode_observe_request example_observe = Ok (request_bytes example_observe) ∧
  decode_observe_request (request_bytes example_observe) = Ok example_observe.
Proof.
  assert (encode_observe_request example_observe = Ok (request_bytes example_observe)) as E
    by (vm_compute; reflexivity).
  split; [exact E|].
  destruct observe_codec_exact as [H _].
  apply (H example_observe (request_bytes example_observe) example_observe_typed). exact E.
Defined.
