(* ===== verification/P2p.v ===== *)
(** * P2P probes and the candidate race orchestrator

    Models crates/remote-transport/src/p2p.rs: probe packets and their codec, the
    replay guard and the rate limiter in front of probes, both sides of a probe,
    and the orchestrator that validates candidate pairs before they race. As in
    the observe exchange the UDP socket is a parameter: what was received, and
    from where, is an argument. The QUIC upgrade of a probed socket
    ([connect_quic], [accept_quic]) and the log lines are not modelled. *)

From Stdlib Require Import Sorting.Sorted.
From S2P Require Import Prelude Canonical Security Primitives KeySession Binding Net Candidates Racing Reconnect.

Definition PROBE_MAGIC : bytes := str "RCP1".
Definition MAX_PROBE_PACKET_BYTES : Z := 2304.
Definition MAX_PROBE_TOKEN_BYTES : Z := 2048.
Definition DEFAULT_PROBE_RATE_LIMIT : Z := 4.
Definition DEFAULT_PROBE_RATE_WINDOW_MILLIS : Z := 1000.

Record P2pProbePacket := {
  pp_session_id : Z;
  pp_candidate_id : Z;
  pp_role : SessionRole;
  pp_token : bytes;
  pp_binding_hash : bytes;
  pp_probe_nonce : bytes }.

#[global] Instance P2pProbePacket_eq_dec : EqDecision P2pProbePacket.
Proof. solve_decision. Defined.

Definition probe_packet_new (a : EphemeralCandidateAuthorization) (role : SessionRole) (nonce : bytes)
    : result BindingError P2pProbePacket :=
  _ ← ensure (negb ((role =! a.(ea_role)) || (nonce =! repeat x00 32))) ProbeRoleMismatch;
  Ok {| pp_session_id := a.(ea_session_id); pp_candidate_id := a.(ea_candidate_id);
        pp_role := role; pp_token := a.(ea_token); pp_binding_hash := a.(ea_binding_hash);
        pp_probe_nonce := nonce |}.

(** ** Packets *)

Definition probe_role_byte (r : SessionRole) : byte :=
  match r with Controller => x01 | Controlled => x02 end.

Definition encode_probe_packet (p : P2pProbePacket) : result BindingError bytes :=
  _ ← ensure (negb ((p.(pp_token) =! []) || (MAX_PROBE_TOKEN_BYTES <? len p.(pp_token)))) ProbeMalformed;
  token_len ← ok_or (if len p.(pp_token) <? 2 ^ 16 then Some (len p.(pp_token)) else None) ProbeMalformed;
  Ok (PROBE_MAGIC ++ be_bytes 16 p.(pp_session_id) ++ be_bytes 16 p.(pp_candidate_id)
      ++ [probe_role_byte p.(pp_role)] ++ be_bytes 2 token_len ++ p.(pp_token)
      ++ p.(pp_binding_hash) ++ p.(pp_probe_nonce)).

(** [bytes.get(offset..offset + n)] with the new offset; the offsets stay far
    below the range of [usize]. *)
Definition take_array (n : nat) (bs : bytes) (offset : nat) : result BindingError (bytes * nat) :=
  let stop := (offset + n)%nat in
  if (stop <=? length bs)%nat then Ok (slice bs offset stop, stop) else Err ProbeMalformed.

Definition decode_probe_role (b : bytes) : result BindingError SessionRole :=
  match b with
  | [x01] => Ok Controller
  | [x02] => Ok Controlled
  | _ => Err ProbeMalformed
  end.

Definition decode_probe_packet (bs : bytes) : result BindingError P2pProbePacket :=
  _ ← ensure (negb ((MAX_PROBE_PACKET_BYTES <? len bs) || (len bs <? 4)
                    || (slice bs 0 4 ≠! PROBE_MAGIC))) ProbeMalformed;
  '(session_id, offset) ← take_array 16 bs 4;
  '(candidate_id, offset) ← take_array 16 bs offset;
  '(role, offset) ← take_array 1 bs offset;
  role ← decode_probe_role role;
  '(token_len, offset) ← take_array 2 bs offset;
  let token_len := be_val token_len in
  _ ← ensure (negb ((token_len =? 0) || (MAX_PROBE_TOKEN_BYTES <? token_len))) ProbeMalformed;
  '(token, offset) ← take_array (Z.to_nat token_len) bs offset;
  '(binding_hash, offset) ← take_array 32 bs offset;
  '(probe_nonce, offset) ← take_array 32 bs offset;
  _ ← ensure (negb ((negb (offset =? length bs)%nat) || (probe_nonce =! repeat x00 32))) ProbeMalformed;
  Ok {| pp_session_id := be_val session_id; pp_candidate_id := be_val candidate_id;
        pp_role := role; pp_token := token; pp_binding_hash := binding_hash;
        pp_probe_nonce := probe_nonce |}.

(** ** Rate limiter *)

Record P2pProbeRateLimiter := {
  rl_max_attempts : Z;
  rl_window_millis : Z;
  rl_attempts : gmap (Z * Z) (list Z) }.

Definition rate_limiter_default : P2pProbeRateLimiter :=
  {| rl_max_attempts := DEFAULT_PROBE_RATE_LIMIT;
     rl_window_millis := DEFAULT_PROBE_RATE_WINDOW_MILLIS; rl_attempts := ∅ |}.

Definition rate_limiter_new (max_attempts window_millis : Z) : result BindingError P2pProbeRateLimiter :=
  _ ← ensure (negb ((max_attempts =? 0) || (window_millis =? 0))) BindingInvalidState;
  Ok {| rl_max_attempts := max_attempts; rl_window_millis := window_millis; rl_attempts := ∅ |}.

(** [while attempts.front().is_some_and(|v| *v <= oldest) { attempts.pop_front(); }]. *)
Fixpoint pop_old (oldest : Z) (attempts : list Z) : list Z :=
  match attempts with
  | v :: rest => if v <=? oldest then pop_old oldest rest else attempts
  | [] => []
  end.

Definition rate_check (l : P2pProbeRateLimiter) (session_id candidate_id now : Z)
    : result BindingError unit * P2pProbeRateLimiter :=
  let oldest_allowed := sat_sub now l.(rl_window_millis) in
  let k := (session_id, candidate_id) in
  let attempts := pop_old oldest_allowed (default [] (l.(rl_attempts) !! k)) in
  let store attempts := {| rl_max_attempts := l.(rl_max_attempts);
                           rl_window_millis := l.(rl_window_millis);
                           rl_attempts := <[k := attempts]> l.(rl_attempts) |} in
  if l.(rl_max_attempts) <=? len attempts then (Err ProbeRateLimited, store attempts)
  else (Ok tt, store (attempts ++ [now])).

Definition transport_kind (p : TransportPath) : result BindingError TransportKind :=
  match p with
  | LanDirect => Ok KLanDirect
  | UdpP2p => Ok KUdpP2p
  | QuicRelay => Ok KQuicRelay
  | Tls443Relay => Ok KTls443Relay
  end.

Definition p2p_remote_endpoint (c : ConnectionCandidateDto) (ns : list LocalNetwork)
    : result BindingError SocketAddr :=
  match c.(cd_kind) with
  | LanDirect => validate_lan_probe_scope c.(cd_endpoint) ns
  | UdpP2p => ok_or (parse_socket_addr c.(cd_endpoint)) InvalidEndpoint
  | _ => Err InvalidCandidateKindSource
  end.

Record CandidatePairInput := {
  cp_controller : ConnectionCandidateDto;
  cp_controlled : ConnectionCandidateDto;
  cp_remote_authorization : option EphemeralCandidateAuthorization }.

Record ValidatedCandidatePath := {
  vp_controller_candidate_id : Z;
  vp_controlled_candidate_id : Z;
  vp_remote_candidate : ConnectionCandidateDto;
  vp_binding : SecurePathBinding }.

Record CandidateRaceOrchestrator := {
  or_race : PathRace;
  or_paths : list ValidatedCandidatePath;
  or_authorizations : list (option EphemeralCandidateAuthorization) }.

Section operations.
Context `{P : Primitives}.

(** [P2pProbeReplayGuard::validate] keeps the same map as [ProbeReplayGuard]. *)
Definition p2p_probe_checks (c : ConnectionCandidateDto) (a : EphemeralCandidateAuthorization)
    (p : P2pProbePacket) (now : Z) : result BindingError unit :=
  _ ← validate_ephemeral_candidate_authorization c a now;
  _ ← ensure (negb (negb (p.(pp_session_id) =? c.(cd_session_id))
                    || negb (p.(pp_candidate_id) =? c.(cd_candidate_id))
                    || (p.(pp_role) =! c.(cd_role)))) ProbeRoleMismatch;
  _ ← ensure (p.(pp_token) =! a.(ea_token)) TokenMismatch;
  ensure (p.(pp_binding_hash) =! a.(ea_binding_hash)) TokenBindingMismatch.

Definition p2p_probe_validate (g : ProbeReplayGuard) (c : ConnectionCandidateDto)
    (a : EphemeralCandidateAuthorization) (p : P2pProbePacket) (now : Z)
    : result BindingError unit * ProbeReplayGuard :=
  match p2p_probe_checks c a p now with
  | Err e => (Err e, g)
  | Ok _ =>
      let seen := retain_unexpired now g.(pr_seen) in
      let k : probe_key := (p.(pp_session_id), p.(pp_candidate_id), p.(pp_role), p.(pp_probe_nonce)) in
      (match seen !! k with Some _ => Err ProbeReplay | None => Ok tt end,
       {| pr_seen := <[k := a.(ea_expires_at)]> seen |})
  end.

(** [probe_authorized_candidate] up to the send: the datagram and its target. *)
Definition probe_datagram (c : ConnectionCandidateDto) (a : EphemeralCandidateAuthorization)
    (role : SessionRole) (nonce : bytes) (ns : list LocalNetwork) (l : P2pProbeRateLimiter) (now : Z)
    : result BindingError (SocketAddr * bytes) * P2pProbeRateLimiter :=
  match (_ ← validate_ephemeral_candidate_authorization c a now; p2p_remote_endpoint c ns) with
  | Err e => (Err e, l)
  | Ok remote =>
      let '(limited, l) := rate_check l c.(cd_session_id) c.(cd_candidate_id) now in
      (_ ← limited;
       p ← probe_packet_new a role nonce;
       encoded ← encode_probe_packet p;
       Ok (remote, encoded), l)
  end.

(** [probe_authorized_candidate] from the datagram it received: the remote and
    the path of the probed socket. *)
Definition receive_probe_echo (c : ConnectionCandidateDto) (remote : SocketAddr) (encoded : bytes)
    (echoed : bytes) (peer : SocketAddr) : result BindingError (SocketAddr * TransportKind) :=
  _ ← ensure (negb ((peer ≠! remote) || negb (len echoed =? len encoded) || (echoed ≠! encoded)))
        ProbeMalformed;
  kind ← transport_kind c.(cd_kind);
  Ok (remote, kind).

(** [accept_authorized_probe] on a datagram received from [peer]: the remote, the
    path and the bytes echoed to [peer]. *)
Definition accept_authorized_probe (expected_peer : SocketAddr) (c : ConnectionCandidateDto)
    (a : EphemeralCandidateAuthorization) (ns : list LocalNetwork) (g : ProbeReplayGuard) (now : Z)
    (encoded : bytes) (peer : SocketAddr)
    : result BindingError (SocketAddr * TransportKind * bytes) * ProbeReplayGuard :=
  match (_ ← validate_ephemeral_candidate_authorization c a now;
         _ ← (if c.(cd_kind) =! LanDirect
              then _ ← validate_lan_probe_scope (socket_to_string expected_peer) ns; Ok tt
              else Ok tt);
         _ ← ensure (negb ((peer ≠! expected_peer) || (MAX_PROBE_PACKET_BYTES <? len encoded)))
               ProbeMalformed;
         decode_probe_packet encoded) with
  | Err e => (Err e, g)
  | Ok packet =>
      let '(valid, g) := p2p_probe_validate g c a packet now in
      (_ ← valid; kind ← transport_kind c.(cd_kind); Ok (peer, kind, encoded), g)
  end.

(** One iteration of the loop of [CandidateRaceOrchestrator::new]. *)
Definition validate_pair (local_role : SessionRole) (ns : list LocalNetwork) (digest : bytes) (now : Z)
    (i : CandidatePairInput) : result BindingError (ConnectionCandidate * ValidatedCandidatePath) :=
  controller_id ← candidate_id i.(cp_controller);
  controlled_id ← candidate_id i.(cp_controlled);
  _ ← ensure ((controller_id =? i.(cp_controller).(cd_candidate_id))
              && (controlled_id =? i.(cp_controlled).(cd_candidate_id))) CandidateIdMismatch;
  _ ← ensure ((i.(cp_controller).(cd_session_id) =? i.(cp_controlled).(cd_session_id))
              && (i.(cp_controller).(cd_role) =! Controller)
              && (i.(cp_controlled).(cd_role) =! Controlled)
              && (i.(cp_controller).(cd_kind) =! i.(cp_controlled).(cd_kind))
              && (i.(cp_controller).(cd_relay_node_id) =! i.(cp_controlled).(cd_relay_node_id)))
        InvalidCandidateKindSource;
  let remote := match local_role with
                | Controller => i.(cp_controlled)
                | Controlled => i.(cp_controller)
                end in
  path_kind ← transport_kind remote.(cd_kind);
  pair_id ← candidate_pair_id remote.(cd_session_id) controller_id controlled_id remote.(cd_kind)
              remote.(cd_relay_node_id);
  _ ← match path_kind with
      | KLanDirect | KUdpP2p =>
          a ← ok_or i.(cp_remote_authorization) TokenMismatch;
          _ ← validate_ephemeral_candidate_authorization remote a now;
          _ ← p2p_remote_endpoint remote ns;
          Ok tt
      | KQuicRelay | KTls443Relay =>
          ensure (negb (bool_decide (is_Some i.(cp_remote_authorization)))) InvalidCandidateKindSource
      end;
  Ok ({| cand_kind := path_kind; cand_endpoint := remote.(cd_endpoint); cand_rtt_ms := remote.(cd_rtt_ms) |},
      {| vp_controller_candidate_id := controller_id; vp_controlled_candidate_id := controlled_id;
         vp_remote_candidate := remote;
         vp_binding := {| spb_transport_path := i.(cp_controller).(cd_kind);
                          spb_candidate_pair_id := pair_id;
                          spb_relay_node_id := i.(cp_controller).(cd_relay_node_id);
                          spb_permissions_digest := digest |} |}).

Fixpoint validate_pairs (local_role : SessionRole) (ns : list LocalNetwork) (digest : bytes) (now : Z)
    (inputs : list CandidatePairInput)
    : result BindingError (list ConnectionCandidate * list ValidatedCandidatePath
                           * list (option EphemeralCandidateAuthorization)) :=
  match inputs with
  | [] => Ok ([], [], [])
  | i :: inputs =>
      '(candidate, path) ← validate_pair local_role ns digest now i;
      '(candidates, paths, auths) ← validate_pairs local_role ns digest now inputs;
      Ok (candidate :: candidates, path :: paths, i.(cp_remote_authorization) :: auths)
  end.

Definition orchestrator_new (local_role : SessionRole) (inputs : list CandidatePairInput)
    (ns : list LocalNetwork) (digest : bytes) (now : Z) (config : RaceConfig)
    : result BindingError CandidateRaceOrchestrator :=
  '(candidates, paths, auths) ← validate_pairs local_role ns digest now inputs;
  Ok {| or_race := race_new candidates now config; or_paths := paths; or_authorizations := auths |}.
End operations.

Definition set_race (o : CandidateRaceOrchestrator) (r : PathRace) : CandidateRaceOrchestrator :=
  {| or_race := r; or_paths := o.(or_paths); or_authorizations := o.(or_authorizations) |}.

Definition or_take_due_attempts (o : CandidateRaceOrchestrator) (now : Z)
    : list RaceAttempt * CandidateRaceOrchestrator :=
  let '(out, r) := take_due_attempts o.(or_race) now in (out, set_race o r).

Definition or_path (o : CandidateRaceOrchestrator) (id : nat) : option ValidatedCandidatePath :=
  o.(or_paths) !! id.

Definition or_authorization (o : CandidateRaceOrchestrator) (id : nat)
    : option EphemeralCandidateAuthorization :=
  a ← o.(or_authorizations) !! id; a.

Definition or_record_failure (o : CandidateRaceOrchestrator) (id : nat)
    : result BindingError unit * CandidateRaceOrchestrator :=
  let '(r, race) := record_failure o.(or_race) id in
  (map_err (λ _, BindingInvalidState) r, set_race o race).

Definition or_record_success (o : CandidateRaceOrchestrator) (id : nat) (m : LinkMetrics)
    : result BindingError unit * CandidateRaceOrchestrator :=
  let '(r, race) := record_success o.(or_race) id m in
  (map_err (λ _, BindingInvalidState) r, set_race o race).

Definition winner_binding (o : CandidateRaceOrchestrator) : option SecurePathBinding :=
  w ← best_success o.(or_race);
  vp_binding <$> (o.(or_paths) !! w.(rw_attempt_id)).

Definition reconnect_decision_for (active selected : SecurePathBinding) : KeyReuseDecision :=
  if active =! selected then ResumeExistingKeys else RekeyRequired.

(** ** The packet codec *)

Definition probe_bytes (p : P2pProbePacket) : bytes :=
  PROBE_MAGIC ++ be_bytes 16 p.(pp_session_id) ++ be_bytes 16 p.(pp_candidate_id)
  ++ [probe_role_byte p.(pp_role)] ++ be_bytes 2 (len p.(pp_token)) ++ p.(pp_token)
  ++ p.(pp_binding_hash) ++ p.(pp_probe_nonce).

(** What the types and [P2pProbePacket::new] guarantee. *)
Record probe_typed (p : P2pProbePacket) : Prop := {
  bt_session : in_u128 p.(pp_session_id);
  bt_candidate : in_u128 p.(pp_candidate_id);
  bt_hash : length p.(pp_binding_hash) = 32%nat;
  bt_nonce : length p.(pp_probe_nonce) = 32%nat;
  bt_nonzero : p.(pp_probe_nonce) ≠ repeat x00 32 }.

Definition probe_fits (p : P2pProbePacket) : Prop :=
  p.(pp_token) ≠ [] ∧ len p.(pp_token) ≤ MAX_PROBE_TOKEN_BYTES.

Lemma take_array_iff n pre s x o :
  take_array n (pre ++ s) (length pre) = Ok (x, o) ↔
  length x = n ∧ ∃ rest, s = x ++ rest ∧ o = length (pre ++ x).
Proof.
  unfold take_array. rewrite length_app.
  destruct (Nat.leb_spec (length pre + n) (length pre + length s)) as [Hl|Hl].
  - rewrite (slice_app_skip _ _ _ _ (length pre)) by lia.
    replace (length pre - length pre)%nat with O by lia.
    replace (length pre + n - length pre)%nat with n by lia. split.
    + intros [= <- <-]. rewrite slice_length by lia. split; [lia|]. exists (drop n s).
      rewrite length_app, slice_length by lia. split; [|lia].
      unfold slice. by rewrite drop_0, Nat.sub_0_r, take_drop.
    + intros (Hx & rest & -> & ->). rewrite slice_app_here by done. by rewrite length_app, Hx.
  - split; [done|]. intros (Hx & rest & -> & _). rewrite length_app in Hl. lia.
Qed.

(** One field read at an offset, taken apart or put together. *)
Lemma take_step {B} n pre s (f : bytes * nat → result BindingError B) b :
  (take_array n (pre ++ s) (length pre) ≫= f) = Ok b ↔
  ∃ x rest, length x = n ∧ s = x ++ rest ∧ f (x, length (pre ++ x)) = Ok b.
Proof.
  rewrite bind_ok. split.
  - intros ([x o] & (Hx & rest & -> & ->)%take_array_iff & Hf). eauto 6.
  - intros (x & rest & Hx & -> & Hf). exists (x, length (pre ++ x)). split; [|done].
    apply take_array_iff. eauto.
Qed.

Lemma decode_probe_role_ok b r : decode_probe_role b = Ok r ↔ b = [probe_role_byte r].
Proof.
  split; [|intros ->; by destruct r].
  destruct b as [|[] [|? ?]]; cbn; try done; intros [= <-]; done.
Qed.

Ltac take_in H :=
  let x := fresh "x" in let rest := fresh "rest" in let Hx := fresh "Hx" in
  apply take_step in H as (x & rest & Hx & -> & H);
  match type of Hx with length ?y = _ => rewrite ?(app_assoc _ y rest) in H end.

Ltac take_out x :=
  apply take_step; exists x; eexists;
  split; [by rewrite ?be_bytes_length|split; [reflexivity|]]; rewrite ?(app_assoc _ x).

Lemma probe_len p :
  length p.(pp_binding_hash) = 32%nat → length p.(pp_probe_nonce) = 32%nat →
  len p.(pp_token) ≤ 2048 → 4 ≤ len (probe_bytes p) ≤ MAX_PROBE_PACKET_BYTES.
Proof.
  intros Hh%len_length Hn%len_length Ht. unfold probe_bytes, MAX_PROBE_PACKET_BYTES.
  autorewrite with rctl_len. rewrite Hh, Hn. change (len PROBE_MAGIC) with 4.
  pose proof (len_nonneg (pp_token p)). lia.
Qed.

Lemma decode_probe_iff bs p :
  decode_probe_packet bs = Ok p ↔ probe_typed p ∧ probe_fits p ∧ bs = probe_bytes p.
Proof.
  unfold decode_probe_packet. split.
  - intros H. apply bind_ok in H as ([] & Hm & H). apply ensure_ok in Hm.
    rewrite !negb_orb, negb_involutive in Hm. split_bools.
    assert (∃ s, bs = PROBE_MAGIC ++ s) as [s ->].
    { exists (drop 4 bs). match goal with H : slice bs 0 4 = _ |- _ => rewrite <-H end.
      unfold slice. by rewrite drop_0, take_drop. }
    change (take_array 16 (PROBE_MAGIC ++ s) 4)
      with (take_array 16 (PROBE_MAGIC ++ s) (length PROBE_MAGIC)) in H.
    take_in H. take_in H. take_in H.
    apply bind_ok in H as (r & ->%decode_probe_role_ok & H). take_in H.
    apply bind_ok in H as ([] & Ht & H). apply ensure_ok in Ht. split_bools.
    take_in H. take_in H. take_in H.
    apply bind_ok in H as ([] & He & H). apply ensure_ok in He.
    rewrite negb_orb, negb_involutive in He. split_bools.
    injection H as <-.
    match goal with H : (_ =? _)%nat = true |- _ => apply Nat.eqb_eq in H; rewrite (length_app _ rest) in H end.
    assert (rest = []) as -> by (destruct rest; [done|cbn in *; lia]).
    assert (be_val x1 = len x2) as El
      by (pose proof (be_val_range x1); unfold len; lia).
    split; [|split].
    + split; cbn; try done.
      * replace 128 with (8 * Z.of_nat (length x)) by (rewrite Hx; done). apply be_val_range.
      * replace 128 with (8 * Z.of_nat (length x0)) by (rewrite Hx0; done). apply be_val_range.
    + split; cbn; [intros ->; by rewrite El in *|lia].
    + unfold probe_bytes. cbn [pp_session_id pp_candidate_id pp_role pp_token pp_binding_hash pp_probe_nonce].
      rewrite <-El, !be_bytes_val' by done. by rewrite app_nil_r.
  - intros ([? ? Hh Hn ?] & [Ht Htl] & ->). unfold MAX_PROBE_TOKEN_BYTES in *.
    pose proof (len_nonneg (pp_token p)).
    assert (len (pp_token p) ≠ 0) by (intros E; by apply Ht, len_zero_nil).
    pose proof (probe_len p Hh Hn Htl).
    apply bind_ok. exists tt. split.
    { apply ensure_ok. rewrite !negb_orb, negb_involutive, !andb_true_iff, !negb_true_iff, !Z.ltb_ge.
      split; [lia|]. by rewrite bool_decide_eq_true. }
    unfold probe_bytes.
    change (take_array 16 (PROBE_MAGIC ++ ?s) 4) with (take_array 16 (PROBE_MAGIC ++ s) (length PROBE_MAGIC)).
    take_out (be_bytes 16 (pp_session_id p)). take_out (be_bytes 16 (pp_candidate_id p)).
    take_out [probe_role_byte (pp_role p)].
    apply bind_ok. eexists. split; [by apply decode_probe_role_ok|].
    take_out (be_bytes 2 (len (pp_token p))).
    rewrite (be_val_bytes_small 2 (len (pp_token p))) by (split; [done|cbn; lia]). pass.
    apply take_step; exists (pp_token p); eexists. split; [unfold len; lia|].
    split; [reflexivity|]. rewrite (app_assoc _ (pp_token p)).
    take_out (pp_binding_hash p).
    apply take_step. exists (pp_probe_nonce p), []. split; [done|].
    split; [by rewrite app_nil_r|]. rewrite Nat.eqb_refl, bool_decide_eq_false_2 by done.
    rewrite !be_val_bytes_small by done. by destruct p.
Qed.

Lemma encode_probe_iff p bs :
  encode_probe_packet p = Ok bs ↔ probe_fits p ∧ bs = probe_bytes p.
Proof.
  unfold encode_probe_packet, probe_fits, MAX_PROBE_TOKEN_BYTES. split.
  - intros H. invert_ok. destruct (Z.ltb_spec (len (pp_token p)) (2 ^ 16)); [|done]. simplify_eq. done.
  - intros ([Ht Hl] & ->). pass. destruct (Z.ltb_spec (len (pp_token p)) (2 ^ 16)); [done|lia].
Qed.

(** The probe packets are an exact codec: for every packet of the right types
    with a nonce that is not zero, a byte string is its encoding exactly when
    decoding gives the packet back, and every packet that decodes has the right
    types and a nonce that is not zero. *)
Theorem probe_codec_exact :
  (∀ p bs, probe_typed p → encode_probe_packet p = Ok bs ↔ decode_probe_packet bs = Ok p) ∧
  (∀ bs p, decode_probe_packet bs = Ok p → probe_typed p).
Proof.
  split.
  - intros p bs Hp. rewrite encode_probe_iff, decode_probe_iff. tauto.
  - intros bs p H. by apply decode_probe_iff in H as [? _].
Qed.

(** ** What the rate limiter admits *)

Record rate_request := { rq_key : Z * Z; rq_time : Z }.

(** The answers, each with the requests admitted before. *)
Fixpoint rate_run (l : P2pProbeRateLimiter) (acc rs : list rate_request)
    : list (list rate_request * result BindingError unit) :=
  match rs with
  | [] => []
  | r :: rs =>
      let '(a, l) := rate_check l r.(rq_key).1 r.(rq_key).2 r.(rq_time) in
      (acc, a) :: rate_run l (if is_ok a then acc ++ [r] else acc) rs
  end.

Definition times (k : Z * Z) (acc : list rate_request) : list Z :=
  rq_time <$> filter (λ r, r.(rq_key) = k) acc.

(** The admissions of a key later than [oldest]. *)
Definition recent (oldest : Z) (k : Z * Z) (acc : list rate_request) : list Z :=
  filter (λ t, oldest < t) (times k acc).

Lemma times_snoc k acc r :
  times k (acc ++ [r]) = times k acc ++ (if decide (r.(rq_key) = k) then [r.(rq_time)] else []).
Proof.
  unfold times. rewrite filter_app, fmap_app, filter_cons, filter_nil.
  by destruct (decide (rq_key r = k)).
Qed.

Lemma filter_kept b (l : list Z) : Forall (λ t, b < t) l → filter (λ t, b < t) l = l.
Proof.
  induction 1 as [|t l Ht _ IH]; [done|]. rewrite filter_cons, decide_True by done. by rewrite IH.
Qed.

Lemma pop_old_filter b l : StronglySorted Z.le l → pop_old b l = filter (λ t, b < t) l.
Proof.
  induction 1 as [|v l Hs IH Hf]; [done|]. cbn [pop_old]. rewrite filter_cons.
  destruct (Z.leb_spec v b); destruct (decide (b < v)); try lia; [done|].
  f_equal. symmetry. apply filter_kept. eapply Forall_impl; [exact Hf|]. cbn. lia.
Qed.

Lemma filter_later b b' (l : list Z) : b ≤ b' → filter (λ t : Z, b' < t) (filter (λ t, b < t) l) = filter (λ t, b' < t) l.
Proof. intros Hb. apply list_filter_filter_l. intros t. lia. Qed.

Lemma Forall_filter_sub (R Q : Z → Prop) `{∀ x, Decision (Q x)} l :
  Forall R l → Forall R (filter Q l).
Proof. rewrite !Forall_forall. intros Hl x [_ Hx]%list_elem_of_filter. by apply Hl. Qed.

Lemma sorted_filter (Q : Z → Prop) `{∀ x, Decision (Q x)} l :
  StronglySorted Z.le l → StronglySorted Z.le (filter Q l).
Proof.
  induction 1 as [|v l Hs IH Hf]; [constructor|]. rewrite filter_cons.
  destruct (decide (Q v)); [|done]. constructor; [done|]. by apply Forall_filter_sub.
Qed.

Lemma sorted_snoc (l : list Z) t :
  StronglySorted Z.le l → Forall (λ x, x ≤ t) l → StronglySorted Z.le (l ++ [t]).
Proof.
  induction 1 as [|v l Hs IH Hf]; intros Ht; cbn; [by repeat constructor|].
  apply Forall_cons in Ht as [Hv Ht]. constructor; [by apply IH|].
  apply Forall_app. split; [done|]. by apply Forall_singleton.
Qed.

(** The deque of a key holds what is still recent at time [now]. *)
Record rate_knows (l : P2pProbeRateLimiter) (acc : list rate_request) (now : Z) : Prop := {
  rk_recent : ∀ k b, sat_sub now l.(rl_window_millis) ≤ b →
    filter (λ t, b < t) (default [] (l.(rl_attempts) !! k)) = recent b k acc;
  rk_sorted : ∀ k, StronglySorted Z.le (default [] (l.(rl_attempts) !! k));
  rk_past : ∀ k, Forall (λ t, t ≤ now) (default [] (l.(rl_attempts) !! k));
  rk_bound : ∀ k, len (recent (sat_sub now l.(rl_window_millis)) k acc) ≤ l.(rl_max_attempts) }.

(** Admitted exactly when fewer than the maximum are recent. *)
Definition rate_answer (max window : Z) (acc : list rate_request) (r : rate_request)
    (a : result BindingError unit) : Prop :=
  let n := len (recent (sat_sub r.(rq_time) window) r.(rq_key) acc) in
  (n < max ∧ a = Ok tt) ∨ (n = max ∧ a = Err ProbeRateLimited).

Lemma recent_snoc b k acc r :
  recent b k (acc ++ [r]) =
  recent b k acc ++ (if decide (r.(rq_key) = k ∧ b < r.(rq_time)) then [r.(rq_time)] else []).
Proof.
  unfold recent. rewrite times_snoc, filter_app. f_equal.
  destruct (decide (rq_key r = k)), (decide (rq_key r = k ∧ b < rq_time r)) as [[? ?]|]; try tauto.
  - by rewrite filter_cons, decide_True.
  - rewrite filter_cons, decide_False by tauto. done.
Qed.

Lemma recent_mono b b' k acc : b ≤ b' → len (recent b' k acc) ≤ len (recent b k acc).
Proof.
  intros Hb. unfold recent. rewrite <-(filter_later b b') by done. unfold len.
  pose proof (length_filter (λ t, b' < t) (filter (λ t, b < t) (times k acc))). lia.
Qed.

Lemma rate_step l acc now r :
  rate_knows l acc now → now ≤ r.(rq_time) →
  let '(a, l') := rate_check l r.(rq_key).1 r.(rq_key).2 r.(rq_time) in
  rate_answer l.(rl_max_attempts) l.(rl_window_millis) acc r a ∧
  l'.(rl_max_attempts) = l.(rl_max_attempts) ∧ l'.(rl_window_millis) = l.(rl_window_millis) ∧
  rate_knows l' (if is_ok a then acc ++ [r] else acc) r.(rq_time).
Proof.
  intros K Hn. destruct K as [Kr Ks Kp Kb]. destruct r as [k t]. cbn [rq_key rq_time] in *.
  unfold rate_check. rewrite <-surjective_pairing.
  set (w := rl_window_millis l) in *. set (b := sat_sub t w).
  assert (sat_sub now w ≤ b) as Hb by (unfold b, sat_sub; lia).
  rewrite pop_old_filter by done. rewrite (Kr k b Hb).
  assert (∀ k', Forall (λ x, x ≤ t) (default [] (rl_attempts l !! k'))) as Hp.
  { intros k'. eapply Forall_impl; [apply Kp|]. cbn. lia. }
  assert (∀ k', len (recent b k' acc) ≤ rl_max_attempts l) as Hbound.
  { intros k'. etransitivity; [by apply recent_mono|apply Kb]. }
  assert (StronglySorted Z.le (recent b k acc) ∧ Forall (λ x, x ≤ t) (recent b k acc)) as [Hs Hf].
  { rewrite <-(Kr k b Hb). split; [by apply sorted_filter|by apply Forall_filter_sub]. }
  destruct (Z.leb_spec (rl_max_attempts l) (len (recent b k acc))) as [Hfull|Hroom].
  - split; [right; split; [cbn; fold b; specialize (Hbound k); lia|done]|].
    split; [done|]. split; [done|]. cbn [is_ok]. split; cbn [rl_attempts rl_window_millis rl_max_attempts].
    + intros k' b' Hb'. destruct (decide (k = k')) as [<-|Hk].
      * rewrite lookup_insert_eq. cbn [from_option id]. unfold recent. by apply filter_later.
      * rewrite lookup_insert_ne by done. apply Kr. fold w b in Hb'. lia.
    + intros k'. destruct (decide (k = k')) as [<-|Hk]; by rewrite ?lookup_insert_eq, ?lookup_insert_ne.
    + intros k'. destruct (decide (k = k')) as [<-|Hk]; by rewrite ?lookup_insert_eq, ?lookup_insert_ne.
    + done.
  - split; [by left|]. split; [done|]. split; [done|]. cbn [is_ok].
    split; cbn [rl_attempts rl_window_millis rl_max_attempts].
    + intros k' b' Hb'. rewrite recent_snoc. cbn [rq_key rq_time].
      destruct (decide (k = k')) as [<-|Hk].
      * rewrite lookup_insert_eq. cbn [from_option id]. rewrite filter_app. f_equal.
        { unfold recent. by apply filter_later. }
        rewrite filter_cons. by destruct (decide (b' < t)), (decide (k = k ∧ b' < t)); try tauto.
      * rewrite lookup_insert_ne, decide_False by tauto. rewrite app_nil_r. apply Kr.
        fold b in Hb'. lia.
    + intros k'. destruct (decide (k = k')) as [<-|Hk].
      * rewrite lookup_insert_eq. by apply sorted_snoc.
      * by rewrite lookup_insert_ne.
    + intros k'. destruct (decide (k = k')) as [<-|Hk].
      * rewrite lookup_insert_eq. apply Forall_app. split; [done|]. apply Forall_singleton. lia.
      * by rewrite lookup_insert_ne.
    + intros k'. rewrite recent_snoc. cbn [rq_key rq_time]. fold b. specialize (Hbound k').
      destruct (decide _) as [[<- _]|]; autorewrite with rctl_len; lia.
Qed.

Lemma rate_run_from l acc now rs i r :
  rate_knows l acc now → StronglySorted Z.le (now :: (rq_time <$> rs)) → rs !! i = Some r →
  ∃ acc' a, rate_run l acc rs !! i = Some (acc', a) ∧
    rate_answer l.(rl_max_attempts) l.(rl_window_millis) acc' r a.
Proof.
  revert l acc now i. induction rs as [|r' rs IH]; intros l acc now i K Hs Hi; [done|].
  apply StronglySorted_inv in Hs as [Hs Hn]. apply Forall_cons in Hn as [Hn _].
  pose proof (rate_step l acc now r' K Hn) as Hstep. cbn [rate_run].
  destruct (rate_check l _ _ _) as [a l']. destruct Hstep as (Ha & Hm & Hw & K').
  destruct i as [|i]; cbn in Hi.
  - injection Hi as ->. exists acc, a. by split.
  - rewrite <-Hm, <-Hw. by apply (IH _ _ (rq_time r')).
Qed.

(** For any sequence of probes under a clock that does not run backwards,
    the rate limiter admits a probe exactly when fewer than [max_attempts]
    probes of the same session and candidate were admitted within the last
    [window_millis], and otherwise exactly [max_attempts] were and it answers
    [ProbeRateLimited]: the maximum is never exceeded in any window, and it is
    always available. *)
Theorem rate_limit_exact max window l rs i r :
  0 ≤ max → rate_limiter_new max window = Ok l →
  StronglySorted Z.le (rq_time <$> rs) → rs !! i = Some r →
  ∃ acc a, rate_run l [] rs !! i = Some (acc, a) ∧ rate_answer max window acc r a.
Proof.
  intros Hmax Hl Hs Hi. unfold rate_limiter_new in Hl. invert_ok.
  destruct rs as [|r0 rs]; [done|].
  apply (rate_run_from {| rl_max_attempts := max; rl_window_millis := window; rl_attempts := ∅ |}
    [] (rq_time r0)); [| |done].
  - split; cbn; intros; rewrite ?lookup_empty; try done; constructor.
  - constructor; [done|]. apply StronglySorted_inv in Hs as [Hs Hf].
    cbn. constructor; [lia|]. done.
Qed.

Lemma rate_limit_exact_witness :
  let rs := [{| rq_key := (1, 2); rq_time := 100 |}; {| rq_key := (1, 2); rq_time := 150 |};
             {| rq_key := (1, 2); rq_time := 200 |}; {| rq_key := (1, 2); rq_time := 1100 |}] in
  ∃ acc a, rate_run {| rl_max_attempts := 2; rl_window_millis := 1000; rl_attempts := ∅ |} [] rs !! 2%nat
      = Some (acc, a) ∧ rate_answer 2 1000 acc {| rq_key := (1, 2); rq_time := 200 |} a.
Proof.
  intros rs. apply (rate_limit_exact 2 1000); [lia|reflexivity| |reflexivity].
  repeat (constructor; [|]); cbn; repeat constructor; lia.
Defined.

(** ** One probe from end to end *)

Section probe_exchange.
Context `{P : Primitives}.

Lemma ephemeral_authorization_ok c a now :
  validate_ephemeral_candidate_authorization c a now = Ok tt →
  (a.(ea_session_id), a.(ea_device_id), a.(ea_role), a.(ea_candidate_id)) =
    (c.(cd_session_id), c.(cd_device_id), c.(cd_role), c.(cd_candidate_id)) ∧
  now ≤ a.(ea_expires_at) ≤ now + CANDIDATE_TOKEN_MAX_TTL_MILLIS ∧ a.(ea_token) ≠ [] ∧
  candidate_token_binding_hash c a.(ea_expires_at) = Ok a.(ea_binding_hash).
Proof.
  unfold validate_ephemeral_candidate_authorization, sat_sub. intros H. invert_ok.
  unfold CANDIDATE_TOKEN_MAX_TTL_MILLIS in *. split_and!; (congruence || lia).
Qed.

(** What a probe that is sent consists of. *)
Lemma probe_datagram_ok c a role nonce ns l now remote encoded l' :
  probe_datagram c a role nonce ns l now = (Ok (remote, encoded), l') →
  validate_ephemeral_candidate_authorization c a now = Ok tt ∧
  p2p_remote_endpoint c ns = Ok remote ∧ role ≠ a.(ea_role) ∧ nonce ≠ repeat x00 32 ∧
  let p := {| pp_session_id := a.(ea_session_id); pp_candidate_id := a.(ea_candidate_id);
              pp_role := role; pp_token := a.(ea_token); pp_binding_hash := a.(ea_binding_hash);
              pp_probe_nonce := nonce |} in
  probe_fits p ∧ encoded = probe_bytes p.
Proof.
  unfold probe_datagram. intros H.
  destruct (_ ≫= _) as [r|] eqn:E in H; [|done]. invert_ok.
  destruct (rate_check _ _ _ _) as [lim l'']. injection H as H _. unfold probe_packet_new in H. invert_ok.
  match goal with H : encode_probe_packet _ = Ok _ |- _ => apply encode_probe_iff in H as [Hf ->] end.
  by split_and!.
Qed.

(** A probe whose nonce is not held passes the guard, and is held afterwards. *)
Lemma probe_guard_pass g c a p now :
  p2p_probe_checks c a p now = Ok tt →
  let k : probe_key := (p.(pp_session_id), p.(pp_candidate_id), p.(pp_role), p.(pp_probe_nonce)) in
  retain_unexpired now g.(pr_seen) !! k = None →
  (p2p_probe_validate g c a p now).1 = Ok tt ∧
  (p2p_probe_validate g c a p now).2.(pr_seen) !! k = Some a.(ea_expires_at).
Proof.
  intros Hc k Hk. unfold p2p_probe_validate. rewrite Hc. cbn [fst snd pr_seen].
  fold k. rewrite Hk. by rewrite lookup_insert_eq.
Qed.

Lemma probe_guard_replay g c a p now e :
  p2p_probe_checks c a p now = Ok tt → now ≤ e →
  g.(pr_seen) !! ((p.(pp_session_id), p.(pp_candidate_id), p.(pp_role), p.(pp_probe_nonce)) : probe_key)
    = Some e →
  (p2p_probe_validate g c a p now).1 = Err ProbeReplay.
Proof.
  intros Hc Hn Hk. unfold p2p_probe_validate. rewrite Hc. cbn [fst].
  unfold retain_unexpired. rewrite map_lookup_filter, Hk. cbn. by rewrite option_guard_True.
Qed.

(** Accepting a well-formed packet from the expected peer is the guard's answer. *)
Lemma accept_packet peer c a ns g now encoded p kind :
  validate_ephemeral_candidate_authorization c a now = Ok tt →
  (c.(cd_kind) = LanDirect → is_ok (validate_lan_probe_scope (socket_to_string peer) ns) = true) →
  len encoded ≤ MAX_PROBE_PACKET_BYTES → decode_probe_packet encoded = Ok p →
  transport_kind c.(cd_kind) = Ok kind →
  accept_authorized_probe peer c a ns g now encoded peer =
  (_ ← (p2p_probe_validate g c a p now).1; Ok (peer, kind, encoded), (p2p_probe_validate g c a p now).2).
Proof.
  intros V Hs Hl Hd Hk. unfold accept_authorized_probe. rewrite V, Hd, Hk. cbn [mbind result_bind].
  assert ((if c.(cd_kind) =! LanDirect
           then _ ← validate_lan_probe_scope (socket_to_string peer) ns; Ok tt else Ok tt)
          = Ok (E := BindingError) tt) as ->.
  { case_bool_decide as El; [|done]. specialize (Hs El). by destruct (validate_lan_probe_scope _ _). }
  cbn [mbind result_bind]. rewrite bool_decide_eq_true_2 by done.
  destruct (Z.ltb_spec MAX_PROBE_PACKET_BYTES (len encoded)); [lia|]. cbn.
  by destruct (p2p_probe_validate g c a p now).
Qed.

Lemma issued_probe_checks c a role nonce now :
  validate_ephemeral_candidate_authorization c a now = Ok tt → role ≠ a.(ea_role) →
  p2p_probe_checks c a
    {| pp_session_id := a.(ea_session_id); pp_candidate_id := a.(ea_candidate_id);
       pp_role := role; pp_token := a.(ea_token); pp_binding_hash := a.(ea_binding_hash);
       pp_probe_nonce := nonce |} now = Ok tt.
Proof.
  intros V Hr. unfold p2p_probe_checks. rewrite V. cbn [mbind result_bind].
  apply ephemeral_authorization_ok in V as ([= Hs _ Hrole Hc] & _). rewrite Hrole in Hr.
  do 2 pass. by apply ensure_ok, bool_decide_eq_true_2.
Qed.
End probe_exchange.

(** A probe over a faithful network completes, once. When a side sends a
    probe for a candidate, the owner of the candidate, with an authorization
    that is valid on its clock too, the sender in scope and the nonce not held
    by its guard, accepts the datagram and echoes it; the sender accepts the
    echo; both agree on the path; and as long as the authorization lives the
    same datagram is refused as a replay. *)
Theorem probe_exchange_completes `{P : Primitives} c a role nonce ns ns' l l' now_p now_r
    remote encoded peer g :
  in_u128 a.(ea_session_id) → in_u128 a.(ea_candidate_id) →
  length a.(ea_binding_hash) = 32%nat → length nonce = 32%nat →
  probe_datagram c a role nonce ns l now_p = (Ok (remote, encoded), l') →
  validate_ephemeral_candidate_authorization c a now_r = Ok tt →
  (c.(cd_kind) = LanDirect → is_ok (validate_lan_probe_scope (socket_to_string peer) ns') = true) →
  retain_unexpired now_r g.(pr_seen) !! (a.(ea_session_id), a.(ea_candidate_id), role, nonce) = None →
  ∃ kind g',
    accept_authorized_probe peer c a ns' g now_r encoded peer = (Ok (peer, kind, encoded), g') ∧
    receive_probe_echo c remote encoded encoded remote = Ok (remote, kind) ∧
    ∀ now, validate_ephemeral_candidate_authorization c a now = Ok tt →
      (accept_authorized_probe peer c a ns' g' now encoded peer).1 = Err ProbeReplay.
Proof.
  intros Hs Hc Hh Hn (Vp & Hr & Hrole & Hnz & Hfit & ->)%probe_datagram_ok Vr Hscope Hfresh.
  set (p := {| pp_session_id := ea_session_id a |}) in *.
  assert (decode_probe_packet (probe_bytes p) = Ok p) as Hdec by (by apply decode_probe_iff).
  assert (len (probe_bytes p) ≤ MAX_PROBE_PACKET_BYTES) as Hlen
    by (apply probe_len; [done..|apply Hfit]).
  destruct (transport_kind (cd_kind c)) as [kind|] eqn:Hk; [|by destruct (cd_kind c)].
  assert (∀ now, validate_ephemeral_candidate_authorization c a now = Ok tt →
    p2p_probe_checks c a p now = Ok tt) as Hchk by (intros; by apply issued_probe_checks).
  destruct (probe_guard_pass g c a p now_r (Hchk _ Vr) Hfresh) as [Hok Hheld].
  exists kind, (p2p_probe_validate g c a p now_r).2. split_and!.
  - rewrite (accept_packet _ _ _ _ _ _ _ p kind) by done. by rewrite Hok.
  - unfold receive_probe_echo. rewrite Hk, Z.eqb_refl, !bool_decide_eq_true_2 by done. done.
  - intros now V. rewrite (accept_packet _ _ _ _ _ _ _ p kind) by done. cbn [fst].
    rewrite (probe_guard_replay _ _ _ _ _ (ea_expires_at a)); [done|by apply Hchk| |done].
    apply ephemeral_authorization_ok in V as (_ & ? & _). lia.
Qed.

(** ** Concrete inputs *)

Definition example_p2p_candidate : ConnectionCandidateDto := {|
  cd_candidate_id := 0; cd_session_id := 7; cd_device_id := str "device-a";
  cd_role := Controlled; cd_kind := LanDirect; cd_endpoint := str "192.168.1.2:50000";
  cd_source := LocalInterface; cd_observe_result_id := None; cd_priority := 1;
  cd_rtt_ms := None; cd_loss_ppm := None; cd_jitter_ms := None; cd_relay_node_id := None |}.

Definition example_ephemeral : EphemeralCandidateAuthorization := {|
  ea_session_id := 7; ea_device_id := str "device-a"; ea_role := Controlled; ea_candidate_id := 0;
  ea_token := str "token";
  ea_binding_hash := default [] (ok (@candidate_token_binding_hash toy example_p2p_candidate 1000));
  ea_expires_at := 1000 |}.

Definition example_network : LocalNetwork := {| ln_address := IpV4 0xC0A80109; ln_prefix_len := 24 |}.
Definition example_peer : SocketAddr := SockV4 0xC0A80107 51000.
Definition example_probe_bytes : bytes := probe_bytes
  {| pp_session_id := 7; pp_candidate_id := 0; pp_role := Controller; pp_token := str "token";
     pp_binding_hash := example_ephemeral.(ea_binding_hash); pp_probe_nonce := repeat x05 32 |}.

Lemma probe_exchange_completes_witness :
  ∃ kind g',
    @accept_authorized_probe toy example_peer example_p2p_candidate example_ephemeral [example_network]
      probe_guard_default 600 example_probe_bytes example_peer =
      (Ok (example_peer, kind, example_probe_bytes), g') ∧
    receive_probe_echo example_p2p_candidate (SockV4 0xC0A80102 50000) example_probe_bytes
      example_probe_bytes (SockV4 0xC0A80102 50000) = Ok (SockV4 0xC0A80102 50000, kind) ∧
    ∀ now, @validate_ephemeral_candidate_authorization toy example_p2p_candidate example_ephemeral now = Ok tt →
      (@accept_authorized_probe toy example_peer example_p2p_candidate example_ephemeral
        [example_network] g' now example_probe_bytes example_peer).1 = Err ProbeReplay.
Proof.
  apply (@probe_exchange_completes toy example_p2p_candidate example_ephemeral Controller (repeat x05 32)
    [example_network] [example_network] rate_limiter_default
    (@probe_datagram toy example_p2p_candidate example_ephemeral Controller (repeat x05 32)
      [example_network] rate_limiter_default 500).2 500 600);
    [split; done|split; done|vm_compute; reflexivity|reflexivity|vm_compute; reflexivity
    |vm_compute; reflexivity|intros _; vm_compute; reflexivity|vm_compute; reflexivity].
Defined.

(** ** The orchestrator *)

(** What is known of a pair that was let into the race. *)
Record pair_validated `{Primitives} (local_role : SessionRole) (ns : list LocalNetwork) (digest : bytes)
    (now : Z) (i : CandidatePairInput) (c : ConnectionCandidate) (p : ValidatedCandidatePath) : Prop := {
  pv_ids : candidate_id i.(cp_controller) = Ok i.(cp_controller).(cd_candidate_id) ∧
           candidate_id i.(cp_controlled) = Ok i.(cp_controlled).(cd_candidate_id);
  pv_roles : i.(cp_controller).(cd_role) = Controller ∧ i.(cp_controlled).(cd_role) = Controlled;
  pv_session : i.(cp_controller).(cd_session_id) = i.(cp_controlled).(cd_session_id);
  pv_remote : p.(vp_remote_candidate) =
    match local_role with Controller => i.(cp_controlled) | Controlled => i.(cp_controller) end;
  pv_candidate : c.(cand_endpoint) = p.(vp_remote_candidate).(cd_endpoint) ∧
    path_of_kind c.(cand_kind) = p.(vp_remote_candidate).(cd_kind);
  pv_binding : p.(vp_binding).(spb_transport_path) = p.(vp_remote_candidate).(cd_kind) ∧
    p.(vp_binding).(spb_relay_node_id) = p.(vp_remote_candidate).(cd_relay_node_id) ∧
    p.(vp_binding).(spb_permissions_digest) = digest ∧
    candidate_pair_id p.(vp_remote_candidate).(cd_session_id) i.(cp_controller).(cd_candidate_id)
      i.(cp_controlled).(cd_candidate_id) p.(vp_binding).(spb_transport_path)
      p.(vp_binding).(spb_relay_node_id) = Ok p.(vp_binding).(spb_candidate_pair_id);
  pv_binding_valid : binding_validate p.(vp_binding) = true;
  pv_authorized : if is_relay p.(vp_remote_candidate).(cd_kind) then i.(cp_remote_authorization) = None
    else ∃ a e, i.(cp_remote_authorization) = Some a ∧
      validate_ephemeral_candidate_authorization p.(vp_remote_candidate) a now = Ok tt ∧
      p2p_remote_endpoint p.(vp_remote_candidate) ns = Ok e }.

Section orchestrator.
Context `{P : Primitives}.

Lemma transport_kind_ok p k : transport_kind p = Ok k → path_of_kind k = p.
Proof. by destruct p; intros [= <-]. Qed.

Lemma validate_pair_ok role ns digest now i c p :
  validate_pair role ns digest now i = Ok (c, p) → pair_validated role ns digest now i c p.
Proof.
  unfold validate_pair. intros H.
  set (remote := match role with Controller => cp_controlled i | Controlled => cp_controller i end) in *.
  invert_ok.
  assert (cd_kind (cp_controller i) = cd_kind remote ∧
    cd_relay_node_id (cp_controller i) = cd_relay_node_id remote) as [Ek Er]
    by (unfold remote; by destruct role).
  match goal with H : transport_kind _ = Ok _ |- _ => apply transport_kind_ok in H as Hk end.
  match goal with H : candidate_pair_id _ _ _ _ _ = Ok _ |- _ =>
    pose proof (candidate_pair_id_ok _ _ _ _ _ _ H) as [Hrel _]; rename H into Hpair end.
  split; cbn [vp_remote_candidate vp_binding cand_endpoint cand_kind spb_transport_path
    spb_candidate_pair_id spb_relay_node_id spb_permissions_digest]; try done.
  - by rewrite Ek, Er.
  - unfold binding_validate. cbn. rewrite Ek, Er, Hrel. apply Bool.eqb_reflx.
  - rewrite <-Hk. destruct x3; cbn; invert_ok; eauto;
      destruct (cp_remote_authorization i); try done; exfalso; eauto.
Qed.

Lemma validate_pairs_ok role ns digest now inputs cs ps auths :
  validate_pairs role ns digest now inputs = Ok (cs, ps, auths) →
  length cs = length inputs ∧ auths = cp_remote_authorization <$> inputs ∧
  ∀ j i, inputs !! j = Some i → ∃ c p, cs !! j = Some c ∧ ps !! j = Some p ∧
    pair_validated role ns digest now i c p.
Proof.
  revert cs ps auths. induction inputs as [|i inputs IH]; intros cs ps auths H; cbn in H.
  { injection H as <- <- <-. done. }
  apply bind_ok in H as ([c p] & Hp & H). apply bind_ok in H as ([[cs' ps'] auths'] & Hps & H).
  injection H as <- <- <-. destruct (IH _ _ _ Hps) as (Hl & -> & Hall).
  split; [cbn; lia|]. split; [done|]. intros [|j] i' Hj; cbn in Hj |- *; [|by apply Hall].
  injection Hj as <-. exists c, p. split_and!; [done..|by apply validate_pair_ok].
Qed.
End orchestrator.

(** The calls that advance a race, through the orchestrator. *)
Definition or_step (o : CandidateRaceOrchestrator) (op : RaceOp) : CandidateRaceOrchestrator :=
  match op with
  | TakeDue now => (or_take_due_attempts o now).2
  | Success id m => (or_record_success o id m).2
  | Failure id => (or_record_failure o id).2
  end.

Definition or_run (o : CandidateRaceOrchestrator) (ops : list RaceOp) : CandidateRaceOrchestrator :=
  fold_left or_step ops o.

Lemma or_step_race o op : or_step o op = set_race o (race_step o.(or_race) op).2.
Proof.
  destruct op; cbn; unfold or_take_due_attempts, or_record_success, or_record_failure.
  - by destruct (take_due_attempts (or_race o) now).
  - by destruct (record_success (or_race o) id m).
  - by destruct (record_failure (or_race o) id).
Qed.

(** Calls keep the paths and the candidate of every attempt. *)
Lemma or_run_keeps o ops :
  (or_run o ops).(or_paths) = o.(or_paths) ∧
  ∀ j e', (or_run o ops).(or_race).(race_attempts) !! j = Some e' →
    ∃ e, o.(or_race).(race_attempts) !! j = Some e ∧ e'.(ae_candidate) = e.(ae_candidate).
Proof.
  revert o. induction ops as [|op ops IH]; intros o; [cbn; eauto|]. unfold or_run in *. cbn [fold_left].
  destruct (IH (or_step o op)) as [Hp Ha]. rewrite Hp, or_step_race in *. split; [done|].
  intros j e' Hj. destruct (Ha j e' Hj) as (e1 & Hj1 & E1).
  destruct (race_step_mono o.(or_race) op) as (_ & _ & Hm).
  destruct (Hm j e1 Hj1) as (e & He & E & _). exists e. split; [done|congruence].
Qed.

Lemma best_success_entry r w :
  best_success r = Some w →
  r.(race_attempts) !! w.(rw_attempt_id) =
    Some {| ae_candidate := w.(rw_candidate); ae_state := AttemptSucceeded w.(rw_metrics) |}.
Proof.
  unfold best_success. intros H.
  assert (PreOrder (λ _ _ : RaceWinner, True)) as HR by (split; done).
  apply (min_by_least _ (λ _ _, True)) in H as [Hin _]; [|done..].
  apply successes_from_elem in Hin as (j & -> & Hj). done.
Qed.

(** The binding an orchestrated race hands to the session is that of a
    validated pair. For any sequence of calls after a successful [new], there is
    a winner binding exactly when some attempt has succeeded, and it is the
    binding of an input pair whose attempt succeeded and which passed every
    check at construction: recomputed identifiers, opposite roles of one
    session, the pair identifier of exactly these candidates and path, a valid
    authorization and reachable endpoint for a direct path, none for a relay;
    and the reconnection state machine accepts it as a path binding. *)
Theorem winner_binding_validated `{P : Primitives} role inputs ns digest now config o ops :
  orchestrator_new role inputs ns digest now config = Ok o →
  let o' := or_run o ops in
  (is_Some (winner_binding o') ↔ is_Some (best_success o'.(or_race))) ∧
  ∀ b, winner_binding o' = Some b →
    ∃ j i c p m, inputs !! j = Some i ∧ attempt_state o'.(or_race) j = Some (AttemptSucceeded m) ∧
      pair_validated role ns digest now i c p ∧ p.(vp_binding) = b ∧
      ∀ machine, (set_pending_binding machine b).1 = Ok tt.
Proof.
  intros H o'. unfold orchestrator_new in H.
  apply bind_ok in H as ([[cs ps] auths] & Hv & [= <-]).
  apply validate_pairs_ok in Hv as (Hl & -> & Hall).
  destruct (or_run_keeps {| or_race := race_new cs now config; or_paths := ps;
    or_authorizations := cp_remote_authorization <$> inputs |} ops) as [Hps Hat].
  fold o' in Hps, Hat. cbn [or_paths or_race race_new race_attempts] in Hps, Hat.
  assert (∀ w, best_success o'.(or_race) = Some w →
    ∃ i c p, inputs !! rw_attempt_id w = Some i ∧ ps !! rw_attempt_id w = Some p ∧
      pair_validated role ns digest now i c p ∧
      attempt_state o'.(or_race) (rw_attempt_id w) = Some (AttemptSucceeded (rw_metrics w))) as Hw.
  { intros w Hb. apply best_success_entry in Hb.
    destruct (Hat _ _ Hb) as (e & He & _). rewrite list_lookup_fmap in He.
    apply fmap_Some in He as (c0 & Hc0 & _). apply lookup_lt_Some in Hc0. rewrite Hl in Hc0.
    apply lookup_lt_is_Some in Hc0 as [i Hi]. destruct (Hall _ _ Hi) as (c & p & _ & Hp & Hval).
    exists i, c, p. split_and!; [done..|]. unfold attempt_state. by rewrite Hb. }
  unfold winner_binding. split.
  - destruct (best_success (or_race o')) as [w|]; cbn; [|done].
    destruct (Hw w eq_refl) as (i & c & p & _ & Hp & _). rewrite Hps, Hp. cbn. split; eauto.
  - intros b Hb. destruct (best_success (or_race o')) as [w|]; [|done]. cbn in Hb.
    destruct (Hw w eq_refl) as (i & c & p & Hi & Hp & Hval & Hs). rewrite Hps, Hp in Hb.
    injection Hb as <-. exists (rw_attempt_id w), i, c, p, (rw_metrics w). split_and!; [done..|].
    intros machine. unfold set_pending_binding. by rewrite (pv_binding_valid _ _ _ _ _ _ _ Hval).
Qed.

Definition example_pair : CandidatePairInput := {|
  cp_controller := {|
    cd_candidate_id := 0; cd_session_id := 7; cd_device_id := str "device-c";
    cd_role := Controller; cd_kind := LanDirect; cd_endpoint := str "192.168.1.7:51000";
    cd_source := LocalInterface; cd_observe_result_id := None; cd_priority := 1;
    cd_rtt_ms := None; cd_loss_ppm := None; cd_jitter_ms := None; cd_relay_node_id := None |};
  cp_controlled := example_p2p_candidate;
  cp_remote_authorization := Some example_ephemeral |}.

Definition example_orchestrator : CandidateRaceOrchestrator :=
  match @orchestrator_new toy Controller [example_pair] [example_network] (repeat x01 32) 500
          race_config_default with
  | Ok o => o
  | Err _ => {| or_race := race_new [] 0 race_config_default; or_paths := []; or_authorizations := [] |}
  end.

Definition example_calls : list RaceOp :=
  [TakeDue 500; Success 0 {| lm_rtt_ms := 3; lm_loss_ppm := 0; lm_jitter_ms := 1 |}].

Lemma winner_binding_validated_witness :
  @orchestrator_new toy Controller [example_pair] [example_network] (repeat x01 32) 500
    race_config_default = Ok example_orchestrator ∧
  is_Some (winner_binding (or_run example_orchestrator example_calls)).
Proof.
  assert (@orchestrator_new toy Controller [example_pair] [example_network] (repeat x01 32) 500
    race_config_default = Ok example_orchestrator) as E by (vm_compute; reflexivity).
  split; [exact E|].
  apply (@winner_binding_validated toy Controller [example_pair] [example_network] (repeat x01 32)
    500 race_config_default example_orchestrator example_calls E).
  vm_compute. eexists. reflexivity.
Defined.
