(* ===== verification/SignalAuth.v ===== *)
(** * Admission to the signalling service

    Models services/signal-server/src/security.rs, [authenticate_hello] of
    services/signal-server/src/lib.rs and the replay cache of the memory backend
    (services/signal-server/src/backend.rs): access tokens, protocol version
    negotiation, and the signed hello with which a device proves its key.

    Base64 and JSON are parameters ([SignalDecoders]); the answer of the API that
    authorizes a device is an argument of the call. Error texts are constructors. *)

From Stdlib Require Import Sorting.Sorted.
From stdpp Require Import sorting.
From S2P Require Import Prelude Text Header Canonical Security Primitives KeySession.

Definition SUPPORTED_PROTOCOL_VERSIONS : list Z := [PROTOCOL_VERSION].
Definition HELLO_WINDOW_MILLIS : Z := 30000.
Definition HELLO_TTL_MILLIS : Z := 30000.
Definition MAX_MEMORY_REPLAY_ENTRIES : nat := Z.to_nat 10000.

Record ProtocolNegotiation := {
  pn_client_versions : list Z;
  pn_client_min_version : Z;
  pn_selected_version : Z;
  pn_versions_hash : bytes }.

Record AccessClaims := {
  acl_account_id : rstr;
  acl_account_session_id : rstr;
  acl_issued_at : Z;
  acl_expires_at : Z;
  acl_mfa_verified : bool;
  acl_token_type : rstr }.

Inductive SecurityError :=
| SigInvalidToken | SigExpiredToken | InvalidProtocolHeader | UnsupportedVersion
| SigInvalidEncoding | SigInvalidHash | SigInvalidSignature | SigTimestampOutsideWindow.

Record TrustedDevice := {
  td_account_id : rstr;
  td_device_id : rstr;
  td_public_key_id : rstr;
  td_public_key_version : Z;
  td_public_key : bytes;
  td_public_key_revoked : bool }.

Record DeviceAuthRequest := {
  dq_access_token : rstr;
  dq_account_id : rstr;
  dq_device_id : rstr;
  dq_public_key_id : rstr;
  dq_public_key_version : Z }.

Record DeviceAuthResponse := {
  dr_authorized : bool;
  dr_account_id : rstr;
  dr_device_id : rstr;
  dr_public_key_id : rstr;
  dr_public_key_version : Z;
  dr_public_key : rstr;
  dr_access_token_expires_at : Z }.

(** JSON values, their canonical bytes ([canonical_json_bytes]) and the decoders
    of the service. *)
Class SignalDecoders := {
  signal_base64 :: Base64;
  Json : Type;
  canonical_json : Json → option bytes;
  access_claims_from_json : bytes → option AccessClaims }.

Inductive HelloError :=
| ChallengeExpired | AccountMismatch | NegotiationMismatch | InvalidVersionsHash
| VersionsHashMismatch | InvalidCapabilities | InvalidCapabilitiesHash
| CapabilitiesHashMismatch | HelloTimestampOutsideWindow | InvalidClientNonce
| DeviceAuthorizationRejected | DeviceKeyIsRevoked | CannotBuildInput
| InvalidHelloSignature | HelloNonceReplay | HelloReplayCacheFull.

(** ** Text *)

(** [str::parse::<u16>]: an optional plus sign, then decimal digits. *)
Fixpoint digits_val (acc : Z) (s : rstr) : option Z :=
  match s with
  | [] => Some acc
  | b :: s => if byte_in 48 57 b then digits_val (acc * 10 + (byte_val b - 48)) s else None
  end.

Definition parse_u16 (s : rstr) : option Z :=
  let digits := match s with b :: t => if b =! x2b then t else s | [] => s end in
  match digits with
  | [] => None
  | _ => n ← digits_val 0 digits; if n <? 2 ^ 16 then Some n else None
  end.

(** [value.trim() == value]. *)
Definition is_trimmed (s : rstr) : bool :=
  match chars s with
  | [] => true
  | c :: cs => negb (is_whitespace c) && negb (is_whitespace (List.last cs c))
  end.

(** [Vec::dedup]. *)
Fixpoint dedup (l : list Z) : list Z :=
  match l with
  | a :: ((b :: _) as l') => if a =? b then dedup l' else a :: dedup l'
  | _ => l
  end.

Definition decode_hex_nibble (b : byte) : option Z :=
  if byte_in 48 57 b then Some (byte_val b - 48)
  else if byte_in 97 102 b then Some (byte_val b - 97 + 10) else None.

Fixpoint hex_pairs (s : rstr) : option bytes :=
  match s with
  | [] => Some []
  | h :: l :: s =>
      high ← decode_hex_nibble h; low ← decode_hex_nibble l;
      rest ← hex_pairs s;
      Some (byte_of (Z.lor (Z.shiftl high 4) low) :: rest)
  | [_] => Some []
  end.

Definition decode_hex_array (n : nat) (value : rstr) : result SecurityError bytes :=
  _ ← ensure (length value =? n * 2)%nat SigInvalidEncoding;
  ok_or (hex_pairs value) SigInvalidEncoding.

Definition encode_hex (value : bytes) : rstr := flat_map hex_byte value.

Definition ensure_timestamp_in_window (timestamp now : Z) : result SecurityError unit :=
  ensure (negb (HELLO_WINDOW_MILLIS <? abs_diff timestamp now)) SigTimestampOutsideWindow.

(** ** Negotiation *)

Definition parse_version (value : rstr) : result SecurityError Z :=
  _ ← ensure (negb ((value =! []) || negb (is_trimmed value))) InvalidProtocolHeader;
  ok_or (parse_u16 value) InvalidProtocolHeader.

(** [binary_search] on the sorted versions finds exactly what they contain. *)
Definition select_version (client_versions : list Z) (client_min_version : Z) : option Z :=
  match filter (λ v, client_min_version ≤ v ∧ v ∈ client_versions) SUPPORTED_PROTOCOL_VERSIONS with
  | [] => None
  | v :: vs => Some (foldl Z.max v vs)
  end.

Section operations.
Context `{P : Primitives} `{D : SignalDecoders}.

Definition verify_access_token (token : rstr) (secret : bytes) (now : Z)
    : result SecurityError AccessClaims :=
  '(payload, encoded_signature) ← ok_or (split_once x2e token) SigInvalidToken;
  signature ← ok_or (b64url_decode encoded_signature) SigInvalidToken;
  _ ← ensure (signature =! hmac_sha256 secret payload) SigInvalidToken;
  claims_bytes ← ok_or (b64url_decode payload) SigInvalidToken;
  claims ← ok_or (access_claims_from_json claims_bytes) SigInvalidToken;
  _ ← ensure (negb ((claims.(acl_token_type) ≠! str "access") || (claims.(acl_account_id) =! [])))
        SigInvalidToken;
  _ ← ensure (negb (claims.(acl_expires_at) <=? now)) SigExpiredToken;
  Ok claims.

Definition service_token_matches (provided expected : rstr) : bool :=
  let key := str "rctl-service-token-comparison-v1" in
  hmac_sha256 key provided =! hmac_sha256 key expected.

Definition hash_error {T} (r : result CanonicalError T) : result SecurityError T :=
  map_err (λ _, SigInvalidHash) r.

Definition protocol_versions_hash (versions : list Z) (minimum : Z) : result SecurityError bytes :=
  bs ← hash_error (
    w ← writer_new (str "rctl-protocol-versions-v1");
    w ← push_field w (str "client_supported_protocol_versions") (flat_map (be_bytes 2) versions);
    w ← push_u16 w (str "client_min_protocol_version") minimum;
    Ok (finish w));
  Ok (sha256 bs).

Definition parse_protocol_headers (versions minimum : option rstr)
    : result SecurityError ProtocolNegotiation :=
  versions ← ok_or versions InvalidProtocolHeader;
  minimum ← ok_or minimum InvalidProtocolHeader;
  client_min_version ← ok_or (parse_u16 minimum) InvalidProtocolHeader;
  client_versions ← collect parse_version (split_on (λ b, b =! x2c) versions);
  let client_versions := dedup (merge_sort Z.le client_versions) in
  _ ← ensure (negb ((client_versions =! []) || (16 <? len client_versions)
               || negb (bool_decide (client_min_version ∈ client_versions)))) InvalidProtocolHeader;
  selected_version ← ok_or (select_version client_versions client_min_version) UnsupportedVersion;
  versions_hash ← protocol_versions_hash client_versions client_min_version;
  Ok {| pn_client_versions := client_versions; pn_client_min_version := client_min_version;
        pn_selected_version := selected_version; pn_versions_hash := versions_hash |}.

Definition client_capabilities_hash (capabilities : Json) : result SecurityError bytes :=
  capabilities ← ok_or (canonical_json capabilities) SigInvalidHash;
  bs ← hash_error (
    w ← writer_new (str "rctl-client-capabilities-v1");
    w ← push_field w (str "client_capabilities") capabilities;
    Ok (finish w));
  Ok (sha256 bs).

Definition hello_signature_input (server_nonce client_nonce : bytes) (account_id device_id : rstr)
    (protocol_version timestamp : Z) (versions_hash capabilities_hash : bytes)
    : result SecurityError bytes :=
  hash_error (
  w ← writer_new (str "rctl-ws-hello-v1");
  w ← push_field w (str "server_nonce") server_nonce;
  w ← push_field w (str "client_nonce") client_nonce;
  w ← push_str w (str "account_id") account_id;
  w ← push_str w (str "device_id") device_id;
  w ← push_u16 w (str "protocol_version") protocol_version;
  w ← push_u64 w (str "timestamp") timestamp;
  w ← push_field w (str "client_supported_protocol_versions_hash") versions_hash;
  w ← push_field w (str "client_capabilities_hash") capabilities_hash;
  Ok (finish w)).

Definition verify_hello_signature (public_key canonical_input : bytes) (encoded_signature : rstr)
    : result SecurityError unit :=
  signature ← ok_or (decode_array 64 encoded_signature) SigInvalidEncoding;
  _ ← ensure (ed25519_valid_public public_key) SigInvalidSignature;
  ensure (ed25519_verify public_key (sha256 canonical_input) signature) SigInvalidSignature.

Definition trusted_device_from_response (rq : DeviceAuthRequest) (rs : DeviceAuthResponse) (now : Z)
    : option TrustedDevice :=
  if negb rs.(dr_authorized)
     || (rs.(dr_account_id) ≠! rq.(dq_account_id))
     || (rs.(dr_device_id) ≠! rq.(dq_device_id))
     || (rs.(dr_public_key_id) ≠! rq.(dq_public_key_id))
     || negb (rs.(dr_public_key_version) =? rq.(dq_public_key_version))
     || (rs.(dr_access_token_expires_at) <=? now)
  then None
  else
    public_key ← decode_array 32 rs.(dr_public_key);
    Some {| td_account_id := rs.(dr_account_id); td_device_id := rs.(dr_device_id);
            td_public_key_id := rs.(dr_public_key_id);
            td_public_key_version := rs.(dr_public_key_version);
            td_public_key := public_key; td_public_key_revoked := false |}.
End operations.

(** ** The hello *)

Record HelloResponse `{D : SignalDecoders} := {
  hl_account_id : rstr;
  hl_device_id : rstr;
  hl_client_nonce : rstr;
  hl_timestamp : Z;
  hl_client_versions : list Z;
  hl_client_min_version : Z;
  hl_public_key_id : rstr;
  hl_public_key_version : Z;
  hl_versions_hash : rstr;
  hl_capabilities : Json;
  hl_capabilities_hash : rstr;
  hl_device_signature : rstr }.

Record AuthenticatedHello := {
  ah_device : TrustedDevice;
  ah_capabilities_hash : bytes }.

(** [MemoryReplayCache]: account, device and nonce to expiry. *)
Abbreviation hello_key := (rstr * rstr * bytes)%type.
Abbreviation HelloReplays := (gmap hello_key Z).

Inductive ReplayRecord := Recorded | Duplicate | Full.

Definition record_hello_nonce_once (r : HelloReplays) (account_id device_id : rstr)
    (client_nonce : bytes) (expires_at now : Z) : ReplayRecord * HelloReplays :=
  let r := filter (λ kv : hello_key * Z, now < kv.2) r in
  if (MAX_MEMORY_REPLAY_ENTRIES <=? size r)%nat then (Full, r)
  else
    let key : hello_key := (account_id, device_id, client_nonce) in
    (if bool_decide (is_Some (r !! key)) then Duplicate else Recorded, <[key := expires_at]> r).

Section hello.
Context `{P : Primitives} `{D : SignalDecoders}.

(** [authenticate_hello] up to the replay cache: the authenticated device and
    the nonce to record. [authorize] is the device authenticator. *)
Definition hello_checks (claims : AccessClaims) (access_token : rstr) (n : ProtocolNegotiation)
    (server_nonce : bytes) (challenge_expires_at : Z) (r : HelloResponse)
    (authorize : DeviceAuthRequest → option TrustedDevice) (now : Z)
    : result HelloError (AuthenticatedHello * bytes) :=
  _ ← ensure (negb (challenge_expires_at <=? now)) ChallengeExpired;
  _ ← ensure (r.(hl_account_id) =! claims.(acl_account_id)) AccountMismatch;
  _ ← ensure (negb ((r.(hl_client_versions) ≠! n.(pn_client_versions))
               || negb (r.(hl_client_min_version) =? n.(pn_client_min_version)))) NegotiationMismatch;
  submitted_versions_hash ← map_err (λ _, InvalidVersionsHash)
    (decode_hex_array 32 r.(hl_versions_hash));
  _ ← ensure (submitted_versions_hash =! n.(pn_versions_hash)) VersionsHashMismatch;
  capabilities_hash ← map_err (λ _, InvalidCapabilities) (client_capabilities_hash r.(hl_capabilities));
  submitted_capabilities_hash ← map_err (λ _, InvalidCapabilitiesHash)
    (decode_hex_array 32 r.(hl_capabilities_hash));
  _ ← ensure (submitted_capabilities_hash =! capabilities_hash) CapabilitiesHashMismatch;
  _ ← map_err (λ _, HelloTimestampOutsideWindow) (ensure_timestamp_in_window r.(hl_timestamp) now);
  client_nonce ← ok_or (decode_array 32 r.(hl_client_nonce)) InvalidClientNonce;
  device ← ok_or (authorize {|
      dq_access_token := access_token; dq_account_id := claims.(acl_account_id);
      dq_device_id := r.(hl_device_id); dq_public_key_id := r.(hl_public_key_id);
      dq_public_key_version := r.(hl_public_key_version) |}) DeviceAuthorizationRejected;
  _ ← ensure (negb (device.(td_public_key_revoked) || (device.(td_public_key_version) =? 0)))
        DeviceKeyIsRevoked;
  canonical ← map_err (λ _, CannotBuildInput) (hello_signature_input server_nonce client_nonce
    r.(hl_account_id) r.(hl_device_id) n.(pn_selected_version) r.(hl_timestamp)
    n.(pn_versions_hash) capabilities_hash);
  _ ← map_err (λ _, InvalidHelloSignature)
    (verify_hello_signature device.(td_public_key) canonical r.(hl_device_signature));
  Ok ({| ah_device := device; ah_capabilities_hash := capabilities_hash |}, client_nonce).

Definition record_nonce_once (c : HelloReplays) (account_id device_id : rstr) (client_nonce : bytes)
    (expires_at now : Z) : result HelloError unit * HelloReplays :=
  let '(record, c) := record_hello_nonce_once c account_id device_id client_nonce expires_at now in
  (match record with
   | Recorded => Ok tt
   | Duplicate => Err HelloNonceReplay
   | Full => Err HelloReplayCacheFull
   end, c).

Definition authenticate_hello (c : HelloReplays) (claims : AccessClaims) (access_token : rstr)
    (n : ProtocolNegotiation) (server_nonce : bytes) (challenge_expires_at : Z) (r : HelloResponse)
    (authorize : DeviceAuthRequest → option TrustedDevice) (now : Z)
    : result HelloError AuthenticatedHello * HelloReplays :=
  match hello_checks claims access_token n server_nonce challenge_expires_at r authorize now with
  | Err e => (Err e, c)
  | Ok (hello, client_nonce) =>
      let '(res, c) := record_nonce_once c claims.(acl_account_id) r.(hl_device_id) client_nonce
                         challenge_expires_at now in
      (_ ← res; Ok hello, c)
  end.
End hello.

(** ** What a hello is bound to *)

Definition hello_fields (server_nonce client_nonce : bytes) (account_id device_id : rstr)
    (protocol_version timestamp : Z) (versions_hash capabilities_hash : bytes) : list field :=
  [domain_field (str "rctl-ws-hello-v1"); (str "server_nonce", server_nonce);
   (str "client_nonce", client_nonce); (str "account_id", account_id); (str "device_id", device_id);
   (str "protocol_version", be_bytes 2 protocol_version); (str "timestamp", be_bytes 8 timestamp);
   (str "client_supported_protocol_versions_hash", versions_hash);
   (str "client_capabilities_hash", capabilities_hash)].

Lemma hello_input_writes sn cn a d v t vh ch bs :
  hello_signature_input sn cn a d v t vh ch = Ok bs →
  writes {| cw_bytes := bs |} (hello_fields sn cn a d v t vh ch).
Proof. unfold hello_signature_input, hash_error. solve_writes. Qed.

(** What the signature of a hello covers. *)
Record hello_scope := {
  hs_server_nonce : bytes; hs_client_nonce : bytes; hs_account : rstr; hs_device : rstr;
  hs_version : Z; hs_time : Z; hs_versions_hash : bytes; hs_capabilities_hash : bytes }.

Definition scope_bytes (s : hello_scope) : result SecurityError bytes :=
  hello_signature_input s.(hs_server_nonce) s.(hs_client_nonce) s.(hs_account) s.(hs_device)
    s.(hs_version) s.(hs_time) s.(hs_versions_hash) s.(hs_capabilities_hash).

Definition scope_wf (s : hello_scope) : Prop := in_u16 s.(hs_version) ∧ in_u64 s.(hs_time).

Lemma scope_bytes_inj s s' bs :
  scope_wf s → scope_wf s' → scope_bytes s = Ok bs → scope_bytes s' = Ok bs → s = s'.
Proof.
  intros [Hv Ht] [Hv' Ht'] Es Et. unfold scope_bytes in Es, Et.
  apply hello_input_writes in Es as [Fs Es], Et as [Ft Et].
  assert (hello_fields s.(hs_server_nonce) s.(hs_client_nonce) s.(hs_account) s.(hs_device)
      s.(hs_version) s.(hs_time) s.(hs_versions_hash) s.(hs_capabilities_hash) =
    hello_fields s'.(hs_server_nonce) s'.(hs_client_nonce) s'.(hs_account) s'.(hs_device)
      s'.(hs_version) s'.(hs_time) s'.(hs_versions_hash) s'.(hs_capabilities_hash)) as H.
  { apply encode_fields_inj; [done..|]. cbn [cw_bytes] in *. congruence. }
  destruct s, s'. unfold hello_fields, domain_field in H. cbn in *. split_fields H. cbn in *.
  unwrap_values. done.
Qed.

Section hello_lemmas.
Context `{P : Primitives} `{D : SignalDecoders}.

(** What an accepted hello has proved. *)
Record hello_proved (claims : AccessClaims) (n : ProtocolNegotiation) (r : HelloResponse)
    (h : AuthenticatedHello) (s : hello_scope) (now : Z) : Prop := {
  hp_account : s.(hs_account) = claims.(acl_account_id) ∧ r.(hl_account_id) = claims.(acl_account_id);
  hp_device : s.(hs_device) = r.(hl_device_id);
  hp_version : s.(hs_version) = n.(pn_selected_version) ∧ r.(hl_client_versions) = n.(pn_client_versions);
  hp_time : s.(hs_time) = r.(hl_timestamp) ∧ abs_diff r.(hl_timestamp) now ≤ HELLO_WINDOW_MILLIS;
  hp_hashes : s.(hs_versions_hash) = n.(pn_versions_hash) ∧
              s.(hs_capabilities_hash) = h.(ah_capabilities_hash) ∧
              client_capabilities_hash r.(hl_capabilities) = Ok h.(ah_capabilities_hash);
  hp_key : h.(ah_device).(td_public_key_revoked) = false ∧ h.(ah_device).(td_public_key_version) ≠ 0;
  hp_signed : ∃ bs sig, scope_bytes s = Ok bs ∧ decode_array 64 r.(hl_device_signature) = Some sig ∧
    ed25519_verify h.(ah_device).(td_public_key) (sha256 bs) sig = true }.

Lemma hello_checks_ok claims tok n sn e r auth now h cn :
  hello_checks claims tok n sn e r auth now = Ok (h, cn) →
  now < e ∧ decode_array 32 r.(hl_client_nonce) = Some cn ∧
  auth {| dq_access_token := tok; dq_account_id := claims.(acl_account_id);
          dq_device_id := r.(hl_device_id); dq_public_key_id := r.(hl_public_key_id);
          dq_public_key_version := r.(hl_public_key_version) |} = Some h.(ah_device) ∧
  hello_proved claims n r h {|
    hs_server_nonce := sn; hs_client_nonce := cn; hs_account := r.(hl_account_id);
    hs_device := r.(hl_device_id); hs_version := n.(pn_selected_version);
    hs_time := r.(hl_timestamp); hs_versions_hash := n.(pn_versions_hash);
    hs_capabilities_hash := h.(ah_capabilities_hash) |} now.
Proof.
  unfold hello_checks, ensure_timestamp_in_window. intros H. invert_ok. simplify_eq/=.
  unfold verify_hello_signature in *. invert_ok.
  split; [done|]. split; [done|]. split; [done|]. split; cbn; try done.
  unfold scope_bytes; cbn. eauto.
Qed.
End hello_lemmas.

(** ** The replay cache over a history of hellos *)

Section history.
Context `{P : Primitives} `{D : SignalDecoders}.

(** One call of [authenticate_hello] by a connection. *)
Record hello_call := {
  hc_claims : AccessClaims; hc_token : rstr; hc_negotiation : ProtocolNegotiation;
  hc_server_nonce : bytes; hc_challenge_expires_at : Z; hc_response : HelloResponse;
  hc_authorize : DeviceAuthRequest → option TrustedDevice; hc_now : Z }.

Definition present (c : HelloReplays) (x : hello_call) : result HelloError AuthenticatedHello * HelloReplays :=
  authenticate_hello c x.(hc_claims) x.(hc_token) x.(hc_negotiation) x.(hc_server_nonce)
    x.(hc_challenge_expires_at) x.(hc_response) x.(hc_authorize) x.(hc_now).

(** The account, device and nonce a hello presents, if its nonce decodes. *)
Definition hello_key_of (x : hello_call) : option hello_key :=
  cn ← decode_array 32 x.(hc_response).(hl_client_nonce);
  Some (x.(hc_claims).(acl_account_id), x.(hc_response).(hl_device_id), cn).

Lemma present_cases c x :
  (∃ e, present c x = (Err e, c)) ∨
  ∃ h cn, hello_key_of x = Some (x.(hc_claims).(acl_account_id), x.(hc_response).(hl_device_id), cn) ∧
    let '(rec, c') := record_hello_nonce_once c x.(hc_claims).(acl_account_id)
      x.(hc_response).(hl_device_id) cn x.(hc_challenge_expires_at) x.(hc_now) in
    (present c x).2 = c' ∧ ((∃ h', (present c x).1 = Ok h') ↔ rec = Recorded) ∧
    x.(hc_now) < x.(hc_challenge_expires_at) ∧ (rec = Recorded → (present c x).1 = Ok h).
Proof.
  unfold present, authenticate_hello, record_nonce_once.
  destruct (hello_checks _ _ _ _ _ _ _ _) as [[h cn]|e] eqn:Hc; [right|left; eauto].
  apply hello_checks_ok in Hc as (Hnow & Hcn & _). exists h, cn. unfold hello_key_of.
  rewrite Hcn. split; [done|].
  destruct (record_hello_nonce_once _ _ _ _ _ _) as [[] c']; cbn; split_and!; naive_solver.
Qed.

Lemma present_ok_checks c x h c' :
  present c x = (Ok h, c') →
  ∃ cn, hello_checks x.(hc_claims) x.(hc_token) x.(hc_negotiation) x.(hc_server_nonce)
    x.(hc_challenge_expires_at) x.(hc_response) x.(hc_authorize) x.(hc_now) = Ok (h, cn).
Proof.
  unfold present, authenticate_hello.
  destruct (hello_checks _ _ _ _ _ _ _ _) as [[h' cn]|]; [|done]. exists cn.
  destruct (record_nonce_once _ _ _ _ _ _) as [[]]; naive_solver.
Qed.

Lemma record_size c a d n e now :
  (size c ≤ MAX_MEMORY_REPLAY_ENTRIES)%nat →
  (size (record_hello_nonce_once c a d n e now).2 ≤ MAX_MEMORY_REPLAY_ENTRIES)%nat.
Proof.
  intros Hs. unfold record_hello_nonce_once.
  destruct (Nat.leb_spec MAX_MEMORY_REPLAY_ENTRIES (size (filter (λ kv : hello_key * Z, now < kv.2) c))) as [_|Hlt];
    cbn [snd].
  - etrans; [|exact Hs]. apply map_size_filter.
  - etrans; [apply size_insert_le|]. lia.
Qed.

Lemma present_size c x :
  (size c ≤ MAX_MEMORY_REPLAY_ENTRIES)%nat → (size (present c x).2 ≤ MAX_MEMORY_REPLAY_ENTRIES)%nat.
Proof.
  intros Hs. destruct (present_cases c x) as [[e ->]|(h & cn & _ & H)]; [done|].
  pose proof (record_size c (acl_account_id (hc_claims x)) (hl_device_id (hc_response x)) cn
    (hc_challenge_expires_at x) (hc_now x) Hs) as Hr.
  destruct (record_hello_nonce_once _ _ _ _ _ _) as [rec c']. destruct H as [-> _]. done.
Qed.

(** A valid hello with a nonce the cache does not hold is accepted. *)
Lemma present_fresh c x h cn :
  hello_checks x.(hc_claims) x.(hc_token) x.(hc_negotiation) x.(hc_server_nonce)
    x.(hc_challenge_expires_at) x.(hc_response) x.(hc_authorize) x.(hc_now) = Ok (h, cn) →
  let k : hello_key := (x.(hc_claims).(acl_account_id), x.(hc_response).(hl_device_id), cn) in
  c !! k = None → (size c < MAX_MEMORY_REPLAY_ENTRIES)%nat →
  present c x = (Ok h, <[k := x.(hc_challenge_expires_at)]> (filter (λ kv : hello_key * Z, x.(hc_now) < kv.2) c)).
Proof.
  intros Hc k Hk Hs. unfold present, authenticate_hello. rewrite Hc. fold k.
  unfold record_nonce_once, record_hello_nonce_once. fold k.
  pose proof (map_size_filter (λ kv : hello_key * Z, hc_now x < kv.2) c).
  destruct (Nat.leb_spec MAX_MEMORY_REPLAY_ENTRIES
    (size (filter (λ kv : hello_key * Z, hc_now x < kv.2) c))); [lia|].
  rewrite bool_decide_eq_false_2; [done|]. intros [v [Hv _]%map_lookup_filter_Some]. congruence.
Qed.

(** A key that outlives [t] stays in the cache through calls before [t] that
    keep it alive, and blocks every hello that presents it. *)
Lemma present_keeps c x k v t :
  c !! k = Some v → t < v → x.(hc_now) ≤ t →
  (hello_key_of x = Some k → t < x.(hc_challenge_expires_at)) →
  (∃ v', (present c x).2 !! k = Some v' ∧ t < v') ∧
  (hello_key_of x = Some k → ∀ h, (present c x).1 ≠ Ok h).
Proof.
  intros Hv Ht Hn He. destruct (present_cases c x) as [[e ->]|(h & cn & Hk & H)]; [by eauto|].
  assert (filter (λ kv : hello_key * Z, hc_now x < kv.2) c !! k = Some v) as Hf.
  { apply map_lookup_filter_Some. split; [done|]. cbn. lia. }
  unfold record_hello_nonce_once in H. rewrite Hk in *.
  destruct (_ <=? size _)%nat; destruct H as (-> & Hi & _).
  { split; [eauto|]. intros _ h' Hh. destruct Hi as [Hi _]. naive_solver. }
  destruct (decide (k = (acl_account_id (hc_claims x), hl_device_id (hc_response x), cn))) as [->|Hne].
  - rewrite Hf, bool_decide_eq_true_2 in Hi by eauto. split.
    + eexists. split; [apply lookup_insert_eq|]. by apply He.
    + intros _ h' Hh. destruct Hi as [Hi _]. naive_solver.
  - split; [|naive_solver]. exists v. by rewrite lookup_insert_ne.
Qed.

Lemma present_ok_recorded c x h :
  (present c x).1 = Ok h →
  ∃ k, hello_key_of x = Some k ∧ (present c x).2 !! k = Some x.(hc_challenge_expires_at).
Proof.
  destruct (present_cases c x) as [[e ->]|(h' & cn & Hk & H)]; [done|]. intros Hh.
  exists (acl_account_id (hc_claims x), hl_device_id (hc_response x), cn). split; [done|].
  unfold record_hello_nonce_once in H.
  destruct (_ <=? size _)%nat; destruct H as (-> & Hi & _); [|apply lookup_insert_eq].
  by destruct Hi as [Hi _]; discriminate Hi; eauto.
Qed.

Lemma presents_keep xs c k v t :
  c !! k = Some v → t < v →
  (∀ x, x ∈ xs → x.(hc_now) ≤ t ∧ (hello_key_of x = Some k → t < x.(hc_challenge_expires_at))) →
  ∃ v', (runs present c xs).2 !! k = Some v' ∧ t < v'.
Proof.
  intros Hv Ht Hx.
  apply (runs_inv present (λ c, ∃ v', c !! k = Some v' ∧ t < v')); [eauto|].
  intros c' x Hin (v' & Hv' & Ht'). destruct (Hx x Hin). by apply (present_keeps c' x k v' t).
Qed.
End history.

(** ** Sorted, duplicate-free version lists *)

Lemma dedup_cons a b l : dedup (a :: b :: l) = if a =? b then dedup (b :: l) else a :: dedup (b :: l).
Proof. done. Qed.

Lemma dedup_elem l x : x ∈ dedup l ↔ x ∈ l.
Proof.
  induction l as [|a l IH]; [done|]. destruct l as [|b l]; [done|]. rewrite dedup_cons.
  destruct (Z.eqb_spec a b) as [->|?]; rewrite ?elem_of_cons, IH, ?elem_of_cons; naive_solver.
Qed.

Lemma dedup_sorted l : StronglySorted Z.le l → StronglySorted Z.lt (dedup l).
Proof.
  induction 1 as [|a l Hs IH Hf]; [constructor|]. destruct l as [|b l]; [repeat constructor|].
  rewrite dedup_cons. destruct (Z.eqb_spec a b) as [->|Hne]; [done|]. constructor; [done|].
  apply Forall_forall. intros x Hx. rewrite dedup_elem in Hx.
  assert (a ≤ b) by (rewrite Forall_forall in Hf; apply Hf; by left).
  apply StronglySorted_inv in Hs as [_ Hb]. rewrite elem_of_cons in Hx.
  destruct Hx as [->|Hx]; [lia|]. rewrite Forall_forall in Hb. specialize (Hb x Hx). cbn in *. lia.
Qed.

(** A strictly increasing list is determined by its elements. *)
Lemma sorted_lt_ext l k :
  StronglySorted Z.lt l → StronglySorted Z.lt k → (∀ x, x ∈ l ↔ x ∈ k) → l = k.
Proof.
  intros Hl. revert k. induction Hl as [|a l Hl IH Hf]; intros k Hk He.
  { destruct k as [|b k]; [done|]. destruct (He b) as [_ Hb]. exfalso. eapply not_elem_of_nil, Hb. by left. }
  destruct Hk as [|b k Hk Hg]; [destruct (He a) as [Ha _]; exfalso; eapply not_elem_of_nil, Ha; by left|].
  rewrite Forall_forall in Hf, Hg. setoid_rewrite elem_of_cons in He.
  assert (a = b) as ->.
  { destruct (He a) as [[->|Ha] _]; [by left|done|].
    destruct (He b) as [_ [->|Hb]]; [by left|done|].
    specialize (Hf b Hb). specialize (Hg a Ha). cbn in *. lia. }
  f_equal. apply IH; [done|]. intros x. split; intros Hx.
  - destruct (He x) as [[->|?] _]; [by right| |done]. specialize (Hf b Hx). cbn in *. lia.
  - destruct (He x) as [_ [->|?]]; [by right| |done]. specialize (Hg b Hx). cbn in *. lia.
Qed.

(** The versions of a header in the form the server keeps them. *)
Definition canonical_versions (l : list Z) : list Z := dedup (merge_sort Z.le l).

Lemma canonical_versions_spec l :
  StronglySorted Z.lt (canonical_versions l) ∧ (∀ x, x ∈ canonical_versions l ↔ x ∈ l).
Proof.
  unfold canonical_versions. split.
  - apply dedup_sorted, StronglySorted_merge_sort; apply _.
  - intros x. rewrite dedup_elem. by rewrite (merge_sort_Permutation Z.le l).
Qed.

Lemma canonical_versions_iff l k :
  k = canonical_versions l ↔ StronglySorted Z.lt k ∧ ∀ x, x ∈ k ↔ x ∈ l.
Proof.
  destruct (canonical_versions_spec l) as [Hs He]. split; [by intros ->|].
  intros [Hk Hx]. apply sorted_lt_ext; [done..|]. intros x. by rewrite He, Hx.
Qed.

Lemma select_version_iff l m v :
  select_version l m = Some v ↔ v = PROTOCOL_VERSION ∧ v ∈ l ∧ m ≤ v.
Proof.
  unfold select_version, SUPPORTED_PROTOCOL_VERSIONS. rewrite filter_cons, filter_nil.
  case_decide as Hd; [split; [intros [= <-]|intros [-> _]; done]; tauto|].
  split; [done|]. intros (-> & ? & ?). exfalso. apply Hd. by split.
Qed.

(** ** Theorems *)

(** Protocol negotiation, exactly: the server keeps the versions of the
    header in strictly increasing order, accepts at most 16 of them with the
    minimum among them, and selects its own version when the client offers it at
    or above that minimum; and headers that list the same versions, in any order
    and with any repetitions, negotiate the same (or fail alike). *)
Theorem negotiation_exact `{P : Primitives} versions minimum l :
  collect parse_version (split_on (λ b, b =! x2c) versions) = Ok l →
  (∀ n, parse_protocol_headers (Some versions) (Some minimum) = Ok n ↔
    parse_u16 minimum = Some n.(pn_client_min_version) ∧
    StronglySorted Z.lt n.(pn_client_versions) ∧ (∀ v, v ∈ n.(pn_client_versions) ↔ v ∈ l) ∧
    n.(pn_client_versions) ≠ [] ∧ len n.(pn_client_versions) ≤ 16 ∧
    n.(pn_client_min_version) ∈ l ∧
    n.(pn_selected_version) = PROTOCOL_VERSION ∧ PROTOCOL_VERSION ∈ l ∧
    n.(pn_client_min_version) ≤ PROTOCOL_VERSION ∧
    protocol_versions_hash n.(pn_client_versions) n.(pn_client_min_version) = Ok n.(pn_versions_hash)) ∧
  ∀ versions' l', collect parse_version (split_on (λ b, b =! x2c) versions') = Ok l' →
    (∀ v, v ∈ l' ↔ v ∈ l) →
    parse_protocol_headers (Some versions') (Some minimum) =
    parse_protocol_headers (Some versions) (Some minimum).
Proof.
  intros Hl. unfold parse_protocol_headers. cbn [ok_or mbind result_bind]. rewrite Hl.
  fold (canonical_versions l). destruct (canonical_versions_spec l) as [Hs He]. split.
  - intros n. split.
    + intros H. cbn [mbind result_bind] in H. invert_ok. cbn.
      match goal with H : select_version _ _ = Some _ |- _ => apply select_version_iff in H as (-> & Hv & Hm) end.
      rewrite He in Hv. split_and!; try done. by apply He.
    + intros (Hm & Hc & Hin & Hne & H16 & Hmin & Hsel & Hp & Hle & Hh).
      assert (n.(pn_client_versions) = canonical_versions l) as Hcv by (by apply canonical_versions_iff).
      assert (select_version (canonical_versions l) n.(pn_client_min_version) = Some PROTOCOL_VERSION) as Hsv
        by (apply select_version_iff; by rewrite He).
      rewrite Hcv in *. rewrite Hm. cbn [ok_or mbind result_bind].
      rewrite bool_decide_eq_false_2, bool_decide_eq_true_2, (proj2 (Z.ltb_ge _ _)) by (try done; by apply He).
      cbn [orb negb ensure ok_or mbind result_bind]. fold (canonical_versions l). rewrite Hsv. cbn [ok_or mbind result_bind].
      rewrite Hh. cbn [mbind result_bind]. rewrite <-Hcv, <-Hsel. by destruct n.
  - intros vs' l' Hl' Hx. rewrite Hl'. cbn [mbind result_bind]. fold (canonical_versions l').
    assert (canonical_versions l' = canonical_versions l) as ->; [|done].
    symmetry. apply canonical_versions_iff. split; [done|]. intros x. by rewrite He, Hx.
Qed.

(** A hello nonce is accepted once: in any history of hellos at non-
    decreasing times, whatever the accounts, challenges and answers of the API,
    a hello whose account, device and nonce were accepted before is refused as
    long as every challenge under which they were presented since would still be
    open; and the replay cache never exceeds 10,000 entries. *)
Theorem hello_accepted_once `{P : Primitives} `{D : SignalDecoders} xs i j xi xj h :
  (∀ i j a b, (i ≤ j)%nat → xs !! i = Some a → xs !! j = Some b → a.(hc_now) ≤ b.(hc_now)) →
  xs !! i = Some xi → xs !! j = Some xj → (i < j)%nat → hello_key_of xj = hello_key_of xi →
  (∀ m x, (i ≤ m ≤ j)%nat → xs !! m = Some x → hello_key_of x = hello_key_of xi →
          xj.(hc_now) < x.(hc_challenge_expires_at)) →
  (runs present ∅ xs).1 !! i = Some (Ok h) →
  (∀ h', (runs present ∅ xs).1 !! j ≠ Some (Ok h')) ∧
  (size (runs present ∅ xs).2 ≤ MAX_MEMORY_REPLAY_ENTRIES)%nat.
Proof.
  intros Hs Hi Hj Hij Hk He Ha. split.
  2:{ apply (runs_inv _ (λ c, (size c ≤ MAX_MEMORY_REPLAY_ENTRIES)%nat)); [rewrite map_size_empty; lia|].
      intros c x _. apply present_size. }
  rewrite (runs_lookup _ _ _ _ _ Hi) in Ha. injection Ha as Ha.
  apply present_ok_recorded in Ha as (k & Hki & Hv). rewrite Hki in Hk.
  intros h'. rewrite (runs_lookup_after _ _ _ _ _ _ Hi Hij).
  assert (drop (S i) xs !! (j - S i)%nat = Some xj) as Hj'.
  { rewrite lookup_drop, <-Hj. f_equal. lia. }
  rewrite (runs_lookup _ _ _ _ _ Hj'). intros [= Hh].
  destruct (presents_keep (take (j - S i) (drop (S i) xs)) _ k _ xj.(hc_now) Hv) as (v & Hv' & Ht).
  - apply (He i xi); [lia|done..].
  - intros x (m & Hm)%list_elem_of_lookup. apply lookup_take_Some in Hm as [Hm Hlt].
    rewrite lookup_drop in Hm. split; [by apply (Hs (S i + m)%nat j x xj); [lia| |]|].
    intros Hx. apply (He (S i + m)%nat x); [lia|done|congruence].
  - destruct (present_keeps _ _ _ _ _ Hv' Ht (Z.le_refl _)) as [_ Hno]; [|by apply (Hno Hk h')].
    intros _. apply (He j xj); [lia|done|congruence].
Qed.

(** An accepted hello authenticates the device for this challenge: the
    account is that of the access token, the key is the one the API answered for
    that device, it is not revoked, and its signature is over the server's
    nonce, the client's nonce, the account, the device, the negotiated version,
    a time within 30 seconds, the offered versions and the capabilities; and if
    a second accepted hello, of any connection, presented the same digest to the
    key, then it is about the same challenge and scope, or the two are a SHA-256
    collision. *)
Theorem hello_binds_challenge `{P : Primitives} `{D : SignalDecoders} c x c' h d e d' h' :
  present c x = (Ok h, c') → present d e = (Ok h', d') →
  in_u16 x.(hc_negotiation).(pn_selected_version) → in_u64 x.(hc_response).(hl_timestamp) →
  in_u16 e.(hc_negotiation).(pn_selected_version) → in_u64 e.(hc_response).(hl_timestamp) →
  ∃ s s' bs bs',
    hello_proved x.(hc_claims) x.(hc_negotiation) x.(hc_response) h s x.(hc_now) ∧
    s.(hs_server_nonce) = x.(hc_server_nonce) ∧ s'.(hs_server_nonce) = e.(hc_server_nonce) ∧
    scope_bytes s = Ok bs ∧ scope_bytes s' = Ok bs' ∧
    (sha256 bs = sha256 bs' → s = s' ∨ sha256_collision bs bs').
Proof.
  intros (cn & H)%present_ok_checks (cn' & H')%present_ok_checks Hv Ht Hv' Ht'.
  apply hello_checks_ok in H as (_ & _ & _ & H), H' as (_ & _ & _ & H').
  destruct (hp_signed _ _ _ _ _ _ H) as (bs & _ & Hb & _), (hp_signed _ _ _ _ _ _ H') as (bs' & _ & Hb' & _).
  do 4 eexists. split_and!; [exact H|done|..]; [|exact Hb|exact Hb'|]; [done|].
  intros [->|Hc]%sha256_equal; [left|by right]. by apply (scope_bytes_inj _ _ bs').
Qed.

(** ** Witnesses *)

(** Decoders that read text as it is, with one access token. *)
Definition example_access : AccessClaims := {|
  acl_account_id := str "account"; acl_account_session_id := str "session"; acl_issued_at := 0;
  acl_expires_at := 1000000; acl_mfa_verified := true; acl_token_type := str "access" |}.

Definition plain_decoders : SignalDecoders := {|
  signal_base64 := {| b64url_decode := Some |};
  Json := unit; canonical_json _ := Some []; access_claims_from_json _ := Some example_access |}.

Definition example_headers := (str "2,1,2", str "1").

Definition example_negotiation : ProtocolNegotiation := {|
  pn_client_versions := [1; 2]; pn_client_min_version := 1; pn_selected_version := 1;
  pn_versions_hash :=
    match protocol_versions_hash (P := toy) [1; 2] 1 with Ok h => h | Err _ => [] end |}.

Lemma negotiation_exact_witness :
  parse_protocol_headers (P := toy) (Some (str "2,1,2")) (Some (str "1")) = Ok example_negotiation ∧
  parse_protocol_headers (P := toy) (Some (str "1,2")) (Some (str "1")) =
  parse_protocol_headers (P := toy) (Some (str "2,1,2")) (Some (str "1")).
Proof.
  split; [vm_compute; reflexivity|].
  apply (negotiation_exact (P := toy) (str "2,1,2") (str "1") [2; 1; 2] eq_refl) with (l' := [1; 2]).
  - vm_compute; reflexivity.
  - intros v. rewrite !elem_of_cons. tauto.
Defined.

Definition example_key : bytes := be_bytes 32 7.

Definition example_device : TrustedDevice := {|
  td_account_id := str "account"; td_device_id := str "device"; td_public_key_id := str "key";
  td_public_key_version := 1; td_public_key := example_key; td_public_key_revoked := false |}.

Definition example_capabilities : bytes :=
  match client_capabilities_hash (P := toy) (D := plain_decoders) tt with Ok h => h | Err _ => [] end.

Definition example_scope (client_nonce : bytes) : hello_scope := {|
  hs_server_nonce := be_bytes 32 1; hs_client_nonce := client_nonce; hs_account := str "account";
  hs_device := str "device"; hs_version := 1; hs_time := 5000;
  hs_versions_hash := example_negotiation.(pn_versions_hash);
  hs_capabilities_hash := example_capabilities |}.

Definition example_hello (client_nonce : bytes) : HelloResponse (D := plain_decoders) :=
  Build_HelloResponse plain_decoders
  (str "account") (str "device") client_nonce 5000 [1; 2] 1 (str "key") 1
  (encode_hex example_negotiation.(pn_versions_hash)) tt (encode_hex example_capabilities)
  (match scope_bytes (example_scope client_nonce) with
   | Ok bs => ed25519_sign (Primitives := toy) example_key (sha256 (Primitives := toy) bs)
   | Err _ => [] end).

Definition example_call (client_nonce : bytes) (authorize : DeviceAuthRequest → option TrustedDevice)
    : hello_call (D := plain_decoders) :=
  Build_hello_call example_access (str "token") example_negotiation (be_bytes 32 1) 30000
    (example_hello client_nonce) authorize 6000.

Definition example_hello_call : hello_call (D := plain_decoders) :=
  example_call (be_bytes 32 2) (λ _, Some example_device).

Lemma hello_accepted_once_witness :
  (runs (present (P := toy)) ∅ [example_hello_call; example_hello_call]).1 !! 0%nat =
    Some (Ok {| ah_device := example_device; ah_capabilities_hash := example_capabilities |}) ∧
  ∀ h', (runs (present (P := toy)) ∅ [example_hello_call; example_hello_call]).1 !! 1%nat ≠ Some (Ok h').
Proof.
  split; [vm_compute; reflexivity|].
  apply (hello_accepted_once (P := toy) [example_hello_call; example_hello_call] 0 1 example_hello_call
    example_hello_call {| ah_device := example_device; ah_capabilities_hash := example_capabilities |}).
  - intros i j a b _ Ha Hb. apply list_elem_of_lookup_2 in Ha, Hb.
    rewrite !elem_of_cons in Ha, Hb.
    assert (a = example_hello_call) as -> by (by destruct Ha as [?|[?|[]%not_elem_of_nil]]).
    assert (b = example_hello_call) as -> by (by destruct Hb as [?|[?|[]%not_elem_of_nil]]). reflexivity.
  - reflexivity.
  - reflexivity.
  - lia.
  - reflexivity.
  - intros m x _ Hx _. apply list_elem_of_lookup_2 in Hx. rewrite !elem_of_cons in Hx.
    assert (x = example_hello_call) as -> by (by destruct Hx as [?|[?|[]%not_elem_of_nil]]). reflexivity.
  - vm_compute; reflexivity.
Defined.

Lemma pair_of_fst {A B} (p : A * B) a : p.1 = a → p = (a, p.2).
Proof. by destruct p; intros <-. Qed.

Lemma hello_binds_challenge_witness :
  ∃ s s' bs bs', s.(hs_server_nonce) = be_bytes 32 1 ∧ scope_bytes s = Ok bs ∧ scope_bytes s' = Ok bs' ∧
    (sha256 (Primitives := toy) bs = sha256 (Primitives := toy) bs' →
     s = s' ∨ sha256_collision (H := toy) bs bs').
Proof.
  destruct (hello_binds_challenge (P := toy) ∅ example_hello_call (present (P := toy) ∅ example_hello_call).2
    {| ah_device := example_device; ah_capabilities_hash := example_capabilities |}
    ∅ example_hello_call (present (P := toy) ∅ example_hello_call).2
    {| ah_device := example_device; ah_capabilities_hash := example_capabilities |})
    as (s & s' & bs & bs' & _ & Hn & _ & Hb & Hb' & Hd);
    [apply pair_of_fst; vm_compute; reflexivity|apply pair_of_fst; vm_compute; reflexivity
    |by vm_compute|by vm_compute|by vm_compute|by vm_compute|].
  exists s, s', bs, bs'. done.
Defined.
