(* ===== verification/Signal.v ===== *)
(** * The signalling service

    Models services/signal-server/src: the connection registry of notify.rs, the
    presence of the memory backend of backend.rs, and of lib.rs the device and
    session authorizers, the checks of pushed notifications and of forwarded
    payloads, and the handlers of authenticated messages.

    JSON texts, UUID parsing and Base64 are parameters ([SignalCodec]); the API's
    answers are arguments; error texts are dropped, error codes kept. *)

From stdpp Require Import sorting.
From S2P Require Import Prelude Text Canonical Security Primitives RequestTarget KeySession Access Binding RelayAuth Candidates SignalAuth.

(** ** Devices and sessions the service trusts *)

Record TrustedDeviceSeed := {
  ts_account_id : rstr;
  ts_device_id : rstr;
  ts_public_key_id : rstr;
  ts_public_key_version : Z;
  ts_public_key : rstr;
  ts_public_key_revoked : bool }.

Abbreviation DeviceDirectory := (gmap (rstr * rstr) TrustedDevice).

Inductive DirectoryError := InvalidSeedKey | IdentityIncomplete | DuplicateTrustedDevice.

(** [DeviceDirectory::insert]; a duplicate replaces the device, then fails. *)
Definition directory_insert (d : DeviceDirectory) (t : TrustedDevice)
    : result DirectoryError unit * DeviceDirectory :=
  if (t.(td_account_id) =! []) || (t.(td_device_id) =! []) || (t.(td_public_key_id) =! [])
     || (t.(td_public_key_version) =? 0)
  then (Err IdentityIncomplete, d)
  else
    let key := (t.(td_account_id), t.(td_device_id)) in
    (if bool_decide (is_Some (d !! key)) then Err DuplicateTrustedDevice else Ok tt, <[key := t]> d).

(** [DeviceDirectory::from_json], from the parsed seeds on. *)
Fixpoint directory_from_seeds `{Base64} (d : DeviceDirectory) (seeds : list TrustedDeviceSeed)
    : result DirectoryError DeviceDirectory :=
  match seeds with
  | [] => Ok d
  | s :: seeds =>
      public_key ← ok_or (decode_array 32 s.(ts_public_key)) InvalidSeedKey;
      match directory_insert d {|
          td_account_id := s.(ts_account_id); td_device_id := s.(ts_device_id);
          td_public_key_id := s.(ts_public_key_id);
          td_public_key_version := s.(ts_public_key_version); td_public_key := public_key;
          td_public_key_revoked := s.(ts_public_key_revoked) |} with
      | (Ok _, d) => directory_from_seeds d seeds
      | (Err e, _) => Err e
      end
  end.

(** What the API answers to a device authorization, if it answers at all. *)
Inductive DeviceAuthenticator :=
| DeviceApi (answer : DeviceAuthRequest → option DeviceAuthResponse)
| DeviceMemory (directory : DeviceDirectory).

Definition device_authorize `{D : SignalDecoders} (a : DeviceAuthenticator) (now : Z) (rq : DeviceAuthRequest)
    : option TrustedDevice :=
  match a with
  | DeviceApi answer => response ← answer rq; trusted_device_from_response rq response now
  | DeviceMemory directory =>
      device ← directory !! (rq.(dq_account_id), rq.(dq_device_id));
      if (device.(td_public_key_id) =! rq.(dq_public_key_id))
         && (device.(td_public_key_version) =? rq.(dq_public_key_version))
         && negb device.(td_public_key_revoked)
      then Some device else None
  end.

Record SessionAuthorization := {
  sn_session_id : rstr;
  sn_controller_device_id : rstr;
  sn_controlled_device_id : rstr;
  sn_permissions_digest : rstr;
  sn_relay_token_epoch : Z }.

Record SessionAuthResponse := {
  sr_authorized : bool;
  sr_session_id : rstr;
  sr_controller_device_id : rstr;
  sr_controlled_device_id : rstr;
  sr_permissions_digest : rstr;
  sr_relay_token_epoch : Z }.

Definition peer_for (a : SessionAuthorization) (device_id : rstr) (role : SessionRole) : option rstr :=
  match role with
  | Controller => if a.(sn_controller_device_id) =! device_id then Some a.(sn_controlled_device_id) else None
  | Controlled => if a.(sn_controlled_device_id) =! device_id then Some a.(sn_controller_device_id) else None
  end.

Inductive SessionAuthorizer :=
| SessionApi (answer : rstr → rstr → rstr → SessionRole → option SessionAuthResponse)
| SessionMemory (sessions : gmap rstr SessionAuthorization).

Definition session_authorize (a : SessionAuthorizer) (account_id device_id session_id : rstr)
    (role : SessionRole) : option SessionAuthorization :=
  match a with
  | SessionApi answer =>
      r ← answer account_id device_id session_id role;
      if negb r.(sr_authorized) || (r.(sr_session_id) ≠! session_id) then None
      else
        let authorization := {|
          sn_session_id := r.(sr_session_id);
          sn_controller_device_id := r.(sr_controller_device_id);
          sn_controlled_device_id := r.(sr_controlled_device_id);
          sn_permissions_digest := r.(sr_permissions_digest);
          sn_relay_token_epoch := r.(sr_relay_token_epoch) |} in
        _ ← peer_for authorization device_id role; Some authorization
  | SessionMemory sessions =>
      authorization ← sessions !! session_id;
      _ ← peer_for authorization device_id role; Some authorization
  end.

(** ** Presence: the memory backend *)

Record OnlineDevice := {
  od_account_id : rstr;
  od_device_id : rstr;
  od_public_key_id : rstr;
  od_public_key_version : Z;
  od_public_key : bytes;
  od_client_capabilities_hash : rstr;
  od_status : DeviceStatus;
  od_last_seen : Z;
  od_connection_id : rstr }.

Abbreviation Presence := (gmap (rstr * rstr) OnlineDevice).

Inductive PresenceMutation := Updated | Missing | Superseded.

(** The public key is kept as bytes; the service shows it in Base64. *)
Definition online_device (t : TrustedDevice) (connection_id : rstr) (capabilities_hash : bytes)
    (status : DeviceStatus) (now : Z) : OnlineDevice := {|
  od_account_id := t.(td_account_id); od_device_id := t.(td_device_id);
  od_public_key_id := t.(td_public_key_id); od_public_key_version := t.(td_public_key_version);
  od_public_key := t.(td_public_key); od_client_capabilities_hash := encode_hex capabilities_hash;
  od_status := status; od_last_seen := now; od_connection_id := connection_id |}.

Definition put_presence (p : Presence) (d : OnlineDevice) : Presence :=
  <[(d.(od_account_id), d.(od_device_id)) := d]> p.

(** [list_presence] sorts the devices of the account by id; the order in which
    the hash map is iterated is that of [map_to_list]. *)
Definition device_id_le (a b : OnlineDevice) : Prop := str_le a.(od_device_id) b.(od_device_id).

#[global] Instance device_id_le_dec : RelDecision device_id_le.
Proof. intros a b. unfold device_id_le, str_le. apply _. Defined.

Definition list_presence (p : Presence) (account_id : rstr) : list OnlineDevice :=
  merge_sort device_id_le
    (filter (λ d, d.(od_account_id) = account_id) (snd <$> map_to_list p)).

Definition update_presence (p : Presence) (account_id device_id connection_id : rstr)
    (status : DeviceStatus) (last_seen : Z) : PresenceMutation * Presence :=
  match p !! (account_id, device_id) with
  | None => (Missing, p)
  | Some d =>
      if d.(od_connection_id) ≠! connection_id then (Superseded, p)
      else (Updated, <[(account_id, device_id) := {|
          od_account_id := d.(od_account_id); od_device_id := d.(od_device_id);
          od_public_key_id := d.(od_public_key_id);
          od_public_key_version := d.(od_public_key_version);
          od_public_key := d.(od_public_key);
          od_client_capabilities_hash := d.(od_client_capabilities_hash);
          od_status := status; od_last_seen := last_seen;
          od_connection_id := d.(od_connection_id) |}]> p)
  end.

Definition refresh_presence (p : Presence) (account_id device_id connection_id : rstr) : PresenceMutation :=
  match p !! (account_id, device_id) with
  | None => Missing
  | Some d => if d.(od_connection_id) =! connection_id then Updated else Superseded
  end.

Definition remove_presence (p : Presence) (account_id device_id connection_id : rstr) : bool * Presence :=
  match p !! (account_id, device_id) with
  | Some d => if d.(od_connection_id) =! connection_id
              then (true, delete (account_id, device_id) p) else (false, p)
  | None => (false, p)
  end.

(** ** The connection registry *)

Definition DEFAULT_NOTIFICATION_QUEUE_CAPACITY : nat := 64.

Inductive EnqueueError := PeerOffline | Overloaded.

(** The map of device to connection; the receiving halves the connections hold:
    the bounded queue of notifications and the [superseded] signal. A connection
    registers once, so its id names its channels. *)
Record ConnectionRegistry := {
  cr_connections : gmap rstr rstr;
  cr_queues : gmap rstr (list rstr);
  cr_superseded : gset rstr;
  cr_capacity : nat }.

Definition registry_new (capacity : nat) : option ConnectionRegistry :=
  if (0 <? capacity)%nat
  then Some {| cr_connections := ∅; cr_queues := ∅; cr_superseded := ∅; cr_capacity := capacity |}
  else None.

(** [ConnectionRegistry::register]: the previous owner is told. *)
Definition connect (r : ConnectionRegistry) (device_id connection_id : rstr) : ConnectionRegistry := {|
  cr_connections := <[device_id := connection_id]> r.(cr_connections);
  cr_queues := <[connection_id := []]> r.(cr_queues);
  cr_superseded := match r.(cr_connections) !! device_id with
                   | Some previous => {[previous]} ∪ r.(cr_superseded)
                   | None => r.(cr_superseded)
                   end;
  cr_capacity := r.(cr_capacity) |}.

(** A send to a queue whose receiver is gone finds the channel closed. *)
Definition enqueue (r : ConnectionRegistry) (device_id notification : rstr)
    : result EnqueueError unit * ConnectionRegistry :=
  match r.(cr_connections) !! device_id with
  | None => (Err PeerOffline, r)
  | Some connection_id =>
      match r.(cr_queues) !! connection_id with
      | None => (Err PeerOffline, r)
      | Some queue =>
          if (r.(cr_capacity) <=? length queue)%nat then (Err Overloaded, r)
          else (Ok tt, {| cr_connections := r.(cr_connections);
                          cr_queues := <[connection_id := queue ++ [notification]]> r.(cr_queues);
                          cr_superseded := r.(cr_superseded); cr_capacity := r.(cr_capacity) |})
      end
  end.

(** Whether [acquire_ownership] returns a guard. *)
Definition acquire_ownership (r : ConnectionRegistry) (device_id connection_id : rstr) : bool :=
  match r.(cr_connections) !! device_id with
  | Some owner => owner =! connection_id
  | None => false
  end.

Definition unregister (r : ConnectionRegistry) (device_id connection_id : rstr) : bool * ConnectionRegistry :=
  if acquire_ownership r device_id connection_id
  then (true, {| cr_connections := delete device_id r.(cr_connections); cr_queues := r.(cr_queues);
                 cr_superseded := {[connection_id]} ∪ r.(cr_superseded);
                 cr_capacity := r.(cr_capacity) |})
  else (false, r).

(** [notifications.recv()]: a notification, [Closed] when the queue is empty and
    its sender is gone from the map, or nothing yet. *)
Inductive Received := Notification (n : rstr) | Closed | NothingYet.

Definition recv (r : ConnectionRegistry) (device_id connection_id : rstr) : Received * ConnectionRegistry :=
  match r.(cr_queues) !! connection_id with
  | Some (n :: queue) =>
      (Notification n, {| cr_connections := r.(cr_connections);
                          cr_queues := <[connection_id := queue]> r.(cr_queues);
                          cr_superseded := r.(cr_superseded); cr_capacity := r.(cr_capacity) |})
  | Some [] => (if acquire_ownership r device_id connection_id then NothingYet else Closed, r)
  | None => (Closed, r)
  end.

(** The task ends and drops its receivers. *)
Definition drop_receiver (r : ConnectionRegistry) (connection_id : rstr) : ConnectionRegistry := {|
  cr_connections := r.(cr_connections); cr_queues := delete connection_id r.(cr_queues);
  cr_superseded := r.(cr_superseded); cr_capacity := r.(cr_capacity) |}.

(** ** Messages *)

Inductive ErrorCode :=
| ECUnauthorized | ECDeviceOffline | ECPermissionDenied | ECSessionExpired | ECUnsupportedVersion
| ECInvalidPayload | ECUnsupportedMessageKind | ECInvalidChannel | ECReplayDetected
| ECAuthenticationFailed | ECInternal.

Inductive PersistedNotificationType :=
| SessionInvite | SessionInviteQueued | SessionAcceptAck | SessionRejectAck | SessionCancelAck
| SessionCloseAck | ConnectionStateNote.

(** The members of [session] the service reads, when it is an object. *)
Record SessionSnapshot := {
  ss_session_id : option rstr;
  ss_status : option rstr;
  ss_controller_device_id : option rstr;
  ss_controlled_device_id : option rstr }.

Record PersistedServerNotification := {
  pn_kind : PersistedNotificationType;
  pn_session : option SessionSnapshot;
  pn_session_id : option rstr;
  pn_status : option rstr;
  pn_actor_type : option rstr;
  pn_actor_device_id : option rstr;
  pn_actor_role : option rstr;
  pn_actor_service : option rstr;
  pn_reason : option rstr;
  pn_event_id : option rstr }.

(** [o.as_deref().is_none_or(str::is_empty)]. *)
Definition none_or_empty (o : option rstr) : bool :=
  match o with Some s => s =! [] | None => true end.

Definition valid_actor (n : PersistedServerNotification) : bool :=
  match n.(pn_actor_type) with
  | Some t =>
      if t =! str "device" then
        negb (none_or_empty n.(pn_actor_device_id))
        && ((n.(pn_actor_role) =! Some (str "controller")) || (n.(pn_actor_role) =! Some (str "controlled")))
        && (n.(pn_actor_service) =! None)
      else if t =! str "service" then
        (n.(pn_actor_device_id) =! None) && (n.(pn_actor_role) =! None)
        && negb (none_or_empty n.(pn_actor_service))
      else if t =! str "system" then
        (n.(pn_actor_device_id) =! None) && (n.(pn_actor_role) =! None) && (n.(pn_actor_service) =! None)
      else false
  | None => false
  end.

Definition is_valid_for_device (n : PersistedServerNotification) (device_id : rstr) : bool :=
  match n.(pn_session) with
  | Some {| ss_session_id := Some snapshot_session_id; ss_status := Some snapshot_status;
            ss_controller_device_id := controller; ss_controlled_device_id := controlled |} =>
      if (snapshot_session_id =! []) || (snapshot_status =! [])
         || ((Some device_id ≠! controller) && (Some device_id ≠! controlled))
      then false
      else match n.(pn_kind) with
      | SessionInvite | SessionInviteQueued => true
      | kind =>
          if (n.(pn_session_id) ≠! Some snapshot_session_id) || (n.(pn_status) ≠! Some snapshot_status)
             || none_or_empty n.(pn_event_id) || negb (valid_actor n)
          then false
          else match kind with
               | SessionRejectAck | SessionCancelAck | SessionCloseAck => negb (none_or_empty n.(pn_reason))
               | _ => true
               end
      end
  | _ => false
  end.

Record InternalPushRequest := {
  pu_device_id : rstr;
  pu_message : PersistedServerNotification }.

Definition valid_device_id (device_id : rstr) : bool :=
  (device_id ≠! []) && (len device_id <=? 128) && is_trimmed device_id
  && forallb (λ c, negb (is_control c)) (chars device_id).

Inductive AuthenticatedClientMessage `{D : SignalDecoders} :=
| Ping
| ListOnlineDevices
| SetDeviceStatus (device_id : rstr) (status : DeviceStatus) (seen_at : Z)
| ConnectionCandidate (session_id : rstr) (role : SessionRole) (payload : Json)
| RequestCandidateToken (payload : CandidateTokenRequest)
| KeyExchangeMessage (session_id : rstr) (role : SessionRole) (payload : Json)
| KeyConfirmMessage (session_id : rstr) (role : SessionRole) (payload : Json).

Inductive ServerMessage :=
| Pong
| HelloChallenge (account_id : rstr) (protocol_version : Z) (server_nonce : bytes) (expires_at : Z)
    (server_versions : list Z)
| HelloOk (account_id device_id : rstr) (protocol_version : Z) (connection_id versions_hash
    capabilities_hash : rstr) (server_versions : list Z) (server_time : Z)
| DeviceStatusUpdated (device_id : rstr) (status : DeviceStatus)
| OnlineDevices (devices : list OnlineDevice)
| CandidateTokenIssuedMessage (issued : CandidateTokenIssued)
| SessionMessageForwarded (session_id message_type target_device_id : rstr)
| AuthFailed (code : ErrorCode)
| ErrorMessage (code : ErrorCode).

Record CandidatePayload := {
  cp_candidate : ConnectionCandidateDto;
  cp_authorization : CandidateAuthorization;
  cp_transport_certificate_der : option rstr;
  cp_server_name : option rstr }.

(** [serde_json] and [uuid]: parsers of the texts the service reads and writers
    of the texts it queues. *)
Class SignalCodec := {
  codec_decoders :: SignalDecoders;
  parse_value : rstr → option Json;
  value_type : Json → option rstr;
  parse_client_message : rstr → option AuthenticatedClientMessage;
  parse_push : bytes → option InternalPushRequest;
  push_to_json : PersistedServerNotification → option rstr;
  candidate_payload_from_json : Json → option CandidatePayload;
  key_exchange_from_json : Json → option SignedKeyExchange;
  key_confirm_from_json : Json → option KeyConfirm;
  forward_to_json : rstr → rstr → SessionRole → rstr → Json → option rstr;
  parse_uuid : rstr → option Z }.

Definition MAX_INTERNAL_PUSH_BODY_BYTES : Z := 64 * 1024.
Definition MAX_SESSION_CERTIFICATE_DER_BYTES : Z := 16 * 1024.

(** [value.ends_with(suffix)]. *)
Definition ends_with (suffix s : bytes) : bool :=
  (length suffix <=? length s)%nat && (drop (length s - length suffix) s =! suffix).

Definition valid_session_server_name (value : rstr) : bool :=
  (len value <=? 253) && bool_decide (is_Some (strip_prefix (str "rctl-") value))
  && ends_with (str ".invalid") value
  && forallb (λ b, byte_in 97 122 b || byte_in 48 57 b || (b =! x2d) || (b =! x2e)) value.

Definition is_forbidden_ws_write (message_type : rstr) : bool :=
  bool_decide (message_type ∈ [str "register_device"; str "invite_session"; str "create_session";
    str "accept_session"; str "reject_session"; str "cancel_session"; str "close_session";
    str "connection_state"]).

(** [bearer]: the token of the Authorization header, an ASCII text. *)
Definition bearer (authorization : option rstr) : option rstr :=
  value ← authorization;
  token ← strip_prefix (str "Bearer ") value;
  if token =! [] then None else Some token.

Inductive PushResponse :=
| PushAccepted | PushUnauthorized | PushPayloadTooLarge | PushInvalidPayload | PushDeviceOffline
| PushQueueFull.

Inductive UpgradeError := UpgradeUnauthorized | UpgradeUnsupportedVersion | UpgradeInvalidHeader.

(** ** Handlers *)

Section handlers.
Context `{P : Primitives} `{C : SignalCodec}.

Definition validate_upgrade (authorization versions minimum : option rstr) (token_secret : bytes) (now : Z)
    : result UpgradeError (AccessClaims * rstr * ProtocolNegotiation) :=
  token ← ok_or (bearer authorization) UpgradeUnauthorized;
  claims ← map_err (λ _, UpgradeUnauthorized) (verify_access_token token token_secret now);
  negotiation ← map_err (λ e, match e with
                              | UnsupportedVersion => UpgradeUnsupportedVersion
                              | _ => UpgradeInvalidHeader end)
                  (parse_protocol_headers versions minimum);
  Ok (claims, token, negotiation).

Definition internal_push (r : ConnectionRegistry) (authorization : option rstr) (body : bytes)
    (service_token : rstr) : PushResponse * ConnectionRegistry :=
  match bearer authorization with
  | Some token =>
      if negb (service_token_matches token service_token) then (PushUnauthorized, r)
      else if MAX_INTERNAL_PUSH_BODY_BYTES <? len body then (PushPayloadTooLarge, r)
      else match parse_push body with
      | None => (PushInvalidPayload, r)
      | Some request =>
          if negb (valid_device_id request.(pu_device_id))
             || negb (is_valid_for_device request.(pu_message) request.(pu_device_id))
          then (PushInvalidPayload, r)
          else match push_to_json request.(pu_message) with
          | None => (PushInvalidPayload, r)
          | Some notification =>
              let '(sent, r) := enqueue r request.(pu_device_id) notification in
              (match sent with
               | Ok _ => PushAccepted
               | Err PeerOffline => PushDeviceOffline
               | Err Overloaded => PushQueueFull
               end, r)
          end
      end
  | None => (PushUnauthorized, r)
  end.

Definition transport_identity_valid (role : SessionRole) (v : CandidatePayload) : bool :=
  match role with
  | Controller => (v.(cp_transport_certificate_der) =! None) && (v.(cp_server_name) =! None)
  | Controlled =>
      match v.(cp_transport_certificate_der) ≫= b64url_decode, v.(cp_server_name) with
      | Some certificate, Some name =>
          (certificate ≠! []) && (len certificate <=? MAX_SESSION_CERTIFICATE_DER_BYTES)
          && valid_session_server_name name
      | _, _ => false
      end
  end.

Definition validate_forward_payload (message_type : rstr) (payload : Json) (session_id : Z)
    (device_id : rstr) (role : SessionRole) (now : Z) : bool :=
  if message_type =! str "connection_candidate" then
    match candidate_payload_from_json payload with
    | Some v =>
        transport_identity_valid role v
        && (v.(cp_candidate).(cd_session_id) =? session_id)
        && (v.(cp_candidate).(cd_device_id) =! device_id)
        && (v.(cp_candidate).(cd_role) =! role)
        && (v.(cp_authorization).(ca_candidate_token) ≠! [])
        && (now <? v.(cp_authorization).(ca_expires_at))
    | None => false
    end
  else if message_type =! str "key_exchange_message" then
    match key_exchange_from_json payload with
    | Some v =>
        (v.(ske_payload).(kx_session_id) =? session_id)
        && (v.(ske_payload).(kx_device_id) =! device_id)
        && (v.(ske_payload).(kx_role) =! role)
        && validate_path_binding v.(ske_payload)
        && (length v.(ske_signature) =? 64)%nat
    | None => false
    end
  else if message_type =! str "key_confirm" then
    match key_confirm_from_json payload with
    | Some v => (v.(kc_session_id) =? session_id) && (v.(kc_device_id) =! device_id) && (v.(kc_role) =! role)
    | None => false
    end
  else false.

Definition forward_session_message (r : ConnectionRegistry) (sessions : SessionAuthorizer)
    (account_id authenticated_device_id message_type session_id : rstr) (role : SessionRole)
    (payload : Json) (now : Z) : ServerMessage * ConnectionRegistry :=
  match parse_uuid session_id with
  | None => (ErrorMessage ECInvalidPayload, r)
  | Some binary_session_id =>
      if negb (validate_forward_payload message_type payload binary_session_id
                 authenticated_device_id role now)
      then (ErrorMessage ECInvalidPayload, r)
      else match session_authorize sessions account_id authenticated_device_id session_id role with
      | None => (ErrorMessage ECPermissionDenied, r)
      | Some authorization =>
          match peer_for authorization authenticated_device_id role with
          | None => (ErrorMessage ECPermissionDenied, r)
          | Some peer_device_id =>
              match forward_to_json message_type session_id role authenticated_device_id payload with
              | None => (ErrorMessage ECInvalidPayload, r)
              | Some notification =>
                  let '(sent, r) := enqueue r peer_device_id notification in
                  (match sent with
                   | Ok _ => SessionMessageForwarded session_id message_type peer_device_id
                   | Err PeerOffline => ErrorMessage ECDeviceOffline
                   | Err Overloaded => ErrorMessage ECInternal
                   end, r)
              end
          end
      end
  end.

(** [candidate_token] is the 32 random bytes the code draws. *)
Definition issue_lan_candidate_token (g : LanCandidateGuard) (sessions : SessionAuthorizer)
    (account_id authenticated_device_id : rstr) (authenticated_public_key : bytes)
    (request : CandidateTokenRequest) (candidate_token : bytes) (now : Z)
    : ServerMessage * LanCandidateGuard :=
  match session_authorize sessions account_id authenticated_device_id
          (uuid_string request.(tq_session_id)) request.(tq_role) with
  | None => (ErrorMessage ECPermissionDenied, g)
  | Some _ =>
      match lan_validate_request g request request.(tq_session_id) authenticated_device_id
              request.(tq_role) authenticated_public_key now with
      | (Err _, g) => (ErrorMessage ECInvalidPayload, g)
      | (Ok candidate, g) =>
          let expires_at := sat_add 64 now request.(tq_requested_ttl_millis) in
          match candidate_token_binding_hash candidate expires_at with
          | Err _ => (ErrorMessage ECInvalidPayload, g)
          | Ok binding => (CandidateTokenIssuedMessage {|
              ci_session_id := request.(tq_session_id); ci_device_id := request.(tq_device_id);
              ci_role := request.(tq_role); ci_candidate_id := request.(tq_candidate_id);
              ci_candidate_token := candidate_token; ci_binding_hash := binding;
              ci_expires_at := expires_at |}, g)
          end
      end
  end.

(** What the handlers of a connection share with those of the others. *)
Record AppState := {
  st_presence : Presence;
  st_connections : ConnectionRegistry;
  st_lan_candidate_guard : LanCandidateGuard }.

Definition set_presence (s : AppState) (p : Presence) : AppState := {|
  st_presence := p; st_connections := s.(st_connections);
  st_lan_candidate_guard := s.(st_lan_candidate_guard) |}.
Definition set_connections (s : AppState) (r : ConnectionRegistry) : AppState := {|
  st_presence := s.(st_presence); st_connections := r;
  st_lan_candidate_guard := s.(st_lan_candidate_guard) |}.
Definition set_guard (s : AppState) (g : LanCandidateGuard) : AppState := {|
  st_presence := s.(st_presence); st_connections := s.(st_connections); st_lan_candidate_guard := g |}.

(** The authenticated connection a message arrives on. *)
Record Identity := {
  id_account : rstr; id_device : rstr; id_public_key : bytes; id_connection : rstr }.

Definition handle_forward (s : AppState) (sessions : SessionAuthorizer) (i : Identity)
    (message_type session_id : rstr) (role : SessionRole) (payload : Json) (now : Z)
    : ServerMessage * AppState :=
  let '(m, r) := forward_session_message s.(st_connections) sessions i.(id_account) i.(id_device)
                   message_type session_id role payload now in
  (m, set_connections s r).

Definition handle_authenticated_text (s : AppState) (sessions : SessionAuthorizer) (i : Identity)
    (text : rstr) (candidate_token : bytes) (now : Z) : ServerMessage * AppState :=
  match parse_value text with
  | None => (ErrorMessage ECInvalidPayload, s)
  | Some value =>
      if is_forbidden_ws_write (default [] (value_type value)) then (ErrorMessage ECPermissionDenied, s)
      else match parse_client_message text with
      | None => (ErrorMessage ECUnsupportedMessageKind, s)
      | Some Ping => (Pong, s)
      | Some ListOnlineDevices => (OnlineDevices (list_presence s.(st_presence) i.(id_account)), s)
      | Some (SetDeviceStatus device_id status _) =>
          if device_id ≠! i.(id_device) then (ErrorMessage ECPermissionDenied, s)
          else
            let '(m, p) := update_presence s.(st_presence) i.(id_account) device_id
                             i.(id_connection) status now in
            (match m with
             | Updated => DeviceStatusUpdated device_id status
             | Missing => ErrorMessage ECDeviceOffline
             | Superseded => ErrorMessage ECAuthenticationFailed
             end, set_presence s p)
      | Some (ConnectionCandidate session_id role payload) =>
          handle_forward s sessions i (str "connection_candidate") session_id role payload now
      | Some (RequestCandidateToken payload) =>
          let '(m, g) := issue_lan_candidate_token s.(st_lan_candidate_guard) sessions i.(id_account)
                           i.(id_device) i.(id_public_key) payload candidate_token now in
          (m, set_guard s g)
      | Some (KeyExchangeMessage session_id role payload) =>
          handle_forward s sessions i (str "key_exchange_message") session_id role payload now
      | Some (KeyConfirmMessage session_id role payload) =>
          handle_forward s sessions i (str "key_confirm") session_id role payload now
      end
  end.
End handlers.

(** ** Lemmas *)

(** Every trusted device is stored under its own identity. *)
Definition directory_ok (d : DeviceDirectory) : Prop :=
  map_Forall (λ k t, k = (t.(td_account_id), t.(td_device_id)) ∧ t.(td_public_key_version) ≠ 0) d.

Lemma directory_insert_ok d t r d' :
  directory_ok d → directory_insert d t = (r, d') → directory_ok d'.
Proof.
  unfold directory_insert. intros Hd. destruct (_ || _) eqn:E; [by intros [= _ <-]|].
  intros [= _ <-]. apply map_Forall_insert_2; [|done]. split; [done|]. split_bools. done.
Qed.

Lemma directory_from_seeds_ok `{Base64} d seeds d' :
  directory_ok d → directory_from_seeds d seeds = Ok d' → directory_ok d'.
Proof.
  revert d. induction seeds as [|s seeds IH]; cbn [directory_from_seeds]; intros d Hd Hs;
    [by injection Hs as <-|].
  apply bind_ok in Hs as (k & _ & Hs). destruct (directory_insert _ _) as [[] d1] eqn:E; [|done].
  apply directory_insert_ok in E; [|done]. by apply (IH d1).
Qed.

Definition authenticator_ok (a : DeviceAuthenticator) : Prop :=
  match a with DeviceApi _ => True | DeviceMemory d => directory_ok d end.

(** Whoever vouches for a device, it is the device, account and key asked for. *)
Lemma device_authorize_ok `{D : SignalDecoders} a now rq t :
  authenticator_ok a → device_authorize a now rq = Some t →
  t.(td_account_id) = rq.(dq_account_id) ∧ t.(td_device_id) = rq.(dq_device_id) ∧
  t.(td_public_key_id) = rq.(dq_public_key_id) ∧
  t.(td_public_key_version) = rq.(dq_public_key_version) ∧ t.(td_public_key_revoked) = false.
Proof.
  destruct a as [answer|d]; cbn [authenticator_ok device_authorize]; intros Ha H.
  - apply bind_Some in H as (rs & _ & H). unfold trusted_device_from_response in H.
    destruct (_ || _) eqn:E; [done|]. apply bind_Some in H as (k & _ & [= <-]). cbn. by split_bools.
  - apply bind_Some in H as (x & Hx & H). destruct (_ && _) eqn:E; [|done]. injection H as ->.
    destruct (Ha _ _ Hx) as [[= -> ->] _]. by split_bools.
Qed.

Lemma peer_for_some a d role p :
  peer_for a d role = Some p →
  match role with
  | Controller => d = a.(sn_controller_device_id) ∧ p = a.(sn_controlled_device_id)
  | Controlled => d = a.(sn_controlled_device_id) ∧ p = a.(sn_controller_device_id)
  end.
Proof. destruct role; cbn; case_bool_decide; intros [= <-]; by subst. Qed.

(** An authorized session has the device in the role it claims. *)
Lemma session_authorize_peer a acc d sid role x :
  session_authorize a acc d sid role = Some x → ∃ p, peer_for x d role = Some p.
Proof.
  destruct a as [answer|m]; cbn [session_authorize]; intros (r & _ & H)%bind_Some.
  - destruct (_ || _); [done|]. apply bind_Some in H as (p & Hp & [= <-]). eauto.
  - apply bind_Some in H as (p & Hp & [= <-]). eauto.
Qed.

(** The registry after a notification joined a queue. *)
Definition queued (r : ConnectionRegistry) (c : rstr) (q : list rstr) : ConnectionRegistry := {|
  cr_connections := r.(cr_connections); cr_queues := <[c := q]> r.(cr_queues);
  cr_superseded := r.(cr_superseded); cr_capacity := r.(cr_capacity) |}.

Lemma enqueue_cases r d n :
  (∃ e, enqueue r d n = (Err e, r)) ∨
  ∃ c q, r.(cr_connections) !! d = Some c ∧ r.(cr_queues) !! c = Some q ∧
    (length q < r.(cr_capacity))%nat ∧ enqueue r d n = (Ok tt, queued r c (q ++ [n])).
Proof.
  unfold enqueue. destruct (cr_connections r !! d) as [c|] eqn:Hc; [|left; eauto].
  destruct (cr_queues r !! c) as [q|] eqn:Hq; [|left; eauto].
  destruct (Nat.leb_spec (cr_capacity r) (length q)); [left; eauto|].
  right. exists c, q. by split_and!.
Qed.

(** The errors of [enqueue], exactly. *)
Lemma enqueue_exact r d n :
  ((enqueue r d n).1 = Err PeerOffline ↔
     ∀ c q, r.(cr_connections) !! d = Some c → r.(cr_queues) !! c ≠ Some q) ∧
  ((enqueue r d n).1 = Err Overloaded ↔
     ∃ c q, r.(cr_connections) !! d = Some c ∧ r.(cr_queues) !! c = Some q ∧
            (r.(cr_capacity) ≤ length q)%nat).
Proof.
  unfold enqueue. destruct (cr_connections r !! d) as [c|] eqn:Hc; [|naive_solver].
  destruct (cr_queues r !! c) as [q|] eqn:Hq; [|naive_solver].
  destruct (Nat.leb_spec (cr_capacity r) (length q)) as [Hl|Hl]; cbn; split; split; intros H; try done.
  - by destruct (H c q).
  - by exists c, q.
  - by destruct (H c q).
  - destruct H as (c' & q' & [= <-] & Hq' & Hl'). rewrite Hq in Hq'. injection Hq' as <-. lia.
Qed.

Section handler_lemmas.
Context `{P : Primitives} `{C : SignalCodec}.

(** One message was forwarded: to the device at the other end of a session in
    which the sender has the role it claims, with a payload bound to sender, role
    and session. *)
Record forwarded (sessions : SessionAuthorizer) (i : Identity) (now : Z) (r r' : ConnectionRegistry)
    (peer c n : rstr) : Prop := {
  fw_session : ∃ mt sid role payload x uuid,
    session_authorize sessions i.(id_account) i.(id_device) sid role = Some x ∧
    peer_for x i.(id_device) role = Some peer ∧ parse_uuid sid = Some uuid ∧
    validate_forward_payload mt payload uuid i.(id_device) role now = true ∧
    forward_to_json mt sid role i.(id_device) payload = Some n;
  fw_owner : r.(cr_connections) !! peer = Some c;
  fw_queue : ∃ q, r.(cr_queues) !! c = Some q ∧ (length q < r.(cr_capacity))%nat ∧ r' = queued r c (q ++ [n]) }.

Lemma forward_cases r sessions i mt sid role payload now m r' :
  forward_session_message r sessions i.(id_account) i.(id_device) mt sid role payload now = (m, r') →
  (∃ e, m = ErrorMessage e ∧ r' = r) ∨
  ∃ peer c n, m = SessionMessageForwarded sid mt peer ∧ forwarded sessions i now r r' peer c n.
Proof.
  unfold forward_session_message.
  destruct (parse_uuid sid) as [u|] eqn:Hu; [|intros [= <- <-]; left; eauto].
  destruct (validate_forward_payload _ _ _ _ _ _) eqn:Hv; cbn [negb]; [|intros [= <- <-]; left; eauto].
  destruct (session_authorize _ _ _ _ _) as [x|] eqn:Hx; [|intros [= <- <-]; left; eauto].
  destruct (peer_for x _ _) as [p|] eqn:Hp; [|intros [= <- <-]; left; eauto].
  destruct (forward_to_json _ _ _ _ _) as [n|] eqn:Hn; [|intros [= <- <-]; left; eauto].
  destruct (enqueue_cases r p n) as [[e ->]|(c & q & Hc & Hq & Hl & ->)]; intros [= <- <-].
  - left. destruct e; eauto.
  - right. exists p, c, n. split; [done|]. split; [|done|by exists q].
    exists mt, sid, role, payload, x, u. by split_and!.
Qed.

Lemma forward_enqueues r sessions acc d mt sid role payload now u x p n :
  parse_uuid sid = Some u → validate_forward_payload mt payload u d role now = true →
  session_authorize sessions acc d sid role = Some x → peer_for x d role = Some p →
  forward_to_json mt sid role d payload = Some n →
  (forward_session_message r sessions acc d mt sid role payload now).2 = (enqueue r p n).2.
Proof.
  intros Hu Hv Hx Hp Hn. unfold forward_session_message. rewrite Hu, Hv, Hx, Hp, Hn.
  by destruct (enqueue r p n).
Qed.

(** What a connection may do to its own presence. *)
Definition own_status (i : Identity) (now : Z) (p p' : Presence) : Prop :=
  ∃ d status, p !! (i.(id_account), i.(id_device)) = Some d ∧ d.(od_connection_id) = i.(id_connection) ∧
    p' = <[(i.(id_account), i.(id_device)) := {|
      od_account_id := d.(od_account_id); od_device_id := d.(od_device_id);
      od_public_key_id := d.(od_public_key_id); od_public_key_version := d.(od_public_key_version);
      od_public_key := d.(od_public_key);
      od_client_capabilities_hash := d.(od_client_capabilities_hash);
      od_status := status; od_last_seen := now; od_connection_id := d.(od_connection_id) |}]> p.

Lemma update_presence_cases p i status now m p' :
  update_presence p i.(id_account) i.(id_device) i.(id_connection) status now = (m, p') →
  (m ≠ Updated ∧ p' = p) ∨ (m = Updated ∧ own_status i now p p').
Proof.
  unfold update_presence. destruct (p !! _) as [d|] eqn:Hd; [|intros [= <- <-]; by left].
  case_bool_decide as Hc; intros [= <- <-]; [right|by left]. split; [done|].
  exists d, status. by split_and!.
Qed.

(** What a message of [i] may do to the shared state. *)
Definition confined (sessions : SessionAuthorizer) (i : Identity) (now : Z) (s s' : AppState) : Prop :=
  s'.(st_connections).(cr_connections) = s.(st_connections).(cr_connections) ∧
  s'.(st_connections).(cr_superseded) = s.(st_connections).(cr_superseded) ∧
  ((s'.(st_presence) = s.(st_presence) ∧ s'.(st_connections) = s.(st_connections)) ∨
   (own_status i now s.(st_presence) s'.(st_presence) ∧ s' = set_presence s s'.(st_presence)) ∨
   ∃ peer c n, forwarded sessions i now s.(st_connections) s'.(st_connections) peer c n ∧
               s' = set_connections s s'.(st_connections)).

Lemma confined_same sessions i now s : confined sessions i now s s.
Proof. split_and!; auto. Qed.

Lemma handle_forward_confined s sessions i mt sid role payload now :
  confined sessions i now s (handle_forward s sessions i mt sid role payload now).2.
Proof.
  unfold handle_forward. destruct (forward_session_message _ _ _ _ _ _ _ _ _) as [m r] eqn:E.
  apply forward_cases in E as [(e & _ & ->)|(peer & c & n & _ & Hw)]; cbn; [split_and!; auto|].
  destruct (fw_queue _ _ _ _ _ _ _ _ Hw) as (q & _ & _ & Hr).
  split; [cbn; by rewrite Hr|]. split; [cbn; by rewrite Hr|]. right; right. by exists peer, c, n.
Qed.

Lemma set_status_confined s sessions i status now :
  confined sessions i now s (set_presence s
    (update_presence s.(st_presence) i.(id_account) i.(id_device) i.(id_connection) status now).2).
Proof.
  destruct (update_presence _ _ _ _ _ _) as [m p] eqn:E. cbn.
  apply update_presence_cases in E as [[_ ->]|[_ Hp]]; split_and!; auto.
Qed.
Lemma text_confined s sessions i text token now :
  confined sessions i now s (handle_authenticated_text s sessions i text token now).2.
Proof.
  unfold handle_authenticated_text.
  destruct (parse_value text); [|apply confined_same].
  destruct (is_forbidden_ws_write _); [apply confined_same|].
  destruct (parse_client_message text) as [[]|];
    try apply handle_forward_confined; try apply confined_same.
  - case_bool_decide as Hd; cbn [negb]; [|apply confined_same]. subst.
    pose proof (set_status_confined s sessions i status now) as H.
    by destruct (update_presence _ _ _ _ _ _) as [m p].
  - destruct (issue_lan_candidate_token _ _ _ _ _ _ _ _) as [m g]. split_and!; auto.
Qed.
End handler_lemmas.

(** ** Theorems *)

(** An authenticated message touches only what its sender may touch: it
    leaves ownership of every connection as it was, and either changes nothing
    but the claims of the LAN guard, or sets the status of the sender's own
    presence, which the sender's connection must still own, or adds one
    notification to the queue of the connection of the device at the other end
    of a session in which the sender has the role it claims. *)
Theorem authenticated_text_confined `{P : Primitives} `{C : SignalCodec} s sessions i text token now :
  confined sessions i now s (handle_authenticated_text s sessions i text token now).2.
Proof. apply text_confined. Qed.

Ltac push_refused :=
  split; [split; [discriminate|]|done];
  intros (? & ? & ? & ? & ? & ? & ? & ? & ? & ? & ? & ? & _); simplify_eq; first [congruence | lia].

(** A push is accepted exactly when it carries the service's token, is at
    most 64 KiB, is a notification for a device that is a party of its session,
    and that device has a live connection with room in its queue, to which alone
    the notification is added; every other push leaves the registry as it was. *)
Theorem push_exact `{P : Primitives} `{C : SignalCodec} r auth body st :
  ((internal_push r auth body st).1 = PushAccepted ↔
   ∃ token q n c queue, bearer auth = Some token ∧ service_token_matches token st = true ∧
     len body ≤ MAX_INTERNAL_PUSH_BODY_BYTES ∧ parse_push body = Some q ∧
     valid_device_id q.(pu_device_id) = true ∧
     is_valid_for_device q.(pu_message) q.(pu_device_id) = true ∧ push_to_json q.(pu_message) = Some n ∧
     r.(cr_connections) !! q.(pu_device_id) = Some c ∧ r.(cr_queues) !! c = Some queue ∧
     (length queue < r.(cr_capacity))%nat ∧
     (internal_push r auth body st).2 = queued r c (queue ++ [n])) ∧
  ((internal_push r auth body st).1 ≠ PushAccepted → (internal_push r auth body st).2 = r).
Proof.
  unfold internal_push. destruct (bearer auth) as [token|]; [|push_refused].
  destruct (service_token_matches token st) eqn:Ht; cbn [negb]; [|push_refused].
  destruct (Z.ltb_spec MAX_INTERNAL_PUSH_BODY_BYTES (len body)); [push_refused|].
  destruct (parse_push body) as [q|] eqn:Hq; [|push_refused].
  destruct (valid_device_id (pu_device_id q)) eqn:Hd; cbn [negb orb]; [|push_refused].
  destruct (is_valid_for_device _ _) eqn:Hv; cbn [negb]; [|push_refused].
  destruct (push_to_json (pu_message q)) as [n|] eqn:Hn; [|push_refused].
  destruct (enqueue_exact r q.(pu_device_id) n) as [Hoff Hover].
  destruct (enqueue_cases r q.(pu_device_id) n) as [[e He]|(c & queue & Hc & Hqu & Hl & He)];
    rewrite He in *; cbn [fst snd] in *.
  - split; [|done]. split; [by destruct e|].
    intros (t & q' & n' & c & qu & _ & _ & _ & [= <-] & _ & _ & _ & Hc & Hqu & Hl & _).
    destruct e; [by destruct (proj1 Hoff eq_refl c qu)|].
    destruct (proj1 Hover eq_refl) as (c' & qu' & Hc' & Hqu' & Hl'). simplify_eq. lia.
  - split; [|done]. split; [|done]. intros _. exists token, q, n, c, queue. by split_and!.
Qed.

Lemma none_or_empty_false o : none_or_empty o = false → ∃ s, o = Some s ∧ s ≠ [].
Proof. destruct o as [s|]; cbn; [|done]. case_bool_decide; [done|]. eauto. Qed.

(** A notification about a session is valid only for the two devices of the
    session, and one that reports the end of a session names a reason and an
    actor. *)
Theorem notification_for_parties n d :
  is_valid_for_device n d = true →
  ∃ s, n.(pn_session) = Some s ∧
    (s.(ss_controller_device_id) = Some d ∨ s.(ss_controlled_device_id) = Some d) ∧
    (n.(pn_kind) ≠ SessionInvite → n.(pn_kind) ≠ SessionInviteQueued →
     valid_actor n = true ∧ n.(pn_session_id) = s.(ss_session_id) ∧ n.(pn_status) = s.(ss_status) ∧
     (n.(pn_kind) ∈ [SessionRejectAck; SessionCancelAck; SessionCloseAck] →
      ∃ why, n.(pn_reason) = Some why ∧ why ≠ [])).
Proof.
  unfold is_valid_for_device. destruct n as [kind [s|] sid st at_ ad ar asv why ev]; cbn [pn_session]; [|done].
  destruct s as [[ssid|] [sst|] cr cd]; try done. intros H. eexists. split; [done|].
  cbn [ss_controller_device_id ss_controlled_device_id ss_session_id ss_status pn_kind pn_session_id pn_status pn_reason] in *.
  destruct (_ || _) eqn:E; [done|]. apply orb_false_iff in E as [_ E]. split.
  { apply andb_false_iff in E as [E|E]; split_bools; auto. }
  intros Hi Hq. destruct kind; try done; destruct (_ || negb _) eqn:E2; try done; split_bools; subst;
    (split; [done|]); (split; [done|]); (split; [done|]); intros Hk;
    first [by apply none_or_empty_false
          |exfalso; by repeat (apply elem_of_cons in Hk as [Hk|Hk]); [..|apply not_elem_of_nil in Hk]].
Qed.
