(* ===== verification/SignalHub.v ===== *)
(** * The sockets of the signalling service

    Models [handle_socket], [remove_connection] and the routes of
    services/signal-server/src/lib.rs as a transition system: one task per
    authenticated socket, running against the shared state of [Signal], with the
    pushes of the API in between. A step is one access to shared state, so every
    interleaving of the tasks is a sequence of steps. *)

From S2P Require Import Prelude Text Canonical Security Primitives KeySession Access Binding Candidates SignalAuth Signal.

(** Where a task is: authenticated and about to write its presence; about to
    register; about to send [hello_ok]; in its select loop; with a notification
    taken from its queue, about to check its ownership; sending it under the
    ownership guard; leaving the loop, about to unregister; about to remove its
    presence; ended. *)
Inductive Phase :=
| Authenticated | PresencePut | Registered | Serving | Taken (n : rstr) | Sending (n : rstr)
| Leaving | Unregistered | Ended.

#[global] Instance Phase_eq_dec : EqDecision Phase.
Proof. solve_decision. Defined.

(** A task: the account of its access token and the hello it accepted. *)
Record Task := {
  tk_account : rstr;
  tk_hello : AuthenticatedHello;
  tk_phase : Phase }.

Definition tk_device (t : Task) : rstr := t.(tk_hello).(ah_device).(td_device_id).

Definition to_phase (t : Task) (p : Phase) : Task :=
  {| tk_account := t.(tk_account); tk_hello := t.(tk_hello); tk_phase := p |}.

Definition tk_identity (c : rstr) (t : Task) : Identity := {|
  id_account := t.(tk_account); id_device := tk_device t;
  id_public_key := t.(tk_hello).(ah_device).(td_public_key); id_connection := c |}.

Record Hub := {
  hb_app : AppState;
  hb_replays : HelloReplays;
  hb_tasks : gmap rstr Task }.

(** [AppState::with_backend] with the memory backend. *)
Definition hub_new : Hub := {|
  hb_app := {| st_presence := ∅;
               st_connections := {| cr_connections := ∅; cr_queues := ∅; cr_superseded := ∅;
                                    cr_capacity := DEFAULT_NOTIFICATION_QUEUE_CAPACITY |};
               st_lan_candidate_guard :=
                 {| lg_accepted_candidates := ∅; lg_accepted_claims := ∅ |} |};
  hb_replays := ∅; hb_tasks := ∅ |}.

Definition set_task (h : Hub) (s : AppState) (c : rstr) (t : Task) : Hub :=
  {| hb_app := s; hb_replays := h.(hb_replays); hb_tasks := <[c := t]> h.(hb_tasks) |}.
Definition set_app (h : Hub) (s : AppState) : Hub :=
  {| hb_app := s; hb_replays := h.(hb_replays); hb_tasks := h.(hb_tasks) |}.

Definition hub_registry (h : Hub) : ConnectionRegistry := h.(hb_app).(st_connections).
Definition set_registry (h : Hub) (r : ConnectionRegistry) : AppState := set_connections h.(hb_app) r.

(** The guard of [acquire_ownership] is a read lock on the map, so [register]
    and [unregister], which write it, wait while any task is sending. *)
Definition is_sending (t : Task) : bool := match t.(tk_phase) with Sending _ => true | _ => false end.
Definition unlocked (h : Hub) : Prop := map_Forall (λ _ t, is_sending t = false) h.(hb_tasks).

(** What happened to the queues in a step: nothing, or one notification joined
    the queue of a connection. *)
Definition grows (r r' : ConnectionRegistry) (l : option (rstr * rstr)) : Prop :=
  match l with
  | None => r' = r
  | Some (c, n) => ∃ d q, r.(cr_connections) !! d = Some c ∧ r.(cr_queues) !! c = Some q ∧
                     (length q < r.(cr_capacity))%nat ∧ r' = queued r c (q ++ [n])
  end.

Inductive Label :=
| LHello (c : rstr) | LRefused | LPresence (c : rstr) | LRegister (c : rstr) | LHelloOk (c : rstr)
| LHandled (by_ : option rstr) (queued : option (rstr * rstr)) | LRefresh (c : rstr)
| LTake (c n : rstr) | LSend (c n : rstr) | LDelivered (c n : rstr) | LNotDelivered (c n : rstr)
| LLeave (c : rstr) | LUnregister (c : rstr) | LEnd (c : rstr).

Section hub.
Context `{P : Primitives} `{C : SignalCodec}.

(** A [hello_call] of [SignalAuth] with the authenticator of the service. *)
Definition authenticator_of (x : hello_call) : Prop :=
  ∃ a, authenticator_ok a ∧ x.(hc_authorize) = device_authorize a x.(hc_now).

Inductive hub_step (h : Hub) : Label → Hub → Prop :=
| hub_hello x a r c :
    authenticator_of x → present h.(hb_replays) x = (Ok a, r) → h.(hb_tasks) !! c = None →
    hub_step h (LHello c) {| hb_app := h.(hb_app); hb_replays := r;
      hb_tasks := <[c := {| tk_account := x.(hc_claims).(acl_account_id); tk_hello := a;
                            tk_phase := Authenticated |}]> h.(hb_tasks) |}
| hub_refused x e r :
    present h.(hb_replays) x = (Err e, r) →
    hub_step h LRefused {| hb_app := h.(hb_app); hb_replays := r; hb_tasks := h.(hb_tasks) |}
| hub_put c t now :
    h.(hb_tasks) !! c = Some t → t.(tk_phase) = Authenticated →
    hub_step h (LPresence c) (set_task h (set_presence h.(hb_app)
      (put_presence h.(hb_app).(st_presence)
         (online_device t.(tk_hello).(ah_device) c t.(tk_hello).(ah_capabilities_hash) Online now)))
      c (to_phase t PresencePut))
| hub_register c t :
    h.(hb_tasks) !! c = Some t → t.(tk_phase) = PresencePut → unlocked h →
    hub_step h (LRegister c)
      (set_task h (set_registry h (connect (hub_registry h) (tk_device t) c)) c (to_phase t Registered))
| hub_hello_ok c t :
    h.(hb_tasks) !! c = Some t → t.(tk_phase) = Registered →
    hub_step h (LHelloOk c) (set_task h h.(hb_app) c (to_phase t Serving))
| hub_push auth body st res r l :
    internal_push (hub_registry h) auth body st = (res, r) → grows (hub_registry h) r l →
    hub_step h (LHandled None l) (set_app h (set_registry h r))
| hub_text c t sessions text token now m s l :
    h.(hb_tasks) !! c = Some t → t.(tk_phase) = Serving →
    handle_authenticated_text h.(hb_app) sessions (tk_identity c t) text token now = (m, s) →
    grows (hub_registry h) s.(st_connections) l →
    hub_step h (LHandled (Some c) l) (set_app h s)
| hub_refresh c t :
    h.(hb_tasks) !! c = Some t → t.(tk_phase) = Serving →
    refresh_presence h.(hb_app).(st_presence) t.(tk_account) (tk_device t) c = Updated →
    hub_step h (LRefresh c) h
| hub_take c t n r :
    h.(hb_tasks) !! c = Some t → t.(tk_phase) = Serving →
    recv (hub_registry h) (tk_device t) c = (Notification n, r) →
    hub_step h (LTake c n) (set_task h (set_registry h r) c (to_phase t (Taken n)))
| hub_send c t n :
    h.(hb_tasks) !! c = Some t → t.(tk_phase) = Taken n →
    acquire_ownership (hub_registry h) (tk_device t) c = true →
    hub_step h (LSend c n) (set_task h h.(hb_app) c (to_phase t (Sending n)))
| hub_not_owner c t n :
    h.(hb_tasks) !! c = Some t → t.(tk_phase) = Taken n →
    acquire_ownership (hub_registry h) (tk_device t) c = false →
    hub_step h (LNotDelivered c n) (set_task h h.(hb_app) c (to_phase t Leaving))
| hub_delivered c t n :
    h.(hb_tasks) !! c = Some t → t.(tk_phase) = Sending n →
    hub_step h (LDelivered c n) (set_task h h.(hb_app) c (to_phase t Serving))
| hub_not_delivered c t n :
    h.(hb_tasks) !! c = Some t → t.(tk_phase) = Sending n →
    hub_step h (LNotDelivered c n) (set_task h h.(hb_app) c (to_phase t Leaving))
| hub_superseded c t :
    h.(hb_tasks) !! c = Some t → t.(tk_phase) = Serving → c ∈ (hub_registry h).(cr_superseded) →
    hub_step h (LLeave c) (set_task h h.(hb_app) c (to_phase t Leaving))
| hub_closed c t r :
    h.(hb_tasks) !! c = Some t → t.(tk_phase) = Serving →
    recv (hub_registry h) (tk_device t) c = (Closed, r) →
    hub_step h (LLeave c) (set_task h h.(hb_app) c (to_phase t Leaving))
| hub_lost_presence c t :
    h.(hb_tasks) !! c = Some t → t.(tk_phase) = Serving →
    refresh_presence h.(hb_app).(st_presence) t.(tk_account) (tk_device t) c ≠ Updated →
    hub_step h (LLeave c) (set_task h h.(hb_app) c (to_phase t Leaving))
| hub_socket_lost c t :
    h.(hb_tasks) !! c = Some t → t.(tk_phase) ∈ [Registered; Serving] →
    hub_step h (LLeave c) (set_task h h.(hb_app) c (to_phase t Leaving))
| hub_unregister c t :
    h.(hb_tasks) !! c = Some t → t.(tk_phase) = Leaving → unlocked h →
    hub_step h (LUnregister c)
      (set_task h (set_registry h (unregister (hub_registry h) (tk_device t) c).2) c
         (to_phase t Unregistered))
| hub_end c t :
    h.(hb_tasks) !! c = Some t → t.(tk_phase) = Unregistered →
    hub_step h (LEnd c)
      (set_task h (set_registry
         {| hb_app := set_presence h.(hb_app)
              (remove_presence h.(hb_app).(st_presence) t.(tk_account) (tk_device t) c).2;
            hb_replays := h.(hb_replays); hb_tasks := h.(hb_tasks) |}
         (drop_receiver (hub_registry h) c)) c (to_phase t Ended)).

Inductive hub_steps (h : Hub) : list Label → Hub → Prop :=
| hub_steps_nil : hub_steps h [] h
| hub_steps_snoc tr h1 l h2 : hub_steps h tr h1 → hub_step h1 l h2 → hub_steps h (tr ++ [l]) h2.

(** Whatever the service is sent has its step: the label says what was queued. *)
Lemma enqueue_grows r d n : ∃ l, grows r (enqueue r d n).2 l.
Proof.
  destruct (enqueue_cases r d n) as [[e ->]|(c & q & Hc & Hq & Hl & ->)]; [by exists None|].
  exists (Some (c, n)), d, q. by split_and!.
Qed.

Lemma push_grows r auth body st : ∃ l, grows r (internal_push r auth body st).2 l.
Proof.
  unfold internal_push. destruct (bearer auth) as [token|]; [|by exists None].
  destruct (negb _); [by exists None|]. destruct (_ <? _); [by exists None|].
  destruct (parse_push body) as [q|]; [|by exists None]. destruct (_ || _); [by exists None|].
  destruct (push_to_json _) as [n|]; [|by exists None].
  pose proof (enqueue_grows r (pu_device_id q) n) as H. by destruct (enqueue _ _ _).
Qed.

Lemma text_grows s sessions i text token now :
  ∃ l, grows s.(st_connections) (handle_authenticated_text s sessions i text token now).2.(st_connections) l.
Proof.
  destruct (text_confined s sessions i text token now) as (_ & _ & [[_ ->]|[[_ ->]|(p & c & n & Hw & _)]]).
  - by exists None.
  - by exists None.
  - destruct (fw_queue _ _ _ _ _ _ _ _ Hw) as (q & Hq & Hl & Hr).
    exists (Some (c, n)), p, q. split_and!; [apply (fw_owner _ _ _ _ _ _ _ _ Hw)|done..].
Qed.
End hub.

(** ** Well-formed hubs *)

(** The phases in which a task may be in the map of connections, holds the
    receiving end of a queue, and may be listed as online. *)
Definition can_own (p : Phase) : bool :=
  match p with Registered | Serving | Taken _ | Sending _ | Leaving => true | _ => false end.
Definition has_queue (p : Phase) : bool := can_own p || bool_decide (p = Unregistered).
Definition has_presence (p : Phase) : bool := has_queue p || bool_decide (p = PresencePut).

Record hub_wf (h : Hub) : Prop := {
  (** the account of the token is that of the device *)
  wf_account c t : h.(hb_tasks) !! c = Some t →
    t.(tk_hello).(ah_device).(td_account_id) = t.(tk_account);
  (** the owner of a device is a live task of that device, not superseded *)
  wf_owner d c : (hub_registry h).(cr_connections) !! d = Some c →
    ∃ t, h.(hb_tasks) !! c = Some t ∧ tk_device t = d ∧ can_own t.(tk_phase) = true ∧
         c ∉ (hub_registry h).(cr_superseded);
  (** a live task that does not own its device has been told *)
  wf_told c t : h.(hb_tasks) !! c = Some t → can_own t.(tk_phase) = true →
    (hub_registry h).(cr_connections) !! tk_device t = Some c ∨ c ∈ (hub_registry h).(cr_superseded);
  wf_superseded c : c ∈ (hub_registry h).(cr_superseded) →
    ∃ t, h.(hb_tasks) !! c = Some t ∧ t.(tk_phase) ≠ Authenticated ∧ t.(tk_phase) ≠ PresencePut;
  (** queues are those of the tasks that hold one, and bounded *)
  wf_queue c : is_Some ((hub_registry h).(cr_queues) !! c) ↔
    ∃ t, h.(hb_tasks) !! c = Some t ∧ has_queue t.(tk_phase) = true;
  wf_bounded c q : (hub_registry h).(cr_queues) !! c = Some q → (length q ≤ (hub_registry h).(cr_capacity))%nat;
  (** the devices listed as online are those of tasks that are not over *)
  wf_presence k o : h.(hb_app).(st_presence) !! k = Some o →
    ∃ t, h.(hb_tasks) !! o.(od_connection_id) = Some t ∧ k = (t.(tk_account), tk_device t) ∧
         has_presence t.(tk_phase) = true;
  (** a task sends only while it owns its device *)
  wf_sending c t n : h.(hb_tasks) !! c = Some t → t.(tk_phase) = Sending n →
    (hub_registry h).(cr_connections) !! tk_device t = Some c }.

Lemma can_own_queue p : can_own p = true → has_queue p = true.
Proof. unfold has_queue. by intros ->. Qed.
Lemma has_queue_presence p : has_queue p = true → has_presence p = true.
Proof. unfold has_presence. by intros ->. Qed.
#[local] Hint Resolve can_own_queue has_queue_presence : core.

Lemma hub_new_wf : hub_wf hub_new.
Proof.
  split; cbn; intros *; rewrite ?lookup_empty; try done.
  by split; [intros [? ?]|intros (t & H & _)].
Qed.

(** Steps that only move one live task between live phases. *)
Lemma phase_wf h c t p :
  h.(hb_tasks) !! c = Some t → can_own t.(tk_phase) = true → can_own p = true →
  ((∃ n, p = Sending n) → (hub_registry h).(cr_connections) !! tk_device t = Some c) →
  hub_wf h → hub_wf (set_task h h.(hb_app) c (to_phase t p)).
Proof.
  intros Ht Hl Hp Hs W. unfold set_task, hub_registry. split; cbn.
  - intros c' t'. rewrite lookup_insert_Some. intros [[<- <-]|[_ H]]; [|by apply (wf_account h W c')].
    cbn. by apply (wf_account h W c).
  - intros d c' Hd. destruct (wf_owner h W _ _ Hd) as (t' & Ht' & Hd' & Ho & Hn).
    destruct (decide (c' = c)) as [->|]; [|exists t'; by rewrite lookup_insert_ne].
    exists (to_phase t p). rewrite lookup_insert_eq. simplify_eq. by split_and!.
  - intros c' t'. rewrite lookup_insert_Some. intros [[<- <-]|[_ H]] Ho; [|by apply (wf_told h W)].
    by apply (wf_told h W c t).
  - intros c' Hc. destruct (wf_superseded h W _ Hc) as (t' & Ht' & H1 & H2).
    destruct (decide (c' = c)) as [->|]; [|exists t'; by rewrite lookup_insert_ne].
    exists (to_phase t p). rewrite lookup_insert_eq. cbn. split_and!; [done|by intros ->..].
  - intros c'. rewrite (wf_queue h W c'). destruct (decide (c' = c)) as [->|].
    + rewrite lookup_insert_eq. split; intros _; eexists; (split; [done|]); cbn; auto.
    + by rewrite lookup_insert_ne.
  - apply (wf_bounded h W).
  - intros k o Ho. destruct (wf_presence h W _ _ Ho) as (t' & Ht' & Hk & Hpr).
    destruct (decide (od_connection_id o = c)) as [Hc|]; [|exists t'; by rewrite lookup_insert_ne].
    exists (to_phase t p). rewrite Hc, lookup_insert_eq in *. simplify_eq. cbn. split_and!; auto.
  - intros c' t' n. rewrite lookup_insert_Some. intros [[<- <-]|[_ H]]; [|by apply (wf_sending h W)].
    cbn. intros ->. apply Hs. eauto.
Qed.

(** A notification joins the queue of the owner of a device. *)
Lemma queued_wf h d c q n :
  (hub_registry h).(cr_connections) !! d = Some c → (hub_registry h).(cr_queues) !! c = Some q →
  (length q < (hub_registry h).(cr_capacity))%nat → hub_wf h →
  hub_wf (set_app h (set_registry h (queued (hub_registry h) c (q ++ [n])))).
Proof.
  intros Hd Hq Hl W. destruct W as [W1 W2 W3 W4 W5 W6 W7 W8]. split; cbn; try done.
  - intros c'. rewrite <-W5. destruct (decide (c' = c)) as [->|]; [|by rewrite lookup_insert_ne].
    rewrite lookup_insert_eq, Hq. by split; intros _; eexists.
  - intros c' q'. rewrite lookup_insert_Some. intros [[<- <-]|[_ H]]; [|by apply (W6 c')].
    rewrite length_app. cbn. lia.
Qed.

(** A task changes the status of the presence it owns. *)
Lemma status_wf h c t now p :
  h.(hb_tasks) !! c = Some t → own_status (tk_identity c t) now h.(hb_app).(st_presence) p →
  hub_wf h → hub_wf (set_app h (set_presence h.(hb_app) p)).
Proof.
  intros Ht (d & st & Hd & Hc & ->) W. destruct W as [W1 W2 W3 W4 W5 W6 W7 W8]. split; cbn; try done.
  intros k o. rewrite lookup_insert_Some. intros [[<- <-]|[_ H]]; [|by apply W7]. by apply (W7 _ d).
Qed.

Lemma set_app_same h : set_app h h.(hb_app) = h.
Proof. by destruct h. Qed.

Lemma guard_wf h s :
  s.(st_presence) = h.(hb_app).(st_presence) → s.(st_connections) = hub_registry h →
  hub_wf h → hub_wf (set_app h s).
Proof.
  intros Hp Hc W. destruct W as [W1 W2 W3 W4 W5 W6 W7 W8].
  split; unfold hub_registry, set_app; cbn [hb_app hb_tasks]; rewrite ?Hp, ?Hc; done.
Qed.

Lemma set_registry_same h : set_registry h (hub_registry h) = h.(hb_app).
Proof. unfold set_registry, hub_registry, set_connections. by destruct (hb_app h). Qed.

Lemma grows_wf h r l :
  grows (hub_registry h) r l → hub_wf h → hub_wf (set_app h (set_registry h r)).
Proof.
  destruct l as [[c n]|]; cbn [grows]; [|intros ->; by rewrite set_registry_same, set_app_same].
  intros (d & q & Hd & Hq & Hl & ->). by eapply queued_wf.
Qed.

Lemma text_wf `{P : Primitives} `{C : SignalCodec} h c t sessions text token now :
  h.(hb_tasks) !! c = Some t → hub_wf h →
  hub_wf (set_app h (handle_authenticated_text h.(hb_app) sessions (tk_identity c t) text token now).2).
Proof.
  intros Ht W.
  destruct (text_confined h.(hb_app) sessions (tk_identity c t) text token now)
    as (_ & _ & [[Hp Hc]|[[Hp ->]|(p & c' & n & Hw & ->)]]).
  - by apply guard_wf.
  - by eapply status_wf.
  - destruct (fw_queue _ _ _ _ _ _ _ _ Hw) as (q & Hq & Hl & ->).
    eapply queued_wf; [apply (fw_owner _ _ _ _ _ _ _ _ Hw)|done..].
Qed.

(** An authenticated device joins. *)
Lemma hello_wf h r c a acc :
  h.(hb_tasks) !! c = None → a.(ah_device).(td_account_id) = acc → hub_wf h →
  hub_wf {| hb_app := h.(hb_app); hb_replays := r;
            hb_tasks := <[c := {| tk_account := acc; tk_hello := a; tk_phase := Authenticated |}]> h.(hb_tasks) |}.
Proof.
  intros Hc Ha W. destruct W as [W1 W2 W3 W4 W5 W6 W7 W8].
  assert (∀ c' t, h.(hb_tasks) !! c' = Some t → c' ≠ c) as Hne by (intros; congruence).
  assert (∀ (Q : Task → Prop) c', (∃ t, h.(hb_tasks) !! c' = Some t ∧ Q t) →
    ∃ t, <[c := {| tk_account := acc; tk_hello := a; tk_phase := Authenticated |}]> h.(hb_tasks) !! c' = Some t ∧ Q t)
    as Hkeep.
  { intros Q c' (t & Ht & HQ). exists t. by rewrite lookup_insert_ne by (symmetry; by eapply Hne). }
  split; cbn.
  - intros c' t'. rewrite lookup_insert_Some. intros [[<- <-]|[_ H]]; [done|by apply (W1 c')].
  - intros d c' Hd. apply Hkeep. by apply W2.
  - intros c' t'. rewrite lookup_insert_Some. intros [[<- <-]|[_ H]]; [done|by apply W3].
  - intros c' H. apply Hkeep. by apply W4.
  - intros c'. rewrite W5. split; [apply Hkeep|]. intros (t & Ht & Hq).
    apply lookup_insert_Some in Ht as [[<- <-]|[_ Ht]]; [done|eauto].
  - done.
  - intros k o Ho. apply Hkeep. by apply W7.
  - intros c' t' n. rewrite lookup_insert_Some. intros [[<- <-]|[_ H]]; [done|by apply W8].
Qed.

(** What holds of a task survives the replacement of one that keeps it. *)
Lemma keep_task (ts : gmap rstr Task) c t t' (Q : Task → Prop) c' :
  ts !! c = Some t → (c' = c → Q t → Q t') → (∃ x, ts !! c' = Some x ∧ Q x) →
  ∃ x, <[c := t']> ts !! c' = Some x ∧ Q x.
Proof.
  intros Ht HQ (x & Hx & H). destruct (decide (c' = c)) as [->|]; [|exists x; by rewrite lookup_insert_ne].
  exists t'. rewrite lookup_insert_eq. simplify_eq. auto.
Qed.

Lemma other_task (ts : gmap rstr Task) c t' (Q : Task → Prop) c' :
  c' ≠ c → (∃ x, <[c := t']> ts !! c' = Some x ∧ Q x) ↔ ∃ x, ts !! c' = Some x ∧ Q x.
Proof. intros Hne. by setoid_rewrite (lookup_insert_ne ts c c') ; [|done]. Qed.

Lemma put_wf h c t now :
  h.(hb_tasks) !! c = Some t → t.(tk_phase) = Authenticated → hub_wf h →
  hub_wf (set_task h (set_presence h.(hb_app)
      (put_presence h.(hb_app).(st_presence)
         (online_device t.(tk_hello).(ah_device) c t.(tk_hello).(ah_capabilities_hash) Online now)))
      c (to_phase t PresencePut)).
Proof.
  intros Ht Hp W. destruct W as [W1 W2 W3 W4 W5 W6 W7 W8]. split; cbn.
  - intros c' t'. rewrite lookup_insert_Some. intros [[<- <-]|[_ H]]; [by apply (W1 c t)|by apply (W1 c')].
  - intros d c' Hd. apply (keep_task _ _ t); [done| |by apply W2]. intros -> (_ & H & _). by rewrite Hp in H.
  - intros c' t'. rewrite lookup_insert_Some. intros [[<- <-]|[_ H]]; [done|by apply W3].
  - intros c' H. apply (keep_task _ _ t); [done| |by apply W4]. by intros -> [? _].
  - intros c'. rewrite W5. destruct (decide (c' = c)) as [->|]; [|by rewrite other_task].
    rewrite lookup_insert_eq, Ht. split; intros (x & [= <-] & Hq); [by rewrite Hp in Hq|done].
  - done.
  - intros k o. unfold put_presence. cbn. rewrite lookup_insert_Some. intros [[<- <-]|[_ Ho]].
    + cbn. exists (to_phase t PresencePut). rewrite lookup_insert_eq. cbn. by rewrite (W1 c).
    + apply (keep_task _ _ t); [done| |by apply W7]. intros _ [? H]. by rewrite Hp in H.
  - intros c' t' n. rewrite lookup_insert_Some. intros [[<- <-]|[_ H]]; [done|by apply W8].
Qed.

Lemma connect_superseded r d c x :
  x ∈ (connect r d c).(cr_superseded) ↔ x ∈ r.(cr_superseded) ∨ r.(cr_connections) !! d = Some x.
Proof.
  unfold connect. cbn. destruct (cr_connections r !! d) as [y|]; [|naive_solver].
  rewrite elem_of_union, elem_of_singleton. naive_solver.
Qed.

Lemma hub_registry_set h r c t : hub_registry (set_task h (set_registry h r) c t) = r.
Proof. done. Qed.

Lemma register_wf h c t :
  h.(hb_tasks) !! c = Some t → t.(tk_phase) = PresencePut → unlocked h → hub_wf h →
  hub_wf (set_task h (set_registry h (connect (hub_registry h) (tk_device t) c)) c (to_phase t Registered)).
Proof.
  intros Ht Hp Hu W. destruct W as [W1 W2 W3 W4 W5 W6 W7 W8].
  assert (∀ d, (hub_registry h).(cr_connections) !! d ≠ Some c) as Hno.
  { intros d Hd. destruct (W2 d c Hd) as (x & Hx & _ & Ho & _). simplify_eq. by rewrite Hp in Ho. }
  assert (c ∉ (hub_registry h).(cr_superseded)) as Hns.
  { intros H. destruct (W4 c H) as (x & Hx & _ & H2). by simplify_eq. }
  split; rewrite ?hub_registry_set; cbn [hb_app set_task set_registry set_connections st_presence hb_tasks].
  - intros c' t'. rewrite lookup_insert_Some. intros [[<- <-]|[_ H]]; [by apply (W1 c t)|by apply (W1 c')].
  - intros d c' Hd. cbn [connect cr_connections] in Hd. apply lookup_insert_Some in Hd as [[<- <-]|[Hne Hd]].
    + exists (to_phase t Registered). rewrite lookup_insert_eq. split_and!; [done..|].
      rewrite connect_superseded. intros [H|H]; [done|by apply (Hno (tk_device t))].
    + assert (c' ≠ c) as Hnc by (intros ->; by apply (Hno d)). apply other_task; [done|].
      destruct (W2 d c' Hd) as (x & Hx & Hdx & Ho & Hs). exists x. split_and!; try done.
      rewrite connect_superseded. intros [H|H]; [done|]. destruct (W2 _ _ H) as (y & Hy & Hdy & _). simplify_eq.
  - intros c' t'. rewrite lookup_insert_Some, connect_superseded. cbn [connect cr_connections].
    intros [[<- <-]|[Hne H]] Ho; [left; apply lookup_insert_eq|].
    destruct (W3 c' t' H Ho) as [Hc|Hc]; [|by auto].
    destruct (decide (tk_device t' = tk_device t)) as [He|]; [rewrite He in *; auto|].
    left. by rewrite lookup_insert_ne.
  - intros c'. rewrite connect_superseded. intros H. apply (keep_task _ _ t); [done|by intros _ []|].
    destruct H as [H|H]; [by apply W4|]. destruct (W2 _ _ H) as (x & Hx & _ & Ho & _).
    exists x. split; [done|]. split; intros E; by rewrite E in Ho.
  - intros c'. cbn [connect cr_queues]. destruct (decide (c' = c)) as [->|].
    + rewrite !lookup_insert_eq. split; intros _; [|by eexists]. by eexists.
    + rewrite lookup_insert_ne by done. by rewrite W5, other_task.
  - intros c' q. cbn [connect cr_queues cr_capacity]. rewrite lookup_insert_Some.
    intros [[<- <-]|[_ H]]; [cbn; lia|by apply (W6 c')].
  - intros k o Ho. apply (keep_task _ _ t); [done|by intros _ []|by apply W7].
  - intros c' t' n. rewrite lookup_insert_Some. intros [[<- <-]|[_ H]]; [done|]. intros Hs.
    pose proof (Hu _ _ H) as Hx. unfold is_sending in Hx. by rewrite Hs in Hx.
Qed.

Lemma recv_notification r d c n r' :
  recv r d c = (Notification n, r') ↔ ∃ q, r.(cr_queues) !! c = Some (n :: q) ∧ r' = queued r c q.
Proof.
  unfold recv, queued. destruct (cr_queues r !! c) as [[|m q]|].
  - destruct (acquire_ownership _ _ _); split; [done|naive_solver|done|naive_solver].
  - split; [intros [= <- <-]; eauto|]. intros (q' & [= <- <-] & ->). done.
  - split; [done|naive_solver].
Qed.

(** A shorter queue is as good. *)
Lemma dequeued_wf h c n q :
  (hub_registry h).(cr_queues) !! c = Some (n :: q) → hub_wf h →
  hub_wf (set_app h (set_registry h (queued (hub_registry h) c q))).
Proof.
  intros Hq W. pose proof (wf_bounded h W c _ Hq) as Hl.
  destruct W as [W1 W2 W3 W4 W5 W6 W7 W8]. split; cbn; try done.
  - intros c'. rewrite <-W5. destruct (decide (c' = c)) as [->|]; [|by rewrite lookup_insert_ne].
    rewrite lookup_insert_eq, Hq. by split; intros _; eexists.
  - intros c' q'. rewrite lookup_insert_Some. intros [[<- <-]|[_ H]]; [|by apply (W6 c')].
    cbn in Hl. lia.
Qed.

Lemma acquire_iff r d c : acquire_ownership r d c = true ↔ r.(cr_connections) !! d = Some c.
Proof.
  unfold acquire_ownership. destruct (cr_connections r !! d); [|done].
  rewrite bool_decide_eq_true. naive_solver.
Qed.

(** The map and the signals after [unregister]. *)
Lemma unregister_lookup r d c d' x :
  (unregister r d c).2.(cr_connections) !! d' = Some x ↔
  r.(cr_connections) !! d' = Some x ∧ ¬ (d' = d ∧ x = c).
Proof.
  unfold unregister. destruct (acquire_ownership r d c) eqn:E; cbn [snd cr_connections].
  - apply acquire_iff in E. rewrite lookup_delete_Some. split.
    + intros [? ?]. split; [done|naive_solver].
    + intros [H Hn]. split; [|done]. intros ->. apply Hn. split; [done|congruence].
  - split; [|by intros []]. intros H. split; [done|]. intros [-> ->].
    apply acquire_iff in H. congruence.
Qed.

Lemma unregister_superseded r d c x :
  x ∈ (unregister r d c).2.(cr_superseded) ↔
  x ∈ r.(cr_superseded) ∨ (x = c ∧ r.(cr_connections) !! d = Some c).
Proof.
  unfold unregister. destruct (acquire_ownership r d c) eqn:E; cbn [snd cr_superseded].
  - apply acquire_iff in E. rewrite elem_of_union, elem_of_singleton. naive_solver.
  - split; [auto|]. intros [?|[_ H]]; [done|]. apply acquire_iff in H. congruence.
Qed.

Lemma unregister_rest r d c :
  (unregister r d c).2.(cr_queues) = r.(cr_queues) ∧ (unregister r d c).2.(cr_capacity) = r.(cr_capacity).
Proof. unfold unregister. by destruct (acquire_ownership r d c). Qed.

Lemma unregister_wf h c t :
  h.(hb_tasks) !! c = Some t → t.(tk_phase) = Leaving → unlocked h → hub_wf h →
  hub_wf (set_task h (set_registry h (unregister (hub_registry h) (tk_device t) c).2) c
    (to_phase t Unregistered)).
Proof.
  intros Ht Hp Hu W. destruct W as [W1 W2 W3 W4 W5 W6 W7 W8].
  destruct (unregister_rest (hub_registry h) (tk_device t) c) as [Eq Ec].
  split; rewrite ?hub_registry_set; cbn [hb_app set_task set_registry set_connections st_presence hb_tasks].
  - intros c' t'. rewrite lookup_insert_Some. intros [[<- <-]|[_ H]]; [by apply (W1 c t)|by apply (W1 c')].
  - intros d c' [Hd Hn]%unregister_lookup. destruct (W2 _ _ Hd) as (x & Hx & Hdx & Ho & Hs).
    assert (c' ≠ c) as Hne by (intros ->; simplify_eq; by apply Hn).
    apply other_task; [done|]. exists x. split_and!; try done. rewrite unregister_superseded.
    intros [?|[? _]]; done.
  - intros c' t'. rewrite lookup_insert_Some, unregister_lookup, unregister_superseded.
    intros [[<- <-]|[Hne H]] Ho; [done|].
    destruct (W3 c' t' H Ho) as [Hc|Hc]; [|by auto]. left. split; [done|]. by intros [_ ->].
  - intros c'. rewrite unregister_superseded. intros H. apply (keep_task _ _ t); [done|done|].
    destruct H as [H|[-> H]]; [by apply W4|]. exists t. by rewrite Hp.
  - intros c'. rewrite Eq, W5. destruct (decide (c' = c)) as [->|]; [|by rewrite other_task].
    rewrite lookup_insert_eq, Ht. split; intros _; eexists; [done|]. by rewrite Hp.
  - rewrite Eq, Ec. apply W6.
  - intros k o Ho. apply (keep_task _ _ t); [done| |by apply W7]. by intros _ [].
  - intros c' t' n. rewrite lookup_insert_Some. intros [[<- <-]|[_ H]]; [done|]. intros Hs.
    pose proof (Hu _ _ H) as Hx. unfold is_sending in Hx. by rewrite Hs in Hx.
Qed.

Lemma remove_presence_lookup p a d c k o :
  (remove_presence p a d c).2 !! k = Some o ↔
  p !! k = Some o ∧ ¬ (k = (a, d) ∧ o.(od_connection_id) = c).
Proof.
  unfold remove_presence. destruct (p !! (a, d)) as [x|] eqn:E.
  - case_bool_decide as Hc; cbn [snd].
    + rewrite lookup_delete_Some. split; [intros [? ?]; naive_solver|].
      intros [H Hn]. split; [|done]. intros <-. naive_solver.
    + split; [|by intros []]. intros H. split; [done|]. intros [-> ?]. naive_solver.
  - cbn. split; [|by intros []]. intros H. split; [done|]. intros [-> ?]. congruence.
Qed.

Lemma end_wf h c t :
  h.(hb_tasks) !! c = Some t → t.(tk_phase) = Unregistered → hub_wf h →
  hub_wf (set_task h (set_registry
         {| hb_app := set_presence h.(hb_app)
              (remove_presence h.(hb_app).(st_presence) t.(tk_account) (tk_device t) c).2;
            hb_replays := h.(hb_replays); hb_tasks := h.(hb_tasks) |}
         (drop_receiver (hub_registry h) c)) c (to_phase t Ended)).
Proof.
  intros Ht Hp W. destruct W as [W1 W2 W3 W4 W5 W6 W7 W8].
  split; unfold hub_registry, set_registry; cbn.
  - intros c' t'. rewrite lookup_insert_Some. intros [[<- <-]|[_ H]]; [by apply (W1 c t)|by apply (W1 c')].
  - intros d c' Hd. apply (keep_task _ _ t); [done| |by apply W2]. intros -> (_ & H & _). by rewrite Hp in H.
  - intros c' t'. rewrite lookup_insert_Some. intros [[<- <-]|[_ H]]; [done|by apply W3].
  - intros c' H. by apply (keep_task _ _ t); [|  |apply W4].
  - intros c'. destruct (decide (c' = c)) as [->|].
    + rewrite lookup_delete_eq, lookup_insert_eq. split; [by intros []|]. by intros (x & [= <-] & ?).
    + rewrite lookup_delete_ne by done. rewrite other_task by done. apply W5.
  - intros c' q. rewrite lookup_delete_Some. intros [_ H]. by apply (W6 c').
  - intros k o [Ho Hn]%remove_presence_lookup. destruct (W7 _ _ Ho) as (x & Hx & Hk & Hpr).
    destruct (decide (od_connection_id o = c)) as [Hc|]; [|by apply other_task; [|exists x]].
    rewrite Hc in Hx. simplify_eq. by destruct Hn.
  - intros c' t' n. rewrite lookup_insert_Some. intros [[<- <-]|[_ H]]; [done|by apply W8].
Qed.

Section reachability.
Context `{P : Primitives} `{C : SignalCodec}.

(** The device of an accepted hello belongs to the account of its token. *)
Lemma present_account c x a r :
  authenticator_of x → present c x = (Ok a, r) →
  a.(ah_device).(td_account_id) = x.(hc_claims).(acl_account_id).
Proof.
  intros (au & Hau & He) (cn & H)%present_ok_checks. apply hello_checks_ok in H as (_ & _ & H & _).
  rewrite He in H. by apply (device_authorize_ok au) in H as [? _].
Qed.

Lemma set_task_app h s c t : set_task h s c t = set_task (set_app h s) s c t.
Proof. done. Qed.

Lemma hub_step_wf h l h' : hub_step h l h' → hub_wf h → hub_wf h'.
Proof.
  intros Hst W. destruct Hst;
    try (eapply phase_wf; [done|by match goal with H : tk_phase _ = _ |- _ => rewrite H end|done|by intros []|done]).
  - apply hello_wf; [done| |done]. by eapply present_account.
  - by destruct W as [W1 W2 W3 W4 W5 W6 W7 W8]; split.
  - by apply put_wf.
  - by apply register_wf.
  - by eapply grows_wf.
  - match goal with H : handle_authenticated_text _ _ _ _ _ _ = (_, ?s) |- _ =>
      replace s with (handle_authenticated_text h.(hb_app) sessions (tk_identity c t) text token now).2 by (by rewrite H) end.
    by apply text_wf.
  - done.
  - match goal with H : recv _ _ _ = _ |- _ => apply recv_notification in H as (q & Hq & ->) end.
    rewrite set_task_app. eapply phase_wf; [done|by match goal with H : tk_phase _ = _ |- _ => rewrite H end|done|by intros []|].
    by eapply dequeued_wf.
  - match goal with H : acquire_ownership _ _ _ = _ |- _ => apply acquire_iff in H end.
    by eapply phase_wf; [|match goal with H : tk_phase _ = _ |- _ => rewrite H end| | |].
  - match goal with H : _ ∈ [_; _] |- _ => apply elem_of_cons in H as [H|H%list_elem_of_singleton] end;
      by (eapply phase_wf; [done|by match goal with H : tk_phase _ = _ |- _ => rewrite H end|done|by intros []|done]).
  - by apply unregister_wf.
  - by apply end_wf.
Qed.

Definition hub_reachable (h : Hub) : Prop := ∃ tr, hub_steps hub_new tr h.

Lemma hub_steps_wf h tr h' : hub_steps h tr h' → hub_wf h → hub_wf h'.
Proof. induction 1; [done|]. intros W. eapply hub_step_wf; [done|auto]. Qed.

Lemma hub_steps_cons h l h1 tr h2 : hub_step h l h1 → hub_steps h1 tr h2 → hub_steps h (l :: tr) h2.
Proof.
  intros Hl. induction 1 as [|tr h3 l' h4 _ IH Hl'].
  - apply (hub_steps_snoc h [] h l); [constructor|done].
  - by apply (hub_steps_snoc h (l :: tr) h3).
Qed.

Lemma hub_steps_app h tr h1 tr' h2 : hub_steps h tr h1 → hub_steps h1 tr' h2 → hub_steps h (tr ++ tr') h2.
Proof.
  intros H. induction 1 as [|tr' h3 l' h4 _ IH Hl']; [by rewrite app_nil_r|].
  rewrite app_assoc. by eapply hub_steps_snoc.
Qed.
End reachability.

(** ** The flow of notifications *)

Definition queued_by (c : rstr) (l : Label) : list rstr :=
  match l with
  | LHandled _ (Some (c', n)) => if c' =! c then [n] else []
  | _ => []
  end.
Definition sent_by (c : rstr) (l : Label) : list rstr :=
  match l with LDelivered c' n => if c' =! c then [n] else [] | _ => [] end.

(** The notifications queued for a connection, and those its socket was sent. *)
Definition queued_to (c : rstr) (tr : list Label) : list rstr := flat_map (queued_by c) tr.
Definition sent_to (c : rstr) (tr : list Label) : list rstr := flat_map (sent_by c) tr.

Definition in_hand (p : Phase) : list rstr :=
  match p with Taken n | Sending n => [n] | _ => [] end.

(** The phases in which a task serves its queue. *)
Definition serves (p : Phase) : bool :=
  match p with Registered | Serving | Taken _ | Sending _ => true | _ => false end.

(** What is between the queue of [c] and its socket. *)
Definition flow (h : Hub) (c : rstr) (queued sent : list rstr) : Prop :=
  match h.(hb_tasks) !! c with
  | None => queued = [] ∧ sent = []
  | Some t =>
      if serves t.(tk_phase)
      then ∃ q, (hub_registry h).(cr_queues) !! c = Some q ∧ queued = sent ++ in_hand t.(tk_phase) ++ q
      else match t.(tk_phase) with
           | Authenticated | PresencePut => queued = [] ∧ sent = []
           | _ => sent `prefix_of` queued
           end
  end.

Lemma flow_prefix h c qs ss : flow h c qs ss → ss `prefix_of` qs.
Proof.
  unfold flow. destruct (hb_tasks h !! c) as [t|]; [|by intros [-> ->]].
  destruct (serves (tk_phase t)); [intros (q & _ & ->); by eexists|].
  destruct (tk_phase t); try done; by intros [-> ->].
Qed.

(** Steps of other tasks leave the flow of [c] alone. *)
Lemma flow_other h h' c qs ss :
  h'.(hb_tasks) !! c = h.(hb_tasks) !! c → (hub_registry h').(cr_queues) !! c = (hub_registry h).(cr_queues) !! c →
  flow h c qs ss → flow h' c qs ss.
Proof. unfold flow. by intros -> ->. Qed.

(** A notification joins a queue that may be that of [c]. *)
Lemma flow_grows h s c l qs ss by_ :
  grows (hub_registry h) s.(st_connections) l → hub_wf h →
  flow h c qs ss → flow (set_app h s) c (qs ++ queued_by c (LHandled by_ l)) ss.
Proof.
  destruct l as [[c' n]|]; cbn [grows queued_by]; intros Hg W.
  2:{ rewrite app_nil_r. apply flow_other; [done|]. unfold hub_registry, set_app. cbn. by rewrite Hg. }
  destruct Hg as (d & q & Hd & Hq & Hl & Hr).
  destruct (wf_owner h W _ _ Hd) as (t & Ht & _ & Ho & _). case_bool_decide as Hc.
  - subst c'. unfold flow. cbn [set_app hb_tasks]. rewrite Ht.
    unfold hub_registry at 2, set_app. cbn [hb_app]. rewrite Hr. cbn [queued cr_queues]. rewrite lookup_insert_eq.
    destruct (serves (tk_phase t)) eqn:Es.
    + intros (q' & Hq' & ->). rewrite Hq in Hq'. injection Hq' as <-. eexists. split; [done|]. by rewrite <-!app_assoc.
    + destruct (tk_phase t); try done; apply prefix_app_r.
  - rewrite app_nil_r. apply flow_other; [done|]. unfold hub_registry at 1, set_app. cbn [hb_app].
    rewrite Hr. cbn. by rewrite lookup_insert_ne.
Qed.

(** A task moves between phases in which it holds the same notifications. *)
Lemma flow_phase h c c' t p qs ss :
  h.(hb_tasks) !! c' = Some t → serves t.(tk_phase) = true → serves p = true →
  in_hand p = in_hand t.(tk_phase) → flow h c qs ss → flow (set_task h h.(hb_app) c' (to_phase t p)) c qs ss.
Proof.
  intros Ht H1 H2 Hh. destruct (decide (c' = c)) as [->|]; [|apply flow_other; [by apply lookup_insert_ne|done]].
  unfold flow. cbn [set_task hb_tasks]. rewrite Ht, lookup_insert_eq. cbn [to_phase tk_phase]. by rewrite H1, H2, Hh.
Qed.

(** A task that stops serving has sent a prefix. *)
Lemma flow_stop h s c c' t p qs ss :
  h.(hb_tasks) !! c' = Some t → can_own t.(tk_phase) || bool_decide (t.(tk_phase) = Unregistered) = true →
  p ∈ [Leaving; Unregistered; Ended] →
  (c ≠ c' → s.(st_connections).(cr_queues) !! c = (hub_registry h).(cr_queues) !! c) →
  flow h c qs ss → flow (set_task h s c' (to_phase t p)) c qs ss.
Proof.
  intros Ht Hl Hp Hq Hf. destruct (decide (c' = c)) as [->|].
  - apply flow_prefix in Hf. unfold flow. cbn [set_task hb_tasks]. rewrite lookup_insert_eq.
    cbn [to_phase tk_phase]. rewrite !elem_of_cons in Hp.
    by destruct Hp as [->|[->|[->|[]%not_elem_of_nil]]].
  - revert Hf. apply flow_other; [by apply lookup_insert_ne|]. by apply Hq.
Qed.

Section delivery.
Context `{P : Primitives} `{C : SignalCodec}.

Ltac use_phase := match goal with H : tk_phase _ = _ |- _ => rewrite H end.

Lemma flow_step h l h' c qs ss :
  hub_step h l h' → hub_wf h → flow h c qs ss → flow h' c (qs ++ queued_by c l) (ss ++ sent_by c l).
Proof.
  intros Hst W Hf. destruct Hst; cbn [sent_by]; rewrite ?app_nil_r;
    try (cbn [queued_by]; rewrite ?app_nil_r);
    try (by apply flow_phase; [|use_phase|..|use_phase|]);
    try (by eapply flow_stop; [|use_phase|left|..]).
  - (* hello *)
    destruct (decide (c0 = c)) as [->|]; [|revert Hf; apply flow_other; [by apply lookup_insert_ne|done]].
    unfold flow in *. cbn. rewrite lookup_insert_eq. cbn. by match goal with H : _ = None |- _ => rewrite H in Hf end.
  - (* refused *) done.
  - (* presence *)
    destruct (decide (c0 = c)) as [->|]; [|revert Hf; apply flow_other; [by apply lookup_insert_ne|done]].
    unfold flow in *. cbn. rewrite lookup_insert_eq. cbn.
    match goal with H : _ = Some t |- _ => rewrite H in Hf end. revert Hf. by use_phase.
  - (* register *)
    destruct (decide (c0 = c)) as [->|].
    + unfold flow in *. rewrite hub_registry_set. cbn. rewrite !lookup_insert_eq. cbn.
      match goal with H : _ = Some t |- _ => rewrite H in Hf end. revert Hf. use_phase. intros [-> ->]. by exists [].
    + revert Hf. apply flow_other; [by apply lookup_insert_ne|]. rewrite hub_registry_set. by apply lookup_insert_ne.
  - (* push *) by apply (flow_grows _ _ _ _ _ _ None).
  - (* text *) by apply (flow_grows _ _ _ _ _ _ (Some c0)).
  - (* refresh *) done.
  - (* take *)
    match goal with H : recv _ _ _ = _ |- _ => apply recv_notification in H as (q & Hq & ->) end.
    destruct (decide (c0 = c)) as [->|].
    + unfold flow in *. rewrite hub_registry_set. cbn [set_task hb_tasks queued cr_queues].
      rewrite !lookup_insert_eq. match goal with H : _ = Some t |- _ => rewrite H in Hf end.
      revert Hf. use_phase. cbn. intros (q' & Hq' & ->). exists q. split; [done|]. congruence.
    + revert Hf. apply flow_other; [by apply lookup_insert_ne|]. rewrite hub_registry_set. by apply lookup_insert_ne.
  - (* delivered *)
    destruct (decide (c0 = c)) as [->|].
    + rewrite bool_decide_eq_true_2 by done. unfold flow in *. cbn [set_task hb_tasks]. rewrite lookup_insert_eq.
      match goal with H : _ = Some t |- _ => rewrite H in Hf end. revert Hf. use_phase. cbn.
      intros (q & Hq & ->). exists q. split; [done|]. by rewrite <-app_assoc.
    + rewrite bool_decide_eq_false_2, app_nil_r by done. revert Hf. apply flow_other; [by apply lookup_insert_ne|done].
  - (* socket lost *)
    match goal with H : _ ∈ [_; _] |- _ => apply elem_of_cons in H as [H|H%list_elem_of_singleton] end;
      by eapply flow_stop; [|use_phase|left|..].
  - (* unregister *)
    eapply flow_stop; [done|by use_phase|by right; left| |done]. intros _. cbn.
    by destruct (unregister_rest (hub_registry h) (tk_device t) c0) as [-> _].
  - (* end *)
    eapply flow_stop; [done|by use_phase|by right; right; left| |done]. intros Hne. cbn. by apply lookup_delete_ne.
Qed.

Lemma flow_steps tr h c :
  hub_steps hub_new tr h → flow h c (queued_to c tr) (sent_to c tr).
Proof.
  induction 1 as [|tr h1 l h2 Hs IH Hl].
  - unfold flow. cbn. by rewrite lookup_empty.
  - unfold queued_to, sent_to in *. rewrite !flat_map_app. cbn [flat_map]. rewrite !app_nil_r.
    eapply flow_step; [done| |done]. eapply hub_steps_wf; [done|apply hub_new_wf].
Qed.
End delivery.

(** ** Winding down *)

Section winding.
Context `{P : Primitives} `{C : SignalCodec}.

Definition sending_tasks (ts : gmap rstr Task) : gmap rstr Task :=
  filter (λ ct : rstr * Task, is_sending ct.2 = true) ts.

Lemma sending_moved ts c t p :
  ts !! c = Some t → is_sending t = true → (∀ n, p ≠ Sending n) →
  sending_tasks (<[c := to_phase t p]> ts) = delete c (sending_tasks ts).
Proof.
  intros Ht Hs Hp. apply map_eq. intros x. apply option_eq. intros y. unfold sending_tasks.
  rewrite map_lookup_filter_Some, lookup_insert_Some, lookup_delete_Some, map_lookup_filter_Some. cbn. split.
  - intros [[[<- <-]|[Hne Hx]] Hy]; [|done]. unfold is_sending in Hy. cbn in Hy. destruct p; try done. by destruct (Hp n).
  - intros (Hne & Hx & Hy). split; [by right|done].
Qed.

(** The sends under way finish, and the lock is free. *)
Lemma sends_finish n h c t :
  size (sending_tasks h.(hb_tasks)) = n → h.(hb_tasks) !! c = Some t → is_sending t = false →
  ∃ tr h', hub_steps h tr h' ∧ unlocked h' ∧ h'.(hb_app) = h.(hb_app) ∧ h'.(hb_tasks) !! c = Some t ∧
           Forall (λ l, ∃ d x, l = LDelivered d x) tr ∧ length tr = n.
Proof.
  revert h. induction n as [|n IH]; intros h Hn Ht Hs.
  - exists [], h. split_and!; try done; [constructor|]. apply map_size_empty_inv in Hn.
    intros x y Hx. destruct (is_sending y) eqn:E; [|done]. exfalso.
    assert (sending_tasks (hb_tasks h) !! x = Some y) as H by (by apply map_lookup_filter_Some).
    rewrite Hn in H. by rewrite lookup_empty in H.
  - destruct (map_choose (sending_tasks (hb_tasks h))) as (x & y & Hx).
    { intros E. by rewrite E, map_size_empty in Hn. }
    pose proof Hx as [Hy Hsy]%map_lookup_filter_Some. cbn in Hsy.
    unfold is_sending in Hsy. destruct (tk_phase y) as [| | | | |m| | |] eqn:Ep; try done.
    destruct (IH (set_task h h.(hb_app) x (to_phase y Serving))) as (tr & h' & Hst & Hu & Ha & Htc & Hf & Hlen).
    + cbn. rewrite sending_moved by (try done; unfold is_sending; by rewrite Ep).
      rewrite map_size_delete_Some by eauto. lia.
    + cbn. rewrite lookup_insert_ne; [done|]. intros ->. rewrite Hy in Ht. injection Ht as ->.
      unfold is_sending in Hs. by rewrite Ep in Hs.
    + done.
    + exists (LDelivered x m :: tr), h'. split_and!; try done.
      * eapply hub_steps_cons; [by apply (hub_delivered h x y m)|done].
      * constructor; [by exists x, m|done].
      * cbn. lia.
Qed.

(** The steps of a connection on its way out, and the ends of sends of others. *)
Definition winding (c : rstr) (l : Label) : Prop :=
  match l with
  | LHelloOk x | LLeave x | LUnregister x | LEnd x => x = c
  | LNotDelivered x _ => x = c
  | LDelivered _ _ => True
  | _ => False
  end.

(** Once it leaves its loop, a task ends. *)
Lemma leaving_ends h c t :
  h.(hb_tasks) !! c = Some t → t.(tk_phase) = Leaving ∨ t.(tk_phase) = Unregistered →
  ∃ tr h' t', hub_steps h tr h' ∧ Forall (winding c) tr ∧ h'.(hb_tasks) !! c = Some t' ∧ t'.(tk_phase) = Ended ∧
    (length tr ≤ size (sending_tasks h.(hb_tasks)) + 2)%nat.
Proof.
  intros Ht [Hp|Hp].
  - destruct (sends_finish _ h c t eq_refl Ht) as (tr & h1 & Hst & Hu & _ & Ht1 & Hf & Hl).
    { unfold is_sending. by rewrite Hp. }
    eexists (tr ++ [LUnregister c; LEnd c]), _, (to_phase t Ended).
    split_and!; [|apply Forall_app; split; [|by repeat constructor]| | |].
    + eapply hub_steps_app; [exact Hst|].
      eapply hub_steps_cons; [by apply (hub_unregister h1 c t)|].
      eapply hub_steps_cons; [|constructor].
      apply (hub_end _ c (to_phase t Unregistered)); [apply lookup_insert_eq|done].
    + eapply Forall_impl; [exact Hf|]. by intros ? (? & ? & ->).
    + cbn. by rewrite lookup_insert_eq.
    + done.
    + rewrite length_app. cbn. lia.
  - eexists [LEnd c], _, (to_phase t Ended). split_and!; [|by repeat constructor| | |cbn; lia].
    + eapply hub_steps_cons; [by apply (hub_end h c t)|constructor].
    + cbn. by rewrite lookup_insert_eq.
    + done.
Qed.

Lemma sending_same ts c t p :
  ts !! c = Some t → is_sending t = false → (∀ n, p ≠ Sending n) →
  sending_tasks (<[c := to_phase t p]> ts) = sending_tasks ts.
Proof.
  intros Ht Hs Hp. apply map_eq. intros x. apply option_eq. intros y. unfold sending_tasks.
  rewrite !map_lookup_filter_Some, lookup_insert_Some. cbn. split.
  - intros [[[<- <-]|[_ Hx]] Hy]; [|done]. unfold is_sending in Hy. cbn in Hy. destruct p; try done. by destruct (Hp n).
  - intros [Hx Hy]. split; [right; split; [|done]|done]. intros ->. congruence.
Qed.

Lemma leaves_and_ends h c t l :
  hub_step h l (set_task h h.(hb_app) c (to_phase t Leaving)) → winding c l →
  h.(hb_tasks) !! c = Some t → is_sending t = false →
  ∃ tr h' t', hub_steps h tr h' ∧ Forall (winding c) tr ∧ h'.(hb_tasks) !! c = Some t' ∧ t'.(tk_phase) = Ended ∧
    (length tr ≤ size (sending_tasks h.(hb_tasks)) + 3)%nat.
Proof.
  intros Hl Hw Ht Hs.
  destruct (leaving_ends (set_task h h.(hb_app) c (to_phase t Leaving)) c (to_phase t Leaving))
    as (tr & h' & t' & Hst & Hf & Ht' & He & Hlen); [apply lookup_insert_eq|by left|].
  cbn [set_task hb_tasks] in Hlen. rewrite sending_same in Hlen by done.
  exists (l :: tr), h', t'. split_and!; try done; [by eapply hub_steps_cons|by constructor|cbn; lia].
Qed.

Lemma superseded_ends h c :
  hub_wf h → c ∈ (hub_registry h).(cr_superseded) →
  ∃ tr h' t, hub_steps h tr h' ∧ Forall (winding c) tr ∧ h'.(hb_tasks) !! c = Some t ∧ t.(tk_phase) = Ended ∧
    (length tr ≤ size (sending_tasks h.(hb_tasks)) + 4)%nat.
Proof.
  intros W Hc. destruct (wf_superseded h W c Hc) as (t & Ht & Hn1 & Hn2).
  assert ((hub_registry h).(cr_connections) !! tk_device t ≠ Some c) as Hno.
  { intros H. by destruct (wf_owner h W _ _ H) as (_ & _ & _ & _ & ?). }
  destruct (tk_phase t) as [| | | |n|n| | |] eqn:Hp; try done.
  - destruct (leaves_and_ends (set_task h h.(hb_app) c (to_phase t Serving)) c (to_phase t Serving) (LLeave c))
      as (tr & h' & t' & Hst & Hf & Ht' & He & Hlen); [|done|apply lookup_insert_eq|done|].
    { by apply (hub_superseded _ c (to_phase t Serving)); [apply lookup_insert_eq| |]. }
    cbn [set_task hb_tasks] in Hlen. rewrite sending_same in Hlen by (try done; unfold is_sending; by rewrite Hp).
    exists (LHelloOk c :: tr), h', t'. split_and!; try done;
      [by eapply hub_steps_cons; [apply hub_hello_ok|]|by constructor|cbn; lia].
  - destruct (leaves_and_ends h c t (LLeave c)) as (tr & h' & t' & ? & ? & ? & ? & ?);
      [by apply hub_superseded|done|done|unfold is_sending; by rewrite Hp|].
    exists tr, h', t'. split_and!; try done; lia.
  - destruct (leaves_and_ends h c t (LNotDelivered c n)) as (tr & h' & t' & ? & ? & ? & ? & ?);
      [|done|done|unfold is_sending; by rewrite Hp|exists tr, h', t'; split_and!; try done; lia].
    apply hub_not_owner; [done..|]. destruct (acquire_ownership _ _ _) eqn:E; [|done]. by apply acquire_iff in E.
  - by destruct Hno; apply (wf_sending h W c t n).
  - destruct (leaving_ends h c t) as (tr & h' & t' & ? & ? & ? & ? & ?); [done|by left|].
    exists tr, h', t'. split_and!; try done; lia.
  - destruct (leaving_ends h c t) as (tr & h' & t' & ? & ? & ? & ? & ?); [done|by right|].
    exists tr, h', t'. split_and!; try done; lia.
  - exists [], h, t. split_and!; try done; [constructor|cbn; lia].
Qed.
End winding.

(** An ended task is nowhere any more. *)
Lemma ended_gone h c t :
  hub_wf h → h.(hb_tasks) !! c = Some t → t.(tk_phase) = Ended →
  (∀ d, (hub_registry h).(cr_connections) !! d ≠ Some c) ∧ (hub_registry h).(cr_queues) !! c = None ∧
  ∀ k o, h.(hb_app).(st_presence) !! k = Some o → o.(od_connection_id) ≠ c.
Proof.
  intros W Ht Hp. split_and!.
  - intros d H. destruct (wf_owner h W _ _ H) as (x & Hx & _ & Ho & _). simplify_eq. by rewrite Hp in Ho.
  - destruct ((hub_registry h).(cr_queues) !! c) eqn:E; [|done].
    destruct (proj1 (wf_queue h W c)) as (x & Hx & Hq); [by rewrite E|]. simplify_eq. by rewrite Hp in Hq.
  - intros k o Ho <-. destruct (wf_presence h W _ _ Ho) as (x & Hx & _ & Hq). simplify_eq. by rewrite Hp in Hq.
Qed.

(** ** Theorems *)

(** C30: The shared state of the signalling service stays well formed under
    every interleaving of sockets and pushes: a device has at most one owner in
    the map of connections, a live task of that device that has not been told to
    go; every other live task of it has been told; queues belong to tasks that
    hold them and never exceed their capacity; a task sends only while it owns
    its device; and a task that ended has left the map, its queue and the list
    of devices online. *)
Theorem hub_invariant `{P : Primitives} `{C : SignalCodec} h :
  hub_reachable h →
  hub_wf h ∧
  ∀ c t, h.(hb_tasks) !! c = Some t → t.(tk_phase) = Ended →
    (∀ d, (hub_registry h).(cr_connections) !! d ≠ Some c) ∧ (hub_registry h).(cr_queues) !! c = None ∧
    ∀ k o, h.(hb_app).(st_presence) !! k = Some o → o.(od_connection_id) ≠ c.
Proof.
  intros [tr Htr]. assert (hub_wf h) as W by (eapply hub_steps_wf; [done|apply hub_new_wf]).
  split; [done|]. intros c t. by apply ended_gone.
Qed.

(** C29: Notifications reach their device in order, once, and on the connection
    that owns it: under every interleaving, what a connection was sent is a
    prefix of what was queued for it; while it serves, what is missing is
    exactly what it holds and what is in its queue; and at every send the
    connection is the one that owns its device. *)
Theorem notifications_in_order `{P : Primitives} `{C : SignalCodec} tr h c :
  hub_steps hub_new tr h →
  sent_to c tr `prefix_of` queued_to c tr ∧
  (∀ t q, h.(hb_tasks) !! c = Some t → serves t.(tk_phase) = true →
     (hub_registry h).(cr_queues) !! c = Some q →
     queued_to c tr = sent_to c tr ++ in_hand t.(tk_phase) ++ q) ∧
  (∀ n h', hub_step h (LDelivered c n) h' →
     ∃ t, h.(hb_tasks) !! c = Some t ∧ (hub_registry h).(cr_connections) !! tk_device t = Some c).
Proof.
  intros Htr. pose proof (flow_steps tr h c Htr) as Hf.
  assert (hub_wf h) as W by (eapply hub_steps_wf; [done|apply hub_new_wf]).
  split; [by eapply flow_prefix|]. split.
  - intros t q Ht Hs Hq. unfold flow in Hf. rewrite Ht, Hs in Hf. destruct Hf as (q' & Hq' & Hf). congruence.
  - intros n h' Hst. inversion Hst as [| | | | | | | | | | |x t m Ht Hp| | | | | | |]; subst.
    exists t. split; [done|]. by eapply wf_sending.
Qed.

(** A superseded connection goes away: from every reachable state its own
    steps, and the ends of the sends under way, take its task to its end, in a
    number of steps bounded by the sends under way plus four. *)
Theorem superseded_winds_down `{P : Primitives} `{C : SignalCodec} h c :
  hub_reachable h → c ∈ (hub_registry h).(cr_superseded) →
  ∃ tr h' t, hub_steps h tr h' ∧ Forall (winding c) tr ∧ h'.(hb_tasks) !! c = Some t ∧ t.(tk_phase) = Ended ∧
    (length tr ≤ size (sending_tasks h.(hb_tasks)) + 4)%nat.
Proof. intros [tr Htr]. apply superseded_ends. eapply hub_steps_wf; [done|apply hub_new_wf]. Qed.

(** A run seen through the parts of the hub it changes. *)
Section runs.
Context `{P : Primitives} `{C : SignalCodec}.

Definition runs_to (tr : list Label) (ts : gmap rstr Task) (r : ConnectionRegistry) (p : Presence)
    (rp : HelloReplays) : Prop :=
  ∃ h, hub_steps hub_new tr h ∧ h.(hb_tasks) = ts ∧ hub_registry h = r ∧ h.(hb_app).(st_presence) = p ∧
       h.(hb_replays) = rp.

Lemma runs_start : runs_to [] ∅ (hub_registry hub_new) ∅ ∅.
Proof. exists hub_new. split; [constructor|done]. Qed.

Lemma runs_step tr ts r p rp l ts' r' p' rp' :
  (∀ h, h.(hb_tasks) = ts → hub_registry h = r → h.(hb_app).(st_presence) = p → h.(hb_replays) = rp →
    ∃ h', hub_step h l h' ∧ h'.(hb_tasks) = ts' ∧ hub_registry h' = r' ∧ h'.(hb_app).(st_presence) = p' ∧
          h'.(hb_replays) = rp') →
  runs_to tr ts r p rp → runs_to (tr ++ [l]) ts' r' p' rp'.
Proof.
  intros Hst (h & Htr & Et & Er & Ep & Erp). destruct (Hst h Et Er Ep Erp) as (h' & Hl & H).
  exists h'. split; [by eapply hub_steps_snoc|done].
Qed.

(** Apply a step of the hub to a run. *)
Tactic Notation "run_by" uconstr(st) :=
  apply runs_step; intros h <- <- <- <-; eexists; split; [by apply st|by split_and!].

Lemma run_hello tr ts r p rp x a rp' c :
  authenticator_of x → present rp x = (Ok a, rp') → ts !! c = None → runs_to tr ts r p rp →
  runs_to (tr ++ [LHello c])
    (<[c := {| tk_account := x.(hc_claims).(acl_account_id); tk_hello := a; tk_phase := Authenticated |}]> ts)
    r p rp'.
Proof. intros Hx Hp Hc. run_by (hub_hello _ x a rp' c). Qed.

Lemma run_put tr ts r p rp c t :
  ts !! c = Some t → t.(tk_phase) = Authenticated → runs_to tr ts r p rp →
  runs_to (tr ++ [LPresence c]) (<[c := to_phase t PresencePut]> ts) r
    (put_presence p (online_device t.(tk_hello).(ah_device) c t.(tk_hello).(ah_capabilities_hash) Online 0)) rp.
Proof. intros Ht Hp. run_by (hub_put _ c t 0). Qed.

Lemma run_register tr ts r p rp c t :
  ts !! c = Some t → t.(tk_phase) = PresencePut → map_Forall (λ _ t, is_sending t = false) ts →
  runs_to tr ts r p rp →
  runs_to (tr ++ [LRegister c]) (<[c := to_phase t Registered]> ts) (connect r (tk_device t) c) p rp.
Proof. intros Ht Hp Hu. run_by (hub_register _ c t). Qed.

Lemma run_hello_ok tr ts r p rp c t :
  ts !! c = Some t → t.(tk_phase) = Registered → runs_to tr ts r p rp →
  runs_to (tr ++ [LHelloOk c]) (<[c := to_phase t Serving]> ts) r p rp.
Proof. intros Ht Hp. run_by (hub_hello_ok _ c t). Qed.

Lemma run_forward tr ts r p rp c t sessions mt sid role payload text token now c' d q n :
  ts !! c = Some t → t.(tk_phase) = Serving →
  (∀ s, handle_authenticated_text s sessions (tk_identity c t) text token now =
        handle_forward s sessions (tk_identity c t) mt sid role payload now) →
  (forward_session_message r sessions t.(tk_account) (tk_device t) mt sid role payload now).2 =
    queued r c' (q ++ [n]) →
  r.(cr_connections) !! d = Some c' → r.(cr_queues) !! c' = Some q → (length q < r.(cr_capacity))%nat →
  runs_to tr ts r p rp →
  runs_to (tr ++ [LHandled (Some c) (Some (c', n))]) ts (queued r c' (q ++ [n])) p rp.
Proof.
  intros Ht Hp Hh Hf Hd Hq Hl. apply runs_step. intros h <- <- <- <-.
  assert (∃ m, handle_authenticated_text h.(hb_app) sessions (tk_identity c t) text token now =
    (m, set_connections h.(hb_app) (queued (hub_registry h) c' (q ++ [n])))) as [m' Hm].
  { rewrite Hh. unfold handle_forward. unfold hub_registry in Hf.
    destruct (forward_session_message _ _ _ _ _ _ _ _ _) as [m' r']. cbn in Hf. subst r'. by exists m'. }
  eexists. split; [eapply (hub_text h c t); [done..|exact Hm|]|by split_and!].
  exists d, q. by split_and!.
Qed.

Lemma run_take tr ts r p rp c t n q :
  ts !! c = Some t → t.(tk_phase) = Serving → r.(cr_queues) !! c = Some (n :: q) →
  runs_to tr ts r p rp →
  runs_to (tr ++ [LTake c n]) (<[c := to_phase t (Taken n)]> ts) (queued r c q) p rp.
Proof.
  intros Ht Hp Hq. apply runs_step. intros h <- <- <- <-. eexists.
  split; [eapply (hub_take h c t n); [done..|apply recv_notification; by exists q]|by split_and!].
Qed.

Lemma run_send tr ts r p rp c t n :
  ts !! c = Some t → t.(tk_phase) = Taken n → r.(cr_connections) !! tk_device t = Some c →
  runs_to tr ts r p rp → runs_to (tr ++ [LSend c n]) (<[c := to_phase t (Sending n)]> ts) r p rp.
Proof. intros Ht Hp Hc%acquire_iff. run_by (hub_send _ c t n). Qed.

Lemma run_delivered tr ts r p rp c t n :
  ts !! c = Some t → t.(tk_phase) = Sending n →
  runs_to tr ts r p rp → runs_to (tr ++ [LDelivered c n]) (<[c := to_phase t Serving]> ts) r p rp.
Proof. intros Ht Hp. run_by (hub_delivered _ c t n). Qed.

Lemma run_superseded tr ts r p rp c t :
  ts !! c = Some t → t.(tk_phase) = Serving → c ∈ r.(cr_superseded) → runs_to tr ts r p rp →
  runs_to (tr ++ [LLeave c]) (<[c := to_phase t Leaving]> ts) r p rp.
Proof. intros Ht Hp Hs. run_by (hub_superseded _ c t). Qed.

Lemma run_unregister tr ts r p rp c t :
  ts !! c = Some t → t.(tk_phase) = Leaving → map_Forall (λ _ t, is_sending t = false) ts →
  runs_to tr ts r p rp →
  runs_to (tr ++ [LUnregister c]) (<[c := to_phase t Unregistered]> ts) (unregister r (tk_device t) c).2 p rp.
Proof. intros Ht Hp Hu. run_by (hub_unregister _ c t). Qed.

Lemma run_end tr ts r p rp c t :
  ts !! c = Some t → t.(tk_phase) = Unregistered → runs_to tr ts r p rp →
  runs_to (tr ++ [LEnd c]) (<[c := to_phase t Ended]> ts) (drop_receiver r c)
    (remove_presence p t.(tk_account) (tk_device t) c).2 rp.
Proof. intros Ht Hp. run_by (hub_end _ c t). Qed.
End runs.

Ltac found := by simplify_map_eq.
Ltac no_sender := repeat apply map_Forall_insert_2; done.


(** Two hellos of one device, the second after the first: the first is told. *)
Lemma superseding_run `{P : Primitives} `{C : SignalCodec} x y a b r1 r2 A B :
  authenticator_of x → authenticator_of y → A ≠ B →
  present ∅ x = (Ok a, r1) → present r1 y = (Ok b, r2) →
  a.(ah_device).(td_device_id) = b.(ah_device).(td_device_id) →
  ∃ tr h, hub_steps hub_new tr h ∧ A ∈ (hub_registry h).(cr_superseded) ∧ size h.(hb_tasks) = 2%nat.
Proof.
  intros Hx Hy Hne Ha Hb Hdev. pose proof runs_start as R.
  eapply (run_hello _ _ _ _ _ x a r1 A) in R; [|done|done|done].
  eapply (run_hello _ _ _ _ _ y b r2 B) in R; [|done|done|found].
  eapply (run_put _ _ _ _ _ A) in R; [|found|done].
  eapply (run_register _ _ _ _ _ A) in R; [|found|done|no_sender].
  eapply (run_put _ _ _ _ _ B) in R; [|found|done].
  eapply (run_register _ _ _ _ _ B) in R; [|found|done|no_sender].
  destruct R as (h & Htr & Ht & Hr & _). eexists _, h. split; [done|]. rewrite Ht, Hr. split.
  - apply connect_superseded. right. unfold tk_device. cbn. rewrite Hdev. apply lookup_insert_eq.
  - rewrite !map_size_insert. by simplify_map_eq.
Qed.

(** A device that forwards a message to itself is sent it. *)
Lemma delivering_run `{P : Primitives} `{C : SignalCodec} x a r1 A sessions mt sid role payload text n :
  authenticator_of x → present ∅ x = (Ok a, r1) →
  (∀ s i, handle_authenticated_text s sessions i text [] 0 =
          handle_forward s sessions i mt sid role payload 0) →
  (∀ r, (forward_session_message r sessions x.(hc_claims).(acl_account_id) a.(ah_device).(td_device_id)
           mt sid role payload 0).2 = (enqueue r a.(ah_device).(td_device_id) n).2) →
  ∃ tr h, hub_steps hub_new tr h ∧ sent_to A tr = [n].
Proof.
  intros Hx Ha Hh Hf. pose proof runs_start as R.
  eapply (run_hello _ _ _ _ _ x a r1 A) in R; [|done|done|done].
  eapply (run_put _ _ _ _ _ A) in R; [|found|done].
  eapply (run_register _ _ _ _ _ A) in R; [|found|done|no_sender].
  eapply (run_hello_ok _ _ _ _ _ A) in R; [|found|done].
  eapply (run_forward _ _ _ _ _ A _ sessions mt sid role payload text [] 0 A a.(ah_device).(td_device_id) [] n) in R;
    [|found|done|done| |apply lookup_insert_eq|apply lookup_insert_eq|by apply Nat.ltb_lt].
  2:{ cbn [tk_account to_phase]. unfold tk_device. cbn. rewrite Hf. unfold enqueue. cbn. by rewrite !lookup_insert_eq. }
  eapply (run_take _ _ _ _ _ A _ n []) in R; [|found|done|apply lookup_insert_eq].
  eapply (run_send _ _ _ _ _ A _ n) in R; [|found|done|apply lookup_insert_eq].
  eapply (run_delivered _ _ _ _ _ A _ n) in R; [|found|done].
  destruct R as (h & Htr & _). eexists _, h. split; [done|]. cbn. by rewrite bool_decide_eq_true_2.
Qed.

(** ** Witnesses *)

(** A codec whose only texts are a key confirmation, read whatever the text, and
    its notification. *)
Definition example_codec : SignalCodec := {|
  codec_decoders := plain_decoders;
  parse_value _ := Some tt; value_type _ := None;
  parse_client_message _ := Some (KeyConfirmMessage (D := plain_decoders) (str "session") Controller tt);
  parse_push _ := None; push_to_json _ := None; candidate_payload_from_json _ := None;
  key_exchange_from_json _ := None;
  key_confirm_from_json _ := Some {| kc_session_id := 7; kc_device_id := str "device"; kc_role := Controller;
    kc_transcript_hash := []; kc_mac := []; kc_timestamp := 0 |};
  forward_to_json _ _ _ _ _ := Some (str "confirm"); parse_uuid _ := Some 7 |}.

Definition example_directory : DeviceDirectory := {[ (str "account", str "device") := example_device ]}.

Lemma example_directory_ok : directory_ok example_directory.
Proof. by apply map_Forall_singleton. Qed.

Definition directory_call (client_nonce : bytes) : hello_call (D := plain_decoders) :=
  example_call client_nonce (device_authorize (D := plain_decoders) (DeviceMemory example_directory) 6000).

Lemma directory_call_ok n : authenticator_of (C := example_codec) (directory_call n).
Proof. exists (DeviceMemory example_directory). split; [apply example_directory_ok|done]. Qed.

Lemma directory_call_account n m :
  (directory_call n).(hc_claims).(acl_account_id) = (directory_call m).(hc_claims).(acl_account_id).
Proof. done. Qed.

Definition example_authenticated : AuthenticatedHello :=
  {| ah_device := example_device; ah_capabilities_hash := example_capabilities |}.

(** The replay cache after a hello with nonce [n]. *)
Definition remember (c : HelloReplays) (n : bytes) : HelloReplays :=
  <[(str "account", str "device", n) := 30000]> (filter (λ kv : hello_key * Z, 6000 < kv.2) c).

Lemma directory_call_accepted n c :
  n ∈ [be_bytes 32 2; be_bytes 32 3] → c !! (str "account", str "device", n) = None →
  (size c < MAX_MEMORY_REPLAY_ENTRIES)%nat →
  present (P := toy) c (directory_call n) =
    (Ok example_authenticated, remember c n).
Proof.
  intros Hn Hc Hs. apply (present_fresh (P := toy) c (directory_call n) example_authenticated n); [|done..].
  apply elem_of_cons in Hn as [->| ->%list_elem_of_singleton]; vm_compute; reflexivity.
Qed.

Lemma example_hellos :
  ∃ r1 r2, present (P := toy) ∅ (directory_call (be_bytes 32 2)) = (Ok example_authenticated, r1) ∧
    present (P := toy) r1 (directory_call (be_bytes 32 3)) = (Ok example_authenticated, r2).
Proof.
  eexists _, _. split; apply directory_call_accepted; [by left|apply lookup_empty| |by right; left| |].
    - rewrite map_size_empty. by apply Nat.ltb_lt.
    - unfold remember. rewrite lookup_insert_ne by done. by rewrite map_filter_empty.
    - apply Nat.le_lt_trans with 1%nat; [|by apply Nat.ltb_lt].
      etrans; [apply size_insert_le|]. by rewrite map_filter_empty, map_size_empty.
Qed.


Lemma example_superseded :
  ∃ tr h, hub_steps (P := toy) (C := example_codec) hub_new tr h ∧
    str "A" ∈ (hub_registry h).(cr_superseded) ∧ size h.(hb_tasks) = 2%nat.
Proof.
  destruct example_hellos as (r1 & r2 & H1 & H2).
  exact (superseding_run (P := toy) (C := example_codec) _ _ _ _ _ _ (str "A") (str "B")
    (directory_call_ok (be_bytes 32 2)) (directory_call_ok (be_bytes 32 3)) ltac:(discriminate) H1 H2 eq_refl).
Qed.

Lemma superseded_winds_down_witness :
  ∃ h tr h' t, str "A" ∈ (hub_registry h).(cr_superseded) ∧ hub_steps (P := toy) (C := example_codec) h tr h' ∧
    h'.(hb_tasks) !! str "A" = Some t ∧ t.(tk_phase) = Ended.
Proof.
  destruct example_superseded as (tr & h & Htr & Hs & _).
  destruct (superseded_winds_down (P := toy) (C := example_codec) h (str "A"))
    as (tr' & h' & t & H1 & _ & H2 & H3 & _); [by exists tr|exact Hs|].
  exists h, tr', h', t. exact (conj Hs (conj H1 (conj H2 H3))).
Defined.

Lemma hub_invariant_witness :
  ∃ h, str "A" ∈ (hub_registry h).(cr_superseded) ∧ size h.(hb_tasks) = 2%nat ∧ hub_wf h.
Proof.
  destruct example_superseded as (tr & h & Htr & Hs & Hn).
  exists h. split; [exact Hs|]. split; [exact Hn|].
  apply (hub_invariant (P := toy) (C := example_codec) h). by exists tr.
Defined.

(** A session of the example device with itself. *)
Definition example_sessions : SessionAuthorizer := SessionMemory {[ str "session" := {|
  sn_session_id := str "session"; sn_controller_device_id := str "device";
  sn_controlled_device_id := str "device"; sn_permissions_digest := []; sn_relay_token_epoch := 0 |} ]}.

Lemma notifications_in_order_witness :
  ∃ tr h, hub_steps (P := toy) (C := example_codec) hub_new tr h ∧ sent_to (str "A") tr = [str "confirm"] ∧
    sent_to (str "A") tr `prefix_of` queued_to (str "A") tr.
Proof.
  destruct example_hellos as (r1 & r2 & H1 & _).
  destruct (delivering_run (P := toy) (C := example_codec) _ _ _ (str "A") example_sessions (str "key_confirm")
    (str "session") Controller tt (str "text") (str "confirm") (directory_call_ok (be_bytes 32 2)) H1)
    as (tr & h & Htr & Hs).
  - intros s i. unfold handle_authenticated_text. reflexivity.
  - intros r. eapply (forward_enqueues (C := example_codec)); vm_compute; reflexivity.
  - exists tr, h. split; [exact Htr|]. split; [exact Hs|].
    apply (notifications_in_order (P := toy) (C := example_codec) tr h (str "A") Htr).
Defined.
