(* ===== verification/ApiSession.v ===== *)
(** * Sessions of the API server

    Models services/api-server/src: the session tables of model.rs, the
    operations on them of the memory repository of store.rs, and of
    routes/sessions.rs and routes/internal.rs how the routes build the commands
    and how the signalling and relay services are answered.

    A route reads, then writes in a second transaction: what it read may be out of
    date by then. The steps of [api_step] keep the two apart. Requests are taken
    from where their device signature is verified; identifiers drawn at random
    and the clock are arguments. *)

From S2P Require Import Prelude Text Canonical Security Primitives RequestTarget.

(** ** Data *)

Inductive AuthMethod := AccountPrompt | TemporaryCode | Unattended.

Inductive SessionStatus :=
| PendingCodeVerification | PendingUnattendedVerification | CodeVerified | UnattendedVerified
| WaitingApproval | Accepted | Connected | Degraded | Reconnecting | Cancelled | Closed | Rejected
| Failed.

#[global] Instance AuthMethod_eq_dec : EqDecision AuthMethod.
Proof. solve_decision. Defined.
#[global] Instance SessionStatus_eq_dec : EqDecision SessionStatus.
Proof. solve_decision. Defined.

Definition can_signal (s : SessionStatus) : bool :=
  match s with
  | Accepted | UnattendedVerified | Connected | Degraded | Reconnecting => true
  | _ => false
  end.

Definition is_terminal (s : SessionStatus) : bool :=
  match s with Cancelled | Closed | Rejected | Failed => true | _ => false end.

Inductive DeviceLifecycleStatus := LOnline | LOffline | LBusy | LSuspended | LDisabled | LUnbound.

Definition is_authorizable (s : DeviceLifecycleStatus) : bool :=
  match s with LOnline | LOffline | LBusy => true | _ => false end.

Record DeviceCapabilities := {
  cap_controller : bool; cap_controlled : bool; cap_file_transfer : bool; cap_unattended : bool }.

Inductive Platform := PWindows | PUbuntu | PIos.
Inductive Architecture := X86_64 | Aarch64.

Record Device := {
  dv_device_id : rstr;
  dv_account_id : rstr;
  dv_display_name : rstr;
  dv_platform : Platform;
  dv_os_version : rstr;
  dv_arch : Architecture;
  dv_capabilities : DeviceCapabilities;
  dv_public_key_id : rstr;
  dv_public_key : bytes;
  dv_public_key_version : Z;
  dv_public_key_revoked_at : option Z;
  dv_status : DeviceLifecycleStatus;
  dv_last_seen : option Z;
  dv_created_at : Z;
  dv_updated_at : Z }.

Record Session := {
  se_session_id : rstr;
  se_controller_account_id : rstr;
  se_controller_device_id : rstr;
  se_controlled_device_id : rstr;
  se_auth_method : AuthMethod;
  se_status : SessionStatus;
  se_permissions : SessionPermissions;
  se_permissions_digest : rstr;
  se_policy_evaluation_id : rstr;
  se_relay_token_epoch : Z;
  se_expires_at : Z;
  se_created_at : Z;
  se_updated_at : Z;
  se_ended_at : option Z }.

Record SessionEvent := {
  ev_event_id : rstr;
  ev_session_id : rstr;
  ev_event_type : rstr;
  ev_from_status : option SessionStatus;
  ev_to_status : SessionStatus;
  ev_actor_type : rstr;
  ev_actor_account_id : option rstr;
  ev_actor_device_id : option rstr;
  ev_actor_role : option rstr;
  ev_reason : option rstr;
  ev_idempotency_key_hash : rstr;
  ev_request_id : rstr;
  ev_created_at : Z;
  ev_result_session : option Session }.

Record IdempotencyRecord := {
  ir_account_id : rstr;
  ir_device_id : rstr;
  ir_method : rstr;
  ir_path : rstr;
  ir_operation : rstr;
  ir_idempotency_key : rstr;
  ir_body_hash : rstr;
  ir_request_id : rstr;
  ir_session_id : rstr;
  ir_request_binding_hash : rstr;
  ir_created_at : Z;
  ir_expires_at : Z }.

Record PolicyEvaluation := {
  pe_policy_evaluation_id : rstr;
  pe_session_id : rstr;
  pe_account_id : rstr;
  pe_controller_device_id : rstr;
  pe_controlled_device_id : rstr;
  pe_access_decision : rstr;
  pe_anti_abuse_decision : rstr;
  pe_session_access_decision : rstr;
  pe_effective_permissions : SessionPermissions;
  pe_permissions_digest : rstr;
  pe_evaluated_at : Z }.

(** The JSON values that the metadata of an audit entry hold. *)
#[warnings="-register-all"] Inductive Value :=
| VNull
| VBool (b : bool)
| VNumber (n : Z)
| VString (s : rstr)
| VObject (fields : list (rstr * Value)).

Record AuditEntry := {
  au_audit_id : rstr;
  au_actor_type : rstr;
  au_actor_account_id : option rstr;
  au_actor_device_id : option rstr;
  au_actor_role : option rstr;
  au_actor_service : option rstr;
  au_target_device_id : option rstr;
  au_session_id : option rstr;
  au_action : rstr;
  au_result : rstr;
  au_reason : option rstr;
  au_metadata : gmap rstr Value;
  au_request_id : rstr;
  au_created_at : Z }.

(** The tables these operations use. *)
Record Database := {
  db_devices : gmap rstr Device;
  db_sessions : gmap rstr Session;
  db_session_events : list SessionEvent;
  db_session_idempotency : gmap rstr IdempotencyRecord;
  db_policy_evaluations : gmap rstr PolicyEvaluation;
  db_audit_logs : list AuditEntry }.

Inductive StoreError := Conflict | Unavailable.

Record CreateSessionCommand := {
  cc_storage_key : rstr;
  cc_idempotency : IdempotencyRecord;
  cc_session : Session;
  cc_event : SessionEvent;
  cc_policy_evaluation : PolicyEvaluation;
  cc_audit_entry : AuditEntry }.

Inductive CreateSessionOutcome := Created (s : Session) | CreateReplayed (s : Session) | CreateBindingMismatch.

Record TransitionSessionCommand := {
  tc_storage_key : rstr;
  tc_expected_status : SessionStatus;
  tc_apply_allowed : bool;
  tc_idempotency : IdempotencyRecord;
  tc_session : Session;
  tc_event : SessionEvent;
  tc_audit_entry : AuditEntry }.

Inductive TransitionSessionOutcome :=
| Applied (s : Session) (event_id : rstr)
| Replayed (s : Session) (event_id : rstr)
| BindingMismatch | InvalidTransition | StateConflict | SessionNotFound.

(** ** The repository *)

Definition set_result (e : SessionEvent) (s : Session) : SessionEvent := {|
  ev_event_id := e.(ev_event_id); ev_session_id := e.(ev_session_id);
  ev_event_type := e.(ev_event_type); ev_from_status := e.(ev_from_status);
  ev_to_status := e.(ev_to_status); ev_actor_type := e.(ev_actor_type);
  ev_actor_account_id := e.(ev_actor_account_id); ev_actor_device_id := e.(ev_actor_device_id);
  ev_actor_role := e.(ev_actor_role); ev_reason := e.(ev_reason);
  ev_idempotency_key_hash := e.(ev_idempotency_key_hash); ev_request_id := e.(ev_request_id);
  ev_created_at := e.(ev_created_at); ev_result_session := Some s |}.

(** [session.status = ...] and the other fields a transition writes. *)
Definition set_outcome (s : Session) (status : SessionStatus) (epoch updated_at : Z) (ended_at : option Z)
    : Session := {|
  se_session_id := s.(se_session_id); se_controller_account_id := s.(se_controller_account_id);
  se_controller_device_id := s.(se_controller_device_id);
  se_controlled_device_id := s.(se_controlled_device_id); se_auth_method := s.(se_auth_method);
  se_status := status; se_permissions := s.(se_permissions);
  se_permissions_digest := s.(se_permissions_digest);
  se_policy_evaluation_id := s.(se_policy_evaluation_id); se_relay_token_epoch := epoch;
  se_expires_at := s.(se_expires_at); se_created_at := s.(se_created_at);
  se_updated_at := updated_at; se_ended_at := ended_at |}.

(** The event a repeated request looks for. *)
Definition replays_event (sid : rstr) (e event : SessionEvent) : bool :=
  (event.(ev_session_id) =! sid) && (event.(ev_event_type) =! e.(ev_event_type))
  && (event.(ev_actor_device_id) =! e.(ev_actor_device_id))
  && (event.(ev_idempotency_key_hash) =! e.(ev_idempotency_key_hash)).

Definition has_event (db : Database) (id : rstr) : bool :=
  existsb (λ e, e.(ev_event_id) =! id) db.(db_session_events).
Definition has_audit (db : Database) (id : rstr) : bool :=
  existsb (λ a, a.(au_audit_id) =! id) db.(db_audit_logs).

Definition create_session (db : Database) (c : CreateSessionCommand)
    : result StoreError CreateSessionOutcome * Database :=
  match db.(db_session_idempotency) !! c.(cc_storage_key) with
  | Some existing =>
      if existing.(ir_request_binding_hash) ≠! c.(cc_idempotency).(ir_request_binding_hash)
      then (Ok CreateBindingMismatch, db)
      else (s ← ok_or (e ← List.find (replays_event existing.(ir_session_id) c.(cc_event)) db.(db_session_events);
                       e.(ev_result_session)) Unavailable;
            Ok (CreateReplayed s), db)
  | None =>
      if bool_decide (is_Some (db.(db_sessions) !! c.(cc_session).(se_session_id)))
         || bool_decide (is_Some (db.(db_policy_evaluations) !! c.(cc_policy_evaluation).(pe_policy_evaluation_id)))
         || has_event db c.(cc_event).(ev_event_id) || has_audit db c.(cc_audit_entry).(au_audit_id)
      then (Err Conflict, db)
      else (Ok (Created c.(cc_session)), {|
        db_devices := db.(db_devices);
        db_sessions := <[c.(cc_session).(se_session_id) := c.(cc_session)]> db.(db_sessions);
        db_session_events := db.(db_session_events) ++ [set_result c.(cc_event) c.(cc_session)];
        db_session_idempotency := <[c.(cc_storage_key) := c.(cc_idempotency)]> db.(db_session_idempotency);
        db_policy_evaluations := <[c.(cc_policy_evaluation).(pe_policy_evaluation_id) :=
                                   c.(cc_policy_evaluation)]> db.(db_policy_evaluations);
        db_audit_logs := db.(db_audit_logs) ++ [c.(cc_audit_entry)] |})
  end.

(** The session a transition writes; [None] when the epoch cannot advance. *)
Definition next_session (current : Session) (c : TransitionSessionCommand) : option Session :=
  let updated_at := Z.max current.(se_updated_at) c.(tc_session).(se_updated_at) in
  if is_terminal c.(tc_session).(se_status) then
    if 2 ^ 63 - 1 <=? current.(se_relay_token_epoch) then None
    else Some (set_outcome current c.(tc_session).(se_status) (current.(se_relay_token_epoch) + 1) updated_at
                 (Some (default c.(tc_event).(ev_created_at) c.(tc_session).(se_ended_at))))
  else Some (set_outcome current c.(tc_session).(se_status) current.(se_relay_token_epoch) updated_at
               current.(se_ended_at)).

(** A session, its event and its audit entry are written together. *)
Definition write_session (db : Database) (s : Session) (e : SessionEvent) (a : AuditEntry) : Database := {|
  db_devices := db.(db_devices);
  db_sessions := <[s.(se_session_id) := s]> db.(db_sessions);
  db_session_events := db.(db_session_events) ++ [e];
  db_session_idempotency := db.(db_session_idempotency);
  db_policy_evaluations := db.(db_policy_evaluations);
  db_audit_logs := db.(db_audit_logs) ++ [a] |}.

Definition remember_request (db : Database) (key : rstr) (r : IdempotencyRecord) : Database := {|
  db_devices := db.(db_devices); db_sessions := db.(db_sessions);
  db_session_events := db.(db_session_events);
  db_session_idempotency := <[key := r]> db.(db_session_idempotency);
  db_policy_evaluations := db.(db_policy_evaluations); db_audit_logs := db.(db_audit_logs) |}.

Definition transition_session (db : Database) (c : TransitionSessionCommand)
    : result StoreError TransitionSessionOutcome * Database :=
  match db.(db_session_idempotency) !! c.(tc_storage_key) with
  | Some existing =>
      if existing.(ir_request_binding_hash) ≠! c.(tc_idempotency).(ir_request_binding_hash)
      then (Ok BindingMismatch, db)
      else (e ← ok_or (List.find (replays_event existing.(ir_session_id) c.(tc_event))
                         (rev db.(db_session_events))) Unavailable;
            s ← ok_or e.(ev_result_session) Unavailable;
            Ok (Replayed s e.(ev_event_id)), db)
  | None =>
      if negb c.(tc_apply_allowed) then (Ok InvalidTransition, db)
      else match db.(db_sessions) !! c.(tc_session).(se_session_id) with
      | None => (Ok SessionNotFound, db)
      | Some current =>
          if current.(se_status) ≠! c.(tc_expected_status) then (Ok StateConflict, db)
          else if (c.(tc_event).(ev_from_status) ≠! Some c.(tc_expected_status))
             || (c.(tc_event).(ev_session_id) ≠! c.(tc_session).(se_session_id))
             || (c.(tc_event).(ev_to_status) ≠! c.(tc_session).(se_status))
             || (c.(tc_idempotency).(ir_session_id) ≠! c.(tc_session).(se_session_id))
             || has_event db c.(tc_event).(ev_event_id) || has_audit db c.(tc_audit_entry).(au_audit_id)
          then (Err Conflict, db)
          else match next_session current c with
          | None => (Err Conflict, db)
          | Some s =>
              (Ok (Applied s c.(tc_event).(ev_event_id)),
               remember_request (write_session db s (set_result c.(tc_event) s) c.(tc_audit_entry))
                 c.(tc_storage_key) c.(tc_idempotency))
          end
      end
  end.

(** ** The routes *)

Definition SESSION_AUTH_TTL_MILLIS : Z := 5 * 60 * 1000.

Record CreateSessionRequest := {
  cq_controller_device_id : rstr;
  cq_controlled_device_id : rstr;
  cq_auth_method : AuthMethod;
  cq_requested_permissions : SessionPermissions;
  cq_idempotency_key : rstr }.

(** What the routes of a transition share: the signed actor and the request. *)
Record TransitionRequest := {
  tq_account_id : rstr;
  tq_actor : Device;
  tq_actor_role : rstr;
  tq_session_id : rstr;
  tq_target : SessionStatus;
  tq_event_type : rstr;
  tq_audit_action : rstr;
  tq_reason : option rstr;
  tq_idempotency_key : rstr;
  tq_request_binding_hash : rstr;
  tq_request_body_hash : rstr;
  tq_request_method : rstr;
  tq_request_path : rstr;
  tq_request_id : rstr }.

(** The two UUIDs a request draws and its clock. *)
Record Draws := { dr_event_id : rstr; dr_audit_id : rstr; dr_now : Z }.

Inductive ApiError :=
| AeInternal | AeControllerNotAuthorized | AeInvalidSessionPair | AeControlledDeviceNotFound
| AeControlledDeviceInactive | AeControlledCapabilityDisabled | AeRemoteDesktopRequired
| AeIdempotencyConflict | AeIdempotencyBindingMismatch | AeInvalidIdempotencyKey | AeSessionNotFound
| AeSessionNotAuthorized | AeActorRoleMismatch | AeActorMismatch | AeSessionStateConflict
| AeInvalidSessionTransition | AeReasonRequired | AeInvalidConnectionState | AeUnknownDevice
| AeSessionParticipantMismatch | AeSessionNotConnectable | AeRelayNotAuthorized.

Inductive SessionAction := Accept | Reject | Cancel | Close.

Definition contract (a : SessionAction) : SessionStatus * rstr * rstr * rstr :=
  match a with
  | Accept => (Accepted, str "invite_accepted", str "session_accepted", str "session_accept_ack")
  | Reject => (Rejected, str "invite_rejected", str "session_rejected", str "session_reject_ack")
  | Cancel => (Cancelled, str "cancelled", str "session_cancelled", str "session_cancel_ack")
  | Close => (Closed, str "closed", str "session_ended", str "session_close_ack")
  end.

(** The event type and audit action of a reported connection state. *)
Definition connection_contract (s : SessionStatus) : option (rstr * rstr) :=
  match s with
  | Connected => Some (str "connected", str "session_connected")
  | Degraded => Some (str "degraded", str "session_degraded")
  | Reconnecting => Some (str "reconnecting", str "session_reconnecting")
  | Failed => Some (str "failed", str "session_failed")
  | _ => None
  end.

Definition validate_transition (from to : SessionStatus) (actor_role : rstr) (require_prompt : bool) : bool :=
  match to with
  | Accepted | Rejected =>
      (actor_role =! str "controlled")
      && match from with WaitingApproval | CodeVerified | UnattendedVerified => true | _ => false end
  | Cancelled =>
      (actor_role =! str "controller")
      && match from with
         | PendingCodeVerification | PendingUnattendedVerification | CodeVerified | UnattendedVerified
         | WaitingApproval => true
         | _ => false
         end
  | Closed => match from with Accepted | Connected | Degraded | Reconnecting => true | _ => false end
  | Connected =>
      match from with
      | Accepted | Degraded | Reconnecting => true
      | UnattendedVerified => negb require_prompt
      | _ => false
      end
  | Degraded => from =! Connected
  | Reconnecting => match from with Connected | Degraded => true | _ => false end
  | Failed => match from with Rejected | Cancelled | Closed | Failed => false | _ => true end
  | _ => false
  end.

Definition participant_role (db : Database) (s : Session) (account_id device_id : rstr) : option rstr :=
  if (s.(se_controller_account_id) =! account_id) && (s.(se_controller_device_id) =! device_id)
  then Some (str "controller")
  else
    target ← db.(db_devices) !! s.(se_controlled_device_id);
    if (target.(dv_account_id) =! account_id) && (target.(dv_device_id) =! device_id)
    then Some (str "controlled") else None.

Definition validate_idempotency_key (value : rstr) : result ApiError unit :=
  ensure (negb ((value =! []) || (128 <? len value) || negb (forallb (λ b, byte_val b <? 128) value)))
    AeInvalidIdempotencyKey.

Definition validate_actor (actor_type actor_device_id : rstr) (signed_device : Device)
    : result ApiError unit :=
  ensure (negb ((actor_type ≠! str "device") || (actor_device_id ≠! signed_device.(dv_device_id))))
    AeActorMismatch.

Section routes.
Context `{P : Primitives}.

Definition sha256_hex (b : bytes) : rstr := flat_map hex_byte (sha256 b).

(** The text hashed into a storage key: the parts separated by NUL. *)
Definition storage_key_text (account_id device_id method path idempotency_key : rstr) : rstr :=
  account_id ++ [x00] ++ device_id ++ [x00] ++ (ascii_upper <$> method) ++ [x00] ++ path ++ [x00]
  ++ idempotency_key.

Definition idempotency_storage_key (account_id device_id method path idempotency_key : rstr) : rstr :=
  sha256_hex (storage_key_text account_id device_id method path idempotency_key).

Definition permissions_digest (p : SessionPermissions) : option rstr :=
  match permissions_canonical_bytes p with Ok b => Some (sha256_hex b) | Err _ => None end.

Definition new_event (s : Session) (event_type : rstr) (from_status : option SessionStatus)
    (to_status : SessionStatus) (account_id device_id role : rstr) (reason : option rstr)
    (idempotency_key request_id : rstr) (d : Draws) : SessionEvent := {|
  ev_event_id := d.(dr_event_id); ev_session_id := s.(se_session_id); ev_event_type := event_type;
  ev_from_status := from_status; ev_to_status := to_status; ev_actor_type := str "device";
  ev_actor_account_id := Some account_id; ev_actor_device_id := Some device_id;
  ev_actor_role := Some role; ev_reason := reason;
  ev_idempotency_key_hash := sha256_hex idempotency_key; ev_request_id := request_id;
  ev_created_at := d.(dr_now); ev_result_session := Some s |}.

Definition new_session_audit (request_id account_id device_id role : rstr) (s : Session) (action : rstr)
    (reason : option rstr) (d : Draws) : AuditEntry := {|
  au_audit_id := d.(dr_audit_id); au_actor_type := str "device"; au_actor_account_id := Some account_id;
  au_actor_device_id := Some device_id; au_actor_role := Some role; au_actor_service := None;
  au_target_device_id := Some s.(se_controlled_device_id); au_session_id := Some s.(se_session_id);
  au_action := action; au_result := str "success"; au_reason := reason; au_metadata := ∅;
  au_request_id := request_id; au_created_at := d.(dr_now) |}.

(** [create_session] of the route up to its transaction: the controller is the
    signed device; the binding of the request is computed before. *)
Definition prepare_create (db : Database) (account_id : rstr) (controller : Device) (q : CreateSessionRequest)
    (binding_hash body_hash method target request_id session_id policy_id : rstr) (d : Draws)
    : result ApiError CreateSessionCommand :=
  _ ← validate_idempotency_key q.(cq_idempotency_key);
  _ ← ensure (negb ((controller.(dv_device_id) ≠! q.(cq_controller_device_id))
               || negb controller.(dv_capabilities).(cap_controller))) AeControllerNotAuthorized;
  _ ← ensure (q.(cq_controller_device_id) ≠! q.(cq_controlled_device_id)) AeInvalidSessionPair;
  controlled ← ok_or (db.(db_devices) !! q.(cq_controlled_device_id)) AeControlledDeviceNotFound;
  _ ← ensure (is_authorizable controlled.(dv_status)) AeControlledDeviceInactive;
  _ ← ensure (negb ((q.(cq_auth_method) =! AccountPrompt) && (controlled.(dv_account_id) ≠! account_id)))
        AeControlledDeviceNotFound;
  _ ← ensure controlled.(dv_capabilities).(cap_controlled) AeControlledCapabilityDisabled;
  let rp := q.(cq_requested_permissions) in
  _ ← ensure rp.(remote_desktop) AeRemoteDesktopRequired;
  let permissions := {|
    remote_desktop := rp.(remote_desktop); input_control := rp.(input_control);
    clipboard := rp.(clipboard); file_transfer := rp.(file_transfer);
    unattended := rp.(unattended) && (q.(cq_auth_method) =! Unattended);
    privacy_screen := false; block_local_input := false;
    require_prompt := (q.(cq_auth_method) ≠! Unattended) || rp.(require_prompt);
    allow_relay := rp.(allow_relay) |} in
  let status := match q.(cq_auth_method) with
                | AccountPrompt => WaitingApproval
                | TemporaryCode => PendingCodeVerification
                | Unattended => PendingUnattendedVerification
                end in
  digest ← ok_or (permissions_digest permissions) AeInternal;
  let s := {|
    se_session_id := session_id; se_controller_account_id := account_id;
    se_controller_device_id := controller.(dv_device_id);
    se_controlled_device_id := controlled.(dv_device_id); se_auth_method := q.(cq_auth_method);
    se_status := status; se_permissions := permissions; se_permissions_digest := digest;
    se_policy_evaluation_id := policy_id; se_relay_token_epoch := 1;
    se_expires_at := d.(dr_now) + SESSION_AUTH_TTL_MILLIS; se_created_at := d.(dr_now);
    se_updated_at := d.(dr_now); se_ended_at := None |} in
  Ok {|
    cc_storage_key := idempotency_storage_key account_id controller.(dv_device_id) method target
                        q.(cq_idempotency_key);
    cc_idempotency := {|
      ir_account_id := account_id; ir_device_id := controller.(dv_device_id);
      ir_method := ascii_upper <$> method; ir_path := target; ir_operation := str "create";
      ir_idempotency_key := q.(cq_idempotency_key); ir_body_hash := body_hash;
      ir_request_id := request_id; ir_session_id := session_id;
      ir_request_binding_hash := binding_hash; ir_created_at := d.(dr_now);
      ir_expires_at := s.(se_expires_at) |};
    cc_session := s;
    cc_event := new_event s (str "invite_created") None status account_id controller.(dv_device_id)
                  (str "controller") None q.(cq_idempotency_key) request_id d;
    cc_policy_evaluation := {|
      pe_policy_evaluation_id := policy_id; pe_session_id := session_id; pe_account_id := account_id;
      pe_controller_device_id := controller.(dv_device_id);
      pe_controlled_device_id := controlled.(dv_device_id); pe_access_decision := str "allow";
      pe_anti_abuse_decision := str "allow";
      pe_session_access_decision :=
        if permissions.(require_prompt) then str "require_prompt" else str "allow";
      pe_effective_permissions := permissions; pe_permissions_digest := digest;
      pe_evaluated_at := d.(dr_now) |};
    cc_audit_entry := new_session_audit request_id account_id controller.(dv_device_id)
                        (str "controller") s (str "session_invited") None d |}.

(** [transition_to] up to its transaction. *)
Definition prepare_transition (db : Database) (q : TransitionRequest) (d : Draws)
    : result ApiError TransitionSessionCommand :=
  session ← ok_or (db.(db_sessions) !! q.(tq_session_id)) AeSessionNotFound;
  expected_role ← ok_or (participant_role db session q.(tq_account_id) q.(tq_actor).(dv_device_id))
                    AeSessionNotAuthorized;
  _ ← ensure (expected_role =! q.(tq_actor_role)) AeActorRoleMismatch;
  let from := session.(se_status) in
  let valid := validate_transition from q.(tq_target) expected_role
                 session.(se_permissions).(require_prompt) in
  let session := if is_terminal q.(tq_target)
    then set_outcome session q.(tq_target) (sat_add 64 session.(se_relay_token_epoch) 1) d.(dr_now)
           (Some d.(dr_now))
    else set_outcome session q.(tq_target) session.(se_relay_token_epoch) d.(dr_now)
           session.(se_ended_at) in
  Ok {|
    tc_storage_key := idempotency_storage_key q.(tq_account_id) q.(tq_actor).(dv_device_id)
      q.(tq_request_method) q.(tq_request_path) q.(tq_idempotency_key);
    tc_expected_status := from;
    tc_apply_allowed := valid;
    tc_idempotency := {|
      ir_account_id := q.(tq_account_id); ir_device_id := q.(tq_actor).(dv_device_id);
      ir_method := ascii_upper <$> q.(tq_request_method); ir_path := q.(tq_request_path);
      ir_operation := q.(tq_event_type); ir_idempotency_key := q.(tq_idempotency_key);
      ir_body_hash := q.(tq_request_body_hash); ir_request_id := q.(tq_request_id);
      ir_session_id := q.(tq_session_id);
      ir_request_binding_hash := q.(tq_request_binding_hash); ir_created_at := d.(dr_now);
      ir_expires_at := session.(se_expires_at) |};
    tc_session := session;
    tc_event := new_event session q.(tq_event_type) (Some from) q.(tq_target) q.(tq_account_id)
      q.(tq_actor).(dv_device_id) expected_role q.(tq_reason) q.(tq_idempotency_key)
      q.(tq_request_id) d;
    tc_audit_entry := new_session_audit q.(tq_request_id) q.(tq_account_id)
      q.(tq_actor).(dv_device_id) expected_role session q.(tq_audit_action) q.(tq_reason) d |}.

(** [transition_to] after its transaction. *)
Definition finish_transition (o : result StoreError TransitionSessionOutcome)
    : result ApiError (Session * rstr) :=
  match o with
  | Ok (Applied s e) | Ok (Replayed s e) => Ok (s, e)
  | Ok BindingMismatch => Err AeIdempotencyBindingMismatch
  | Ok InvalidTransition => Err AeInvalidSessionTransition
  | Ok StateConflict => Err AeSessionStateConflict
  | Ok SessionNotFound => Err AeSessionNotFound
  | Err Conflict => Err AeSessionStateConflict
  | Err Unavailable => Err AeInternal
  end.

(** The request of an accept, reject, cancel or close by the signed actor. *)
Definition action_request (a : SessionAction) (account_id : rstr) (actor : Device)
    (actor_type actor_device_id actor_role session_id idempotency_key : rstr) (reason : option rstr)
    (binding_hash body_hash method path request_id : rstr) : result ApiError TransitionRequest :=
  _ ← validate_actor actor_type actor_device_id actor;
  _ ← validate_idempotency_key idempotency_key;
  _ ← ensure (negb (match a with Accept => false | _ => default true ((λ r, r =! []) <$> reason) end))
        AeReasonRequired;
  let '(status, event_type, audit_action, _) := contract a in
  Ok {| tq_account_id := account_id; tq_actor := actor; tq_actor_role := actor_role;
        tq_session_id := session_id; tq_target := status; tq_event_type := event_type;
        tq_audit_action := audit_action; tq_reason := reason; tq_idempotency_key := idempotency_key;
        tq_request_binding_hash := binding_hash; tq_request_body_hash := body_hash;
        tq_request_method := method; tq_request_path := path; tq_request_id := request_id |}.

(** The request of a reported connection state. *)
Definition connection_state_request (account_id : rstr) (actor : Device)
    (actor_type actor_device_id actor_role session_id idempotency_key : rstr) (state : SessionStatus)
    (reason : option rstr) (binding_hash body_hash method path request_id : rstr)
    : result ApiError TransitionRequest :=
  _ ← validate_actor actor_type actor_device_id actor;
  _ ← validate_idempotency_key idempotency_key;
  '(event_type, audit_action) ← ok_or (connection_contract state) AeInvalidConnectionState;
  Ok {| tq_account_id := account_id; tq_actor := actor; tq_actor_role := actor_role;
        tq_session_id := session_id; tq_target := state; tq_event_type := event_type;
        tq_audit_action := audit_action; tq_reason := reason; tq_idempotency_key := idempotency_key;
        tq_request_binding_hash := binding_hash; tq_request_body_hash := body_hash;
        tq_request_method := method; tq_request_path := path; tq_request_id := request_id |}.

(** [forced_session_close_records]. *)
Definition forced_session_close_records (s : Session) (from_status : SessionStatus) (source : AuditEntry)
    (reason : rstr) : SessionEvent * AuditEntry :=
  let binding := str "rctl-forced-session-close-v1" ++ [x00] ++ source.(au_audit_id) ++ [x00]
                 ++ s.(se_session_id) in
  ({| ev_event_id := sha256_hex (str "event" ++ [x00] ++ binding); ev_session_id := s.(se_session_id);
      ev_event_type := str "closed"; ev_from_status := Some from_status; ev_to_status := Closed;
      ev_actor_type := str "system"; ev_actor_account_id := None; ev_actor_device_id := None;
      ev_actor_role := None; ev_reason := Some reason;
      ev_idempotency_key_hash := sha256_hex (str "idempotency" ++ [x00] ++ binding);
      ev_request_id := source.(au_request_id); ev_created_at := source.(au_created_at);
      ev_result_session := Some s |},
   {| au_audit_id := sha256_hex (str "audit" ++ [x00] ++ binding); au_actor_type := str "system";
      au_actor_account_id := None; au_actor_device_id := None; au_actor_role := None;
      au_actor_service := None; au_target_device_id := source.(au_target_device_id);
      au_session_id := Some s.(se_session_id); au_action := str "session_ended";
      au_result := str "success"; au_reason := Some reason;
      au_metadata := {[ str "trigger_action" := VString source.(au_action) ]};
      au_request_id := source.(au_request_id); au_created_at := source.(au_created_at) |}).

(** One turn of the loops of [manage_device] and of a key rotation that close the
    open sessions of a device: an error when the epoch overflows. *)
Definition close_forced (db : Database) (sid : rstr) (source : AuditEntry) (reason : rstr) (now : Z)
    : result StoreError Database :=
  s ← ok_or (db.(db_sessions) !! sid) Unavailable;
  epoch ← ok_or (if s.(se_relay_token_epoch) + 1 <? 2 ^ 64 then Some (s.(se_relay_token_epoch) + 1) else None)
            Conflict;
  let closed := set_outcome s Closed epoch (Z.max s.(se_updated_at) now) (Some now) in
  let '(event, audit) := forced_session_close_records closed s.(se_status) source reason in
  Ok (write_session db closed event audit).
End routes.

(** ** Runs of the API *)

(** The database and the transitions under way: prepared, not yet committed. *)
Record Api := { api_db : Database; api_pending : list TransitionSessionCommand }.

Definition devices_ok (db : Database) : Prop := map_Forall (λ id d, d.(dv_device_id) = id) db.(db_devices).

Definition api_new (devices : gmap rstr Device) : Api := {|
  api_db := {| db_devices := devices; db_sessions := ∅; db_session_events := [];
               db_session_idempotency := ∅; db_policy_evaluations := ∅; db_audit_logs := [] |};
  api_pending := [] |}.

Section runs.
Context `{P : Primitives}.

(** A step: a session is created; a transition is prepared from the tables as
    they are; a prepared transition is committed to the tables as they are by
    then; an open session is closed because its device lost its rights; another
    operation of the service changes devices or adds audit entries. *)
Inductive api_step (a : Api) : Api → Prop :=
| api_create db0 account_id controller q bh bdh m t rid sid pid d c o db :
    devices_ok db0 →
    prepare_create db0 account_id controller q bh bdh m t rid sid pid d = Ok c →
    create_session a.(api_db) c = (o, db) →
    api_step a {| api_db := db; api_pending := a.(api_pending) |}
| api_prepare q d c :
    prepare_transition a.(api_db) q d = Ok c →
    api_step a {| api_db := a.(api_db); api_pending := c :: a.(api_pending) |}
| api_commit c o db :
    c ∈ a.(api_pending) → transition_session a.(api_db) c = (o, db) →
    api_step a {| api_db := db; api_pending := a.(api_pending) |}
| api_force sid s source reason now db :
    a.(api_db).(db_sessions) !! sid = Some s → is_terminal s.(se_status) = false →
    close_forced a.(api_db) sid source reason now = Ok db →
    api_step a {| api_db := db; api_pending := a.(api_pending) |}
| api_other db :
    devices_ok db → db.(db_sessions) = a.(api_db).(db_sessions) →
    db.(db_session_events) = a.(api_db).(db_session_events) →
    db.(db_session_idempotency) = a.(api_db).(db_session_idempotency) →
    a.(api_db).(db_audit_logs) `prefix_of` db.(db_audit_logs) →
    api_step a {| api_db := db; api_pending := a.(api_pending) |}.

Definition api_reachable (a : Api) : Prop :=
  ∃ devices, map_Forall (λ id d, d.(dv_device_id) = id) devices ∧ rtc api_step (api_new devices) a.

(** What no operation changes. *)
Definition fixed_part (s : Session) : Session := set_outcome s Failed 0 0 None.

(** The device and account behind the role an event names. *)
Definition actor_ok (s : Session) (e : SessionEvent) : Prop :=
  (e.(ev_actor_role) = Some (str "controller") →
     e.(ev_actor_device_id) = Some s.(se_controller_device_id) ∧
     e.(ev_actor_account_id) = Some s.(se_controller_account_id)) ∧
  (e.(ev_actor_role) = Some (str "controlled") → e.(ev_actor_device_id) = Some s.(se_controlled_device_id)).

(** A new session, as the route makes it. *)
Definition initial (s : Session) : Prop :=
  s.(se_relay_token_epoch) = 1 ∧ s.(se_ended_at) = None ∧
  s.(se_status) = match s.(se_auth_method) with
                  | AccountPrompt => WaitingApproval
                  | TemporaryCode => PendingCodeVerification
                  | Unattended => PendingUnattendedVerification
                  end ∧
  s.(se_controller_device_id) ≠ s.(se_controlled_device_id) ∧
  (s.(se_auth_method) ≠ Unattended → s.(se_permissions).(require_prompt) = true ∧
                                     s.(se_permissions).(unattended) = false) ∧
  s.(se_permissions).(privacy_screen) = false ∧ s.(se_permissions).(block_local_input) = false.

(** One move of a session: by a participant, along the table of transitions, or
    the forced end of an open session; the relay epoch advances when, and only
    when, the session ends. *)
Definition moves (s : Session) (e : SessionEvent) (s' : Session) : Prop :=
  fixed_part s' = fixed_part s ∧
  s.(se_updated_at) ≤ s'.(se_updated_at) ∧
  s'.(se_relay_token_epoch) = s.(se_relay_token_epoch) + (if is_terminal s'.(se_status) then 1 else 0) ∧
  (is_terminal s'.(se_status) = true → is_Some s'.(se_ended_at)) ∧
  (is_terminal s'.(se_status) = false → s'.(se_ended_at) = s.(se_ended_at)) ∧
  is_terminal s.(se_status) = false ∧
  ((∃ role, e.(ev_actor_role) = Some role ∧ actor_ok s e ∧
            validate_transition s.(se_status) s'.(se_status) role s.(se_permissions).(require_prompt) = true) ∨
   (e.(ev_actor_type) = str "system" ∧ s'.(se_status) = Closed)).

(** The journal of a session: its events, in order, from its creation to its
    present state. *)
Inductive journal : list SessionEvent → Session → Prop :=
| journal_created e s :
    initial s → e.(ev_from_status) = None → e.(ev_to_status) = s.(se_status) →
    e.(ev_result_session) = Some s → actor_ok s e → e.(ev_actor_role) = Some (str "controller") →
    journal [e] s
| journal_moved es s e s' :
    journal es s → e.(ev_from_status) = Some s.(se_status) → e.(ev_to_status) = s'.(se_status) →
    e.(ev_result_session) = Some s' → moves s e s' → journal (es ++ [e]) s'.

Definition events_of (db : Database) (sid : rstr) : list SessionEvent :=
  filter (λ e, e.(ev_session_id) = sid) db.(db_session_events).

(** Every session has its journal, and there are no other events. *)
Definition tables_ok (db : Database) : Prop :=
  ∀ sid, match db.(db_sessions) !! sid with
         | Some s => s.(se_session_id) = sid ∧ journal (events_of db sid) s
         | None => events_of db sid = []
         end.

(** A prepared transition is right about everything that cannot change. *)
Definition prepared_ok (db : Database) (c : TransitionSessionCommand) : Prop :=
  ∃ s role, db.(db_sessions) !! c.(tc_session).(se_session_id) = Some s ∧
    fixed_part s = fixed_part c.(tc_session) ∧
    c.(tc_event).(ev_actor_role) = Some role ∧ actor_ok s c.(tc_event) ∧
    (c.(tc_apply_allowed) = true →
     validate_transition c.(tc_expected_status) c.(tc_session).(se_status) role
       s.(se_permissions).(require_prompt) = true).

Record api_inv (a : Api) : Prop := {
  ai_devices : devices_ok a.(api_db);
  ai_tables : tables_ok a.(api_db);
  ai_pending : Forall (prepared_ok a.(api_db)) a.(api_pending) }.
End runs.

(** ** Lemmas *)

Lemma transition_from_open from to role p :
  validate_transition from to role p = true → is_terminal from = false.
Proof. unfold validate_transition. destruct to, from; cbn; try done; by rewrite andb_false_r. Qed.

Lemma fixed_part_fields s s' :
  fixed_part s = fixed_part s' →
  s.(se_session_id) = s'.(se_session_id) ∧ s.(se_permissions) = s'.(se_permissions) ∧
  s.(se_controller_device_id) = s'.(se_controller_device_id) ∧
  s.(se_controlled_device_id) = s'.(se_controlled_device_id) ∧
  s.(se_controller_account_id) = s'.(se_controller_account_id) ∧
  s.(se_auth_method) = s'.(se_auth_method) ∧ s.(se_permissions_digest) = s'.(se_permissions_digest) ∧
  s.(se_expires_at) = s'.(se_expires_at).
Proof. unfold fixed_part, set_outcome. intros H. by injection H. Qed.

Lemma fixed_part_outcome s st e u t : fixed_part (set_outcome s st e u t) = fixed_part s.
Proof. done. Qed.

Lemma actor_ok_same s s' e : fixed_part s = fixed_part s' → actor_ok s e → actor_ok s' e.
Proof. intros (_ & _ & E1 & E2 & E3 & _)%fixed_part_fields. unfold actor_ok. by rewrite E1, E2, E3. Qed.

Lemma events_of_snoc db sid e (db' : Database) :
  db'.(db_session_events) = db.(db_session_events) ++ [e] →
  events_of db' sid = events_of db sid ++ (if decide (e.(ev_session_id) = sid) then [e] else []).
Proof.
  intros H. unfold events_of. rewrite H, filter_app, filter_cons, filter_nil. done.
Qed.

(** A new session or a move, with its event, keeps the tables. *)
Lemma tables_write db db' s e :
  db'.(db_sessions) = <[s.(se_session_id) := s]> db.(db_sessions) →
  db'.(db_session_events) = db.(db_session_events) ++ [e] → e.(ev_session_id) = s.(se_session_id) →
  journal (events_of db s.(se_session_id) ++ [e]) s → tables_ok db → tables_ok db'.
Proof.
  intros Hs He Hid Hj W sid. rewrite Hs, (events_of_snoc db _ e db' He), Hid.
  destruct (decide (s.(se_session_id) = sid)) as [<-|Hne].
  - by rewrite lookup_insert_eq.
  - rewrite lookup_insert_ne, app_nil_r by done. apply W.
Qed.

(** Commands prepared before stay right while sessions keep their fixed part. *)
Lemma prepared_mono db db' c :
  (∀ sid s, db.(db_sessions) !! sid = Some s →
     ∃ s', db'.(db_sessions) !! sid = Some s' ∧ fixed_part s' = fixed_part s) →
  prepared_ok db c → prepared_ok db' c.
Proof.
  intros Hm (s & role & Hs & Hf & Hr & Ha & Hv). destruct (Hm _ _ Hs) as (s' & Hs' & Hf').
  exists s', role. split_and!; try done; [congruence|by apply (actor_ok_same s)|].
  apply fixed_part_fields in Hf' as (_ & -> & _). done.
Qed.

Lemma keeps_fixed (m : gmap rstr Session) sid s s' :
  m !! sid = Some s → fixed_part s' = fixed_part s →
  ∀ x y, m !! x = Some y → ∃ y', <[sid := s']> m !! x = Some y' ∧ fixed_part y' = fixed_part y.
Proof.
  intros Hs Hf x y Hy. destruct (decide (x = sid)) as [->|]; [|exists y; by rewrite lookup_insert_ne].
  exists s'. rewrite lookup_insert_eq. split; [done|]. congruence.
Qed.

Section run_lemmas.
Context `{P : Primitives}.

Lemma prepare_create_ok db a ctl q bh bdh m t rid sid pid d c :
  devices_ok db → prepare_create db a ctl q bh bdh m t rid sid pid d = Ok c →
  initial c.(cc_session) ∧ c.(cc_event).(ev_from_status) = None ∧
  c.(cc_event).(ev_to_status) = c.(cc_session).(se_status) ∧
  c.(cc_event).(ev_session_id) = c.(cc_session).(se_session_id) ∧
  actor_ok c.(cc_session) c.(cc_event) ∧ c.(cc_event).(ev_actor_role) = Some (str "controller").
Proof.
  unfold prepare_create, validate_idempotency_key. intros Hd H. invert_ok.
  cbn [cc_session cc_event new_event ev_from_status ev_to_status ev_session_id ev_actor_role se_status se_session_id].
  match goal with H : db_devices _ !! _ = Some _ |- _ => pose proof (Hd _ _ H) as Hid end.
  cbn in Hid. split_and!; try done.
  unfold initial. cbn. split_and!; try done; [congruence|].
  intros Hne. rewrite (bool_decide_eq_false_2 _ Hne). cbn. by rewrite andb_false_r.
Qed.

Lemma create_inv a0 account_id ctl q bh bdh m t rid sid pid d c o db0 db :
  devices_ok db0 → prepare_create db0 account_id ctl q bh bdh m t rid sid pid d = Ok c →
  create_session a0.(api_db) c = (o, db) → api_inv a0 →
  api_inv {| api_db := db; api_pending := a0.(api_pending) |}.
Proof.
  intros Hd0 Hp Hc [Hd Ht Hpe]. apply prepare_create_ok in Hp as (Hi & Hf & Hto & Hid & Ha & Hr); [|done].
  unfold create_session in Hc. destruct (db_session_idempotency _ !! _) as [ex|].
  { destruct (negb _); by injection Hc as _ <-. }
  destruct (_ || _ || _ || _) eqn:E; injection Hc as _ <-; [done|].
  apply orb_false_iff in E as [E _]. apply orb_false_iff in E as [E _].
  apply orb_false_iff in E as [E _]. apply bool_decide_eq_false in E. apply eq_None_not_Some in E.
  split; cbn.
  - done.
  - eapply tables_write; [reflexivity|reflexivity|done| |done].
    pose proof (Ht c.(cc_session).(se_session_id)) as H. rewrite E in H. rewrite H. by constructor.
  - eapply Forall_impl; [exact Hpe|]. intros x. apply prepared_mono. cbn.
    intros y s Hs. exists s. split; [|done]. rewrite lookup_insert_ne; [done|congruence].
Qed.

Lemma participant_ok db s a dev r e :
  devices_ok db → participant_role db s a dev = Some r → e.(ev_actor_role) = Some r →
  e.(ev_actor_device_id) = Some dev → e.(ev_actor_account_id) = Some a → actor_ok s e.
Proof.
  unfold participant_role, actor_ok. intros Hd Hr -> -> ->. revert Hr. destruct (_ && _) eqn:E.
  { intros [= <-]. split_bools. by subst. }
  clear E. intros (x & Hx & Hr)%bind_Some. revert Hr. destruct (_ && _) eqn:E2; intros [= <-].
  split; [done|]. intros _. split_bools. pose proof (Hd _ _ Hx) as Hy. cbn in Hy. congruence.
Qed.

Lemma prepare_transition_ok db q d c :
  devices_ok db → tables_ok db → prepare_transition db q d = Ok c → prepared_ok db c.
Proof.
  unfold prepare_transition. intros Hd Ht H. invert_ok.
  match goal with H : db_sessions _ !! _ = Some ?x |- _ => rename x into s; rename H into Hs end.
  match goal with H : participant_role _ _ _ _ = Some ?x |- _ => rename H into Hr end.
  pose proof (Ht (tq_session_id q)) as Hid. rewrite Hs in Hid. destruct Hid as [Hid _].
  set (s1 := if is_terminal (tq_target q) then _ else _).
  assert (fixed_part s1 = fixed_part s) as Hf by (unfold s1; by destruct (is_terminal _)).
  assert (se_status s1 = tq_target q) as Hst by (unfold s1; by destruct (is_terminal _)).
  pose proof (fixed_part_fields _ _ Hf) as (Hsid & _).
  exists s, (tq_actor_role q). cbn [tc_session tc_event tc_apply_allowed tc_expected_status new_event ev_actor_role].
  rewrite Hsid, Hid, Hst. split_and!; try done.
  by apply (participant_ok db s (tq_account_id q) (dv_device_id (tq_actor q)) (tq_actor_role q)).
Qed.

Lemma next_session_moves cur c s :
  next_session cur c = Some s →
  fixed_part s = fixed_part cur ∧ s.(se_status) = c.(tc_session).(se_status) ∧
  cur.(se_updated_at) ≤ s.(se_updated_at) ∧
  s.(se_relay_token_epoch) = cur.(se_relay_token_epoch) + (if is_terminal s.(se_status) then 1 else 0) ∧
  (is_terminal s.(se_status) = true → is_Some s.(se_ended_at)) ∧
  (is_terminal s.(se_status) = false → s.(se_ended_at) = cur.(se_ended_at)).
Proof.
  unfold next_session. destruct (is_terminal (se_status (tc_session c))) eqn:E; [destruct (_ <=? _); [done|]|];
    intros [= <-]; cbn; rewrite E; split_and!; try done; try lia.
Qed.

(** What a transition does when it is applied. *)
Lemma transition_applied db c o db' :
  transition_session db c = (o, db') →
  (db' = db ∧ ∀ s e, o ≠ Ok (Applied s e)) ∨
  ∃ cur s, db.(db_session_idempotency) !! c.(tc_storage_key) = None ∧
    db.(db_sessions) !! c.(tc_session).(se_session_id) = Some cur ∧ next_session cur c = Some s ∧
    c.(tc_apply_allowed) = true ∧ cur.(se_status) = c.(tc_expected_status) ∧
    c.(tc_event).(ev_from_status) = Some c.(tc_expected_status) ∧
    c.(tc_event).(ev_session_id) = c.(tc_session).(se_session_id) ∧
    c.(tc_event).(ev_to_status) = c.(tc_session).(se_status) ∧
    c.(tc_idempotency).(ir_session_id) = c.(tc_session).(se_session_id) ∧
    has_event db c.(tc_event).(ev_event_id) = false ∧
    has_audit db c.(tc_audit_entry).(au_audit_id) = false ∧
    o = Ok (Applied s c.(tc_event).(ev_event_id)) ∧
    db' = remember_request (write_session db s (set_result c.(tc_event) s) c.(tc_audit_entry))
            c.(tc_storage_key) c.(tc_idempotency).
Proof.
  unfold transition_session. destruct (db_session_idempotency db !! _) as [ex|].
  { destruct (negb _); intros [= <- <-]; left; (split; [done|]); intros s e; [done|].
    intros (x & _ & H)%bind_ok. by apply bind_ok in H as (y & _ & [=]). }
  destruct (tc_apply_allowed c) eqn:Ea; cbn [negb]; [|intros [= <- <-]; by left].
  destruct (db_sessions db !! _) as [cur|] eqn:Ec; [|intros [= <- <-]; by left].
  destruct (negb (bool_decide (se_status cur = _))) eqn:Es; [intros [= <- <-]; by left|].
  destruct (_ || _ || _ || _ || _ || _) eqn:E; [intros [= <- <-]; by left|].
  destruct (next_session cur c) as [s|] eqn:En; [|intros [= <- <-]; by left].
  intros [= <- <-]. right. exists cur, s. split_bools. by split_and!.
Qed.

Lemma commit_inv a c o db :
  c ∈ a.(api_pending) → transition_session a.(api_db) c = (o, db) → api_inv a →
  api_inv {| api_db := db; api_pending := a.(api_pending) |}.
Proof.
  intros Hin Hc [Hd Ht Hp]. destruct (transition_applied _ _ _ _ Hc) as [[-> _]|H]; [done|].
  destruct H as (cur & s & _ & Hcur & Hn & Ha & Hst & Hfr & Hsid & Hto & _ & _ & _ & _ & ->).
  apply next_session_moves in Hn as (Hf & Hs & Hu & He & He1 & He2).
  rewrite Forall_forall in Hp. destruct (Hp c Hin) as (s0 & role & Hs0 & Hf0 & Hr & Hac & Hv).
  rewrite Hcur in Hs0. injection Hs0 as <-. specialize (Hv Ha).
  pose proof (Ht c.(tc_session).(se_session_id)) as Hj. rewrite Hcur in Hj. destruct Hj as [Hid Hj].
  pose proof (fixed_part_fields _ _ Hf) as (Hsid' & _).
  split; cbn.
  - done.
  - eapply (tables_write a.(api_db) _ s (set_result (tc_event c) s)); [reflexivity|reflexivity|cbn; congruence| |done].
    rewrite Hsid', Hid. eapply journal_moved; [exact Hj|cbn; congruence|cbn; congruence|done|].
    split_and!; try done.
    + rewrite Hst. by eapply transition_from_open.
    + left. exists role. split; [done|]. split; [done|]. by rewrite Hs, Hst.
  - rewrite Forall_forall. intros x Hx. eapply prepared_mono; [|by apply Hp]. cbn.
    rewrite Hsid', Hid. by apply (keeps_fixed _ _ cur).
Qed.

Lemma force_inv a sid s source reason now db :
  a.(api_db).(db_sessions) !! sid = Some s → is_terminal s.(se_status) = false →
  close_forced a.(api_db) sid source reason now = Ok db → api_inv a →
  api_inv {| api_db := db; api_pending := a.(api_pending) |}.
Proof.
  intros Hs Ht Hc [Hd Htb Hp]. unfold close_forced in Hc. rewrite Hs in Hc. cbn [ok_or mbind result_bind] in Hc.
  destruct (_ <? _); cbn [ok_or mbind result_bind] in Hc; [|done].
  pose proof (Htb sid) as Hj. rewrite Hs in Hj. destruct Hj as [Hid Hj]. unfold forced_session_close_records in Hc.
  injection Hc as <-. split; cbn.
  - done.
  - eapply tables_write; [reflexivity|reflexivity|done| |done]. cbn. rewrite Hid.
    eapply journal_moved; [exact Hj|done|done|done|]. split_and!; try done; cbn; [lia|]. by right.
  - eapply Forall_impl; [exact Hp|]. intros x. apply prepared_mono. cbn. rewrite Hid. by apply (keeps_fixed _ _ s).
Qed.

Lemma api_step_inv a a' : api_step a a' → api_inv a → api_inv a'.
Proof.
  intros Hst Hi. destruct Hst.
  - by eapply create_inv.
  - destruct Hi as [Hd Ht Hp]. split; [done|done|]. constructor; [|done]. by eapply prepare_transition_ok.
  - by eapply commit_inv.
  - by eapply force_inv.
  - destruct Hi as [Hd Ht Hp]. split; cbn; [done| |].
    + intros sid. unfold events_of. rewrite H0, H1. apply Ht.
    + eapply Forall_impl; [exact Hp|]. intros x. apply prepared_mono. rewrite H0. eauto.
Qed.

Lemma api_new_inv devices :
  map_Forall (λ id d, d.(dv_device_id) = id) devices → api_inv (api_new devices).
Proof. intros Hd. split; [done| |constructor]. intros sid. by cbn. Qed.

Lemma api_steps_inv a a' : rtc api_step a a' → api_inv a → api_inv a'.
Proof. induction 1; [done|]. intros Hi. eauto using api_step_inv. Qed.

Lemma api_reachable_inv a : api_reachable a → api_inv a.
Proof. intros (devices & Hd & Hr). eapply api_steps_inv; [exact Hr|]. by apply api_new_inv. Qed.

(** ** What a journal says *)

Lemma journal_epoch es s :
  journal es s → s.(se_relay_token_epoch) = (if is_terminal s.(se_status) then 2 else 1) ∧
  (is_Some s.(se_ended_at) ↔ is_terminal s.(se_status) = true).
Proof.
  induction 1 as [e s (He & Hn & Hs & _)|es s e s' _ [IHe IHn] _ _ _ (_ & _ & He & H1 & H2 & Ho & _)].
  - rewrite He, Hn, Hs. destruct (se_auth_method s); cbn; split; try done; by split; [intros []|].
  - rewrite He, IHe, Ho. destruct (is_terminal (se_status s')); (split; [done|]).
    + split; [done|auto].
    + rewrite (H2 eq_refl), IHn, Ho. done.
Qed.

Lemma journal_fixed es s e : journal es s → e ∈ es → ∃ s0, e.(ev_result_session) = Some s0 ∧ fixed_part s0 = fixed_part s.
Proof.
  induction 1 as [e' s _ _ _ Hr|es s e' s' _ IH _ _ Hr (Hf & _)].
  - intros ->%list_elem_of_singleton. eauto.
  - intros [Hin| ->%list_elem_of_singleton]%elem_of_app; [|eauto].
    destruct (IH Hin) as (s0 & Hs0 & Hf0). exists s0. split; [done|congruence].
Qed.

(** The controlled device accepted the session. *)
Definition accepted_by_controlled (es : list SessionEvent) (s : Session) : Prop :=
  ∃ e, e ∈ es ∧ e.(ev_to_status) = Accepted ∧ e.(ev_actor_role) = Some (str "controlled") ∧
       e.(ev_actor_device_id) = Some s.(se_controlled_device_id).

(** The statuses a session passes, by how it authenticates. *)
Lemma journal_consent es s :
  journal es s →
  s.(se_status) ≠ CodeVerified ∧ s.(se_status) ≠ UnattendedVerified ∧
  (can_signal s.(se_status) = true → accepted_by_controlled es s ∧ s.(se_auth_method) = AccountPrompt) ∧
  (s.(se_status) = WaitingApproval → s.(se_auth_method) = AccountPrompt).
Proof.
  induction 1 as [e s (_ & _ & Hs & _)|es s e s' Hj (H1 & H2 & H3 & H4) _ Hto _ (Hf & _ & _ & _ & _ & _ & Hm)].
  { rewrite Hs. by destruct (se_auth_method s). }
  apply fixed_part_fields in Hf as (_ & _ & _ & Hcd & _ & Ham & _).
  assert (can_signal (se_status s) = true → accepted_by_controlled (es ++ [e]) s' ∧ se_auth_method s' = AccountPrompt) as Hk.
  { intros Hc. destruct (H3 Hc) as [(x & Hx & Hrest) Ha]. split; [|congruence].
    exists x. rewrite Hcd. split; [|done]. apply elem_of_app. by left. }
  destruct Hm as [(role & Hr & [_ Hac] & Hv)|[_ Hcl]]; [|by rewrite Hcl].
  unfold validate_transition in Hv. destruct (se_status s') eqn:Es'; try done.
  - apply andb_true_iff in Hv as [->%bool_decide_eq_true Hv]. split_and!; try done. intros _. split.
    + exists e. rewrite Hcd. split_and!; [apply elem_of_app; right; by left|done|done|by apply Hac].
    + rewrite Ham. destruct (se_status s); try done. by apply H4.
  - split_and!; try done. intros _. apply Hk. by destruct (se_status s).
  - split_and!; try done. intros _. apply Hk. by apply bool_decide_eq_true in Hv as ->.
  - split_and!; try done. intros _. apply Hk. by destruct (se_status s).
Qed.

(** What a session with a code waits for. *)
Definition pending_status (m : AuthMethod) : SessionStatus :=
  match m with
  | AccountPrompt => WaitingApproval
  | TemporaryCode => PendingCodeVerification
  | Unattended => PendingUnattendedVerification
  end.

(** A session with a code waits, or its one move was to its end. *)
Lemma journal_pending es s :
  journal es s → s.(se_auth_method) ≠ AccountPrompt →
  let pending := pending_status s.(se_auth_method) in
  ∃ e es', es = e :: es' ∧ e.(ev_to_status) = pending ∧
    ((s.(se_status) = pending ∧ es' = []) ∨
     (is_terminal s.(se_status) = true ∧
      ∃ e', es' = [e'] ∧ e'.(ev_from_status) = Some pending ∧ e'.(ev_to_status) = s.(se_status))).
Proof.
  induction 1 as [e s (_ & _ & Hs & _) _ Hto|es s e s' Hj IH Hfrom Hto _ (Hf & _ & _ & _ & _ & Hopen & Hm)]; intros Hne pending.
  { exists e, []. subst pending. rewrite Hto, Hs. destruct (se_auth_method s); eauto. }
  apply fixed_part_fields in Hf as (_ & _ & _ & _ & _ & Ham & _). subst pending. rewrite Ham in *.
  destruct (IH Hne) as (e0 & es' & -> & He0 & [[Hst ->]|[Hend _]]); [|congruence].
  exists e0, [e]. split; [done|]. split; [done|]. right. split; [|exists e; by rewrite Hfrom, Hst].
  destruct Hm as [(role & _ & _ & Hv)|[_ ->]]; [|done]. rewrite Hst in Hv. unfold validate_transition in Hv.
  destruct (se_auth_method s), (se_status s'); try done; by rewrite andb_false_r in Hv.
Qed.

(** The two devices of a session differ. *)
Lemma journal_pair es s : journal es s → s.(se_controller_device_id) ≠ s.(se_controlled_device_id).
Proof.
  induction 1 as [e s (_ & _ & _ & H & _)|es s e s' Hj H _ _ _ (Hf & _)]; [done|].
  by apply fixed_part_fields in Hf as (_ & _ & -> & -> & _).
Qed.

(** ** What later steps keep *)

Lemma step_keeps a a' :
  api_step a a' → api_inv a →
  (∀ sid s, a.(api_db).(db_sessions) !! sid = Some s →
     ∃ s', a'.(api_db).(db_sessions) !! sid = Some s' ∧ fixed_part s' = fixed_part s ∧
           (is_terminal s.(se_status) = true → s' = s)) ∧
  a.(api_db).(db_session_events) `prefix_of` a'.(api_db).(db_session_events) ∧
  a.(api_db).(db_audit_logs) `prefix_of` a'.(api_db).(db_audit_logs) ∧
  (∀ k r, a.(api_db).(db_session_idempotency) !! k = Some r → a'.(api_db).(db_session_idempotency) !! k = Some r).
Proof.
  intros Hst [Hd Ht Hp]. destruct Hst as [? ? ? ? ? ? ? ? ? ? ? ? c o db _ _ Hc|q d c _|c o db Hin Hc
    |sid s source reason now db Hs Hte Hc|db _ Hs He Hi Ha].
  - unfold create_session in Hc. destruct (db_session_idempotency (api_db a) !! _) eqn:Ei.
    { destruct (negb _); injection Hc as _ <-; split_and!; eauto. }
    destruct (_ || _ || _ || _) eqn:E; injection Hc as _ <-; cbn; [split_and!; eauto|].
    split_bools. split_and!; [|by eexists|by eexists|].
    + intros x s Hs. exists s. split; [|done]. rewrite lookup_insert_ne; [done|]. intros <-. naive_solver.
    + intros k r Hk. rewrite lookup_insert_ne; [done|congruence].
  - cbn. split_and!; eauto.
  - destruct (transition_applied _ _ _ _ Hc) as [[-> _]|H]; cbn; [split_and!; eauto|].
    destruct H as (cur & s & Hno & Hcur & Hn & Hal & Hst & _ & _ & _ & _ & _ & _ & _ & ->). cbn.
    apply next_session_moves in Hn as (Hf & _). pose proof (fixed_part_fields _ _ Hf) as (Hsid & _).
    rewrite Forall_forall in Hp. destruct (Hp c Hin) as (s0 & role & Hs0 & _ & _ & _ & Hv).
    specialize (Hv Hal). apply transition_from_open in Hv.
    pose proof (Ht c.(tc_session).(se_session_id)) as Hid. rewrite Hcur in Hid. destruct Hid as [Hid _].
    split_and!; [|by eexists|by eexists|].
    + intros x y Hy. rewrite Hsid, Hid. destruct (decide (x = se_session_id (tc_session c))) as [->|].
      * rewrite Hcur in Hy. injection Hy as <-. rewrite lookup_insert_eq. exists s.
        split_and!; [done|done|]. by rewrite Hst, Hv.
      * exists y. by rewrite lookup_insert_ne.
    + intros k r Hk. rewrite lookup_insert_ne; [done|congruence].
  - unfold close_forced in Hc. rewrite Hs in Hc. cbn [ok_or mbind result_bind] in Hc.
    destruct (_ <? _); cbn [ok_or mbind result_bind] in Hc; [|done].
    pose proof (Ht sid) as Hid. rewrite Hs in Hid. destruct Hid as [Hid _]. injection Hc as <-. cbn.
    split_and!; [|by eexists|by eexists|done]. intros x y Hy. rewrite Hid.
    destruct (decide (x = sid)) as [->|]; [|exists y; by rewrite lookup_insert_ne].
    rewrite lookup_insert_eq. simplify_eq. eexists. split; [done|]. split; [done|]. by rewrite Hte.
  - cbn. rewrite Hs, He, Hi. split_and!; eauto.
Qed.

Lemma steps_keep a a' :
  rtc api_step a a' → api_inv a →
  (∀ sid s, a.(api_db).(db_sessions) !! sid = Some s →
     ∃ s', a'.(api_db).(db_sessions) !! sid = Some s' ∧ fixed_part s' = fixed_part s ∧
           (is_terminal s.(se_status) = true → s' = s)) ∧
  a.(api_db).(db_session_events) `prefix_of` a'.(api_db).(db_session_events) ∧
  a.(api_db).(db_audit_logs) `prefix_of` a'.(api_db).(db_audit_logs) ∧
  (∀ k r, a.(api_db).(db_session_idempotency) !! k = Some r → a'.(api_db).(db_session_idempotency) !! k = Some r).
Proof.
  induction 1 as [a|a b c Hab _ IH]; intros Hi; [split_and!; eauto|].
  destruct (step_keeps a b Hab Hi) as (K1 & K2 & K3 & K4).
  destruct (IH (api_step_inv _ _ Hab Hi)) as (L1 & L2 & L3 & L4). split_and!; [|by etrans|by etrans|auto].
  intros sid s Hs. destruct (K1 sid s Hs) as (s1 & Hs1 & Hf1 & Ht1). destruct (L1 sid s1 Hs1) as (s2 & Hs2 & Hf2 & Ht2).
  exists s2. split; [done|]. split; [congruence|]. intros Ht. specialize (Ht1 Ht) as ->. auto.
Qed.
End run_lemmas.

(** ** Retries *)

Lemma find_rev_last {A} (f : A → bool) l e k :
  f e = true → Forall (λ x, f x = false) k → List.find f (rev (l ++ e :: k)) = Some e.
Proof.
  intros He Hk. rewrite rev_app_distr. cbn [rev]. rewrite <-app_assoc.
  assert (∀ m r, Forall (λ x, f x = false) m → List.find f (m ++ r) = List.find f r) as Hskip.
  { intros m r. induction 1 as [|x m Hx _ IH]; cbn; [done|]. by rewrite Hx. }
  rewrite Hskip; [cbn; by rewrite He|]. apply Forall_rev. done.
Qed.

Lemma join_nul_inj (a b c d : bytes) : x00 ∉ a → x00 ∉ c → a ++ [x00] ++ b = c ++ [x00] ++ d → a = c ∧ b = d.
Proof.
  intros Ha Hc. revert c Hc. induction a as [|x a IH]; intros [|y c] Hc H; cbn in H.
  - by injection H.
  - injection H as H _. subst y. exfalso. apply Hc. by left.
  - injection H as H _. subst x. exfalso. apply Ha. by left.
  - injection H as -> H. destruct (IH (λ h, Ha (list_elem_of_further _ _ _ h)) c) as [-> ->]; [|done|done].
    intros h. apply Hc. by right.
Qed.

Lemma reachable_session `{P : Primitives} a sid s :
  api_reachable a → a.(api_db).(db_sessions) !! sid = Some s →
  s.(se_session_id) = sid ∧ journal (events_of a.(api_db) sid) s.
Proof.
  intros Hr Hs. pose proof (ai_tables a (api_reachable_inv a Hr) sid) as H. by rewrite Hs in H.
Qed.

(** ** Theorems *)

(** C27: The event log is the history of every session: in every reachable
    state, however requests overlapped, the events of a session lead from its
    creation by the controller to its present state, each a move the table
    allows to the participant who made it (or a forced end), each recording the
    session it produced; the relay epoch is 1 while the session is open and 2
    once it has ended, and only then an end time is set. *)
Theorem session_journal `{P : Primitives} a sid s :
  api_reachable a → a.(api_db).(db_sessions) !! sid = Some s →
  journal (events_of a.(api_db) sid) s ∧
  s.(se_relay_token_epoch) = (if is_terminal s.(se_status) then 2 else 1) ∧
  (is_Some s.(se_ended_at) ↔ is_terminal s.(se_status) = true).
Proof.
  intros Hr Hs. destruct (reachable_session a sid s Hr Hs) as [_ Hj]. split; [done|]. by eapply journal_epoch.
Qed.

(** A session that has ended stays as it is: no request, prepared before or
    after its end, and no forced end changes it, and its events are never
    forgotten. *)
Theorem ended_session_is_final `{P : Primitives} a a' sid s :
  api_reachable a → rtc api_step a a' → a.(api_db).(db_sessions) !! sid = Some s →
  is_terminal s.(se_status) = true →
  a'.(api_db).(db_sessions) !! sid = Some s ∧
  a.(api_db).(db_session_events) `prefix_of` a'.(api_db).(db_session_events) ∧
  a.(api_db).(db_audit_logs) `prefix_of` a'.(api_db).(db_audit_logs).
Proof.
  intros Hr Hst Hs Ht. destruct (steps_keep a a' Hst (api_reachable_inv a Hr)) as (K1 & K2 & K3 & _).
  destruct (K1 sid s Hs) as (s' & Hs' & _ & He). rewrite (He Ht) in Hs'. done.
Qed.

(** No session becomes connectable without the consent of the controlled device:
    a session in a state in which signalling and relays are authorized has in its
    log an acceptance by the device it controls. *)
Theorem signalling_needs_acceptance `{P : Primitives} a sid s :
  api_reachable a → a.(api_db).(db_sessions) !! sid = Some s → can_signal s.(se_status) = true →
  accepted_by_controlled (events_of a.(api_db) sid) s.
Proof.
  intros Hr Hs Hc. destruct (reachable_session a sid s Hr Hs) as [_ Hj]. apply journal_consent in Hj as (_ & _ & Hj & _). by apply Hj.
Qed.

(** C39: A session created with a temporary code or for unattended access never
    becomes connectable: along every run, with requests overlapping, it is in
    the pending state it was created in and its log is its creation alone, or it
    has ended and its log is its creation and the one move from that state to
    its end. No operation of the service takes it anywhere else. *)
Theorem code_sessions_never_connect `{P : Primitives} a sid s :
  api_reachable a → a.(api_db).(db_sessions) !! sid = Some s → s.(se_auth_method) ≠ AccountPrompt →
  let pending := pending_status s.(se_auth_method) in
  can_signal s.(se_status) = false ∧
  ∃ e later, events_of a.(api_db) sid = e :: later ∧ e.(ev_to_status) = pending ∧
    ((s.(se_status) = pending ∧ later = []) ∨
     (is_terminal s.(se_status) = true ∧
      ∃ e', later = [e'] ∧ e'.(ev_from_status) = Some pending ∧ e'.(ev_to_status) = s.(se_status))).
Proof.
  intros Hr Hs Hc pending. destruct (reachable_session a sid s Hr Hs) as [_ Hj]. split; [|by apply journal_pending].
  apply journal_consent in Hj as (_ & _ & Hj & _). destruct (can_signal (se_status s)); [|done]. by destruct Hj.
Qed.

(** A retry is answered from the log: once a transition has been applied,
    the same request (same storage key and binding, same event type, device and
    idempotency key) is answered at any later time with the session and the
    event of the first answer, and changes nothing, unless a later event of that
    device carries the same type and idempotency key. *)
Theorem transition_idempotent `{P : Primitives} a c s eid db a' c' :
  api_inv a → c ∈ a.(api_pending) →
  transition_session a.(api_db) c = (Ok (Applied s eid), db) →
  rtc api_step {| api_db := db; api_pending := a.(api_pending) |} a' →
  c'.(tc_storage_key) = c.(tc_storage_key) →
  c'.(tc_idempotency).(ir_request_binding_hash) = c.(tc_idempotency).(ir_request_binding_hash) →
  c'.(tc_event).(ev_event_type) = c.(tc_event).(ev_event_type) →
  c'.(tc_event).(ev_actor_device_id) = c.(tc_event).(ev_actor_device_id) →
  c'.(tc_event).(ev_idempotency_key_hash) = c.(tc_event).(ev_idempotency_key_hash) →
  Forall (λ e, replays_event c.(tc_session).(se_session_id) c.(tc_event) e = false)
    (drop (length db.(db_session_events)) a'.(api_db).(db_session_events)) →
  transition_session a'.(api_db) c' = (Ok (Replayed s eid), a'.(api_db)).
Proof.
  intros Hi Hin Hc Hst Hk Hb Ht Hd Hh Hlater.
  pose proof (commit_inv a c _ _ Hin Hc Hi) as Hi1.
  destruct (steps_keep _ _ Hst Hi1) as (_ & [later Hev] & _ & Hid). cbn in Hev, Hid.
  destruct (transition_applied _ _ _ _ Hc) as [[_ Hno]|H]; [by destruct (Hno s eid)|].
  destruct H as (cur & s1 & _ & _ & _ & _ & _ & _ & Hsid & _ & Hir & _ & _ & [= -> ->] & ->).
  cbn in Hev, Hlater. rewrite Hev, drop_app_length in Hlater.
  unfold transition_session. rewrite Hk, (Hid _ _ (lookup_insert_eq _ _ _)), Hb, bool_decide_eq_true_2 by done.
  cbn [negb]. rewrite Hev, Hir.
  assert (∀ e, replays_event (se_session_id (tc_session c)) (tc_event c') e =
               replays_event (se_session_id (tc_session c)) (tc_event c) e) as Hsame.
  { intros e. unfold replays_event. by rewrite Ht, Hd, Hh. }
  rewrite <-app_assoc. cbn [app].
  rewrite find_rev_last; [done| |eapply Forall_impl; [exact Hlater|]; intros e; by rewrite Hsame].
  rewrite Hsame. unfold replays_event. cbn. by rewrite Hsid, !bool_decide_eq_true_2.
Qed.

(** The storage key of a retry is bound to account, device, method, path and
    idempotency key: equal keys of requests whose parts have no NUL in them (the
    idempotency key may) are keys of the same request, or a SHA-256 collision. *)
Theorem storage_key_scope `{P : Primitives} a d m p k a' d' m' p' k' :
  x00 ∉ a → x00 ∉ d → x00 ∉ ascii_upper <$> m → x00 ∉ p →
  x00 ∉ a' → x00 ∉ d' → x00 ∉ ascii_upper <$> m' → x00 ∉ p' →
  idempotency_storage_key a d m p k = idempotency_storage_key a' d' m' p' k' →
  (a = a' ∧ d = d' ∧ ascii_upper <$> m = ascii_upper <$> m' ∧ p = p' ∧ k = k') ∨
  sha256_collision (storage_key_text a d m p k) (storage_key_text a' d' m' p' k').
Proof.
  intros Ha Hd Hm Hp Ha' Hd' Hm' Hp' H. unfold idempotency_storage_key, sha256_hex in H.
  apply hex_inj, sha256_equal in H as [H|H]; [left|by right]. unfold storage_key_text in H.
  apply join_nul_inj in H as [-> H]; [|done..]. apply join_nul_inj in H as [-> H]; [|done..].
  apply join_nul_inj in H as [-> H]; [|done..]. by apply join_nul_inj in H as [-> ->].
Qed.

(** ** Witnesses *)

(** The value of a result known to be [Ok]. *)
Definition get_ok {E T} (r : result E T) : is_ok r = true → T :=
  match r with Ok x => λ _, x | Err _ => λ H, False_rect _ (Bool.diff_false_true H) end.

Lemma get_ok_eq {E T} (r : result E T) H : r = Ok (get_ok r H).
Proof. destruct r; [done|]. discriminate H. Qed.

Definition example_sid : rstr := str "00000000-0000-0000-0000-000000000007".

Definition example_device (id : rstr) : Device := {|
  dv_device_id := id; dv_account_id := str "acc"; dv_display_name := id; dv_platform := PUbuntu;
  dv_os_version := str "26.04"; dv_arch := X86_64;
  dv_capabilities := {| cap_controller := true; cap_controlled := true; cap_file_transfer := true;
                        cap_unattended := false |};
  dv_public_key_id := id; dv_public_key := repeat x07 32; dv_public_key_version := 1;
  dv_public_key_revoked_at := None; dv_status := LOnline; dv_last_seen := None;
  dv_created_at := 1; dv_updated_at := 1 |}.

Definition example_devices : gmap rstr Device :=
  <[str "ctl" := example_device (str "ctl")]> {[str "host" := example_device (str "host")]}.

Lemma example_devices_ok : map_Forall (λ id d, d.(dv_device_id) = id) example_devices.
Proof. by apply map_Forall_insert_2, map_Forall_singleton. Qed.

Definition example_create (m : AuthMethod) :=
  prepare_create (P := toy) (api_new example_devices).(api_db) (str "acc") (example_device (str "ctl"))
    {| cq_controller_device_id := str "ctl"; cq_controlled_device_id := str "host"; cq_auth_method := m;
       cq_requested_permissions := {|
         remote_desktop := true; input_control := true; clipboard := false; file_transfer := false;
         unattended := false; privacy_screen := false; block_local_input := false;
         require_prompt := true; allow_relay := true |};
       cq_idempotency_key := str "k1" |}
    (str "b1") (str "h1") (str "post") (str "/v1/sessions") (str "r1") example_sid (str "p1")
    {| dr_event_id := str "e1"; dr_audit_id := str "a1"; dr_now := 1000 |}.

Definition created (m : AuthMethod) (H : is_ok (example_create m) = true) : Api := {|
  api_db := (create_session (api_new example_devices).(api_db) (get_ok _ H)).2; api_pending := [] |}.

Lemma created_reachable m H : api_reachable (P := toy) (created m H).
Proof.
  exists example_devices. split; [apply example_devices_ok|]. apply rtc_once.
  eapply (api_create (P := toy) (api_new example_devices) (api_new example_devices).(api_db)).
  - apply example_devices_ok.
  - apply (get_ok_eq (example_create m) H).
  - apply surjective_pairing.
Qed.

(** An action of one of the two devices on the session. *)
Definition example_action (a : Api) (act : SessionAction) (device role key event : rstr) :=
  q ← action_request act (str "acc") (example_device device) (str "device") device role example_sid key
        (Some (str "why")) key key (str "post") (str "/v1/sessions/7") (str "r2");
  prepare_transition (P := toy) a.(api_db) q {| dr_event_id := event; dr_audit_id := event; dr_now := 2000 |}.

Definition acted (a : Api) act device role key event (H : is_ok (example_action a act device role key event) = true) : Api := {|
  api_db := (transition_session a.(api_db) (get_ok _ H)).2;
  api_pending := get_ok _ H :: a.(api_pending) |}.

Lemma example_action_prepared a act device role key event H :
  ∃ q d, prepare_transition (P := toy) a.(api_db) q d = Ok (get_ok (example_action a act device role key event) H).
Proof.
  pose proof (get_ok_eq (example_action a act device role key event) H) as Hc.
  unfold example_action at 1 in Hc. apply bind_ok in Hc as (q & _ & Hc). eauto.
Qed.

Lemma acted_steps a act device role key event H :
  rtc (api_step (P := toy)) a (acted a act device role key event H).
Proof.
  destruct (example_action_prepared a act device role key event H) as (q & d & Hp).
  eapply rtc_l; [by apply (api_prepare (P := toy) a q d)|]. apply rtc_once.
  eapply (api_commit (P := toy) {| api_db := a.(api_db); api_pending := _ |}); [by left|apply surjective_pairing].
Qed.

Lemma reachable_steps `{P : Primitives} a a' : api_reachable a → rtc api_step a a' → api_reachable a'.
Proof. intros (dv & Hd & Hr) Hs. exists dv. split; [done|]. by etrans. Qed.

Definition invited : Api := created AccountPrompt ltac:(vm_compute; reflexivity).
Definition accepted_api : Api :=
  acted invited Accept (str "host") (str "controlled") (str "k2") (str "e2") ltac:(vm_compute; reflexivity).
Definition closed_api : Api :=
  acted accepted_api Close (str "ctl") (str "controller") (str "k3") (str "e3") ltac:(vm_compute; reflexivity).

Example example_statuses :
  se_status <$> invited.(api_db).(db_sessions) !! example_sid = Some WaitingApproval ∧
  se_status <$> accepted_api.(api_db).(db_sessions) !! example_sid = Some Accepted ∧
  se_status <$> closed_api.(api_db).(db_sessions) !! example_sid = Some Closed.
Proof. vm_compute. split_and!; reflexivity. Qed.

Lemma invited_reachable : api_reachable (P := toy) invited.
Proof. apply created_reachable. Qed.

Lemma accepted_reachable : api_reachable (P := toy) accepted_api.
Proof. eapply reachable_steps; [apply invited_reachable|apply acted_steps]. Qed.

Lemma closed_reachable : api_reachable (P := toy) closed_api.
Proof. eapply reachable_steps; [apply accepted_reachable|apply acted_steps]. Qed.

(** A session of an example state with a given status. *)
Lemma session_at (a : Api) st :
  se_status <$> a.(api_db).(db_sessions) !! example_sid = Some st →
  ∃ s, a.(api_db).(db_sessions) !! example_sid = Some s ∧ s.(se_status) = st.
Proof. intros (s & -> & ->)%fmap_Some_1. eauto. Qed.

Lemma session_journal_witness :
  ∃ s, closed_api.(api_db).(db_sessions) !! example_sid = Some s ∧ journal (events_of closed_api.(api_db) example_sid) s ∧
       s.(se_relay_token_epoch) = 2.
Proof.
  destruct (session_at closed_api Closed) as (s & Hs & Hst); [apply example_statuses|]. exists s.
  destruct (session_journal (P := toy) closed_api example_sid s closed_reachable Hs) as (Hj & He & _).
  split; [exact Hs|]. split; [exact Hj|]. rewrite Hst in He. exact He.
Defined.


Lemma ended_session_is_final_witness :
  ∃ s, closed_api.(api_db).(db_sessions) !! example_sid = Some s ∧ is_terminal s.(se_status) = true ∧
       ∀ a', rtc (api_step (P := toy)) closed_api a' → a'.(api_db).(db_sessions) !! example_sid = Some s.
Proof.
  destruct (session_at closed_api Closed) as (s & Hs & Hst); [apply example_statuses|]. exists s.
  assert (is_terminal s.(se_status) = true) as Ht by (rewrite Hst; reflexivity).
  split; [exact Hs|]. split; [exact Ht|]. intros a' Ha'.
  apply (ended_session_is_final (P := toy) closed_api a' example_sid s closed_reachable Ha' Hs Ht).
Defined.

Lemma signalling_needs_acceptance_witness :
  ∃ s, accepted_api.(api_db).(db_sessions) !! example_sid = Some s ∧
       accepted_by_controlled (events_of accepted_api.(api_db) example_sid) s.
Proof.
  destruct (session_at accepted_api Accepted) as (s & Hs & Hst); [apply example_statuses|]. exists s.
  split; [exact Hs|].
  apply (signalling_needs_acceptance (P := toy) accepted_api example_sid s accepted_reachable Hs).
  rewrite Hst. reflexivity.
Defined.

Definition coded : Api := created TemporaryCode ltac:(vm_compute; reflexivity).

Lemma coded_method :
  se_auth_method <$> coded.(api_db).(db_sessions) !! example_sid = Some TemporaryCode.
Proof. vm_compute. reflexivity. Qed.

Lemma coded_status :
  se_status <$> coded.(api_db).(db_sessions) !! example_sid = Some PendingCodeVerification.
Proof. vm_compute. reflexivity. Qed.

Lemma code_sessions_never_connect_witness :
  ∃ s e, coded.(api_db).(db_sessions) !! example_sid = Some s ∧ can_signal s.(se_status) = false ∧
    s.(se_status) = PendingCodeVerification ∧ events_of coded.(api_db) example_sid = [e].
Proof.
  destruct (fmap_Some_1 _ _ _ coded_method) as (s & Hs & Hm).
  destruct (code_sessions_never_connect (P := toy) coded example_sid s) as (Hc & e & later & He & _ & Hcase);
    [apply created_reachable|exact Hs|rewrite <-Hm; discriminate|].
  exists s, e. split; [exact Hs|]. split; [exact Hc|]. rewrite <-Hm in Hcase. cbn in Hcase.
  assert (Hst : se_status s = PendingCodeVerification).
  { destruct Hcase as [[Hst _]|[Ht _]]; [exact Hst|]. pose proof coded_status as H. rewrite Hs in H.
    injection H as H. rewrite H in Ht. discriminate. }
  split; [exact Hst|]. destruct Hcase as [[_ Hl]|[Ht _]]; [by rewrite <-Hl|].
  rewrite Hst in Ht. discriminate.
Defined.

(** The acceptance, prepared on the invited session. *)
Definition acceptance :=
  get_ok (example_action invited Accept (str "host") (str "controlled") (str "k2") (str "e2"))
    ltac:(vm_compute; reflexivity).

Lemma acceptance_outcome :
  match (transition_session invited.(api_db) acceptance).1 with
  | Ok (Applied _ eid) => eid = str "e2"
  | _ => False
  end.
Proof. vm_compute. reflexivity. Qed.

Lemma acceptance_pending : api_inv {| api_db := invited.(api_db); api_pending := [acceptance] |}.
Proof.
  apply (api_reachable_inv (P := toy)). eapply reachable_steps; [apply invited_reachable|]. apply rtc_once.
  destruct (example_action_prepared invited Accept (str "host") (str "controlled") (str "k2") (str "e2")
              ltac:(vm_compute; reflexivity)) as (q & d & Hp).
  eapply (api_prepare (P := toy) invited q d). exact Hp.
Qed.

Lemma transition_idempotent_witness :
  ∃ s db, transition_session invited.(api_db) acceptance = (Ok (Applied s (str "e2")), db) ∧
          transition_session db acceptance = (Ok (Replayed s (str "e2")), db).
Proof.
  pose proof acceptance_outcome as Ho.
  destruct (transition_session invited.(api_db) acceptance) as [o db] eqn:Ht. cbn [fst] in Ho.
  destruct o as [[s eid|s eid| | | | ]|]; try contradiction Ho. subst eid. exists s, db. split; [reflexivity|].
  apply (transition_idempotent (P := toy) {| api_db := invited.(api_db); api_pending := [acceptance] |}
           acceptance s (str "e2") db {| api_db := db; api_pending := [acceptance] |} acceptance).
  - exact acceptance_pending.
  - left.
  - exact Ht.
  - apply rtc_refl.
  - reflexivity.
  - reflexivity.
  - reflexivity.
  - reflexivity.
  - reflexivity.
  - cbn [api_db]. rewrite drop_all. apply Forall_nil_2.
Defined.
