(* ===== verification/ApiServices.v ===== *)
(** * What the API answers to the relay and to the signalling service

    Models services/api-server/src/routes/internal.rs: the two routes with which
    the other services ask whether a device may use a session, and composes them
    with the callers, [RelayAuth] and [Signal], over the runs of [ApiSession].

    The service token has been checked; Base64 and the JSON of an answer are
    parameters ([ApiCodec]) whose decoders are those of the callers. *)

From S2P Require Import Prelude Text Canonical Security Primitives KeySession Binding RelayAuth Candidates SignalAuth Signal ApiSession.

(** The encoders opposite to the relay's decoders. *)
Class ApiCodec := {
  api_decoders :: RelayDecoders;
  b64url_encode : bytes → rstr;
  authorization_to_json : RelayAuthorization → bytes
}.

Class ApiCodecLaws (C : ApiCodec) : Prop := {
  b64url_round b : b64url_decode (b64url_encode b) = Some b;
  authorization_round z : authorization_from_json (authorization_to_json z) = Some z
}.

(** [SessionAuthorizeRequest]. *)
Record SessionAuthorizeRequest := {
  sq_account_id : rstr;
  sq_device_id : rstr;
  sq_session_id : rstr;
  sq_role : rstr }.

(** The answer to the signalling service. *)
Record SessionAuthReply := {
  sy_authorized : bool;
  sy_session_id : rstr;
  sy_status : SessionStatus;
  sy_controller_device_id : rstr;
  sy_controlled_device_id : rstr;
  sy_permissions_digest : rstr;
  sy_relay_token_epoch : Z;
  sy_public_key : rstr;
  sy_public_key_id : rstr;
  sy_public_key_version : Z }.

(** The status code of an error. *)
Definition http_status (e : ApiError) : Z :=
  match e with
  | AeSessionNotFound => 404
  | AeUnknownDevice | AeSessionParticipantMismatch | AeSessionNotConnectable | AeRelayNotAuthorized => 403
  | _ => 500
  end.

Definition load_session_device_authority (db : Database) (session_id device_id : rstr)
    : option Session * option Device :=
  (db.(db_sessions) !! session_id, db.(db_devices) !! device_id).

Definition authorized_participant (db : Database) (session_id account_id device_id role : rstr)
    : result ApiError (Session * Device) :=
  let '(session, device) := load_session_device_authority db session_id device_id in
  session ← ok_or session AeSessionNotFound;
  device ← ok_or device AeUnknownDevice;
  let matches := (device.(dv_account_id) =! account_id)
    && (if role =! str "controller" then
          (session.(se_controller_account_id) =! account_id)
          && (session.(se_controller_device_id) =! device_id)
        else if role =! str "controlled" then session.(se_controlled_device_id) =! device_id
        else false) in
  _ ← ensure (negb (negb matches || bool_decide (is_Some device.(dv_public_key_revoked_at))
               || negb (is_authorizable device.(dv_status)))) AeSessionParticipantMismatch;
  Ok (session, device).

Section routes.
Context `{C : ApiCodec}.

Definition signal_session_authorize (db : Database) (rq : SessionAuthorizeRequest) (now : Z)
    : result ApiError SessionAuthReply :=
  '(session, device) ← authorized_participant db rq.(sq_session_id) rq.(sq_account_id)
                         rq.(sq_device_id) rq.(sq_role);
  _ ← ensure (negb (negb (can_signal session.(se_status)) || (session.(se_expires_at) <=? now)))
        AeSessionNotConnectable;
  Ok {| sy_authorized := true; sy_session_id := session.(se_session_id);
        sy_status := session.(se_status);
        sy_controller_device_id := session.(se_controller_device_id);
        sy_controlled_device_id := session.(se_controlled_device_id);
        sy_permissions_digest := session.(se_permissions_digest);
        sy_relay_token_epoch := session.(se_relay_token_epoch);
        sy_public_key := b64url_encode device.(dv_public_key);
        sy_public_key_id := device.(dv_public_key_id);
        sy_public_key_version := device.(dv_public_key_version) |}.

Definition relay_authorize (db : Database) (rq : RelayAuthorizeRequest) (now : Z)
    : result ApiError RelayAuthorization :=
  let '(session, device) := load_session_device_authority db rq.(rq_session_id) rq.(rq_device_id) in
  session ← ok_or session AeSessionNotFound;
  device ← ok_or device AeUnknownDevice;
  let role_matches :=
    if rq.(rq_role) =! str "controller" then session.(se_controller_device_id) =! device.(dv_device_id)
    else if rq.(rq_role) =! str "controlled" then session.(se_controlled_device_id) =! device.(dv_device_id)
    else false in
  _ ← ensure (negb (negb role_matches || negb (can_signal session.(se_status))
               || (session.(se_expires_at) <=? now)
               || negb session.(se_permissions).(allow_relay)
               || (session.(se_permissions_digest) ≠! rq.(rq_permissions_digest))
               || negb (session.(se_relay_token_epoch) =? rq.(rq_relay_token_epoch))
               || bool_decide (is_Some device.(dv_public_key_revoked_at))
               || negb (is_authorizable device.(dv_status)))) AeRelayNotAuthorized;
  Ok {| za_authorized := true; za_session_id := session.(se_session_id); za_role := rq.(rq_role);
        za_controller_device_id := session.(se_controller_device_id);
        za_controlled_device_id := session.(se_controlled_device_id);
        za_permissions_digest := session.(se_permissions_digest);
        za_relay_token_epoch := session.(se_relay_token_epoch);
        za_expires_at := Z.min session.(se_expires_at) (sat_add 64 now 60000);
        za_device_public_key := b64url_encode device.(dv_public_key);
        za_device_public_key_id := device.(dv_public_key_id);
        za_device_public_key_version := device.(dv_public_key_version) |}.

(** The routes as the other services see them: a status code and a body. An
    error has a JSON body that neither service reads. *)
Definition relay_endpoint (error_body : ApiError → bytes) (db : Database) (now : Z)
    (rq : RelayAuthorizeRequest) : option (Z * bytes) :=
  Some (match relay_authorize db rq now with
        | Ok z => (200, authorization_to_json z)
        | Err e => (http_status e, error_body e)
        end).

(** The fields of the reply the signalling service keeps. *)
Definition session_response (y : SessionAuthReply) : SessionAuthResponse := {|
  sr_authorized := y.(sy_authorized); sr_session_id := y.(sy_session_id);
  sr_controller_device_id := y.(sy_controller_device_id);
  sr_controlled_device_id := y.(sy_controlled_device_id);
  sr_permissions_digest := y.(sy_permissions_digest);
  sr_relay_token_epoch := y.(sy_relay_token_epoch) |}.

Definition session_endpoint (db : Database) (now : Z) (account_id device_id session_id : rstr)
    (role : SessionRole) : option SessionAuthResponse :=
  session_response <$> ok (signal_session_authorize db {|
    sq_account_id := account_id; sq_device_id := device_id; sq_session_id := session_id;
    sq_role := role_as_str role |} now).
End routes.

(** ** What the routes require *)

(** The participant of a session in a role. *)
Definition participant (s : Session) (role : SessionRole) : rstr :=
  match role with Controller => s.(se_controller_device_id) | Controlled => s.(se_controlled_device_id) end.

(** A device that may act: registered, with a key that is not revoked, and in
    service. *)
Definition in_service (db : Database) (device_id : rstr) (d : Device) : Prop :=
  db.(db_devices) !! device_id = Some d ∧ d.(dv_public_key_revoked_at) = None ∧
  is_authorizable d.(dv_status) = true.

(** A session in which [device_id] may use [role] now. *)
Definition connectable (db : Database) (sid device_id : rstr) (role : SessionRole) (now : Z) (s : Session) : Prop :=
  db.(db_sessions) !! sid = Some s ∧ can_signal s.(se_status) = true ∧ now < s.(se_expires_at) ∧
  participant s role = device_id.

Definition relay_answer `{C : ApiCodec} (s : Session) (d : Device) (role : rstr) (now : Z) : RelayAuthorization := {|
  za_authorized := true; za_session_id := s.(se_session_id); za_role := role;
  za_controller_device_id := s.(se_controller_device_id);
  za_controlled_device_id := s.(se_controlled_device_id);
  za_permissions_digest := s.(se_permissions_digest);
  za_relay_token_epoch := s.(se_relay_token_epoch);
  za_expires_at := Z.min s.(se_expires_at) (sat_add 64 now 60000);
  za_device_public_key := b64url_encode d.(dv_public_key);
  za_device_public_key_id := d.(dv_public_key_id);
  za_device_public_key_version := d.(dv_public_key_version) |}.

Section lemmas.
Context `{C : ApiCodec}.

Lemma ensure_then {E T} b (e : E) (x y : T) : (_ ← ensure b e; Ok x) = Ok y ↔ b = true ∧ x = y.
Proof. destruct b; cbn; naive_solver. Qed.

Lemma role_match (role : SessionRole) (c k d : rstr) :
  (if role_as_str role =! str "controller" then c =! d
   else if role_as_str role =! str "controlled" then k =! d else false) = true ↔
  match role with Controller => c | Controlled => k end = d.
Proof.
  destruct role.
  - change (role_as_str Controller =! str "controller") with true. apply bool_decide_eq_true.
  - change (role_as_str Controlled =! str "controller") with false.
    change (role_as_str Controlled =! str "controlled") with true. apply bool_decide_eq_true.
Qed.

Lemma relay_authorize_iff db rq role now z :
  devices_ok db → rq.(rq_role) = role_as_str role →
  relay_authorize db rq now = Ok z ↔
  ∃ s d, connectable db rq.(rq_session_id) rq.(rq_device_id) role now s ∧
    in_service db rq.(rq_device_id) d ∧ s.(se_permissions).(allow_relay) = true ∧
    s.(se_permissions_digest) = rq.(rq_permissions_digest) ∧
    s.(se_relay_token_epoch) = rq.(rq_relay_token_epoch) ∧ z = relay_answer s d rq.(rq_role) now.
Proof.
  intros Hdev Hr. unfold relay_authorize, load_session_device_authority. rewrite Hr. split.
  - intros H. invert_ok.
    match goal with Hm : _ = true |- _ => apply role_match in Hm end.
    match goal with Hd : db_devices db !! _ = Some ?d |- _ => pose proof (Hdev _ _ Hd) as Hid; cbn beta in Hid end.
    do 2 eexists. unfold connectable, in_service. split_and!; try done; try lia.
    + unfold participant. congruence.
    + by apply eq_None_not_Some.
  - intros (s & d & (Hs & Hc & Hx & Hp) & (Hd & Hk & Hl) & Ha & Hg & He & ->).
    rewrite Hs, Hd. cbn [ok_or mbind result_bind]. pose proof (Hdev _ _ Hd) as Hid. cbn beta in Hid.
    rewrite (proj2 (role_match role _ _ _)) by (unfold participant in Hp; congruence).
    rewrite Hc, Ha, Hk, Hl, Hg, He. cbn [negb orb]. rewrite Z.eqb_refl.
    rewrite bool_decide_eq_true_2 by done. rewrite bool_decide_eq_false_2 by (by intros []%is_Some_None).
    assert ((se_expires_at s <=? now) = false) as -> by lia. unfold relay_answer. by rewrite Hg, He.
Qed.

(** The relay's request reaches the route unchanged. *)
Lemma relay_endpoint_iff `{!ApiCodecLaws C} body db now rq z :
  api_authorize (relay_endpoint body db now) rq = Ok z ↔ relay_authorize db rq now = Ok z.
Proof.
  unfold api_authorize, relay_endpoint, decode_authorization_response.
  destruct (relay_authorize db rq now) as [z'|e]; cbn [ok_or mbind result_bind].
  - change (ensure _ AuthorizationRejected) with (Ok (E := AuthError) tt).
    change (ensure _ AuthorizationUnavailable) with (Ok (E := AuthError) tt).
    cbn [mbind result_bind]. rewrite authorization_round. cbn [ok_or]. naive_solver.
  - split; [|done]. by destruct e.
Qed.

Lemma authorized_participant_iff db sid acc dev role s d :
  authorized_participant db sid acc dev (role_as_str role) = Ok (s, d) ↔
  db.(db_sessions) !! sid = Some s ∧ in_service db dev d ∧ d.(dv_account_id) = acc ∧
  participant s role = dev ∧ (role = Controller → s.(se_controller_account_id) = acc).
Proof.
  unfold authorized_participant, load_session_device_authority, in_service.
  destruct (db.(db_sessions) !! sid) as [s0|]; cbn [ok_or mbind result_bind]; [|naive_solver].
  destruct (db.(db_devices) !! dev) as [d0|]; cbn [ok_or mbind result_bind]; [|naive_solver].
  rewrite ensure_then, negb_true_iff, !orb_false_iff, !negb_false_iff.
  rewrite andb_true_iff, bool_decide_eq_true, bool_decide_eq_false, <-eq_None_not_Some.
  destruct role.
  - change (role_as_str Controller =! str "controller") with true. cbn iota.
    rewrite andb_true_iff, !bool_decide_eq_true. cbn [participant]. naive_solver.
  - change (role_as_str Controlled =! str "controller") with false.
    change (role_as_str Controlled =! str "controlled") with true. cbn iota.
    rewrite !bool_decide_eq_true. cbn [participant]. naive_solver.
Qed.

Lemma session_endpoint_iff db now acc dev sid role r :
  session_endpoint db now acc dev sid role = Some r ↔
  ∃ s d, connectable db sid dev role now s ∧ in_service db dev d ∧ d.(dv_account_id) = acc ∧
    (role = Controller → s.(se_controller_account_id) = acc) ∧
    r = {| sr_authorized := true; sr_session_id := s.(se_session_id);
           sr_controller_device_id := s.(se_controller_device_id);
           sr_controlled_device_id := s.(se_controlled_device_id);
           sr_permissions_digest := s.(se_permissions_digest);
           sr_relay_token_epoch := s.(se_relay_token_epoch) |}.
Proof.
  unfold session_endpoint, signal_session_authorize. cbn [sq_session_id sq_account_id sq_device_id sq_role].
  destruct (authorized_participant db sid acc dev (role_as_str role)) as [[s d]|e] eqn:E; cbn [mbind result_bind].
  - apply authorized_participant_iff in E as (Hs & Hd & Ha & Hp & Hc).
    destruct (can_signal s.(se_status)) eqn:Hg; destruct (s.(se_expires_at) <=? now) eqn:Hx; cbn [negb orb ensure mbind result_bind ok fmap option_fmap option_map];
      (split; [|intros (s1 & d1 & (Hs1 & Hg1 & Hx1 & _) & (Hd1 & _) & _ & _ & ->);
                destruct Hd as [Hd _]; rewrite Hs in Hs1; rewrite Hd in Hd1; simplify_eq; first [lia|done|congruence]]); try done.
    intros [= <-]. exists s, d. unfold connectable. split_and!; try done; try apply Hd; lia.
  - split; [done|]. intros (s & d & (Hs & _ & _ & Hp) & Hd & Ha & Hc & _).
    rewrite (proj2 (authorized_participant_iff db sid acc dev role s d)) in E; [done|]. by split_and!.
Qed.
End lemmas.

(** ** The services together *)

Section composition.
Context `{P : Primitives} `{C : ApiCodec} `{!ApiCodecLaws C}.

(** A session that can be used has been accepted, and is at its first epoch. *)
Lemma connectable_consented a sid dev role now s :
  api_reachable a → connectable a.(api_db) sid dev role now s →
  s.(se_session_id) = sid ∧ accepted_by_controlled (events_of a.(api_db) sid) s ∧
  s.(se_relay_token_epoch) = 1.
Proof.
  intros Hr (Hs & Hc & _). destruct (reachable_session a sid s Hr Hs) as [Hid Hj]. split; [done|].
  split; [apply journal_consent in Hj as (_ & _ & Hj & _); by apply Hj|].
  apply journal_epoch in Hj as [-> _]. by destruct (se_status s).
Qed.

Lemma ended_not_connectable a a' sid s dev role now s' :
  api_reachable a → rtc api_step a a' → a.(api_db).(db_sessions) !! sid = Some s →
  is_terminal s.(se_status) = true → ¬ connectable a'.(api_db) sid dev role now s'.
Proof.
  intros Hr Hst Hs Ht (Hs' & Hc & _).
  destruct (steps_keep a a' Hst (api_reachable_inv a Hr)) as (K & _).
  destruct (K sid s Hs) as (s1 & Hs1 & _ & He). rewrite (He Ht) in Hs1.
  rewrite Hs1 in Hs'. injection Hs' as ->. by destruct (se_status s').
Qed.
End composition.

(** C25: A relay admits only parties to an accepted session: when the API
    answers a relay from a reachable state, an open that the relay's checks let
    through is for a session that the controlled device accepted, that has not
    ended or expired and permits relays; the device that opens is the
    participant whose role it claims, the epoch is the current one, and the
    signature verifies under the key the API has registered and not revoked for
    that device. *)
Theorem relay_admission_consented `{P : Primitives} `{C : ApiCodec} `{!ApiCodecLaws C}
    a cfg enabled o expected body api_now now :
  api_reachable a →
  open_checks cfg enabled o expected (relay_endpoint body a.(api_db) api_now) now = Ok tt →
  ∃ s d bs, connectable a.(api_db) (uuid_string o.(ro_session_id)) o.(ro_device_id) o.(ro_role) api_now s ∧
    accepted_by_controlled (events_of a.(api_db) s.(se_session_id)) s ∧
    s.(se_permissions).(allow_relay) = true ∧ o.(ro_relay_token_epoch) = 1 ∧
    o.(ro_controller_device_id) = s.(se_controller_device_id) ∧
    o.(ro_controlled_device_id) = s.(se_controlled_device_id) ∧
    in_service a.(api_db) o.(ro_device_id) d ∧
    relay_open_canonical_bytes o = Ok bs ∧
    ed25519_verify d.(dv_public_key) (sha256 bs) o.(ro_device_signature) = true.
Proof.
  intros Hr [_ Ha]%open_checks_ok.
  destruct (ad_authorized _ _ _ _ _ Ha) as (z & pk & bs & Hz & Hv & Hpk & _ & Hbs & _ & Hsig).
  apply relay_endpoint_iff in Hz.
  apply (relay_authorize_iff _ _ o.(ro_role)) in Hz as (s & d & Hc & Hd & Hrel & _ & Hep & ->);
    [|apply (ai_devices a (api_reachable_inv a Hr))|done].
  destruct (connectable_consented a _ _ _ _ _ Hr Hc) as (Hid & Hacc & He1).
  unfold decode_array in Hpk. cbn [za_device_public_key relay_answer] in Hpk. rewrite b64url_round in Hpk.
  destruct (length d.(dv_public_key) =? 32)%nat; [|done]. injection Hpk as <-.
  apply server_open_bytes_ok in Hbs. unfold validate_authorization in Hv. invert_ok.
  exists s, d, bs. rewrite Hid. cbn in Hep. split_and!; try done; congruence.
Qed.

(** C26: Ending a session shuts it out of both services: from its end on, in
    every later state and at every clock, no relay's checks pass for it and the
    signalling service is refused for both roles, whoever asks. *)
Theorem ended_session_shut_out `{P : Primitives} `{C : ApiCodec} `{!ApiCodecLaws C} a a' o s :
  api_reachable a → rtc api_step a a' →
  a.(api_db).(db_sessions) !! uuid_string o.(ro_session_id) = Some s → is_terminal s.(se_status) = true →
  (∀ cfg enabled expected body api_now now,
     is_ok (open_checks cfg enabled o expected (relay_endpoint body a'.(api_db) api_now) now) = false) ∧
  (∀ api_now account_id device_id role,
     session_authorize (SessionApi (session_endpoint a'.(api_db) api_now)) account_id device_id
       (uuid_string o.(ro_session_id)) role = None).
Proof.
  intros Hr Hst Hs Ht. pose proof (reachable_steps a a' Hr Hst) as Hr'. split.
  - intros. destruct (open_checks _ _ _ _ _ _) as [[]|] eqn:E; [|done]. exfalso.
    apply open_checks_ok in E as [_ Ha]. destruct (ad_authorized _ _ _ _ _ Ha) as (z & _ & _ & Hz & _).
    apply relay_endpoint_iff, (relay_authorize_iff _ _ o.(ro_role)) in Hz as (s' & d & Hc & _);
      [|apply (ai_devices a' (api_reachable_inv a' Hr'))|done].
    by eapply (ended_not_connectable a a').
  - intros. cbn [session_authorize].
    destruct (session_endpoint _ _ _ _ _ _) as [r|] eqn:E; [|done].
    apply session_endpoint_iff in E as (s' & d & Hc & _). exfalso.
    by eapply (ended_not_connectable a a').
Qed.

Lemma forwarded_consented `{P : Primitives} `{C : ApiCodec} `{S : SignalCodec} a i api_now now r r' peer c n :
  api_reachable a →
  forwarded (SessionApi (session_endpoint a.(api_db) api_now)) i now r r' peer c n →
  ∃ sid s role, connectable a.(api_db) sid i.(id_device) role api_now s ∧
    accepted_by_controlled (events_of a.(api_db) sid) s ∧
    peer = participant s (match role with Controller => Controlled | Controlled => Controller end) ∧
    peer ≠ i.(id_device).
Proof.
  intros Hr Hf. destruct (fw_session _ _ _ _ _ _ _ _ Hf) as (mt & sid & role & payload & x & u & Hx & Hp & _).
  cbn [session_authorize] in Hx. apply bind_Some in Hx as (rs & Hrs & Hx).
  apply session_endpoint_iff in Hrs as (s & d & Hc & Hd & _ & _ & ->).
  cbn [sr_authorized negb sr_session_id orb] in Hx.
  destruct (se_session_id s ≠! sid); [done|]. apply bind_Some in Hx as (y & _ & [= <-]).
  destruct (connectable_consented a _ _ _ _ _ Hr Hc) as (_ & Hacc & _). exists sid, s, role.
  assert (s.(se_controller_device_id) ≠ s.(se_controlled_device_id)) as Hne.
  { destruct Hc as [Hs _]. destruct (reachable_session a sid s Hr Hs) as [_ Hj]. by eapply journal_pair. }
  destruct Hc as (Hs & Hcs & Hx & Hpart). unfold peer_for in Hp.
  split; [by split_and!|]. split; [done|].
  destruct role; cbn in *; case_bool_decide; simplify_eq; split; congruence.
Qed.

(** What the signalling service forwards, it forwards between the two
    devices of an accepted session: when its session authorizer is the API in a
    reachable state, a message of an authenticated device either leaves every
    queue as it was, or adds one notification to the queue of the connection of
    the other participant of a session that is open, has been accepted by the
    controlled device, and in which the sender has a role. *)
Theorem forwarding_consented `{P : Primitives} `{C : ApiCodec} `{S : SignalCodec}
    a s i api_now text token now :
  api_reachable a →
  let s' := (handle_authenticated_text s (SessionApi (session_endpoint a.(api_db) api_now)) i text token now).2 in
  s'.(st_connections) = s.(st_connections) ∨
  ∃ sid ses role peer c q n, connectable a.(api_db) sid i.(id_device) role api_now ses ∧
    accepted_by_controlled (events_of a.(api_db) sid) ses ∧
    peer = participant ses (match role with Controller => Controlled | Controlled => Controller end) ∧
    peer ≠ i.(id_device) ∧
    s.(st_connections).(cr_connections) !! peer = Some c ∧ s.(st_connections).(cr_queues) !! c = Some q ∧
    s'.(st_connections) = queued s.(st_connections) c (q ++ [n]).
Proof.
  intros Hr s'. destruct (text_confined s (SessionApi (session_endpoint a.(api_db) api_now)) i text token now)
    as (_ & _ & [[_ H]|[[_ H]|(peer & c & n & Hf & _)]]).
  - by left.
  - left. unfold s'. by rewrite H.
  - right. destruct (forwarded_consented a i api_now now _ _ _ _ _ Hr Hf) as (sid & ses & role & Hc & Ha & Hp & Hne).
    destruct (fw_queue _ _ _ _ _ _ _ _ Hf) as (q & Hq & _ & He).
    exists sid, ses, role, peer, c, q, n. split_and!; try done. apply (fw_owner _ _ _ _ _ _ _ _ Hf).
Qed.

(** ** Witnesses *)

(** A serialisation of the answers: the bits of their code as a countable type. *)
Fixpoint bits (p : positive) : bytes :=
  match p with xH => [] | xO p => x00 :: bits p | xI p => x01 :: bits p end.

Fixpoint of_bits (b : bytes) : positive :=
  match b with [] => xH | x00 :: b => xO (of_bits b) | _ :: b => xI (of_bits b) end.

Lemma of_bits_bits p : of_bits (bits p) = p.
Proof. by induction p as [p IH|p IH|]; cbn; rewrite ?IH. Qed.

Definition answer_tuple (z : RelayAuthorization) :=
  (z.(za_authorized), [z.(za_session_id); z.(za_role); z.(za_controller_device_id); z.(za_controlled_device_id);
     z.(za_permissions_digest); z.(za_device_public_key); z.(za_device_public_key_id)],
   (z.(za_relay_token_epoch), z.(za_expires_at), z.(za_device_public_key_version))).

Definition answer_of (t : bool * list rstr * (Z * Z * Z)) : option RelayAuthorization :=
  match t with
  | (a, [s; r; c; k; p; pk; pi], (e, x, v)) => Some {|
      za_authorized := a; za_session_id := s; za_role := r; za_controller_device_id := c;
      za_controlled_device_id := k; za_permissions_digest := p; za_relay_token_epoch := e;
      za_expires_at := x; za_device_public_key := pk; za_device_public_key_id := pi;
      za_device_public_key_version := v |}
  | _ => None
  end.

(** An open of the controller for the example session, not yet signed. *)
Definition services_open (hash token signature : bytes) : RelayOpen := {|
  ro_session_id := 7; ro_device_id := str "ctl"; ro_role := Controller;
  ro_controller_device_id := str "ctl"; ro_controlled_device_id := str "host";
  ro_relay_node_id := str "relay-a"; ro_transport := QuicRelay;
  ro_permissions_digest :=
    @sha256 toy (default [] (ok (permissions_canonical_bytes {|
      remote_desktop := true; input_control := true; clipboard := false; file_transfer := false;
      unattended := false; privacy_screen := false; block_local_input := false;
      require_prompt := true; allow_relay := true |})));
  ro_relay_token_epoch := 1; ro_issued_at := 1000; ro_expires_at := 20000;
  ro_relay_token_id := str "token-1"; ro_relay_open_nonce := repeat x09 32;
  ro_session_relay_token := token; ro_token_binding_hash := hash; ro_device_signature := signature |}.

Definition services_decoders : RelayDecoders := {|
  relay_base64 := {| b64url_decode s := Some s |};
  claims_from_json _ := Some (claims_from_open (services_open [] [] []));
  authorization_from_json b := t ← decode (A := bool * list rstr * (Z * Z * Z)) (of_bits b); answer_of t |}.

Definition services_codec : ApiCodec := {|
  api_decoders := services_decoders;
  b64url_encode b := b;
  authorization_to_json z := bits (encode (answer_tuple z)) |}.

Lemma services_codec_laws : ApiCodecLaws services_codec.
Proof. split; [done|]. intros []. cbn. by rewrite of_bits_bits, decode_encode. Qed.

Definition services_token : bytes := str "t." ++ @hmac_sha256 toy (repeat x00 32) (str "t").
Definition services_hash : bytes :=
  default [] (ok (@server_token_binding_hash toy (claims_from_open (services_open [] [] [])))).
Definition services_signed : RelayOpen :=
  services_open services_hash services_token (@ed25519_sign toy (repeat x07 32)
    (@sha256 toy (default [] (ok (server_open_canonical_bytes (services_open services_hash services_token [])))))).

Lemma services_admitted :
  @open_checks toy (@api_decoders services_codec) example_relay_config true services_signed QuicRelay
    (@relay_endpoint services_codec (λ _, []) accepted_api.(api_db) 2500) 2500 = Ok tt.
Proof. vm_compute. reflexivity. Qed.

Lemma relay_admission_consented_witness :
  ∃ s, connectable accepted_api.(api_db) example_sid (str "ctl") Controller 2500 s ∧
       accepted_by_controlled (events_of accepted_api.(api_db) s.(se_session_id)) s.
Proof.
  destruct (@relay_admission_consented toy services_codec services_codec_laws accepted_api example_relay_config true
    services_signed QuicRelay (λ _, []) 2500 2500 accepted_reachable services_admitted)
    as (s & _ & _ & Hc & Ha & _).
  exists s. split; [exact Hc|exact Ha].
Defined.

Lemma ended_session_shut_out_witness :
  is_ok (@open_checks toy (@api_decoders services_codec) example_relay_config true services_signed QuicRelay
    (@relay_endpoint services_codec (λ _, []) closed_api.(api_db) 2500) 2500) = false ∧
  session_authorize (SessionApi (@session_endpoint services_codec closed_api.(api_db) 2500))
    (str "acc") (str "host") example_sid Controlled = None.
Proof.
  destruct (session_at closed_api Closed) as (s & Hs & Hst); [apply example_statuses|].
  assert (is_terminal s.(se_status) = true) as Ht by (rewrite Hst; reflexivity).
  destruct (@ended_session_shut_out toy services_codec services_codec_laws closed_api closed_api services_signed s
    closed_reachable (rtc_refl _ _) Hs Ht) as [Hrel Hsig].
  split; [apply Hrel|apply Hsig].
Defined.

(** A signalling service that reads every text as a key confirmation of the
    controller in the example session, to which the controlled device is
    connected. *)
Definition confirm_codec : SignalCodec := {|
  codec_decoders := plain_decoders;
  parse_value _ := Some tt; value_type _ := None;
  parse_client_message _ := Some (KeyConfirmMessage (D := plain_decoders) example_sid Controller tt);
  parse_push _ := None; push_to_json _ := None; candidate_payload_from_json _ := None;
  key_exchange_from_json _ := None;
  key_confirm_from_json _ := Some {| kc_session_id := 7; kc_device_id := str "ctl"; kc_role := Controller;
    kc_transcript_hash := []; kc_mac := []; kc_timestamp := 2500 |};
  forward_to_json _ _ _ _ _ := Some (str "confirm"); parse_uuid _ := Some 7 |}.

Definition host_connected : AppState := {|
  st_presence := ∅;
  st_connections := {| cr_connections := {[str "host" := str "c1"]}; cr_queues := {[str "c1" := []]};
                       cr_superseded := ∅; cr_capacity := 4 |};
  st_lan_candidate_guard := lan_guard_default |}.

Definition ctl_identity : Identity := {|
  id_account := str "acc"; id_device := str "ctl"; id_public_key := []; id_connection := str "c0" |}.

Definition confirm_sent : AppState :=
  (@handle_authenticated_text toy confirm_codec host_connected
     (SessionApi (@session_endpoint services_codec accepted_api.(api_db) 2500)) ctl_identity [] [] 2500).2.

Lemma confirm_queued : confirm_sent.(st_connections).(cr_queues) !! str "c1" = Some [str "confirm"].
Proof. vm_compute. reflexivity. Qed.

Lemma forwarding_consented_witness :
  ∃ sid ses, connectable accepted_api.(api_db) sid (str "ctl") Controller 2500 ses ∧
    accepted_by_controlled (events_of accepted_api.(api_db) sid) ses ∨
    connectable accepted_api.(api_db) sid (str "ctl") Controlled 2500 ses.
Proof.
  pose proof (@forwarding_consented toy services_codec confirm_codec accepted_api host_connected ctl_identity
    2500 [] [] 2500 accepted_reachable) as [H|(sid & ses & role & peer & c & q & n & Hc & Ha & _)].
  - exfalso. pose proof confirm_queued as Hq. unfold confirm_sent in Hq. rewrite H in Hq.
    cbv [host_connected st_connections cr_queues] in Hq. rewrite lookup_singleton_eq in Hq. discriminate Hq.
  - exists sid, ses. destruct role; [left|right]; [split; [exact Hc|exact Ha]|exact Hc].
Defined.
