(* ===== verification/Ephemeral.v ===== *)
(** * Short-lived state of the API server

    Models the memory backend of services/api-server/src/ephemeral.rs: request
    nonces, login failures, challenges of a second factor or of a step-up, and
    pending TOTP enrolments; and of routes/auth.rs the gate in front of a login.

    Every operation takes one lock, so a run is a sequence of operations. The
    lease tokens, drawn at random in the code, are arguments. The operations of
    this backend do not fail. *)

From S2P Require Import Prelude Text Canonical Security Primitives.

(** ** Data *)

Inductive ChallengePurpose := LoginMfa | StepUp (purpose : rstr).

Inductive LoginDeviceState := Registered | PendingEnrollment.

Record LoginChallengeContext := {
  lc_device_state : LoginDeviceState;
  lc_device_id : rstr;
  lc_account_updated_at : Z;
  lc_device_public_key : bytes;
  lc_device_public_key_fingerprint : bytes;
  lc_public_key_id : option rstr;
  lc_public_key_version : Z;
  lc_client_nonce : bytes;
  lc_server_nonce : bytes;
  lc_login_request_binding_hash : bytes;
  lc_login_challenge_binding_hash : bytes;
  lc_ip_address_hash : bytes;
  lc_user_agent_hash : bytes;
  lc_required_factors : list rstr;
  lc_trusted_device_id : option rstr;
  lc_protocol_version : Z;
  lc_issued_at : Z;
  lc_attempts_limit : Z }.

Record AuthChallenge := {
  ch_challenge_id : rstr;
  ch_account_id : rstr;
  ch_device_id : option rstr;
  ch_purpose : ChallengePurpose;
  ch_operation_binding_hash : option rstr;
  ch_login : option LoginChallengeContext;
  ch_attempts_remaining : Z;
  ch_expires_at : Z;
  ch_verified_at : option Z;
  ch_consumed_at : option Z }.

Inductive ExpectedChallengeKind := KindLogin | KindStepUp.

Definition matches_purpose (k : ExpectedChallengeKind) (p : ChallengePurpose) : bool :=
  match k, p with KindLogin, LoginMfa | KindStepUp, StepUp _ => true | _, _ => false end.

Record ChallengeAttempt := { ca_challenge : AuthChallenge; ca_lease_token : rstr }.

Inductive ChallengeAttemptStart :=
| Started (a : ChallengeAttempt)
| StartRejected (account_id : option rstr).

Record LoginFailureState := {
  lf_attempts : Z; lf_locked_until : option Z; lf_newly_locked : bool }.

Definition login_failure_default : LoginFailureState :=
  {| lf_attempts := 0; lf_locked_until := None; lf_newly_locked := false |}.

Definition is_locked_at (s : LoginFailureState) (now : Z) : bool :=
  match s.(lf_locked_until) with Some expires => now <? expires | None => false end.

Record PendingTotpEnrollment := {
  te_factor_id : rstr;
  te_account_id : rstr;
  te_secret_base32 : rstr;
  te_recovery_delivery_public_key : bytes;
  te_created_at : Z;
  te_expires_at : Z;
  te_attempts_remaining : Z }.

Record PendingTotpEnrollmentAttempt := { ta_enrollment : PendingTotpEnrollment; ta_lease_token : rstr }.

Record StepUpConsumption := {
  su_challenge_id : rstr;
  su_account_id : rstr;
  su_device_id : rstr;
  su_purpose : rstr;
  su_operation_binding_hash : rstr }.

Inductive ChallengeStatus := CIssued | CVerified | CConsumed | CFailed.

#[global] Instance ChallengeStatus_eq_dec : EqDecision ChallengeStatus.
Proof. solve_decision. Defined.

Record MemoryChallenge := {
  mc_challenge : AuthChallenge; mc_status : ChallengeStatus; mc_lease : option (rstr * Z) }.

Record MemoryLoginFailure := {
  ml_attempts : Z; ml_locked_until : option Z; ml_expires_at : Z }.

Record MemoryPendingTotpEnrollment := {
  mp_enrollment : PendingTotpEnrollment; mp_lease : option (rstr * Z) }.

Record MemoryState := {
  nonces : gmap rstr Z;
  login_failures : gmap rstr MemoryLoginFailure;
  challenges : gmap rstr MemoryChallenge;
  pending_totp_enrollments : gmap rstr MemoryPendingTotpEnrollment }.

Definition memory_state_default : MemoryState := {|
  nonces := ∅; login_failures := ∅; challenges := ∅; pending_totp_enrollments := ∅ |}.

Definition ATTEMPT_LEASE_MILLIS : Z := 30000.

Definition set_nonces (s : MemoryState) m : MemoryState := {|
  nonces := m; login_failures := s.(login_failures); challenges := s.(challenges);
  pending_totp_enrollments := s.(pending_totp_enrollments) |}.
Definition set_login_failures (s : MemoryState) m : MemoryState := {|
  nonces := s.(nonces); login_failures := m; challenges := s.(challenges);
  pending_totp_enrollments := s.(pending_totp_enrollments) |}.
Definition set_challenges (s : MemoryState) m : MemoryState := {|
  nonces := s.(nonces); login_failures := s.(login_failures); challenges := m;
  pending_totp_enrollments := s.(pending_totp_enrollments) |}.
Definition set_enrollments (s : MemoryState) m : MemoryState := {|
  nonces := s.(nonces); login_failures := s.(login_failures); challenges := s.(challenges);
  pending_totp_enrollments := m |}.

(** [record.enrollment.attempts_remaining = n]. *)
Definition with_enrollment_attempts (e : PendingTotpEnrollment) (n : Z) : PendingTotpEnrollment := {|
  te_factor_id := e.(te_factor_id); te_account_id := e.(te_account_id);
  te_secret_base32 := e.(te_secret_base32);
  te_recovery_delivery_public_key := e.(te_recovery_delivery_public_key);
  te_created_at := e.(te_created_at); te_expires_at := e.(te_expires_at); te_attempts_remaining := n |}.

(** The fields of a challenge that an attempt or a consumption writes. *)
Definition with_progress (c : AuthChallenge) (attempts : Z) (verified consumed : option Z) : AuthChallenge := {|
  ch_challenge_id := c.(ch_challenge_id); ch_account_id := c.(ch_account_id);
  ch_device_id := c.(ch_device_id); ch_purpose := c.(ch_purpose);
  ch_operation_binding_hash := c.(ch_operation_binding_hash); ch_login := c.(ch_login);
  ch_attempts_remaining := attempts; ch_expires_at := c.(ch_expires_at);
  ch_verified_at := verified; ch_consumed_at := consumed |}.

(** [lease.is_some_and(|(_, expires)| expires > now)]. *)
Definition lease_active (lease : option (rstr * Z)) (now : Z) : bool :=
  match lease with Some (_, expires) => now <? expires | None => false end.

(** ** Pending enrolments *)

Definition put_pending_totp_enrollment (s : MemoryState) (e : PendingTotpEnrollment) (now : Z)
    : bool * MemoryState :=
  let insert := (true, set_enrollments s
    (<[e.(te_account_id) := {| mp_enrollment := e; mp_lease := None |}]> s.(pending_totp_enrollments))) in
  match s.(pending_totp_enrollments) !! e.(te_account_id) with
  | Some record => if now <? record.(mp_enrollment).(te_expires_at) then (false, s) else insert
  | None => insert
  end.

Definition begin_pending_totp_enrollment_attempt (s : MemoryState) (account_id factor_id : rstr) (now : Z)
    (lease_token : rstr) : option PendingTotpEnrollmentAttempt * MemoryState :=
  match s.(pending_totp_enrollments) !! account_id with
  | None => (None, s)
  | Some record =>
      let e := record.(mp_enrollment) in
      if e.(te_factor_id) ≠! factor_id then (None, s)
      else if (e.(te_expires_at) <=? now) || (e.(te_attempts_remaining) =? 0)
      then (None, set_enrollments s (delete account_id s.(pending_totp_enrollments)))
      else if lease_active record.(mp_lease) now then (None, s)
      else (Some {| ta_enrollment := e; ta_lease_token := lease_token |},
            set_enrollments s (<[account_id := {|
              mp_enrollment := e;
              mp_lease := Some (lease_token, sat_add 64 now ATTEMPT_LEASE_MILLIS) |}]>
              s.(pending_totp_enrollments)))
  end.

Definition finish_pending_totp_enrollment_attempt (s : MemoryState) (a : PendingTotpEnrollmentAttempt)
    (accepted : bool) (now : Z) : option PendingTotpEnrollment * MemoryState :=
  let account_id := a.(ta_enrollment).(te_account_id) in
  match s.(pending_totp_enrollments) !! account_id with
  | None => (None, s)
  | Some record =>
      let e := record.(mp_enrollment) in
      if e.(te_factor_id) ≠! a.(ta_enrollment).(te_factor_id) then (None, s)
      else if e.(te_expires_at) <=? now
      then (None, set_enrollments s (delete account_id s.(pending_totp_enrollments)))
      else if negb (match record.(mp_lease) with
                    | Some (token, expires) => (token =! a.(ta_lease_token)) && (now <? expires)
                    | None => false end) then (None, s)
      else
        let result := if accepted then e
                      else with_enrollment_attempts e (sat_sub e.(te_attempts_remaining) 1) in
        if accepted || (result.(te_attempts_remaining) =? 0)
        then (Some result, set_enrollments s (delete account_id s.(pending_totp_enrollments)))
        else (Some result, set_enrollments s (<[account_id := {|
               mp_enrollment := result; mp_lease := None |}]> s.(pending_totp_enrollments)))
  end.

Definition abort_pending_totp_enrollment_attempt (s : MemoryState) (a : PendingTotpEnrollmentAttempt)
    : bool * MemoryState :=
  let account_id := a.(ta_enrollment).(te_account_id) in
  match s.(pending_totp_enrollments) !! account_id with
  | None => (false, s)
  | Some record =>
      if (record.(mp_enrollment).(te_factor_id) ≠! a.(ta_enrollment).(te_factor_id))
         || (fst <$> record.(mp_lease) ≠! Some a.(ta_lease_token))
      then (false, s)
      else (true, set_enrollments s (<[account_id := {|
              mp_enrollment := record.(mp_enrollment); mp_lease := None |}]> s.(pending_totp_enrollments)))
  end.

Definition remove_pending_totp_enrollment (s : MemoryState) (account_id factor_id : rstr)
    : bool * MemoryState :=
  match s.(pending_totp_enrollments) !! account_id with
  | Some record =>
      if record.(mp_enrollment).(te_factor_id) ≠! factor_id then (false, s)
      else (true, set_enrollments s (delete account_id s.(pending_totp_enrollments)))
  | None => (false, s)
  end.

(** ** Nonces and login failures *)

Definition record_nonce (s : MemoryState) (nonce_binding : rstr) (now ttl : Z) : bool * MemoryState :=
  let kept := filter (λ kv : rstr * Z, now < kv.2) s.(nonces) in
  if bool_decide (is_Some (kept !! nonce_binding)) then (false, set_nonces s kept)
  else (true, set_nonces s (<[nonce_binding := sat_add 64 now ttl]> kept)).

Definition login_failure_state (s : MemoryState) (account_id : rstr) (now : Z)
    : LoginFailureState * MemoryState :=
  match s.(login_failures) !! account_id with
  | None => (login_failure_default, s)
  | Some value =>
      if value.(ml_expires_at) <=? now
      then (login_failure_default, set_login_failures s (delete account_id s.(login_failures)))
      else ({| lf_attempts := value.(ml_attempts); lf_locked_until := value.(ml_locked_until);
               lf_newly_locked := false |}, s)
  end.

Definition record_login_failure (s : MemoryState) (account_id : rstr) (now max_attempts lock ttl : Z)
    : LoginFailureState * MemoryState :=
  let current := s.(login_failures) !! account_id in
  let count :=
    let attempts := sat_add 8 (default 0 (
      value ← current;
      if now <? value.(ml_expires_at)
      then (match value.(ml_locked_until) with None => Some value.(ml_attempts) | Some _ => None end)
      else None)) 1 in
    let newly_locked := max_attempts <=? attempts in
    let locked_until := if newly_locked then Some (sat_add 64 now lock) else None in
    let attempts := if newly_locked then 0 else attempts in
    ({| lf_attempts := attempts; lf_locked_until := locked_until; lf_newly_locked := newly_locked |},
     set_login_failures s (<[account_id := {|
       ml_attempts := attempts; ml_locked_until := locked_until;
       ml_expires_at := sat_add 64 now ttl |}]> s.(login_failures))) in
  match current with
  | Some value =>
      match value.(ml_locked_until) with
      | Some until =>
          if now <? until
          then ({| lf_attempts := value.(ml_attempts); lf_locked_until := value.(ml_locked_until);
                   lf_newly_locked := false |}, s)
          else count
      | None => count
      end
  | None => count
  end.

Definition clear_login_failures (s : MemoryState) (account_id : rstr) : MemoryState :=
  set_login_failures s (delete account_id s.(login_failures)).

(** ** Challenges *)

Definition put_challenge (s : MemoryState) (c : AuthChallenge) : bool * MemoryState :=
  if bool_decide (is_Some (s.(challenges) !! c.(ch_challenge_id))) then (false, s)
  else (true, set_challenges s (<[c.(ch_challenge_id) := {|
          mc_challenge := c; mc_status := CIssued; mc_lease := None |}]> s.(challenges))).

Definition begin_challenge_attempt (s : MemoryState) (challenge_id : rstr) (kind : ExpectedChallengeKind)
    (now : Z) (lease_token : rstr) : ChallengeAttemptStart * MemoryState :=
  match s.(challenges) !! challenge_id with
  | None => (StartRejected None, s)
  | Some record =>
      let c := record.(mc_challenge) in
      if c.(ch_expires_at) <=? now
      then (StartRejected (Some c.(ch_account_id)), set_challenges s (delete challenge_id s.(challenges)))
      else if (record.(mc_status) ≠! CIssued) || (c.(ch_attempts_remaining) =? 0)
           || negb (matches_purpose kind c.(ch_purpose)) || lease_active record.(mc_lease) now
      then (StartRejected (Some c.(ch_account_id)), s)
      else (Started {| ca_challenge := c; ca_lease_token := lease_token |},
            set_challenges s (<[challenge_id := {|
              mc_challenge := c; mc_status := record.(mc_status);
              mc_lease := Some (lease_token, sat_add 64 now ATTEMPT_LEASE_MILLIS) |}]> s.(challenges)))
  end.

Definition finish_challenge_attempt (s : MemoryState) (a : ChallengeAttempt) (accepted consume_on_success : bool)
    (now : Z) : option AuthChallenge * MemoryState :=
  let id := a.(ca_challenge).(ch_challenge_id) in
  match s.(challenges) !! id with
  | None => (None, s)
  | Some record =>
      if (record.(mc_status) ≠! CIssued) || (fst <$> record.(mc_lease) ≠! Some a.(ca_lease_token))
      then (None, s)
      else
        let c := record.(mc_challenge) in
        let '(c, status) :=
          if accepted then
            if consume_on_success
            then (with_progress c c.(ch_attempts_remaining) (Some now) (Some now), CConsumed)
            else (with_progress c c.(ch_attempts_remaining) (Some now) c.(ch_consumed_at), CVerified)
          else
            let attempts := sat_sub c.(ch_attempts_remaining) 1 in
            (with_progress c attempts c.(ch_verified_at) c.(ch_consumed_at),
             if attempts =? 0 then CFailed else record.(mc_status)) in
        (Some c, set_challenges s (<[id := {|
          mc_challenge := c; mc_status := status; mc_lease := None |}]> s.(challenges)))
  end.

Definition abort_challenge_attempt (s : MemoryState) (a : ChallengeAttempt) : MemoryState :=
  let id := a.(ca_challenge).(ch_challenge_id) in
  match s.(challenges) !! id with
  | Some record =>
      if fst <$> record.(mc_lease) =! Some a.(ca_lease_token)
      then set_challenges s (<[id := {| mc_challenge := record.(mc_challenge);
             mc_status := record.(mc_status); mc_lease := None |}]> s.(challenges))
      else s
  | None => s
  end.

Definition consume_step_up (s : MemoryState) (b : StepUpConsumption) (now : Z) : bool * MemoryState :=
  match s.(challenges) !! b.(su_challenge_id) with
  | None => (false, s)
  | Some record =>
      let c := record.(mc_challenge) in
      let purpose_matches := match c.(ch_purpose) with StepUp p => p =! b.(su_purpose) | LoginMfa => false end in
      if (record.(mc_status) ≠! CVerified) || (c.(ch_expires_at) <=? now)
         || (c.(ch_account_id) ≠! b.(su_account_id)) || (c.(ch_device_id) ≠! Some b.(su_device_id))
         || (c.(ch_operation_binding_hash) ≠! Some b.(su_operation_binding_hash)) || negb purpose_matches
      then (false, s)
      else (true, set_challenges s (<[b.(su_challenge_id) := {|
              mc_challenge := with_progress c c.(ch_attempts_remaining) c.(ch_verified_at) (Some now);
              mc_status := CConsumed; mc_lease := record.(mc_lease) |}]> s.(challenges)))
  end.

(** ** Runs: any interleaving of the operations *)

Inductive EphOp :=
| OpPutEnrollment (e : PendingTotpEnrollment) (now : Z)
| OpBeginEnrollment (account_id factor_id : rstr) (now : Z) (lease_token : rstr)
| OpFinishEnrollment (a : PendingTotpEnrollmentAttempt) (accepted : bool) (now : Z)
| OpAbortEnrollment (a : PendingTotpEnrollmentAttempt)
| OpRemoveEnrollment (account_id factor_id : rstr)
| OpRecordNonce (nonce_binding : rstr) (now ttl : Z)
| OpLoginState (account_id : rstr) (now : Z)
| OpRecordFailure (account_id : rstr) (now max_attempts lock ttl : Z)
| OpClearFailures (account_id : rstr)
| OpPutChallenge (c : AuthChallenge)
| OpBeginChallenge (challenge_id : rstr) (kind : ExpectedChallengeKind) (now : Z) (lease_token : rstr)
| OpFinishChallenge (a : ChallengeAttempt) (accepted consume : bool) (now : Z)
| OpAbortChallenge (a : ChallengeAttempt)
| OpConsumeStepUp (b : StepUpConsumption) (now : Z).

Inductive EphOut :=
| OutBool (b : bool) | OutUnit
| OutEnrollmentAttempt (a : option PendingTotpEnrollmentAttempt)
| OutEnrollment (e : option PendingTotpEnrollment)
| OutLogin (s : LoginFailureState)
| OutStart (s : ChallengeAttemptStart)
| OutChallenge (c : option AuthChallenge).

Definition eph_step (s : MemoryState) (op : EphOp) : EphOut * MemoryState :=
  match op with
  | OpPutEnrollment e now => prod_map OutBool id (put_pending_totp_enrollment s e now)
  | OpBeginEnrollment acc f now t =>
      prod_map OutEnrollmentAttempt id (begin_pending_totp_enrollment_attempt s acc f now t)
  | OpFinishEnrollment a ok now => prod_map OutEnrollment id (finish_pending_totp_enrollment_attempt s a ok now)
  | OpAbortEnrollment a => prod_map OutBool id (abort_pending_totp_enrollment_attempt s a)
  | OpRemoveEnrollment acc f => prod_map OutBool id (remove_pending_totp_enrollment s acc f)
  | OpRecordNonce n now ttl => prod_map OutBool id (record_nonce s n now ttl)
  | OpLoginState acc now => prod_map OutLogin id (login_failure_state s acc now)
  | OpRecordFailure acc now m l t => prod_map OutLogin id (record_login_failure s acc now m l t)
  | OpClearFailures acc => (OutUnit, clear_login_failures s acc)
  | OpPutChallenge c => prod_map OutBool id (put_challenge s c)
  | OpBeginChallenge i k now t => prod_map OutStart id (begin_challenge_attempt s i k now t)
  | OpFinishChallenge a ok c now => prod_map OutChallenge id (finish_challenge_attempt s a ok c now)
  | OpAbortChallenge a => (OutUnit, abort_challenge_attempt s a)
  | OpConsumeStepUp b now => prod_map OutBool id (consume_step_up s b now)
  end.

(** ** Challenges over a run *)

(** One record of the table; [None] is an absent one. *)
Definition record_of (id : rstr) (s : MemoryState) : option MemoryChallenge := s.(challenges) !! id.

(** What an operation does to the record of [id]: nothing, or what the answer
    says. *)
Inductive challenge_move (id : rstr) : EphOp → EphOut → option MemoryChallenge → option MemoryChallenge → Prop :=
| cm_same op out r :
    (∀ a (ok c : bool) now x, op = OpFinishChallenge a ok c now → out = OutChallenge (Some x) →
       a.(ca_challenge).(ch_challenge_id) ≠ id) →
    (∀ b now, op = OpConsumeStepUp b now → out = OutBool true → b.(su_challenge_id) ≠ id) →
    challenge_move id op out r r
| cm_put c : c.(ch_challenge_id) = id →
    challenge_move id (OpPutChallenge c) (OutBool true) None
      (Some {| mc_challenge := c; mc_status := CIssued; mc_lease := None |})
| cm_expire k now t acc m : challenge_move id (OpBeginChallenge id k now t) (OutStart (StartRejected acc)) (Some m) None
| cm_begin k now t m : m.(mc_status) = CIssued → m.(mc_challenge).(ch_attempts_remaining) ≠ 0 →
    challenge_move id (OpBeginChallenge id k now t)
      (OutStart (Started {| ca_challenge := m.(mc_challenge); ca_lease_token := t |})) (Some m)
      (Some {| mc_challenge := m.(mc_challenge); mc_status := CIssued;
               mc_lease := Some (t, sat_add 64 now ATTEMPT_LEASE_MILLIS) |})
| cm_finish a (ok c : bool) now m c' st : a.(ca_challenge).(ch_challenge_id) = id → m.(mc_status) = CIssued →
    fst <$> m.(mc_lease) = Some a.(ca_lease_token) →
    c' = (if ok then with_progress m.(mc_challenge) m.(mc_challenge).(ch_attempts_remaining) (Some now)
                       (if c then Some now else m.(mc_challenge).(ch_consumed_at))
          else with_progress m.(mc_challenge) (sat_sub m.(mc_challenge).(ch_attempts_remaining) 1)
                 m.(mc_challenge).(ch_verified_at) m.(mc_challenge).(ch_consumed_at)) →
    st = (if ok then if c then CConsumed else CVerified
          else if sat_sub m.(mc_challenge).(ch_attempts_remaining) 1 =? 0 then CFailed else CIssued) →
    challenge_move id (OpFinishChallenge a ok c now) (OutChallenge (Some c')) (Some m)
      (Some {| mc_challenge := c'; mc_status := st; mc_lease := None |})
| cm_abort a m : challenge_move id (OpAbortChallenge a) OutUnit (Some m)
    (Some {| mc_challenge := m.(mc_challenge); mc_status := m.(mc_status); mc_lease := None |})
| cm_consume b now m : b.(su_challenge_id) = id → m.(mc_status) = CVerified →
    now < m.(mc_challenge).(ch_expires_at) → m.(mc_challenge).(ch_account_id) = b.(su_account_id) →
    m.(mc_challenge).(ch_device_id) = Some b.(su_device_id) →
    m.(mc_challenge).(ch_operation_binding_hash) = Some b.(su_operation_binding_hash) →
    m.(mc_challenge).(ch_purpose) = StepUp b.(su_purpose) →
    challenge_move id (OpConsumeStepUp b now) (OutBool true) (Some m)
      (Some {| mc_challenge := with_progress m.(mc_challenge) m.(mc_challenge).(ch_attempts_remaining)
                                 m.(mc_challenge).(ch_verified_at) (Some now);
               mc_status := CConsumed; mc_lease := m.(mc_lease) |}).

Ltac untouched := apply cm_same; naive_solver.

Lemma set_challenges_other id k m s :
  k ≠ id → record_of id (set_challenges s (<[k := m]> s.(challenges))) = record_of id s.
Proof. intros H. unfold record_of. cbn. by rewrite lookup_insert_ne. Qed.

Lemma begin_challenge_move id s i k now t :
  challenge_move id (OpBeginChallenge i k now t) (OutStart (begin_challenge_attempt s i k now t).1)
    (record_of id s) (record_of id (begin_challenge_attempt s i k now t).2).
Proof.
  unfold begin_challenge_attempt. destruct (s.(challenges) !! i) as [m|] eqn:Hm; [|untouched].
  destruct (_ <=? now).
  { destruct (decide (i = id)) as [->|Hi].
    - unfold record_of. cbn. rewrite Hm, lookup_delete_eq. apply cm_expire.
    - unfold record_of. cbn. rewrite lookup_delete_ne by done. untouched. }
  destruct (_ || lease_active _ _) eqn:E; [untouched|]. split_bools.
  destruct (decide (i = id)) as [->|Hi]; [|cbn [snd]; rewrite set_challenges_other by done; untouched].
  unfold record_of. cbn. rewrite Hm, lookup_insert_eq.
  match goal with H : mc_status m = CIssued |- _ => rewrite H end. by apply cm_begin.
Qed.

Lemma finish_challenge_move id s a ok c now :
  challenge_move id (OpFinishChallenge a ok c now) (OutChallenge (finish_challenge_attempt s a ok c now).1)
    (record_of id s) (record_of id (finish_challenge_attempt s a ok c now).2).
Proof.
  unfold finish_challenge_attempt.
  destruct (s.(challenges) !! a.(ca_challenge).(ch_challenge_id)) as [m|] eqn:Hm; [|untouched].
  destruct (_ || _) eqn:E; [untouched|]. split_bools.
  match goal with H : mc_status m = CIssued |- _ => rename H into Hs; rewrite Hs end.
  destruct (decide (a.(ca_challenge).(ch_challenge_id) = id)) as [Hi|Hi].
  - destruct ok; [destruct c|]; cbn [fst snd]; unfold record_of; cbn; rewrite Hi in *; rewrite Hm, lookup_insert_eq;
      by eapply cm_finish.
  - destruct ok; [destruct c|]; cbn [fst snd]; rewrite set_challenges_other by done; untouched.
Qed.

Lemma consume_move id s b now :
  challenge_move id (OpConsumeStepUp b now) (OutBool (consume_step_up s b now).1)
    (record_of id s) (record_of id (consume_step_up s b now).2).
Proof.
  unfold consume_step_up. destruct (s.(challenges) !! b.(su_challenge_id)) as [m|] eqn:Hm; [|untouched].
  destruct (_ || negb _) eqn:E; [untouched|]. split_bools.
  destruct (ch_purpose (mc_challenge m)) as [|p] eqn:Hp; [done|]. split_bools. subst p.
  destruct (decide (b.(su_challenge_id) = id)) as [Hi|Hi]; [|cbn [fst snd]; rewrite set_challenges_other by done; untouched].
  unfold record_of. cbn. rewrite Hi in *. rewrite Hm, lookup_insert_eq. apply cm_consume; first [done|lia].
Qed.

Lemma eph_challenge_move cid s op :
  challenge_move cid op (eph_step s op).1 (record_of cid s) (record_of cid (eph_step s op).2).
Proof.
  destruct op; cbn [eph_step prod_map fst snd id];
    try apply begin_challenge_move; try apply finish_challenge_move; try apply consume_move.
  - unfold put_pending_totp_enrollment. repeat case_match; untouched.
  - unfold begin_pending_totp_enrollment_attempt. repeat case_match; untouched.
  - unfold finish_pending_totp_enrollment_attempt. repeat case_match; untouched.
  - unfold abort_pending_totp_enrollment_attempt. repeat case_match; untouched.
  - unfold remove_pending_totp_enrollment. repeat case_match; untouched.
  - unfold record_nonce. repeat case_match; untouched.
  - unfold login_failure_state. repeat case_match; untouched.
  - unfold record_login_failure. repeat case_match; untouched.
  - untouched.
  - unfold put_challenge. case_bool_decide as H; [untouched|]. cbn [prod_map fst snd id].
    destruct (decide (c.(ch_challenge_id) = cid)) as [Hi|Hi]; [|rewrite set_challenges_other by done; untouched].
    unfold record_of. cbn. rewrite Hi in *. rewrite lookup_insert_eq, (proj2 (eq_None_not_Some _)) by done.
    by apply cm_put.
  - unfold abort_challenge_attempt. destruct (s.(challenges) !! _) as [m|] eqn:Hm; [|untouched].
    case_bool_decide; [|untouched].
    destruct (decide (a.(ca_challenge).(ch_challenge_id) = cid)) as [Hi|Hi]; [|rewrite set_challenges_other by done; untouched].
    unfold record_of. cbn. rewrite Hi in *. rewrite Hm, lookup_insert_eq. apply cm_abort.
Qed.

(** The number of answers of a run that satisfy a test. *)
Definition count (f : EphOp → EphOut → bool) (ops : list EphOp) (outs : list EphOut) : nat :=
  sum_list (zip_with (λ op out, if f op out then 1%nat else 0%nat) ops outs).

(** The factor presented for challenge [cid] was judged, right or wrong. *)
Definition judged (cid : rstr) (op : EphOp) (out : EphOut) : bool :=
  match op, out with
  | OpFinishChallenge a _ _ _, OutChallenge (Some _) => a.(ca_challenge).(ch_challenge_id) =! cid
  | _, _ => false
  end.

(** Challenge [cid] was used up: a login went through, or a step-up was spent. *)
Definition used (cid : rstr) (op : EphOp) (out : EphOut) : bool :=
  match op, out with
  | OpFinishChallenge a true true _, OutChallenge (Some _) => a.(ca_challenge).(ch_challenge_id) =! cid
  | OpConsumeStepUp b _, OutBool true => b.(su_challenge_id) =! cid
  | _, _ => false
  end.

(** Challenge [cid] was verified, and not used up in the same operation. *)
Definition verified (cid : rstr) (op : EphOp) (out : EphOut) : bool :=
  match op, out with
  | OpFinishChallenge a true false _, OutChallenge (Some _) => a.(ca_challenge).(ch_challenge_id) =! cid
  | _, _ => false
  end.

Definition puts (cid : rstr) (op : EphOp) : Prop :=
  match op with OpPutChallenge c => c.(ch_challenge_id) = cid | _ => False end.

(** What is left of a challenge: attempts, and uses. *)
Definition attempts_left (r : option MemoryChallenge) : nat :=
  match r with
  | Some m => match m.(mc_status) with
              | CIssued => Z.to_nat m.(mc_challenge).(ch_attempts_remaining) | _ => 0%nat end
  | None => 0%nat
  end.

Definition uses_left (r : option MemoryChallenge) : nat :=
  match r with
  | Some m => match m.(mc_status) with CIssued | CVerified => 1%nat | _ => 0%nat end
  | None => 0%nat
  end.

(** An attempt under way has an attempt to lose. *)
Definition lease_backed (r : option MemoryChallenge) : Prop :=
  ∀ m, r = Some m → m.(mc_status) = CIssued → is_Some m.(mc_lease) → 1 ≤ m.(mc_challenge).(ch_attempts_remaining).

Definition attempts_typed (r : option MemoryChallenge) : Prop :=
  ∀ m, r = Some m → 0 ≤ m.(mc_challenge).(ch_attempts_remaining).

Lemma judged_inv cid op out :
  judged cid op out = true →
  ∃ a accepted consume now x, op = OpFinishChallenge a accepted consume now ∧ out = OutChallenge (Some x) ∧
    a.(ca_challenge).(ch_challenge_id) = cid.
Proof. destruct op, out as [| | | | | |[]]; cbn; try done. intros H%bool_decide_eq_true. eauto 10. Qed.

Lemma used_inv cid op out :
  used cid op out = true →
  (∃ a now x, op = OpFinishChallenge a true true now ∧ out = OutChallenge (Some x) ∧
     a.(ca_challenge).(ch_challenge_id) = cid) ∨
  (∃ b now, op = OpConsumeStepUp b now ∧ out = OutBool true ∧ b.(su_challenge_id) = cid).
Proof.
  destruct op as [| | | | | | | | | | |a [] []| |b]; cbn; try done;
    (destruct out as [[]| | | | | |[]]; try done); intros H%bool_decide_eq_true; [left|right]; eauto 10.
Qed.

Lemma move_costs cid op out r r' :
  challenge_move cid op out r r' → ¬ puts cid op → lease_backed r → attempts_typed r →
  lease_backed r' ∧ attempts_typed r' ∧
  ((if judged cid op out then 1 else 0) + attempts_left r' ≤ attempts_left r)%nat ∧
  ((if used cid op out then 1 else 0) + uses_left r' ≤ uses_left r)%nat.
Proof.
  intros Hm Hp Hl Ht. destruct Hm as [op out r H1 H2|c Hc|k now t acc m|k now t m Hs Ha|a okb cb now m c' st Hi Hs Hle Hc' Hst|a m|b now m Hi Hs Hx].
  - split; [done|]. split; [done|].
    assert (judged cid op out = false ∧ used cid op out = false) as [-> ->]; [|done].
    split; apply not_true_is_false; intros H.
    + apply judged_inv in H as (a & okb & cb & now & x & -> & -> & Hi). by eapply H1.
    + apply used_inv in H as [(a & now & x & -> & -> & Hi)|(b & now & -> & -> & Hi)]; [by eapply H1|by eapply H2].
  - by destruct Hp.
  - split_and!; first [done|cbn; lia].
  - specialize (Ht m eq_refl). split; [intros ? [= <-] _ _; cbn; lia|]. split; [intros ? [= <-]; done|].
    cbn. rewrite Hs. lia.
  - specialize (Hl m eq_refl Hs). specialize (Ht m eq_refl).
    assert (1 ≤ ch_attempts_remaining (mc_challenge m)) as Hn.
    { apply Hl. destruct (mc_lease m); [eauto|done]. }
    cbn [attempts_left uses_left judged used mc_status mc_challenge]. rewrite Hs.
    split; [intros ? [= <-] _ []%is_Some_None|]. subst c' st. unfold sat_sub.
    split; [intros ? [= <-]; destruct okb; cbn; lia|].
    rewrite (bool_decide_eq_true_2 (_ = cid)) by done.
    destruct okb; [destruct cb; cbn; lia|]. cbn [with_progress ch_attempts_remaining].
    destruct (_ =? 0) eqn:E; split; lia.
  - split; [intros ? [= <-] _ []%is_Some_None|]. split; [intros ? [= <-]; cbn; by apply Ht|]. done.
  - cbn [attempts_left uses_left judged used mc_status]. rewrite Hs.
    split; [intros ? [= <-]; done|]. split; [intros ? [= <-]; cbn; by apply Ht|].
    case_bool_decide; lia.
Qed.

Lemma run_costs cid s ops :
  Forall (λ op, ¬ puts cid op) ops → lease_backed (record_of cid s) → attempts_typed (record_of cid s) →
  (count (judged cid) ops (runs eph_step s ops).1 ≤ attempts_left (record_of cid s))%nat ∧
  (count (used cid) ops (runs eph_step s ops).1 ≤ uses_left (record_of cid s))%nat.
Proof.
  intros Hp Hl Ht. rewrite Forall_forall in Hp.
  pose proof (runs_cost eph_step (λ s, lease_backed (record_of cid s) ∧ attempts_typed (record_of cid s))
    (λ op out, if judged cid op out then 1%nat else 0%nat) (λ s, attempts_left (record_of cid s)) s ops) as H1.
  pose proof (runs_cost eph_step (λ s, lease_backed (record_of cid s) ∧ attempts_typed (record_of cid s))
    (λ op out, if used cid op out then 1%nat else 0%nat) (λ s, uses_left (record_of cid s)) s ops) as H2.
  unfold count. split.
  - etrans; [|apply H1]; [apply Nat.le_add_r|done|]. intros s' op Hop [Hl' Ht'].
    destruct (move_costs _ _ _ _ _ (eph_challenge_move cid s' op) (Hp op Hop) Hl' Ht') as (? & ? & ? & ?). by split_and!.
  - etrans; [|apply H2]; [apply Nat.le_add_r|done|]. intros s' op Hop [Hl' Ht'].
    destruct (move_costs _ _ _ _ _ (eph_challenge_move cid s' op) (Hp op Hop) Hl' Ht') as (? & ? & ? & ?). by split_and!.
Qed.

Lemma put_challenge_record s c s' :
  put_challenge s c = (true, s') →
  record_of c.(ch_challenge_id) s' = Some {| mc_challenge := c; mc_status := CIssued; mc_lease := None |}.
Proof.
  unfold put_challenge. case_bool_decide; [done|]. intros [= <-]. unfold record_of. cbn. by rewrite lookup_insert_eq.
Qed.

(** A challenge cannot be guessed or used more often than it allows: after
    it is issued, whatever operations follow in whatever order and at whatever
    times (its identifier is not issued again), at most as many factors are
    judged for it as it has attempts, right ones included, and it is used up at
    most once. *)
Theorem challenge_attempts_bounded s c s' ops :
  put_challenge s c = (true, s') → 0 ≤ c.(ch_attempts_remaining) →
  Forall (λ op, ¬ puts c.(ch_challenge_id) op) ops →
  Z.of_nat (count (judged c.(ch_challenge_id)) ops (runs eph_step s' ops).1) ≤ c.(ch_attempts_remaining) ∧
  (count (used c.(ch_challenge_id)) ops (runs eph_step s' ops).1 ≤ 1)%nat.
Proof.
  intros Hput Ha Hp. apply put_challenge_record in Hput.
  destruct (run_costs c.(ch_challenge_id) s' ops Hp) as [H1 H2].
  - rewrite Hput. intros m [= <-] _ []%is_Some_None.
  - rewrite Hput. by intros m [= <-].
  - rewrite Hput in H1, H2. cbn in H1, H2. split; lia.
Qed.

(** ** What a spent step-up rests on *)

Section provenance.
Context (cid : rstr) (c : AuthChallenge) (s0 : MemoryState).

(** In a run from [s0], an attempt under lease token [t] was started. *)
Definition started (ops : list EphOp) (t : rstr) : Prop :=
  ∃ l1 kind now l2 x, ops = l1 ++ OpBeginChallenge cid kind now t :: l2 ∧
    (eph_step (runs eph_step s0 l1).2 (OpBeginChallenge cid kind now t)).1 = OutStart (Started x).

(** An attempt that was started was judged right. *)
Definition confirmed (ops : list EphOp) : Prop :=
  ∃ l1 a now l2 x, ops = l1 ++ OpFinishChallenge a true false now :: l2 ∧
    a.(ca_challenge).(ch_challenge_id) = cid ∧ started l1 a.(ca_lease_token) ∧
    (eph_step (runs eph_step s0 l1).2 (OpFinishChallenge a true false now)).1 = OutChallenge (Some x).

(** What an attempt does not change of a challenge. *)
Definition same_terms (d : AuthChallenge) : Prop :=
  d.(ch_account_id) = c.(ch_account_id) ∧ d.(ch_device_id) = c.(ch_device_id) ∧
  d.(ch_purpose) = c.(ch_purpose) ∧ d.(ch_operation_binding_hash) = c.(ch_operation_binding_hash) ∧
  d.(ch_expires_at) = c.(ch_expires_at).

Definition traced (ops : list EphOp) (r : option MemoryChallenge) : Prop :=
  ∀ m, r = Some m → same_terms m.(mc_challenge) ∧
    (∀ t e, m.(mc_lease) = Some (t, e) → started ops t) ∧ (m.(mc_status) = CVerified → confirmed ops).

Lemma started_app ops op t : started ops t → started (ops ++ [op]) t.
Proof.
  intros (l1 & k & now & l2 & x & -> & H). exists l1, k, now, (l2 ++ [op]), x. split; [|done].
  by rewrite <-app_assoc.
Qed.

Lemma confirmed_app ops op : confirmed ops → confirmed (ops ++ [op]).
Proof.
  intros (l1 & a & now & l2 & x & -> & H). exists l1, a, now, (l2 ++ [op]), x. split; [|done].
  by rewrite <-app_assoc.
Qed.

Lemma traced_more ops op r : traced ops r → traced (ops ++ [op]) r.
Proof.
  intros H m Hm. destruct (H m Hm) as (Hs & Hl & Hv). split; [done|]. split.
  - intros t e Ht. by eapply started_app, Hl.
  - intros Hc. by apply confirmed_app, Hv.
Qed.

Lemma traced_move ops op r r' :
  ¬ puts cid op → challenge_move cid op (eph_step (runs eph_step s0 ops).2 op).1 r r' →
  traced ops r → traced (ops ++ [op]) r'.
Proof.
  intros Hp Hm Ht. apply (traced_more _ op) in Ht as Ht1. remember (eph_step _ op).1 as out eqn:Ho.
  destruct Hm as [op out r _ _|c0 Hc|k now t acc m|k now t m Hs Ha|a okb cb now m c' st Hi Hs Hle Hc' Hst|a m|b now m Hi Hs].
  - done.
  - by destruct Hp.
  - done.
  - intros ? [= <-]. destruct (Ht1 m eq_refl) as (Hsame & _ & _). split; [done|]. split; [|done].
    intros t' e [= <- _]. exists ops, k, now, []. by eexists.
  - intros ? [= <-]. destruct (Ht m eq_refl) as (Hsame & Hl & _). cbn.
    split; [by subst c'; destruct okb|]. split; [done|]. intros Hv. subst st.
    destruct okb; [|by destruct (_ =? 0)]. destruct cb; [done|].
    destruct (mc_lease m) as [[t e]|]; [|done]. injection Hle as ->.
    exists ops, a, now, []. eexists. split; [done|]. split; [done|]. split; [by eapply Hl|]. by rewrite <-Ho.
  - intros ? [= <-]. destruct (Ht1 m eq_refl) as (Hsame & _ & Hv). done.
  - intros ? [= <-]. destruct (Ht1 m eq_refl) as (Hsame & Hl & _). done.
Qed.

Lemma traced_run ops :
  Forall (λ op, ¬ puts cid op) ops → traced [] (record_of cid s0) → traced ops (record_of cid (runs eph_step s0 ops).2).
Proof.
  intros Hp H0. induction ops as [|op ops IH] using rev_ind; [done|].
  apply Forall_app in Hp as [Hp [Hop _]%Forall_cons]. rewrite runs_app. cbn [snd]. rewrite runs_cons. cbn [runs snd].
  eapply traced_move; [done|apply eph_challenge_move|by apply IH].
Qed.
End provenance.

(** A step-up is granted only for what was verified: when a step-up
    challenge is spent after any run, the account, device, purpose and operation
    it is spent on are those it was issued for, it has not expired, and in the
    run an attempt was started for it and judged right under the lease of that
    attempt. *)
Theorem step_up_needs_verification s c s' ops b now :
  put_challenge s c = (true, s') → Forall (λ op, ¬ puts c.(ch_challenge_id) op) ops →
  b.(su_challenge_id) = c.(ch_challenge_id) →
  (consume_step_up (runs eph_step s' ops).2 b now).1 = true →
  now < c.(ch_expires_at) ∧ c.(ch_account_id) = b.(su_account_id) ∧
  c.(ch_device_id) = Some b.(su_device_id) ∧ c.(ch_purpose) = StepUp b.(su_purpose) ∧
  c.(ch_operation_binding_hash) = Some b.(su_operation_binding_hash) ∧
  confirmed c.(ch_challenge_id) s' ops.
Proof.
  intros Hput Hp Hb Hc. apply put_challenge_record in Hput.
  pose proof (traced_run c.(ch_challenge_id) c s' ops Hp) as Ht. rewrite Hput in Ht.
  assert (traced c.(ch_challenge_id) c s' [] (Some {| mc_challenge := c; mc_status := CIssued; mc_lease := None |})) as H0
    by (by intros m [= <-]).
  specialize (Ht H0). clear H0.
  pose proof (consume_move c.(ch_challenge_id) (runs eph_step s' ops).2 b now) as Hm. rewrite Hc in Hm.
  inversion Hm as [op out r H1 H2| | | | | |b' n' m Hi Hs Hx Ha Hd Ho Hpu]; subst.
  { by destruct (H2 b now eq_refl eq_refl). }
  destruct (Ht m) as ((E1 & E2 & E3 & E4 & E5) & _ & Hv); [done|].
  rewrite E1, E2, E3, E4, E5 in *. split_and!; try done. by apply Hv.
Qed.

(** ** Pending enrolments over a run *)

Definition enrollment_of (acc : rstr) (s : MemoryState) : option MemoryPendingTotpEnrollment :=
  s.(pending_totp_enrollments) !! acc.

Definition enrolls (acc : rstr) (op : EphOp) : Prop :=
  match op with OpPutEnrollment e _ => e.(te_account_id) = acc | _ => False end.

(** A code presented for the enrolment of [acc] was judged; it was judged right. *)
Definition enrollment_judged (acc : rstr) (op : EphOp) (out : EphOut) : bool :=
  match op, out with
  | OpFinishEnrollment a _ _, OutEnrollment (Some _) => a.(ta_enrollment).(te_account_id) =! acc
  | _, _ => false
  end.

Definition enrollment_accepted (acc : rstr) (op : EphOp) (out : EphOut) : bool :=
  match op, out with
  | OpFinishEnrollment a true _, OutEnrollment (Some _) => a.(ta_enrollment).(te_account_id) =! acc
  | _, _ => false
  end.

Definition codes_left (r : option MemoryPendingTotpEnrollment) : nat :=
  match r with Some m => Z.to_nat m.(mp_enrollment).(te_attempts_remaining) | None => 0%nat end.

Definition enrollments_left (r : option MemoryPendingTotpEnrollment) : nat :=
  match r with Some _ => 1%nat | None => 0%nat end.

Definition enrollment_backed (r : option MemoryPendingTotpEnrollment) : Prop :=
  ∀ m, r = Some m → 0 ≤ m.(mp_enrollment).(te_attempts_remaining) ∧
    (is_Some m.(mp_lease) → 1 ≤ m.(mp_enrollment).(te_attempts_remaining)).

(** The effect of an operation on the enrolment of [acc], and what it pays for. *)
Definition enrollment_pays (acc : rstr) (op : EphOp) (out : EphOut) (r r' : option MemoryPendingTotpEnrollment) : Prop :=
  enrollment_backed r' ∧
  ((if enrollment_judged acc op out then 1 else 0) + codes_left r' ≤ codes_left r)%nat ∧
  ((if enrollment_accepted acc op out then 1 else 0) + enrollments_left r' ≤ enrollments_left r)%nat.

Lemma enrollment_kept acc op out r :
  enrollment_judged acc op out = false → enrollment_backed r → enrollment_pays acc op out r r.
Proof.
  intros Hj Hb. unfold enrollment_pays. rewrite Hj.
  assert (enrollment_accepted acc op out = false) as ->; [|done].
  by destruct op as [| |a []| | | | | | | | | | |], out as [| | |[]| | |].
Qed.

Lemma enrollment_removed acc op out r :
  enrollment_judged acc op out = false → enrollment_pays acc op out r None.
Proof.
  intros Hj. unfold enrollment_pays. rewrite Hj.
  assert (enrollment_accepted acc op out = false) as ->; [|split_and!; [done|cbn; lia..]].
  by destruct op as [| |a []| | | | | | | | | | |], out as [| | |[]| | |].
Qed.

Lemma enrollment_other acc k m s :
  k ≠ acc → enrollment_of acc (set_enrollments s (<[k := m]> s.(pending_totp_enrollments))) = enrollment_of acc s.
Proof. intros H. unfold enrollment_of. cbn. by rewrite lookup_insert_ne. Qed.

Lemma enrollment_delete acc k s :
  enrollment_of acc (set_enrollments s (delete k s.(pending_totp_enrollments))) =
  if decide (k = acc) then None else enrollment_of acc s.
Proof.
  unfold enrollment_of. cbn. case_decide as H; [subst; apply lookup_delete_eq|by rewrite lookup_delete_ne].
Qed.

Lemma finish_enrollment_pays acc s a ok now :
  enrollment_backed (enrollment_of acc s) →
  enrollment_pays acc (OpFinishEnrollment a ok now) (OutEnrollment (finish_pending_totp_enrollment_attempt s a ok now).1)
    (enrollment_of acc s) (enrollment_of acc (finish_pending_totp_enrollment_attempt s a ok now).2).
Proof.
  intros Hb. unfold finish_pending_totp_enrollment_attempt.
  destruct (s.(pending_totp_enrollments) !! _) as [m|] eqn:Hm; [|by apply enrollment_kept].
  case_bool_decide; cbn [negb]; [|by apply enrollment_kept].
  destruct (_ <=? now).
  { cbn [fst snd]. rewrite enrollment_delete. case_decide; [by apply enrollment_removed|by apply enrollment_kept]. }
  destruct (mp_lease m) as [[t e]|] eqn:Hl; [|by apply enrollment_kept].
  destruct (_ && _); cbn [negb]; [|by apply enrollment_kept].
  destruct (decide (a.(ta_enrollment).(te_account_id) = acc)) as [Hi|Hi].
  - assert (enrollment_of acc s = Some m) as Ha by (unfold enrollment_of; by rewrite <-Hi).
    destruct (Hb m Ha) as [Hn H1]. rewrite Hl in H1. specialize (H1 (mk_is_Some _ _ eq_refl)).
    unfold enrollment_pays. rewrite Ha. cbn [codes_left enrollments_left].
    destruct ok; cbn [orb fst snd enrollment_judged enrollment_accepted];
      rewrite (bool_decide_eq_true_2 (_ = acc)) by done.
    + rewrite enrollment_delete, decide_True by done. cbn. split_and!; [done|lia..].
    + cbn [with_enrollment_attempts te_attempts_remaining]. unfold sat_sub.
      destruct (_ =? 0) eqn:E; cbn [fst snd].
      * rewrite enrollment_delete, decide_True by done. cbn. split_and!; [done|lia..].
      * unfold enrollment_of. cbn. rewrite Hi, lookup_insert_eq. cbn.
        split_and!; [|lia..]. intros ? [= <-]. cbn. split; [lia|]. intros []%is_Some_None.
  - set (r := if ok then _ else _).
    assert (enrollment_judged acc (OpFinishEnrollment a ok now) (OutEnrollment (Some r)) = false) as Hj
      by (cbn; by apply bool_decide_eq_false).
    destruct (ok || _); cbn [fst snd].
    + rewrite enrollment_delete, decide_False by done. by apply enrollment_kept.
    + rewrite enrollment_other by done. by apply enrollment_kept.
Qed.

Lemma begin_enrollment_pays acc s k f now t :
  enrollment_backed (enrollment_of acc s) →
  enrollment_pays acc (OpBeginEnrollment k f now t)
    (OutEnrollmentAttempt (begin_pending_totp_enrollment_attempt s k f now t).1)
    (enrollment_of acc s) (enrollment_of acc (begin_pending_totp_enrollment_attempt s k f now t).2).
Proof.
  intros Hb. unfold begin_pending_totp_enrollment_attempt.
  destruct (s.(pending_totp_enrollments) !! k) as [m|] eqn:Hm; [|by apply enrollment_kept].
  case_bool_decide; cbn [negb]; [|by apply enrollment_kept].
  destruct (_ || _) eqn:E.
  { cbn [fst snd]. rewrite enrollment_delete. case_decide; [by apply enrollment_removed|by apply enrollment_kept]. }
  split_bools. destruct (lease_active _ _); [by apply enrollment_kept|]. cbn [fst snd].
  destruct (decide (k = acc)) as [->|Hk]; [|rewrite enrollment_other by done; by apply enrollment_kept].
  unfold enrollment_of in *. cbn. rewrite lookup_insert_eq, Hm in *. destruct (Hb m eq_refl) as [Hn _].
  split_and!; [|cbn; lia..]. intros ? [= <-]. cbn. split; [done|]. intros _. lia.
Qed.

Lemma eph_enrollment_pays acc s op :
  ¬ enrolls acc op → enrollment_backed (enrollment_of acc s) →
  enrollment_pays acc op (eph_step s op).1 (enrollment_of acc s) (enrollment_of acc (eph_step s op).2).
Proof.
  intros Hp Hb. destruct op; cbn [eph_step prod_map fst snd id];
    try (by apply begin_enrollment_pays); try (by apply finish_enrollment_pays); try (by apply enrollment_kept).
  - unfold put_pending_totp_enrollment. destruct (s.(pending_totp_enrollments) !! _) as [m|];
      [destruct (_ <? _); [by apply enrollment_kept|]|]; cbn [prod_map fst snd id];
      rewrite enrollment_other by done; by apply enrollment_kept.
  - unfold abort_pending_totp_enrollment_attempt.
    destruct (s.(pending_totp_enrollments) !! _) as [m|] eqn:Hm; [|by apply enrollment_kept].
    destruct (_ || _); [by apply enrollment_kept|]. cbn [prod_map fst snd id].
    destruct (decide (a.(ta_enrollment).(te_account_id) = acc)) as [Hi|Hi];
      [|rewrite enrollment_other by done; by apply enrollment_kept].
    unfold enrollment_of in *. cbn. rewrite Hi in *. rewrite lookup_insert_eq, Hm in *.
    split_and!; [|cbn; lia..]. intros ? [= <-]. cbn. destruct (Hb m eq_refl) as [Hn _]. split; [done|]. intros []%is_Some_None.
  - unfold remove_pending_totp_enrollment. destruct (s.(pending_totp_enrollments) !! _) as [m|] eqn:Hm; [|by apply enrollment_kept].
    case_bool_decide; cbn [negb prod_map fst snd id]; [|by apply enrollment_kept].
    rewrite enrollment_delete. case_decide; [by apply enrollment_removed|by apply enrollment_kept].
  - unfold record_nonce. case_bool_decide; by apply enrollment_kept.
  - unfold login_failure_state. repeat case_match; by apply enrollment_kept.
  - unfold record_login_failure. repeat case_match; by apply enrollment_kept.
  - unfold put_challenge. case_bool_decide; by apply enrollment_kept.
  - unfold begin_challenge_attempt. repeat case_match; by apply enrollment_kept.
  - unfold finish_challenge_attempt. repeat case_match; by apply enrollment_kept.
  - unfold abort_challenge_attempt. repeat case_match; by apply enrollment_kept.
  - unfold consume_step_up. repeat case_match; by apply enrollment_kept.
Qed.

(** The code of a new second factor cannot be guessed more often than its
    enrolment allows: after an enrolment is stored, whatever operations follow (no
    other enrolment of the account is stored), at most as many codes are judged as
    it has attempts, and at most one is accepted. *)
Theorem enrollment_attempts_bounded s e now s' ops :
  put_pending_totp_enrollment s e now = (true, s') → 0 ≤ e.(te_attempts_remaining) →
  Forall (λ op, ¬ enrolls e.(te_account_id) op) ops →
  Z.of_nat (count (enrollment_judged e.(te_account_id)) ops (runs eph_step s' ops).1) ≤ e.(te_attempts_remaining) ∧
  (count (enrollment_accepted e.(te_account_id)) ops (runs eph_step s' ops).1 ≤ 1)%nat.
Proof.
  intros Hput Ha Hp. rewrite Forall_forall in Hp.
  assert (enrollment_of e.(te_account_id) s' = Some {| mp_enrollment := e; mp_lease := None |}) as He.
  { unfold put_pending_totp_enrollment in Hput. unfold enrollment_of.
    repeat case_match; simplify_eq; cbn; by rewrite lookup_insert_eq. }
  assert (enrollment_backed (enrollment_of e.(te_account_id) s')) as Hb
    by (rewrite He; intros m [= <-]; split; [done|intros []%is_Some_None]).
  pose proof (runs_cost eph_step (λ s, enrollment_backed (enrollment_of e.(te_account_id) s))
    (λ op out, if enrollment_judged e.(te_account_id) op out then 1%nat else 0%nat)
    (λ s, codes_left (enrollment_of e.(te_account_id) s)) s' ops Hb) as H1.
  pose proof (runs_cost eph_step (λ s, enrollment_backed (enrollment_of e.(te_account_id) s))
    (λ op out, if enrollment_accepted e.(te_account_id) op out then 1%nat else 0%nat)
    (λ s, enrollments_left (enrollment_of e.(te_account_id) s)) s' ops Hb) as H2.
  cbn beta in H1, H2. rewrite He in H1, H2. unfold count. cbn [codes_left enrollments_left mp_enrollment] in H1, H2.
  split.
  - etrans; [apply Nat2Z.inj_le; etrans; [apply Nat.le_add_r|apply H1]|lia].
    intros s1 op Hop Hb1. by destruct (eph_enrollment_pays _ s1 op (Hp op Hop) Hb1) as (? & ? & ?).
  - etrans; [apply Nat.le_add_r|apply H2].
    intros s1 op Hop Hb1. by destruct (eph_enrollment_pays _ s1 op (Hp op Hop) Hb1) as (? & ? & ?).
Qed.

(** ** The login gate *)

Definition MAX_LOGIN_FAILURES : Z := 5.
Definition LOCK_MILLIS : Z := 60000.
Definition LOGIN_FAILURE_STATE_TTL_MILLIS : Z := 15 * 60000.

(** The part of [login] around the password: [active] tells that the account
    exists and is active, [password_valid] that the password is right; [now] is
    the clock when the lock is read and [failed_now] when a failure is recorded. *)
Record LoginAttempt := {
  la_key : rstr; la_active : bool; la_password_valid : bool; la_now : Z; la_failed_now : Z }.

Inductive LoginGate := GatePassed | GateFailed (was_locked : bool).

Definition login_gate (s : MemoryState) (a : LoginAttempt) : LoginGate * MemoryState :=
  let '(failures, s) := login_failure_state s a.(la_key) a.(la_now) in
  let locked := is_locked_at failures a.(la_now) in
  if a.(la_active) && negb locked && a.(la_password_valid)
  then (GatePassed, clear_login_failures s a.(la_key))
  else (GateFailed locked, (record_login_failure s a.(la_key) a.(la_failed_now)
          MAX_LOGIN_FAILURES LOCK_MILLIS LOGIN_FAILURE_STATE_TTL_MILLIS).2).

(** The time is that of a clock in milliseconds, far from the end of [u64]. *)
Definition sane_time (t : Z) : Prop := 0 ≤ t ≤ 2 ^ 62.

(** Attempts one after the other: each is over before the next begins. *)
Definition one_by_one (l : list LoginAttempt) : Prop :=
  Forall (λ a, sane_time a.(la_now) ∧ a.(la_now) ≤ a.(la_failed_now) ∧ sane_time a.(la_failed_now)) l ∧
  ∀ i a b, l !! i = Some a → l !! S i = Some b → a.(la_failed_now) ≤ b.(la_now).

(** The password of an attempt for [key] was put to the test in [t, t + LOCK_MILLIS). *)
Definition tested_in (key : rstr) (t : Z) (a : LoginAttempt) (g : LoginGate) : bool :=
  (a.(la_key) =! key) && (match g with GateFailed true => false | _ => true end)
  && (t <=? a.(la_now)) && (a.(la_now) <? t + LOCK_MILLIS).

Definition tests (key : rstr) (t : Z) (l : list LoginAttempt) (gs : list LoginGate) : nat :=
  sum_list (zip_with (λ a g, if tested_in key t a g then 1%nat else 0%nat) l gs).

Definition failures_of (key : rstr) (s : MemoryState) : option MemoryLoginFailure := s.(login_failures) !! key.

(** The gate of another key leaves the entry of [key] alone. *)
Lemma login_gate_other key s a :
  a.(la_key) ≠ key → failures_of key (login_gate s a).2 = failures_of key s.
Proof.
  intros Hk. unfold login_gate, login_failure_state, record_login_failure, clear_login_failures, failures_of.
  repeat case_match; simplify_eq; cbn; rewrite ?lookup_delete_ne, ?lookup_insert_ne, ?lookup_delete_ne by done; done.
Qed.

(** An entry as [record_login_failure] writes it at time [t]. *)
Definition failure_at (n t : Z) : MemoryLoginFailure := {|
  ml_attempts := (if MAX_LOGIN_FAILURES <=? n then 0 else n);
  ml_locked_until := (if MAX_LOGIN_FAILURES <=? n then Some (t + LOCK_MILLIS) else None);
  ml_expires_at := t + LOGIN_FAILURE_STATE_TTL_MILLIS |}.

(** Every entry was written by some failure, of at least one attempt. *)
Definition entry_ok (r : option MemoryLoginFailure) : Prop :=
  ∀ v, r = Some v → ∃ n t, 1 ≤ n ≤ MAX_LOGIN_FAILURES ∧ sane_time t ∧ v = failure_at n t.

(** The failures counted by an attempt that is let through to the test. *)
Definition counted (r : option MemoryLoginFailure) (now failed_now : Z) : Z :=
  match r with
  | Some v => if v.(ml_expires_at) <=? now then 0
              else match v.(ml_locked_until) with
                   | None => if failed_now <? v.(ml_expires_at) then v.(ml_attempts) else 0
                   | Some _ => 0 end
  | None => 0
  end.

Definition locked_at (r : option MemoryLoginFailure) (now : Z) : bool :=
  match r with
  | Some v => negb (v.(ml_expires_at) <=? now) && (match v.(ml_locked_until) with Some u => now <? u | None => false end)
  | None => false
  end.

(** The entry after a wrong attempt. *)
Definition after_wrong (r : option MemoryLoginFailure) (now failed_now : Z) : option MemoryLoginFailure :=
  match r with
  | Some v =>
      match v.(ml_locked_until) with
      | Some u => if negb (v.(ml_expires_at) <=? now) && (failed_now <? u) then r
                  else Some (failure_at 1 failed_now)
      | None => Some (failure_at (1 + counted r now failed_now) failed_now)
      end
  | None => Some (failure_at 1 failed_now)
  end.

Lemma failure_at_entry n t : 1 ≤ n ≤ MAX_LOGIN_FAILURES → sane_time t → entry_ok (Some (failure_at n t)).
Proof. intros Hn Ht v [= <-]. by exists n, t. Qed.

Lemma record_failure_entry s key now n :
  0 ≤ n < MAX_LOGIN_FAILURES → sane_time now →
  failures_of key (set_login_failures s (<[key := {|
     ml_attempts := (if MAX_LOGIN_FAILURES <=? sat_add 8 n 1 then 0 else sat_add 8 n 1);
     ml_locked_until := (if MAX_LOGIN_FAILURES <=? sat_add 8 n 1 then Some (sat_add 64 now LOCK_MILLIS) else None);
     ml_expires_at := sat_add 64 now LOGIN_FAILURE_STATE_TTL_MILLIS |}]> s.(login_failures)))
  = Some (failure_at (1 + n) now).
Proof.
  unfold sane_time, MAX_LOGIN_FAILURES, LOCK_MILLIS, LOGIN_FAILURE_STATE_TTL_MILLIS. intros Hn Ht.
  unfold failures_of. cbn. rewrite lookup_insert_eq. unfold failure_at, MAX_LOGIN_FAILURES, LOCK_MILLIS, LOGIN_FAILURE_STATE_TTL_MILLIS.
  rewrite !sat_add_small by lia. by rewrite (Z.add_comm n 1).
Qed.

Lemma entry_attempts r v : entry_ok r → r = Some v → 0 ≤ v.(ml_attempts) < MAX_LOGIN_FAILURES.
Proof.
  intros H Hv. destruct (H v Hv) as (n & t & Hn & _ & ->). unfold failure_at, MAX_LOGIN_FAILURES in *. cbn.
  destruct (5 <=? n) eqn:E; lia.
Qed.

Lemma record_login_failure_entry s key now :
  entry_ok (failures_of key s) → sane_time now →
  failures_of key (record_login_failure s key now MAX_LOGIN_FAILURES LOCK_MILLIS LOGIN_FAILURE_STATE_TTL_MILLIS).2 =
  match failures_of key s with
  | Some v =>
      match v.(ml_locked_until) with
      | Some u => if now <? u then Some v else Some (failure_at 1 now)
      | None => Some (failure_at (1 + if now <? v.(ml_expires_at) then v.(ml_attempts) else 0) now)
      end
  | None => Some (failure_at 1 now)
  end.
Proof.
  intros Hok Hn. unfold record_login_failure. destruct (failures_of key s) as [v|] eqn:Hr; unfold failures_of in Hr.
  - pose proof (entry_attempts _ v Hok eq_refl) as Ha. rewrite Hr.
    destruct (ml_locked_until v) as [u|] eqn:Hu.
    + destruct (now <? u); [by unfold failures_of|]. cbn [mbind option_bind]. rewrite Hu.
      replace (default 0 (if now <? ml_expires_at v then None else None)) with 0 by (by destruct (now <? _)).
      by apply (record_failure_entry s key now 0).
    + cbn [mbind option_bind]. rewrite Hu.
      replace (default 0 (if now <? ml_expires_at v then Some (ml_attempts v) else None))
        with (if now <? ml_expires_at v then ml_attempts v else 0) by (by destruct (now <? _)).
      apply record_failure_entry; [|done]. destruct (now <? _); [done|]. unfold MAX_LOGIN_FAILURES. lia.
  - rewrite Hr. by apply (record_failure_entry s key now 0).
Qed.

Lemma failures_deleted key s : failures_of key (set_login_failures s (delete key s.(login_failures))) = None.
Proof. unfold failures_of. cbn. apply lookup_delete_eq. Qed.

(** A wrong attempt: refused unseen while the account is locked, and counted
    otherwise. *)
Lemma login_gate_wrong s a :
  entry_ok (failures_of a.(la_key) s) → sane_time a.(la_failed_now) → a.(la_active) && a.(la_password_valid) = false →
  let r := failures_of a.(la_key) s in
  (login_gate s a).1 = GateFailed (locked_at r a.(la_now)) ∧
  failures_of a.(la_key) (login_gate s a).2 = after_wrong r a.(la_now) a.(la_failed_now).
Proof.
  intros Hok Hf Hw. cbn zeta. unfold login_gate, login_failure_state.
  assert (∀ b, a.(la_active) && negb b && a.(la_password_valid) = false) as Hgate
    by (intros []; destruct (la_active a), (la_password_valid a); done).
  destruct (failures_of a.(la_key) s) as [v|] eqn:Hr; unfold failures_of in Hr; rewrite Hr.
  - cbn [locked_at after_wrong counted]. destruct (ml_expires_at v <=? la_now a).
    + rewrite Hgate. split; [done|]. cbn [snd]. rewrite record_login_failure_entry, failures_deleted by (rewrite ?failures_deleted; done).
      by destruct (ml_locked_until v).
    + rewrite Hgate. split; [done|]. cbn [snd].
      rewrite record_login_failure_entry; unfold failures_of; rewrite ?Hr; [|done..].
      cbn [negb andb]. by destruct (ml_locked_until v); destruct (_ <? _).
  - rewrite Hgate. split; [done|]. cbn [snd]. rewrite record_login_failure_entry; unfold failures_of; rewrite ?Hr; done.
Qed.

Lemma after_wrong_ok r now failed_now : entry_ok r → sane_time failed_now → entry_ok (after_wrong r now failed_now).
Proof.
  intros Hok Hs. unfold after_wrong. destruct r as [v|]; [|by apply failure_at_entry].
  destruct (ml_locked_until v) as [u|] eqn:Hu.
  - destruct (_ && _); [done|]. by apply failure_at_entry.
  - pose proof (entry_attempts _ v Hok eq_refl) as Ha. apply failure_at_entry; [|done].
    cbn [counted]. rewrite Hu. unfold MAX_LOGIN_FAILURES in *. repeat case_match; lia.
Qed.

(** Since [t0], [k] wrong passwords have been tested; before the next attempt, at
    [lo] at the earliest. *)
Definition window (k t0 lo : Z) (r : option MemoryLoginFailure) : Prop :=
  t0 + LOCK_MILLIS ≤ lo ∨ ∃ n t, r = Some (failure_at n t) ∧ t0 ≤ t ∧ k ≤ n ≤ MAX_LOGIN_FAILURES.

Lemma window_wrong k t0 lo r now failed_now :
  0 ≤ k → t0 ≤ lo → window k t0 lo r → lo ≤ now → now ≤ failed_now → now < t0 + LOCK_MILLIS →
  (locked_at r now = true → window k t0 failed_now (after_wrong r now failed_now)) ∧
  (locked_at r now = false → k < MAX_LOGIN_FAILURES ∧ window (k + 1) t0 failed_now (after_wrong r now failed_now)).
Proof.
  intros Hk Ht0 [H|(n & t & -> & Ht & Hn)] Hlo Hle Hnow; [lia|].
  unfold window, locked_at, after_wrong, counted, failure_at, MAX_LOGIN_FAILURES, LOCK_MILLIS, LOGIN_FAILURE_STATE_TTL_MILLIS in *.
  cbn [ml_locked_until ml_expires_at ml_attempts].
  assert ((t + 15 * 60000 <=? now) = false) as -> by lia. cbn [negb andb].
  destruct (Z.leb_spec 5 n) as [H5|H5].
  - assert (n = 5) as -> by lia. assert ((now <? t + 60000) = true) as -> by lia. split; [intros _|done].
    destruct (Z.ltb_spec failed_now (t + 60000)); [right; by exists 5, t|left; lia].
  - split; [done|]. intros _. split; [lia|].
    destruct (Z.ltb_spec failed_now (t + 15 * 60000)); [|left; lia].
    right. exists (1 + n), failed_now. split; [done|]. lia.
Qed.

Lemma tested_counts r now failed_now :
  entry_ok r → now ≤ failed_now → locked_at r now = false →
  ∃ n, after_wrong r now failed_now = Some (failure_at n failed_now) ∧ 1 ≤ n ≤ MAX_LOGIN_FAILURES.
Proof.
  intros Hok Hle Hl. unfold after_wrong, locked_at in *.
  assert (1 ≤ 1 ≤ MAX_LOGIN_FAILURES) as H1 by (unfold MAX_LOGIN_FAILURES; lia).
  destruct r as [v|]; [|by exists 1]. destruct (ml_locked_until v) as [u|] eqn:Hu.
  - destruct (negb _ && (failed_now <? u)) eqn:E; [|by exists 1]. split_bools. lia.
  - pose proof (entry_attempts _ v Hok eq_refl). eexists. split; [done|]. cbn [counted]. rewrite Hu.
    unfold MAX_LOGIN_FAILURES in *. repeat case_match; lia.
Qed.

Definition wrong_for (key : rstr) (a : LoginAttempt) : Prop :=
  a.(la_key) = key → a.(la_active) && a.(la_password_valid) = false.

Lemma one_by_one_cons a l :
  one_by_one (a :: l) →
  (sane_time a.(la_now) ∧ a.(la_now) ≤ a.(la_failed_now) ∧ sane_time a.(la_failed_now)) ∧ one_by_one l ∧
  (∀ b, b ∈ l → a.(la_failed_now) ≤ b.(la_now)).
Proof.
  intros [[Ha Hf]%Forall_cons Hs]. split; [done|].
  assert (one_by_one l) as Hl by (split; [done|]; intros i x y; apply (Hs (S i))). split; [done|].
  assert (∀ i b, l !! i = Some b → a.(la_failed_now) ≤ b.(la_now)) as H.
  { induction i as [|i IH]; intros b Hb; [by apply (Hs 0%nat a b)|].
    destruct (l !! i) as [c|] eqn:Hc; [|apply lookup_ge_None in Hc; apply lookup_lt_Some in Hb; lia].
    specialize (IH c eq_refl). pose proof (proj2 Hl i c b Hc Hb).
    rewrite Forall_lookup in Hf. destruct (Hf i c Hc) as (_ & ? & _). lia. }
  intros b [i Hi]%list_elem_of_lookup. by eapply H.
Qed.

(** What is left of the window once [k] passwords have been tested in it. *)
Lemma tests_after key t t0 k lo s l :
  0 ≤ k → t ≤ t0 → t0 ≤ lo → entry_ok (failures_of key s) → window k t0 lo (failures_of key s) →
  one_by_one l → (∀ a, a ∈ l → lo ≤ a.(la_now)) → Forall (wrong_for key) l →
  Z.of_nat (tests key t l (runs login_gate s l).1) ≤ Z.max 0 (MAX_LOGIN_FAILURES - k).
Proof.
  revert k lo s. induction l as [|a l IH]; intros k lo s Hk Ht Ht0 Hok Hw Hl Hlo Hwrong; [cbn; lia|].
  apply Forall_cons in Hwrong as [Hwr Hwl]. apply one_by_one_cons in Hl as ((Hn & Hle & Hf) & Hl & Hnext). specialize (Hlo a (list_elem_of_here _ _)).
  rewrite runs_cons. unfold tests. cbn [fst zip_with sum_list]. fold (tests key t l (runs login_gate (login_gate s a).2 l).1).
  destruct (decide (a.(la_key) = key)) as [<-|Hkey].
  - destruct (login_gate_wrong s a Hok Hf (Hwr eq_refl)) as [Hg Hr]. rewrite Hg.
    pose proof (after_wrong_ok _ a.(la_now) a.(la_failed_now) Hok Hf) as Hok'. rewrite <-Hr in Hok'.
    destruct (Z.lt_ge_cases a.(la_now) (t0 + LOCK_MILLIS)) as [Hin|Hout].
    + destruct (window_wrong k t0 lo _ a.(la_now) a.(la_failed_now) Hk Ht0 Hw Hlo Hle Hin) as [Hlk Hul]. rewrite <-Hr in Hlk, Hul.
      unfold tested_in. destruct (locked_at _ _).
      * rewrite andb_false_r. cbn [andb]. cbn. specialize (IH k (la_failed_now a) _ Hk Ht ltac:(lia) Hok' (Hlk eq_refl) Hl Hnext Hwl). lia.
      * destruct (Hul eq_refl) as [Hlt Hw']. specialize (IH (k + 1) (la_failed_now a) _ ltac:(lia) Ht ltac:(lia) Hok' Hw' Hl Hnext Hwl).
        unfold MAX_LOGIN_FAILURES in *. destruct (_ && _); cbn; lia.
    + assert (tested_in (la_key a) t a (GateFailed (locked_at (failures_of (la_key a) s) (la_now a))) = false) as ->.
      { unfold tested_in. apply andb_false_iff. right. apply Z.ltb_ge. lia. }
      assert (window k t0 a.(la_failed_now) (failures_of (la_key a) (login_gate s a).2)) as Hw' by (left; lia).
      specialize (IH k (la_failed_now a) _ Hk Ht ltac:(lia) Hok' Hw' Hl Hnext Hwl). cbn. lia.
  - assert (tested_in key t a (login_gate s a).1 = false) as -> by (unfold tested_in; by rewrite bool_decide_eq_false_2).
    assert (window k t0 a.(la_failed_now) (failures_of key (login_gate s a).2)) as Hw'.
    { rewrite login_gate_other by done. destruct Hw as [Hw|Hw]; [left; lia|by right]. }
    assert (entry_ok (failures_of key (login_gate s a).2)) as Hok' by (by rewrite login_gate_other).
    specialize (IH k (la_failed_now a) _ Hk Ht ltac:(lia) Hok' Hw' Hl Hnext Hwl). cbn. lia.
Qed.

(** In any state the gate can be in, a stretch of attempts none of which is right. *)
Lemma guesses_bounded_from key t s l :
  entry_ok (failures_of key s) → one_by_one l → Forall (wrong_for key) l →
  Z.of_nat (tests key t l (runs login_gate s l).1) ≤ MAX_LOGIN_FAILURES.
Proof.
  revert s. induction l as [|a l IH]; intros s Hok Hl Hwrong; [done|].
  apply Forall_cons in Hwrong as [Hwr Hwl]. apply one_by_one_cons in Hl as ((Hn & Hle & Hf) & Hl & Hnext).
  rewrite runs_cons. unfold tests. cbn [fst zip_with sum_list]. fold (tests key t l (runs login_gate (login_gate s a).2 l).1).
  assert (entry_ok (failures_of key (login_gate s a).2)) as Hok'.
  { destruct (decide (a.(la_key) = key)) as [<-|Hkey]; [|by rewrite login_gate_other].
    destruct (login_gate_wrong s a Hok Hf (Hwr eq_refl)) as [_ ->]. by apply after_wrong_ok. }
  destruct (tested_in key t a _) eqn:Ht; [|by apply IH]. unfold tested_in in Ht. split_bools. subst key.
  destruct (login_gate_wrong s a Hok Hf (Hwr eq_refl)) as [_ Hr].
  assert (locked_at (failures_of a.(la_key) s) a.(la_now) = false) as Hul.
  { destruct (login_gate_wrong s a Hok Hf (Hwr eq_refl)) as [Hg _]. rewrite Hg in *. by destruct (locked_at _ _). }
  destruct (tested_counts _ _ _ Hok Hle Hul) as (n & Hn1 & Hn2). rewrite <-Hr in Hn1.
  pose proof (tests_after a.(la_key) t a.(la_now) 1 a.(la_failed_now) _ l ltac:(lia) ltac:(lia) ltac:(lia) Hok'
    ltac:(right; eauto) Hl Hnext Hwl).
  unfold MAX_LOGIN_FAILURES in *. cbn. lia.
Qed.

(** An attempt that is let in clears the entry; any other leaves what a wrong one
    would. *)
Lemma login_gate_entry key s a :
  sane_time a.(la_failed_now) → entry_ok (failures_of key s) → entry_ok (failures_of key (login_gate s a).2).
Proof.
  intros Hf Hok. destruct (decide (a.(la_key) = key)) as [<-|Hkey]; [|by rewrite login_gate_other].
  set (a' := {| la_key := a.(la_key); la_active := a.(la_active); la_password_valid := false;
                la_now := a.(la_now); la_failed_now := a.(la_failed_now) |}).
  assert (failures_of a.(la_key) (login_gate s a).2 = None ∨ login_gate s a = login_gate s a') as [-> | ->]; [|done|].
  { unfold login_gate. cbn. destruct (login_failure_state s (la_key a) (la_now a)) as [f s'].
    rewrite andb_false_r. destruct (_ && _); [left|by right]. unfold clear_login_failures. apply failures_deleted. }
  destruct (login_gate_wrong s a' Hok Hf) as [_ Hr]; [by apply andb_false_r|].
  change (la_key a') with (la_key a) in Hr. rewrite Hr. by apply after_wrong_ok.
Qed.

Lemma gate_run_entry key s l :
  one_by_one l → entry_ok (failures_of key s) → entry_ok (failures_of key (runs login_gate s l).2).
Proof.
  revert s. induction l as [|a l IH]; intros s Hl Hok; [done|]. rewrite runs_cons. cbn [snd].
  apply one_by_one_cons in Hl as ((_ & _ & Hf) & Hl & _). apply IH; [done|]. by apply login_gate_entry.
Qed.

Lemma one_by_one_app l k : one_by_one (l ++ k) → one_by_one l ∧ one_by_one k.
Proof.
  intros [[Hl Hk]%Forall_app Hs]. split; split; try done.
  - intros i a b Ha Hb. by apply (Hs i); apply lookup_app_l_Some.
  - intros i a b Ha Hb. apply (Hs (length l + i)%nat); rewrite lookup_app_r by lia.
    + by replace (length l + i - length l)%nat with i by lia.
    + by replace (S (length l + i) - length l)%nat with (S i) by lia.
Qed.


(** ** Witnesses *)

(** A step-up challenge with two attempts. *)
Definition example_challenge : AuthChallenge := {|
  ch_challenge_id := str "c1"; ch_account_id := str "acc"; ch_device_id := Some (str "dev");
  ch_purpose := StepUp (str "device_management"); ch_operation_binding_hash := Some (str "h");
  ch_login := None; ch_attempts_remaining := 2; ch_expires_at := 100000; ch_verified_at := None;
  ch_consumed_at := None |}.

Definition example_begin (t : string) (now : Z) : EphOp := OpBeginChallenge (str "c1") KindStepUp now (str t).
Definition example_finish (t : string) (ok : bool) (now : Z) : EphOp :=
  OpFinishChallenge {| ca_challenge := example_challenge; ca_lease_token := str t |} ok false now.

(** Two wrong factors, a third attempt, and a step-up that was never verified. *)
Definition example_guesses : list EphOp :=
  [example_begin "t1" 1; example_finish "t1" false 2; example_begin "t2" 3; example_finish "t2" false 4;
   example_begin "t3" 5; example_finish "t3" true 6].

Definition issued_state : MemoryState := (put_challenge memory_state_default example_challenge).2.

Lemma challenge_attempts_bounded_witness :
  count (judged (str "c1")) example_guesses (runs eph_step issued_state example_guesses).1 = 2%nat ∧
  Z.of_nat (count (judged (str "c1")) example_guesses (runs eph_step issued_state example_guesses).1) ≤ 2.
Proof.
  split; [vm_compute; reflexivity|].
  apply (challenge_attempts_bounded memory_state_default example_challenge issued_state example_guesses).
  - reflexivity.
  - vm_compute. discriminate.
  - repeat constructor; intros [].
Defined.

Definition example_consumption : StepUpConsumption := {|
  su_challenge_id := str "c1"; su_account_id := str "acc"; su_device_id := str "dev";
  su_purpose := str "device_management"; su_operation_binding_hash := str "h" |}.

Lemma step_up_needs_verification_witness :
  confirmed (str "c1") issued_state [example_begin "t1" 1; example_finish "t1" true 2].
Proof.
  apply (step_up_needs_verification memory_state_default example_challenge issued_state
           [example_begin "t1" 1; example_finish "t1" true 2] example_consumption 3).
  - reflexivity.
  - repeat constructor; intros [].
  - reflexivity.
  - vm_compute. reflexivity.
Defined.

Definition example_enrollment : PendingTotpEnrollment := {|
  te_factor_id := str "f1"; te_account_id := str "acc"; te_secret_base32 := str "S";
  te_recovery_delivery_public_key := []; te_created_at := 0; te_expires_at := 100000;
  te_attempts_remaining := 1 |}.

Definition enrolled_state : MemoryState := (put_pending_totp_enrollment memory_state_default example_enrollment 0).2.

Definition example_codes : list EphOp :=
  let finish t now := OpFinishEnrollment {| ta_enrollment := example_enrollment; ta_lease_token := str t |} false now in
  [OpBeginEnrollment (str "acc") (str "f1") 1 (str "t1"); finish "t1"%string 2;
   OpBeginEnrollment (str "acc") (str "f1") 3 (str "t2"); finish "t2"%string 4].

Lemma enrollment_attempts_bounded_witness :
  count (enrollment_judged (str "acc")) example_codes (runs eph_step enrolled_state example_codes).1 = 1%nat ∧
  Z.of_nat (count (enrollment_judged (str "acc")) example_codes (runs eph_step enrolled_state example_codes).1) ≤ 1.
Proof.
  split; [vm_compute; reflexivity|].
  apply (enrollment_attempts_bounded memory_state_default example_enrollment 0 enrolled_state example_codes).
  - reflexivity.
  - vm_compute. discriminate.
  - repeat constructor; intros [].
Defined.

(** Four wrong passwords and the right one, then seven wrong ones, one a second: of
    these five are tested. *)
Definition example_login (i : nat) (right : bool) : LoginAttempt := {|
  la_key := str "k"; la_active := true; la_password_valid := right;
  la_now := 1000 * Z.of_nat i; la_failed_now := 1000 * Z.of_nat i + 10 |}.

Definition example_before : list LoginAttempt := (λ i, example_login i (bool_decide (i = 5%nat))) <$> seq 1 5.

Definition example_logins : list LoginAttempt := (λ i, example_login i false) <$> seq 6 7.

Lemma example_logins_one_by_one : one_by_one (example_before ++ example_logins).
Proof.
  assert (H : ∀ i a, (example_before ++ example_logins) !! i = Some a →
    a.(la_now) = 1000 * Z.of_nat (S i) ∧ a.(la_failed_now) = a.(la_now) + 10 ∧ (i < 12)%nat).
  { intros i a Ha. pose proof (lookup_lt_Some _ _ _ Ha) as Hi. cbn in Hi.
    do 12 (destruct i as [|i]; [injection Ha as <-; cbn; lia|]). lia. }
  split.
  - apply Forall_lookup. intros i a (H1 & H2 & H3)%H. unfold sane_time. lia.
  - intros i a b (H1 & H2 & _)%H (H3 & _)%H. lia.
Qed.

