(* ===== verification/ApiAccount.v ===== *)
(** * Accounts of the API server

    Models services/api-server/src/store.rs, the memory repository: account
    sessions (refresh and revocation), challenges that a risky operation must
    answer (creation, cancellation, verification of a factor, consumption) and the
    operations a verified challenge pays for; and of security.rs the one-time
    codes.

    Argon2, Base32 and HMAC-SHA1 are parameters. An operation that fails leaves
    the database as it was. *)

From S2P Require Import Prelude Text Canonical Security Primitives Net ApiSession Ephemeral.

(** ** Data *)

Inductive AccountStatus := AccountActive | AccountDisabled.

Record Account := {
  ac_account_id : rstr;
  ac_email : rstr;
  ac_display_name : rstr;
  ac_password_hash : rstr;
  ac_status : AccountStatus;
  ac_created_at : Z;
  ac_updated_at : Z }.

Record AccountSession := {
  as_account_session_id : rstr;
  as_account_id : rstr;
  as_refresh_token_hash : bytes;
  as_mfa_verified : bool;
  as_expires_at : Z;
  as_revoked_at : option Z;
  as_revoked_reason : option rstr }.

Record MfaFactor := {
  mf_factor_id : rstr;
  mf_account_id : rstr;
  mf_secret_base32 : rstr;
  mf_active : bool;
  mf_last_used_counter : option Z;
  mf_created_at : Z }.

Record RecoveryCode := {
  rv_recovery_code_id : rstr;
  rv_account_id : rstr;
  rv_code_hash : bytes;
  rv_used_at : option Z;
  rv_expires_at : option Z }.

Inductive RiskChallengeStatus := RIssued | RVerified | RFailed | RConsumed | RExpired | RCancelled.

Record RiskChallenge := {
  rk_risk_challenge_id : rstr;
  rk_account_id : rstr;
  rk_device_id : option rstr;
  rk_purpose : rstr;
  rk_operation_binding_hash : bytes;
  rk_risk_level : rstr;
  rk_required_methods : list rstr;
  rk_status : RiskChallengeStatus;
  rk_attempts_remaining : Z;
  rk_ip_address : option rstr;
  rk_user_agent : option rstr;
  rk_expires_at : Z;
  rk_created_at : Z;
  rk_verified_at : option Z;
  rk_consumed_at : option Z }.

Inductive TrustedDeviceStatus := TrustActive | TrustExpired | TrustRevoked.

Record TrustedControllerDevice := {
  tr_trusted_device_id : rstr;
  tr_account_id : rstr;
  tr_controller_device_id : rstr;
  tr_device_fingerprint_hash : bytes;
  tr_trust_level : rstr;
  tr_status : TrustedDeviceStatus;
  tr_trust_proof_type : rstr;
  tr_created_at : Z;
  tr_last_used_at : option Z;
  tr_expires_at : Z;
  tr_revoked_at : option Z }.

Record DeviceEnrollmentGrant := {
  gr_grant_id : rstr;
  gr_grant_secret_hash : bytes;
  gr_account_id : rstr;
  gr_device_id : rstr;
  gr_device_public_key_fingerprint : bytes;
  gr_login_challenge_id : rstr;
  gr_login_challenge_binding_hash : bytes;
  gr_trust_proof_type : option rstr;
  gr_trust_level : option rstr;
  gr_establish_trust : bool;
  gr_protocol_version : Z;
  gr_issued_account_session_id : rstr;
  gr_issued_at : Z;
  gr_expires_at : Z;
  gr_consumed_at : option Z;
  gr_registration_request_binding_hash : option bytes;
  gr_registered_public_key_id : option rstr;
  gr_registered_trusted_device_id : option rstr }.

Record RecoveryCodeDelivery := {
  dl_delivery_id : rstr;
  dl_account_id : rstr;
  dl_account_session_id : rstr;
  dl_factor_id : rstr;
  dl_idempotency_key_hash : bytes;
  dl_finish_request_binding_hash : bytes;
  dl_client_ephemeral_public_key : bytes;
  dl_server_ephemeral_public_key : bytes;
  dl_nonce : bytes;
  dl_ciphertext : bytes;
  dl_recovery_code_count : Z;
  dl_created_at : Z;
  dl_expires_at : Z;
  dl_acknowledged_at : option Z }.

Record DevicePublicKeyRecord := {
  pk_public_key_id : rstr;
  pk_device_id : rstr;
  pk_public_key : bytes;
  pk_version : Z;
  pk_created_at : Z;
  pk_revoked_at : option Z }.

#[global] Instance AccountStatus_eq_dec : EqDecision AccountStatus.
Proof. solve_decision. Defined.
#[global] Instance RiskChallengeStatus_eq_dec : EqDecision RiskChallengeStatus.
Proof. solve_decision. Defined.
#[global] Instance TrustedDeviceStatus_eq_dec : EqDecision TrustedDeviceStatus.
Proof. solve_decision. Defined.

(** The tables of accounts, beside those of devices and sessions. *)
Record AccountDb := {
  core : Database;
  account_by_email : gmap rstr rstr;
  accounts : gmap rstr Account;
  account_sessions : gmap rstr AccountSession;
  mfa_factors : gmap rstr MfaFactor;
  recovery_codes : gmap rstr RecoveryCode;
  risk_challenges : gmap rstr RiskChallenge;
  login_challenge_contexts : gmap rstr LoginChallengeContext;
  trusted_controller_devices : gmap rstr TrustedControllerDevice;
  device_enrollment_grants : gmap rstr DeviceEnrollmentGrant;
  recovery_code_deliveries : gmap rstr RecoveryCodeDelivery;
  device_public_keys : gmap rstr DevicePublicKeyRecord }.

Record StepUpExpectation := {
  sx_challenge_id : rstr;
  sx_account_id : rstr;
  sx_device_id : rstr;
  sx_purpose : rstr;
  sx_operation_binding_hash : bytes;
  sx_now : Z }.

Inductive StepUpAction :=
| RotateRecoveryCodes (records : list RecoveryCode) (audit : AuditEntry)
| DisableMfaFactor (factor_id : rstr) (audit : AuditEntry)
| ChangePassword (expected_password_hash new_password_hash : rstr) (audit : AuditEntry)
| RevokeTrustedDevice (trusted_device_id : rstr) (audit : AuditEntry).

Definition action_audit (a : StepUpAction) : AuditEntry :=
  match a with
  | RotateRecoveryCodes _ e | DisableMfaFactor _ e | ChangePassword _ _ e | RevokeTrustedDevice _ e => e
  end.

Record RiskChallengeVerification := {
  vf_challenge_id : rstr;
  vf_account_id : rstr;
  vf_factor_kind : rstr;
  vf_factor_code : rstr;
  vf_success_audit : AuditEntry;
  vf_failure_audit : AuditEntry;
  vf_recovery_code_audit : option AuditEntry;
  vf_now : Z }.

Inductive RiskChallengeVerificationOutcome :=
| VerifiedOutcome (c : RiskChallenge) | AlreadyVerified (c : RiskChallenge) | RejectedOutcome.

Inductive RiskChallengeCreationOutcome :=
| ChallengeCreated (c : RiskChallenge) | MfaEnrollmentRequired | NotAuthorized.

(** ** Updates of the tables *)

Definition set_core (db : AccountDb) x : AccountDb := {|
  core := x; account_by_email := db.(account_by_email); accounts := db.(accounts); account_sessions
  := db.(account_sessions); mfa_factors := db.(mfa_factors); recovery_codes := db.(recovery_codes);
  risk_challenges := db.(risk_challenges); login_challenge_contexts :=
  db.(login_challenge_contexts); trusted_controller_devices := db.(trusted_controller_devices);
  device_enrollment_grants := db.(device_enrollment_grants); recovery_code_deliveries :=
  db.(recovery_code_deliveries); device_public_keys := db.(device_public_keys) |}.
Definition set_account_by_email (db : AccountDb) x : AccountDb := {|
  core := db.(core); account_by_email := x; accounts := db.(accounts); account_sessions :=
  db.(account_sessions); mfa_factors := db.(mfa_factors); recovery_codes := db.(recovery_codes);
  risk_challenges := db.(risk_challenges); login_challenge_contexts :=
  db.(login_challenge_contexts); trusted_controller_devices := db.(trusted_controller_devices);
  device_enrollment_grants := db.(device_enrollment_grants); recovery_code_deliveries :=
  db.(recovery_code_deliveries); device_public_keys := db.(device_public_keys) |}.
Definition set_accounts (db : AccountDb) x : AccountDb := {|
  core := db.(core); account_by_email := db.(account_by_email); accounts := x; account_sessions :=
  db.(account_sessions); mfa_factors := db.(mfa_factors); recovery_codes := db.(recovery_codes);
  risk_challenges := db.(risk_challenges); login_challenge_contexts :=
  db.(login_challenge_contexts); trusted_controller_devices := db.(trusted_controller_devices);
  device_enrollment_grants := db.(device_enrollment_grants); recovery_code_deliveries :=
  db.(recovery_code_deliveries); device_public_keys := db.(device_public_keys) |}.
Definition set_account_sessions (db : AccountDb) x : AccountDb := {|
  core := db.(core); account_by_email := db.(account_by_email); accounts := db.(accounts);
  account_sessions := x; mfa_factors := db.(mfa_factors); recovery_codes := db.(recovery_codes);
  risk_challenges := db.(risk_challenges); login_challenge_contexts :=
  db.(login_challenge_contexts); trusted_controller_devices := db.(trusted_controller_devices);
  device_enrollment_grants := db.(device_enrollment_grants); recovery_code_deliveries :=
  db.(recovery_code_deliveries); device_public_keys := db.(device_public_keys) |}.
Definition set_mfa_factors (db : AccountDb) x : AccountDb := {|
  core := db.(core); account_by_email := db.(account_by_email); accounts := db.(accounts);
  account_sessions := db.(account_sessions); mfa_factors := x; recovery_codes :=
  db.(recovery_codes); risk_challenges := db.(risk_challenges); login_challenge_contexts :=
  db.(login_challenge_contexts); trusted_controller_devices := db.(trusted_controller_devices);
  device_enrollment_grants := db.(device_enrollment_grants); recovery_code_deliveries :=
  db.(recovery_code_deliveries); device_public_keys := db.(device_public_keys) |}.
Definition set_recovery_codes (db : AccountDb) x : AccountDb := {|
  core := db.(core); account_by_email := db.(account_by_email); accounts := db.(accounts);
  account_sessions := db.(account_sessions); mfa_factors := db.(mfa_factors); recovery_codes := x;
  risk_challenges := db.(risk_challenges); login_challenge_contexts :=
  db.(login_challenge_contexts); trusted_controller_devices := db.(trusted_controller_devices);
  device_enrollment_grants := db.(device_enrollment_grants); recovery_code_deliveries :=
  db.(recovery_code_deliveries); device_public_keys := db.(device_public_keys) |}.
Definition set_risk_challenges (db : AccountDb) x : AccountDb := {|
  core := db.(core); account_by_email := db.(account_by_email); accounts := db.(accounts);
  account_sessions := db.(account_sessions); mfa_factors := db.(mfa_factors); recovery_codes :=
  db.(recovery_codes); risk_challenges := x; login_challenge_contexts :=
  db.(login_challenge_contexts); trusted_controller_devices := db.(trusted_controller_devices);
  device_enrollment_grants := db.(device_enrollment_grants); recovery_code_deliveries :=
  db.(recovery_code_deliveries); device_public_keys := db.(device_public_keys) |}.
Definition set_login_contexts (db : AccountDb) x : AccountDb := {|
  core := db.(core); account_by_email := db.(account_by_email); accounts := db.(accounts);
  account_sessions := db.(account_sessions); mfa_factors := db.(mfa_factors); recovery_codes :=
  db.(recovery_codes); risk_challenges := db.(risk_challenges); login_challenge_contexts := x;
  trusted_controller_devices := db.(trusted_controller_devices); device_enrollment_grants :=
  db.(device_enrollment_grants); recovery_code_deliveries := db.(recovery_code_deliveries);
  device_public_keys := db.(device_public_keys) |}.
Definition set_trusted (db : AccountDb) x : AccountDb := {|
  core := db.(core); account_by_email := db.(account_by_email); accounts := db.(accounts);
  account_sessions := db.(account_sessions); mfa_factors := db.(mfa_factors); recovery_codes :=
  db.(recovery_codes); risk_challenges := db.(risk_challenges); login_challenge_contexts :=
  db.(login_challenge_contexts); trusted_controller_devices := x; device_enrollment_grants :=
  db.(device_enrollment_grants); recovery_code_deliveries := db.(recovery_code_deliveries);
  device_public_keys := db.(device_public_keys) |}.
Definition set_grants (db : AccountDb) x : AccountDb := {|
  core := db.(core); account_by_email := db.(account_by_email); accounts := db.(accounts);
  account_sessions := db.(account_sessions); mfa_factors := db.(mfa_factors); recovery_codes :=
  db.(recovery_codes); risk_challenges := db.(risk_challenges); login_challenge_contexts :=
  db.(login_challenge_contexts); trusted_controller_devices := db.(trusted_controller_devices);
  device_enrollment_grants := x; recovery_code_deliveries := db.(recovery_code_deliveries);
  device_public_keys := db.(device_public_keys) |}.
Definition set_deliveries (db : AccountDb) x : AccountDb := {|
  core := db.(core); account_by_email := db.(account_by_email); accounts := db.(accounts);
  account_sessions := db.(account_sessions); mfa_factors := db.(mfa_factors); recovery_codes :=
  db.(recovery_codes); risk_challenges := db.(risk_challenges); login_challenge_contexts :=
  db.(login_challenge_contexts); trusted_controller_devices := db.(trusted_controller_devices);
  device_enrollment_grants := db.(device_enrollment_grants); recovery_code_deliveries := x;
  device_public_keys := db.(device_public_keys) |}.
Definition set_public_keys (db : AccountDb) x : AccountDb := {|
  core := db.(core); account_by_email := db.(account_by_email); accounts := db.(accounts);
  account_sessions := db.(account_sessions); mfa_factors := db.(mfa_factors); recovery_codes :=
  db.(recovery_codes); risk_challenges := db.(risk_challenges); login_challenge_contexts :=
  db.(login_challenge_contexts); trusted_controller_devices := db.(trusted_controller_devices);
  device_enrollment_grants := db.(device_enrollment_grants); recovery_code_deliveries :=
  db.(recovery_code_deliveries); device_public_keys := x |}.

(** [Database::default()]. *)
Definition empty_accounts : AccountDb := {|
  core := {| db_devices := ∅; db_sessions := ∅; db_session_events := []; db_session_idempotency := ∅;
             db_policy_evaluations := ∅; db_audit_logs := [] |};
  account_by_email := ∅; accounts := ∅; account_sessions := ∅; mfa_factors := ∅; recovery_codes := ∅;
  risk_challenges := ∅; login_challenge_contexts := ∅; trusted_controller_devices := ∅;
  device_enrollment_grants := ∅; recovery_code_deliveries := ∅; device_public_keys := ∅ |}.

(** [audit_logs.extend(es)]. *)
Definition extend_audit (db : AccountDb) (es : list AuditEntry) : AccountDb :=
  let c := db.(core) in
  set_core db {|
    db_devices := c.(db_devices); db_sessions := c.(db_sessions); db_session_events := c.(db_session_events);
    db_session_idempotency := c.(db_session_idempotency);
    db_policy_evaluations := c.(db_policy_evaluations); db_audit_logs := c.(db_audit_logs) ++ es |}.

Definition revoke_session (s : AccountSession) (now : Z) (reason : rstr) : AccountSession := {|
  as_account_session_id := s.(as_account_session_id); as_account_id := s.(as_account_id);
  as_refresh_token_hash := s.(as_refresh_token_hash); as_mfa_verified := s.(as_mfa_verified);
  as_expires_at := s.(as_expires_at); as_revoked_at := Some now; as_revoked_reason := Some reason |}.

Definition revoke_trust (t : TrustedControllerDevice) (now : Z) : TrustedControllerDevice := {|
  tr_trusted_device_id := t.(tr_trusted_device_id); tr_account_id := t.(tr_account_id);
  tr_controller_device_id := t.(tr_controller_device_id);
  tr_device_fingerprint_hash := t.(tr_device_fingerprint_hash); tr_trust_level := t.(tr_trust_level);
  tr_status := TrustRevoked; tr_trust_proof_type := t.(tr_trust_proof_type);
  tr_created_at := t.(tr_created_at); tr_last_used_at := t.(tr_last_used_at);
  tr_expires_at := t.(tr_expires_at); tr_revoked_at := Some now |}.

(** The fields of a challenge that its verification and its use write. *)
Definition set_risk (c : RiskChallenge) (status : RiskChallengeStatus) (attempts : Z) (verified consumed : option Z)
    : RiskChallenge := {|
  rk_risk_challenge_id := c.(rk_risk_challenge_id); rk_account_id := c.(rk_account_id);
  rk_device_id := c.(rk_device_id); rk_purpose := c.(rk_purpose);
  rk_operation_binding_hash := c.(rk_operation_binding_hash); rk_risk_level := c.(rk_risk_level);
  rk_required_methods := c.(rk_required_methods); rk_status := status;
  rk_attempts_remaining := attempts; rk_ip_address := c.(rk_ip_address);
  rk_user_agent := c.(rk_user_agent); rk_expires_at := c.(rk_expires_at);
  rk_created_at := c.(rk_created_at); rk_verified_at := verified; rk_consumed_at := consumed |}.

Definition set_required_methods (c : RiskChallenge) (methods : list rstr) : RiskChallenge := {|
  rk_risk_challenge_id := c.(rk_risk_challenge_id); rk_account_id := c.(rk_account_id);
  rk_device_id := c.(rk_device_id); rk_purpose := c.(rk_purpose);
  rk_operation_binding_hash := c.(rk_operation_binding_hash); rk_risk_level := c.(rk_risk_level);
  rk_required_methods := methods; rk_status := c.(rk_status);
  rk_attempts_remaining := c.(rk_attempts_remaining); rk_ip_address := c.(rk_ip_address);
  rk_user_agent := c.(rk_user_agent); rk_expires_at := c.(rk_expires_at);
  rk_created_at := c.(rk_created_at); rk_verified_at := c.(rk_verified_at);
  rk_consumed_at := c.(rk_consumed_at) |}.

(** A factor was judged: the challenge is verified, or loses an attempt. *)
Definition judge_risk (c : RiskChallenge) (accepted : bool) (now : Z) : RiskChallenge :=
  if accepted then set_risk c RVerified c.(rk_attempts_remaining) (Some now) c.(rk_consumed_at)
  else
    let attempts := sat_sub c.(rk_attempts_remaining) 1 in
    set_risk c (if attempts =? 0 then RFailed else c.(rk_status)) attempts c.(rk_verified_at) c.(rk_consumed_at).

Definition set_counter (f : MfaFactor) (counter : Z) : MfaFactor := {|
  mf_factor_id := f.(mf_factor_id); mf_account_id := f.(mf_account_id);
  mf_secret_base32 := f.(mf_secret_base32); mf_active := f.(mf_active);
  mf_last_used_counter := Some counter; mf_created_at := f.(mf_created_at) |}.

Definition use_code (r : RecoveryCode) (now : Z) : RecoveryCode := {|
  rv_recovery_code_id := r.(rv_recovery_code_id); rv_account_id := r.(rv_account_id);
  rv_code_hash := r.(rv_code_hash); rv_used_at := Some now; rv_expires_at := r.(rv_expires_at) |}.

(** [updated_at.saturating_add(1).max(now)], with the password hash. *)
Definition touch_account (a : Account) (password_hash : rstr) (now : Z) : Account := {|
  ac_account_id := a.(ac_account_id); ac_email := a.(ac_email); ac_display_name := a.(ac_display_name);
  ac_password_hash := password_hash; ac_status := a.(ac_status); ac_created_at := a.(ac_created_at);
  ac_updated_at := Z.max (sat_add 64 a.(ac_updated_at) 1) now |}.

Definition audit_reason (e : AuditEntry) (reason : rstr) : AuditEntry := {|
  au_audit_id := e.(au_audit_id); au_actor_type := e.(au_actor_type);
  au_actor_account_id := e.(au_actor_account_id); au_actor_device_id := e.(au_actor_device_id);
  au_actor_role := e.(au_actor_role); au_actor_service := e.(au_actor_service);
  au_target_device_id := e.(au_target_device_id); au_session_id := e.(au_session_id);
  au_action := e.(au_action); au_result := e.(au_result); au_reason := Some reason;
  au_metadata := e.(au_metadata); au_request_id := e.(au_request_id); au_created_at := e.(au_created_at) |}.

Definition account_active (db : AccountDb) (account_id : rstr) : bool :=
  match db.(accounts) !! account_id with Some a => a.(ac_status) =! AccountActive | None => false end.

(** The device exists, belongs to the account and is in service. *)
Definition device_authorized (db : AccountDb) (device_id : option rstr) (account_id : rstr) : bool :=
  match device_id ≫= λ id, db.(core).(db_devices) !! id with
  | Some d => (d.(dv_account_id) =! account_id) && is_authorizable d.(dv_status)
  | None => false
  end.

(** ** Accounts *)

Definition load_account_by_email (db : AccountDb) (email : rstr) : option Account :=
  db.(account_by_email) !! email ≫= λ id, db.(accounts) !! id.

(** [account_mfa_enabled]. *)
Definition mfa_enabled (db : AccountDb) (account_id : rstr) : bool :=
  bool_decide (is_Some (btree_find (λ f, (f.(mf_account_id) =! account_id) && f.(mf_active)) db.(mfa_factors))).

(** The factors of the account (identifier, creation) and the number of recovery
    codes that are left. *)
Definition load_mfa_status (db : AccountDb) (account_id : rstr) (now : Z) : list (rstr * Z) * Z :=
  ((λ kv, (kv.2.(mf_factor_id), kv.2.(mf_created_at))) <$>
     filter (λ kv, kv.2.(mf_account_id) = account_id ∧ kv.2.(mf_active) = true) (btree_iter db.(mfa_factors)),
   len (filter (λ kv : rstr * RecoveryCode, kv.2.(rv_account_id) = account_id ∧ kv.2.(rv_used_at) = None
          ∧ (match kv.2.(rv_expires_at) with Some e => now <? e | None => true end) = true)
          (btree_iter db.(recovery_codes)))).

(** The transaction of [register]. *)
Definition insert_account (db : AccountDb) (a : Account) : result StoreError unit * AccountDb :=
  if bool_decide (is_Some (db.(account_by_email) !! a.(ac_email))) then (Err Conflict, db)
  else (Ok tt, set_accounts (set_account_by_email db (<[a.(ac_email) := a.(ac_account_id)]> db.(account_by_email)))
                 (<[a.(ac_account_id) := a]> db.(accounts))).

(** The transaction of [issue_tokens]. *)
Definition insert_account_session (db : AccountDb) (s : AccountSession) : result StoreError unit * AccountDb :=
  if bool_decide (is_Some (db.(account_sessions) !! s.(as_account_session_id))) then (Err Conflict, db)
  else (Ok tt, set_account_sessions db (<[s.(as_account_session_id) := s]> db.(account_sessions))).

(** ** Account sessions *)

Definition active_account_session (s : option AccountSession) (account_id : rstr) (now : Z) : bool :=
  match s with
  | Some s => (s.(as_account_id) =! account_id) && bool_decide (s.(as_revoked_at) = None)
              && (now <? s.(as_expires_at))
  | None => false
  end.

Definition account_session_active (db : AccountDb) (account_session_id account_id : rstr) (now : Z) : bool :=
  active_account_session (db.(account_sessions) !! account_session_id) account_id now.

Definition account_session_revocation_audit (source : AuditEntry) (account_session_id revoked_reason : rstr)
    : AuditEntry := {|
  au_audit_id := source.(au_audit_id) ++ str ":account-session:" ++ account_session_id;
  au_actor_type := source.(au_actor_type); au_actor_account_id := source.(au_actor_account_id);
  au_actor_device_id := source.(au_actor_device_id); au_actor_role := source.(au_actor_role);
  au_actor_service := source.(au_actor_service); au_target_device_id := None; au_session_id := None;
  au_action := str "account_session_revoked"; au_result := str "success";
  au_reason := Some revoked_reason;
  au_metadata := <[str "account_session_id" := VString account_session_id]> {[str "revoked_reason" := VString revoked_reason]};
  au_request_id := source.(au_request_id); au_created_at := source.(au_created_at) |}.

Definition trusted_device_revocation_audit (source : AuditEntry)
    (trusted_device_id controller_device_id revoked_reason : rstr) : AuditEntry := {|
  au_audit_id := source.(au_audit_id) ++ str ":trusted-device:" ++ trusted_device_id;
  au_actor_type := source.(au_actor_type); au_actor_account_id := source.(au_actor_account_id);
  au_actor_device_id := source.(au_actor_device_id); au_actor_role := source.(au_actor_role);
  au_actor_service := source.(au_actor_service); au_target_device_id := Some controller_device_id;
  au_session_id := None; au_action := str "trusted_device_revoked"; au_result := str "success";
  au_reason := Some revoked_reason;
  au_metadata := <[str "trusted_device_id" := VString trusted_device_id]> {[str "revoked_reason" := VString revoked_reason]};
  au_request_id := source.(au_request_id); au_created_at := source.(au_created_at) |}.

(** A session a refresh token can be exchanged for. *)
Definition refreshable (s : AccountSession) (refresh_token_hash : bytes) (now : Z) : bool :=
  (s.(as_refresh_token_hash) =! refresh_token_hash) && bool_decide (s.(as_revoked_at) = None)
  && bool_decide (s.(as_revoked_reason) = None) && (now <? s.(as_expires_at)).

Definition load_refresh_session_authority (db : AccountDb) (refresh_token_hash : bytes) (now : Z)
    : option AccountSession :=
  snd <$> btree_find (λ s, refreshable s refresh_token_hash now && account_active db s.(as_account_id))
            db.(account_sessions).

Definition rotate_refresh_session (db : AccountDb) (refresh_token_hash : bytes) (replacement : AccountSession)
    (audit : AuditEntry) (now : Z) : result StoreError bool * AccountDb :=
  if bool_decide (is_Some replacement.(as_revoked_at)) || bool_decide (is_Some replacement.(as_revoked_reason))
     || (replacement.(as_expires_at) <=? now)
     || bool_decide (is_Some (db.(account_sessions) !! replacement.(as_account_session_id)))
     || has_audit db.(core) audit.(au_audit_id)
     || (audit.(au_actor_account_id) ≠! Some replacement.(as_account_id))
     || negb (account_active db replacement.(as_account_id))
  then (Err Conflict, db)
  else match btree_find (λ s, (s.(as_account_id) =! replacement.(as_account_id))
                              && bool_decide (s.(as_mfa_verified) = replacement.(as_mfa_verified))
                              && refreshable s refresh_token_hash now) db.(account_sessions) with
  | None => (Ok false, db)
  | Some (old_session_id, old_session) =>
      let revocation := account_session_revocation_audit audit old_session_id (str "refresh_replay") in
      if has_audit db.(core) revocation.(au_audit_id) || (revocation.(au_audit_id) =! audit.(au_audit_id))
      then (Err Conflict, db)
      else (Ok true, extend_audit (set_account_sessions db
             (<[replacement.(as_account_session_id) := replacement]>
              (<[old_session_id := revoke_session old_session now (str "refresh_replay")]> db.(account_sessions))))
             [revocation; audit])
  end.

Definition revoke_account_session (db : AccountDb) (account_session_id account_id : rstr) (now : Z)
    (audit : AuditEntry) : result StoreError bool * AccountDb :=
  match db.(account_sessions) !! account_session_id with
  | None => (Ok false, db)
  | Some session =>
      if (session.(as_account_id) ≠! account_id) || bool_decide (is_Some session.(as_revoked_at))
      then (Ok false, db)
      else if (audit.(au_actor_account_id) ≠! Some account_id) || (audit.(au_action) ≠! str "logout")
           || (audit.(au_result) ≠! str "success") || has_audit db.(core) audit.(au_audit_id)
      then (Err Conflict, db)
      else
        let revocation := account_session_revocation_audit audit account_session_id (str "logout") in
        if has_audit db.(core) revocation.(au_audit_id) then (Err Conflict, db)
        else (Ok true, extend_audit (set_account_sessions db
               (<[account_session_id := revoke_session session now (str "logout")]> db.(account_sessions)))
               [revocation; audit])
  end.

(** ** One-time codes *)

(** [argon2], [data_encoding] and [hmac] with [sha1]. *)
Class FactorCrypto := {
  verify_password : rstr → rstr → bool;
  base32_decode : rstr → option bytes;
  hmac_sha1 : bytes → bytes → bytes }.

Definition byte_at (b : bytes) (i : nat) : Z := byte_val (default x00 (b !! i)).

(** [format!("{:06}", n)]. *)
Definition six_digits (n : Z) : rstr :=
  let d := show_dec n in repeat x30 (6 - length d) ++ d.

Definition TOTP_STEP_MILLIS : Z := 30000.

Section factors.
Context `{P : Primitives} `{F : FactorCrypto}.

Definition totp_code (secret_base32 : rstr) (timestamp : Z) : option (rstr * Z) :=
  secret ← base32_decode secret_base32;
  let counter := timestamp / TOTP_STEP_MILLIS in
  let digest := hmac_sha1 secret (be_bytes 8 counter) in
  let offset := Z.to_nat (Z.land (byte_at digest 19) 15) in
  let binary := Z.lor (Z.lor (Z.lor (Z.shiftl (Z.land (byte_at digest offset) 127) 24)
                                    (Z.shiftl (byte_at digest (offset + 1)) 16))
                             (Z.shiftl (byte_at digest (offset + 2)) 8))
                      (byte_at digest (offset + 3)) in
  Some (six_digits (binary `mod` 1000000), counter).

(** [u64::checked_add_signed]. *)
Definition checked_add_signed (a b : Z) : option Z :=
  if (0 <=? a + b) && (a + b <=? u_max 64) then Some (a + b) else None.

Fixpoint verify_totp_from (offsets : list Z) (secret_base32 code : rstr) (now : Z) (last : option Z) : option Z :=
  match offsets with
  | [] => None
  | o :: offsets =>
      adjusted ← checked_add_signed now (o * 30000);
      '(expected, counter) ← totp_code secret_base32 adjusted;
      if (expected =! code) && (match last with Some l => l <? counter | None => true end)
      then Some counter
      else verify_totp_from offsets secret_base32 code now last
  end.

Definition verify_totp (secret_base32 code : rstr) (now : Z) (last : option Z) : option Z :=
  verify_totp_from [-1; 0; 1] secret_base32 code now last.

(** ** Challenges *)

(** The factor itself: a code newer than the last one used, or a recovery code
    that is left. *)
Definition try_factor (db : AccountDb) (account_id factor_kind code : rstr) (now : Z) : bool * AccountDb :=
  if factor_kind =! str "totp" then
    match btree_find (λ f, (f.(mf_account_id) =! account_id) && f.(mf_active)) db.(mfa_factors) with
    | Some (id, factor) =>
        match verify_totp factor.(mf_secret_base32) code now factor.(mf_last_used_counter) with
        | Some counter => (true, set_mfa_factors db (<[id := set_counter factor counter]> db.(mfa_factors)))
        | None => (false, db)
        end
    | None => (false, db)
    end
  else if factor_kind =! str "recovery_code" then
    match btree_find (λ r, (r.(rv_account_id) =! account_id) && bool_decide (r.(rv_used_at) = None)
                           && (match r.(rv_expires_at) with Some e => now <? e | None => true end)
                           && (r.(rv_code_hash) =! sha256 code)) db.(recovery_codes) with
    | Some (id, recovery) => (true, set_recovery_codes db (<[id := use_code recovery now]> db.(recovery_codes)))
    | None => (false, db)
    end
  else (false, db).

(** The challenge, if there is one, can still be answered. *)
Definition challenge_open (db : AccountDb) (challenge_id : option rstr) (account_id : rstr) (now : Z) : bool :=
  match challenge_id with
  | None => true
  | Some id =>
      match db.(risk_challenges) !! id with
      | None => false
      | Some c => negb ((c.(rk_account_id) ≠! account_id) || (c.(rk_status) ≠! RIssued)
                        || (c.(rk_attempts_remaining) =? 0) || (c.(rk_expires_at) <=? now))
      end
  end.

Definition verify_factor_in_database (db : AccountDb) (challenge_id : option rstr) (account_id factor_kind code : rstr)
    (now : Z) : result StoreError bool * AccountDb :=
  if negb (challenge_open db challenge_id account_id now) then (Err Conflict, db)
  else
    let '(accepted, db) := try_factor db account_id factor_kind code now in
    match challenge_id with
    | None => (Ok accepted, db)
    | Some id =>
        match db.(risk_challenges) !! id with
        | None => (Err Conflict, db)
        | Some c => (Ok accepted, set_risk_challenges db (<[id := judge_risk c accepted now]> db.(risk_challenges)))
        end
    end.

Definition create_risk_challenge (db : AccountDb) (c : RiskChallenge) (audit : AuditEntry)
    : result StoreError RiskChallengeCreationOutcome * AccountDb :=
  if (c.(rk_purpose) =! str "login_mfa") || (c.(rk_purpose) =! str "new_controller_device")
     || (c.(rk_required_methods) ≠! [])
  then (Err Conflict, db)
  else if negb (account_active db c.(rk_account_id)) || negb (device_authorized db c.(rk_device_id) c.(rk_account_id))
  then (Ok NotAuthorized, db)
  else
    let mfa_enabled := bool_decide (is_Some (btree_find
      (λ f, (f.(mf_account_id) =! c.(rk_account_id)) && f.(mf_active)) db.(mfa_factors))) in
    let required := if mfa_enabled then Some [str "totp"; str "recovery_code"]
                    else if c.(rk_purpose) =! str "password_change" then Some [str "password"]
                    else None in
    match required with
    | None => (Ok MfaEnrollmentRequired, db)
    | Some methods =>
        let c := set_required_methods c methods in
        if bool_decide (is_Some (db.(risk_challenges) !! c.(rk_risk_challenge_id)))
           || has_audit db.(core) audit.(au_audit_id)
           || (audit.(au_actor_account_id) ≠! Some c.(rk_account_id))
        then (Err Conflict, db)
        else (Ok (ChallengeCreated c), extend_audit (set_risk_challenges db
               (<[c.(rk_risk_challenge_id) := c]> db.(risk_challenges))) [audit])
    end.

Definition cancel_risk_challenge (db : AccountDb) (challenge_id : rstr) (audit : AuditEntry)
    : result StoreError bool * AccountDb :=
  match db.(risk_challenges) !! challenge_id with
  | None => (Ok false, db)
  | Some c =>
      if c.(rk_status) ≠! RIssued then (Ok false, db)
      else if (audit.(au_actor_account_id) ≠! Some c.(rk_account_id))
           || (audit.(au_action) ≠! str "risk_challenge_failed") || (audit.(au_result) ≠! str "failure")
           || (audit.(au_reason) ≠! Some (str "cancelled")) || has_audit db.(core) audit.(au_audit_id)
      then (Err Conflict, db)
      else (Ok true, extend_audit (set_risk_challenges db
             (<[challenge_id := set_risk c RCancelled c.(rk_attempts_remaining) c.(rk_verified_at)
                                  c.(rk_consumed_at)]> db.(risk_challenges))) [audit])
  end.

(** The factor, and the challenge judged by it: a password here, a code in
    [verify_factor_in_database]. *)
Definition judge_challenge (db : AccountDb) (v : RiskChallengeVerification) (c : RiskChallenge) (password_hash : rstr)
    : result StoreError bool * AccountDb :=
  let method_allowed := bool_decide (v.(vf_factor_kind) ∈ c.(rk_required_methods)) in
  if negb method_allowed || (v.(vf_factor_kind) =! str "password") then
    let accepted := method_allowed && (c.(rk_purpose) =! str "password_change")
                    && verify_password password_hash v.(vf_factor_code) in
    (Ok accepted, set_risk_challenges db
       (<[v.(vf_challenge_id) := judge_risk c accepted v.(vf_now)]> db.(risk_challenges)))
  else verify_factor_in_database db (Some v.(vf_challenge_id)) v.(vf_account_id) v.(vf_factor_kind)
         v.(vf_factor_code) v.(vf_now).

Definition verify_risk_challenge (db : AccountDb) (v : RiskChallengeVerification)
    : result StoreError RiskChallengeVerificationOutcome * AccountDb :=
  match db.(accounts) !! v.(vf_account_id), db.(risk_challenges) !! v.(vf_challenge_id) with
  | Some account, Some c =>
      if (account.(ac_status) ≠! AccountActive)
         || (c.(rk_account_id) ≠! v.(vf_account_id)) || (c.(rk_purpose) =! str "login_mfa")
         || negb (device_authorized db c.(rk_device_id) v.(vf_account_id))
      then (Ok RejectedOutcome, db)
      else if (c.(rk_status) =! RVerified) && bool_decide (is_Some c.(rk_verified_at))
           && bool_decide (c.(rk_consumed_at) = None) && (v.(vf_now) <? c.(rk_expires_at))
      then (Ok (AlreadyVerified c), db)
      else if (c.(rk_status) ≠! RIssued) || (c.(rk_attempts_remaining) =? 0)
           || bool_decide (is_Some c.(rk_consumed_at))
      then (Ok RejectedOutcome, db)
      else if has_audit db.(core) v.(vf_success_audit).(au_audit_id)
           || has_audit db.(core) v.(vf_failure_audit).(au_audit_id)
           || (match v.(vf_recovery_code_audit) with
               | Some a => has_audit db.(core) a.(au_audit_id) | None => false end)
      then (Err Conflict, db)
      else if c.(rk_expires_at) <=? v.(vf_now)
      then (Ok RejectedOutcome, extend_audit (set_risk_challenges db
             (<[v.(vf_challenge_id) := set_risk c RExpired c.(rk_attempts_remaining) c.(rk_verified_at)
                                         c.(rk_consumed_at)]> db.(risk_challenges)))
             [audit_reason v.(vf_failure_audit) (str "expired")])
      else match judge_challenge db v c account.(ac_password_hash) with
      | (Err e, _) => (Err e, db)
      | (Ok accepted, candidate) =>
          match candidate.(risk_challenges) !! v.(vf_challenge_id) with
          | None => (Err Unavailable, db)
          | Some challenge =>
              if accepted then
                if v.(vf_factor_kind) =! str "recovery_code" then
                  match v.(vf_recovery_code_audit) with
                  | None => (Err Conflict, db)
                  | Some a => (Ok (VerifiedOutcome challenge), extend_audit candidate [v.(vf_success_audit); a])
                  end
                else (Ok (VerifiedOutcome challenge), extend_audit candidate [v.(vf_success_audit)])
              else (Ok RejectedOutcome, extend_audit candidate [v.(vf_failure_audit)])
          end
      end
  | _, _ => (Ok RejectedOutcome, db)
  end.
End factors.

(** ** What a verified challenge pays for *)

Definition step_up_matches (db : AccountDb) (x : StepUpExpectation) : bool :=
  match db.(risk_challenges) !! x.(sx_challenge_id) with
  | None => false
  | Some c =>
      (c.(rk_status) =! RVerified) && (x.(sx_now) <? c.(rk_expires_at))
      && (c.(rk_account_id) =! x.(sx_account_id)) && (c.(rk_device_id) =! Some x.(sx_device_id))
      && (c.(rk_purpose) =! x.(sx_purpose)) && bool_decide (is_Some c.(rk_verified_at))
      && bool_decide (c.(rk_consumed_at) = None)
      && (c.(rk_operation_binding_hash) =! x.(sx_operation_binding_hash))
  end.

Definition consume_step_up_in_database (db : AccountDb) (x : StepUpExpectation)
    : result StoreError unit * AccountDb :=
  if negb (step_up_matches db x) then (Err Conflict, db)
  else match db.(risk_challenges) !! x.(sx_challenge_id) with
  | None => (Err Conflict, db)
  | Some c => (Ok tt, set_risk_challenges db
      (<[x.(sx_challenge_id) := set_risk c RConsumed c.(rk_attempts_remaining) c.(rk_verified_at)
                                  (Some x.(sx_now))]> db.(risk_challenges)))
  end.

Definition advance_account_security_epoch (db : AccountDb) (account_id : rstr) (now : Z)
    : result StoreError AccountDb :=
  a ← ok_or (db.(accounts) !! account_id) Conflict;
  Ok (set_accounts db (<[account_id := touch_account a a.(ac_password_hash) now]> db.(accounts))).

Definition authority_revocation_audits (db : AccountDb) (account_id revoked_reason : rstr) (source : AuditEntry)
    : list AuditEntry :=
  ((λ kv, account_session_revocation_audit source kv.2.(as_account_session_id) revoked_reason) <$>
     filter (λ kv, kv.2.(as_account_id) = account_id ∧ kv.2.(as_revoked_at) = None) (btree_iter db.(account_sessions)))
  ++ ((λ kv, trusted_device_revocation_audit source kv.2.(tr_trusted_device_id)
               kv.2.(tr_controller_device_id) revoked_reason) <$>
     filter (λ kv, kv.2.(tr_account_id) = account_id ∧ kv.2.(tr_status) = TrustActive)
       (btree_iter db.(trusted_controller_devices))).

(** Every session of the account that is not revoked is revoked, and every
    trusted device that is active. *)
Definition revoke_authority (db : AccountDb) (account_id revoked_reason : rstr) (now : Z) : AccountDb :=
  set_trusted (set_account_sessions db
    ((λ s, if (s.(as_account_id) =! account_id) && bool_decide (s.(as_revoked_at) = None)
           then revoke_session s now revoked_reason else s) <$> db.(account_sessions)))
    ((λ t, if (t.(tr_account_id) =! account_id) && (t.(tr_status) =! TrustActive)
           then revoke_trust t now else t) <$> db.(trusted_controller_devices)).

(** The first match of [apply_step_up_action_in_database]. *)
Definition action_allowed (db : AccountDb) (x : StepUpExpectation) (a : StepUpAction) : bool :=
  match a with
  | RotateRecoveryCodes records _ =>
      (x.(sx_purpose) =! str "recovery_code_rotate") && (match records with [] => false | _ => true end)
      && forallb (λ r, r.(rv_account_id) =! x.(sx_account_id)) records
  | DisableMfaFactor factor_id _ =>
      (x.(sx_purpose) =! str "mfa_factor_change")
      && match db.(mfa_factors) !! factor_id with
         | Some f => (f.(mf_account_id) =! x.(sx_account_id)) && f.(mf_active) | None => false end
  | ChangePassword expected new _ =>
      (x.(sx_purpose) =! str "password_change") && (new ≠! []) && (new ≠! expected)
      && match db.(accounts) !! x.(sx_account_id) with
         | Some ac => (ac.(ac_status) =! AccountActive) && (ac.(ac_password_hash) =! expected) | None => false end
  | RevokeTrustedDevice id _ =>
      (x.(sx_purpose) =! str "trusted_device_change")
      && match db.(trusted_controller_devices) !! id with
         | Some t => (t.(tr_account_id) =! x.(sx_account_id)) && (t.(tr_status) =! TrustActive) | None => false end
  end.

Definition codes_without (account_id : rstr) (m : gmap rstr RecoveryCode) : gmap rstr RecoveryCode :=
  filter (λ kv, kv.2.(rv_account_id) ≠ account_id) m.

(** The second match. *)
Definition perform_action (db : AccountDb) (x : StepUpExpectation) (a : StepUpAction)
    : result StoreError AccountDb :=
  match a with
  | RotateRecoveryCodes records _ =>
      Ok (set_recovery_codes db (foldl (λ m r, <[r.(rv_recovery_code_id) := r]> m)
            (codes_without x.(sx_account_id) db.(recovery_codes)) records))
  | DisableMfaFactor factor_id _ =>
      let db := set_mfa_factors db (delete factor_id db.(mfa_factors)) in
      let db := match btree_find (λ f, (f.(mf_account_id) =! x.(sx_account_id)) && f.(mf_active)) db.(mfa_factors) with
                | Some _ => db
                | None => set_recovery_codes db (codes_without x.(sx_account_id) db.(recovery_codes))
                end in
      advance_account_security_epoch db x.(sx_account_id) x.(sx_now)
  | ChangePassword _ new _ =>
      ac ← ok_or (db.(accounts) !! x.(sx_account_id)) Conflict;
      Ok (set_accounts db (<[x.(sx_account_id) := touch_account ac new x.(sx_now)]> db.(accounts)))
  | RevokeTrustedDevice id _ =>
      t ← ok_or (db.(trusted_controller_devices) !! id) Conflict;
      Ok (set_trusted db (<[id := revoke_trust t x.(sx_now)]> db.(trusted_controller_devices)))
  end.

Definition revoked_reason (a : StepUpAction) : option rstr :=
  match a with
  | DisableMfaFactor _ _ => Some (str "mfa_disabled")
  | ChangePassword _ _ _ => Some (str "password_changed")
  | _ => None
  end.

Definition apply_step_up_action_in_database (db : AccountDb) (x : StepUpExpectation) (a : StepUpAction)
    : result StoreError AccountDb :=
  _ ← ensure (step_up_matches db x) Conflict;
  _ ← ensure (device_authorized db (Some x.(sx_device_id)) x.(sx_account_id)) Conflict;
  _ ← ensure (negb (has_audit db.(core) (action_audit a).(au_audit_id)
               || ((action_audit a).(au_actor_account_id) ≠! Some x.(sx_account_id)))) Conflict;
  _ ← ensure (action_allowed db x a) Conflict;
  match consume_step_up_in_database db x with
  | (Err e, _) => Err e
  | (Ok _, db) =>
      db ← perform_action db x a;
      db ← match revoked_reason a with
           | None => Ok db
           | Some reason =>
               let audits := authority_revocation_audits db x.(sx_account_id) reason (action_audit a) in
               _ ← ensure (forallb (λ e, negb (has_audit db.(core) e.(au_audit_id))) audits) Conflict;
               Ok (extend_audit (revoke_authority db x.(sx_account_id) reason x.(sx_now)) audits)
           end;
      Ok (extend_audit db [action_audit a])
  end.

(** [apply_step_up_action] works on a copy, which replaces the database when all
    went well. *)
Definition apply_step_up_action (db : AccountDb) (x : StepUpExpectation) (a : StepUpAction)
    : result StoreError unit * AccountDb :=
  match apply_step_up_action_in_database db x a with
  | Ok db' => (Ok tt, db')
  | Err e => (Err e, db)
  end.

(** ** Enrolling a second factor *)

Definition append_field (name : rstr) (value : bytes) : bytes :=
  be_bytes 4 (len name) ++ name ++ be_bytes 4 (len value) ++ value.

Definition canonical_fields (domain : rstr) (fields : list (rstr * bytes)) : bytes :=
  append_field (str "domain") domain ++ flat_map (λ f, append_field f.1 f.2) fields.

Record TotpEnrollmentCompletion := {
  cp_factor : MfaFactor;
  cp_recovery_codes : list RecoveryCode;
  cp_delivery : RecoveryCodeDelivery;
  cp_audit : AuditEntry }.

Record TotpEnrollmentReplayLookup := {
  lk_account_id : rstr;
  lk_account_session_id : rstr;
  lk_factor_id : rstr;
  lk_idempotency_key_hash : bytes;
  lk_finish_request_binding_hash : option bytes;
  lk_client_ephemeral_public_key : option bytes;
  lk_access_token_expires_at : Z;
  lk_now : Z }.

Inductive TotpEnrollmentReplayOutcome :=
| EnrollmentReplayed (d : RecoveryCodeDelivery) | EnrollmentNotFound | EnrollmentBindingMismatch
| EnrollmentNotAuthorized.

Section enrollment.
Context `{P : Primitives}.

Definition totp_enrollment_finish_binding_hash (account_id account_session_id factor_id : rstr)
    (idempotency_key_hash client_ephemeral_public_key : bytes) : bytes :=
  sha256 (canonical_fields (str "rctl-totp-enrollment-finish-v1")
    [(str "account_id", account_id); (str "account_session_id", account_session_id);
     (str "factor_id", factor_id); (str "idempotency_key_hash", idempotency_key_hash);
     (str "client_ephemeral_public_key", client_ephemeral_public_key)]).

Definition recovery_delivery_binding_is_valid (d : RecoveryCodeDelivery) : bool :=
  d.(dl_finish_request_binding_hash) =! totp_enrollment_finish_binding_hash d.(dl_account_id)
    d.(dl_account_session_id) d.(dl_factor_id) d.(dl_idempotency_key_hash)
    d.(dl_client_ephemeral_public_key).

(** The loop over the new recovery codes: each is fresh, in itself, among those
    before it ([ids], [hashes]) and in the table. *)
Fixpoint codes_fresh (ids : gset rstr) (hashes : gset bytes) (db : AccountDb) (account_id : rstr) (now : Z)
    (records : list RecoveryCode) : bool :=
  match records with
  | [] => true
  | r :: records =>
      negb ((r.(rv_account_id) ≠! account_id) || bool_decide (is_Some r.(rv_used_at))
            || (match r.(rv_expires_at) with Some e => e <=? now | None => false end)
            || bool_decide (r.(rv_recovery_code_id) ∈ ids) || bool_decide (r.(rv_code_hash) ∈ hashes)
            || bool_decide (is_Some (db.(recovery_codes) !! r.(rv_recovery_code_id)))
            || bool_decide (is_Some (btree_find (λ c, c.(rv_code_hash) =! r.(rv_code_hash)) db.(recovery_codes))))
      && codes_fresh ({[r.(rv_recovery_code_id)]} ∪ ids) ({[r.(rv_code_hash)]} ∪ hashes) db account_id now records
  end.

Definition delivery_valid (db : AccountDb) (c : TotpEnrollmentCompletion) : bool :=
  let d := c.(cp_delivery) in
  negb ((d.(dl_account_id) ≠! c.(cp_factor).(mf_account_id)) || (d.(dl_factor_id) ≠! c.(cp_factor).(mf_factor_id))
        || negb (d.(dl_recovery_code_count) =? len c.(cp_recovery_codes))
        || (len d.(dl_ciphertext) <? 16) || (d.(dl_expires_at) <=? d.(dl_created_at))
        || (sat_add 64 d.(dl_created_at) (24 * 60 * 60 * 1000) <? d.(dl_expires_at))
        || bool_decide (is_Some d.(dl_acknowledged_at))
        || negb (recovery_delivery_binding_is_valid d)
        || negb (account_session_active db d.(dl_account_session_id) c.(cp_factor).(mf_account_id)
                   c.(cp_audit).(au_created_at))
        || bool_decide (is_Some (db.(recovery_code_deliveries) !! d.(dl_delivery_id)))
        || bool_decide (is_Some (btree_find (λ x, (x.(dl_account_id) =! d.(dl_account_id))
             && (x.(dl_idempotency_key_hash) =! d.(dl_idempotency_key_hash))) db.(recovery_code_deliveries)))).

Definition finish_totp_enrollment_in (db : AccountDb) (c : TotpEnrollmentCompletion)
    : result StoreError AccountDb :=
  let f := c.(cp_factor) in
  let now := c.(cp_audit).(au_created_at) in
  _ ← ensure (negb (negb f.(mf_active) || bool_decide (f.(mf_last_used_counter) = None)
               || (match c.(cp_recovery_codes) with [] => true | _ => false end)
               || bool_decide (is_Some (db.(mfa_factors) !! f.(mf_factor_id)))
               || bool_decide (is_Some (btree_find (λ x, (x.(mf_account_id) =! f.(mf_account_id)) && x.(mf_active))
                                          db.(mfa_factors))))) Conflict;
  _ ← ensure (codes_fresh ∅ ∅ db f.(mf_account_id) now c.(cp_recovery_codes)) Conflict;
  _ ← ensure (delivery_valid db c) Conflict;
  let db := set_mfa_factors db (<[f.(mf_factor_id) := f]> db.(mfa_factors)) in
  let db := set_recovery_codes db (foldl (λ m r, <[r.(rv_recovery_code_id) := r]> m)
    (filter (λ kv, kv.2.(rv_account_id) ≠ f.(mf_account_id) ∨ is_Some kv.2.(rv_used_at)) db.(recovery_codes))
    c.(cp_recovery_codes)) in
  let db := set_deliveries db (<[c.(cp_delivery).(dl_delivery_id) := c.(cp_delivery)]> db.(recovery_code_deliveries)) in
  db ← advance_account_security_epoch db f.(mf_account_id) now;
  let audits := authority_revocation_audits db f.(mf_account_id) (str "mfa_enabled") c.(cp_audit) in
  _ ← ensure (forallb (λ e, negb (has_audit db.(core) e.(au_audit_id))) audits) Conflict;
  Ok (extend_audit (revoke_authority db f.(mf_account_id) (str "mfa_enabled") now) (audits ++ [c.(cp_audit)])).

Definition finish_totp_enrollment (db : AccountDb) (c : TotpEnrollmentCompletion)
    : result StoreError unit * AccountDb :=
  match finish_totp_enrollment_in db c with
  | Ok db' => (Ok tt, db')
  | Err e => (Err e, db)
  end.

Definition replay_totp_enrollment (db : AccountDb) (l : TotpEnrollmentReplayLookup)
    : result StoreError TotpEnrollmentReplayOutcome :=
  match btree_find (λ d, (d.(dl_account_id) =! l.(lk_account_id))
                         && (d.(dl_idempotency_key_hash) =! l.(lk_idempotency_key_hash)))
          db.(recovery_code_deliveries) with
  | None => Ok EnrollmentNotFound
  | Some (_, d) =>
      if (d.(dl_account_session_id) ≠! l.(lk_account_session_id)) || (d.(dl_factor_id) ≠! l.(lk_factor_id))
         || (match l.(lk_finish_request_binding_hash) with
             | Some b => d.(dl_finish_request_binding_hash) ≠! b | None => false end)
         || (match l.(lk_client_ephemeral_public_key) with
             | Some k => d.(dl_client_ephemeral_public_key) ≠! k | None => false end)
      then Ok EnrollmentBindingMismatch
      else if negb (recovery_delivery_binding_is_valid d) then Err Unavailable
      else match db.(account_sessions) !! d.(dl_account_session_id) with
      | None => Ok EnrollmentNotAuthorized
      | Some s =>
          if (s.(as_account_id) ≠! l.(lk_account_id)) || (s.(as_revoked_reason) ≠! Some (str "mfa_enabled"))
             || bool_decide (s.(as_revoked_at) = None) || (l.(lk_access_token_expires_at) <=? l.(lk_now))
          then Ok EnrollmentNotAuthorized
          else if bool_decide (is_Some d.(dl_acknowledged_at)) || (d.(dl_expires_at) <=? l.(lk_now))
          then Ok EnrollmentNotAuthorized
          else Ok (EnrollmentReplayed d)
      end
  end.
End enrollment.
