(* ===== verification/ApiLogin.v ===== *)
(** * Completing a login

    Models services/api-server/src/store.rs, the memory repository: the challenge
    that a correct password earns ([create_login_challenge]), its rejection, and
    [finish_login], which turns it into an account session, with the checks of the
    command, of its artifacts and of its binding to the challenge.

    The checks that all end in the same refusal are one conjunction, whatever
    their order in the code. *)

From S2P Require Import Prelude Text Canonical Security Primitives Net ApiSession Ephemeral ApiAccount.

(** ** Data *)

Record LoginFinishCommand := {
  fc_challenge_id : rstr;
  fc_account_id : rstr;
  fc_account_updated_at : Z;
  fc_persistent_device_id : option rstr;
  fc_device_id : rstr;
  fc_public_key_id : option rstr;
  fc_public_key_version : Z;
  fc_device_public_key_fingerprint : bytes;
  fc_challenge_binding_hash : bytes;
  fc_required_factors : list rstr;
  fc_factor_kind : option rstr;
  fc_factor_code : option rstr;
  fc_trusted_device_id_to_use : option rstr;
  fc_account_session : AccountSession;
  fc_enrollment_grant : option DeviceEnrollmentGrant;
  fc_trusted_device_to_create : option TrustedControllerDevice;
  fc_audit_entries : list AuditEntry;
  fc_failure_audit : AuditEntry;
  fc_now : Z }.

Record LoginChallengeAuthority := { la_challenge : RiskChallenge; la_context : LoginChallengeContext }.

Inductive LoginFinishOutcome := LoginCompleted | LoginRejected | InvalidChallenge | InvalidFactor | InvalidTrust.

#[global] Instance LoginDeviceState_eq_dec : EqDecision LoginDeviceState.
Proof. solve_decision. Defined.

#[global] Instance StoreError_eq_dec : EqDecision StoreError.
Proof. solve_decision. Defined.
#[global] Instance LoginFinishOutcome_eq_dec : EqDecision LoginFinishOutcome.
Proof. solve_decision. Defined.

Definition none {A} (o : option A) : bool := match o with None => true | Some _ => false end.

(** ** Checks *)

Definition risk_challenge_required_methods_are_valid (purpose : rstr) (required : list rstr) : bool :=
  let mfa_methods := [str "totp"; str "recovery_code"] in
  if purpose =! str "login_mfa" then (required =! []) || (required =! mfa_methods)
  else if purpose =! str "password_change" then (required =! [str "password"]) || (required =! mfa_methods)
  else required =! mfa_methods.

Definition expected_persistent_device_id (x : LoginChallengeContext) : option rstr :=
  if x.(lc_device_state) =! Registered then Some x.(lc_device_id) else None.

Definition validate_login_finish_command_shape (c : LoginFinishCommand) : bool :=
  let has_factor := negb (none c.(fc_factor_kind)) in
  let uses_trusted_device := negb (none c.(fc_trusted_device_id_to_use)) in
  let registered := negb (none c.(fc_persistent_device_id)) in
  let s := c.(fc_account_session) in
  let shape :=
    match registered, negb (none c.(fc_enrollment_grant)), negb (none c.(fc_trusted_device_to_create)), has_factor with
    | true, false, true, true | true, false, false, false | false, true, false, _ => true
    | _, _, _, _ => false
    end in
  negb ((c.(fc_challenge_id) =! []) || (c.(fc_account_id) =! []) || (c.(fc_device_id) =! [])
        || (s.(as_account_session_id) =! []) || (s.(as_account_id) ≠! c.(fc_account_id))
        || negb (Bool.eqb s.(as_mfa_verified) (has_factor || uses_trusted_device))
        || (s.(as_expires_at) <=? c.(fc_now)) || negb (none s.(as_revoked_at)) || negb (none s.(as_revoked_reason))
        || negb (Bool.eqb has_factor (negb (none c.(fc_factor_code))))
        || Bool.eqb has_factor (c.(fc_required_factors) =! [])
        || (has_factor && uses_trusted_device) || (negb registered && uses_trusted_device)
        || (match c.(fc_persistent_device_id) with Some d => d ≠! c.(fc_device_id) | None => false end)
        || negb shape).

Definition validate_login_finish_authority_binding (c : LoginFinishCommand) (ch : RiskChallenge)
    (x : LoginChallengeContext) : bool :=
  negb ((c.(fc_challenge_id) ≠! ch.(rk_risk_challenge_id)) || (c.(fc_account_id) ≠! ch.(rk_account_id))
        || (c.(fc_persistent_device_id) ≠! ch.(rk_device_id))
        || (c.(fc_persistent_device_id) ≠! expected_persistent_device_id x)
        || negb (c.(fc_account_updated_at) =? x.(lc_account_updated_at))
        || (c.(fc_device_id) ≠! x.(lc_device_id)) || (c.(fc_public_key_id) ≠! x.(lc_public_key_id))
        || negb (c.(fc_public_key_version) =? x.(lc_public_key_version))
        || (c.(fc_device_public_key_fingerprint) ≠! x.(lc_device_public_key_fingerprint))
        || (c.(fc_challenge_binding_hash) ≠! x.(lc_login_challenge_binding_hash))
        || (c.(fc_required_factors) ≠! x.(lc_required_factors))
        || (c.(fc_trusted_device_id_to_use) ≠! x.(lc_trusted_device_id))
        || (match c.(fc_enrollment_grant) with
            | Some g => negb (g.(gr_protocol_version) =? x.(lc_protocol_version)) | None => false end)).

(** The audit entries that go with the login. *)
Definition expected_actions (c : LoginFinishCommand) : gset rstr :=
  {[str "mfa_challenge_succeeded"; str "login_succeeded"]}
  ∪ (if none c.(fc_trusted_device_to_create) then ∅ else {[str "trusted_device_added"]})
  ∪ (if c.(fc_factor_kind) =! Some (str "recovery_code") then {[str "mfa_recovery_code_used"]} else ∅).

Definition login_audit_ok (c : LoginFinishCommand) (result_ : rstr) (e : AuditEntry) : bool :=
  negb (is_blank e.(au_audit_id)) && (e.(au_actor_type) =! str "account") && (e.(au_result) =! result_)
  && (e.(au_actor_account_id) =! Some c.(fc_account_id)) && none e.(au_actor_device_id)
  && none e.(au_actor_role) && none e.(au_actor_service) && (e.(au_created_at) =? c.(fc_now)).

Definition audits_ok (c : LoginFinishCommand) : bool :=
  bool_decide (list_to_set (au_action <$> c.(fc_audit_entries)) = expected_actions c)
  && (length c.(fc_audit_entries) =? size (expected_actions c))%nat
  && forallb (login_audit_ok c (str "success")) c.(fc_audit_entries)
  && login_audit_ok c (str "failure") c.(fc_failure_audit)
  && (c.(fc_failure_audit).(au_action) =! str "mfa_challenge_failed")
  && bool_decide (NoDup ((au_audit_id <$> c.(fc_audit_entries)) ++ [c.(fc_failure_audit).(au_audit_id)])).

(** [a.checked_sub(b)]. *)
Definition checked_sub (a b : Z) : option Z := if b <=? a then Some (a - b) else None.

Definition grant_ok (c : LoginFinishCommand) (ch : RiskChallenge) (g : DeviceEnrollmentGrant) : bool :=
  let trust_matches_factor :=
    match c.(fc_factor_kind) with
    | None => negb g.(gr_establish_trust) && none g.(gr_trust_proof_type) && none g.(gr_trust_level)
    | Some k =>
        if k =! str "totp" then
          g.(gr_establish_trust) && (g.(gr_trust_proof_type) =! Some (str "device_signature_and_mfa"))
          && (g.(gr_trust_level) =! Some (str "standard"))
        else if k =! str "recovery_code" then
          g.(gr_establish_trust) && (g.(gr_trust_proof_type) =! Some (str "device_signature_and_recovery_code"))
          && (g.(gr_trust_level) =! Some (str "high_risk_step_up_required"))
        else false
    end in
  negb (is_blank g.(gr_grant_id) || (g.(gr_account_id) ≠! c.(fc_account_id)) || (g.(gr_device_id) ≠! c.(fc_device_id))
        || (g.(gr_login_challenge_id) ≠! c.(fc_challenge_id))
        || (g.(gr_issued_account_session_id) ≠! c.(fc_account_session).(as_account_session_id))
        || (g.(gr_protocol_version) =? 0) || negb (g.(gr_issued_at) =? c.(fc_now))
        || (ch.(rk_expires_at) <? g.(gr_expires_at))
        || negb (match checked_sub g.(gr_expires_at) g.(gr_issued_at) with
                 | Some ttl => (0 <? ttl) && (ttl <=? 300000) | None => false end)
        || negb (none g.(gr_consumed_at) && none g.(gr_registration_request_binding_hash)
                 && none g.(gr_registered_public_key_id) && none g.(gr_registered_trusted_device_id))
        || negb trust_matches_factor
        || (g.(gr_device_public_key_fingerprint) ≠! c.(fc_device_public_key_fingerprint))
        || (g.(gr_login_challenge_binding_hash) ≠! c.(fc_challenge_binding_hash))).

Definition trust_ok (c : LoginFinishCommand) (t : TrustedControllerDevice) : bool :=
  let ttl := checked_sub t.(tr_expires_at) t.(tr_created_at) in
  let shape :=
    ((c.(fc_factor_kind) =! Some (str "totp")) && (t.(tr_trust_proof_type) =! str "device_signature_and_mfa")
     && (t.(tr_trust_level) =! str "standard") && bool_decide (ttl = Some 2592000000))
    || ((c.(fc_factor_kind) =! Some (str "recovery_code"))
        && (t.(tr_trust_proof_type) =! str "device_signature_and_recovery_code")
        && (t.(tr_trust_level) =! str "high_risk_step_up_required") && bool_decide (ttl = Some 86400000)) in
  negb (is_blank t.(tr_trusted_device_id) || (t.(tr_account_id) ≠! c.(fc_account_id))
        || (t.(tr_controller_device_id) ≠! c.(fc_device_id)) || (t.(tr_status) ≠! TrustActive)
        || negb (t.(tr_created_at) =? c.(fc_now)) || negb (none t.(tr_last_used_at))
        || negb (none t.(tr_revoked_at)) || negb shape
        || (t.(tr_device_fingerprint_hash) ≠! c.(fc_device_public_key_fingerprint))).

Definition validate_login_finish_artifacts (c : LoginFinishCommand) (ch : RiskChallenge) : bool :=
  audits_ok c
  && (match c.(fc_enrollment_grant) with Some g => grant_ok c ch g | None => true end)
  && (match c.(fc_trusted_device_to_create) with
      | Some t => trust_ok c t
      | None => none c.(fc_factor_kind) || none c.(fc_persistent_device_id)
      end).

Section operations.
Context `{P : Primitives} `{F : FactorCrypto}.

Definition validate_login_challenge_authority (a : LoginChallengeAuthority) : bool :=
  let ch := a.(la_challenge) in
  let x := a.(la_context) in
  let identity_shape_valid :=
    match x.(lc_device_state) with
    | Registered => (match x.(lc_public_key_id) with Some i => i ≠! [] | None => false end)
                    && (0 <? x.(lc_public_key_version))
    | PendingEnrollment => none x.(lc_public_key_id) && (x.(lc_public_key_version) =? 0)
    end in
  negb ((ch.(rk_purpose) ≠! str "login_mfa")
        || negb (risk_challenge_required_methods_are_valid ch.(rk_purpose) ch.(rk_required_methods))
        || (ch.(rk_status) ≠! RIssued) || (ch.(rk_device_id) ≠! expected_persistent_device_id x)
        || (ch.(rk_account_id) =! []) || (x.(lc_device_id) =! []) || negb identity_shape_valid
        || (x.(lc_protocol_version) =? 0) || (x.(lc_attempts_limit) =? 0) || (5 <? x.(lc_attempts_limit))
        || negb (ch.(rk_attempts_remaining) =? x.(lc_attempts_limit))
        || (ch.(rk_required_methods) ≠! x.(lc_required_factors))
        || negb (ch.(rk_created_at) =? x.(lc_issued_at))
        || negb (match checked_sub ch.(rk_expires_at) ch.(rk_created_at) with
                 | Some ttl => (0 <? ttl) && (ttl <=? 300000) | None => false end)
        || (sha256 x.(lc_device_public_key) ≠! x.(lc_device_public_key_fingerprint))
        || (ch.(rk_operation_binding_hash) ≠! x.(lc_login_challenge_binding_hash))).

(** The account is active and has not changed since [updated_at]. *)
Definition account_unchanged (db : AccountDb) (account_id : rstr) (updated_at : Z) : bool :=
  match db.(accounts) !! account_id with
  | Some ac => (ac.(ac_status) =! AccountActive) && (ac.(ac_updated_at) =? updated_at)
  | None => false
  end.

Definition create_login_challenge (db : AccountDb) (a : LoginChallengeAuthority) (audit : AuditEntry)
    : result StoreError unit * AccountDb :=
  let ch := a.(la_challenge) in
  if negb (validate_login_challenge_authority a)
     || bool_decide (is_Some (db.(risk_challenges) !! ch.(rk_risk_challenge_id)))
     || bool_decide (is_Some (db.(login_challenge_contexts) !! ch.(rk_risk_challenge_id)))
     || has_audit db.(core) audit.(au_audit_id) || (audit.(au_actor_account_id) ≠! Some ch.(rk_account_id))
     || negb (account_unchanged db ch.(rk_account_id) a.(la_context).(lc_account_updated_at))
  then (Err Conflict, db)
  else (Ok tt, extend_audit (set_login_contexts
         (set_risk_challenges db (<[ch.(rk_risk_challenge_id) := ch]> db.(risk_challenges)))
         (<[ch.(rk_risk_challenge_id) := a.(la_context)]> db.(login_challenge_contexts))) [audit]).

Definition reject_login_challenge (db : AccountDb) (challenge_id : rstr) (binding_hash : bytes) (now : Z)
    (audit : AuditEntry) : result StoreError bool * AccountDb :=
  if has_audit db.(core) audit.(au_audit_id) then (Err Conflict, db)
  else match db.(risk_challenges) !! challenge_id with
  | None => (Ok false, db)
  | Some c =>
      if (c.(rk_purpose) ≠! str "login_mfa") || (c.(rk_status) ≠! RIssued) || (c.(rk_expires_at) <=? now)
         || (c.(rk_operation_binding_hash) ≠! binding_hash)
      then (Ok false, db)
      else (Ok true, extend_audit (set_risk_challenges db
             (<[challenge_id := judge_risk c false now]> db.(risk_challenges))) [audit])
  end.

(** The device of the login: registered with the key of the challenge, or not
    registered at all. *)
Definition login_device_valid (db : AccountDb) (c : LoginFinishCommand) : bool :=
  match c.(fc_persistent_device_id), db.(core).(db_devices) !! c.(fc_device_id) with
  | Some _, Some d =>
      (d.(dv_account_id) =! c.(fc_account_id)) && is_authorizable d.(dv_status)
      && none d.(dv_public_key_revoked_at) && (c.(fc_public_key_id) =! Some d.(dv_public_key_id))
      && (c.(fc_public_key_version) =? d.(dv_public_key_version))
      && (sha256 d.(dv_public_key) =! c.(fc_device_public_key_fingerprint))
  | None, None => none c.(fc_public_key_id) && (c.(fc_public_key_version) =? 0)
  | _, _ => false
  end.

(** Where the login stands after a stage: it is over, with an answer and a
    database, or goes on. *)
Inductive stage := Stop (r : result StoreError LoginFinishOutcome) (db : AccountDb) | Go (db : AccountDb).

Definition set_last_used (t : TrustedControllerDevice) (status : TrustedDeviceStatus) (last_used : option Z)
    : TrustedControllerDevice := {|
  tr_trusted_device_id := t.(tr_trusted_device_id); tr_account_id := t.(tr_account_id);
  tr_controller_device_id := t.(tr_controller_device_id);
  tr_device_fingerprint_hash := t.(tr_device_fingerprint_hash); tr_trust_level := t.(tr_trust_level);
  tr_status := status; tr_trust_proof_type := t.(tr_trust_proof_type);
  tr_created_at := t.(tr_created_at); tr_last_used_at := last_used; tr_expires_at := t.(tr_expires_at);
  tr_revoked_at := t.(tr_revoked_at) |}.

(** A trusted device stands for the factor. *)
Definition trust_usable (c : LoginFinishCommand) (t : TrustedControllerDevice) : bool :=
  (t.(tr_account_id) =! c.(fc_account_id)) && (t.(tr_controller_device_id) =! c.(fc_device_id))
  && (t.(tr_status) =! TrustActive) && (c.(fc_now) <? t.(tr_expires_at))
  && (t.(tr_device_fingerprint_hash) =! c.(fc_device_public_key_fingerprint)).

Definition login_trust (db : AccountDb) (c : LoginFinishCommand) : stage :=
  if mfa_enabled db c.(fc_account_id) then
    match c.(fc_trusted_device_id_to_use) with
    | None => Stop (Ok InvalidTrust) db
    | Some id =>
        match db.(trusted_controller_devices) !! id with
        | None => Stop (Ok InvalidTrust) db
        | Some t =>
            if trust_usable c t
            then Go (set_trusted db (<[id := set_last_used t t.(tr_status) (Some c.(fc_now))]>
                       db.(trusted_controller_devices)))
            else
              let status := if (t.(tr_status) =! TrustActive) && (t.(tr_expires_at) <=? c.(fc_now))
                            then TrustExpired else t.(tr_status) in
              Stop (Ok InvalidTrust) (set_trusted db (<[id := set_last_used t status t.(tr_last_used_at)]>
                db.(trusted_controller_devices)))
        end
    end
  else if negb (none c.(fc_trusted_device_id_to_use)) then Stop (Ok InvalidTrust) db
  else Go db.

(** [original] is the database before the login, which an error leaves alone. *)
Definition login_factor (original : AccountDb) (c : LoginFinishCommand) : stage :=
  let db := original in
  if c.(fc_required_factors) =! [] then
    if negb (none c.(fc_factor_kind)) || negb (none c.(fc_factor_code)) then Stop (Ok InvalidFactor) db
    else match login_trust db c with
    | Stop r db => Stop r db
    | Go db =>
        match db.(risk_challenges) !! c.(fc_challenge_id) with
        | None => Stop (Err Unavailable) original
        | Some ch => Go (set_risk_challenges db (<[c.(fc_challenge_id) :=
            set_risk ch ch.(rk_status) ch.(rk_attempts_remaining) (Some c.(fc_now)) ch.(rk_consumed_at)]>
            db.(risk_challenges)))
        end
    end
  else if negb (none c.(fc_trusted_device_id_to_use)) || negb (mfa_enabled db c.(fc_account_id))
  then Stop (Ok InvalidFactor) db
  else match c.(fc_factor_kind), c.(fc_factor_code) with
  | Some kind, Some code =>
      if negb (bool_decide (kind ∈ c.(fc_required_factors))) then Stop (Ok InvalidFactor) db
      else match verify_factor_in_database db (Some c.(fc_challenge_id)) c.(fc_account_id) kind code c.(fc_now) with
      | (Err e, _) => Stop (Err e) original
      | (Ok true, db) => Go db
      | (Ok false, db) => Stop (Ok InvalidFactor) (extend_audit db [c.(fc_failure_audit)])
      end
  | _, _ => Stop (Ok InvalidFactor) db
  end.

(** The new session, the grant to enrol a new device, the trust in a known one. *)
Definition add_grant (db : AccountDb) (c : LoginFinishCommand) : option AccountDb :=
  match c.(fc_enrollment_grant) with
  | None => Some db
  | Some g =>
      if bool_decide (is_Some (db.(device_enrollment_grants) !! g.(gr_grant_id)))
         || (g.(gr_account_id) ≠! c.(fc_account_id)) || (g.(gr_device_id) ≠! c.(fc_device_id))
         || (g.(gr_issued_account_session_id) ≠! c.(fc_account_session).(as_account_session_id))
         || (g.(gr_device_public_key_fingerprint) ≠! c.(fc_device_public_key_fingerprint))
         || (g.(gr_login_challenge_binding_hash) ≠! c.(fc_challenge_binding_hash))
      then None
      else Some (set_grants db (<[g.(gr_grant_id) := g]> db.(device_enrollment_grants)))
  end.

Definition add_trust (db : AccountDb) (c : LoginFinishCommand) : option AccountDb :=
  match c.(fc_trusted_device_to_create) with
  | None => Some db
  | Some t =>
      if negb (none c.(fc_enrollment_grant)) || none c.(fc_factor_kind)
         || bool_decide (is_Some (db.(trusted_controller_devices) !! t.(tr_trusted_device_id)))
         || (t.(tr_account_id) ≠! c.(fc_account_id)) || (t.(tr_controller_device_id) ≠! c.(fc_device_id))
         || (t.(tr_device_fingerprint_hash) ≠! c.(fc_device_public_key_fingerprint))
      then None
      else
        added ← List.find (λ e, e.(au_action) =! str "trusted_device_added") c.(fc_audit_entries);
        let replaced (x : TrustedControllerDevice) :=
          (x.(tr_account_id) =! c.(fc_account_id)) && (x.(tr_controller_device_id) =! c.(fc_device_id))
          && (x.(tr_status) =! TrustActive) in
        let audits := (λ kv : rstr * TrustedControllerDevice, trusted_device_revocation_audit added
            kv.2.(tr_trusted_device_id) kv.2.(tr_controller_device_id) (str "refreshed")) <$>
          filter (λ kv, replaced kv.2 = true) (btree_iter db.(trusted_controller_devices)) in
        if existsb (λ e, has_audit db.(core) e.(au_audit_id)
             || existsb (λ x, x.(au_audit_id) =! e.(au_audit_id)) c.(fc_audit_entries)) audits
        then None
        else
          let revoked := (λ x, if replaced x then revoke_trust x c.(fc_now) else x) <$>
            db.(trusted_controller_devices) in
          Some (set_trusted (extend_audit db audits) (<[t.(tr_trusted_device_id) := t]> revoked))
  end.

Definition complete_login (original db : AccountDb) (c : LoginFinishCommand)
    : result StoreError LoginFinishOutcome * AccountDb :=
  let s := c.(fc_account_session) in
  if bool_decide (is_Some (db.(account_sessions) !! s.(as_account_session_id)))
     || (s.(as_account_id) ≠! c.(fc_account_id)) || negb (none s.(as_revoked_at)) || negb (none s.(as_revoked_reason))
  then (Err Conflict, original)
  else match add_grant db c ≫= λ db, add_trust db c with
  | None => (Err Conflict, original)
  | Some db =>
      match db.(risk_challenges) !! c.(fc_challenge_id) with
      | None => (Err Unavailable, original)
      | Some ch =>
          let db := set_risk_challenges db (<[c.(fc_challenge_id) :=
            set_risk ch RConsumed ch.(rk_attempts_remaining) (Some c.(fc_now)) (Some c.(fc_now))]>
            db.(risk_challenges)) in
          (Ok LoginCompleted, extend_audit (set_account_sessions db
             (<[s.(as_account_session_id) := s]> db.(account_sessions))) c.(fc_audit_entries))
      end
  end.

(** The attempt is lost: the account or the device changed under the login. *)
Definition lose_login (db : AccountDb) (c : LoginFinishCommand) (ch : RiskChallenge) (reason : rstr)
    : result StoreError LoginFinishOutcome * AccountDb :=
  (Ok LoginRejected, extend_audit (set_risk_challenges db
     (<[c.(fc_challenge_id) := judge_risk ch false c.(fc_now)]> db.(risk_challenges)))
     [audit_reason c.(fc_failure_audit) reason]).

Definition finish_login (db : AccountDb) (c : LoginFinishCommand)
    : result StoreError LoginFinishOutcome * AccountDb :=
  if negb (validate_login_finish_command_shape c) then (Err Conflict, db)
  else match db.(risk_challenges) !! c.(fc_challenge_id), db.(login_challenge_contexts) !! c.(fc_challenge_id) with
  | Some ch, Some x =>
      if (ch.(rk_account_id) ≠! c.(fc_account_id)) || (ch.(rk_device_id) ≠! c.(fc_persistent_device_id))
         || (ch.(rk_purpose) ≠! str "login_mfa")
         || (ch.(rk_operation_binding_hash) ≠! c.(fc_challenge_binding_hash))
         || (ch.(rk_required_methods) ≠! c.(fc_required_factors))
         || negb (validate_login_finish_authority_binding c ch x)
      then (Ok InvalidChallenge, db)
      else if has_audit db.(core) c.(fc_failure_audit).(au_audit_id) then (Err Conflict, db)
      else if (ch.(rk_status) =! RIssued) && (ch.(rk_expires_at) <=? c.(fc_now))
      then (Ok InvalidChallenge, extend_audit (set_risk_challenges db (<[c.(fc_challenge_id) :=
             set_risk ch RExpired ch.(rk_attempts_remaining) ch.(rk_verified_at) ch.(rk_consumed_at)]>
             db.(risk_challenges))) [audit_reason c.(fc_failure_audit) (str "expired")])
      else if (ch.(rk_status) ≠! RIssued) || (ch.(rk_attempts_remaining) =? 0) then (Ok InvalidChallenge, db)
      else if negb (validate_login_finish_artifacts c ch)
           || existsb (λ e, has_audit db.(core) e.(au_audit_id)) c.(fc_audit_entries)
      then (Err Conflict, db)
      else if negb (account_unchanged db c.(fc_account_id) c.(fc_account_updated_at))
      then lose_login db c ch (str "account_security_changed")
      else if negb (login_device_valid db c) then lose_login db c ch (str "device_authority_changed")
      else match login_factor db c with
      | Stop r db => (r, db)
      | Go candidate => complete_login db candidate c
      end
  | _, _ => (Ok InvalidChallenge, db)
  end.
End operations.

(** ** What a completed login rests on *)

Section results.
Context `{P : Primitives} `{F : FactorCrypto}.

(** A factor proved by [code], and spent. *)
Definition factor_spent (db db' : AccountDb) (account_id kind code : rstr) (now : Z) : Prop :=
  (kind = str "totp" ∧ ∃ id f counter, db.(mfa_factors) !! id = Some f ∧ f.(mf_account_id) = account_id
     ∧ f.(mf_active) = true
     ∧ verify_totp f.(mf_secret_base32) code now f.(mf_last_used_counter) = Some counter
     ∧ (∀ used, f.(mf_last_used_counter) = Some used → used < counter)
     ∧ db'.(mfa_factors) !! id = Some (set_counter f counter))
  ∨ (kind = str "recovery_code" ∧ ∃ id r, db.(recovery_codes) !! id = Some r ∧ r.(rv_account_id) = account_id
     ∧ r.(rv_used_at) = None ∧ (∀ e, r.(rv_expires_at) = Some e → now < e) ∧ r.(rv_code_hash) = sha256 code
     ∧ db'.(recovery_codes) !! id = Some (use_code r now)).

(** The device is trusted: its trust is active, has not expired and is for the key
    that the challenge names. *)
Definition device_trusted (db : AccountDb) (c : LoginFinishCommand) : Prop :=
  ∃ id t, c.(fc_trusted_device_id_to_use) = Some id ∧ db.(trusted_controller_devices) !! id = Some t
    ∧ t.(tr_account_id) = c.(fc_account_id) ∧ t.(tr_controller_device_id) = c.(fc_device_id)
    ∧ t.(tr_status) = TrustActive ∧ c.(fc_now) < t.(tr_expires_at)
    ∧ t.(tr_device_fingerprint_hash) = c.(fc_device_public_key_fingerprint).

Lemma verify_totp_newer offsets secret code now last counter :
  verify_totp_from offsets secret code now last = Some counter → ∀ used, last = Some used → used < counter.
Proof.
  intros H used ->. induction offsets as [|o offsets IH]; [done|]. cbn in H.
  destruct (checked_add_signed _ _) as [t|]; [|done]. cbn in H. destruct (totp_code _ _) as [[e n]|]; [|done]. cbn in H.
  case_match; [|by apply IH]. injection H as <-. by split_bools.
Qed.

Lemma try_factor_true db account kind code now db' :
  try_factor db account kind code now = (true, db') → factor_spent db db' account kind code now.
Proof.
  unfold try_factor, factor_spent. intros H.
  destruct (bool_decide_reflect (kind = str "totp")) as [->|_].
  - destruct (btree_find _ _) as [[id f]|] eqn:Ef; [|done].
    apply btree_find_some in Ef as [Hf Hp]. destruct (verify_totp _ _ _ _) as [n|] eqn:Ev; [|done].
    injection H as <-. split_bools. left. split; [done|]. exists id, f, n.
    split_and!; try done; [by eapply verify_totp_newer|]. cbn. by rewrite lookup_insert_eq.
  - destruct (bool_decide_reflect (kind = str "recovery_code")) as [->|_]; [|done].
    destruct (btree_find _ _) as [[id r]|] eqn:Er; [|done].
    apply btree_find_some in Er as [Hr Hp]. injection H as <-. split_bools. right. split; [done|].
    exists id, r. split_and!; try done; [|cbn; by rewrite lookup_insert_eq].
    intros e He. rewrite He in *. by split_bools.
Qed.

Lemma try_factor_frame db account kind code now b db' :
  try_factor db account kind code now = (b, db') →
  db'.(accounts) = db.(accounts) ∧ db'.(account_sessions) = db.(account_sessions)
  ∧ db'.(risk_challenges) = db.(risk_challenges).
Proof. unfold try_factor. intros H. repeat case_match; by simplify_eq. Qed.

Lemma verify_factor_ok db id account kind code now accepted db' :
  verify_factor_in_database db (Some id) account kind code now = (Ok accepted, db') →
  ∃ db1 c, try_factor db account kind code now = (accepted, db1) ∧ db.(risk_challenges) !! id = Some c
    ∧ challenge_open db (Some id) account now = true
    ∧ db' = set_risk_challenges db1 (<[id := judge_risk c accepted now]> db.(risk_challenges)).
Proof.
  unfold verify_factor_in_database. intros H. destruct (challenge_open _ _ _ _) eqn:Eo; [|done]. cbn [negb] in H.
  destruct (try_factor _ _ _ _ _) as [b db1] eqn:Et. pose proof (try_factor_frame _ _ _ _ _ _ _ Et) as (_ & _ & Hr).
  rewrite Hr in H. destruct (risk_challenges db !! id) as [c|] eqn:Ec; [|done]. injection H as -> <-.
  by exists db1, c.
Qed.

(** The tables that the last stage of a login only extends. *)
Definition factor_tables (db : AccountDb) :=
  (db.(accounts), db.(account_sessions), db.(mfa_factors), db.(recovery_codes), db.(risk_challenges)).

Lemma add_grant_tables db c db' : add_grant db c = Some db' → factor_tables db' = factor_tables db.
Proof. unfold add_grant. repeat break_match; intros [= <-]; reflexivity. Qed.

Lemma add_trust_tables db c db' : add_trust db c = Some db' → factor_tables db' = factor_tables db.
Proof.
  unfold add_trust. destruct (fc_trusted_device_to_create c); [|by intros [= <-]].
  case_match; [done|]. intros Hs. apply bind_Some in Hs as (added & _ & Hs). case_match; [done|].
  by injection Hs as <-.
Qed.

Lemma complete_login_ok original db c db' :
  complete_login original db c = (Ok LoginCompleted, db') →
  let s := c.(fc_account_session) in
  db.(account_sessions) !! s.(as_account_session_id) = None
  ∧ ∃ ch, db.(risk_challenges) !! c.(fc_challenge_id) = Some ch
  ∧ factor_tables db' = (db.(accounts), <[s.(as_account_session_id) := s]> db.(account_sessions), db.(mfa_factors),
      db.(recovery_codes), <[c.(fc_challenge_id) :=
        set_risk ch RConsumed ch.(rk_attempts_remaining) (Some c.(fc_now)) (Some c.(fc_now))]> db.(risk_challenges)).
Proof.
  unfold complete_login. intros H. case_match; [done|]. split_bools.
  destruct (add_grant db c ≫= _) as [db1|] eqn:E; [|done]. apply bind_Some in E as (db0 & Eg & Et).
  apply add_grant_tables in Eg. apply add_trust_tables in Et. rewrite <-Et in Eg.
  unfold factor_tables in Eg. injection Eg as Ea Es Ef Er Ec. rewrite Ec in H.
  case_match; [|done]. injection H as <-. unfold factor_tables. cbn. rewrite Ea, Es, Ef, Er.
  split; [by apply eq_None_not_Some|]. by eexists.
Qed.

(** The checks of [finish_login] before the factor. *)
Definition login_challenge_live (db : AccountDb) (c : LoginFinishCommand) : Prop :=
  ∃ ch x, db.(risk_challenges) !! c.(fc_challenge_id) = Some ch
    ∧ db.(login_challenge_contexts) !! c.(fc_challenge_id) = Some x
    ∧ ch.(rk_account_id) = c.(fc_account_id) ∧ ch.(rk_purpose) = str "login_mfa" ∧ ch.(rk_status) = RIssued
    ∧ ch.(rk_attempts_remaining) ≠ 0 ∧ c.(fc_now) < ch.(rk_expires_at)
    ∧ ch.(rk_operation_binding_hash) = c.(fc_challenge_binding_hash)
    ∧ validate_login_finish_authority_binding c ch x = true.

Lemma login_factor_stop db c r db' : login_factor db c = Stop r db' → r ≠ Ok LoginCompleted.
Proof. unfold login_factor, login_trust. intros H. repeat (case_match; try done); simplify_eq; try done. Qed.

Lemma finish_login_ok db c db' :
  finish_login db c = (Ok LoginCompleted, db') →
  validate_login_finish_command_shape c = true ∧ login_challenge_live db c
  ∧ account_unchanged db c.(fc_account_id) c.(fc_account_updated_at) = true ∧ login_device_valid db c = true
  ∧ ∃ db1, login_factor db c = Go db1 ∧ complete_login db db1 c = (Ok LoginCompleted, db').
Proof.
  unfold finish_login, lose_login. intros H.
  repeat (case_match; try done); split_bools; subst; simplify_eq; [by eapply login_factor_stop in H10|].
  split_and!; try done; [|by eexists]. exists r, l. split_and!; try done.
  rewrite bool_decide_eq_true_2 in H5 by done. cbn in H5. by split_bools.
Qed.

(** The way through all the checks. *)
Lemma finish_login_reaches db c ch x db1 :
  validate_login_finish_command_shape c = true →
  db.(risk_challenges) !! c.(fc_challenge_id) = Some ch →
  db.(login_challenge_contexts) !! c.(fc_challenge_id) = Some x →
  ch.(rk_account_id) = c.(fc_account_id) → ch.(rk_device_id) = c.(fc_persistent_device_id) →
  ch.(rk_purpose) = str "login_mfa" → ch.(rk_operation_binding_hash) = c.(fc_challenge_binding_hash) →
  ch.(rk_required_methods) = c.(fc_required_factors) → validate_login_finish_authority_binding c ch x = true →
  has_audit db.(core) c.(fc_failure_audit).(au_audit_id) = false → ch.(rk_status) = RIssued →
  c.(fc_now) < ch.(rk_expires_at) → ch.(rk_attempts_remaining) ≠ 0 → validate_login_finish_artifacts c ch = true →
  existsb (λ e, has_audit db.(core) e.(au_audit_id)) c.(fc_audit_entries) = false →
  account_unchanged db c.(fc_account_id) c.(fc_account_updated_at) = true → login_device_valid db c = true →
  login_factor db c = Go db1 → finish_login db c = complete_login db db1 c.
Proof.
  intros Hs Hch Hx H1 H2 H3 H4 H5 Hb Hfa Hst He Hat Har Hau Hac Hd Hg. unfold finish_login.
  rewrite Hs, Hch, Hx, H1, H2, H3, H4, H5, Hb, Hfa, Hst, Har, Hau, Hac, Hd, Hg. cbn [negb].
  rewrite !bool_decide_eq_true_2 by done. cbn [negb orb andb].
  rewrite (proj2 (Z.leb_gt _ _)) by done. by rewrite (proj2 (Z.eqb_neq _ _)).
Qed.

Lemma complete_login_reaches original db c :
  let s := c.(fc_account_session) in
  db.(account_sessions) !! s.(as_account_session_id) = None → s.(as_account_id) = c.(fc_account_id) →
  s.(as_revoked_at) = None → s.(as_revoked_reason) = None →
  is_Some (add_grant db c ≫= λ db, add_trust db c) → is_Some (db.(risk_challenges) !! c.(fc_challenge_id)) →
  (complete_login original db c).1 = Ok LoginCompleted.
Proof.
  intros s Hn Ha Hr Hrr [db2 Hg] [ch Hch]. unfold complete_login. fold s. rewrite Hn, Ha, Hr, Hrr, Hg.
  rewrite (bool_decide_eq_true_2 (fc_account_id c = _)) by done.
  rewrite bool_decide_eq_false_2 by (by intros [? ?]). cbn [none negb orb].
  apply bind_Some in Hg as (db0 & Eg & Et). apply add_grant_tables in Eg. apply add_trust_tables in Et.
  rewrite Eg in Et. unfold factor_tables in Et. injection Et as _ _ _ _ ->. by rewrite Hch.
Qed.

Lemma login_trust_go db c db1 :
  login_trust db c = Go db1 →
  factor_tables db1 = factor_tables db
  ∧ if mfa_enabled db c.(fc_account_id) then device_trusted db c else c.(fc_trusted_device_id_to_use) = None.
Proof.
  unfold login_trust, device_trusted, trust_usable. intros H. destruct (mfa_enabled db _).
  - destruct (fc_trusted_device_id_to_use c) as [id|]; [|done].
    destruct (trusted_controller_devices db !! id) as [t|] eqn:Et; [|done].
    case_match; [|done]. injection H as <-. split_bools. split; [done|]. exists id, t. by split_and!.
  - destruct (fc_trusted_device_id_to_use c); [done|]. by injection H as <-.
Qed.

Lemma insert_some_keys {V} (m : gmap rstr V) i v w :
  m !! i = Some v → ∀ j, is_Some (<[i := w]> m !! j) ↔ is_Some (m !! j).
Proof. intros Hi j. destruct (decide (i = j)) as [->|?]; simplify_map_eq; [|done]. split; eauto. Qed.

(** What the factor stage lets through. *)
Lemma login_factor_go db c db1 :
  login_factor db c = Go db1 →
  db1.(accounts) = db.(accounts) ∧ db1.(account_sessions) = db.(account_sessions)
  ∧ (∀ id, is_Some (db1.(risk_challenges) !! id) ↔ is_Some (db.(risk_challenges) !! id))
  ∧ if c.(fc_required_factors) =! [] then
      c.(fc_factor_kind) = None ∧ db1.(mfa_factors) = db.(mfa_factors) ∧ db1.(recovery_codes) = db.(recovery_codes)
      ∧ if mfa_enabled db c.(fc_account_id) then device_trusted db c else c.(fc_trusted_device_id_to_use) = None
    else mfa_enabled db c.(fc_account_id) = true ∧ c.(fc_trusted_device_id_to_use) = None
      ∧ ∃ kind code, c.(fc_factor_kind) = Some kind ∧ c.(fc_factor_code) = Some code
      ∧ factor_spent db db1 c.(fc_account_id) kind code c.(fc_now).
Proof.
  unfold login_factor. intros H. destruct (fc_required_factors c =! []) eqn:Er.
  - case_match; [done|]. destruct (login_trust db c) as [|db0] eqn:Et; [done|].
    apply login_trust_go in Et as [Et Ht]. unfold factor_tables in Et. injection Et as Ea Es Ef Erc Ec.
    rewrite Ec in H. destruct (risk_challenges db !! _) as [ch|] eqn:Ech; [|done]. injection H as <-. cbn.
    split_and!; try done; [|by destruct (fc_factor_kind c)].
    by eapply insert_some_keys.
  - case_match; [done|]. destruct (fc_factor_kind c) as [kind|], (fc_factor_code c) as [code|]; try done.
    case_match; [done|]. destruct (verify_factor_in_database _ _ _ _ _ _) as [[[] |] db0] eqn:Ev; try done.
    injection H as <-. apply verify_factor_ok in Ev as (db1 & ch & Ev & Ech & _ & ->).
    pose proof (try_factor_frame _ _ _ _ _ _ _ Ev) as (Ha & Hs & _). apply try_factor_true in Ev. cbn. split_bools.
    split_and!; try done; [by eapply insert_some_keys|by destruct (fc_trusted_device_id_to_use c)|].
    by exists kind, code.
Qed.

(** The session says whether the account has a second factor. *)
Lemma login_session_mfa db c db1 :
  validate_login_finish_command_shape c = true → login_factor db c = Go db1 →
  (c.(fc_account_session)).(as_mfa_verified) = mfa_enabled db c.(fc_account_id).
Proof.
  intros Hshape Hf. apply login_factor_go in Hf as (_ & _ & _ & Hf).
  assert (Hmfa : (c.(fc_account_session)).(as_mfa_verified)
                 = negb (none c.(fc_factor_kind)) || negb (none c.(fc_trusted_device_id_to_use))).
  { unfold validate_login_finish_command_shape in Hshape. split_bools. by apply eqb_prop. }
  rewrite Hmfa. destruct (fc_required_factors c =! []).
  - destruct Hf as (-> & _ & _ & Hf). destruct (mfa_enabled db _); [|by rewrite Hf].
    by destruct Hf as (id & t & -> & _).
  - by destruct Hf as (-> & -> & kind & code & -> & _).
Qed.

(** A completed login rests on a challenge that was open for this account,
    device and key, on an account and a device that have not changed since the
    password was checked, and, exactly when the account has a second factor, on
    that factor: a trusted device with the key of the challenge, or a code that
    is spent by this login. The session says whether it was; it is new, and the
    challenge is consumed. *)
Theorem login_needs_second_factor db c db' :
  finish_login db c = (Ok LoginCompleted, db') →
  let s := c.(fc_account_session) in
  login_challenge_live db c
  ∧ account_unchanged db c.(fc_account_id) c.(fc_account_updated_at) = true
  ∧ login_device_valid db c = true
  ∧ s.(as_mfa_verified) = mfa_enabled db c.(fc_account_id)
  ∧ (mfa_enabled db c.(fc_account_id) = true →
       device_trusted db c
       ∨ ∃ kind code, c.(fc_factor_kind) = Some kind ∧ c.(fc_factor_code) = Some code
           ∧ factor_spent db db' c.(fc_account_id) kind code c.(fc_now))
  ∧ db.(account_sessions) !! s.(as_account_session_id) = None
  ∧ db'.(account_sessions) = <[s.(as_account_session_id) := s]> db.(account_sessions)
  ∧ rk_status <$> db'.(risk_challenges) !! c.(fc_challenge_id) = Some RConsumed.
Proof.
  intros H. apply finish_login_ok in H as (Hshape & Hlive & Ha & Hd & db1 & Hf & Hc).
  apply complete_login_ok in Hc as (Hn & ch & Hch & Ht). unfold factor_tables in Ht. injection Ht as _ Hs Hm Hr Hk.
  pose proof (login_session_mfa _ _ _ Hshape Hf) as Hmfa.
  apply login_factor_go in Hf as (_ & Hs1 & _ & Hf). rewrite Hs1 in *. cbn.
  rewrite Hk, lookup_insert_eq. split_and!; try done.
  intros He. rewrite He in Hf. destruct (fc_required_factors c =! []); [by left; destruct Hf as (_ & _ & _ & Hf)|].
  right. destruct Hf as (_ & _ & kind & code & ? & ? & Hf). exists kind, code. split_and!; try done.
  unfold factor_spent in *. by rewrite Hm, Hr.
Qed.

End results.

(** ** An example

    An account with a second factor logs in from a new device with a recovery
    code. *)

Definition toy_factors : FactorCrypto := {|
  verify_password h p := h =! p; base32_decode s := Some s; hmac_sha1 _ m := m ++ repeat x00 12 |}.

Definition ex_account : Account := {|
  ac_account_id := str "account-1"; ac_email := str "a@b"; ac_display_name := str "A";
  ac_password_hash := str "password-hash"; ac_status := AccountActive; ac_created_at := 0; ac_updated_at := 10 |}.

Definition ex_factor : MfaFactor := {|
  mf_factor_id := str "factor-1"; mf_account_id := str "account-1"; mf_secret_base32 := str "SECRET";
  mf_active := true; mf_last_used_counter := Some 0; mf_created_at := 10 |}.

Definition ex_code : RecoveryCode := {|
  rv_recovery_code_id := str "code-1"; rv_account_id := str "account-1";
  rv_code_hash := sha256 (Primitives := toy) (str "abcd-efgh"); rv_used_at := None; rv_expires_at := None |}.

Definition ex_audit (id action result_ : string) (now : Z) : AuditEntry := {|
  au_audit_id := str id; au_actor_type := str "account"; au_actor_account_id := Some (str "account-1");
  au_actor_device_id := None; au_actor_role := None; au_actor_service := None; au_target_device_id := None;
  au_session_id := None; au_action := str action; au_result := str result_; au_reason := None; au_metadata := ∅;
  au_request_id := str "request-1"; au_created_at := now |}.

Definition ex_key : bytes := str "device key".
Definition ex_fingerprint : bytes := sha256 (Primitives := toy) ex_key.
Definition ex_factors : list rstr := [str "totp"; str "recovery_code"].

(** The challenge that the password earned. *)
Definition ex_authority (required : list rstr) : LoginChallengeAuthority := {|
  la_challenge := {|
    rk_risk_challenge_id := str "challenge-1"; rk_account_id := str "account-1"; rk_device_id := None;
    rk_purpose := str "login_mfa"; rk_operation_binding_hash := str "binding"; rk_risk_level := str "medium";
    rk_required_methods := required; rk_status := RIssued; rk_attempts_remaining := 5; rk_ip_address := None;
    rk_user_agent := None; rk_expires_at := 300100; rk_created_at := 100; rk_verified_at := None;
    rk_consumed_at := None |};
  la_context := {|
    lc_device_state := PendingEnrollment; lc_device_id := str "device-1"; lc_account_updated_at := 10;
    lc_device_public_key := ex_key; lc_device_public_key_fingerprint := ex_fingerprint; lc_public_key_id := None;
    lc_public_key_version := 0; lc_client_nonce := []; lc_server_nonce := []; lc_login_request_binding_hash := [];
    lc_login_challenge_binding_hash := str "binding"; lc_ip_address_hash := []; lc_user_agent_hash := [];
    lc_required_factors := required; lc_trusted_device_id := None; lc_protocol_version := 1; lc_issued_at := 100;
    lc_attempts_limit := 5 |} |}.

Definition ex_session (id token : string) (mfa_verified : bool) : AccountSession := {|
  as_account_session_id := str id; as_account_id := str "account-1"; as_refresh_token_hash := str token;
  as_mfa_verified := mfa_verified; as_expires_at := 1000000; as_revoked_at := None; as_revoked_reason := None |}.

(** The end of the login, with a recovery code or without a factor. *)
Definition ex_finish (with_code : bool) : LoginFinishCommand := {|
  fc_challenge_id := str "challenge-1"; fc_account_id := str "account-1"; fc_account_updated_at := 10;
  fc_persistent_device_id := None; fc_device_id := str "device-1"; fc_public_key_id := None;
  fc_public_key_version := 0; fc_device_public_key_fingerprint := ex_fingerprint;
  fc_challenge_binding_hash := str "binding"; fc_required_factors := if with_code then ex_factors else [];
  fc_factor_kind := if with_code then Some (str "recovery_code") else None;
  fc_factor_code := if with_code then Some (str "abcd-efgh") else None; fc_trusted_device_id_to_use := None;
  fc_account_session := ex_session "session-2" "token-2" with_code;
  fc_enrollment_grant := Some {|
    gr_grant_id := str "grant-1"; gr_grant_secret_hash := []; gr_account_id := str "account-1";
    gr_device_id := str "device-1"; gr_device_public_key_fingerprint := ex_fingerprint;
    gr_login_challenge_id := str "challenge-1"; gr_login_challenge_binding_hash := str "binding";
    gr_trust_proof_type := if with_code then Some (str "device_signature_and_recovery_code") else None;
    gr_trust_level := if with_code then Some (str "high_risk_step_up_required") else None;
    gr_establish_trust := with_code; gr_protocol_version := 1; gr_issued_account_session_id := str "session-2";
    gr_issued_at := 200; gr_expires_at := 300100; gr_consumed_at := None;
    gr_registration_request_binding_hash := None; gr_registered_public_key_id := None;
    gr_registered_trusted_device_id := None |};
  fc_trusted_device_to_create := None;
  fc_audit_entries := ex_audit "audit-2" "mfa_challenge_succeeded" "success" 200
    :: ex_audit "audit-3" "login_succeeded" "success" 200
    :: if with_code then [ex_audit "audit-4" "mfa_recovery_code_used" "success" 200] else [];
  fc_failure_audit := ex_audit "audit-5" "mfa_challenge_failed" "failure" 200; fc_now := 200 |}.

Definition ex_db : AccountDb :=
  let db := set_accounts empty_accounts {[str "account-1" := ex_account]} in
  let db := set_mfa_factors db {[str "factor-1" := ex_factor]} in
  let db := set_recovery_codes db {[str "code-1" := ex_code]} in
  (create_login_challenge (P := toy) db (ex_authority ex_factors)
     (ex_audit "audit-1" "mfa_challenge_issued" "success" 100)).2.

Lemma login_needs_second_factor_witness :
  (finish_login (P := toy) (F := toy_factors) ex_db (ex_finish true)).1 = Ok LoginCompleted
  ∧ as_mfa_verified (ex_finish true).(fc_account_session) = mfa_enabled ex_db (str "account-1").
Proof.
  assert (H : (finish_login (P := toy) (F := toy_factors) ex_db (ex_finish true)).1 = Ok LoginCompleted)
    by (vm_compute; reflexivity).
  split; [exact H|].
  apply (login_needs_second_factor (P := toy) (F := toy_factors) ex_db (ex_finish true)
           (finish_login (P := toy) (F := toy_factors) ex_db (ex_finish true)).2).
  rewrite <-H. apply surjective_pairing.
Defined.
