(* ===== verification/ApiSecurity.v ===== *)
(** * Tokens, digests and signatures of the API server

    Models services/api-server/src/security.rs: access and step-up tokens, body
    hashes, device signatures and what they are bound to. Base64 and JSON are
    parameters ([ApiText]), with a concrete instance that satisfies their laws. *)

From S2P Require Import Prelude Text Canonical RequestTarget Security Primitives KeySession SignalAuth ApiSession ApiAccount.

(** ** Data *)

Record StepUpClaims := {
  sc_account_id : rstr;
  sc_device_id : rstr;
  sc_challenge_id : rstr;
  sc_purpose : rstr;
  sc_operation_binding_hash : rstr;
  sc_expires_at : Z;
  sc_token_type : rstr }.

(** Both services read the same access claims. *)
Class ApiText := {
  text_decoders :: SignalDecoders;
  b64url_text : bytes → rstr;
  b64_decode : rstr → option bytes;
  access_claims_to_json : AccessClaims → bytes;
  step_up_claims_to_json : StepUpClaims → bytes;
  step_up_claims_from_json : bytes → option StepUpClaims;
  canonical_json_bytes_from_slice : bytes → option bytes;
  string_list_json : list rstr → bytes }.

(** Encoders and decoders agree; nothing encodes nothing; a dot is not a letter of
    Base64. *)
Class ApiTextLaws (T : ApiText) : Prop := {
  b64url_text_round b : b64url_decode (b64url_text b) = Some b;
  b64url_text_no_dot b : x2e ∉ b64url_text b;
  b64url_empty : b64url_decode [] = Some [];
  access_claims_round c : access_claims_from_json (access_claims_to_json c) = Some c;
  step_up_claims_round c : step_up_claims_from_json (step_up_claims_to_json c) = Some c }.

(** ** Text *)

(** [str::parse::<u64>]. *)
Definition parse_u64 (s : rstr) : option Z :=
  let digits := match s with b :: t => if b =! x2b then t else s | [] => s end in
  match digits with
  | [] => None
  | _ => n ← SignalAuth.digits_val 0 digits; if n <? 2 ^ 64 then Some n else None
  end.

(** [str::strip_prefix]. *)
Definition strip_prefix (p s : rstr) : option rstr :=
  if take (length p) s =! p then Some (drop (length p) s) else None.

Definition ascii_lower (b : byte) : byte := if byte_in 65 90 b then byte_of (byte_val b + 32) else b.

(** [str::trim] of a text in ASCII, which header values are. *)
Definition ascii_space (b : byte) : bool := byte_in 9 13 b || (b =! x20).
Fixpoint trim_start (s : rstr) : rstr :=
  match s with
  | b :: t => if ascii_space b then trim_start t else s
  | [] => []
  end.
Definition trim_ascii (s : rstr) : rstr := rev (trim_start (rev (trim_start s))).

(** ['0'..='9' | 'a'..='f' | 'A'..='F']. *)
Definition hex_nibble (b : byte) : option Z :=
  if byte_in 48 57 b then Some (byte_val b - 48)
  else if byte_in 97 102 b then Some (byte_val b - 97 + 10)
  else if byte_in 65 70 b then Some (byte_val b - 65 + 10) else None.

Fixpoint hex_chunks (s : rstr) : option bytes :=
  match s with
  | h :: l :: s =>
      high ← hex_nibble h; low ← hex_nibble l; rest ← hex_chunks s;
      Some (byte_of (Z.lor (Z.shiftl high 4) low) :: rest)
  | _ => Some []
  end.

Definition decode_sha256_hex (value : rstr) : option bytes :=
  if negb (length value =? 64)%nat || negb (forallb (λ b, bool_decide (is_Some (hex_nibble b))) value) then None
  else hex_chunks value.

(** [constant_time_eq]: the lengths agree and no byte differs. *)
Definition constant_time_eq (left right : bytes) : bool :=
  (length left =? length right)%nat
  && (foldl (λ difference lr, Z.lor difference (Z.lxor (byte_val lr.1) (byte_val lr.2))) 0 (zip left right) =? 0).

Section operations.
Context `{P : Primitives} `{T : ApiText}.

(** ** Tokens *)

Definition sign_access_token (claims : AccessClaims) (secret : bytes) : rstr :=
  let encoded := b64url_text (access_claims_to_json claims) in
  encoded ++ [x2e] ++ b64url_text (hmac_sha256 secret encoded).

Definition sign_step_up_token (claims : StepUpClaims) (secret : bytes) : rstr :=
  let encoded := b64url_text (step_up_claims_to_json claims) in
  encoded ++ [x2e] ++ b64url_text (hmac_sha256 secret encoded).

(** The payload of a token that the server signed. *)
Definition token_payload (token : rstr) (secret : bytes) : option bytes :=
  '(payload, signature) ← split_once x2e token;
  received ← b64url_decode signature;
  let expected := hmac_sha256 secret payload in
  if negb (length received =? length expected)%nat || negb (constant_time_eq received expected) then None
  else b64url_decode payload.

Definition verify_access_token (token : rstr) (secret : bytes) (now : Z) : option AccessClaims :=
  bs ← token_payload token secret;
  claims ← access_claims_from_json bs;
  if (claims.(acl_token_type) ≠! str "access") || (claims.(acl_expires_at) <=? now) then None else Some claims.

Definition verify_step_up_token (token : rstr) (secret : bytes) (now : Z) : option StepUpClaims :=
  bs ← token_payload token secret;
  claims ← step_up_claims_from_json bs;
  if (claims.(sc_token_type) ≠! str "step_up") || (claims.(sc_expires_at) <=? now) then None else Some claims.

(** ** Bodies and signatures *)

Definition canonical_json_hash (bs : bytes) : option bytes :=
  match bs with
  | [] => Some (sha256 [])
  | _ => sha256 <$> canonical_json_bytes_from_slice bs
  end.

Definition canonical_request_body_hash (bs : bytes) (content_type : option rstr) : option bytes :=
  match bs with
  | [] => Some (sha256 [])
  | _ =>
      let media_type := (λ v, trim_ascii (default [] (head (split_on (λ b, b =! x3b) v)))) <$> content_type in
      if (match media_type with
          | Some m => (ascii_lower <$> m) =! str "application/json" | None => false end)
      then canonical_json_hash bs else Some (sha256 bs)
  end.

(** [URL_SAFE_NO_PAD.decode(v).or_else(|_| STANDARD.decode(v))]. *)
Definition decode_either (value : rstr) : option bytes :=
  match b64url_decode value with Some b => Some b | None => b64_decode value end.

Definition verify_device_signature (public_key : bytes) (method path : rstr) (body : bytes)
    (content_type : option rstr) (request_id device_id account_id : rstr) (timestamp : Z) (nonce signature : rstr)
    : bool :=
  match canonical_request_body_hash body content_type with
  | None => false
  | Some body_hash =>
      match canonical_api_request_bytes method path body_hash request_id device_id account_id timestamp nonce,
            decode_either signature with
      | Ok canonical, Some sig =>
          (length sig =? 64)%nat && ed25519_valid_public public_key
          && ed25519_verify public_key (sha256 canonical) sig
      | _, _ => false
      end
  end.

Definition operation_binding_hash (account_id device_id purpose method path : rstr) (body_hash : bytes)
    (request_id : rstr) (expires_at : Z) : option rstr :=
  match canonical_operation_binding_bytes account_id device_id purpose method path body_hash request_id expires_at with
  | Ok canonical => Some (sha256_hex canonical)
  | Err _ => None
  end.

(** What the request to register a device is bound to. *)
Definition device_registration_binding_hash (account_id account_session_id grant_id device_id display_name platform
    os_version architecture : rstr) (controller controlled file_transfer unattended : bool)
    (device_public_key_fingerprint : bytes) (protocol_version : Z) : bytes :=
  let flag (b : bool) : bytes := be_bytes 1 (Z.b2z b) in
  sha256 (canonical_fields (str "rctl-device-registration-v1")
    [(str "account_id", account_id); (str "account_session_id", account_session_id); (str "grant_id", grant_id);
     (str "device_id", device_id); (str "display_name", display_name); (str "platform", platform);
     (str "os_version", os_version); (str "architecture", architecture); (str "controller", flag controller);
     (str "controlled", flag controlled); (str "file_transfer", flag file_transfer);
     (str "unattended", flag unattended);
     (str "device_public_key_fingerprint", device_public_key_fingerprint);
     (str "protocol_version", be_bytes 2 protocol_version)]).

(** The holder of the new key signs the rotation. *)
Definition verify_new_device_key_proof (new_public_key : bytes) (account_id device_id current_public_key_id : rstr)
    (current_public_key_version : Z) (proof : rstr) : bool :=
  let canonical := canonical_fields (str "rctl-device-key-rotation-v1")
    [(str "account_id", account_id); (str "device_id", device_id);
     (str "current_public_key_id", current_public_key_id);
     (str "current_public_key_version", be_bytes 4 current_public_key_version);
     (str "new_public_key", new_public_key)] in
  match decode_either proof with
  | Some sig => (length sig =? 64)%nat && ed25519_valid_public new_public_key
                && ed25519_verify new_public_key (sha256 canonical) sig
  | None => false
  end.

End operations.

(** ** Comparison in constant time *)

Lemma fold_difference l d :
  0 ≤ d → foldl (λ difference lr, Z.lor difference (Z.lxor (byte_val lr.1) (byte_val lr.2))) d l = 0 ↔
  d = 0 ∧ Forall (λ lr : byte * byte, lr.1 = lr.2) l.
Proof.
  revert d. induction l as [|[a b] l IH]; intros d Hd; cbn [foldl].
  { split; [by intros ->|by intros [-> _]]. }
  pose proof (byte_val_range a). pose proof (byte_val_range b).
  assert (0 ≤ Z.lxor (byte_val a) (byte_val b)) by (apply Z.lxor_nonneg; lia).
  rewrite IH by (cbn; apply Z.lor_nonneg; lia). cbn [fst snd]. rewrite Z.lor_eq_0_iff, Z.lxor_eq_0_iff, Forall_cons.
  cbn. split; [intros [[-> Hb] Hl]|intros [-> [-> Hl]]]; split_and!; try done. by apply (inj byte_val).
Qed.

Lemma constant_time_eq_ok left right : constant_time_eq left right = true ↔ left = right.
Proof.
  unfold constant_time_eq. rewrite andb_true_iff, Nat.eqb_eq, Z.eqb_eq, fold_difference by done. split.
  - intros (Hlen & _ & Hall). revert right Hlen Hall.
    induction left as [|a l IH]; intros [|b r] Hlen Hall; try done. cbn in Hall. apply Forall_cons in Hall as [Ha Hall].
    cbn in Ha. rewrite Ha. f_equal. apply IH; [by injection Hlen|done].
  - intros ->. split_and!; [done..|]. induction right as [|b r IH]; [constructor|]. by constructor.
Qed.

Section tokens.
Context `{P : Primitives} `{T : ApiText}.

(** A token is accepted for the payload that its signature is the code of. *)
Lemma token_payload_spec token secret bs :
  token_payload token secret = Some bs ↔
  ∃ payload signature, split_once x2e token = Some (payload, signature)
    ∧ b64url_decode signature = Some (hmac_sha256 secret payload) ∧ b64url_decode payload = Some bs.
Proof.
  unfold token_payload. split.
  - intros H. apply bind_Some in H as ([payload signature] & Hs & H). cbn in H.
    apply bind_Some in H as (received & Hr & H). case_match eqn:E; [done|]. split_bools.
    apply Nat.eqb_eq in H0. apply constant_time_eq_ok in H1. subst received. by exists payload, signature.
  - intros (payload & signature & -> & Hs & Hb). cbn. rewrite Hs. cbn.
    by rewrite Nat.eqb_refl, (proj2 (constant_time_eq_ok _ _) eq_refl).
Qed.

Lemma signed_payload `{!ApiTextLaws T} encoded bs secret :
  b64url_decode encoded = Some bs → x2e ∉ encoded →
  token_payload (encoded ++ [x2e] ++ b64url_text (hmac_sha256 secret encoded)) secret = Some bs.
Proof.
  intros Hb Hd. apply token_payload_spec. eexists _, _. split; [by apply split_once_app|].
  by rewrite b64url_text_round.
Qed.

Lemma signed_access_token `{!ApiTextLaws T} claims secret now :
  verify_access_token (sign_access_token claims secret) secret now
  = if (claims.(acl_token_type) ≠! str "access") || (claims.(acl_expires_at) <=? now) then None else Some claims.
Proof.
  unfold verify_access_token, sign_access_token.
  rewrite (signed_payload _ (access_claims_to_json claims)) by (apply b64url_text_round || apply b64url_text_no_dot).
  cbn. by rewrite access_claims_round.
Qed.

(** The server accepts the access tokens it signed, for what it signed,
    until they expire; and accepts no token without its own code over the
    payload. *)
Theorem access_token_roundtrip `{!ApiTextLaws T} claims secret now :
  (verify_access_token (sign_access_token claims secret) secret now = Some claims
   ↔ claims.(acl_token_type) = str "access" ∧ now < claims.(acl_expires_at))
  ∧ ∀ token c, verify_access_token token secret now = Some c →
      ∃ payload signature, split_once x2e token = Some (payload, signature)
        ∧ b64url_decode signature = Some (hmac_sha256 secret payload)
        ∧ b64url_decode payload ≫= access_claims_from_json = Some c.
Proof.
  split.
  - rewrite signed_access_token. case_match eqn:E.
    + split; [done|]. intros [Ht He]. rewrite Ht in E. apply orb_true_iff in E as [E|E]; split_bools; [done|lia].
    + split_bools. naive_solver lia.
  - intros token c H. apply bind_Some in H as (bs & Hp & H). apply bind_Some in H as (c' & Hc & H).
    case_match; [done|]. injection H as ->. apply token_payload_spec in Hp as (payload & signature & ? & ? & Hb).
    exists payload, signature. by rewrite Hb.
Qed.
End tokens.

(** ** A concrete text encoding *)

(** The bits of a number, one per byte. *)
Fixpoint bits (p : positive) : bytes :=
  match p with xH => [] | xO p => x00 :: bits p | xI p => x01 :: bits p end.
Fixpoint unbits (bs : bytes) : positive :=
  match bs with [] => xH | b :: bs => if b =! x00 then xO (unbits bs) else xI (unbits bs) end.

Lemma unbits_bits p : unbits (bits p) = p.
Proof. induction p as [p IH|p IH|]; cbn; [by rewrite IH..|done]. Qed.

#[global] Instance access_claims_eq_dec : EqDecision AccessClaims.
Proof. solve_decision. Defined.
#[global] Instance step_up_claims_eq_dec : EqDecision StepUpClaims.
Proof. solve_decision. Defined.
#[global] Instance access_claims_countable : Countable AccessClaims.
Proof.
  refine (inj_countable'
    (λ c, (c.(acl_account_id), c.(acl_account_session_id), c.(acl_issued_at), c.(acl_expires_at), c.(acl_mfa_verified),
           c.(acl_token_type)))
    (λ '(a, s, i, e, m, t), {| acl_account_id := a; acl_account_session_id := s; acl_issued_at := i;
                               acl_expires_at := e; acl_mfa_verified := m; acl_token_type := t |}) _).
  by intros [].
Defined.

#[global] Instance step_up_claims_countable : Countable StepUpClaims.
Proof.
  refine (inj_countable'
    (λ c, (c.(sc_account_id), c.(sc_device_id), c.(sc_challenge_id), c.(sc_purpose), c.(sc_operation_binding_hash),
           c.(sc_expires_at), c.(sc_token_type)))
    (λ '(a, d, c, p, o, e, t), {| sc_account_id := a; sc_device_id := d; sc_challenge_id := c; sc_purpose := p;
                                  sc_operation_binding_hash := o; sc_expires_at := e; sc_token_type := t |}) _).
  by intros [].
Defined.

(** Hexadecimal for Base64, bits for JSON. *)
Definition toy_text : ApiText := {|
  text_decoders := {| signal_base64 := {| b64url_decode := hex_pairs |}; Json := unit; canonical_json _ := Some [];
                      access_claims_from_json bs := decode (unbits bs) |};
  b64url_text := encode_hex; b64_decode _ := None;
  access_claims_to_json c := bits (encode c);
  step_up_claims_to_json c := bits (encode c); step_up_claims_from_json bs := decode (unbits bs);
  canonical_json_bytes_from_slice := Some; string_list_json l := List.concat l |}.

Lemma hex_pairs_encode bs : hex_pairs (encode_hex bs) = Some bs.
Proof.
  induction bs as [|b bs IH]; [done|]. change (encode_hex (b :: bs)) with (hex_byte b ++ encode_hex bs).
  assert (Hb : ∀ b, (hex_pairs (hex_byte b) =! Some [b]) = true) by (apply byte_forall; vm_compute; reflexivity).
  specialize (Hb b). apply bool_decide_eq_true_1 in Hb. revert Hb. unfold hex_byte. cbn [app hex_pairs].
  destruct (decode_hex_nibble (hex_digit (byte_val b / 16))) as [h|]; [|intros [=]]. cbn.
  destruct (decode_hex_nibble _) as [l|]; [|intros [=]]. cbn. intros [= ->]. by rewrite IH.
Qed.

Lemma encode_hex_no_dot bs : x2e ∉ encode_hex bs.
Proof.
  induction bs as [|b bs IH]; [apply not_elem_of_nil|].
  change (encode_hex (b :: bs)) with (hex_byte b ++ encode_hex bs). rewrite not_elem_of_app. split; [|done].
  apply (bool_decide_eq_false_1 (x2e ∈ hex_byte b)), negb_true_iff. clear IH. revert b.
  apply (byte_forall (λ b, negb (bool_decide (x2e ∈ hex_byte b)))). vm_compute. reflexivity.
Qed.

Lemma toy_text_laws : ApiTextLaws toy_text.
Proof.
  split; cbn.
  - apply hex_pairs_encode.
  - apply encode_hex_no_dot.
  - done.
  - intros c. by rewrite unbits_bits, decode_encode.
  - intros c. by rewrite unbits_bits, decode_encode.
Qed.
