(* ===== verification/ApiDevice.v ===== *)
(** * Devices of the API server

    Models of services/api-server/src/store.rs the operations of the memory
    repository that register a device under an enrolment grant, rotate its key and
    manage it (rename, disable, restore, unbind, revoke the key), with the checks of
    the commands and the audit entries they write.

    An operation works on a copy of the database that is dropped when it fails. The
    checks that all end in the same refusal are one conjunction, whatever their
    order in the code. *)

From stdpp Require Import sorting.
From S2P Require Import Prelude Text Canonical Security Primitives KeySession SignalAuth ApiSession Ephemeral ApiAccount ApiLogin ApiSecurity.

(** ** Data *)

#[global] Instance Platform_eq_dec : EqDecision Platform.
Proof. solve_decision. Defined.
#[global] Instance Architecture_eq_dec : EqDecision Architecture.
Proof. solve_decision. Defined.
#[global] Instance DeviceLifecycleStatus_eq_dec : EqDecision DeviceLifecycleStatus.
Proof. solve_decision. Defined.
#[global] Instance DeviceCapabilities_eq_dec : EqDecision DeviceCapabilities.
Proof. solve_decision. Defined.

Record DeviceKeyRotation := {
  kr_step_up : StepUpExpectation;
  kr_current_public_key_id : rstr;
  kr_current_public_key_version : Z;
  kr_new_public_key_id : rstr;
  kr_new_public_key : bytes;
  kr_new_public_key_version : Z;
  kr_audit : AuditEntry }.

Record DeviceAuthorityChange := { dc_device : Device; dc_closed_session_events : list SessionEvent }.

Inductive DeviceManagementAction := Disable | Restore | Unbind | RevokePublicKey.

#[global] Instance DeviceManagementAction_eq_dec : EqDecision DeviceManagementAction.
Proof. solve_decision. Defined.

Record DeviceManagementCommand := {
  dm_account_id : rstr;
  dm_actor_device_id : rstr;
  dm_actor_public_key_id : rstr;
  dm_actor_public_key_version : Z;
  dm_target_device_id : rstr;
  dm_expected_target_public_key_id : rstr;
  dm_expected_target_public_key_version : Z;
  dm_display_name : option rstr;
  dm_action : option DeviceManagementAction;
  dm_audit : AuditEntry;
  dm_now : Z }.

Inductive DeviceManagementOutcome := DeviceUpdated (c : DeviceAuthorityChange) | DeviceMissing | InvalidDeviceTransition.

Record InitialDeviceSignatureProof := {
  ip_target : rstr;
  ip_content_type : option rstr;
  ip_request_id : rstr;
  ip_timestamp : Z;
  ip_nonce : rstr;
  ip_signature : rstr;
  ip_canonical_body : bytes }.

Record DeviceRegistrationCommand := {
  rg_grant_id : rstr;
  rg_grant_secret_hash : bytes;
  rg_account_id : rstr;
  rg_account_session_id : rstr;
  rg_protocol_version : Z;
  rg_registration_request_binding_hash : bytes;
  rg_device : Device;
  rg_trusted_device_id : option rstr;
  rg_registration_audit : AuditEntry;
  rg_grant_audit : AuditEntry;
  rg_trusted_device_audit : option AuditEntry;
  rg_signature_proof : InitialDeviceSignatureProof;
  rg_now : Z }.

Inductive DeviceRegistrationOutcome := Created (d : Device) | Replayed (d : Device) | InvalidGrant.

(** What the audit entry of a registration keeps of its result. *)
Record DeviceRegistrationResultSnapshot := {
  sh_grant_id : rstr;
  sh_registration_request_binding_hash : rstr;
  sh_device_id : rstr;
  sh_account_id : rstr;
  sh_display_name : rstr;
  sh_platform : Platform;
  sh_os_version : rstr;
  sh_arch : Architecture;
  sh_capabilities : DeviceCapabilities;
  sh_public_key_id : rstr;
  sh_public_key_fingerprint : rstr;
  sh_public_key_version : Z;
  sh_public_key_revoked_at : option Z;
  sh_status : rstr;
  sh_last_seen : option Z;
  sh_created_at : Z;
  sh_updated_at : Z }.

(** ** Names *)

Definition registration_platform_name (p : Platform) : rstr :=
  match p with PWindows => str "windows" | PUbuntu => str "ubuntu" | PIos => str "ios" end.

Definition registration_architecture_name (a : Architecture) : rstr :=
  match a with X86_64 => str "x86_64" | Aarch64 => str "aarch64" end.

Definition device_lifecycle_status_snapshot_name (s : DeviceLifecycleStatus) : rstr :=
  match s with
  | LOnline => str "online" | LOffline => str "offline" | LBusy => str "busy"
  | LSuspended => str "suspended" | LDisabled => str "disabled" | LUnbound => str "unbound"
  end.

(** ** The snapshot as JSON *)

Definition json_get (key : rstr) (v : Value) : option Value :=
  match v with
  | VObject fields => snd <$> List.find (λ kv, kv.1 =! key) fields
  | _ => None
  end.

Definition as_str (v : Value) : option rstr := match v with VString s => Some s | _ => None end.
Definition as_number (v : Value) : option Z := match v with VNumber n => Some n | _ => None end.
Definition as_flag (v : Value) : option bool := match v with VBool b => Some b | _ => None end.

Definition json_optional (v : option Z) : Value := match v with Some n => VNumber n | None => VNull end.
Definition as_optional (v : Value) : option (option Z) :=
  match v with VNull => Some None | VNumber n => Some (Some n) | _ => None end.

Definition platform_from_name (s : rstr) : option Platform :=
  if s =! str "windows" then Some PWindows
  else if s =! str "ubuntu" then Some PUbuntu
  else if s =! str "ios" then Some PIos else None.

Definition architecture_from_name (s : rstr) : option Architecture :=
  if s =! str "x86_64" then Some X86_64 else if s =! str "aarch64" then Some Aarch64 else None.

Definition capabilities_to_value (c : DeviceCapabilities) : Value := VObject
  [(str "controller", VBool c.(cap_controller)); (str "controlled", VBool c.(cap_controlled));
   (str "file_transfer", VBool c.(cap_file_transfer)); (str "unattended", VBool c.(cap_unattended))].

Definition capabilities_from_value (v : Value) : option DeviceCapabilities :=
  controller ← json_get (str "controller") v ≫= as_flag;
  controlled ← json_get (str "controlled") v ≫= as_flag;
  file_transfer ← json_get (str "file_transfer") v ≫= as_flag;
  unattended ← json_get (str "unattended") v ≫= as_flag;
  Some {| cap_controller := controller; cap_controlled := controlled; cap_file_transfer := file_transfer;
          cap_unattended := unattended |}.

(** [serde_json::to_value(snapshot)]. *)
Definition snapshot_to_value (s : DeviceRegistrationResultSnapshot) : Value := VObject
  [(str "grant_id", VString s.(sh_grant_id));
   (str "registration_request_binding_hash", VString s.(sh_registration_request_binding_hash));
   (str "device_id", VString s.(sh_device_id)); (str "account_id", VString s.(sh_account_id));
   (str "display_name", VString s.(sh_display_name));
   (str "platform", VString (registration_platform_name s.(sh_platform)));
   (str "os_version", VString s.(sh_os_version));
   (str "arch", VString (registration_architecture_name s.(sh_arch)));
   (str "capabilities", capabilities_to_value s.(sh_capabilities));
   (str "public_key_id", VString s.(sh_public_key_id));
   (str "public_key_fingerprint", VString s.(sh_public_key_fingerprint));
   (str "public_key_version", VNumber s.(sh_public_key_version));
   (str "public_key_revoked_at_epoch_millis", json_optional s.(sh_public_key_revoked_at));
   (str "status", VString s.(sh_status));
   (str "last_seen_epoch_millis", json_optional s.(sh_last_seen));
   (str "created_at_epoch_millis", VNumber s.(sh_created_at));
   (str "updated_at_epoch_millis", VNumber s.(sh_updated_at))].

(** [serde_json::from_value]: an optional field may be missing. *)
Definition snapshot_from_value (v : Value) : option DeviceRegistrationResultSnapshot :=
  let text key := json_get (str key) v ≫= as_str in
  let number key := json_get (str key) v ≫= as_number in
  let optional key := match json_get (str key) v with None => Some None | Some x => as_optional x end in
  grant_id ← text "grant_id";
  binding ← text "registration_request_binding_hash";
  device_id ← text "device_id";
  account_id ← text "account_id";
  display_name ← text "display_name";
  platform ← text "platform" ≫= platform_from_name;
  os_version ← text "os_version";
  arch ← text "arch" ≫= architecture_from_name;
  capabilities ← json_get (str "capabilities") v ≫= capabilities_from_value;
  public_key_id ← text "public_key_id";
  fingerprint ← text "public_key_fingerprint";
  version ← number "public_key_version";
  revoked_at ← optional "public_key_revoked_at_epoch_millis";
  status ← text "status";
  last_seen ← optional "last_seen_epoch_millis";
  created_at ← number "created_at_epoch_millis";
  updated_at ← number "updated_at_epoch_millis";
  Some {| sh_grant_id := grant_id; sh_registration_request_binding_hash := binding; sh_device_id := device_id;
          sh_account_id := account_id; sh_display_name := display_name; sh_platform := platform;
          sh_os_version := os_version; sh_arch := arch; sh_capabilities := capabilities;
          sh_public_key_id := public_key_id; sh_public_key_fingerprint := fingerprint;
          sh_public_key_version := version; sh_public_key_revoked_at := revoked_at; sh_status := status;
          sh_last_seen := last_seen; sh_created_at := created_at; sh_updated_at := updated_at |}.

Lemma snapshot_roundtrip s : snapshot_from_value (snapshot_to_value s) = Some s.
Proof. destruct s as [????? [] ? [] [] ??? [] ? [] ??]; vm_compute; reflexivity. Qed.

(** ** Audit entries *)

Definition with_metadata (e : AuditEntry) (metadata : gmap rstr Value) : AuditEntry := {|
  au_audit_id := e.(au_audit_id); au_actor_type := e.(au_actor_type);
  au_actor_account_id := e.(au_actor_account_id); au_actor_device_id := e.(au_actor_device_id);
  au_actor_role := e.(au_actor_role); au_actor_service := e.(au_actor_service);
  au_target_device_id := e.(au_target_device_id); au_session_id := e.(au_session_id);
  au_action := e.(au_action); au_result := e.(au_result); au_reason := e.(au_reason);
  au_metadata := metadata; au_request_id := e.(au_request_id); au_created_at := e.(au_created_at) |}.

(** New entries have identifiers of their own. *)
Definition audits_new (db : Database) (es : list AuditEntry) : bool :=
  bool_decide (NoDup (au_audit_id <$> es)) && forallb (λ e, negb (has_audit db e.(au_audit_id))) es.

Definition DEVICE_REGISTRATION_RESULT_METADATA_KEY : rstr := str "device_registration_result_v1".

Definition registration_result_grant_id (metadata : gmap rstr Value) : option rstr :=
  (metadata !! DEVICE_REGISTRATION_RESULT_METADATA_KEY ≫= json_get (str "grant_id")) ≫= as_str.

Section operations.
Context `{P : Primitives} `{T : ApiText}.

(** ** Registration *)

Definition verify_registration_signature (c : DeviceRegistrationCommand) : bool :=
  let proof := c.(rg_signature_proof) in
  verify_device_signature c.(rg_device).(dv_public_key) (str "POST") proof.(ip_target) proof.(ip_canonical_body)
    proof.(ip_content_type) proof.(ip_request_id) c.(rg_device).(dv_device_id) c.(rg_account_id)
    proof.(ip_timestamp) proof.(ip_nonce) proof.(ip_signature).

Definition registration_snapshot (c : DeviceRegistrationCommand) : DeviceRegistrationResultSnapshot :=
  let d := c.(rg_device) in {|
  sh_grant_id := c.(rg_grant_id);
  sh_registration_request_binding_hash := encode_hex c.(rg_registration_request_binding_hash);
  sh_device_id := d.(dv_device_id); sh_account_id := d.(dv_account_id); sh_display_name := d.(dv_display_name);
  sh_platform := d.(dv_platform); sh_os_version := d.(dv_os_version); sh_arch := d.(dv_arch);
  sh_capabilities := d.(dv_capabilities); sh_public_key_id := d.(dv_public_key_id);
  sh_public_key_fingerprint := encode_hex (sha256 d.(dv_public_key));
  sh_public_key_version := d.(dv_public_key_version);
  sh_public_key_revoked_at := d.(dv_public_key_revoked_at);
  sh_status := device_lifecycle_status_snapshot_name d.(dv_status); sh_last_seen := d.(dv_last_seen);
  sh_created_at := d.(dv_created_at); sh_updated_at := d.(dv_updated_at) |}.

Definition device_registration_result_audit (c : DeviceRegistrationCommand) : AuditEntry :=
  with_metadata c.(rg_registration_audit)
    (<[DEVICE_REGISTRATION_RESULT_METADATA_KEY := snapshot_to_value (registration_snapshot c)]>
       c.(rg_registration_audit).(au_metadata)).

(** The snapshot agrees with the command and with the grant. *)
Definition snapshot_matches (s : DeviceRegistrationResultSnapshot) (c : DeviceRegistrationCommand)
    (g : DeviceEnrollmentGrant) : bool :=
  let d := c.(rg_device) in
  (s.(sh_grant_id) =! c.(rg_grant_id)) && (s.(sh_grant_id) =! g.(gr_grant_id))
  && (s.(sh_registration_request_binding_hash) =! encode_hex c.(rg_registration_request_binding_hash))
  && (s.(sh_device_id) =! d.(dv_device_id)) && (s.(sh_device_id) =! g.(gr_device_id))
  && (s.(sh_account_id) =! c.(rg_account_id)) && (s.(sh_account_id) =! d.(dv_account_id))
  && (s.(sh_account_id) =! g.(gr_account_id)) && (s.(sh_display_name) =! d.(dv_display_name))
  && (s.(sh_platform) =! d.(dv_platform)) && (s.(sh_os_version) =! d.(dv_os_version))
  && (s.(sh_arch) =! d.(dv_arch)) && (s.(sh_capabilities) =! d.(dv_capabilities))
  && (s.(sh_public_key_id) =! default [] g.(gr_registered_public_key_id))
  && (s.(sh_public_key_fingerprint) =! encode_hex g.(gr_device_public_key_fingerprint))
  && (s.(sh_public_key_version) =? 1) && none s.(sh_public_key_revoked_at) && (s.(sh_status) =! str "offline")
  && none s.(sh_last_seen) && (s.(sh_created_at) <=? s.(sh_updated_at)).

Definition replayed_device_registration_result (metadata : gmap rstr Value) (c : DeviceRegistrationCommand)
    (g : DeviceEnrollmentGrant) (historical_public_key : option DevicePublicKeyRecord) : result StoreError Device :=
  s ← ok_or (metadata !! DEVICE_REGISTRATION_RESULT_METADATA_KEY ≫= snapshot_from_value) Unavailable;
  _ ← ensure (snapshot_matches s c g) Unavailable;
  public_key ← match historical_public_key with
    | Some r =>
        _ ← ensure ((r.(pk_public_key_id) =! s.(sh_public_key_id)) && (r.(pk_device_id) =! s.(sh_device_id))
                    && (r.(pk_version) =? s.(sh_public_key_version))
                    && (sha256 r.(pk_public_key) =! g.(gr_device_public_key_fingerprint))) Unavailable;
        Ok r.(pk_public_key)
    | None => Ok c.(rg_device).(dv_public_key)
    end;
  _ ← ensure (sha256 public_key =! g.(gr_device_public_key_fingerprint)) Unavailable;
  Ok {| dv_device_id := s.(sh_device_id); dv_account_id := s.(sh_account_id);
        dv_display_name := s.(sh_display_name); dv_platform := s.(sh_platform);
        dv_os_version := s.(sh_os_version); dv_arch := s.(sh_arch); dv_capabilities := s.(sh_capabilities);
        dv_public_key_id := s.(sh_public_key_id); dv_public_key := public_key;
        dv_public_key_version := s.(sh_public_key_version);
        dv_public_key_revoked_at := s.(sh_public_key_revoked_at); dv_status := LOffline;
        dv_last_seen := s.(sh_last_seen); dv_created_at := s.(sh_created_at);
        dv_updated_at := s.(sh_updated_at) |}.

(** The command is well formed. *)
Definition registration_command_valid (c : DeviceRegistrationCommand) : bool :=
  let d := c.(rg_device) in
  let k := d.(dv_capabilities) in
  let capability_shape_valid :=
    k.(cap_controller) && negb k.(cap_file_transfer) && negb k.(cap_unattended)
    && ((d.(dv_platform) ≠! PIos) || negb k.(cap_controlled)) in
  let platform_architecture_valid := (d.(dv_platform) ≠! PUbuntu) || (d.(dv_arch) =! X86_64) in
  let expected_binding := device_registration_binding_hash c.(rg_account_id) c.(rg_account_session_id)
    c.(rg_grant_id) d.(dv_device_id) d.(dv_display_name) (registration_platform_name d.(dv_platform))
    d.(dv_os_version) (registration_architecture_name d.(dv_arch)) k.(cap_controller) k.(cap_controlled)
    k.(cap_file_transfer) k.(cap_unattended) (sha256 d.(dv_public_key)) c.(rg_protocol_version) in
  negb (is_blank c.(rg_grant_id)) && negb (is_blank c.(rg_account_id))
  && negb (is_blank c.(rg_account_session_id)) && negb (c.(rg_protocol_version) =? 0)
  && (d.(dv_account_id) =! c.(rg_account_id)) && negb (is_blank d.(dv_device_id))
  && negb (is_blank d.(dv_display_name)) && negb (is_blank d.(dv_os_version))
  && negb (is_blank d.(dv_public_key_id)) && (d.(dv_public_key_version) =? 1)
  && none d.(dv_public_key_revoked_at) && (d.(dv_status) =! LOffline) && none d.(dv_last_seen)
  && (d.(dv_created_at) <=? c.(rg_now)) && (d.(dv_created_at) <=? d.(dv_updated_at))
  && capability_shape_valid && platform_architecture_valid
  && (expected_binding =! c.(rg_registration_request_binding_hash)).

(** The grant is one that a login made. *)
Definition registration_grant_valid (c : DeviceRegistrationCommand) (g : DeviceEnrollmentGrant) : bool :=
  let grant_ttl_valid :=
    match checked_sub g.(gr_expires_at) g.(gr_issued_at) with
    | Some ttl => (0 <? ttl) && (ttl <=? 300000) | None => false end in
  let grant_result_shape_valid :=
    match g.(gr_consumed_at) with
    | None => none g.(gr_registration_request_binding_hash) && none g.(gr_registered_public_key_id)
              && none g.(gr_registered_trusted_device_id)
    | Some consumed_at =>
        (g.(gr_issued_at) <=? consumed_at) && (consumed_at <=? g.(gr_expires_at))
        && negb (none g.(gr_registration_request_binding_hash))
        && (match g.(gr_registered_public_key_id) with Some id => negb (is_blank id) | None => false end)
        && bool_decide (g.(gr_establish_trust) = negb (none g.(gr_registered_trusted_device_id)))
    end in
  let trust_shape_valid :=
    match g.(gr_establish_trust), g.(gr_trust_proof_type), g.(gr_trust_level) with
    | false, None, None => true
    | true, Some proof, Some level =>
        ((proof =! str "device_signature_and_mfa") && (level =! str "standard"))
        || ((proof =! str "device_signature_and_recovery_code") && (level =! str "high_risk_step_up_required"))
    | _, _, _ => false
    end in
  (g.(gr_grant_id) =! c.(rg_grant_id)) && negb (is_blank g.(gr_account_id)) && negb (is_blank g.(gr_device_id))
  && negb (is_blank g.(gr_login_challenge_id)) && negb (is_blank g.(gr_issued_account_session_id))
  && negb (g.(gr_protocol_version) =? 0) && grant_ttl_valid && grant_result_shape_valid && trust_shape_valid.

Definition registration_audit_ok (c : DeviceRegistrationCommand) (e : AuditEntry) : bool :=
  (e.(au_actor_type) =! str "device") && (e.(au_actor_account_id) =! Some c.(rg_account_id))
  && (e.(au_actor_device_id) =! Some c.(rg_device).(dv_device_id)) && (e.(au_actor_role) =! Some (str "none"))
  && none e.(au_actor_service) && (e.(au_target_device_id) =! Some c.(rg_device).(dv_device_id))
  && none e.(au_session_id) && (e.(au_result) =! str "success") && none e.(au_reason)
  && (e.(au_request_id) =! c.(rg_signature_proof).(ip_request_id)) && (e.(au_created_at) =? c.(rg_now)).

(** The audit entries of the command. *)
Definition registration_audits_valid (db : AccountDb) (c : DeviceRegistrationCommand) (establish_trust : bool)
    : result StoreError unit :=
  trust_audits ← (if establish_trust then
      e ← ok_or c.(rg_trusted_device_audit) Conflict;
      _ ← ensure (match c.(rg_trusted_device_id) with Some id => negb (is_blank id) | None => false end) Conflict;
      Ok [e]
    else Ok []);
  let audits := [c.(rg_registration_audit); c.(rg_grant_audit)] ++ trust_audits in
  _ ← ensure ((c.(rg_registration_audit).(au_action) =! str "device_registered")
              && (c.(rg_grant_audit).(au_action) =! str "device_enrollment_grant_consumed")
              && forallb (λ e, e.(au_action) =! str "trusted_device_added") trust_audits) Conflict;
  ensure (audits_new db.(core) audits && forallb (registration_audit_ok c) audits) Conflict.

Definition validate_device_registration_authority (db : AccountDb) (c : DeviceRegistrationCommand)
    (g : DeviceEnrollmentGrant) : result StoreError unit :=
  _ ← ensure (registration_command_valid c) Conflict;
  _ ← ensure (registration_grant_valid c g) Unavailable;
  registration_audits_valid db c g.(gr_establish_trust).

Definition replayed_trust_matches (db : AccountDb) (g : DeviceEnrollmentGrant) : bool :=
  match g.(gr_registered_trusted_device_id) with
  | None => negb g.(gr_establish_trust)
  | Some id =>
      g.(gr_establish_trust)
      && match db.(trusted_controller_devices) !! id with
         | Some t => (t.(tr_account_id) =! g.(gr_account_id)) && (t.(tr_controller_device_id) =! g.(gr_device_id))
                     && (t.(tr_trust_proof_type) =! default [] g.(gr_trust_proof_type))
                     && (t.(tr_trust_level) =! default [] g.(gr_trust_level))
                     && (t.(tr_device_fingerprint_hash) =! g.(gr_device_public_key_fingerprint))
         | None => false
         end
  end.

(** The login that made the grant has completed. *)
Definition login_challenge_matches (db : AccountDb) (g : DeviceEnrollmentGrant) : bool :=
  match db.(risk_challenges) !! g.(gr_login_challenge_id) with
  | Some ch => (ch.(rk_account_id) =! g.(gr_account_id)) && (ch.(rk_purpose) =! str "login_mfa")
               && (ch.(rk_status) =! RConsumed) && negb (none ch.(rk_consumed_at))
               && (ch.(rk_operation_binding_hash) =! g.(gr_login_challenge_binding_hash))
  | None => false
  end.

(** The command holds the grant, for this device and key. *)
Definition holds_grant (db : AccountDb) (c : DeviceRegistrationCommand) (g : DeviceEnrollmentGrant) : bool :=
  (g.(gr_grant_secret_hash) =! c.(rg_grant_secret_hash)) && (g.(gr_account_id) =! c.(rg_account_id))
  && (g.(gr_device_id) =! c.(rg_device).(dv_device_id)) && (g.(gr_protocol_version) =? c.(rg_protocol_version))
  && (g.(gr_issued_account_session_id) =! c.(rg_account_session_id)) && login_challenge_matches db g
  && (g.(gr_device_public_key_fingerprint) =! sha256 c.(rg_device).(dv_public_key))
  && negb (30000 <? abs_diff c.(rg_now) c.(rg_signature_proof).(ip_timestamp))
  && verify_registration_signature c.

(** The entry that a registration under the grant left. *)
Definition registration_entry (c : DeviceRegistrationCommand) (e : AuditEntry) : bool :=
  (e.(au_action) =! str "device_registered") && (e.(au_result) =! str "success")
  && (e.(au_actor_account_id) =! Some c.(rg_account_id))
  && (e.(au_target_device_id) =! Some c.(rg_device).(dv_device_id))
  && (registration_result_grant_id e.(au_metadata) =! Some c.(rg_grant_id)).

(** A grant that was used: the same request gets the same answer. *)
Definition replay_registration (db : AccountDb) (c : DeviceRegistrationCommand) (g : DeviceEnrollmentGrant)
    : result StoreError DeviceRegistrationOutcome :=
  _ ← ensure (g.(gr_registration_request_binding_hash) =! Some c.(rg_registration_request_binding_hash)) Conflict;
  key_id ← ok_or g.(gr_registered_public_key_id) Unavailable;
  _ ← ensure (bool_decide (g.(gr_establish_trust) = negb (none g.(gr_registered_trusted_device_id)))) Unavailable;
  _ ← ensure (replayed_trust_matches db g) Unavailable;
  e ← match List.filter (registration_entry c) db.(core).(db_audit_logs) with
      | [e] => Ok e | _ => Err Unavailable end;
  d ← replayed_device_registration_result e.(au_metadata) c g (db.(device_public_keys) !! key_id);
  Ok (Replayed d).

Definition set_devices (db : AccountDb) (devices : gmap rstr Device) : AccountDb :=
  let k := db.(core) in
  set_core db {|
    db_devices := devices; db_sessions := k.(db_sessions); db_session_events := k.(db_session_events);
    db_session_idempotency := k.(db_session_idempotency); db_policy_evaluations := k.(db_policy_evaluations);
    db_audit_logs := k.(db_audit_logs) |}.

Definition consume_grant (g : DeviceEnrollmentGrant) (c : DeviceRegistrationCommand) (trusted : option rstr)
    : DeviceEnrollmentGrant := {|
  gr_grant_id := g.(gr_grant_id); gr_grant_secret_hash := g.(gr_grant_secret_hash);
  gr_account_id := g.(gr_account_id); gr_device_id := g.(gr_device_id);
  gr_device_public_key_fingerprint := g.(gr_device_public_key_fingerprint);
  gr_login_challenge_id := g.(gr_login_challenge_id);
  gr_login_challenge_binding_hash := g.(gr_login_challenge_binding_hash);
  gr_trust_proof_type := g.(gr_trust_proof_type); gr_trust_level := g.(gr_trust_level);
  gr_establish_trust := g.(gr_establish_trust); gr_protocol_version := g.(gr_protocol_version);
  gr_issued_account_session_id := g.(gr_issued_account_session_id); gr_issued_at := g.(gr_issued_at);
  gr_expires_at := g.(gr_expires_at); gr_consumed_at := Some c.(rg_now);
  gr_registration_request_binding_hash := Some c.(rg_registration_request_binding_hash);
  gr_registered_public_key_id := Some c.(rg_device).(dv_public_key_id);
  gr_registered_trusted_device_id := trusted |}.

(** The trust that comes with a registration after a second factor, and the audit
    entry that records it. *)
Definition registration_trust (c : DeviceRegistrationCommand) (g : DeviceEnrollmentGrant) (id : rstr)
    : result StoreError (TrustedControllerDevice * AuditEntry) :=
  proof ← ok_or g.(gr_trust_proof_type) Conflict;
  level ← ok_or g.(gr_trust_level) Conflict;
  entry ← ok_or c.(rg_trusted_device_audit) Conflict;
  let ttl := if proof =! str "device_signature_and_recovery_code" then 24 * 60 * 60 * 1000
             else 30 * 24 * 60 * 60 * 1000 in
  Ok ({| tr_trusted_device_id := id; tr_account_id := c.(rg_account_id);
         tr_controller_device_id := c.(rg_device).(dv_device_id);
         tr_device_fingerprint_hash := g.(gr_device_public_key_fingerprint); tr_trust_level := level;
         tr_status := TrustActive; tr_trust_proof_type := proof; tr_created_at := c.(rg_now);
         tr_last_used_at := None; tr_expires_at := sat_add 64 c.(rg_now) ttl; tr_revoked_at := None |}, entry).

(** The tables after the registration: grant, device, key. *)
Definition registered_tables (db : AccountDb) (c : DeviceRegistrationCommand) (g : DeviceEnrollmentGrant)
    (trusted : option rstr) : AccountDb :=
  let d := c.(rg_device) in
  let db := set_grants db (<[c.(rg_grant_id) := consume_grant g c trusted]> db.(device_enrollment_grants)) in
  let db := set_devices db (<[d.(dv_device_id) := d]> db.(core).(db_devices)) in
  set_public_keys db (<[d.(dv_public_key_id) := {|
    pk_public_key_id := d.(dv_public_key_id); pk_device_id := d.(dv_device_id);
    pk_public_key := d.(dv_public_key); pk_version := d.(dv_public_key_version);
    pk_created_at := d.(dv_created_at); pk_revoked_at := d.(dv_public_key_revoked_at) |}]>
    db.(device_public_keys)).

Definition first_registration (db : AccountDb) (c : DeviceRegistrationCommand) (g : DeviceEnrollmentGrant)
    : result StoreError AccountDb :=
  let d := c.(rg_device) in
  _ ← ensure (none (db.(core).(db_devices) !! d.(dv_device_id))
              && negb (bool_decide (is_Some (btree_find (λ x, x.(dv_public_key_id) =! d.(dv_public_key_id))
                                               db.(core).(db_devices))))) Conflict;
  _ ← ensure (none g.(gr_registration_request_binding_hash) && none g.(gr_registered_public_key_id)
              && none g.(gr_registered_trusted_device_id)) Unavailable;
  trusted ← (if g.(gr_establish_trust) then id ← ok_or c.(rg_trusted_device_id) Conflict; Ok (Some id)
             else Ok None);
  _ ← ensure (match trusted with Some id => none (db.(trusted_controller_devices) !! id) | None => true end) Conflict;
  let registered := registered_tables db c g trusted in
  db ← (match trusted with
        | Some id =>
            '(t, entry) ← registration_trust c g id;
            Ok (extend_audit (set_trusted registered (<[id := t]> registered.(trusted_controller_devices))) [entry])
        | None => Ok registered
        end);
  Ok (extend_audit db [device_registration_result_audit c; c.(rg_grant_audit)]).

Definition register_device (db : AccountDb) (c : DeviceRegistrationCommand)
    : result StoreError DeviceRegistrationOutcome * AccountDb :=
  match db.(device_enrollment_grants) !! c.(rg_grant_id) with
  | None => (Ok InvalidGrant, db)
  | Some g =>
      match validate_device_registration_authority db c g with
      | Err e => (Err e, db)
      | Ok _ =>
          if negb (holds_grant db c g) then (Ok InvalidGrant, db)
          else if negb (none g.(gr_consumed_at)) then (replay_registration db c g, db)
          else if (g.(gr_expires_at) <=? c.(rg_now))
                  || negb (account_session_active db c.(rg_account_session_id) c.(rg_account_id) c.(rg_now))
                  || (g.(gr_establish_trust)
                      && negb (match db.(account_sessions) !! c.(rg_account_session_id) with
                               | Some s => s.(as_mfa_verified) | None => false end))
          then (Ok InvalidGrant, db)
          else match first_registration db c g with
               | Err e => (Err e, db)
               | Ok db' => (Ok (Created c.(rg_device)), db')
               end
      end
  end.
(** ** Closing the sessions of a device *)

Definition involves (device_id : rstr) (s : Session) : bool :=
  negb (is_terminal s.(se_status))
  && ((s.(se_controller_device_id) =! device_id) || (s.(se_controlled_device_id) =! device_id)).

(** The identifiers, sorted. *)
Definition open_sessions_of (db : Database) (device_id : rstr) : list rstr :=
  merge_sort str_le ((λ kv, kv.2.(se_session_id)) <$> List.filter (λ kv, involves device_id kv.2)
                       (btree_iter db.(db_sessions))).

Definition next_epoch (s : Session) : option Z :=
  if s.(se_relay_token_epoch) + 1 <? 2 ^ 64 then Some (s.(se_relay_token_epoch) + 1) else None.

Definition closed_session (s : Session) (epoch now : Z) : Session :=
  set_outcome s Closed epoch (Z.max s.(se_updated_at) now) (Some now).

(** The loop of [manage_device]: sessions, events and audit entries. *)
Fixpoint close_sessions (sessions : gmap rstr Session) (ids : list rstr) (source : AuditEntry) (reason : option rstr)
    (now : Z) : result StoreError (gmap rstr Session * list SessionEvent * list AuditEntry) :=
  match ids with
  | [] => Ok (sessions, [], [])
  | id :: ids =>
      s ← ok_or (sessions !! id) Unavailable;
      epoch ← ok_or (next_epoch s) Conflict;
      r ← ok_or reason Unavailable;
      let closed := closed_session s epoch now in
      let '(event, audit) := forced_session_close_records closed s.(se_status) source r in
      '(sessions, events, audits) ← close_sessions (<[id := closed]> sessions) ids source reason now;
      Ok (sessions, event :: events, audit :: audits)
  end.

(** The loop of a key rotation, which knows the epochs. *)
Fixpoint close_at_epochs (sessions : gmap rstr Session) (epochs : list (rstr * Z)) (source : AuditEntry)
    (reason : rstr) (now : Z) : gmap rstr Session * list SessionEvent * list AuditEntry :=
  match epochs with
  | [] => (sessions, [], [])
  | (id, epoch) :: epochs =>
      match sessions !! id with
      | None => close_at_epochs sessions epochs source reason now
      | Some s =>
          let closed := closed_session s epoch now in
          let '(event, audit) := forced_session_close_records closed s.(se_status) source reason in
          let '(sessions, events, audits) := close_at_epochs (<[id := closed]> sessions) epochs source reason now in
          (sessions, event :: events, audit :: audits)
      end
  end.

Definition set_sessions (db : AccountDb) (sessions : gmap rstr Session) (events : list SessionEvent) : AccountDb :=
  let k := db.(core) in
  set_core db {|
    db_devices := k.(db_devices); db_sessions := sessions; db_session_events := k.(db_session_events) ++ events;
    db_session_idempotency := k.(db_session_idempotency); db_policy_evaluations := k.(db_policy_evaluations);
    db_audit_logs := k.(db_audit_logs) |}.

(** ** Management *)

Definition set_device (d : Device) (display_name : rstr) (capabilities : DeviceCapabilities) (key_id : rstr)
    (key : bytes) (version : Z) (revoked_at : option Z) (status : DeviceLifecycleStatus) (updated_at : Z) : Device := {|
  dv_device_id := d.(dv_device_id); dv_account_id := d.(dv_account_id); dv_display_name := display_name;
  dv_platform := d.(dv_platform); dv_os_version := d.(dv_os_version); dv_arch := d.(dv_arch);
  dv_capabilities := capabilities; dv_public_key_id := key_id; dv_public_key := key;
  dv_public_key_version := version; dv_public_key_revoked_at := revoked_at; dv_status := status;
  dv_last_seen := d.(dv_last_seen); dv_created_at := d.(dv_created_at); dv_updated_at := updated_at |}.

Definition device_management_transition_allowed (target : Device) (c : DeviceManagementCommand) : bool :=
  if negb (none c.(dm_display_name)) && negb (none c.(dm_action)) then false
  else match c.(dm_action) with
  | None => negb (none c.(dm_display_name)) && (target.(dv_status) ≠! LUnbound)
  | Some Disable => is_authorizable target.(dv_status)
  | Some Restore => (target.(dv_status) =! LDisabled) && none target.(dv_public_key_revoked_at)
  | Some Unbind => target.(dv_status) ≠! LUnbound
  | Some RevokePublicKey => (target.(dv_status) ≠! LUnbound) && none target.(dv_public_key_revoked_at)
  end.

Definition apply_device_management (target : Device) (c : DeviceManagementCommand) : Device :=
  let k := target.(dv_capabilities) in
  let locked := {| cap_controller := k.(cap_controller); cap_controlled := false;
                   cap_file_transfer := k.(cap_file_transfer); cap_unattended := false |} in
  let '(status, capabilities, revoked_at) :=
    match c.(dm_action) with
    | None => (target.(dv_status), k, target.(dv_public_key_revoked_at))
    | Some Disable => (LDisabled, locked, target.(dv_public_key_revoked_at))
    | Some Restore => (LOffline, locked, target.(dv_public_key_revoked_at))
    | Some Unbind => (LUnbound, locked, Some c.(dm_now))
    | Some RevokePublicKey => (LDisabled, locked, Some c.(dm_now))
    end in
  set_device target (default target.(dv_display_name) c.(dm_display_name)) capabilities target.(dv_public_key_id)
    target.(dv_public_key) target.(dv_public_key_version) revoked_at status (Z.max target.(dv_updated_at) c.(dm_now)).

Definition device_management_audit (c : DeviceManagementCommand) (affected_session_ids : list rstr) : AuditEntry :=
  if c.(dm_action) =! Some RevokePublicKey
  then with_metadata c.(dm_audit) (<[str "affected_session_ids_hash" :=
         VString (sha256_hex (string_list_json affected_session_ids))]> c.(dm_audit).(au_metadata))
  else c.(dm_audit).

Definition device_public_key_revocation_snapshot (target : Device) (affected_session_ids : list rstr)
    (revoked_at : Z) (revocation_reason : rstr) : gmap rstr Value :=
  <[str "old_public_key_id" := VString target.(dv_public_key_id)]>
  (<[str "old_public_key_version" := VNumber target.(dv_public_key_version)]>
  (<[str "old_public_key_fingerprint" := VString (sha256_hex target.(dv_public_key))]>
  (<[str "revoked_at_epoch_millis" := VNumber revoked_at]>
  (<[str "revocation_reason" := VString revocation_reason]>
  {[str "affected_session_ids_hash" :=
      VString (sha256_hex (string_list_json (merge_sort str_le affected_session_ids)))]})))).

(** The entry about the key of a device that is unbound. *)
Definition unbound_key_audit (primary : AuditEntry) (metadata : gmap rstr Value) : AuditEntry := {|
  au_audit_id := primary.(au_audit_id) ++ str ":public-key"; au_actor_type := primary.(au_actor_type);
  au_actor_account_id := primary.(au_actor_account_id); au_actor_device_id := primary.(au_actor_device_id);
  au_actor_role := primary.(au_actor_role); au_actor_service := primary.(au_actor_service);
  au_target_device_id := primary.(au_target_device_id); au_session_id := primary.(au_session_id);
  au_action := str "device_public_key_revoked"; au_result := primary.(au_result);
  au_reason := Some (str "device_unbound"); au_metadata := metadata;
  au_request_id := primary.(au_request_id); au_created_at := primary.(au_created_at) |}.

Definition expected_management_action (a : option DeviceManagementAction) : rstr :=
  match a with
  | None | Some Disable | Some Restore => str "device_status_changed"
  | Some Unbind => str "device_unregistered"
  | Some RevokePublicKey => str "device_public_key_revoked"
  end.

Definition device_management_authority_audits (c : DeviceManagementCommand) (target : Device)
    (affected_session_ids : list rstr) : result StoreError (list AuditEntry) :=
  let e := c.(dm_audit) in
  _ ← ensure (negb (is_blank e.(au_audit_id)) && (e.(au_actor_type) =! str "device")
              && (e.(au_actor_account_id) =! Some c.(dm_account_id))
              && (e.(au_actor_device_id) =! Some c.(dm_actor_device_id))
              && (e.(au_target_device_id) =! Some c.(dm_target_device_id))
              && (e.(au_action) =! expected_management_action c.(dm_action)) && (e.(au_result) =! str "success")
              && (e.(au_created_at) =? c.(dm_now)) && (target.(dv_account_id) =! c.(dm_account_id))
              && (target.(dv_device_id) =! c.(dm_target_device_id))
              && (target.(dv_public_key_id) =! c.(dm_expected_target_public_key_id))
              && (target.(dv_public_key_version) =? c.(dm_expected_target_public_key_version))) Conflict;
  let primary := device_management_audit c affected_session_ids in
  match c.(dm_action) with
  | Some RevokePublicKey =>
      Ok [with_metadata primary (device_public_key_revocation_snapshot target affected_session_ids c.(dm_now)
                                   (str "user_requested") ∪ primary.(au_metadata))]
  | Some Unbind =>
      Ok [primary; unbound_key_audit primary (device_public_key_revocation_snapshot target affected_session_ids
                                                c.(dm_now) (str "device_unbound"))]
  | _ => Ok [primary]
  end.

Definition device_management_session_close_reason (a : DeviceManagementAction) : option rstr :=
  match a with
  | Disable => Some (str "device_disabled")
  | Unbind => Some (str "device_unbound")
  | RevokePublicKey => Some (str "device_public_key_revoked")
  | Restore => None
  end.

Definition device_management_revokes_account_sessions (a : DeviceManagementAction) : bool :=
  match a with Unbind | RevokePublicKey => true | _ => false end.

(** Disabling, unbinding and revoking. *)
Definition tightening (a : option DeviceManagementAction) : bool :=
  match a with Some Disable | Some Unbind | Some RevokePublicKey => true | _ => false end.

(** The trust in a device that a change ends. *)
Definition trusts (account_id device_id : rstr) (t : TrustedControllerDevice) : bool :=
  (t.(tr_account_id) =! account_id) && (t.(tr_controller_device_id) =! device_id) && (t.(tr_status) =! TrustActive).

Definition trust_audits (db : AccountDb) (f : TrustedControllerDevice → bool) (source : AuditEntry) (reason : rstr)
    : list AuditEntry :=
  (λ kv, trusted_device_revocation_audit source kv.2.(tr_trusted_device_id) kv.2.(tr_controller_device_id) reason) <$>
  List.filter (λ kv, f kv.2) (btree_iter db.(trusted_controller_devices)).

Definition session_audits (db : AccountDb) (account_id : rstr) (source : AuditEntry) : list AuditEntry :=
  (λ kv, account_session_revocation_audit source kv.2.(as_account_session_id) (str "device_unbound")) <$>
  List.filter (λ kv, (kv.2.(as_account_id) =! account_id) && none kv.2.(as_revoked_at))
    (btree_iter db.(account_sessions)).

Definition revoke_trusts (db : AccountDb) (f : TrustedControllerDevice → bool) (now : Z) : AccountDb :=
  set_trusted db ((λ t, if f t then revoke_trust t now else t) <$> db.(trusted_controller_devices)).

Definition revoke_account_sessions (db : AccountDb) (account_id reason : rstr) (now : Z) : AccountDb :=
  set_account_sessions db ((λ s, if (s.(as_account_id) =! account_id) && bool_decide (s.(as_revoked_at) = None)
                                 then revoke_session s now reason else s) <$> db.(account_sessions)).

Definition revoke_key (r : DevicePublicKeyRecord) (now : Z) : DevicePublicKeyRecord := {|
  pk_public_key_id := r.(pk_public_key_id); pk_device_id := r.(pk_device_id); pk_public_key := r.(pk_public_key);
  pk_version := r.(pk_version); pk_created_at := r.(pk_created_at); pk_revoked_at := Some now |}.

Definition actor_valid (db : AccountDb) (c : DeviceManagementCommand) : bool :=
  match db.(core).(db_devices) !! c.(dm_actor_device_id) with
  | Some a => (a.(dv_account_id) =! c.(dm_account_id)) && (a.(dv_public_key_id) =! c.(dm_actor_public_key_id))
              && (a.(dv_public_key_version) =? c.(dm_actor_public_key_version))
              && none a.(dv_public_key_revoked_at) && is_authorizable a.(dv_status)
  | None => false
  end.

(** The tables after the change, without the audit entries. *)
Definition managed_tables (db : AccountDb) (c : DeviceManagementCommand) (target : Device)
    (sessions : gmap rstr Session) (events : list SessionEvent) : AccountDb :=
  let db := if tightening c.(dm_action)
            then revoke_trusts db (trusts c.(dm_account_id) c.(dm_target_device_id)) c.(dm_now) else db in
  let db := if default false (device_management_revokes_account_sessions <$> c.(dm_action))
            then revoke_account_sessions db c.(dm_account_id) (str "device_unbound") c.(dm_now) else db in
  let updated := apply_device_management target c in
  let db := set_devices db (<[c.(dm_target_device_id) := updated]> db.(core).(db_devices)) in
  let db := match updated.(dv_public_key_revoked_at) with
            | Some at_ => set_public_keys db (alter (λ r, revoke_key r at_) updated.(dv_public_key_id)
                                                db.(device_public_keys))
            | None => db
            end in
  set_sessions db sessions events.

Definition apply_management (db : AccountDb) (c : DeviceManagementCommand) (target : Device)
    : result StoreError (DeviceAuthorityChange * AccountDb) :=
  let affected := if tightening c.(dm_action) then open_sessions_of db.(core) c.(dm_target_device_id) else [] in
  let reason := c.(dm_action) ≫= device_management_session_close_reason in
  authority ← device_management_authority_audits c target affected;
  first ← ok_or (head authority) Unavailable;
  let trust := match reason with
    | Some r => trust_audits db (trusts c.(dm_account_id) c.(dm_target_device_id)) first r
    | None => [] end in
  let accounts := if default false (device_management_revokes_account_sessions <$> c.(dm_action))
                  then session_audits db c.(dm_account_id) first else [] in
  '(sessions, events, closing) ← close_sessions db.(core).(db_sessions) affected c.(dm_audit) reason c.(dm_now);
  let audits := closing ++ trust ++ accounts ++ authority in
  _ ← ensure (audits_new db.(core) audits) Conflict;
  Ok ({| dc_device := apply_device_management target c; dc_closed_session_events := events |},
      extend_audit (managed_tables db c target sessions events) audits).

Definition manage_device (db : AccountDb) (c : DeviceManagementCommand)
    : result StoreError DeviceManagementOutcome * AccountDb :=
  if negb (actor_valid db c) then (Err Conflict, db)
  else match db.(core).(db_devices) !! c.(dm_target_device_id) with
  | None => (Ok DeviceMissing, db)
  | Some target =>
      if (target.(dv_account_id) ≠! c.(dm_account_id))
         || (target.(dv_public_key_id) ≠! c.(dm_expected_target_public_key_id))
         || negb (target.(dv_public_key_version) =? c.(dm_expected_target_public_key_version))
      then (Err Conflict, db)
      else if negb (device_management_transition_allowed target c) then (Ok InvalidDeviceTransition, db)
      else match apply_management db c target with
      | Err e => (Err e, db)
      | Ok (change, db') => (Ok (DeviceUpdated change), db')
      end
  end.

(** ** Key rotation *)

Definition device_key_rotation_authority_audit (r : DeviceKeyRotation) (current : Device) : result StoreError AuditEntry :=
  let e := r.(kr_audit) in
  let x := r.(kr_step_up) in
  _ ← ensure (negb (is_blank e.(au_audit_id)) && (e.(au_actor_type) =! str "device")
              && (e.(au_actor_account_id) =! Some x.(sx_account_id))
              && (e.(au_actor_device_id) =! Some x.(sx_device_id))
              && (e.(au_target_device_id) =! Some x.(sx_device_id))
              && (e.(au_action) =! str "device_public_key_rotated") && (e.(au_result) =! str "success")
              && (e.(au_created_at) =? x.(sx_now)) && (current.(dv_account_id) =! x.(sx_account_id))
              && (current.(dv_device_id) =! x.(sx_device_id))
              && (current.(dv_public_key_id) =! r.(kr_current_public_key_id))
              && (current.(dv_public_key_version) =? r.(kr_current_public_key_version))) Conflict;
  Ok (with_metadata e
    (<[str "step_up_challenge_id" := VString x.(sx_challenge_id)]>
    (<[str "rotation_reason" := VString (str "user_requested")]>
    (<[str "revoked_at_epoch_millis" := VNumber x.(sx_now)]>
    (<[str "new_public_key_fingerprint" := VString (sha256_hex r.(kr_new_public_key))]>
    (<[str "new_public_key_version" := VNumber r.(kr_new_public_key_version)]>
    (<[str "new_public_key_id" := VString r.(kr_new_public_key_id)]>
    (<[str "old_public_key_fingerprint" := VString (sha256_hex current.(dv_public_key))]>
    (<[str "old_public_key_version" := VNumber current.(dv_public_key_version)]>
    (<[str "old_public_key_id" := VString current.(dv_public_key_id)]> e.(au_metadata))))))))))).

Definition rotation_allowed (db : AccountDb) (r : DeviceKeyRotation) (current : Device) : bool :=
  let x := r.(kr_step_up) in
  (current.(dv_account_id) =! x.(sx_account_id)) && (current.(dv_public_key_id) =! r.(kr_current_public_key_id))
  && (current.(dv_public_key_version) =? r.(kr_current_public_key_version))
  && none current.(dv_public_key_revoked_at) && (current.(dv_public_key) ≠! r.(kr_new_public_key))
  && (current.(dv_public_key_version) + 1 <? 2 ^ 32)
  && (current.(dv_public_key_version) + 1 =? r.(kr_new_public_key_version))
  && (r.(kr_new_public_key_id) ≠! r.(kr_current_public_key_id))
  && none (btree_find (λ d, (d.(dv_public_key_id) =! r.(kr_new_public_key_id))
                            && (d.(dv_device_id) ≠! x.(sx_device_id))) db.(core).(db_devices)).

(** The open sessions of the device with their next epochs, sorted. *)
Definition affected_epochs (db : Database) (device_id : rstr) : result StoreError (list (rstr * Z)) :=
  l ← collect (λ kv : rstr * Session, epoch ← ok_or (next_epoch kv.2) Conflict; Ok (kv.2.(se_session_id), epoch))
        (List.filter (λ kv, involves device_id kv.2) (btree_iter db.(db_sessions)));
  Ok (merge_sort entry_le l).

Definition trusts_key (account_id device_id : rstr) (fingerprint : bytes) (t : TrustedControllerDevice) : bool :=
  trusts account_id device_id t && (t.(tr_device_fingerprint_hash) =! fingerprint).

(** The tables after the step-up is consumed: the old key ends, with the trust in
    it, and the new one takes its place. *)
Definition rotated_tables (db : AccountDb) (r : DeviceKeyRotation) (current : Device) : AccountDb :=
  let x := r.(kr_step_up) in
  let db := set_public_keys db (alter (λ k, revoke_key k x.(sx_now)) r.(kr_current_public_key_id)
                                  db.(device_public_keys)) in
  let db := revoke_trusts db (trusts_key x.(sx_account_id) x.(sx_device_id) (sha256 current.(dv_public_key)))
              x.(sx_now) in
  let db := set_public_keys db (<[r.(kr_new_public_key_id) := {|
    pk_public_key_id := r.(kr_new_public_key_id); pk_device_id := x.(sx_device_id);
    pk_public_key := r.(kr_new_public_key); pk_version := r.(kr_new_public_key_version);
    pk_created_at := x.(sx_now); pk_revoked_at := None |}]> db.(device_public_keys)) in
  set_devices db (<[x.(sx_device_id) := set_device current current.(dv_display_name) current.(dv_capabilities)
    r.(kr_new_public_key_id) r.(kr_new_public_key) r.(kr_new_public_key_version) None current.(dv_status)
    x.(sx_now)]> db.(core).(db_devices)).

Definition apply_device_key_rotation (db : AccountDb) (r : DeviceKeyRotation)
    : result StoreError (DeviceAuthorityChange * AccountDb) :=
  let x := r.(kr_step_up) in
  _ ← ensure (step_up_matches db x && (x.(sx_purpose) =! str "device_key_rotation")) Conflict;
  current ← ok_or (db.(core).(db_devices) !! x.(sx_device_id)) Conflict;
  _ ← ensure (rotation_allowed db r current) Conflict;
  epochs ← affected_epochs db.(core) x.(sx_device_id);
  source ← device_key_rotation_authority_audit r current;
  let trust := trust_audits db (trusts_key x.(sx_account_id) x.(sx_device_id) (sha256 current.(dv_public_key))) source
                 (str "device_key_rotated") in
  match consume_step_up_in_database db x with
  | (Err e, _) => Err e
  | (Ok _, consumed) =>
      let rotated := rotated_tables consumed r current in
      let '(sessions, events, closing) := close_at_epochs rotated.(core).(db_sessions) epochs source
                                            (str "device_key_rotated") x.(sx_now) in
      let audits := closing ++ trust ++ [source] in
      _ ← ensure (audits_new db.(core) audits) Conflict;
      updated ← ok_or (rotated.(core).(db_devices) !! x.(sx_device_id)) Conflict;
      Ok ({| dc_device := updated; dc_closed_session_events := events |},
          extend_audit (set_sessions rotated sessions events) audits)
  end.

Definition rotate_device_key (db : AccountDb) (r : DeviceKeyRotation)
    : result StoreError DeviceAuthorityChange * AccountDb :=
  match apply_device_key_rotation db r with
  | Err e => (Err e, db)
  | Ok (change, db') => (Ok change, db')
  end.
End operations.

(** ** What the operations change *)

Lemma extend_audit_app db es1 es2 : extend_audit (extend_audit db es1) es2 = extend_audit db (es1 ++ es2).
Proof. unfold extend_audit, set_core. cbn. by rewrite (assoc_L (++)). Qed.

Lemma set_trusted_same db : set_trusted db db.(trusted_controller_devices) = db.
Proof. by destruct db. Qed.

Lemma btree_find_no (f : Device → bool) (m : gmap rstr Device) :
  bool_decide (is_Some (btree_find f m)) = false ↔ map_Forall (λ _ d, f d = false) m.
Proof.
  rewrite bool_decide_eq_false, <-eq_None_not_Some. split.
  - intros H k d Hd. by apply (proj1 (btree_find_none _ _)) with (k := k) (v := d) in H.
  - intros H. apply btree_find_none. intros k d Hd. by apply (H k d).
Qed.

(** An entry that is not the record of a registration. *)
Definition clean (e : AuditEntry) : Prop := e.(au_metadata) !! DEVICE_REGISTRATION_RESULT_METADATA_KEY = None.

Ltac other_key := rewrite ?lookup_insert_ne, ?lookup_singleton_ne by (vm_compute; discriminate).

Lemma session_revocation_clean source id reason : clean (account_session_revocation_audit source id reason).
Proof. unfold clean, account_session_revocation_audit. cbn [au_metadata]. by other_key. Qed.

Lemma trust_revocation_clean source id device reason : clean (trusted_device_revocation_audit source id device reason).
Proof. unfold clean, trusted_device_revocation_audit. cbn [au_metadata]. by other_key. Qed.

Section changes.
Context `{P : Primitives} `{T : ApiText}.

Lemma forced_close_clean s from source reason : clean (forced_session_close_records s from source reason).2.
Proof. unfold clean, forced_session_close_records. cbn [au_metadata snd]. by other_key. Qed.

Lemma close_sessions_clean sessions ids source reason now sessions' events audits :
  close_sessions sessions ids source reason now = Ok (sessions', events, audits) → Forall clean audits.
Proof.
  revert sessions events audits. induction ids as [|id ids IH]; intros sessions events audits H; [by injection H as <- <- <-|].
  cbn in H. apply bind_ok in H as (s & _ & H). apply bind_ok in H as (epoch & _ & H). apply bind_ok in H as (r & _ & H).
  pose proof (forced_close_clean (closed_session s epoch now) s.(se_status) source r) as Hc.
  destruct (forced_session_close_records _ _ _ _) as [e a]. apply bind_ok in H as ([[ss es] aus] & Hr & H).
  injection H as <- <- <-. constructor; [done|by eapply IH].
Qed.

Lemma close_at_epochs_clean sessions epochs source reason now :
  Forall clean (close_at_epochs sessions epochs source reason now).2.
Proof.
  revert sessions. induction epochs as [|[id epoch] epochs IH]; intros sessions; [constructor|]. cbn.
  destruct (sessions !! id) as [s|]; [|apply IH].
  pose proof (forced_close_clean (closed_session s epoch now) s.(se_status) source reason) as Hc.
  destruct (forced_session_close_records _ _ _ _) as [e a].
  specialize (IH (<[id := closed_session s epoch now]> sessions)). destruct (close_at_epochs _ _ _ _ _) as [[ss es] aus].
  by constructor.
Qed.

Lemma trust_audits_clean db f source reason : Forall clean (trust_audits db f source reason).
Proof. apply Forall_fmap, Forall_forall. intros kv _. apply trust_revocation_clean. Qed.

Lemma session_audits_clean db account source : Forall clean (session_audits db account source).
Proof. apply Forall_fmap, Forall_forall. intros kv _. apply session_revocation_clean. Qed.

Lemma revocation_snapshot_clean target ids now reason :
  device_public_key_revocation_snapshot target ids now reason !! DEVICE_REGISTRATION_RESULT_METADATA_KEY = None.
Proof. unfold device_public_key_revocation_snapshot. by other_key. Qed.

Lemma authority_audits_clean c target ids es :
  device_management_authority_audits c target ids = Ok es → clean c.(dm_audit) → Forall clean es.
Proof.
  unfold device_management_authority_audits. intros H Hc. apply bind_ok in H as ([] & _ & H).
  assert (Hp : clean (device_management_audit c ids)).
  { unfold device_management_audit. destruct (_ =! _); [|done]. unfold clean, with_metadata. cbn [au_metadata]. other_key. exact Hc. }
  destruct c.(dm_action) as [[]|]; injection H as <-; rewrite ?Forall_cons, Forall_nil; split_and!; try exact I; try exact Hp;
    unfold clean; cbn [au_metadata unbound_key_audit with_metadata]; rewrite ?lookup_union, revocation_snapshot_clean.
  - reflexivity.
  - rewrite Hp. reflexivity.
Qed.

(** The trust that comes with the device, when the login proved a second factor. *)
Definition trust_with_device (db : AccountDb) (c : DeviceRegistrationCommand) (g : DeviceEnrollmentGrant)
    (trusted : option rstr) (trusts : gmap rstr TrustedControllerDevice) (es : list AuditEntry) : Prop :=
  (trusted = None ∧ g.(gr_establish_trust) = false ∧ trusts = db.(trusted_controller_devices) ∧ es = [])
  ∨ (∃ id t e, trusted = Some id ∧ g.(gr_establish_trust) = true ∧ db.(trusted_controller_devices) !! id = None
       ∧ registration_trust c g id = Ok (t, e) ∧ trusts = <[id := t]> db.(trusted_controller_devices) ∧ es = [e]).

Lemma first_registration_ok db c g db' :
  first_registration db c g = Ok db' →
  db.(core).(db_devices) !! c.(rg_device).(dv_device_id) = None
  ∧ map_Forall (λ _ d, d.(dv_public_key_id) ≠ c.(rg_device).(dv_public_key_id)) db.(core).(db_devices)
  ∧ ∃ trusted trusts es, trust_with_device db c g trusted trusts es
    ∧ db' = extend_audit (set_trusted (registered_tables db c g trusted) trusts)
              (es ++ [device_registration_result_audit c; c.(rg_grant_audit)]).
Proof.
  unfold first_registration. intros H. apply bind_ok in H as ([] & Hd & H). apply ensure_ok, andb_true_iff in Hd as [Hd Hk].
  apply negb_true_iff, btree_find_no in Hk. apply bind_ok in H as ([] & _ & H).
  apply bind_ok in H as (trusted & Ht & H). apply bind_ok in H as ([] & Hf & H). apply ensure_ok in Hf.
  apply bind_ok in H as (db1 & H1 & H). injection H as <-. split_and!.
  { by destruct (_ !! _). }
  { intros id d Hid Heq. specialize (Hk id d Hid). cbn in Hk. by rewrite bool_decide_eq_true_2 in Hk. }
  destruct g.(gr_establish_trust) eqn:Hg.
  - apply bind_ok in Ht as (id & _ & Ht). injection Ht as <-.
    apply bind_ok in H1 as ([t e] & Hr & H1). injection H1 as <-.
    exists (Some id), (<[id := t]> db.(trusted_controller_devices)), [e]. split; [|by rewrite extend_audit_app].
    right. exists id, t, e. split_and!; try done. by destruct (_ !! id).
  - injection Ht as <-. injection H1 as <-. exists None, db.(trusted_controller_devices), []. split; [by left|].
    rewrite app_nil_l. f_equal.
Qed.

(** A device is created in one way, and the tables change in no other. *)
Lemma register_device_created db c d db' :
  register_device db c = (Ok (Created d), db') →
  d = c.(rg_device) ∧ ∃ g, db.(device_enrollment_grants) !! c.(rg_grant_id) = Some g
    ∧ validate_device_registration_authority db c g = Ok tt ∧ holds_grant db c g = true ∧ g.(gr_consumed_at) = None
    ∧ c.(rg_now) < g.(gr_expires_at)
    ∧ account_session_active db c.(rg_account_session_id) c.(rg_account_id) c.(rg_now) = true
    ∧ first_registration db c g = Ok db'.
Proof.
  unfold register_device. destruct (_ !! c.(rg_grant_id)) as [g|]; [|done].
  destruct (validate_device_registration_authority db c g) as [[]|] eqn:Hv; [|done].
  destruct (holds_grant db c g) eqn:Hh; [|done]. cbn [negb].
  destruct (gr_consumed_at g) eqn:Hc; cbn [none negb].
  { intros H. exfalso. injection H as H _. unfold replay_registration in H. by invert_ok. }
  destruct (_ || _) eqn:Hx; [done|]. destruct (first_registration db c g) as [db1|] eqn:Hf; [|done].
  intros [= <- <-]. split; [done|]. exists g. split_bools. split_and!; try done.
Qed.

Lemma register_device_other db c : (∀ d, (register_device db c).1 ≠ Ok (Created d)) → (register_device db c).2 = db.
Proof.
  unfold register_device. destruct (_ !! c.(rg_grant_id)) as [g|]; [|done].
  destruct (validate_device_registration_authority db c g); [|done]. destruct (negb (holds_grant _ _ _)); [done|].
  destruct (negb (none _)); [done|]. destruct (_ || _); [done|].
  destruct (first_registration db c g); [|done]. intros H. by destruct (H c.(rg_device)).
Qed.

Lemma apply_management_ok db c target ch db' :
  apply_management db c target = Ok (ch, db') →
  ∃ sessions events audits,
    (if tightening c.(dm_action) then ∃ reason closing,
       (c.(dm_action) ≫= device_management_session_close_reason) = Some reason
       ∧ close_sessions db.(core).(db_sessions) (open_sessions_of db.(core) c.(dm_target_device_id)) c.(dm_audit)
           (Some reason) c.(dm_now) = Ok (sessions, events, closing)
       ∧ ∃ rest, audits = closing ++ rest
     else sessions = db.(core).(db_sessions) ∧ events = [])
    ∧ target.(dv_device_id) = c.(dm_target_device_id) ∧ (clean c.(dm_audit) → Forall clean audits)
    ∧ ch = {| dc_device := apply_device_management target c; dc_closed_session_events := events |}
    ∧ db' = extend_audit (managed_tables db c target sessions events) audits.
Proof.
  unfold apply_management. intros H. apply bind_ok in H as (authority & Ha & H).
  apply bind_ok in H as (first & _ & H). apply bind_ok in H as ([[sessions events] closing] & Hc & H).
  apply bind_ok in H as ([] & _ & H). injection H as <- <-.
  exists sessions, events. eexists. split; [|split; [|split; [|done]]].
  - destruct (tightening c.(dm_action)) eqn:Ht; [|by injection Hc as <- <- _].
    destruct c.(dm_action) as [a|] eqn:Hact; [|done]. cbn in Hc |- *.
    destruct a; cbn in Ht, Hc |- *; try done; eexists _, closing; (split; [done|]); (split; [done|]); by eexists.
  - unfold device_management_authority_audits in Ha. apply bind_ok in Ha as ([] & Ha & _). apply ensure_ok in Ha. by split_bools.
  - intros Hcl. rewrite !Forall_app. split_and!.
    + by eapply close_sessions_clean.
    + destruct (dm_action c ≫= _); [apply trust_audits_clean|done].
    + destruct (default _ _); [apply session_audits_clean|done].
    + by eapply authority_audits_clean.
Qed.

Lemma manage_device_updated db c ch db' :
  manage_device db c = (Ok (DeviceUpdated ch), db') →
  ∃ target, db.(core).(db_devices) !! c.(dm_target_device_id) = Some target
    ∧ target.(dv_account_id) = c.(dm_account_id)
    ∧ device_management_transition_allowed target c = true ∧ apply_management db c target = Ok (ch, db').
Proof.
  unfold manage_device. destruct (negb (actor_valid db c)); [done|].
  destruct (_ !! c.(dm_target_device_id)) as [target|]; [|done]. destruct (_ || _) eqn:Hx; [done|].
  destruct (device_management_transition_allowed target c) eqn:Ht; [|done]. cbn [negb].
  destruct (apply_management db c target) as [[ch1 db1]|] eqn:Ha; [|done]. intros [= <- <-].
  exists target. by split_bools.
Qed.

Lemma manage_device_other db c :
  (∀ ch, (manage_device db c).1 ≠ Ok (DeviceUpdated ch)) → (manage_device db c).2 = db.
Proof.
  unfold manage_device. destruct (negb (actor_valid db c)); [done|].
  destruct (_ !! c.(dm_target_device_id)) as [target|]; [|done]. destruct (_ || _); [done|].
  destruct (negb _); [done|]. destruct (apply_management db c target) as [[ch db1]|]; [|done].
  intros H. by destruct (H ch).
Qed.

Lemma apply_rotation_ok db r ch db' :
  apply_device_key_rotation db r = Ok (ch, db') →
  ∃ current consumed epochs source sessions events closing rest,
    db.(core).(db_devices) !! r.(kr_step_up).(sx_device_id) = Some current
    ∧ rotation_allowed db r current = true
    ∧ current.(dv_device_id) = r.(kr_step_up).(sx_device_id)
    ∧ affected_epochs db.(core) r.(kr_step_up).(sx_device_id) = Ok epochs
    ∧ consume_step_up_in_database db r.(kr_step_up) = (Ok tt, consumed)
    ∧ close_at_epochs db.(core).(db_sessions) epochs source (str "device_key_rotated") r.(kr_step_up).(sx_now)
      = (sessions, events, closing)
    ∧ (clean r.(kr_audit) → Forall clean (closing ++ rest))
    ∧ ch.(dc_closed_session_events) = events
    ∧ db' = extend_audit (set_sessions (rotated_tables consumed r current) sessions events) (closing ++ rest).
Proof.
  unfold apply_device_key_rotation. intros H. apply bind_ok in H as ([] & _ & H).
  apply bind_ok in H as (current & Hc & H). apply ok_or_ok in Hc.
  apply bind_ok in H as ([] & Hall & H). apply ensure_ok in Hall. apply bind_ok in H as (epochs & He & H).
  apply bind_ok in H as (source & Hsrc & H).
  destruct (consume_step_up_in_database db r.(kr_step_up)) as [[[]|] consumed] eqn:Hcon; [|done].
  assert (Hcore : consumed.(core) = db.(core)).
  { unfold consume_step_up_in_database in Hcon. by repeat case_match; simplify_eq. }
  unfold rotated_tables in H at 1. cbn [core db_sessions set_devices set_core set_public_keys revoke_trusts set_trusted] in H.
  rewrite Hcore in H.
  destruct (close_at_epochs _ _ _ _ _) as [[sessions events] closing] eqn:Hclose.
  apply bind_ok in H as ([] & _ & H). apply bind_ok in H as (updated & _ & H). injection H as <- <-.
  unfold device_key_rotation_authority_audit in Hsrc. apply bind_ok in Hsrc as ([] & Hk & Hsrc). apply ensure_ok in Hk.
  injection Hsrc as <-. split_bools.
  eexists current, consumed, epochs, _, sessions, events, closing, _. split_and!; try done.
  intros Hcl. rewrite !Forall_app. split_and!.
  - match type of Hclose with ?t = _ => replace closing with t.2 by (by rewrite Hclose) end. apply close_at_epochs_clean.
  - apply trust_audits_clean.
  - apply Forall_singleton. unfold clean, with_metadata. cbn [au_metadata]. other_key. exact Hcl.
Qed.

(** Accounts, factors and codes are not touched, and account sessions only ended. *)
Lemma register_device_frame db c :
  let db' := (register_device db c).2 in
  db'.(accounts) = db.(accounts) ∧ db'.(account_sessions) = db.(account_sessions)
  ∧ db'.(mfa_factors) = db.(mfa_factors) ∧ db'.(recovery_codes) = db.(recovery_codes).
Proof.
  cbn. destruct (register_device db c) as [r db'] eqn:E.
  destruct r as [[d| |]|].
  2-4: pose proof (register_device_other db c) as Ho; rewrite E in Ho; cbn in Ho |- *; by rewrite Ho.
  apply register_device_created in E as (_ & g & _ & _ & _ & _ & _ & _ & H).
  by apply first_registration_ok in H as (_ & _ & trusted & trusts & es & _ & ->).
Qed.

Lemma manage_device_frame db c :
  let db' := (manage_device db c).2 in
  db'.(accounts) = db.(accounts) ∧ db'.(mfa_factors) = db.(mfa_factors) ∧ db'.(recovery_codes) = db.(recovery_codes)
  ∧ (db'.(account_sessions) = db.(account_sessions)
     ∨ db'.(account_sessions)
       = (revoke_authority db c.(dm_account_id) (str "device_unbound") c.(dm_now)).(account_sessions)).
Proof.
  cbn. destruct (manage_device db c) as [r db'] eqn:E. destruct r as [[ch| |]|].
  2-4: pose proof (manage_device_other db c) as Ho; rewrite E in Ho; cbn in Ho |- *; rewrite Ho by done; by eauto.
  apply manage_device_updated in E as (target & _ & _ & _ & H).
  apply apply_management_ok in H as (sessions & events & audits & _ & _ & _ & _ & ->).
  unfold managed_tables. destruct (dv_public_key_revoked_at (apply_device_management target c));
    destruct c.(dm_action) as [[]|]; cbn; by eauto.
Qed.

Lemma rotate_key_frame db r :
  let db' := (rotate_device_key db r).2 in
  db'.(accounts) = db.(accounts) ∧ db'.(account_sessions) = db.(account_sessions)
  ∧ db'.(mfa_factors) = db.(mfa_factors) ∧ db'.(recovery_codes) = db.(recovery_codes).
Proof.
  unfold rotate_device_key. destruct (apply_device_key_rotation db r) as [[ch db']|] eqn:E; [|done].
  apply apply_rotation_ok in E as (current & consumed & epochs & source & ss & es & closing & rest & _ & _ & _ & _ & Hc
    & _ & _ & _ & ->).
  unfold consume_step_up_in_database in Hc. by repeat case_match; simplify_eq.
Qed.
End changes.
