(* ===== verification/ApiAuthority.v ===== *)
(** * Runs of the account operations

    The operations of [ApiAccount] and [ApiLogin] one after the other, as the
    memory repository runs them under its lock, with the two transactions of a
    registration (services/api-server/src/routes/auth.rs, [register] and
    [issue_tokens]). What holds along every run: a session claims no second factor that
    its account does not have, and has passed it unless an enrolment overtook the
    registration, a revoked session stays revoked, refresh tokens and recovery codes
    work once. *)

From S2P Require Import Prelude Text Canonical Security Primitives KeySession SignalAuth Net ApiSession Ephemeral ApiAccount ApiLogin ApiSecurity ApiDevice.

(** ** Operations

    Registration has two transactions, the account ([DoRegister]) and the tokens of its
    first session ([DoIssue]); other operations can come in between. *)

Inductive AccountOp :=
| DoRegister (a : Account)
| DoIssue (s : AccountSession)
| DoRotate (refresh_token_hash : bytes) (replacement : AccountSession) (audit : AuditEntry) (now : Z)
| DoRevoke (account_session_id account_id : rstr) (now : Z) (audit : AuditEntry)
| DoVerifyFactor (challenge_id : option rstr) (account_id factor_kind code : rstr) (now : Z)
| DoCreateRisk (c : RiskChallenge) (audit : AuditEntry)
| DoCancelRisk (challenge_id : rstr) (audit : AuditEntry)
| DoVerifyRisk (v : RiskChallengeVerification)
| DoConsume (x : StepUpExpectation)
| DoStepUp (x : StepUpExpectation) (a : StepUpAction)
| DoFinishTotp (c : TotpEnrollmentCompletion)
| DoCreateLogin (a : LoginChallengeAuthority) (audit : AuditEntry)
| DoRejectLogin (challenge_id : rstr) (binding_hash : bytes) (now : Z) (audit : AuditEntry)
| DoFinishLogin (c : LoginFinishCommand)
| DoRegisterDevice (c : DeviceRegistrationCommand)
| DoRotateKey (r : DeviceKeyRotation)
| DoManageDevice (c : DeviceManagementCommand).

Inductive AccountAnswer :=
| AnsUnit (r : result StoreError unit)
| AnsBool (r : result StoreError bool)
| AnsCreated (r : result StoreError RiskChallengeCreationOutcome)
| AnsVerified (r : result StoreError RiskChallengeVerificationOutcome)
| AnsLogin (r : result StoreError LoginFinishOutcome)
| AnsRegistered (r : result StoreError DeviceRegistrationOutcome)
| AnsRotated (r : result StoreError DeviceAuthorityChange)
| AnsManaged (r : result StoreError DeviceManagementOutcome).

Section runs.
Context `{P : Primitives} `{F : FactorCrypto} `{T : ApiText}.

Definition answer {A} (k : A → AccountAnswer) (p : A * AccountDb) : AccountAnswer * AccountDb := (k p.1, p.2).

Definition perform (db : AccountDb) (o : AccountOp) : AccountAnswer * AccountDb :=
  match o with
  | DoRegister a => answer AnsUnit (insert_account db a)
  | DoIssue s => answer AnsUnit (insert_account_session db s)
  | DoRotate h s e now => answer AnsBool (rotate_refresh_session db h s e now)
  | DoRevoke id a now e => answer AnsBool (revoke_account_session db id a now e)
  | DoVerifyFactor id a k code now => answer AnsBool (verify_factor_in_database db id a k code now)
  | DoCreateRisk c e => answer AnsCreated (create_risk_challenge db c e)
  | DoCancelRisk id e => answer AnsBool (cancel_risk_challenge db id e)
  | DoVerifyRisk v => answer AnsVerified (verify_risk_challenge db v)
  | DoConsume x => answer AnsUnit (consume_step_up_in_database db x)
  | DoStepUp x a => answer AnsUnit (apply_step_up_action db x a)
  | DoFinishTotp c => answer AnsUnit (finish_totp_enrollment db c)
  | DoCreateLogin a e => answer AnsUnit (create_login_challenge db a e)
  | DoRejectLogin id h now e => answer AnsBool (reject_login_challenge db id h now e)
  | DoFinishLogin c => answer AnsLogin (finish_login db c)
  | DoRegisterDevice c => answer AnsRegistered (register_device db c)
  | DoRotateKey r => answer AnsRotated (rotate_device_key db r)
  | DoManageDevice c => answer AnsManaged (manage_device db c)
  end.

(** The entries of an operation are not records of registrations, which only a
    registration writes. *)
Definition op_audits (o : AccountOp) : list AuditEntry :=
  match o with
  | DoRegister _ | DoIssue _ | DoVerifyFactor _ _ _ _ _ | DoConsume _ => []
  | DoRotate _ _ e _ | DoRevoke _ _ _ e | DoCreateRisk _ e | DoCancelRisk _ e | DoCreateLogin _ e
  | DoRejectLogin _ _ _ e => [e]
  | DoVerifyRisk v =>
      [v.(vf_success_audit); v.(vf_failure_audit)] ++ option_list v.(vf_recovery_code_audit)
  | DoStepUp _ a => [action_audit a]
  | DoFinishTotp c => [c.(cp_audit)]
  | DoFinishLogin c => c.(fc_failure_audit) :: c.(fc_audit_entries)
  | DoRegisterDevice c => [c.(rg_registration_audit); c.(rg_grant_audit)] ++ option_list c.(rg_trusted_device_audit)
  | DoRotateKey r => [r.(kr_audit)]
  | DoManageDevice c => [c.(dm_audit)]
  end.

(** What is drawn at random is new: the identifier of an account and the identifiers of
    keys. The first session of an account is issued, without a second factor, some time
    after the account was registered. *)
Definition op_fresh (db : AccountDb) (o : AccountOp) : Prop :=
  Forall clean (op_audits o) ∧
  match o with
  | DoRegister a => db.(accounts) !! a.(ac_account_id) = None
  | DoIssue s => is_Some (db.(accounts) !! s.(as_account_id)) ∧ s.(as_mfa_verified) = false
  | DoRegisterDevice c => db.(device_public_keys) !! c.(rg_device).(dv_public_key_id) = None
  | DoRotateKey r => db.(device_public_keys) !! r.(kr_new_public_key_id) = None
  | _ => True
  end.

(** The operations on sessions between devices change the rest of [core] under the
    same lock, in whatever way, and so does an entry written on its own. *)
Inductive account_step (db : AccountDb) : AccountDb → Prop :=
| account_step_op o : op_fresh db o → account_step db (perform db o).2
| account_step_core c es :
    c.(db_devices) = db.(core).(db_devices) → c.(db_audit_logs) = db.(core).(db_audit_logs) ++ es → Forall clean es →
    account_step db (set_core db c).

(** No enrolment of a second factor overtakes a registration: the account has none when
    its first session is issued. *)
Definition settled (db : AccountDb) (o : AccountOp) : Prop :=
  match o with DoIssue s => mfa_enabled db s.(as_account_id) = false | _ => True end.

(** The steps, without or with registrations that are overtaken ([late]). *)
Inductive settled_step (db : AccountDb) : AccountDb → Prop :=
| settled_step_op o : op_fresh db o → settled db o → settled_step db (perform db o).2
| settled_step_core c es :
    c.(db_devices) = db.(core).(db_devices) → c.(db_audit_logs) = db.(core).(db_audit_logs) ++ es → Forall clean es →
    settled_step db (set_core db c).

Definition moved (late : bool) : relation AccountDb := if late then account_step else settled_step.

Lemma moved_op late db o : op_fresh db o → late = true ∨ settled db o → moved late db (perform db o).2.
Proof. intros Hf Hs. destruct late; [by apply account_step_op|]. destruct Hs; [done|]. by apply settled_step_op. Qed.

Lemma moved_core late db c es :
  c.(db_devices) = db.(core).(db_devices) → c.(db_audit_logs) = db.(core).(db_audit_logs) ++ es → Forall clean es →
  moved late db (set_core db c).
Proof. intros. destruct late; [by eapply account_step_core|by eapply settled_step_core]. Qed.

Lemma moved_steps late db db' : rtc (moved late) db db' → rtc account_step db db'.
Proof.
  destruct late; [done|]. induction 1 as [|db db1 db2 H _ IH]; [done|]. eapply rtc_l; [|exact IH].
  destruct H; [by apply account_step_op|by eapply account_step_core].
Qed.

(** ** What an operation does to the sessions and factors *)

(** A session afterwards is a session before, possibly revoked, or is new. *)
Definition session_kept (s s' : AccountSession) : Prop :=
  s' = s ∨ (s.(as_revoked_at) = None ∧ ∃ now reason, s' = revoke_session s now reason).

Definition sessions_kept (m m' : gmap rstr AccountSession) : Prop :=
  ∀ id s, m !! id = Some s → ∃ s', m' !! id = Some s' ∧ session_kept s s'.

(** The factors of an account are enabled in the same way, whatever codes were
    used. *)
Definition factors_kept (m m' : gmap rstr MfaFactor) : Prop :=
  ∀ id, (λ f, (f.(mf_account_id), f.(mf_active))) <$> m' !! id = (λ f, (f.(mf_account_id), f.(mf_active))) <$> m !! id.

#[global] Instance sessions_kept_refl : Reflexive sessions_kept.
Proof. intros m id s Hs. exists s. by split; [|left]. Qed.
#[global] Instance factors_kept_refl : Reflexive factors_kept.
Proof. by intros m id. Qed.
#[global] Instance factors_kept_trans : Transitive factors_kept.
Proof. intros m1 m2 m3 H1 H2 id. by rewrite H2, H1. Qed.

Lemma session_kept_trans s1 s2 s3 : session_kept s1 s2 → session_kept s2 s3 → session_kept s1 s3.
Proof.
  intros [->|(H1 & n1 & r1 & ->)] [->|(H2 & n2 & r2 & ->)]; [by left|by right; eauto..|done].
Qed.
#[global] Instance sessions_kept_trans : Transitive sessions_kept.
Proof.
  intros m1 m2 m3 H1 H2 id s Hs. apply H1 in Hs as (s2 & Hs & K1). apply H2 in Hs as (s3 & Hs & K2).
  exists s3. split; [done|]. by eapply session_kept_trans.
Qed.

Lemma mfa_enabled_spec db a :
  mfa_enabled db a = true ↔ ∃ id f, db.(mfa_factors) !! id = Some f ∧ f.(mf_account_id) = a ∧ f.(mf_active) = true.
Proof.
  unfold mfa_enabled. rewrite bool_decide_eq_true. split.
  - intros [[id f] H]. apply btree_find_some in H as [H Hf]. split_bools. eauto.
  - intros (id & f & Hf & Ha & Hact). destruct (btree_find _ _) eqn:E; [by eexists|].
    apply (proj1 (btree_find_none _ _)) with (k := id) (v := f) in E; [|done].
    by rewrite Hact, bool_decide_eq_true_2 in E.
Qed.

Lemma factors_kept_enabled db db' a :
  factors_kept db.(mfa_factors) db'.(mfa_factors) → mfa_enabled db' a = mfa_enabled db a.
Proof.
  intros H. apply eq_true_iff_eq. rewrite !mfa_enabled_spec. split; intros (id & f & Hf & Ha & Hact).
  - pose proof (H id) as Hid. rewrite Hf in Hid. cbn in Hid. symmetry in Hid. apply fmap_Some in Hid as (g & Hg & [= ? ?]).
    exists id, g. split_and!; congruence.
  - pose proof (H id) as Hid. rewrite Hf in Hid. cbn in Hid. apply fmap_Some in Hid as (g & Hg & [= ? ?]).
    exists id, g. split_and!; congruence.
Qed.

(** Operations that leave accounts, sessions and factors alone, up to the codes
    that were used. *)
Definition quiet (db db' : AccountDb) : Prop :=
  db'.(accounts) = db.(accounts) ∧ db'.(account_sessions) = db.(account_sessions)
  ∧ factors_kept db.(mfa_factors) db'.(mfa_factors).

#[local] Instance quiet_refl : Reflexive quiet.
Proof. by intros db. Qed.

Lemma quiet_tables db db' :
  db'.(accounts) = db.(accounts) → db'.(account_sessions) = db.(account_sessions) →
  db'.(mfa_factors) = db.(mfa_factors) → quiet db db'.
Proof. intros Ha Hs Hm. split_and!; [done..|]. by rewrite Hm. Qed.

Lemma quiet_trans db1 db2 db3 : quiet db1 db2 → quiet db2 db3 → quiet db1 db3.
Proof. intros (? & ? & ?) (? & ? & ?). split_and!; [congruence..|]. by etrans. Qed.

Lemma try_factor_quiet db account kind code now : quiet db (try_factor db account kind code now).2.
Proof.
  destruct (try_factor db account kind code now) as [b db'] eqn:E.
  pose proof (try_factor_frame _ _ _ _ _ _ _ E) as (Ha & Hs & _). split_and!; [done..|].
  unfold try_factor in E. destruct (kind =! str "totp"); [|by repeat case_match; simplify_eq].
  destruct (btree_find _ _) as [[id f]|] eqn:Ef; [|by simplify_eq]. apply btree_find_some in Ef as [Hf _].
  destruct (verify_totp _ _ _ _) as [n|]; simplify_eq; [|done]. cbn. intros j.
  destruct (decide (id = j)) as [<-|?]; simplify_map_eq; done.
Qed.

Lemma verify_factor_quiet db id account kind code now :
  quiet db (verify_factor_in_database db id account kind code now).2.
Proof.
  unfold verify_factor_in_database. case_match; [done|].
  pose proof (try_factor_quiet db account kind code now) as Hq. destruct (try_factor _ _ _ _ _) as [b db'].
  cbn in Hq. by repeat case_match.
Qed.

Lemma judge_challenge_quiet db v c h : quiet db (judge_challenge db v c h).2.
Proof. unfold judge_challenge. case_match; [by apply quiet_tables|]. apply verify_factor_quiet. Qed.

Lemma verify_risk_challenge_quiet db v : quiet db (verify_risk_challenge db v).2.
Proof.
  unfold verify_risk_challenge. destruct (accounts db !! _) as [a|]; [|done].
  destruct (risk_challenges db !! _) as [c|]; [|done].
  pose proof (judge_challenge_quiet db v c (ac_password_hash a)) as Hq.
  destruct (judge_challenge _ _ _ _) as [res candidate]. by repeat case_match.
Qed.

Definition stage_db (st : stage) : AccountDb := match st with Stop _ db | Go db => db end.

Lemma login_trust_quiet db c : quiet db (stage_db (login_trust db c)).
Proof. unfold login_trust. by repeat case_match. Qed.

Lemma login_factor_quiet db c : quiet db (stage_db (login_factor db c)).
Proof.
  unfold login_factor. case_match.
  - pose proof (login_trust_quiet db c) as Hq. destruct (login_trust db c). all: by repeat case_match.
  - case_match; [done|]. destruct (fc_factor_kind c) as [kind|], (fc_factor_code c) as [code|]; try done.
    case_match; [done|].
    pose proof (verify_factor_quiet db (Some (fc_challenge_id c)) (fc_account_id c) kind code (fc_now c)) as Hq.
    by destruct (verify_factor_in_database _ _ _ _ _ _) as [[[] |] db0].
Qed.

Lemma complete_login_fails original db c :
  (complete_login original db c).1 ≠ Ok LoginCompleted → (complete_login original db c).2 = original.
Proof. unfold complete_login. by repeat case_match. Qed.

Lemma finish_login_quiet db c :
  (finish_login db c).1 ≠ Ok LoginCompleted → quiet db (finish_login db c).2.
Proof.
  pose proof (login_factor_quiet db c) as Hq. unfold finish_login, lose_login.
  repeat case_match; try done; try (by apply quiet_tables).
  intros Hr. by rewrite (complete_login_fails _ _ _ Hr).
Qed.

Lemma finish_login_completed db c db' :
  finish_login db c = (Ok LoginCompleted, db') →
  let s := c.(fc_account_session) in
  db'.(accounts) = db.(accounts) ∧ factors_kept db.(mfa_factors) db'.(mfa_factors)
  ∧ db.(account_sessions) !! s.(as_account_session_id) = None
  ∧ db'.(account_sessions) = <[s.(as_account_session_id) := s]> db.(account_sessions)
  ∧ s.(as_account_id) = c.(fc_account_id) ∧ s.(as_mfa_verified) = mfa_enabled db c.(fc_account_id).
Proof.
  intros H. apply finish_login_ok in H as (Hshape & _ & _ & _ & db1 & Hf & Hc).
  pose proof (login_session_mfa _ _ _ Hshape Hf) as Hmfa.
  pose proof (login_factor_quiet db c) as Hq. rewrite Hf in Hq. destruct Hq as (Ha & Hs & Hm). cbn in Ha, Hs, Hm.
  apply complete_login_ok in Hc as (Hn & ch & Hch & Ht). unfold factor_tables in Ht. injection Ht as Ha' Hs' Hm' _ _.
  cbn. rewrite Ha', Hs', Hm', <-Hs. split_and!; try done.
  unfold validate_login_finish_command_shape in Hshape. by split_bools.
Qed.

(** ** Second factors

    Every session that is not revoked says truly whether its account has a second
    factor, or, when registrations can be overtaken, claims none that the account does
    not have; and only registered accounts have one. *)
Definition truthful (late claims has : bool) : Prop := if late then claims = true → has = true else claims = has.

Lemma truthful_eq late b b' : b = b' → truthful late b b'.
Proof. unfold truthful. intros ->. by destruct late. Qed.

Record account_inv (late : bool) (db : AccountDb) : Prop := {
  inv_mfa : ∀ id s, db.(account_sessions) !! id = Some s → s.(as_revoked_at) = None →
    truthful late s.(as_mfa_verified) (mfa_enabled db s.(as_account_id));
  inv_account : ∀ a, mfa_enabled db a = true → is_Some (db.(accounts) !! a) }.

Lemma empty_inv late : account_inv late empty_accounts.
Proof.
  split; [intros id s Hs|intros a Ha]; [|apply mfa_enabled_spec in Ha as (id & f & Hs & _)];
    cbn in Hs; by rewrite lookup_empty in Hs.
Qed.

Lemma inv_quiet late db db' : quiet db db' → account_inv late db → account_inv late db'.
Proof.
  intros (Ha & Hs & Hm) [I1 I2]. split.
  - intros id s. rewrite Hs, (factors_kept_enabled _ _ _ Hm). apply I1.
  - intros a. rewrite Ha, (factors_kept_enabled _ _ _ Hm). apply I2.
Qed.

(** New sessions that tell the truth. *)
Lemma inv_new_session late db db' :
  factors_kept db.(mfa_factors) db'.(mfa_factors) →
  (∀ a, is_Some (db.(accounts) !! a) → is_Some (db'.(accounts) !! a)) →
  (∀ i x, db'.(account_sessions) !! i = Some x → x.(as_revoked_at) = None →
     truthful late x.(as_mfa_verified) (mfa_enabled db x.(as_account_id)) ∨ db.(account_sessions) !! i = Some x) →
  account_inv late db → account_inv late db'.
Proof.
  intros Hm Ha Hs [I1 I2]. split.
  - intros i x Hx Hr. rewrite (factors_kept_enabled _ _ _ Hm). destruct (Hs i x Hx Hr) as [|Hold]; [done|].
    by eapply I1.
  - intros a. rewrite (factors_kept_enabled _ _ _ Hm). intros He. by apply Ha, I2.
Qed.

(** The factors of one account change and all its sessions are revoked. *)
Lemma inv_revoked late db db' a :
  (∀ b, b ≠ a → mfa_enabled db' b = mfa_enabled db b) →
  is_Some (db'.(accounts) !! a) →
  (∀ b, is_Some (db.(accounts) !! b) → is_Some (db'.(accounts) !! b)) →
  (∀ i x, db'.(account_sessions) !! i = Some x → x.(as_revoked_at) = None →
     x.(as_account_id) ≠ a ∧ db.(account_sessions) !! i = Some x) →
  account_inv late db → account_inv late db'.
Proof.
  intros Hm Ha Hacc Hs [I1 I2]. split.
  - intros i x Hx Hr. destruct (Hs i x Hx Hr) as [Hne Hold]. rewrite Hm by done. by eapply I1.
  - intros b Hb. destruct (decide (b = a)) as [->|Hne]; [done|]. rewrite Hm in Hb by done. by apply Hacc, I2.
Qed.

Lemma revoke_authority_sessions db a reason now i x :
  (revoke_authority db a reason now).(account_sessions) !! i = Some x → x.(as_revoked_at) = None →
  x.(as_account_id) ≠ a ∧ db.(account_sessions) !! i = Some x.
Proof.
  cbn. intros Hx Hr. rewrite lookup_fmap in Hx. apply fmap_Some in Hx as (y & Hy & ->). revert Hr.
  destruct (bool_decide_reflect (as_account_id y = a)) as [Heq|Hne]; cbn in *; [|done].
  by destruct (bool_decide_reflect (as_revoked_at y = None)).
Qed.

Lemma insert_account_inv late db a : account_inv late db → account_inv late (insert_account db a).2.
Proof.
  intros Hi. unfold insert_account. destruct (bool_decide _); [done|]. apply (inv_new_session late db); try done; cbn.
  - intros b Hb. apply lookup_insert_is_Some'. by right.
  - intros i x Hx _. by right.
Qed.

Lemma issue_inv late db s :
  op_fresh db (DoIssue s) → late = true ∨ settled db (DoIssue s) → account_inv late db →
  account_inv late (insert_account_session db s).2.
Proof.
  intros (_ & _ & Hv) Hs Hi. unfold insert_account_session. destruct (bool_decide _); [done|].
  apply (inv_new_session late db); try done; cbn. intros i x Hx _.
  apply lookup_insert_Some in Hx as [[<- <-]|[_ Hx]]; [left|by right]. rewrite Hv.
  unfold truthful. destruct Hs as [->|Hs]; [done|]. cbn in Hs. rewrite Hs. by destruct late.
Qed.

Lemma rotate_inv late db h s e now :
  account_inv late db → account_inv late (rotate_refresh_session db h s e now).2.
Proof.
  intros Hi. unfold rotate_refresh_session. case_match; [done|].
  destruct (btree_find _ _) as [[id old]|] eqn:E; [|done]. apply btree_find_some in E as [Hold Hp].
  case_match; [done|]. apply (inv_new_session late db); try done; cbn.
  intros i x Hx Hr. apply lookup_insert_Some in Hx as [[<- <-]|[_ Hx]].
  - left. unfold refreshable in Hp. split_bools. pose proof (inv_mfa _ _ Hi _ _ Hold) as Ho. subst.
    repeat match goal with
    | H : as_account_id old = _ |- _ => rewrite <-H
    | H : as_mfa_verified old = _ |- _ => rewrite <-H
    end. by apply Ho.
  - right. by apply lookup_insert_Some in Hx as [[<- <-]|[_ Hx]].
Qed.

Lemma revoke_inv late db id a now e : account_inv late db → account_inv late (revoke_account_session db id a now e).2.
Proof.
  intros Hi. unfold revoke_account_session. repeat (case_match; try done).
  apply (inv_new_session late db); try done; cbn.
  intros i x Hx Hr. right. by apply lookup_insert_Some in Hx as [[<- <-]|[_ Hx]].
Qed.

Lemma login_inv late db c : account_inv late db → account_inv late (finish_login db c).2.
Proof.
  intros Hi. destruct (decide ((finish_login db c).1 = Ok LoginCompleted)) as [Hr|Hr];
    [|by eapply inv_quiet, Hi; apply finish_login_quiet].
  destruct (finish_login db c) as [r db'] eqn:E. cbn in Hr. subst r.
  apply finish_login_completed in E as (Ha & Hm & Hn & Hs & Hacc & Hv). cbn.
  apply (inv_new_session late db); try done; [by rewrite Ha|]. rewrite Hs. intros i x Hx _.
  apply lookup_insert_Some in Hx as [[<- <-]|[_ Hx]]; [left|by right]. apply truthful_eq. by rewrite Hv, Hacc.
Qed.

(** The security epoch of an account, up to the bound at which it saturates. *)
Definition epoch (ac : Account) : Z := Z.min ac.(ac_updated_at) (u_max 64).

Definition accounts_le (m m' : gmap rstr Account) : Prop :=
  ∀ a ac, m !! a = Some ac → ∃ ac', m' !! a = Some ac' ∧ epoch ac ≤ epoch ac'.

(** The epoch of the account has moved on. *)
Definition account_touched (m m' : gmap rstr Account) (a : rstr) : Prop :=
  ∃ ac ac', m !! a = Some ac ∧ m' !! a = Some ac' ∧ Z.min (epoch ac + 1) (u_max 64) ≤ epoch ac'.

#[global] Instance accounts_le_refl : Reflexive accounts_le.
Proof. intros m a ac Ha. by exists ac. Qed.
#[global] Instance accounts_le_trans : Transitive accounts_le.
Proof.
  intros m1 m2 m3 H1 H2 a ac Ha. apply H1 in Ha as (ac2 & Ha & ?). apply H2 in Ha as (ac3 & Ha & ?).
  exists ac3. split; [done|lia].
Qed.

Lemma accounts_le_some m m' a : accounts_le m m' → is_Some (m !! a) → is_Some (m' !! a).
Proof. intros H [ac Ha]. apply H in Ha as (ac' & Ha & _). eauto. Qed.

Lemma touched_some m m' a : account_touched m m' a → is_Some (m' !! a).
Proof. intros (ac & ac' & _ & Ha & _). eauto. Qed.

Lemma touch_epoch ac h now : Z.min (epoch ac + 1) (u_max 64) ≤ epoch (touch_account ac h now).
Proof. unfold epoch, touch_account, sat_add. cbn. lia. Qed.

Lemma touch_accounts m a ac h now :
  m !! a = Some ac →
  accounts_le m (<[a := touch_account ac h now]> m) ∧ account_touched m (<[a := touch_account ac h now]> m) a.
Proof.
  intros Ha. split.
  - intros b bc Hb. destruct (decide (a = b)) as [<-|?]; simplify_map_eq; eexists; (split; [done|]); [|lia].
    pose proof (touch_epoch ac h now). unfold epoch in *. lia.
  - eexists ac, _. split_and!; [done|by rewrite lookup_insert_eq|]. apply touch_epoch.
Qed.

Lemma accounts_le_new m a ac : m !! a = None → accounts_le m (<[a := ac]> m).
Proof. intros Hn b bc Hb. exists bc. split; [|done]. rewrite lookup_insert_ne; [done|]. congruence. Qed.

Lemma mfa_enabled_other db db' a :
  (∀ id f, f.(mf_account_id) ≠ a → db'.(mfa_factors) !! id = Some f ↔ db.(mfa_factors) !! id = Some f) →
  ∀ b, b ≠ a → mfa_enabled db' b = mfa_enabled db b.
Proof.
  intros H b Hb. apply eq_true_iff_eq. rewrite !mfa_enabled_spec.
  split; intros (id & f & Hf & Ha & Hact); exists id, f; (split_and!; [|done..]); apply H; congruence.
Qed.

(** ** Operations paid for by a challenge *)

Lemma consume_ok db x u db' :
  consume_step_up_in_database db x = (Ok u, db') → ∃ m, db' = set_risk_challenges db m.
Proof. unfold consume_step_up_in_database. case_match; [done|]. case_match; [|done]. intros [= _ <-]. by eexists. Qed.

(** The database after the action, before the trail of audit entries. *)
Definition after_action (db : AccountDb) (x : StepUpExpectation) (a : StepUpAction) : AccountDb :=
  match revoked_reason a with
  | None => db
  | Some reason => revoke_authority db x.(sx_account_id) reason x.(sx_now)
  end.

Lemma step_up_ok db x a db' :
  apply_step_up_action_in_database db x a = Ok db' →
  step_up_matches db x = true
  ∧ ∃ m db1 es, action_allowed (set_risk_challenges db m) x a = true
    ∧ perform_action (set_risk_challenges db m) x a = Ok db1 ∧ db' = extend_audit (after_action db1 x a) es.
Proof.
  unfold apply_step_up_action_in_database, after_action. intros H. invert_ok.
  destruct (consume_step_up_in_database db x) as [[[]|e] db0] eqn:Ec; [|done]. split; [done|]. invert_ok.
  apply consume_ok in Ec as [m ->].
  destruct (revoked_reason a); invert_ok; eexists m, _, _; (split_and!; [done..|]); [|done].
  unfold extend_audit. cbn. by rewrite <-app_assoc.
Qed.

Lemma advance_ok db a now db' :
  advance_account_security_epoch db a now = Ok db' →
  ∃ ac, db.(accounts) !! a = Some ac
    ∧ db' = set_accounts db (<[a := touch_account ac ac.(ac_password_hash) now]> db.(accounts)).
Proof. unfold advance_account_security_epoch. intros H. invert_ok. eauto. Qed.

Lemma perform_action_keeps db x a db' :
  action_allowed db x a = true → perform_action db x a = Ok db' →
  db'.(account_sessions) = db.(account_sessions)
  ∧ accounts_le db.(accounts) db'.(accounts)
  ∧ match revoked_reason a with
    | None => factors_kept db.(mfa_factors) db'.(mfa_factors)
    | Some _ => account_touched db.(accounts) db'.(accounts) x.(sx_account_id)
        ∧ ∀ b, b ≠ x.(sx_account_id) → mfa_enabled db' b = mfa_enabled db b
    end.
Proof.
  destruct a as [records e|factor_id e|old new e|id e]; cbn; intros Hal H.
  - by invert_ok.
  - apply advance_ok in H as (ac & Hac & ->). destruct (mfa_factors db !! factor_id) as [f|] eqn:Ef;
      [|by rewrite andb_false_r in Hal]. split_bools. cbn.
    assert (Hd : ∀ b, b ≠ sx_account_id x → mfa_enabled (set_mfa_factors db (delete factor_id (mfa_factors db))) b
                                            = mfa_enabled db b).
    { apply mfa_enabled_other. intros id g Hg. cbn. destruct (decide (factor_id = id)) as [<-|?]; simplify_map_eq; [|done].
      split; [done|]. intros [= <-]. congruence. }
    assert (Hac' : db.(accounts) !! sx_account_id x = Some ac) by by destruct (btree_find _ _).
    split_and!; [by destruct (btree_find _ _)| | |].
    + destruct (btree_find _ _); by apply touch_accounts.
    + destruct (btree_find _ _); by apply touch_accounts.
    + intros b Hb. rewrite <-Hd by done. by destruct (btree_find _ _).
  - invert_ok. cbn. split_and!; [done|by apply touch_accounts..|done].
  - by invert_ok.
Qed.

Lemma step_up_inv late db x a : account_inv late db → account_inv late (apply_step_up_action db x a).2.
Proof.
  intros Hi. unfold apply_step_up_action. destruct (apply_step_up_action_in_database db x a) as [db'|] eqn:E; [|done].
  apply step_up_ok in E as (_ & m & db1 & es & Hal & Hp & ->).
  apply (perform_action_keeps _ _ _ _ Hal) in Hp as (Hs & Hacc & Hp). cbn in Hs, Hacc.
  unfold after_action. destruct (revoked_reason a) as [reason|].
  - destruct Hp as [Ha Hm].
    apply (inv_revoked late db _ (sx_account_id x)); cbn; [done|by eapply touched_some|by intros; eapply accounts_le_some| |done].
    intros i y Hy Hr. eapply revoke_authority_sessions in Hy as [? Hy]; [|done]. by rewrite Hs in Hy.
  - apply (inv_new_session late db); cbn; try done; [by intros; eapply accounts_le_some|]. rewrite Hs. by right.
Qed.

Lemma finish_totp_ok db c db' :
  finish_totp_enrollment_in db c = Ok db' →
  let f := c.(cp_factor) in
  db.(mfa_factors) !! f.(mf_factor_id) = None ∧ f.(mf_active) = true ∧ mfa_enabled db f.(mf_account_id) = false
  ∧ codes_fresh ∅ ∅ db f.(mf_account_id) c.(cp_audit).(au_created_at) c.(cp_recovery_codes) = true
  ∧ ∃ db0 es, db' = extend_audit (revoke_authority db0 f.(mf_account_id) (str "mfa_enabled")
                                   c.(cp_audit).(au_created_at)) es
    ∧ db0.(account_sessions) = db.(account_sessions)
    ∧ db0.(mfa_factors) = <[f.(mf_factor_id) := f]> db.(mfa_factors)
    ∧ db0.(recovery_codes) = foldl (λ m r, <[r.(rv_recovery_code_id) := r]> m)
        (filter (λ kv, kv.2.(rv_account_id) ≠ f.(mf_account_id) ∨ is_Some kv.2.(rv_used_at)) db.(recovery_codes))
        c.(cp_recovery_codes)
    ∧ accounts_le db.(accounts) db0.(accounts)
    ∧ account_touched db.(accounts) db0.(accounts) f.(mf_account_id).
Proof.
  unfold finish_totp_enrollment_in. intros H. invert_ok. apply advance_ok in H3 as (ac & Hac & ->). clear H4.
  cbn in *. split_and!; try done; [by apply eq_None_not_Some|by apply bool_decide_eq_false|].
  eexists _, _. split; [done|]. cbn. split_and!; try done; by apply touch_accounts.
Qed.

Lemma finish_totp_inv late db c : account_inv late db → account_inv late (finish_totp_enrollment db c).2.
Proof.
  intros Hi. unfold finish_totp_enrollment. destruct (finish_totp_enrollment_in db c) as [db'|] eqn:E; [|done].
  apply finish_totp_ok in E as (Hn & Hact & He & _ & db0 & es & -> & Hs & Hm & _ & Hacc & Ht). cbn.
  apply (inv_revoked late db _ (mf_account_id (cp_factor c))); cbn; [|by eapply touched_some|by intros; eapply accounts_le_some| |done].
  - apply mfa_enabled_other. intros id g Hg. cbn. rewrite Hm.
    destruct (decide (mf_factor_id (cp_factor c) = id)) as [<-|?]; simplify_map_eq; [|done].
    split; [intros [= <-]; congruence|]. rewrite Hn. done.
  - intros i y Hy Hr. eapply revoke_authority_sessions in Hy as [? Hy]; [|done]. by rewrite Hs in Hy.
Qed.

Lemma quiet_ops db o :
  match o with
  | DoCreateRisk _ _ | DoCancelRisk _ _ | DoConsume _ | DoCreateLogin _ _ | DoRejectLogin _ _ _ _
  | DoVerifyFactor _ _ _ _ _ | DoVerifyRisk _ | DoRegisterDevice _ | DoRotateKey _ => quiet db (perform db o).2
  | _ => True
  end.
Proof.
  destruct o; try done; cbn.
  - apply verify_factor_quiet.
  - unfold create_risk_challenge. by repeat case_match.
  - unfold cancel_risk_challenge. by repeat case_match.
  - apply verify_risk_challenge_quiet.
  - unfold consume_step_up_in_database. by repeat case_match.
  - unfold create_login_challenge. by repeat case_match.
  - unfold reject_login_challenge. by repeat case_match.
  - destruct (register_device_frame db c) as (? & ? & ? & _). by apply quiet_tables.
  - destruct (rotate_key_frame db r) as (? & ? & ? & _). by apply quiet_tables.
Qed.

Lemma manage_inv late db c : account_inv late db → account_inv late (manage_device db c).2.
Proof.
  intros Hi. destruct (manage_device_frame db c) as (Ha & Hm & _ & Hs). apply (inv_new_session late db); [by rewrite Hm|by rewrite Ha| |done].
  intros i x Hx Hr. right. destruct Hs as [Hs|Hs]; rewrite Hs in Hx; [done|].
  by apply revoke_authority_sessions in Hx as [_ Hx].
Qed.

Lemma perform_inv late db o :
  op_fresh db o → late = true ∨ settled db o → account_inv late db → account_inv late (perform db o).2.
Proof.
  intros Hf Hs Hi. pose proof (quiet_ops db o) as Hq.
  destruct o; try (by eapply inv_quiet); cbn.
  - by apply insert_account_inv.
  - by apply issue_inv.
  - by apply rotate_inv.
  - by apply revoke_inv.
  - by apply step_up_inv.
  - by apply finish_totp_inv.
  - by apply login_inv.
  - by apply manage_inv.
Qed.

Lemma moved_inv late db db' : rtc (moved late) db db' → account_inv late db → account_inv late db'.
Proof.
  induction 1 as [|db db1 db2 Hstep _ IH]; [done|]. intros Hi. apply IH. destruct late; destruct Hstep as [o Hf|c es].
  - apply perform_inv; [done|by left|done].
  - by eapply inv_quiet, Hi.
  - apply perform_inv; [done|by right|done].
  - by eapply inv_quiet, Hi.
Qed.

Lemma live_session_factor late db id account now s :
  rtc (moved late) empty_accounts db →
  account_session_active db id account now = true → db.(account_sessions) !! id = Some s →
  truthful late s.(as_mfa_verified) (mfa_enabled db account).
Proof.
  intros Hr Ha Hs. unfold account_session_active, active_account_session in Ha. rewrite Hs in Ha. split_bools. subst.
  eapply inv_mfa; [|done..]. by apply (moved_inv _ _ _ Hr), empty_inv.
Qed.

(** Whatever operations ran, a session of an account that is in use has passed the
    second factor exactly when the account has one, if no enrolment overtook the
    registration of its account: enrolling, disabling, refreshing and logging in never
    leave a weaker session behind. In any case none claims a factor that is gone. *)
Theorem sessions_carry_second_factor late db id account now s :
  rtc (moved late) empty_accounts db →
  account_session_active db id account now = true → db.(account_sessions) !! id = Some s →
  truthful late s.(as_mfa_verified) (mfa_enabled db account).
Proof. apply live_session_factor. Qed.

(** ** Revocation *)

Lemma insert_new_kept m id s : m !! id = None → sessions_kept m (<[id := s]> m).
Proof.
  intros Hn i x Hx. exists x. split; [|by left]. rewrite lookup_insert_ne; [done|]. congruence.
Qed.

Lemma insert_revoked_kept m id s now reason :
  m !! id = Some s → s.(as_revoked_at) = None → sessions_kept m (<[id := revoke_session s now reason]> m).
Proof.
  intros Hs Hr i x Hx. destruct (decide (id = i)) as [<-|?]; simplify_map_eq; eexists; (split; [done|]);
    [right; eauto|by left].
Qed.

Lemma revoke_authority_kept db a reason now :
  sessions_kept db.(account_sessions) (revoke_authority db a reason now).(account_sessions).
Proof.
  intros i x Hx. cbn. rewrite lookup_fmap, Hx. cbn. eexists. split; [done|]. case_match; [|by left].
  split_bools. right. eauto.
Qed.

Lemma perform_sessions_kept db o : sessions_kept db.(account_sessions) (perform db o).2.(account_sessions).
Proof.
  pose proof (quiet_ops db o) as Hq. destruct o; try (by destruct Hq as (_ & -> & _)); clear Hq; cbn.
  - unfold insert_account. by case_match.
  - unfold insert_account_session. case_bool_decide; [done|]. by apply insert_new_kept, eq_None_not_Some.
  - unfold rotate_refresh_session. case_match; [done|]. destruct (btree_find _ _) as [[id old]|] eqn:E; [|done].
    apply btree_find_some in E as [Hold Hp]. unfold refreshable in Hp. split_bools. case_match; [done|]. cbn.
    etrans; [by eapply insert_revoked_kept|]. apply insert_new_kept.
    apply lookup_insert_None. split; [by apply eq_None_not_Some|]. intros ->. rewrite Hold in *. eauto.
  - unfold revoke_account_session. repeat (case_match; try done). split_bools. cbn.
    apply insert_revoked_kept; [done|]. by apply eq_None_not_Some.
  - unfold apply_step_up_action. destruct (apply_step_up_action_in_database db x a) as [db'|] eqn:E; [|done].
    apply step_up_ok in E as (_ & m & db1 & es & Hal & Hp & ->).
    apply (perform_action_keeps _ _ _ _ Hal) in Hp as (Hs & _ & _). cbn in *. unfold after_action. rewrite <-Hs.
    destruct (revoked_reason a); [apply revoke_authority_kept|done].
  - unfold finish_totp_enrollment. destruct (finish_totp_enrollment_in db c) as [db'|] eqn:E; [|done].
    apply finish_totp_ok in E as (_ & _ & _ & _ & db0 & es & -> & Hs & _). rewrite <-Hs. apply revoke_authority_kept.
  - destruct (decide ((finish_login db c).1 = Ok LoginCompleted)) as [Hr|Hr];
      [|by destruct (finish_login_quiet _ _ Hr) as (_ & -> & _)].
    destruct (finish_login db c) as [r db'] eqn:E. cbn in Hr |- *. subst r.
    apply finish_login_completed in E as (_ & _ & Hn & -> & _). by apply insert_new_kept.
  - destruct (manage_device_frame db c) as (_ & _ & _ & [-> | ->]); [done|apply revoke_authority_kept].
Qed.

Lemma steps_sessions_kept db db' :
  rtc account_step db db' → sessions_kept db.(account_sessions) db'.(account_sessions).
Proof.
  induction 1 as [|db db1 db2 Hstep _ IH]; [done|]. etrans; [|done]. destruct Hstep as [o _|c es]; [|done].
  apply perform_sessions_kept.
Qed.

Lemma perform_accounts_le db o : op_fresh db o → accounts_le db.(accounts) (perform db o).2.(accounts).
Proof.
  intros Hf. pose proof (quiet_ops db o) as Hq. destruct o; try (by destruct Hq as (-> & _ & _)); clear Hq; cbn.
  - unfold insert_account. destruct Hf as (_ & Hf). case_match; [done|]. by apply accounts_le_new.
  - unfold insert_account_session. by case_match.
  - unfold rotate_refresh_session. by repeat (case_match; try done).
  - unfold revoke_account_session. by repeat (case_match; try done).
  - unfold apply_step_up_action. destruct (apply_step_up_action_in_database db x a) as [db'|] eqn:E; [|done].
    apply step_up_ok in E as (_ & m & db1 & es & Hal & Hp & ->).
    apply (perform_action_keeps _ _ _ _ Hal) in Hp as (_ & Ha & _). unfold after_action. by case_match.
  - unfold finish_totp_enrollment. destruct (finish_totp_enrollment_in db c) as [db'|] eqn:E; [|done].
    by apply finish_totp_ok in E as (_ & _ & _ & _ & db0 & es & -> & _ & _ & _ & Ha & _).
  - destruct (decide ((finish_login db c).1 = Ok LoginCompleted)) as [Hr|Hr];
      [|by destruct (finish_login_quiet _ _ Hr) as (-> & _ & _)].
    destruct (finish_login db c) as [r db'] eqn:E. cbn in Hr |- *. subst r.
    by apply finish_login_completed in E as (-> & _).
  - by destruct (manage_device_frame db c) as (-> & _).
Qed.

Lemma steps_accounts_le db db' : rtc account_step db db' → accounts_le db.(accounts) db'.(accounts).
Proof.
  induction 1 as [|db db1 db2 Hstep _ IH]; [done|]. etrans; [|done]. destruct Hstep as [o Hf|c es]; [|done].
  by apply perform_accounts_le.
Qed.

(** The operations that change how an account is protected. *)
Definition secures (o : AccountOp) : option rstr :=
  match o with
  | DoStepUp x a => match revoked_reason a with Some _ => Some x.(sx_account_id) | None => None end
  | DoFinishTotp c => Some c.(cp_factor).(mf_account_id)
  | _ => None
  end.

Lemma revoke_authority_trust db a reason now i t :
  (revoke_authority db a reason now).(trusted_controller_devices) !! i = Some t → t.(tr_account_id) = a →
  t.(tr_status) ≠ TrustActive.
Proof.
  cbn. rewrite lookup_fmap. intros Hx. apply fmap_Some in Hx as (y & Hy & ->).
  destruct (bool_decide_reflect (tr_account_id y = a)) as [Heq|Hne]; cbn; [|done].
  by destruct (bool_decide_reflect (tr_status y = TrustActive)).
Qed.

Lemma secures_ok db o db' a :
  perform db o = (AnsUnit (Ok tt), db') → secures o = Some a →
  ∃ db1 reason now es, db' = extend_audit (revoke_authority db1 a reason now) es
    ∧ db1.(account_sessions) = db.(account_sessions) ∧ account_touched db.(accounts) db1.(accounts) a.
Proof.
  destruct o as [| | | | | | | | |x act|c| | | | | |]; try done; cbn; intros H Hs.
  - destruct (revoked_reason act) as [reason|] eqn:Er; [|done]. injection Hs as <-.
    unfold apply_step_up_action in H. destruct (apply_step_up_action_in_database db x act) as [db0|] eqn:E; [|done].
    injection H as <-. apply step_up_ok in E as (_ & m & db1 & es & Hal & Hp & ->).
    apply (perform_action_keeps _ _ _ _ Hal) in Hp as (Hses & _ & Ht). unfold after_action. rewrite Er in *.
    destruct Ht as [Ht _]. by exists db1, reason, (sx_now x), es.
  - injection Hs as <-. unfold finish_totp_enrollment in H.
    destruct (finish_totp_enrollment_in db c) as [db0|] eqn:E; [|done]. injection H as <-.
    apply finish_totp_ok in E as (_ & _ & _ & _ & db1 & es & -> & Hses & _ & _ & _ & Ht). by eexists db1, _, _, es.
Qed.

(** A session the account had is never in use again. *)
Lemma dead_session db o db1 db2 a id s account now :
  perform db o = (AnsUnit (Ok tt), db1) → secures o = Some a → rtc account_step db1 db2 →
  db.(account_sessions) !! id = Some s → s.(as_account_id) = a →
  account_session_active db2 id account now = false.
Proof.
  intros H Hs Hrun Hid Hacc. apply (secures_ok _ _ _ _ H) in Hs as (db0 & reason & t0 & es & -> & Hses & _).
  pose proof (steps_sessions_kept _ _ Hrun id) as Hk. cbn in Hk.
  rewrite lookup_fmap, Hses, Hid in Hk. cbn in Hk. rewrite bool_decide_eq_true_2 in Hk by done. cbn in Hk.
  unfold account_session_active, active_account_session.
  destruct (bool_decide_reflect (as_revoked_at s = None)) as [Hn|Hn]; cbn in Hk;
    destruct (Hk _ eq_refl) as (s' & -> & [->|[Hr _]]); cbn; try done; try (by rewrite andb_false_r).
  by rewrite (bool_decide_eq_false_2 (as_revoked_at s = None)), andb_false_r by done.
Qed.

(** C5: After a password change, the enrolment or the removal of a second
    factor, no session the account had is ever in use again, whatever operations
    follow; no device is trusted any more; and a login begun before cannot be
    completed. (The account was last changed before the end of the 64-bit
    clock.) *)
Theorem security_change_ends_authority db o db1 db2 a ac :
  perform db o = (AnsUnit (Ok tt), db1) → secures o = Some a → rtc account_step db1 db2 →
  db.(accounts) !! a = Some ac → ac.(ac_updated_at) < u_max 64 →
  (∀ id s account now, db.(account_sessions) !! id = Some s → s.(as_account_id) = a →
     account_session_active db2 id account now = false)
  ∧ (∀ id t, db1.(trusted_controller_devices) !! id = Some t → t.(tr_account_id) = a → t.(tr_status) ≠ TrustActive)
  ∧ (∀ c, c.(fc_account_id) = a → c.(fc_account_updated_at) ≤ ac.(ac_updated_at) →
     (finish_login db2 c).1 ≠ Ok LoginCompleted).
Proof.
  intros H Hs Hrun Hac Hmax. split; [by intros; eapply (dead_session db o db1 db2 a)|].
  apply (secures_ok _ _ _ _ H) in Hs as (db0 & reason & t0 & es & -> & Hses & Ht). split.
  - intros id t. apply revoke_authority_trust.
  - intros c <- Hc Hr. destruct (finish_login db2 c) as [r db3] eqn:E. cbn in Hr. subst r.
    apply finish_login_ok in E as (_ & _ & Hu & _). unfold account_unchanged in Hu.
    destruct Ht as (ac0 & ac1 & Hac0 & Hac1 & Hle). rewrite Hac in Hac0. injection Hac0 as <-.
    destruct (steps_accounts_le _ _ Hrun _ _ Hac1) as (ac2 & Hac2 & Hle2). rewrite Hac2 in Hu. split_bools.
    unfold epoch in *. lia.
Qed.

(** ** Tokens and codes that work once *)

(** The entries of a table that [p] selects. *)
Definition live {V} (p : V → Prop) `{∀ v, Decision (p v)} (m : gmap rstr V) : nat := size (filter (λ kv, p kv.2) m).

Section live.
Context {V : Type} (p : V → Prop) `{∀ v, Decision (p v)}.

Lemma live_le m m' : (∀ i v, m' !! i = Some v → p v → m !! i = Some v) → (live p m' ≤ live p m)%nat.
Proof.
  intros Hm. apply map_subseteq_size. apply map_subseteq_spec. intros i v Hv.
  apply map_lookup_filter_Some in Hv as [Hv Hp]. apply map_lookup_filter_Some. split; [by apply Hm|done].
Qed.

Lemma live_lt m m' j w :
  (∀ i v, m' !! i = Some v → p v → m !! i = Some v) →
  m !! j = Some w → p w → (∀ v, m' !! j = Some v → ¬ p v) → (live p m' < live p m)%nat.
Proof.
  intros Hm Hj Hw Hn. apply map_subset_size. split.
  - apply map_subseteq_spec. intros i v Hv.
    apply map_lookup_filter_Some in Hv as [Hv Hp]. apply map_lookup_filter_Some. split; [by apply Hm|done].
  - intros Hsub. eapply map_subseteq_spec in Hsub; [|by apply map_lookup_filter_Some; split; [apply Hj|]].
    apply map_lookup_filter_Some in Hsub as [Hv Hp]. by eapply Hn.
Qed.
End live.

(** Sessions that the refresh token with hash [h] stands for. *)
Definition token_live (h : bytes) (s : AccountSession) : Prop :=
  s.(as_refresh_token_hash) = h ∧ s.(as_revoked_at) = None.
#[global] Instance token_live_dec h s : Decision (token_live h s).
Proof. unfold token_live. apply _. Defined.

(** The session that an operation asks to insert. *)
Definition issued (o : AccountOp) : option AccountSession :=
  match o with
  | DoIssue s | DoRotate _ s _ _ => Some s
  | DoFinishLogin c => Some c.(fc_account_session)
  | _ => None
  end.

(** The token was accepted. *)
Definition token_used (h : bytes) (o : AccountOp) (r : AccountAnswer) : nat :=
  match o, r with
  | DoRotate h' _ _ _, AnsBool (Ok true) => if decide (h' = h) then 1 else 0
  | _, _ => 0
  end.

Lemma sessions_issued db o i s :
  (perform db o).2.(account_sessions) !! i = Some s → s.(as_revoked_at) = None →
  db.(account_sessions) !! i = Some s ∨ issued o = Some s.
Proof.
  pose proof (quiet_ops db o) as Hq.
  destruct o; try (destruct Hq as (_ & -> & _); by left); clear Hq; cbn; intros Hs Hr.
  - left. unfold insert_account in Hs. by case_match.
  - unfold insert_account_session in Hs. case_match; [by left|]. cbn in Hs.
    apply lookup_insert_Some in Hs as [[_ <-]|[_ ?]]; [by right|by left].
  - unfold rotate_refresh_session in Hs. do 3 (case_match; try (by left)). case_match; [by left|]. cbn in Hs.
    apply lookup_insert_Some in Hs as [[_ <-]|[_ Hs]]; [by right|].
    apply lookup_insert_Some in Hs as [[_ <-]|[_ ?]]; [done|by left].
  - unfold revoke_account_session in Hs. repeat (case_match; try (by left)). cbn in Hs.
    apply lookup_insert_Some in Hs as [[_ <-]|[_ ?]]; [done|by left].
  - unfold apply_step_up_action in Hs. destruct (apply_step_up_action_in_database db x a) as [db'|] eqn:E; [|by left].
    apply step_up_ok in E as (_ & m & db1 & es & Hal & Hp & ->). left.
    apply (perform_action_keeps _ _ _ _ Hal) in Hp as (Hses & _ & _). cbn in Hses. unfold after_action in Hs.
    destruct (revoked_reason a); [|by rewrite <-Hses].
    apply revoke_authority_sessions in Hs as [_ Hs]; [|done]. by rewrite <-Hses.
  - unfold finish_totp_enrollment in Hs. destruct (finish_totp_enrollment_in db c) as [db'|] eqn:E; [|by left].
    apply finish_totp_ok in E as (_ & _ & _ & _ & db1 & es & -> & Hses & _). left.
    apply revoke_authority_sessions in Hs as [_ Hs]; [|done]. by rewrite <-Hses.
  - destruct (decide ((finish_login db c).1 = Ok LoginCompleted)) as [Hd|Hd];
      [|left; by destruct (finish_login_quiet _ _ Hd) as (_ & <- & _)].
    destruct (finish_login db c) as [r db'] eqn:E. cbn in Hd, Hs. subst r.
    apply finish_login_completed in E as (_ & _ & _ & E & _). rewrite E in Hs.
    apply lookup_insert_Some in Hs as [[_ <-]|[_ ?]]; [by right|by left].
  - left. destruct (manage_device_frame db c) as (_ & _ & _ & [E|E]); rewrite E in Hs; [done|].
    by apply revoke_authority_sessions in Hs as [_ Hs].
Qed.

Lemma rotate_ok db h s e now db' :
  rotate_refresh_session db h s e now = (Ok true, db') →
  ∃ id old, db.(account_sessions) !! id = Some old ∧ token_live h old
    ∧ ∀ v, db'.(account_sessions) !! id = Some v → ¬ token_live h v.
Proof.
  unfold rotate_refresh_session. case_match; [done|]. destruct (btree_find _ _) as [[id old]|] eqn:E; [|done].
  apply btree_find_some in E as [Hold Hp]. unfold refreshable in Hp. split_bools. case_match; [done|].
  intros [= <-]. exists id, old. split_and!; [done|by split|]. cbn. intros v Hv [_ Hr].
  rewrite lookup_insert_ne in Hv; [|intros Heq; rewrite Heq in *; by eauto].
  by simplify_map_eq.
Qed.

(** A refresh token is accepted at most as often as there are sessions it
    stands for, that is once, along every run in which no operation draws the
    same token again; a token that nobody was given is never accepted. *)
Theorem refresh_token_single_use db l h :
  (∀ o s, o ∈ l → issued o = Some s → s.(as_refresh_token_hash) ≠ h) →
  (sum_list (zip_with (token_used h) l (runs perform db l).1)
   + live (token_live h) (runs perform db l).2.(account_sessions) ≤ live (token_live h) db.(account_sessions))%nat.
Proof.
  intros Hl. apply (runs_cost _ (λ _, True) (token_used h) (λ db, live (token_live h) db.(account_sessions))); [done|].
  intros db' o Ho _. split; [done|].
  assert (Hkeep : ∀ i s, (perform db' o).2.(account_sessions) !! i = Some s → token_live h s →
            db'.(account_sessions) !! i = Some s).
  { intros i s Hs [Hh Hr]. destruct (sessions_issued db' o i s Hs Hr) as [|Hi]; [done|]. by apply Hl in Hi. }
  assert (Hle := live_le (token_live h) _ _ Hkeep).
  destruct o as [| |h' s e now| | | | | | | | | | | | | |]; try (cbn in *; lia).
  destruct (perform db' (DoRotate h' s e now)) as [r db2] eqn:E. cbn in Hkeep, Hle |- *.
  destruct r as [| [[]|]| | | | | |]; cbn; try lia. destruct (decide (h' = h)) as [->|]; [|lia].
  cbn in E. unfold answer in E. injection E as Er <-.
  destruct (rotate_refresh_session db' h s e now) as [r db2] eqn:E. cbn in Er. subst r.
  apply rotate_ok in E as (id & old & Hold & Hlive & Hdead).
  apply (live_lt (token_live h) _ _ id old Hkeep Hold Hlive Hdead).
Qed.

(** Recovery codes of the account [a] with hash [h] that are left. *)
Definition code_live (a : rstr) (h : bytes) (r : RecoveryCode) : Prop :=
  r.(rv_account_id) = a ∧ r.(rv_code_hash) = h ∧ r.(rv_used_at) = None.
#[global] Instance code_live_dec a h r : Decision (code_live a h r).
Proof. unfold code_live. apply _. Defined.

Definition codes_issued (o : AccountOp) : list RecoveryCode :=
  match o with
  | DoStepUp _ (RotateRecoveryCodes records _) => records
  | DoFinishTotp c => c.(cp_recovery_codes)
  | _ => []
  end.

(** Every code that is left was left before. *)
Definition codes_shrink (db db' : AccountDb) : Prop :=
  ∀ i r, db'.(recovery_codes) !! i = Some r → r.(rv_used_at) = None → db.(recovery_codes) !! i = Some r.

(** A code of the account with hash [h] is spent. *)
Definition code_spent (db db' : AccountDb) (a : rstr) (h : bytes) : Prop :=
  ∃ j r, db.(recovery_codes) !! j = Some r ∧ code_live a h r
    ∧ ∀ v, db'.(recovery_codes) !! j = Some v → v.(rv_used_at) ≠ None.

Lemma codes_shrink_eq db db' : db'.(recovery_codes) = db.(recovery_codes) → codes_shrink db db'.
Proof. by intros H i r; rewrite H. Qed.

Lemma try_factor_codes db a kind code now b db' :
  try_factor db a kind code now = (b, db') →
  codes_shrink db db' ∧ (b = true → kind = str "recovery_code" → code_spent db db' a (sha256 code)).
Proof.
  intros H. split.
  - unfold try_factor in H. destruct (kind =! str "totp"); [by apply codes_shrink_eq; repeat case_match; simplify_eq|].
    destruct (kind =! str "recovery_code"); [|by apply codes_shrink_eq; simplify_eq].
    destruct (btree_find _ _) as [[id r]|]; simplify_eq; [|by apply codes_shrink_eq].
    intros i v Hv Hu. cbn in Hv. by apply lookup_insert_Some in Hv as [[_ <-]|[_ ?]].
  - intros -> ->. apply try_factor_true in H as [[H _]|(_ & id & r & Hr & Ha & Hu & _ & Hh & Hr')]; [discriminate H|].
    exists id, r. split_and!; [done..|]. rewrite Hr'. by intros v [= <-].
Qed.

Lemma verify_factor_codes db id a kind code now :
  codes_shrink db (verify_factor_in_database db id a kind code now).2
  ∧ ((verify_factor_in_database db id a kind code now).1 = Ok true → kind = str "recovery_code" →
     code_spent db (verify_factor_in_database db id a kind code now).2 a (sha256 code)).
Proof.
  unfold verify_factor_in_database. case_match; [by split; [apply codes_shrink_eq|]|].
  destruct (try_factor db a kind code now) as [b db'] eqn:E. apply try_factor_codes in E as [Hs Hp].
  destruct id as [id|]; [case_match|]; (split; [exact Hs|]); cbn; [|done|]; intros [= ->]; by apply Hp.
Qed.

Lemma judge_challenge_codes db v c h :
  codes_shrink db (judge_challenge db v c h).2
  ∧ ((judge_challenge db v c h).1 = Ok true → v.(vf_factor_kind) = str "recovery_code" →
     code_spent db (judge_challenge db v c h).2 v.(vf_account_id) (sha256 v.(vf_factor_code))).
Proof.
  unfold judge_challenge. case_match eqn:E; [|apply verify_factor_codes]. split; [by apply codes_shrink_eq|].
  cbn. intros [= Ha] Hk. rewrite Hk in *.
  destruct (bool_decide (str "recovery_code" ∈ _)); [discriminate E|discriminate Ha].
Qed.

Lemma verify_risk_codes db v :
  codes_shrink db (verify_risk_challenge db v).2
  ∧ ∀ c, (verify_risk_challenge db v).1 = Ok (VerifiedOutcome c) → v.(vf_factor_kind) = str "recovery_code" →
     code_spent db (verify_risk_challenge db v).2 v.(vf_account_id) (sha256 v.(vf_factor_code)).
Proof.
  unfold verify_risk_challenge. destruct (accounts db !! _) as [a|]; [|by split; [apply codes_shrink_eq|]].
  destruct (risk_challenges db !! _) as [c|]; [|by split; [apply codes_shrink_eq|]].
  pose proof (judge_challenge_codes db v c (ac_password_hash a)) as [Hs Hp].
  destruct (judge_challenge _ _ _ _) as [res candidate]. cbn in Hs, Hp.
  repeat case_match; try (by split; [apply codes_shrink_eq|]); (split; [exact Hs|]); intros c0 Hc Hk; by apply Hp.
Qed.

Lemma login_factor_codes db c :
  codes_shrink db (stage_db (login_factor db c))
  ∧ ∀ db', login_factor db c = Go db' → c.(fc_factor_kind) = Some (str "recovery_code") →
    ∃ code, c.(fc_factor_code) = Some code ∧ code_spent db db' c.(fc_account_id) (sha256 code).
Proof.
  unfold login_factor. destruct (fc_required_factors c =! []).
  - case_match eqn:Ek; [by split; [apply codes_shrink_eq|]|].
    assert (Hn : c.(fc_factor_kind) = None) by by destruct (fc_factor_kind c). rewrite Hn. split; [|done].
    apply codes_shrink_eq. unfold login_trust. by repeat case_match; simplify_eq.
  - case_match; [by split; [apply codes_shrink_eq|]|].
    destruct (fc_factor_kind c) as [kind|], (fc_factor_code c) as [code|]; try (by split; [apply codes_shrink_eq|]).
    case_match; [by split; [apply codes_shrink_eq|]|].
    pose proof (verify_factor_codes db (Some (fc_challenge_id c)) (fc_account_id c) kind code (fc_now c)) as [Hs Hp].
    destruct (verify_factor_in_database _ _ _ _ _ _) as [[[] |] db0]; cbn in Hs, Hp;
      [|by split; [exact Hs|]|by split; [apply codes_shrink_eq|]].
    split; [exact Hs|]. intros db' [= <-] [= ->]. exists code. split; [done|]. by apply Hp.
Qed.

Lemma finish_login_codes db c :
  codes_shrink db (finish_login db c).2
  ∧ ((finish_login db c).1 = Ok LoginCompleted → c.(fc_factor_kind) = Some (str "recovery_code") →
     ∃ code, c.(fc_factor_code) = Some code ∧ code_spent db (finish_login db c).2 c.(fc_account_id) (sha256 code)).
Proof.
  pose proof (login_factor_codes db c) as [Hs Hp].
  destruct (decide ((finish_login db c).1 = Ok LoginCompleted)) as [Hr|Hr].
  - destruct (finish_login db c) as [r db'] eqn:E. cbn in Hr |- *. subst r.
    apply finish_login_ok in E as (_ & _ & _ & _ & db1 & Hf & Hc). rewrite Hf in Hs. cbn in Hs.
    apply complete_login_ok in Hc as (_ & ch & _ & Ht). unfold factor_tables in Ht. injection Ht as _ _ _ Hcodes _.
    unfold codes_shrink, code_spent in *. rewrite Hcodes. split; [done|]. intros _ Hk. by apply Hp.
  - split; [|done]. revert Hr. unfold finish_login, lose_login.
    repeat case_match; try (by intros; apply codes_shrink_eq); [done|].
    intros Hr. rewrite (complete_login_fails _ _ _ Hr). by apply codes_shrink_eq.
Qed.

Lemma insert_codes_spec (l : list RecoveryCode) (m : gmap rstr RecoveryCode) i r :
  foldl (λ m r, <[r.(rv_recovery_code_id) := r]> m) m l !! i = Some r → m !! i = Some r ∨ r ∈ l.
Proof.
  revert m. induction l as [|x l IH]; intros m H; [by left|]. apply IH in H as [H|H]; [|by right; right].
  apply lookup_insert_Some in H as [[_ <-]|[_ H]]; [right; left|by left].
Qed.

Lemma codes_left db o i r :
  (perform db o).2.(recovery_codes) !! i = Some r → r.(rv_used_at) = None →
  db.(recovery_codes) !! i = Some r ∨ r ∈ codes_issued o.
Proof.
  destruct o as [a|s| | |id a kind code now| | |v| |x a|c| | |c|c|r'|c]; cbn; intros Hr Hu.
  - left. unfold insert_account in Hr. by case_match.
  - left. unfold insert_account_session in Hr. by case_match.
  - left. unfold rotate_refresh_session in Hr. by repeat (case_match; try done).
  - left. unfold revoke_account_session in Hr. by repeat (case_match; try done).
  - left. by eapply verify_factor_codes.
  - left. unfold create_risk_challenge in Hr. by repeat (case_match; try done).
  - left. unfold cancel_risk_challenge in Hr. by repeat (case_match; try done).
  - left. by eapply verify_risk_codes.
  - left. unfold consume_step_up_in_database in Hr. by repeat (case_match; try done).
  - unfold apply_step_up_action in Hr. destruct (apply_step_up_action_in_database db x a) as [db'|] eqn:E; [|by left].
    apply step_up_ok in E as (_ & m & db1 & es & _ & Hp & ->). cbn in Hr.
    assert (Hc : db1.(recovery_codes) !! i = Some r) by by unfold after_action in Hr; destruct (revoked_reason a).
    clear Hr. destruct a as [records e|factor_id e|old new e|id e]; cbn in *.
    + injection Hp as <-. cbn in Hc. apply insert_codes_spec in Hc as [Hc|Hc]; [left|by right].
      by apply map_lookup_filter_Some in Hc as [Hc _].
    + left. apply advance_ok in Hp as (ac & _ & ->). destruct (btree_find _ _); cbn in Hc; [done|].
      by apply map_lookup_filter_Some in Hc as [Hc _].
    + left. by invert_ok.
    + left. by invert_ok.
  - unfold finish_totp_enrollment in Hr. destruct (finish_totp_enrollment_in db c) as [db'|] eqn:E; [|by left].
    apply finish_totp_ok in E as (_ & _ & _ & _ & db1 & es & -> & _ & _ & Hc & _). cbn in Hr. rewrite Hc in Hr.
    apply insert_codes_spec in Hr as [Hr|Hr]; [left|by right]. by apply map_lookup_filter_Some in Hr as [Hr _].
  - left. unfold create_login_challenge in Hr. by repeat (case_match; try done).
  - left. unfold reject_login_challenge in Hr. by repeat (case_match; try done).
  - left. by eapply finish_login_codes.
  - left. destruct (register_device_frame db c) as (_ & _ & _ & E). by rewrite <-E.
  - left. destruct (rotate_key_frame db r') as (_ & _ & _ & E). by rewrite <-E.
  - left. destruct (manage_device_frame db c) as (_ & _ & E & _). by rewrite <-E.
Qed.

(** A recovery code of the account was accepted. *)
Definition code_used (a : rstr) (h : bytes) (o : AccountOp) (r : AccountAnswer) : nat :=
  match o, r with
  | DoVerifyFactor _ account kind code _, AnsBool (Ok true) =>
      if decide (kind = str "recovery_code" ∧ account = a ∧ sha256 code = h) then 1 else 0
  | DoVerifyRisk v, AnsVerified (Ok (VerifiedOutcome _)) =>
      if decide (v.(vf_factor_kind) = str "recovery_code" ∧ v.(vf_account_id) = a ∧ sha256 v.(vf_factor_code) = h)
      then 1 else 0
  | DoFinishLogin c, AnsLogin (Ok LoginCompleted) =>
      if decide (c.(fc_factor_kind) = Some (str "recovery_code") ∧ c.(fc_account_id) = a
                 ∧ sha256 <$> c.(fc_factor_code) = Some h) then 1 else 0
  | _, _ => 0
  end.

Lemma code_used_spends a h db o :
  code_used a h o (perform db o).1 = 0%nat
  ∨ code_used a h o (perform db o).1 = 1%nat ∧ code_spent db (perform db o).2 a h.
Proof.
  destruct o as [| | | |id account kind code now| | |v| | | | | |c| | |]; try (by left); cbn.
  - pose proof (verify_factor_codes db id account kind code now) as [_ Hp].
    destruct (verify_factor_in_database _ _ _ _ _ _) as [[[]|] db']; cbn in *; try (by left).
    destruct (decide _) as [(-> & -> & <-)|]; [right|by left]. split; [done|]. by apply Hp.
  - pose proof (verify_risk_codes db v) as [_ Hp].
    destruct (verify_risk_challenge _ _) as [[[]|] db']; cbn in *; try (by left).
    destruct (decide _) as [(Hk & <- & <-)|]; [right|by left]. split; [done|]. by eapply Hp.
  - pose proof (finish_login_codes db c) as [_ Hp].
    destruct (finish_login _ _) as [[[]|] db']; cbn in *; try (by left).
    destruct (decide _) as [(Hk & <- & Hh)|]; [right|by left]. split; [done|].
    destruct (Hp eq_refl Hk) as (code & Hcode & Hsp). rewrite Hcode in Hh. by injection Hh as <-.
Qed.

(** C20: A recovery code is accepted at most as often as it was issued to the
    account, that is once, whether for a login or for a step-up, along every run
    in which no operation issues it again. *)
Theorem recovery_code_single_use db l a h :
  (∀ o r, o ∈ l → r ∈ codes_issued o → r.(rv_code_hash) ≠ h) →
  (sum_list (zip_with (code_used a h) l (runs perform db l).1)
   + live (code_live a h) (runs perform db l).2.(recovery_codes) ≤ live (code_live a h) db.(recovery_codes))%nat.
Proof.
  intros Hl. apply (runs_cost _ (λ _, True) (code_used a h) (λ db, live (code_live a h) db.(recovery_codes))); [done|].
  intros db' o Ho _. split; [done|].
  assert (Hkeep : ∀ i r, (perform db' o).2.(recovery_codes) !! i = Some r → code_live a h r →
            db'.(recovery_codes) !! i = Some r).
  { intros i r Hr (_ & Hh & Hu). destruct (codes_left db' o i r Hr Hu) as [|Hi]; [done|]. by apply Hl in Hi. }
  destruct (code_used_spends a h db' o) as [->|[-> (j & r & Hj & Hlive & Hdead)]].
  - by apply (live_le (code_live a h)).
  - apply (live_lt (code_live a h) _ _ j r Hkeep Hj Hlive). intros v Hv (_ & _ & Hu). by eapply Hdead.
Qed.

Lemma ops_moved late db l :
  (∀ i o, l !! i = Some o →
     op_fresh (runs perform db (take i l)).2 o ∧ (late = true ∨ settled (runs perform db (take i l)).2 o)) →
  rtc (moved late) db (runs perform db l).2.
Proof.
  revert db. induction l as [|o l IH]; intros db H; [done|]. rewrite runs_cons. cbn [snd].
  destruct (H 0%nat o eq_refl) as [Hf Hs].
  eapply rtc_l; [apply (moved_op late db o Hf Hs)|]. apply IH. intros i o' Ho'.
  specialize (H (S i) o' Ho'). cbn [take firstn] in H. by rewrite runs_cons in H.
Qed.

Lemma ops_steps db l :
  (∀ i o, l !! i = Some o → op_fresh (runs perform db (take i l)).2 o) → rtc account_step db (runs perform db l).2.
Proof. intros H. apply (ops_moved true). intros i o Ho. split; [by apply H|by left]. Qed.

End runs.

(** ** Examples *)

Section examples.
#[local] Existing Instance toy.
#[local] Existing Instance toy_factors.
#[local] Existing Instance toy_text.

(** Register, then log in again from a new device. *)
Definition ex_run : list AccountOp :=
  [DoRegister ex_account; DoIssue (ex_session "session-1" "token-1" false);
   DoCreateLogin (ex_authority []) (ex_audit "audit-1" "mfa_challenge_issued" "success" 100);
   DoFinishLogin (ex_finish false)].

Lemma ex_run_moved : rtc (moved false) empty_accounts (runs perform empty_accounts ex_run).2.
Proof.
  apply (ops_moved false). intros [|[|[|[|i]]]] o [= <-]; (split; [split; [vm_compute; repeat constructor|]|right]).
  all: try exact I; try (vm_compute; reflexivity).
  split; [by eexists|vm_compute; reflexivity].
Qed.

Lemma sessions_carry_second_factor_witness :
  account_session_active (runs perform empty_accounts ex_run).2 (str "session-2") (str "account-1") 500 = true
  ∧ false = mfa_enabled (runs perform empty_accounts ex_run).2 (str "account-1").
Proof.
  assert (H : account_session_active (runs perform empty_accounts ex_run).2 (str "session-2") (str "account-1") 500
              = true) by (vm_compute; reflexivity).
  split; [exact H|].
  apply (sessions_carry_second_factor false (runs perform empty_accounts ex_run).2 (str "session-2") (str "account-1") 500
           (ex_session "session-2" "token-2" false)); [exact ex_run_moved|exact H|vm_compute; reflexivity].
Defined.

(** The device from which the password is changed. *)
Definition ex_device : Device := {|
  dv_device_id := str "device-2"; dv_account_id := str "account-1"; dv_display_name := str "D"; dv_platform := PUbuntu;
  dv_os_version := str "26.04"; dv_arch := X86_64;
  dv_capabilities := {| cap_controller := true; cap_controlled := false; cap_file_transfer := true;
                        cap_unattended := false |};
  dv_public_key_id := str "key-2"; dv_public_key := ex_key; dv_public_key_version := 1;
  dv_public_key_revoked_at := None; dv_status := LOnline; dv_last_seen := None;
  dv_created_at := 1; dv_updated_at := 1 |}.

(** Its challenge, verified with a code. *)
Definition ex_step_up : RiskChallenge := {|
  rk_risk_challenge_id := str "challenge-2"; rk_account_id := str "account-1"; rk_device_id := Some (str "device-2");
  rk_purpose := str "password_change"; rk_operation_binding_hash := str "operation"; rk_risk_level := str "high";
  rk_required_methods := ex_factors; rk_status := RVerified; rk_attempts_remaining := 5; rk_ip_address := None;
  rk_user_agent := None; rk_expires_at := 300100; rk_created_at := 100; rk_verified_at := Some 150;
  rk_consumed_at := None |}.

Definition ex_change : AccountOp :=
  DoStepUp {| sx_challenge_id := str "challenge-2"; sx_account_id := str "account-1"; sx_device_id := str "device-2";
              sx_purpose := str "password_change"; sx_operation_binding_hash := str "operation"; sx_now := 200 |}
    (ChangePassword (str "password-hash") (str "new-hash") (ex_audit "audit-9" "password_changed" "success" 200)).

(** [ex_db] with the device, its challenge and a session. *)
Definition ex_signed_in : AccountDb :=
  let core := {| db_devices := {[str "device-2" := ex_device]}; db_sessions := ∅; db_session_events := [];
                 db_session_idempotency := ∅; db_policy_evaluations := ∅; db_audit_logs := [] |} in
  let db := set_core ex_db core in
  let db := set_risk_challenges db (<[str "challenge-2" := ex_step_up]> db.(risk_challenges)) in
  set_account_sessions db {[str "session-1" := ex_session "session-1" "token-1" true]}.

Definition ex_rotate (id token : string) : AccountOp :=
  DoRotate (str "token-1") (ex_session id token true) (ex_audit id "token_refreshed" "success" 300) 300.

(** The password is changed; the old refresh token and the login begun before are
    tried afterwards. *)
Definition ex_changed : AccountDb := (perform ex_signed_in ex_change).2.
Definition ex_after : AccountDb := (runs perform ex_changed [ex_rotate "session-3" "token-3"]).2.

Lemma security_change_ends_authority_witness :
  account_session_active ex_signed_in (str "session-1") (str "account-1") 100 = true
  ∧ account_session_active ex_after (str "session-1") (str "account-1") 400 = false
  ∧ (finish_login ex_after (ex_finish true)).1 ≠ Ok LoginCompleted.
Proof.
  split; [vm_compute; reflexivity|].
  assert (Hr : (perform ex_signed_in ex_change).1 = AnsUnit (Ok tt)) by (vm_compute; reflexivity).
  assert (Hp : perform ex_signed_in ex_change = (AnsUnit (Ok tt), ex_changed))
    by (rewrite <-Hr; apply surjective_pairing).
  assert (Hrun : rtc account_step ex_changed ex_after)
    by (apply ops_steps; intros [|i] o [= <-]; (split; [vm_compute; repeat constructor|exact I])).
  assert (Hac : ex_signed_in.(accounts) !! str "account-1" = Some ex_account) by (vm_compute; reflexivity).
  assert (Hses : ex_signed_in.(account_sessions) !! str "session-1" = Some (ex_session "session-1" "token-1" true))
    by (vm_compute; reflexivity).
  destruct (security_change_ends_authority ex_signed_in ex_change ex_changed ex_after (str "account-1") ex_account
              Hp eq_refl Hrun Hac ltac:(vm_compute; reflexivity)) as (Hs & _ & Hl).
  split; [exact (Hs _ _ _ _ Hses eq_refl)|]. apply Hl; [reflexivity|]. vm_compute. congruence.
Defined.

(** The same refresh token twice: it works once. *)
Definition ex_tokens : list AccountOp := [ex_rotate "session-3" "token-3"; ex_rotate "session-4" "token-4"].

Lemma refresh_token_single_use_witness :
  sum_list (zip_with (token_used (str "token-1")) ex_tokens (runs perform ex_signed_in ex_tokens).1) = 1%nat
  ∧ (sum_list (zip_with (token_used (str "token-1")) ex_tokens (runs perform ex_signed_in ex_tokens).1)
     + live (token_live (str "token-1")) (runs perform ex_signed_in ex_tokens).2.(account_sessions) ≤ 1)%nat.
Proof.
  split; [vm_compute; reflexivity|].
  assert (H1 : live (token_live (str "token-1")) ex_signed_in.(account_sessions) = 1%nat) by (vm_compute; reflexivity).
  pose proof (refresh_token_single_use ex_signed_in ex_tokens (str "token-1")) as H. rewrite H1 in H. apply H.
  intros o s Ho. unfold ex_tokens in Ho. rewrite !elem_of_cons, elem_of_nil in Ho.
  destruct Ho as [->|[->|[]]]; intros [= <-]; discriminate.
Defined.

(** The same recovery code twice. *)
Definition ex_codes : list AccountOp :=
  [DoFinishLogin (ex_finish true);
   DoVerifyFactor None (str "account-1") (str "recovery_code") (str "abcd-efgh") 400].

Lemma recovery_code_single_use_witness :
  sum_list (zip_with (code_used (str "account-1") ex_code.(rv_code_hash)) ex_codes (runs perform ex_db ex_codes).1)
    = 1%nat
  ∧ (sum_list (zip_with (code_used (str "account-1") ex_code.(rv_code_hash)) ex_codes (runs perform ex_db ex_codes).1)
     + live (code_live (str "account-1") ex_code.(rv_code_hash)) (runs perform ex_db ex_codes).2.(recovery_codes)
     ≤ 1)%nat.
Proof.
  split; [vm_compute; reflexivity|].
  assert (H1 : live (code_live (str "account-1") ex_code.(rv_code_hash)) ex_db.(recovery_codes) = 1%nat)
    by (vm_compute; reflexivity).
  pose proof (recovery_code_single_use ex_db ex_codes (str "account-1") ex_code.(rv_code_hash)) as H.
  rewrite H1 in H. apply H. intros o r Ho. unfold ex_codes in Ho. rewrite !elem_of_cons, elem_of_nil in Ho.
  destruct Ho as [->|[->|[]]]; intros Hr; inversion Hr.
Defined.
End examples.
