(* ===== verification/ApiRequest.v ===== *)
(** * Authenticated requests to the API server

    Models services/api-server/src/routes/mod.rs
    ([authenticate], [authenticate_service], [verify_signed_device_request]),
    the validation of a step-up token (routes/mfa.rs) and the route with which the
    signalling service authenticates a device (routes/internal.rs), composed with
    that service ([SignalAuth]) and with the runs of [ApiAuthority].

    The clock is read once per request; a header is present when it is text. *)

From S2P Require Import Prelude Text Canonical RequestTarget Security Primitives KeySession SignalAuth Net ApiSession Ephemeral ApiAccount ApiLogin ApiSecurity ApiAuthority.

(** ** Data *)

Record AppConfig := {
  cf_token_secret : bytes;
  cf_service_token : rstr;
  cf_access_ttl_seconds : Z;
  cf_refresh_ttl_seconds : Z;
  cf_challenge_ttl_seconds : Z;
  cf_challenge_attempts : Z }.

Abbreviation HeaderMap := (gmap rstr rstr).

Record HttpRequest := {
  hr_method : rstr;
  hr_target : rstr;
  hr_headers : HeaderMap;
  hr_body : bytes;
  hr_request_id : rstr }.

Inductive RequestError :=
| Unauthorized | MissingHeader | InvalidTimestamp | SignatureExpired | UnknownDevice | DeviceNotAuthorized
| InvalidDeviceSignature | DeviceNonceReplayed | AccountMismatchError | DeviceKeyMismatch
| StepUpRequired | InvalidStepUpToken | InvalidPayload | InvalidOperationBinding | StepUpBindingMismatch | InternalError.

Section operations.
Context `{P : Primitives} `{T : ApiText}.

(** ** Requests *)

Definition nonempty (value : rstr) : option rstr := match value with [] => None | _ => Some value end.

Definition bearer (headers : HeaderMap) : result RequestError rstr :=
  ok_or ((headers !! str "authorization" ≫= strip_prefix (str "Bearer ")) ≫= nonempty) Unauthorized.

Definition required_header (headers : HeaderMap) (name : rstr) : result RequestError rstr :=
  ok_or (headers !! name ≫= nonempty) MissingHeader.

Definition authenticate (cf : AppConfig) (db : AccountDb) (headers : HeaderMap) (now : Z)
    : result RequestError AccessClaims :=
  token ← bearer headers;
  claims ← ok_or (verify_access_token token cf.(cf_token_secret) now) Unauthorized;
  _ ← ensure (account_session_active db claims.(acl_account_session_id) claims.(acl_account_id) now) Unauthorized;
  Ok claims.

Definition authenticate_service (cf : AppConfig) (headers : HeaderMap) : result RequestError unit :=
  token ← bearer headers;
  ensure (token =! cf.(cf_service_token)) Unauthorized.

(** The checks of [verify_signed_device_request] before the nonce: the device, its
    identifier, the timestamp and the nonce. *)
Definition signed_request_checks (db : Database) (claims : AccessClaims) (r : HttpRequest) (now : Z)
    : result RequestError (Device * rstr * Z * rstr) :=
  device_id ← required_header r.(hr_headers) (str "x-rctl-device-id");
  timestamp ← required_header r.(hr_headers) (str "x-rctl-timestamp");
  timestamp ← ok_or (parse_u64 timestamp) InvalidTimestamp;
  nonce ← required_header r.(hr_headers) (str "x-rctl-api-nonce");
  signature ← required_header r.(hr_headers) (str "x-rctl-device-signature");
  _ ← ensure (negb (30000 <? abs_diff now timestamp)) SignatureExpired;
  device ← ok_or (db.(db_devices) !! device_id) UnknownDevice;
  _ ← ensure (negb ((device.(dv_account_id) ≠! claims.(acl_account_id))
                    || bool_decide (is_Some device.(dv_public_key_revoked_at))
                    || negb (is_authorizable device.(dv_status)))) DeviceNotAuthorized;
  _ ← ensure (verify_device_signature device.(dv_public_key) r.(hr_method) r.(hr_target) r.(hr_body)
                (r.(hr_headers) !! str "content-type") r.(hr_request_id) device_id claims.(acl_account_id)
                timestamp nonce signature) InvalidDeviceSignature;
  Ok (device, device_id, timestamp, nonce).

Definition nonce_key (account_id device_id nonce : rstr) : rstr :=
  account_id ++ str ":" ++ device_id ++ str ":" ++ nonce.

Definition verify_signed_device_request (db : Database) (s : MemoryState) (claims : AccessClaims) (r : HttpRequest)
    (now : Z) : result RequestError Device * MemoryState :=
  match signed_request_checks db claims r now with
  | Err e => (Err e, s)
  | Ok (device, device_id, _, nonce) =>
      let '(recorded, s) := record_nonce s (nonce_key claims.(acl_account_id) device_id nonce) now 60000 in
      (if recorded then Ok device else Err DeviceNonceReplayed, s)
  end.

(** ** Step-up tokens *)

Definition is_ascii_control (b : byte) : bool := (byte_val b <? 32) || (byte_val b =? 127).

Definition canonical_operation_path (value : rstr) : result RequestError rstr :=
  _ ← ensure (negb ((value =! []) || (2048 <? len value)
                    || existsb (λ b, is_ascii_control b || (b =! x5c)) value)) InvalidOperationBinding;
  target ← map_err (λ _, InvalidOperationBinding) (canonical_request_target value);
  _ ← ensure (take 4 target =! str "/v1/") InvalidOperationBinding;
  Ok target.

Definition required_step_up_header (headers : HeaderMap) (name : rstr) : result RequestError rstr :=
  ok_or (headers !! name ≫= nonempty) StepUpRequired.

Definition validate_step_up_for_request (cf : AppConfig) (claims : AccessClaims) (r : HttpRequest)
    (expected_device_id : option rstr) (expected_purpose : rstr) (now : Z) : result RequestError StepUpExpectation :=
  challenge_id ← required_step_up_header r.(hr_headers) (str "x-rctl-risk-challenge-id");
  token ← required_step_up_header r.(hr_headers) (str "x-rctl-step-up-token");
  step_up ← ok_or (verify_step_up_token token cf.(cf_token_secret) now) InvalidStepUpToken;
  target ← canonical_operation_path r.(hr_target);
  body_hash ← ok_or (canonical_request_body_hash r.(hr_body) (r.(hr_headers) !! str "content-type")) InvalidPayload;
  expected_binding ← ok_or (operation_binding_hash claims.(acl_account_id) step_up.(sc_device_id) expected_purpose
    r.(hr_method) target body_hash r.(hr_request_id) step_up.(sc_expires_at)) InvalidOperationBinding;
  expected_binding_bytes ← ok_or (decode_sha256_hex expected_binding) InternalError;
  _ ← ensure (negb ((step_up.(sc_account_id) ≠! claims.(acl_account_id)) || (step_up.(sc_challenge_id) ≠! challenge_id)
                    || (step_up.(sc_purpose) ≠! expected_purpose)
                    || (match expected_device_id with Some d => step_up.(sc_device_id) ≠! d | None => false end)
                    || (step_up.(sc_operation_binding_hash) ≠! expected_binding))) StepUpBindingMismatch;
  Ok {| sx_challenge_id := challenge_id; sx_account_id := claims.(acl_account_id);
        sx_device_id := step_up.(sc_device_id); sx_purpose := expected_purpose;
        sx_operation_binding_hash := expected_binding_bytes; sx_now := now |}.

(** ** The signalling service asks about a device *)

Definition load_signal_device_authority (db : AccountDb) (account_session_id account_id device_id : rstr) (now : Z)
    : option (bool * Device) :=
  device ← db.(core).(db_devices) !! device_id;
  Some (active_account_session (db.(account_sessions) !! account_session_id) account_id now, device).

Definition signal_device_auth (cf : AppConfig) (db : AccountDb) (headers : HeaderMap) (rq : DeviceAuthRequest) (now : Z)
    : result RequestError DeviceAuthResponse :=
  _ ← authenticate_service cf headers;
  claims ← ok_or (verify_access_token rq.(dq_access_token) cf.(cf_token_secret) now) Unauthorized;
  _ ← ensure (claims.(acl_account_id) =! rq.(dq_account_id)) AccountMismatchError;
  '(session_valid, device) ← ok_or (load_signal_device_authority db claims.(acl_account_session_id)
    claims.(acl_account_id) rq.(dq_device_id) now) UnknownDevice;
  _ ← ensure session_valid Unauthorized;
  _ ← ensure (negb ((device.(dv_account_id) ≠! claims.(acl_account_id))
                    || (device.(dv_public_key_id) ≠! rq.(dq_public_key_id))
                    || negb (device.(dv_public_key_version) =? rq.(dq_public_key_version))
                    || bool_decide (is_Some device.(dv_public_key_revoked_at))
                    || negb (is_authorizable device.(dv_status)))) DeviceKeyMismatch;
  Ok {| dr_authorized := true; dr_account_id := claims.(acl_account_id); dr_device_id := device.(dv_device_id);
        dr_public_key_id := device.(dv_public_key_id); dr_public_key_version := device.(dv_public_key_version);
        dr_public_key := b64url_text device.(dv_public_key);
        dr_access_token_expires_at := claims.(acl_expires_at) |}.

(** The authenticator of the signalling service, asking this server. *)
Definition ask_api (cf : AppConfig) (db : AccountDb) (headers : HeaderMap) (now : Z) (rq : DeviceAuthRequest)
    : option TrustedDevice :=
  match signal_device_auth cf db headers rq now with
  | Ok rs => trusted_device_from_response rq rs now
  | Err _ => None
  end.
End operations.

(** ** Replayed requests *)

Section replay.
Context `{P : Primitives} `{T : ApiText}.

(** What the server does with its short-lived state: check a signed request, or
    anything else ([Ephemeral]). *)
Inductive EphCall :=
| CallSigned (db : Database) (claims : AccessClaims) (r : HttpRequest) (now : Z)
| CallOther (op : EphOp).

(** The clock reading with which a call comes to the table of nonces, if it does; the
    clock is read some time before the table is reached. *)
Definition nonce_clock (c : EphCall) : option Z :=
  match c with
  | CallSigned _ _ _ now => Some now
  | CallOther (OpRecordNonce _ now _) => Some now
  | CallOther _ => None
  end.

Definition call_step (s : MemoryState) (c : EphCall) : option (result RequestError Device) * MemoryState :=
  match c with
  | CallSigned db claims r now => let '(res, s) := verify_signed_device_request db s claims r now in (Some res, s)
  | CallOther op => (None, (eph_step s op).2)
  end.

Definition nonce_held (key : rstr) (e : Z) (s : MemoryState) : Prop := s.(nonces) !! key = Some e.

Lemma record_nonce_keeps key e s k now ttl :
  nonce_held key e s → now < e → nonce_held key e (record_nonce s k now ttl).2.
Proof.
  unfold nonce_held, record_nonce. intros Hs He.
  assert (Hf : filter (λ kv : rstr * Z, now < kv.2) s.(nonces) !! key = Some e) by by apply map_lookup_filter_Some.
  case_bool_decide as Hk; cbn; [done|]. rewrite lookup_insert_ne; [done|]. intros ->. apply Hk. by rewrite Hf.
Qed.

Lemma record_nonce_rejects key e s now ttl :
  nonce_held key e s → now < e → (record_nonce s key now ttl).1 = false.
Proof.
  unfold nonce_held, record_nonce. intros Hs He.
  assert (Hf : filter (λ kv : rstr * Z, now < kv.2) s.(nonces) !! key = Some e) by by apply map_lookup_filter_Some.
  rewrite bool_decide_eq_true_2; [done|by rewrite Hf].
Qed.

Lemma record_nonce_holds s key now ttl :
  (record_nonce s key now ttl).1 = true → nonce_held key (sat_add 64 now ttl) (record_nonce s key now ttl).2.
Proof. unfold nonce_held, record_nonce. case_bool_decide; [done|]. cbn. by rewrite lookup_insert_eq. Qed.

Lemma other_nonces s op :
  (∀ k now ttl, op ≠ OpRecordNonce k now ttl) → (eph_step s op).2.(nonces) = s.(nonces).
Proof.
  intros Hop. destruct op; try (by edestruct Hop); cbn;
    unfold put_pending_totp_enrollment, begin_pending_totp_enrollment_attempt,
      finish_pending_totp_enrollment_attempt, abort_pending_totp_enrollment_attempt, remove_pending_totp_enrollment,
      login_failure_state, record_login_failure, put_challenge, begin_challenge_attempt, finish_challenge_attempt,
      abort_challenge_attempt, consume_step_up; by repeat case_match.
Qed.

Lemma call_keeps key e s c :
  (∀ t, nonce_clock c = Some t → t < e) → nonce_held key e s → nonce_held key e (call_step s c).2.
Proof.
  destruct c as [db claims r now|op]; cbn; intros He Hs.
  - unfold verify_signed_device_request. destruct (signed_request_checks db claims r now) as [[[[d id] ts] n]|]; [|done].
    pose proof (record_nonce_keeps key e s (nonce_key (acl_account_id claims) id n) now 60000 Hs (He _ eq_refl)).
    by destruct (record_nonce _ _ _ _).
  - destruct op as [| | | | |k t ttl| | | | | | | |];
      try (unfold nonce_held; rewrite other_nonces; [exact Hs|done]). cbn.
    pose proof (record_nonce_keeps key e s k t ttl Hs (He _ eq_refl)). by destruct (record_nonce _ _ _ _).
Qed.

(** What an accepted request went through. *)
Lemma signed_accepted db s claims r now d s' :
  verify_signed_device_request db s claims r now = (Ok d, s') →
  ∃ id ts n, r.(hr_headers) !! str "x-rctl-device-id" = Some id
    ∧ (r.(hr_headers) !! str "x-rctl-timestamp" ≫= parse_u64) = Some ts
    ∧ r.(hr_headers) !! str "x-rctl-api-nonce" = Some n ∧ abs_diff now ts ≤ 30000
    ∧ record_nonce s (nonce_key claims.(acl_account_id) id n) now 60000 = (true, s').
Proof.
  unfold verify_signed_device_request. intros H.
  destruct (signed_request_checks db claims r now) as [[[[d' id] ts] n]|] eqn:E; [|done].
  unfold signed_request_checks, required_header in E. invert_ok. unfold nonempty in *.
  repeat match goal with H : _ ≫= _ = Some _ |- _ => apply bind_Some in H as (? & ? & ?) end.
  repeat (case_match; simplify_eq). eexists _, ts, _. split_and!; [done| |done..]. by rewrite H1.
Qed.

(** The headers that make a signed request what it is: device, time and nonce. *)
Definition signed_identity (r : HttpRequest) : option rstr * option rstr * option rstr :=
  (r.(hr_headers) !! str "x-rctl-device-id", r.(hr_headers) !! str "x-rctl-timestamp",
   r.(hr_headers) !! str "x-rctl-api-nonce").

(** A call between [i] and [j] swept the table of nonces at the time [t] or later. *)
Definition swept_between (l : list EphCall) (i j : nat) (t : Z) : Prop :=
  ∃ m c t', (i < m < j)%nat ∧ l !! m = Some c ∧ nonce_clock c = Some t' ∧ t ≤ t'.

Lemma swept_dec l i j t : swept_between l i j t ∨ ∀ m c t', (i < m < j)%nat → l !! m = Some c → nonce_clock c = Some t' → t' < t.
Proof.
  induction j as [|j [H|IH]]; [right; lia| |].
  { left. destruct H as (m & c & t' & Hm & H). exists m, c, t'. split; [lia|done]. }
  destruct (l !! j) as [c|] eqn:Hc.
  - destruct (nonce_clock c) as [t'|] eqn:Ht.
    + destruct (decide (i < j)%nat) as [Hij|Hij]; [destruct (Z.lt_ge_cases t' t)|].
      * right. intros m c' x Hm Hl Hx. destruct (decide (m = j)) as [->|Hne]; [|eapply IH; eauto; lia]. congruence.
      * left. exists j, c, t'. split; [lia|done].
      * right. intros m c' x Hm. lia.
    + right. intros m c' x Hm Hl Hx. destruct (decide (m = j)) as [->|Hne]; [congruence|eapply IH; eauto; lia].
  - right. intros m c' x Hm Hl Hx. destruct (decide (m = j)) as [->|Hne]; [congruence|eapply IH; eauto; lia].
Qed.

(** C19: A signed request is accepted once: whatever else the server does in
    between, a second request of the same account with the same device,
    timestamp and nonce is refused, with two exceptions. It is accepted when the
    first reads the clock exactly 30 s before its timestamp and the second
    exactly 30 s after it, to the millisecond, where the nonce has just been
    forgotten. And it can be accepted when the second is overtaken on its way to
    the table of nonces: it read the clock within the 60 s after the first, but
    before it reached the table another request, which read the clock at least
    60 s after the first, had swept the nonce away. When requests reach the
    table in the order in which they read the clock, the second exception does
    not arise. (The clock of the first is below 2^63 ms.) *)
Theorem signed_request_accepted_once s l i j db1 db2 claims1 claims2 r1 r2 n1 n2 d1 d2 :
  n1 < 2 ^ 63 → (i < j)%nat →
  l !! i = Some (CallSigned db1 claims1 r1 n1) → l !! j = Some (CallSigned db2 claims2 r2 n2) →
  (runs call_step s l).1 !! i = Some (Some (Ok d1)) → (runs call_step s l).1 !! j = Some (Some (Ok d2)) →
  claims1.(acl_account_id) = claims2.(acl_account_id) → signed_identity r1 = signed_identity r2 →
  ∃ ts, (r1.(hr_headers) !! str "x-rctl-timestamp" ≫= parse_u64) = Some ts ∧
    ((n1 = ts - 30000 ∧ n2 = ts + 30000) ∨ (n2 < n1 + 60000 ∧ swept_between l i j (n1 + 60000))).
Proof.
  intros Hmax Hij Hi Hj Ho1 Ho2 Hacc Hid.
  rewrite (runs_lookup _ _ _ _ _ Hi) in Ho1. rewrite (runs_lookup _ _ _ _ _ Hj) in Ho2.
  set (s1 := (runs call_step s (take i l)).2) in *. set (s2 := (runs call_step s (take j l)).2) in *.
  destruct (verify_signed_device_request db1 s1 claims1 r1 n1) as [res1 s1'] eqn:E1.
  destruct (verify_signed_device_request db2 s2 claims2 r2 n2) as [res2 s2'] eqn:E2.
  cbn in Ho1, Ho2. rewrite E1 in Ho1. rewrite E2 in Ho2. injection Ho1 as ->. injection Ho2 as ->.
  pose proof E1 as Ha1. apply signed_accepted in Ha1 as (id1 & ts1 & k1 & Hid1 & Hts1 & Hk1 & Hw1 & Hr1).
  apply signed_accepted in E2 as (id2 & ts2 & k2 & Hid2 & Hts2 & Hk2 & Hw2 & Hr2).
  unfold signed_identity in Hid. injection Hid as He1 He2 He3. rewrite He1, Hid2 in Hid1. rewrite He3, Hk2 in Hk1.
  rewrite He2, Hts2 in Hts1. injection Hid1 as ->. injection Hk1 as ->. injection Hts1 as ->.
  exists ts1. rewrite He2. split; [done|]. unfold abs_diff in *.
  destruct (Z.lt_ge_cases n2 (n1 + 60000)) as [Hlt|Hge]; [right|left; lia]. split; [done|].
  destruct (swept_dec l i j (n1 + 60000)) as [?|Hnone]; [done|exfalso].
  assert (Hheld : nonce_held (nonce_key claims1.(acl_account_id) id1 k1) (n1 + 60000) s2).
  { unfold s2. eapply (runs_between _ _ _ _ i j); [exact Hi|done| |].
    - fold s1. cbn. rewrite E1. cbn. pose proof (record_nonce_holds s1 _ n1 60000 (f_equal fst Hr1)) as Hh.
      rewrite Hr1, sat_add_small in Hh by lia. exact Hh.
    - intros m b s' Hm Hb. apply call_keeps. intros t Ht. by eapply Hnone. }
  rewrite Hacc in Hheld. pose proof (record_nonce_rejects _ _ _ _ 60000 Hheld Hlt) as Hrej. by rewrite Hr2 in Hrej.
Qed.
End replay.

(** ** After a change of the account's security *)

Section revocation.
Context `{P : Primitives} `{F : FactorCrypto} `{T : ApiText}.

Lemma ask_api_session cf db headers now rq d :
  ask_api cf db headers now rq = Some d →
  ∃ claims, verify_access_token rq.(dq_access_token) cf.(cf_token_secret) now = Some claims
    ∧ account_session_active db claims.(acl_account_session_id) claims.(acl_account_id) now = true.
Proof.
  unfold ask_api, signal_device_auth. intros H.
  match type of H with match ?x with _ => _ end = _ => destruct x as [rs|] eqn:E; [|done] end.
  clear H. apply bind_ok in E as (_ & _ & E). apply bind_ok in E as (claims & Hv & E).
  apply bind_ok in E as (_ & _ & E). apply bind_ok in E as ([valid device] & Hd & E).
  apply bind_ok in E as (u & He & _). invert_ok. exists claims. split; [done|].
  apply bind_Some in Hd as (dv & _ & Hd). unfold account_session_active. congruence.
Qed.

Lemma hello_asks c claims token n nonce expires r authorize now h c' :
  authenticate_hello c claims token n nonce expires r authorize now = (Ok h, c') →
  ∃ rq d, rq.(dq_access_token) = token ∧ authorize rq = Some d.
Proof.
  unfold authenticate_hello. intros H.
  destruct (hello_checks claims token n nonce expires r authorize now) as [[h' cn]|] eqn:E; [|done].
  unfold hello_checks in E. invert_ok. eexists _, _. split; [|eassumption]. done.
Qed.

(** C18: An access token that was handed out before a password change, the
    enrolment or the removal of a second factor authenticates nobody afterwards,
    whatever operations follow: the authentication that the routes of accounts,
    devices and sessions start with answers 401, and the signalling service
    admits no device that presents the token. One use is left by design:
    repeating the very enrolment request that ended the sessions, which is
    answered again although the session of the token has ended (routes/mfa.rs,
    totp_finish). The account must have been changed last before the end of the
    64-bit clock. *)
Theorem old_tokens_not_authenticated cf db o db1 db2 a ac id s :
  perform db o = (AnsUnit (Ok tt), db1) → secures o = Some a → rtc account_step db1 db2 →
  db.(accounts) !! a = Some ac → ac.(ac_updated_at) < u_max 64 →
  db.(account_sessions) !! id = Some s → s.(as_account_id) = a →
  ∀ token claims now, verify_access_token token cf.(cf_token_secret) now = Some claims →
    claims.(acl_account_session_id) = id →
    (∀ headers, bearer headers = Ok token → authenticate cf db2 headers now = Err Unauthorized)
    ∧ ∀ c sclaims n nonce expires r headers h,
        (authenticate_hello c sclaims token n nonce expires r (ask_api cf db2 headers now) now).1 ≠ Ok h.
Proof.
  intros Hp Hs Hrun Hac Hmax Hid Hacc token claims now Hv Hcl.
  assert (Hdead : ∀ account t, account_session_active db2 id account t = false).
  { intros account t. by eapply (dead_session db o db1 db2 a). }
  split.
  - intros headers Hb. unfold authenticate. rewrite Hb. cbn. rewrite Hv. cbn. by rewrite Hcl, Hdead.
  - intros c sclaims n nonce expires r headers h Hh.
    destruct (authenticate_hello _ _ _ _ _ _ _ _ _) as [res c'] eqn:E. cbn in Hh. subst res.
    apply hello_asks in E as (rq & d & Htok & Hd). apply ask_api_session in Hd as (cl & Hv' & Hact).
    rewrite Htok, Hv in Hv'. injection Hv' as <-. by rewrite Hcl, Hdead in Hact.
Qed.
End revocation.

(** ** Witnesses *)

Section witnesses.
#[local] Existing Instance toy.
#[local] Existing Instance toy_factors.
#[local] Existing Instance toy_text.

Definition ex_claims (session : string) : AccessClaims := {|
  acl_account_id := str "account-1"; acl_account_session_id := str session; acl_issued_at := 0;
  acl_expires_at := 900000; acl_mfa_verified := true; acl_token_type := str "access" |}.

Definition ex_config : AppConfig := {|
  cf_token_secret := str "secret"; cf_service_token := str "service"; cf_access_ttl_seconds := 900;
  cf_refresh_ttl_seconds := 3600; cf_challenge_ttl_seconds := 300; cf_challenge_attempts := 5 |}.

Definition ex_token : rstr := sign_access_token (ex_claims "session-1") (str "secret").

Lemma access_token_roundtrip_witness :
  verify_access_token ex_token (str "secret") 500 = Some (ex_claims "session-1").
Proof.
  apply (access_token_roundtrip (T := toy_text) (ApiTextLaws0 := toy_text_laws) (ex_claims "session-1") (str "secret") 500).
  split; reflexivity.
Defined.

Lemma old_tokens_not_authenticated_witness :
  (is_ok (authenticate ex_config ex_signed_in {[str "authorization" := str "Bearer " ++ ex_token]} 100) = true)
  ∧ authenticate ex_config ex_after {[str "authorization" := str "Bearer " ++ ex_token]} 500 = Err Unauthorized.
Proof.
  split; [vm_compute; reflexivity|].
  assert (Hr : (perform ex_signed_in ex_change).1 = AnsUnit (Ok tt)) by (vm_compute; reflexivity).
  assert (Hp : perform ex_signed_in ex_change = (AnsUnit (Ok tt), ex_changed))
    by (rewrite <-Hr; apply surjective_pairing).
  assert (Hrun : rtc account_step ex_changed ex_after)
    by (apply ops_steps; intros [|i] o [= <-]; (split; [vm_compute; repeat constructor|exact I])).
  assert (Hac : ex_signed_in.(accounts) !! str "account-1" = Some ex_account) by (vm_compute; reflexivity).
  assert (Hses : ex_signed_in.(account_sessions) !! str "session-1" = Some (ex_session "session-1" "token-1" true))
    by (vm_compute; reflexivity).
  assert (Hv : verify_access_token ex_token (str "secret") 500 = Some (ex_claims "session-1"))
    by (vm_compute; reflexivity).
  destruct (old_tokens_not_authenticated ex_config ex_signed_in ex_change ex_changed ex_after (str "account-1") ex_account
              (str "session-1") (ex_session "session-1" "token-1" true) Hp eq_refl Hrun Hac
              ltac:(vm_compute; reflexivity) Hses eq_refl ex_token (ex_claims "session-1") 500 Hv eq_refl) as [Ha _].
  apply Ha. vm_compute. reflexivity.
Defined.

(** A request signed for the time 30000. *)
Definition ex_signature : rstr :=
  match canonical_api_request_bytes (str "GET") (str "/v1/devices") (sha256 []) (str "request-1") (str "device-2")
          (str "account-1") 30000 (str "nonce") with
  | Ok bs => encode_hex (ed25519_sign ex_key (sha256 bs))
  | Err _ => []
  end.

Definition ex_request : HttpRequest := {|
  hr_method := str "GET"; hr_target := str "/v1/devices"; hr_body := []; hr_request_id := str "request-1";
  hr_headers := <[str "x-rctl-device-id" := str "device-2"]> (<[str "x-rctl-timestamp" := str "30000"]>
    (<[str "x-rctl-api-nonce" := str "nonce"]> {[str "x-rctl-device-signature" := ex_signature]})) |}.

Definition ex_call (now : Z) : EphCall := CallSigned ex_signed_in.(core) (ex_claims "session-1") ex_request now.

Definition accepted (o : option (result RequestError Device)) : bool :=
  match o with Some (Ok _) => true | _ => false end.

(** Accepted at 0, refused at 59999, accepted again at 60000. *)
Example boundary_replay :
  accepted <$> (runs call_step memory_state_default [ex_call 0; ex_call 59999; ex_call 60000]).1
  = [true; false; true].
Proof. vm_compute. reflexivity. Qed.

(** The second copy of the request read the clock at 59999 and reaches the table after
    a call that read it at 60000. *)
Definition ex_overtaken : list EphCall :=
  [ex_call 0; CallOther (OpRecordNonce (str "account-2:device-9:n") 60000 60000); ex_call 59999].

Example overtaken_replay :
  accepted <$> (runs call_step memory_state_default ex_overtaken).1 = [true; false; true].
Proof. vm_compute. reflexivity. Qed.

Lemma signed_request_accepted_once_witness :
  swept_between ex_overtaken 0 2 60000.
Proof.
  assert (H0 : (runs call_step memory_state_default ex_overtaken).1 !! 0%nat = Some (Some (Ok ex_device)))
    by (vm_compute; reflexivity).
  assert (H2 : (runs call_step memory_state_default ex_overtaken).1 !! 2%nat = Some (Some (Ok ex_device)))
    by (vm_compute; reflexivity).
  destruct (signed_request_accepted_once memory_state_default ex_overtaken 0 2 ex_signed_in.(core)
           ex_signed_in.(core) (ex_claims "session-1") (ex_claims "session-1") ex_request ex_request 0 59999 ex_device
           ex_device) as (ts & _ & [[Ha Hb]|[_ Hs]]);
    [lia|lia|reflexivity|reflexivity|exact H0|exact H2|reflexivity|reflexivity|exfalso; lia|exact Hs].
Defined.
End witnesses.
