(* ===== verification/ApiAuth.v ===== *)
(** * Registration, login, refresh and logout

    Models services/api-server/src/routes/auth.rs over the repository ([ApiAccount],
    [ApiLogin]) and the short-lived state ([Ephemeral]), with the bindings of
    services/api-server/src/security.rs. What is drawn at random and the times at
    which the clock is read are arguments. The JSON of a list of texts and Argon2
    hashing are parameters ([AuthText]). *)

From stdpp Require Import sorting.
From S2P Require Import Prelude Text Header Canonical RequestTarget Security Primitives KeySession SignalAuth Net ApiSession Ephemeral ApiAccount ApiLogin ApiSecurity ApiDevice ApiAuthority ApiRequest.

(** ** Data *)

Class AuthText := {
  (** [Argon2::default().hash_password] with a salt *)
  hash_password : bytes → rstr → option rstr }.

Record Server := { sv_db : AccountDb; sv_eph : MemoryState }.

Record RegisterRequest := { rr_email : rstr; rr_password : rstr; rr_display_name : rstr }.

Record LoginRequest := {
  lq_email : rstr;
  lq_password : rstr;
  lq_device_id : rstr;
  lq_device_public_key : rstr;
  lq_public_key_id : option rstr;
  lq_public_key_version : Z;
  lq_client_nonce : rstr;
  lq_protocol_version : Z }.

Record LoginFinishRequest := {
  lf_login_challenge_id : rstr;
  lf_login_request_binding_hash : rstr;
  lf_login_challenge_binding_hash : rstr;
  lf_client_nonce : rstr;
  lf_server_nonce : rstr;
  lf_factor : option rstr;
  lf_code : option rstr;
  lf_protocol_version : Z }.

Record ChangePasswordRequest := { cq_current_password : rstr; cq_new_password : rstr }.

Record TokenResponse := {
  tk_account_id : rstr;
  tk_access_token : rstr;
  tk_refresh_token : rstr;
  tk_access_expires_at : Z;
  tk_refresh_expires_at : Z }.

(** The answer to a correct password. *)
Record LoginAnswer := {
  lx_account_id : rstr;
  lx_login_challenge_id : rstr;
  lx_login_request_binding_hash : rstr;
  lx_login_challenge_binding_hash : rstr;
  lx_server_nonce : rstr;
  lx_device_state : rstr;
  lx_required_factors : list rstr;
  lx_expires_at : Z;
  lx_attempts_remaining : Z }.

(** What is drawn at random: identifiers, secrets, one identifier per audit entry. *)
Record Draws := {
  dw_account_id : rstr;
  dw_salt : bytes;
  dw_challenge_id : rstr;
  dw_server_nonce : bytes;
  dw_session_id : rstr;
  dw_refresh_token : rstr;
  dw_grant_id : rstr;
  dw_grant_secret : rstr;
  dw_trusted_device_id : rstr;
  dw_audit_id : nat → rstr }.

Inductive AuthError :=
| UnsupportedVersionError | InvalidDeviceId | InvalidDevicePublicKey | InvalidClientNonceError
| InvalidServerNonceError | InvalidEmail | WeakPassword | InvalidDisplayName | AccountExists | InvalidCredentials
| DeviceIdentityInvalid | InvalidLoginBinding | LoginVerificationFailed | DeviceSignatureMismatch
| PasswordUnchanged | InvalidCurrentPassword | PasswordChangeConflict | AuthInternal
| AuthRequest (e : RequestError).

Definition TOTP_TRUST_TTL_MILLIS : Z := 30 * 24 * 60 * 60 * 1000.
Definition RECOVERY_TRUST_TTL_MILLIS : Z := 24 * 60 * 60 * 1000.

(** ** Text *)

(** The encodings of the characters that [char::is_whitespace] accepts. *)
Definition whitespace_encodings : list rstr :=
  [[x09]; [x0a]; [x0b]; [x0c]; [x0d]; [x20]; [xc2; x85]; [xc2; xa0]; [xe1; x9a; x80]; [xe2; x80; x80];
   [xe2; x80; x81]; [xe2; x80; x82]; [xe2; x80; x83]; [xe2; x80; x84]; [xe2; x80; x85]; [xe2; x80; x86];
   [xe2; x80; x87]; [xe2; x80; x88]; [xe2; x80; x89]; [xe2; x80; x8a]; [xe2; x80; xa8]; [xe2; x80; xa9];
   [xe2; x80; xaf]; [xe2; x81; x9f]; [xe3; x80; x80]].

(** One of [encodings] at the front of [s], removed. *)
Definition strip_one (encodings : list rstr) (s : rstr) : option rstr :=
  List.find (λ e, take (length e) s =! e) encodings ≫= λ e, Some (drop (length e) s).

Fixpoint strip_all (fuel : nat) (encodings : list rstr) (s : rstr) : rstr :=
  match fuel with
  | O => s
  | S fuel => match strip_one encodings s with Some s => strip_all fuel encodings s | None => s end
  end.

(** [str::trim]: the encodings read backwards are those at the end. *)
Definition trim (s : rstr) : rstr :=
  let s := strip_all (length s) whitespace_encodings s in
  rev (strip_all (length s) (rev (A := byte) <$> whitespace_encodings) (rev s)).

(** [Vec::sort] and [Vec::dedup] on texts. *)
Fixpoint dedup_texts (l : list rstr) : list rstr :=
  match l with
  | a :: ((b :: _) as l') => if a =! b then dedup_texts l' else a :: dedup_texts l'
  | _ => l
  end.

Definition normalize_email (value : rstr) : result AuthError rstr :=
  let email := ascii_lower <$> trim value in
  _ ← ensure (negb ((254 <? len email) || negb (contains_byte x40 email) || (head email =! Some x40)
                    || ends_with_byte x40 email)) InvalidEmail;
  Ok email.

Definition validate_password (value : rstr) : result AuthError unit :=
  ensure (negb ((len value <? 12) || (256 <? len value))) WeakPassword.

Definition validate_protocol_version (value : Z) : result AuthError unit :=
  ensure (value =? PROTOCOL_VERSION) UnsupportedVersionError.

Definition validate_device_id (value : rstr) : result AuthError unit :=
  ensure (negb ((value =! []) || (128 <? len value) || negb (forallb (λ b, byte_val b <? 128) value))) InvalidDeviceId.

Definition login_device_state_name (s : LoginDeviceState) : rstr :=
  match s with Registered => str "registered" | PendingEnrollment => str "pending_enrollment" end.

Definition sanitized_user_agent (headers : HeaderMap) : rstr := take 512 (default [] (headers !! str "user-agent")).

Definition trust_decision (factor : option rstr) : option rstr * option rstr :=
  if factor =! Some (str "totp") then (Some (str "device_signature_and_mfa"), Some (str "standard"))
  else if factor =! Some (str "recovery_code")
  then (Some (str "device_signature_and_recovery_code"), Some (str "high_risk_step_up_required"))
  else (None, None).

Definition auth_audit_entry (audit_id request_id account_id : rstr) (device_id : option rstr) (action : rstr)
    (reason : option rstr) (now : Z) : AuditEntry := {|
  au_audit_id := audit_id; au_actor_type := str "account"; au_actor_account_id := Some account_id;
  au_actor_device_id := None; au_actor_role := None; au_actor_service := None; au_target_device_id := device_id;
  au_session_id := None; au_action := action; au_result := str "success"; au_reason := reason; au_metadata := ∅;
  au_request_id := request_id; au_created_at := now |}.

Definition auth_failure_audit_entry (audit_id request_id account_id : rstr) (device_id : option rstr) (action : rstr)
    (reason : option rstr) (now : Z) : AuditEntry := {|
  au_audit_id := audit_id; au_actor_type := str "account"; au_actor_account_id := Some account_id;
  au_actor_device_id := None; au_actor_role := None; au_actor_service := None; au_target_device_id := device_id;
  au_session_id := None; au_action := action; au_result := str "failure"; au_reason := reason; au_metadata := ∅;
  au_request_id := request_id; au_created_at := now |}.

(** [audit] of routes/mod.rs, for an anonymous actor. *)
Definition anonymous_audit (audit_id request_id action result_ : rstr) (reason : option rstr) (now : Z) : AuditEntry := {|
  au_audit_id := audit_id; au_actor_type := str "anonymous"; au_actor_account_id := None;
  au_actor_device_id := None; au_actor_role := None; au_actor_service := None; au_target_device_id := None;
  au_session_id := None; au_action := action; au_result := result_; au_reason := reason; au_metadata := ∅;
  au_request_id := request_id; au_created_at := now |}.

Section routes.
Context `{P : Primitives} `{F : FactorCrypto} `{T : ApiText} `{A : AuthText}.

(** ** Bindings *)

Definition login_request_binding_hash (account_id request_id device_id device_state : rstr)
    (public_key_id : option rstr) (public_key_version : Z) (fingerprint client_nonce : bytes) (protocol_version : Z)
    : bytes :=
  sha256 (canonical_fields (str "rctl-login-request-binding-v1")
    [(str "account_id", account_id); (str "method", str "POST"); (str "path", str "/v1/auth/login");
     (str "request_id", request_id); (str "device_id", device_id); (str "device_state", device_state);
     (str "public_key_id", default [] public_key_id); (str "public_key_version", be_bytes 4 public_key_version);
     (str "device_public_key_fingerprint", fingerprint); (str "client_nonce", client_nonce);
     (str "protocol_version", be_bytes 2 protocol_version)]).

Definition login_challenge_binding_hash (challenge_id account_id : rstr) (account_updated_at : Z)
    (request_binding_hash : bytes) (device_id device_state : rstr)
    (fingerprint client_nonce server_nonce ip_address_hash user_agent_hash : bytes) (risk_decision : rstr)
    (required_factors : list rstr) (issued_at expires_at attempts_limit : Z) : bytes :=
  let required_factors_hash := sha256 (string_list_json (dedup_texts (merge_sort str_le required_factors))) in
  sha256 (canonical_fields (str "rctl-login-challenge-v1")
    [(str "login_challenge_id", challenge_id); (str "account_id", account_id);
     (str "account_updated_at_epoch_millis", be_bytes 8 account_updated_at);
     (str "login_request_binding_hash", request_binding_hash); (str "device_id", device_id);
     (str "device_state", device_state); (str "device_public_key_fingerprint", fingerprint);
     (str "client_nonce", client_nonce); (str "server_nonce", server_nonce);
     (str "ip_address_hash", ip_address_hash); (str "user_agent_hash", user_agent_hash);
     (str "risk_decision", risk_decision); (str "required_factors_hash", required_factors_hash);
     (str "issued_at_epoch_millis", be_bytes 8 issued_at); (str "expires_at_epoch_millis", be_bytes 8 expires_at);
     (str "attempts_limit", be_bytes 1 attempts_limit)]).

Definition login_ip_address_hash (ip : option IpAddr) : bytes :=
  let '(family, address) := match ip with
    | Some (IpV4 a) => (str "ipv4", be_bytes 4 a)
    | Some (IpV6 a) => (str "ipv6", be_bytes 16 a)
    | None => (str "unknown", [])
    end in
  sha256 (canonical_fields (str "rctl-login-ip-v1") [(str "address_family", family); (str "address", address)]).

Definition login_user_agent_hash (user_agent : rstr) : bytes :=
  sha256 (canonical_fields (str "rctl-login-user-agent-v1") [(str "user_agent", user_agent)]).

Definition login_failure_key (account : option Account) (normalized_email : rstr) : rstr :=
  let '(kind, principal) := match account with
    | Some a => (str "account", a.(ac_account_id))
    | None => (str "email", normalized_email)
    end in
  sha256_hex (str "rctl-login-limit-v1" ++ [x00] ++ kind ++ [x00] ++ principal).

(** ** Tokens *)

Definition build_token_bundle (cf : AppConfig) (dw : Draws) (account_id : rstr) (mfa_verified : bool) (now : Z)
    : TokenResponse * AccountSession :=
  let access_expires_at := now + cf.(cf_access_ttl_seconds) * 1000 in
  let refresh_expires_at := now + cf.(cf_refresh_ttl_seconds) * 1000 in
  let claims := {| acl_account_id := account_id; acl_account_session_id := dw.(dw_session_id); acl_issued_at := now;
                   acl_expires_at := access_expires_at; acl_mfa_verified := mfa_verified;
                   acl_token_type := str "access" |} in
  ({| tk_account_id := account_id; tk_access_token := sign_access_token claims cf.(cf_token_secret);
      tk_refresh_token := dw.(dw_refresh_token); tk_access_expires_at := access_expires_at;
      tk_refresh_expires_at := refresh_expires_at |},
   {| as_account_session_id := dw.(dw_session_id); as_account_id := account_id;
      as_refresh_token_hash := sha256 dw.(dw_refresh_token); as_mfa_verified := mfa_verified;
      as_expires_at := refresh_expires_at; as_revoked_at := None; as_revoked_reason := None |}).

Definition set_db (st : Server) (db : AccountDb) : Server := {| sv_db := db; sv_eph := st.(sv_eph) |}.
Definition set_eph (st : Server) (e : MemoryState) : Server := {| sv_db := st.(sv_db); sv_eph := e |}.

(** The account of a registration that passes the checks. *)
Definition registering (rq : RegisterRequest) (dw : Draws) (now : Z) : result AuthError Account :=
  email ← normalize_email rq.(rr_email);
  _ ← validate_password rq.(rr_password);
  _ ← ensure (negb ((trim rq.(rr_display_name) =! []) || (100 <? len rq.(rr_display_name)))) InvalidDisplayName;
  password_hash ← ok_or (hash_password dw.(dw_salt) rq.(rr_password)) AuthInternal;
  Ok {| ac_account_id := dw.(dw_account_id); ac_email := email; ac_display_name := trim rq.(rr_display_name);
        ac_password_hash := password_hash; ac_status := AccountActive; ac_created_at := now;
        ac_updated_at := now |}.

(** The transaction that gives a registered account its first session. *)
Definition issue_tokens (cf : AppConfig) (db : AccountDb) (dw : Draws) (account_id : rstr) (mfa_verified : bool)
    (now : Z) : result AuthError TokenResponse * AccountDb :=
  let '(response, session) := build_token_bundle cf dw account_id mfa_verified now in
  match insert_account_session db session with
  | (Err _, db) => (Err AuthInternal, db)
  | (Ok _, db) => (Ok response, db)
  end.

(** Three transactions with nothing in between: the account, its first session, the
    entry of the log. [token_now] is the clock when the tokens are issued, [audit_now]
    when the entry is written. *)
Definition register_account (cf : AppConfig) (st : Server) (rq : RegisterRequest) (request_id : rstr) (dw : Draws)
    (now token_now audit_now : Z) : result AuthError TokenResponse * Server :=
  match registering rq dw now with
  | Err e => (Err e, st)
  | Ok account =>
      match insert_account st.(sv_db) account with
      | (Err Conflict, db) => (Err AccountExists, set_db st db)
      | (Err Unavailable, db) => (Err AuthInternal, set_db st db)
      | (Ok _, db) =>
          match issue_tokens cf db dw dw.(dw_account_id) false token_now with
          | (Err e, db) => (Err e, set_db st db)
          | (Ok response, db) =>
              (Ok response, set_db st (extend_audit db
                 [auth_audit_entry (dw.(dw_audit_id) 0) request_id dw.(dw_account_id) None (str "login_succeeded")
                    None audit_now]))
          end
      end
  end.

(** ** The password *)

(** The failure is counted and put on record. *)
Definition refuse_login (st : Server) (key : rstr) (account : option Account) (request_id : rstr) (dw : Draws)
    (failed_now : Z) : Server :=
  let '(failure, eph) := record_login_failure st.(sv_eph) key failed_now MAX_LOGIN_FAILURES LOCK_MILLIS
                           LOGIN_FAILURE_STATE_TTL_MILLIS in
  let locked := if failure.(lf_newly_locked) && negb (none account)
    then [anonymous_audit (dw.(dw_audit_id) 0) request_id (str "account_locked") (str "success")
            (Some (str "too_many_login_failures")) failed_now] else [] in
  {| sv_eph := eph;
     sv_db := extend_audit st.(sv_db) (locked ++ [anonymous_audit (dw.(dw_audit_id) 1) request_id (str "login_failed")
                (str "failure") (Some (str "invalid_credentials")) failed_now]) |}.

(** The device of a login: known with this very key, or unknown. *)
Definition login_identity (db : AccountDb) (account_id : rstr) (rq : LoginRequest) (requested_public_key : bytes)
    : option (LoginDeviceState * option rstr * Z * bytes) :=
  match db.(core).(db_devices) !! rq.(lq_device_id) with
  | Some d =>
      if (d.(dv_account_id) =! account_id) && is_authorizable d.(dv_status) && none d.(dv_public_key_revoked_at)
         && (rq.(lq_public_key_id) =! Some d.(dv_public_key_id))
         && (rq.(lq_public_key_version) =? d.(dv_public_key_version)) && (requested_public_key =! d.(dv_public_key))
      then Some (Registered, Some d.(dv_public_key_id), d.(dv_public_key_version), d.(dv_public_key))
      else None
  | None =>
      if none rq.(lq_public_key_id) && (rq.(lq_public_key_version) =? 0)
      then Some (PendingEnrollment, None, 0, requested_public_key) else None
  end.

(** The trust that stands for the second factor of a known device. *)
Definition usable_trust (db : AccountDb) (account_id device_id : rstr) (fingerprint : bytes) (now : Z) : option rstr :=
  (λ kv : rstr * TrustedControllerDevice, kv.2.(tr_trusted_device_id)) <$>
  btree_find (λ t, (t.(tr_account_id) =! account_id) && (t.(tr_controller_device_id) =! device_id)
                   && (t.(tr_status) =! TrustActive) && (now <? t.(tr_expires_at))
                   && (t.(tr_device_fingerprint_hash) =! fingerprint)) db.(trusted_controller_devices).

(** What a correct password earns. *)
Definition issue_login_challenge (cf : AppConfig) (db : AccountDb) (rq : LoginRequest) (account : Account)
    (device : LoginDeviceState * option rstr * Z * bytes) (client_nonce : bytes) (peer : option IpAddr)
    (headers : HeaderMap) (request_id : rstr) (dw : Draws) (now : Z) : LoginChallengeAuthority :=
  let '(device_state, public_key_id, public_key_version, device_public_key) := device in
  let fingerprint := sha256 device_public_key in
  let mfa := mfa_enabled db account.(ac_account_id) in
  let trusted := if mfa && (device_state =! Registered)
    then usable_trust db account.(ac_account_id) rq.(lq_device_id) fingerprint now else None in
  let required := if mfa && none trusted then [str "totp"; str "recovery_code"] else [] in
  let state_name := login_device_state_name device_state in
  let expires_at := sat_add 64 now (cf.(cf_challenge_ttl_seconds) * 1000) in
  let user_agent := sanitized_user_agent headers in
  let ip_hash := login_ip_address_hash peer in
  let agent_hash := login_user_agent_hash user_agent in
  let request_binding := login_request_binding_hash account.(ac_account_id) request_id rq.(lq_device_id) state_name
    public_key_id public_key_version fingerprint client_nonce rq.(lq_protocol_version) in
  let challenge_binding := login_challenge_binding_hash dw.(dw_challenge_id) account.(ac_account_id)
    account.(ac_updated_at) request_binding rq.(lq_device_id) state_name fingerprint client_nonce dw.(dw_server_nonce)
    ip_hash agent_hash (if required =! [] then str "allow" else str "require_mfa") required now expires_at
    cf.(cf_challenge_attempts) in
  {| la_challenge := {|
       rk_risk_challenge_id := dw.(dw_challenge_id); rk_account_id := account.(ac_account_id);
       rk_device_id := (if device_state =! Registered then Some rq.(lq_device_id) else None);
       rk_purpose := str "login_mfa"; rk_operation_binding_hash := challenge_binding;
       rk_risk_level := (if required =! [] then str "low" else str "medium"); rk_required_methods := required;
       rk_status := RIssued; rk_attempts_remaining := cf.(cf_challenge_attempts);
       rk_ip_address := (λ ip, match ip with IpV4 a => show_ipv4 a | IpV6 a => show_ipv6 a end) <$> peer;
       rk_user_agent := nonempty user_agent; rk_expires_at := expires_at; rk_created_at := now;
       rk_verified_at := None; rk_consumed_at := None |};
     la_context := {|
       lc_device_state := device_state; lc_device_id := rq.(lq_device_id);
       lc_account_updated_at := account.(ac_updated_at); lc_device_public_key := device_public_key;
       lc_device_public_key_fingerprint := fingerprint; lc_public_key_id := public_key_id;
       lc_public_key_version := public_key_version; lc_client_nonce := client_nonce;
       lc_server_nonce := dw.(dw_server_nonce); lc_login_request_binding_hash := request_binding;
       lc_login_challenge_binding_hash := challenge_binding; lc_ip_address_hash := ip_hash;
       lc_user_agent_hash := agent_hash; lc_required_factors := required; lc_trusted_device_id := trusted;
       lc_protocol_version := rq.(lq_protocol_version); lc_issued_at := now;
       lc_attempts_limit := cf.(cf_challenge_attempts) |} |}.

Definition auth_challenge_from_authority (a : LoginChallengeAuthority) : AuthChallenge := {|
  ch_challenge_id := a.(la_challenge).(rk_risk_challenge_id); ch_account_id := a.(la_challenge).(rk_account_id);
  ch_device_id := a.(la_challenge).(rk_device_id); ch_purpose := LoginMfa;
  ch_operation_binding_hash := Some (encode_hex a.(la_challenge).(rk_operation_binding_hash));
  ch_login := Some a.(la_context); ch_attempts_remaining := a.(la_challenge).(rk_attempts_remaining);
  ch_expires_at := a.(la_challenge).(rk_expires_at); ch_verified_at := a.(la_challenge).(rk_verified_at);
  ch_consumed_at := a.(la_challenge).(rk_consumed_at) |}.

Definition login_answer (a : LoginChallengeAuthority) : LoginAnswer :=
  let x := a.(la_context) in
  {| lx_account_id := a.(la_challenge).(rk_account_id); lx_login_challenge_id := a.(la_challenge).(rk_risk_challenge_id);
     lx_login_request_binding_hash := encode_hex x.(lc_login_request_binding_hash);
     lx_login_challenge_binding_hash := encode_hex x.(lc_login_challenge_binding_hash);
     lx_server_nonce := b64url_text x.(lc_server_nonce);
     lx_device_state := login_device_state_name x.(lc_device_state); lx_required_factors := x.(lc_required_factors);
     lx_expires_at := a.(la_challenge).(rk_expires_at); lx_attempts_remaining := x.(lc_attempts_limit) |}.

(** The checks of the request before the password. *)
Definition parse_login (rq : LoginRequest) : result AuthError (bytes * bytes * rstr) :=
  _ ← validate_protocol_version rq.(lq_protocol_version);
  _ ← validate_device_id rq.(lq_device_id);
  key ← ok_or (decode_either rq.(lq_device_public_key)) InvalidDevicePublicKey;
  _ ← ensure (length key =? 32)%nat InvalidDevicePublicKey;
  client_nonce ← ok_or (decode_array 32 rq.(lq_client_nonce)) InvalidClientNonceError;
  email ← normalize_email rq.(lq_email);
  Ok (key, client_nonce, email).

Definition login (cf : AppConfig) (st : Server) (rq : LoginRequest) (peer : option IpAddr) (headers : HeaderMap)
    (request_id : rstr) (dw : Draws) (now failed_now : Z) : result AuthError LoginAnswer * Server :=
  match parse_login rq with
  | Err e => (Err e, st)
  | Ok (requested_public_key, client_nonce, email) =>
      let account := load_account_by_email st.(sv_db) email in
      let key := login_failure_key account email in
      let '(failures, eph) := login_failure_state st.(sv_eph) key now in
      let st := set_eph st eph in
      let locked := is_locked_at failures now in
      match account with
      | None => (Err InvalidCredentials, refuse_login st key account request_id dw failed_now)
      | Some ac =>
          if (ac.(ac_status) =! AccountActive) && negb locked && verify_password ac.(ac_password_hash) rq.(lq_password)
          then
            let st := set_eph st (clear_login_failures st.(sv_eph) key) in
            match login_identity st.(sv_db) ac.(ac_account_id) rq requested_public_key with
            | None => (Err DeviceIdentityInvalid, st)
            | Some device =>
                let authority := issue_login_challenge cf st.(sv_db) rq ac device client_nonce peer headers
                                   request_id dw now in
                let entry := auth_audit_entry (dw.(dw_audit_id) 0) request_id ac.(ac_account_id)
                  authority.(la_challenge).(rk_device_id) (str "mfa_challenge_issued") None now in
                match create_login_challenge st.(sv_db) authority entry with
                | (Err _, db) => (Err AuthInternal, set_db st db)
                | (Ok _, db) =>
                    let st := set_db st db in
                    (Ok (login_answer authority),
                     set_eph st (put_challenge st.(sv_eph) (auth_challenge_from_authority authority)).2)
                end
            end
          else (Err InvalidCredentials, refuse_login st key account request_id dw failed_now)
      end
  end.

(** ** The end of a login *)

Definition load_login_challenge_authority (db : AccountDb) (challenge_id : rstr) : option LoginChallengeAuthority :=
  match db.(risk_challenges) !! challenge_id, db.(login_challenge_contexts) !! challenge_id with
  | Some c, Some x => Some {| la_challenge := c; la_context := x |}
  | _, _ => None
  end.

Definition login_verification_error : AuthError := LoginVerificationFailed.

(** The device named in the challenge is as it was. *)
Definition device_authority_valid (db : AccountDb) (a : LoginChallengeAuthority) : bool :=
  let x := a.(la_context) in
  match x.(lc_device_state), db.(core).(db_devices) !! x.(lc_device_id) with
  | PendingEnrollment, None => true
  | Registered, Some d =>
      (d.(dv_account_id) =! a.(la_challenge).(rk_account_id)) && is_authorizable d.(dv_status)
      && (d.(dv_public_key_id) =! default [] x.(lc_public_key_id))
      && (d.(dv_public_key_version) =? x.(lc_public_key_version)) && none d.(dv_public_key_revoked_at)
      && (d.(dv_public_key) =! x.(lc_device_public_key))
  | _, _ => false
  end.

Definition factor_shape_valid (required : list rstr) (factor code : option rstr) : bool :=
  if required =! [] then none factor && none code
  else (match factor with Some f => bool_decide (f ∈ required) | None => false end)
       && (match code with Some c => c ≠! [] | None => false end).

(** The challenge is the one that was issued, to this client. *)
Definition context_valid (db : AccountDb) (a : LoginChallengeAuthority) (rq : LoginFinishRequest)
    (request_binding challenge_binding client_nonce server_nonce : bytes) (peer : option IpAddr) (headers : HeaderMap)
    : bool :=
  let ch := a.(la_challenge) in
  let x := a.(la_context) in
  let recomputed := login_challenge_binding_hash ch.(rk_risk_challenge_id) ch.(rk_account_id)
    x.(lc_account_updated_at) x.(lc_login_request_binding_hash) x.(lc_device_id)
    (login_device_state_name x.(lc_device_state)) x.(lc_device_public_key_fingerprint) x.(lc_client_nonce)
    x.(lc_server_nonce) x.(lc_ip_address_hash) x.(lc_user_agent_hash)
    (if x.(lc_required_factors) =! [] then str "allow" else str "require_mfa") x.(lc_required_factors)
    x.(lc_issued_at) ch.(rk_expires_at) x.(lc_attempts_limit) in
  (ch.(rk_risk_challenge_id) =! rq.(lf_login_challenge_id)) && device_authority_valid db a
  && (ch.(rk_device_id) =! (if x.(lc_device_state) =! Registered then Some x.(lc_device_id) else None))
  && (sha256 x.(lc_device_public_key) =! x.(lc_device_public_key_fingerprint))
  && (x.(lc_login_request_binding_hash) =! request_binding)
  && (x.(lc_login_challenge_binding_hash) =! challenge_binding) && (recomputed =! challenge_binding)
  && (x.(lc_client_nonce) =! client_nonce) && (x.(lc_server_nonce) =! server_nonce)
  && (x.(lc_ip_address_hash) =! login_ip_address_hash peer)
  && (x.(lc_user_agent_hash) =! login_user_agent_hash (sanitized_user_agent headers))
  && (x.(lc_protocol_version) =? rq.(lf_protocol_version))
  && factor_shape_valid x.(lc_required_factors) rq.(lf_factor) rq.(lf_code).

Definition login_nonce_key (account_id device_id nonce : rstr) : rstr :=
  str "login-finish:" ++ account_id ++ str ":" ++ device_id ++ str ":" ++ nonce.

(** The checks before the nonce; the answer is the nonce. *)
Definition login_signature_checks (account_id : rstr) (x : LoginChallengeContext) (target : rstr) (headers : HeaderMap)
    (body : bytes) (request_id : rstr) (now : Z) : result AuthError rstr :=
  device_id ← map_err AuthRequest (required_header headers (str "x-rctl-device-id"));
  _ ← ensure (device_id =! x.(lc_device_id)) DeviceSignatureMismatch;
  timestamp ← map_err AuthRequest (required_header headers (str "x-rctl-timestamp"));
  timestamp ← ok_or (parse_u64 timestamp) (AuthRequest InvalidTimestamp);
  _ ← ensure (negb (30000 <? abs_diff now timestamp)) (AuthRequest SignatureExpired);
  nonce ← map_err AuthRequest (required_header headers (str "x-rctl-api-nonce"));
  signature ← map_err AuthRequest (required_header headers (str "x-rctl-device-signature"));
  _ ← ensure (verify_device_signature x.(lc_device_public_key) (str "POST") target body (headers !! str "content-type")
                request_id device_id account_id timestamp nonce signature) (AuthRequest InvalidDeviceSignature);
  Ok nonce.

Definition verify_login_device_signature (eph : MemoryState) (account_id : rstr) (x : LoginChallengeContext)
    (target : rstr) (headers : HeaderMap) (body : bytes) (request_id : rstr) (now : Z)
    : result AuthError unit * MemoryState :=
  match login_signature_checks account_id x target headers body request_id now with
  | Err e => (Err e, eph)
  | Ok nonce =>
      let '(recorded, eph) := record_nonce eph (login_nonce_key account_id x.(lc_device_id) nonce) now 60000 in
      (if recorded then Ok tt else Err (AuthRequest DeviceNonceReplayed), eph)
  end.

Definition reject_login_attempt (db : AccountDb) (ch : RiskChallenge) (challenge_binding : bytes) (audit_id request_id : rstr)
    (now : Z) : result AuthError unit * AccountDb :=
  let entry := auth_failure_audit_entry audit_id request_id ch.(rk_account_id) ch.(rk_device_id)
    (str "mfa_challenge_failed") (Some (str "verification_failed")) now in
  match reject_login_challenge db ch.(rk_risk_challenge_id) challenge_binding now entry with
  | (Err _, db) => (Err AuthInternal, db)
  | (Ok _, db) => (Ok tt, db)
  end.

(** The grant to enrol a device that is not registered. *)
Definition login_grant (a : LoginChallengeAuthority) (rq : LoginFinishRequest) (dw : Draws) (device_id : rstr) (now : Z)
    : option DeviceEnrollmentGrant :=
  let x := a.(la_context) in
  if x.(lc_device_state) =! PendingEnrollment then
    let '(proof, level) := trust_decision rq.(lf_factor) in
    Some {| gr_grant_id := dw.(dw_grant_id); gr_grant_secret_hash := sha256 dw.(dw_grant_secret);
            gr_account_id := a.(la_challenge).(rk_account_id); gr_device_id := device_id;
            gr_device_public_key_fingerprint := x.(lc_device_public_key_fingerprint);
            gr_login_challenge_id := rq.(lf_login_challenge_id);
            gr_login_challenge_binding_hash := x.(lc_login_challenge_binding_hash);
            gr_trust_proof_type := proof; gr_trust_level := level; gr_establish_trust := negb (none rq.(lf_factor));
            gr_protocol_version := rq.(lf_protocol_version); gr_issued_account_session_id := dw.(dw_session_id);
            gr_issued_at := now; gr_expires_at := a.(la_challenge).(rk_expires_at); gr_consumed_at := None;
            gr_registration_request_binding_hash := None; gr_registered_public_key_id := None;
            gr_registered_trusted_device_id := None |}
  else None.

(** The trust in a registered device that proved a factor, which is one of the two
    that [context_valid] lets through. *)
Definition login_new_trust (a : LoginChallengeAuthority) (rq : LoginFinishRequest) (dw : Draws) (device_id : rstr) (now : Z)
    : option TrustedControllerDevice :=
  let x := a.(la_context) in
  if x.(lc_device_state) =! Registered then
    factor ← rq.(lf_factor);
    let '(proof, level) := trust_decision (Some factor) in
    let ttl := if factor =! str "recovery_code" then RECOVERY_TRUST_TTL_MILLIS else TOTP_TRUST_TTL_MILLIS in
    Some {| tr_trusted_device_id := dw.(dw_trusted_device_id); tr_account_id := a.(la_challenge).(rk_account_id);
            tr_controller_device_id := device_id; tr_device_fingerprint_hash := x.(lc_device_public_key_fingerprint);
            tr_trust_level := default [] level; tr_status := TrustActive; tr_trust_proof_type := default [] proof;
            tr_created_at := now; tr_last_used_at := None; tr_expires_at := sat_add 64 now ttl;
            tr_revoked_at := None |}
  else None.

Definition login_audit_entries (x : LoginChallengeContext) (rq : LoginFinishRequest) (account_id device_id : rstr)
    (trust : option TrustedControllerDevice) (request_id : rstr) (dw : Draws) (now : Z) : list AuditEntry :=
  let audit_device := if x.(lc_device_state) =! Registered then Some device_id else None in
  let entry n device action := auth_audit_entry (dw.(dw_audit_id) n) request_id account_id device action None now in
  [entry 0%nat audit_device (str "mfa_challenge_succeeded"); entry 1%nat audit_device (str "login_succeeded")]
  ++ (if none trust then [] else [entry 2%nat (Some device_id) (str "trusted_device_added")])
  ++ (if rq.(lf_factor) =! Some (str "recovery_code")
      then [entry 3%nat audit_device (str "mfa_recovery_code_used")] else []).

Definition login_finish_command (cf : AppConfig) (a : LoginChallengeAuthority) (rq : LoginFinishRequest)
    (device_id request_id : rstr) (challenge_binding : bytes) (dw : Draws) (now : Z)
    : TokenResponse * LoginFinishCommand :=
  let ch := a.(la_challenge) in
  let x := a.(la_context) in
  let mfa_verified := negb (none rq.(lf_factor)) || negb (none x.(lc_trusted_device_id)) in
  let '(tokens, session) := build_token_bundle cf dw ch.(rk_account_id) mfa_verified now in
  let trust := login_new_trust a rq dw device_id now in
  (tokens, {|
    fc_challenge_id := rq.(lf_login_challenge_id); fc_account_id := ch.(rk_account_id);
    fc_account_updated_at := x.(lc_account_updated_at); fc_persistent_device_id := ch.(rk_device_id);
    fc_device_id := device_id; fc_public_key_id := x.(lc_public_key_id);
    fc_public_key_version := x.(lc_public_key_version);
    fc_device_public_key_fingerprint := x.(lc_device_public_key_fingerprint);
    fc_challenge_binding_hash := challenge_binding; fc_required_factors := x.(lc_required_factors);
    fc_factor_kind := rq.(lf_factor); fc_factor_code := rq.(lf_code);
    fc_trusted_device_id_to_use := x.(lc_trusted_device_id); fc_account_session := session;
    fc_enrollment_grant := login_grant a rq dw device_id now; fc_trusted_device_to_create := trust;
    fc_audit_entries := login_audit_entries x rq ch.(rk_account_id) device_id trust request_id dw now;
    fc_failure_audit := auth_failure_audit_entry (dw.(dw_audit_id) 4) request_id ch.(rk_account_id)
      (if x.(lc_device_state) =! Registered then Some x.(lc_device_id) else None) (str "mfa_challenge_failed")
      (Some (str "verification_failed")) now;
    fc_now := now |}).

(** The checks of the request before the challenge is loaded. *)
Definition parse_login_finish (rq : LoginFinishRequest) : result AuthError (bytes * bytes * bytes * bytes) :=
  _ ← validate_protocol_version rq.(lf_protocol_version);
  request_binding ← ok_or (decode_sha256_hex rq.(lf_login_request_binding_hash)) InvalidLoginBinding;
  challenge_binding ← ok_or (decode_sha256_hex rq.(lf_login_challenge_binding_hash)) InvalidLoginBinding;
  client_nonce ← ok_or (decode_array 32 rq.(lf_client_nonce)) InvalidClientNonceError;
  server_nonce ← ok_or (decode_array 32 rq.(lf_server_nonce)) InvalidServerNonceError;
  Ok (request_binding, challenge_binding, client_nonce, server_nonce).

(** The grant is told to the client as its identifier and its secret. *)
Definition grant_token (c : LoginFinishCommand) (dw : Draws) : option (rstr * Z) :=
  g ← c.(fc_enrollment_grant); Some (g.(gr_grant_id) ++ str "." ++ dw.(dw_grant_secret), g.(gr_expires_at)).

(** [now] is the clock at the start, [sig_now] when the signature is checked. [body]
    is the text that [rq] was read from. *)
Definition login_finish (cf : AppConfig) (st : Server) (rq : LoginFinishRequest) (target : rstr) (peer : option IpAddr)
    (headers : HeaderMap) (body : bytes) (request_id : rstr) (dw : Draws) (now sig_now : Z)
    : result AuthError (TokenResponse * option (rstr * Z)) * Server :=
  let reject st (ch : RiskChallenge) challenge_binding e :=
    match reject_login_attempt st.(sv_db) ch challenge_binding (dw.(dw_audit_id) 5) request_id now with
    | (Err e', db) => (Err e', set_db st db)
    | (Ok _, db) => (Err e, set_db st db)
    end in
  match parse_login_finish rq with
  | Err e => (Err e, st)
  | Ok (request_binding, challenge_binding, client_nonce, server_nonce) =>
      match load_login_challenge_authority st.(sv_db) rq.(lf_login_challenge_id) with
      | None => (Err login_verification_error, st)
      | Some a =>
          let ch := a.(la_challenge) in
          if (ch.(rk_purpose) ≠! str "login_mfa") || (ch.(rk_operation_binding_hash) ≠! challenge_binding)
          then (Err login_verification_error, st)
          else if negb (context_valid st.(sv_db) a rq request_binding challenge_binding client_nonce server_nonce
                          peer headers)
          then reject st ch challenge_binding login_verification_error
          else
            let '(verified, eph) := verify_login_device_signature st.(sv_eph) ch.(rk_account_id) a.(la_context) target
                                      headers body request_id sig_now in
            let st := set_eph st eph in
            match verified, required_header headers (str "x-rctl-device-id") with
            | Err e, _ => reject st ch challenge_binding e
            | Ok _, Err e => (Err (AuthRequest e), st)
            | Ok _, Ok device_id =>
                let '(tokens, command) := login_finish_command cf a rq device_id request_id challenge_binding dw now in
                match finish_login st.(sv_db) command with
                | (Err Conflict, db) => (Err login_verification_error, set_db st db)
                | (Err Unavailable, db) => (Err AuthInternal, set_db st db)
                | (Ok LoginCompleted, db) => (Ok (tokens, grant_token command dw), set_db st db)
                | (Ok InvalidFactor, db) | (Ok LoginRejected, db) => (Err login_verification_error, set_db st db)
                | (Ok _, db) => reject (set_db st db) ch challenge_binding login_verification_error
                end
            end
      end
  end.

(** ** Refresh, logout, password *)

Definition refresh (cf : AppConfig) (st : Server) (refresh_token request_id : rstr) (dw : Draws) (now : Z)
    : result AuthError TokenResponse * Server :=
  let token_hash := sha256 refresh_token in
  match load_refresh_session_authority st.(sv_db) token_hash now with
  | None => (Err (AuthRequest Unauthorized), st)
  | Some matched =>
      let '(response, replacement) := build_token_bundle cf dw matched.(as_account_id) matched.(as_mfa_verified) now in
      match rotate_refresh_session st.(sv_db) token_hash replacement
              (auth_audit_entry (dw.(dw_audit_id) 0) request_id matched.(as_account_id) None (str "token_refreshed")
                 None now) now with
      | (Err _, db) => (Err AuthInternal, set_db st db)
      | (Ok true, db) => (Ok response, set_db st db)
      | (Ok false, db) => (Err (AuthRequest Unauthorized), set_db st db)
      end
  end.

Definition logout (cf : AppConfig) (st : Server) (headers : HeaderMap) (request_id : rstr) (dw : Draws) (auth_now now : Z)
    : result AuthError unit * Server :=
  match authenticate cf st.(sv_db) headers auth_now with
  | Err e => (Err (AuthRequest e), st)
  | Ok claims =>
      match revoke_account_session st.(sv_db) claims.(acl_account_session_id) claims.(acl_account_id) now
              (auth_audit_entry (dw.(dw_audit_id) 0) request_id claims.(acl_account_id) None (str "logout") None now) with
      | (Err _, db) => (Err AuthInternal, set_db st db)
      | (Ok _, db) => (Ok tt, set_db st db)
      end
  end.

(** The checks of a password change; the token is checked against the database [db], the
    account is read from [db'] afterwards. *)
Definition change_password_checks (cf : AppConfig) (db db' : AccountDb) (rq : ChangePasswordRequest) (r : HttpRequest)
    (dw : Draws) (now step_now : Z) : result AuthError (AccessClaims * Account * StepUpExpectation * rstr) :=
  claims ← map_err AuthRequest (authenticate cf db r.(hr_headers) now);
  _ ← validate_password rq.(cq_new_password);
  _ ← ensure (rq.(cq_current_password) ≠! rq.(cq_new_password)) PasswordUnchanged;
  account ← ok_or (account ← db'.(accounts) !! claims.(acl_account_id);
                   if account.(ac_status) =! AccountActive then Some account else None)
              (AuthRequest Unauthorized);
  _ ← ensure (verify_password account.(ac_password_hash) rq.(cq_current_password)) InvalidCurrentPassword;
  step_up ← map_err AuthRequest
              (validate_step_up_for_request cf claims r None (str "password_change") step_now);
  new_password_hash ← ok_or (hash_password dw.(dw_salt) rq.(cq_new_password)) AuthInternal;
  Ok (claims, account, step_up, new_password_hash).

Definition password_entry (claims : AccessClaims) (step_up : StepUpExpectation) (r : HttpRequest) (dw : Draws)
    : AuditEntry := {|
  au_audit_id := dw.(dw_audit_id) 0; au_actor_type := str "account";
  au_actor_account_id := Some claims.(acl_account_id); au_actor_device_id := None; au_actor_role := None;
  au_actor_service := None; au_target_device_id := Some step_up.(sx_device_id); au_session_id := None;
  au_action := str "password_changed"; au_result := str "success"; au_reason := None;
  au_metadata := {[str "risk_challenge_id" := VString step_up.(sx_challenge_id)]}; au_request_id := r.(hr_request_id);
  au_created_at := step_up.(sx_now) |}.

(** [now] is the clock when the token is checked, [step_now] when the step-up token
    is. The copy of the challenge in the short-lived state is consumed by a task of
    its own. *)
Definition change_password (cf : AppConfig) (st : Server) (rq : ChangePasswordRequest) (r : HttpRequest) (dw : Draws)
    (now step_now : Z) : result AuthError StepUpExpectation * Server :=
  match change_password_checks cf st.(sv_db) st.(sv_db) rq r dw now step_now with
  | Err e => (Err e, st)
  | Ok (claims, account, step_up, new_password_hash) =>
      match apply_step_up_action st.(sv_db) step_up
              (ChangePassword account.(ac_password_hash) new_password_hash (password_entry claims step_up r dw)) with
      | (Err Conflict, db) => (Err PasswordChangeConflict, set_db st db)
      | (Err Unavailable, db) => (Err AuthInternal, set_db st db)
      | (Ok _, db) => (Ok step_up, set_db st db)
      end
  end.
End routes.

(** ** The routes as runs of the operations *)

Section refinement.
Context `{P : Primitives} `{F : FactorCrypto} `{T : ApiText} `{A : AuthText} (cf : AppConfig) (late : bool).

(** One transaction on the database, one change of the short-lived state or one entry of
    the log: the pieces of which the routes are made, between which other requests run.
    What a route has read comes from databases [seen] at some earlier time. Registration
    draws an identifier that no account has; its first session is issued later, without
    a second factor, whatever has become of the account, unless enrolments do not
    overtake registrations ([late] is [false]). *)
Inductive server_step : Server → Server → Prop :=
| srv_register st rq dw now account :
    registering rq dw now = Ok account → st.(sv_db).(accounts) !! dw.(dw_account_id) = None →
    server_step st (set_db st (insert_account st.(sv_db) account).2)
| srv_issue st dw account_id now :
    is_Some (st.(sv_db).(accounts) !! account_id) → late = true ∨ mfa_enabled st.(sv_db) account_id = false →
    server_step st (set_db st (issue_tokens cf st.(sv_db) dw account_id false now).2)
| srv_entry st e : clean e → server_step st (set_db st (extend_audit st.(sv_db) [e]))
| srv_ephemeral st eph : server_step st (set_eph st eph)
| srv_login seen seen' seen'' st rq peer headers request_id dw now key client_nonce email ac device :
    parse_login rq = Ok (key, client_nonce, email) → load_account_by_email seen email = Some ac →
    ac.(ac_status) = AccountActive → verify_password ac.(ac_password_hash) rq.(lq_password) = true →
    login_identity seen' ac.(ac_account_id) rq key = Some device →
    let authority := issue_login_challenge cf seen'' rq ac device client_nonce peer headers request_id dw now in
    server_step st (set_db st (create_login_challenge st.(sv_db) authority
      (auth_audit_entry (dw.(dw_audit_id) 0) request_id ac.(ac_account_id) authority.(la_challenge).(rk_device_id)
         (str "mfa_challenge_issued") None now)).2)
| srv_login_finish seen seen' st rq target peer headers body request_id dw now sig_now rb cb cn sn a nonce device_id :
    parse_login_finish rq = Ok (rb, cb, cn, sn) →
    load_login_challenge_authority seen rq.(lf_login_challenge_id) = Some a →
    context_valid seen' a rq rb cb cn sn peer headers = true →
    login_signature_checks a.(la_challenge).(rk_account_id) a.(la_context) target headers body request_id sig_now
      = Ok nonce →
    required_header headers (str "x-rctl-device-id") = Ok device_id →
    server_step st (set_db st
      (finish_login st.(sv_db) (login_finish_command cf a rq device_id request_id cb dw now).2).2)
| srv_login_reject st ch cb audit_id request_id now :
    server_step st (set_db st (reject_login_attempt st.(sv_db) ch cb audit_id request_id now).2)
| srv_refresh seen st token matched request_id dw now :
    load_refresh_session_authority seen (sha256 token) now = Some matched →
    server_step st (set_db st (rotate_refresh_session st.(sv_db) (sha256 token)
      (build_token_bundle cf dw matched.(as_account_id) matched.(as_mfa_verified) now).2
      (auth_audit_entry (dw.(dw_audit_id) 0) request_id matched.(as_account_id) None (str "token_refreshed") None now)
      now).2)
| srv_logout seen st headers claims request_id dw auth_now now :
    authenticate cf seen headers auth_now = Ok claims →
    server_step st (set_db st (revoke_account_session st.(sv_db) claims.(acl_account_session_id) claims.(acl_account_id)
      now (auth_audit_entry (dw.(dw_audit_id) 0) request_id claims.(acl_account_id) None (str "logout") None now)).2)
| srv_change_password seen seen' st rq r dw now step_now claims account step_up hash :
    change_password_checks cf seen seen' rq r dw now step_now = Ok (claims, account, step_up, hash) →
    server_step st (set_db st (apply_step_up_action st.(sv_db) step_up
      (ChangePassword account.(ac_password_hash) hash (password_entry claims step_up r dw))).2).

Lemma op_moved late' db o : op_fresh db o → late' = true ∨ settled db o → rtc (moved late') db (perform db o).2.
Proof. intros. by apply rtc_once, moved_op. Qed.

(** The entries that the routes write carry no metadata of registrations. *)
Lemma auth_entry_clean id rid account device action reason now :
  clean (auth_audit_entry id rid account device action reason now).
Proof. reflexivity. Qed.

Lemma auth_failure_clean id rid account device action reason now :
  clean (auth_failure_audit_entry id rid account device action reason now).
Proof. reflexivity. Qed.

Lemma anonymous_clean id rid action r reason now : clean (anonymous_audit id rid action r reason now).
Proof. reflexivity. Qed.

Lemma login_entries_clean x rq account device trust rid dw now :
  Forall clean (login_audit_entries x rq account device trust rid dw now).
Proof.
  unfold login_audit_entries. rewrite !Forall_app. split_and!; [by repeat constructor|by destruct (none trust); repeat constructor|].
  destruct (_ =! _); by repeat constructor.
Qed.

(** An operation with one entry, which draws nothing at random. *)
Lemma single_fresh e (Q : Prop) (q : Q) : clean e → Forall clean [e] ∧ Q.
Proof. intros He. split; [by apply Forall_singleton|done]. Qed.

Lemma login_command_clean a rq device_id request_id b dw now :
  let c := (login_finish_command cf a rq device_id request_id b dw now).2 in
  Forall clean (c.(fc_failure_audit) :: c.(fc_audit_entries)).
Proof. apply Forall_cons. split; [apply auth_failure_clean|apply login_entries_clean]. Qed.

Lemma password_entry_clean claims x r dw : clean (password_entry claims x r dw).
Proof. unfold clean, password_entry. cbn [au_metadata]. by other_key. Qed.

Lemma issue_tokens_issues db dw account_id verified now :
  (issue_tokens cf db dw account_id verified now).2
  = (insert_account_session db (build_token_bundle cf dw account_id verified now).2).2.
Proof.
  unfold issue_tokens. destruct (build_token_bundle _ _ _ _ _) as [response s]. cbn [snd].
  by destruct (insert_account_session db s) as [[]].
Qed.

Lemma reject_rejects db ch b i id now :
  (reject_login_attempt db ch b i id now).2
  = (reject_login_challenge db ch.(rk_risk_challenge_id) b now (auth_failure_audit_entry i id ch.(rk_account_id)
       ch.(rk_device_id) (str "mfa_challenge_failed") (Some (str "verification_failed")) now)).2.
Proof. unfold reject_login_attempt. by destruct (reject_login_challenge _ _ _ _ _) as [[]]. Qed.

(** Every piece is an operation of the repository. *)
Lemma server_step_refines st st' : server_step st st' → rtc (moved late) st.(sv_db) st'.(sv_db).
Proof.
  destruct 1; cbn [set_db set_eph sv_db]; try (by constructor).
  - apply (op_moved late st.(sv_db) (DoRegister account)); [|by right]. split; [constructor|].
    unfold registering in H. by invert_ok.
  - rewrite issue_tokens_issues. apply (op_moved late st.(sv_db) (DoIssue _)); [|done]. split; [constructor|done].
  - apply rtc_once. unfold extend_audit. apply moved_core with [e]; [done..|]. by apply Forall_singleton.
  - apply (op_moved late st.(sv_db) (DoCreateLogin _ _)); [|by right]. by apply single_fresh, auth_entry_clean.
  - apply (op_moved late st.(sv_db) (DoFinishLogin _)); [|by right]. split; [apply login_command_clean|exact I].
  - rewrite reject_rejects. apply (op_moved late st.(sv_db) (DoRejectLogin _ _ _ _)); [|by right].
    by apply single_fresh, auth_failure_clean.
  - apply (op_moved late st.(sv_db) (DoRotate _ _ _ _)); [|by right]. by apply single_fresh, auth_entry_clean.
  - apply (op_moved late st.(sv_db) (DoRevoke _ _ _ _)); [|by right]. by apply single_fresh, auth_entry_clean.
  - apply (op_moved late st.(sv_db) (DoStepUp _ _)); [|by right]. by apply single_fresh, password_entry_clean.
Qed.

(** *** The routes are made of the pieces *)

Lemma extend_audit_nil db : extend_audit db [] = db.
Proof.
  destruct db. unfold extend_audit, set_core. cbn. f_equal. match goal with c : Database |- _ => destruct c end.
  cbn. by rewrite app_nil_r.
Qed.

Lemma entries_run st es : Forall clean es → rtc server_step st (set_db st (extend_audit st.(sv_db) es)).
Proof.
  revert st. induction es as [|e es IH]; intros st He.
  - destruct st as [db eph]. unfold set_db. cbn. by rewrite extend_audit_nil.
  - apply Forall_cons in He as [He Hes]. eapply rtc_l; [by apply (srv_entry st e)|].
    replace (set_db st (extend_audit (sv_db st) (e :: es)))
      with (set_db (set_db st (extend_audit (sv_db st) [e])) (extend_audit (extend_audit (sv_db st) [e]) es))
      by (by rewrite extend_audit_app). by apply IH.
Qed.

Lemma register_runs st rq request_id dw now token_now audit_now :
  st.(sv_db).(accounts) !! dw.(dw_account_id) = None →
  late = true ∨ mfa_enabled st.(sv_db) dw.(dw_account_id) = false →
  rtc server_step st (register_account cf st rq request_id dw now token_now audit_now).2.
Proof.
  intros Hn Hl. unfold register_account. destruct (registering rq dw now) as [account|] eqn:E; [|done].
  pose proof (srv_register st rq dw now account E Hn) as H1.
  destruct (insert_account st.(sv_db) account) as [[[]|e] db] eqn:Ei; [|destruct e; by apply rtc_once]. cbn in H1.
  eapply rtc_l; [exact H1|].
  assert (Hid : account.(ac_account_id) = dw.(dw_account_id)) by (unfold registering in E; by invert_ok).
  unfold insert_account in Ei. destruct (bool_decide _); [done|]. injection Ei as <-.
  match goal with |- context [issue_tokens cf ?d _ _ _ _] => set (db1 := d) in * end.
  assert (H2 : server_step (set_db st db1) (set_db (set_db st db1)
    (issue_tokens cf db1 dw dw.(dw_account_id) false token_now).2)).
  { apply (srv_issue (set_db st db1)); cbn [set_db sv_db]; [|by destruct Hl; [left|right]].
    subst db1. cbn. rewrite Hid, lookup_insert_eq. by eexists. }
  destruct (issue_tokens cf db1 dw dw.(dw_account_id) false token_now) as [[response|] db2]; [|by apply rtc_once].
  eapply rtc_l; [exact H2|]. apply (entries_run (set_db st db2)). by apply Forall_singleton, auth_entry_clean.
Qed.

Lemma refuse_runs st key account request_id dw now :
  rtc server_step st (refuse_login st key account request_id dw now).
Proof.
  unfold refuse_login. destruct (record_login_failure _ _ _ _ _ _) as [failure eph].
  eapply rtc_l; [apply (srv_ephemeral st eph)|]. apply (entries_run (set_eph st eph)). rewrite Forall_app.
  split; [case_match; [|done]|]. all: apply Forall_singleton, anonymous_clean.
Qed.

Lemma login_runs st rq peer headers request_id dw now failed_now :
  rtc server_step st (login cf st rq peer headers request_id dw now failed_now).2.
Proof.
  unfold login. destruct (parse_login rq) as [[[key nonce] email]|] eqn:Ep; [|done].
  destruct (login_failure_state _ _ _) as [failures eph].
  eapply rtc_l; [apply (srv_ephemeral st eph)|].
  destruct (load_account_by_email _ _) as [ac|] eqn:Ea; [|apply refuse_runs].
  destruct (_ && _) eqn:Ev; [|apply refuse_runs]. split_bools.
  eapply rtc_l; [apply (srv_ephemeral (set_eph st eph)
    (clear_login_failures (sv_eph (set_eph st eph)) (login_failure_key (Some ac) email)))|].
  destruct (login_identity _ _ _ _) as [device|] eqn:Ed; [|done].
  match goal with |- context [create_login_challenge ?db ?a ?e] =>
    pose proof (srv_login st.(sv_db) st.(sv_db) st.(sv_db)
      (set_eph (set_eph st eph) (clear_login_failures (sv_eph (set_eph st eph)) (login_failure_key (Some ac) email)))
      rq peer headers request_id dw now key nonce email ac device Ep Ea) as Hs;
    destruct (create_login_challenge db a e) as [[]] eqn:Ec end.
  all: specialize (Hs ltac:(done) ltac:(done) Ed); cbn zeta in Hs; cbn [set_eph sv_db] in Hs, Ec; rewrite Ec in Hs.
  - eapply rtc_l; [exact Hs|]. by apply rtc_once, (srv_ephemeral (set_db _ _)).
  - by apply rtc_once.
Qed.

Lemma reject_runs st ch b i id now e :
  rtc server_step st (match reject_login_attempt st.(sv_db) ch b i id now with
     | (Ok _, db) => (Err (T := TokenResponse * option (rstr * Z)) e, set_db st db)
     | (Err e', db) => (Err e', set_db st db)
     end).2.
Proof.
  pose proof (srv_login_reject st ch b i id now) as H.
  destruct (reject_login_attempt _ _ _ _ _ _) as [[] db]; by apply rtc_once.
Qed.

Lemma login_finish_runs st rq target peer headers body request_id dw now sig_now :
  rtc server_step st (login_finish cf st rq target peer headers body request_id dw now sig_now).2.
Proof.
  unfold login_finish. destruct (parse_login_finish rq) as [[[[rb cb] cn] sn]|] eqn:Ep; [|done].
  destruct (load_login_challenge_authority _ _) as [a|] eqn:Ea; [|done].
  destruct (_ || _); [done|]. destruct (negb _) eqn:Ec; [apply reject_runs|]. apply negb_false_iff in Ec.
  destruct (verify_login_device_signature _ _ _ _ _ _ _ _) as [v eph] eqn:Ev.
  eapply rtc_l; [apply (srv_ephemeral st eph)|]. destruct v as [[]|]; [|apply reject_runs].
  destruct (required_header _ _) as [device_id|] eqn:Eh; [|done].
  unfold verify_login_device_signature in Ev. destruct (login_signature_checks _ _ _ _ _ _ _) as [n|] eqn:En; [|done].
  pose proof (srv_login_finish st.(sv_db) st.(sv_db) (set_eph st eph) rq target peer headers body request_id dw now sig_now
    rb cb cn sn a n device_id Ep Ea Ec En Eh) as Hs.
  destruct (login_finish_command _ _ _ _ _ _ _ _) as [tokens c]. cbn [set_eph sv_db snd] in *.
  destruct (finish_login st.(sv_db) c) as [[[]|[]] db]; try (by apply rtc_once).
  all: eapply rtc_l; [exact Hs|]; apply (reject_runs (set_db (set_eph st eph) db)).
Qed.

Lemma refresh_runs st token request_id dw now : rtc server_step st (refresh cf st token request_id dw now).2.
Proof.
  unfold refresh. destruct (load_refresh_session_authority _ _ _) as [matched|] eqn:E; [|done].
  pose proof (srv_refresh st.(sv_db) st token matched request_id dw now E) as Hs.
  destruct (build_token_bundle _ _ _ _ _) as [response s]. cbn [snd] in Hs.
  destruct (rotate_refresh_session _ _ _ _ _) as [[[]|] db]; by apply rtc_once.
Qed.

Lemma logout_runs st headers request_id dw auth_now now :
  rtc server_step st (logout cf st headers request_id dw auth_now now).2.
Proof.
  unfold logout. destruct (authenticate _ _ _ _) as [cl|] eqn:E; [|done].
  pose proof (srv_logout st.(sv_db) st headers cl request_id dw auth_now now E) as Hs.
  destruct (revoke_account_session _ _ _ _ _) as [[] db]; by apply rtc_once.
Qed.

Lemma change_password_runs st rq r dw now step_now :
  rtc server_step st (change_password cf st rq r dw now step_now).2.
Proof.
  unfold change_password. destruct (change_password_checks _ _ _ _ _ _ _ _) as [[[[cl ac] x] h]|] eqn:E; [|done].
  pose proof (srv_change_password st.(sv_db) st.(sv_db) st rq r dw now step_now cl ac x h E) as Hs.
  destruct (apply_step_up_action _ _ _) as [[|[]] db]; by apply rtc_once.
Qed.

Lemma server_steps_refine st st' : rtc server_step st st' → rtc (moved late) st.(sv_db) st'.(sv_db).
Proof. induction 1 as [|st st1 st2 H1 _ IH]; [done|]. etrans; [by apply server_step_refines|done]. Qed.

(** Whatever requests the routes answer, their pieces interleaved in whatever order and
    with whatever failures, the database has run through the operations of the
    repository, and a session in use of an account claims a second factor only when the
    account has one, and exactly then if no enrolment overtook a registration. *)
Theorem routes_refine_operations st st' :
  rtc server_step st st' →
  rtc account_step st.(sv_db) st'.(sv_db)
  ∧ (st.(sv_db) = empty_accounts →
     ∀ id account now s, account_session_active st'.(sv_db) id account now = true →
       st'.(sv_db).(account_sessions) !! id = Some s →
       truthful late s.(as_mfa_verified) (mfa_enabled st'.(sv_db) account)).
Proof.
  intros H%server_steps_refine. split; [by eapply moved_steps|]. intros He id account now s. rewrite He in H.
  by apply live_session_factor.
Qed.
End refinement.

(** ** A login from end to end *)

(** A client, a server and an account between which a login takes place, on a device
    that the server does not know. *)
Record LoginScene := {
  sn_config : AppConfig;
  sn_server : Server;
  sn_account : Account;
  sn_request : LoginRequest;
  sn_email : rstr;
  sn_private_key : bytes;
  sn_client_nonce : bytes;
  sn_peer : option IpAddr;
  sn_headers : HeaderMap;
  sn_request_id : rstr;
  sn_draws : Draws;
  sn_now : Z;
  sn_failed_now : Z;
  (** the second step *)
  sn_factor : option (rstr * rstr);
  sn_finish_request_id : rstr;
  sn_finish_draws : Draws;
  sn_finish_now : Z;
  sn_sig_now : Z;
  sn_timestamp : rstr;
  sn_timestamp_value : Z;
  sn_nonce : rstr;
  sn_body : bytes;
  sn_body_hash : bytes;
  sn_canonical : bytes }.

Section end_to_end.
Context `{P : Primitives} `{F : FactorCrypto} `{T : ApiText} `{A : AuthText}.

#[local] Arguments is_blank : simpl never.
#[local] Arguments checked_sub : simpl never.

Definition finish_target : rstr := str "/v1/auth/login/finish".

(** What the client sends after the answer to its password. *)
Definition client_finish (sn : LoginScene) (x : LoginAnswer) : LoginFinishRequest := {|
  lf_login_challenge_id := x.(lx_login_challenge_id);
  lf_login_request_binding_hash := x.(lx_login_request_binding_hash);
  lf_login_challenge_binding_hash := x.(lx_login_challenge_binding_hash);
  lf_client_nonce := sn.(sn_request).(lq_client_nonce); lf_server_nonce := x.(lx_server_nonce);
  lf_factor := fst <$> sn.(sn_factor); lf_code := snd <$> sn.(sn_factor);
  lf_protocol_version := sn.(sn_request).(lq_protocol_version) |}.

Definition client_headers (sn : LoginScene) : HeaderMap :=
  <[str "x-rctl-device-id" := sn.(sn_request).(lq_device_id)]>
  (<[str "x-rctl-timestamp" := sn.(sn_timestamp)]>
  (<[str "x-rctl-api-nonce" := sn.(sn_nonce)]>
  (<[str "x-rctl-device-signature" := b64url_text (ed25519_sign sn.(sn_private_key) (sha256 sn.(sn_canonical)))]>
   sn.(sn_headers)))).

(** The request is well formed, the password is right, the account is not locked. *)
Definition password_right (sn : LoginScene) : Prop :=
  let rq := sn.(sn_request) in
  let ac := sn.(sn_account) in
  let db := sn.(sn_server).(sv_db) in
  parse_login rq = Ok (ed25519_public sn.(sn_private_key), sn.(sn_client_nonce), sn.(sn_email))
  ∧ load_account_by_email db sn.(sn_email) = Some ac ∧ db.(accounts) !! ac.(ac_account_id) = Some ac
  ∧ ac.(ac_status) = AccountActive ∧ ac.(ac_account_id) ≠ []
  ∧ is_locked_at (login_failure_state sn.(sn_server).(sv_eph) (login_failure_key (Some ac) sn.(sn_email)) sn.(sn_now)).1
      sn.(sn_now) = false
  ∧ verify_password ac.(ac_password_hash) rq.(lq_password) = true
  ∧ db.(core).(db_devices) !! rq.(lq_device_id) = None ∧ rq.(lq_public_key_id) = None
  ∧ rq.(lq_public_key_version) = 0.

(** Configuration and clock. *)
Definition times_right (sn : LoginScene) : Prop :=
  let cf := sn.(sn_config) in
  0 < cf.(cf_challenge_ttl_seconds) ≤ 300 ∧ 0 < cf.(cf_challenge_attempts) ≤ 5 ∧ 0 < cf.(cf_refresh_ttl_seconds)
  ∧ 0 ≤ sn.(sn_now) ≤ sn.(sn_finish_now) ∧ sn.(sn_finish_now) < sn.(sn_now) + cf.(cf_challenge_ttl_seconds) * 1000
  ∧ sn.(sn_now) < 2 ^ 62.

(** What is drawn is new. *)
Definition draws_right (sn : LoginScene) : Prop :=
  let db := sn.(sn_server).(sv_db) in
  let dw := sn.(sn_draws) in
  let df := sn.(sn_finish_draws) in
  let ids := dw.(dw_audit_id) 0 :: (df.(dw_audit_id) <$> [0; 1; 2; 3; 4]%nat) in
  dw.(dw_challenge_id) ≠ [] ∧ length dw.(dw_server_nonce) = 32%nat
  ∧ db.(risk_challenges) !! dw.(dw_challenge_id) = None
  ∧ db.(login_challenge_contexts) !! dw.(dw_challenge_id) = None
  ∧ df.(dw_session_id) ≠ [] ∧ db.(account_sessions) !! df.(dw_session_id) = None
  ∧ is_blank df.(dw_grant_id) = false ∧ db.(device_enrollment_grants) !! df.(dw_grant_id) = None
  ∧ NoDup ids ∧ Forall (λ i, is_blank i = false ∧ has_audit db.(core) i = false) ids.

(** The client signs its second request with the key of the device. *)
Definition signature_right (sn : LoginScene) : Prop :=
  let rq := sn.(sn_request) in
  parse_u64 sn.(sn_timestamp) = Some sn.(sn_timestamp_value)
  ∧ sn.(sn_timestamp) ≠ [] ∧ sn.(sn_nonce) ≠ [] ∧ rq.(lq_device_id) ≠ []
  ∧ abs_diff sn.(sn_sig_now) sn.(sn_timestamp_value) ≤ 30000
  ∧ canonical_request_body_hash sn.(sn_body) (sn.(sn_headers) !! str "content-type") = Some sn.(sn_body_hash)
  ∧ canonical_api_request_bytes (str "POST") finish_target sn.(sn_body_hash) sn.(sn_finish_request_id)
      rq.(lq_device_id) sn.(sn_account).(ac_account_id) sn.(sn_timestamp_value) sn.(sn_nonce) = Ok sn.(sn_canonical)
  ∧ sn.(sn_server).(sv_eph).(nonces)
      !! login_nonce_key sn.(sn_account).(ac_account_id) rq.(lq_device_id) sn.(sn_nonce) = None.

(** The second factor, if the account has one: a code that is good now. *)
Definition factor_right (sn : LoginScene) : Prop :=
  let db := sn.(sn_server).(sv_db) in
  let account_id := sn.(sn_account).(ac_account_id) in
  match sn.(sn_factor) with
  | None => mfa_enabled db account_id = false
  | Some (kind, code) =>
      mfa_enabled db account_id = true ∧ (kind = str "totp" ∨ kind = str "recovery_code") ∧ code ≠ []
      ∧ (try_factor db account_id kind code sn.(sn_finish_now)).1 = true
  end.

(** The challenge of the scene. *)
Definition scene_authority (sn : LoginScene) : LoginChallengeAuthority :=
  issue_login_challenge sn.(sn_config) sn.(sn_server).(sv_db) sn.(sn_request) sn.(sn_account)
    (PendingEnrollment, None, 0, ed25519_public sn.(sn_private_key)) sn.(sn_client_nonce) sn.(sn_peer) sn.(sn_headers)
    sn.(sn_request_id) sn.(sn_draws) sn.(sn_now).

Definition scene_login_audit (sn : LoginScene) : AuditEntry :=
  auth_audit_entry (sn.(sn_draws).(dw_audit_id) 0) sn.(sn_request_id) sn.(sn_account).(ac_account_id) None
    (str "mfa_challenge_issued") None sn.(sn_now).

Definition scene_methods (sn : LoginScene) : list rstr :=
  if mfa_enabled sn.(sn_server).(sv_db) sn.(sn_account).(ac_account_id) then [str "totp"; str "recovery_code"] else [].

(** The fields of the challenge, in one place. *)
Record scene_facts (sn : LoginScene) (ch : RiskChallenge) (x : LoginChallengeContext) (binding : bytes) : Prop := {
  sf_id : ch.(rk_risk_challenge_id) = sn.(sn_draws).(dw_challenge_id);
  sf_account : ch.(rk_account_id) = sn.(sn_account).(ac_account_id);
  sf_device : ch.(rk_device_id) = None;
  sf_purpose : ch.(rk_purpose) = str "login_mfa";
  sf_binding : ch.(rk_operation_binding_hash) = binding;
  sf_methods : ch.(rk_required_methods) = scene_methods sn;
  sf_status : ch.(rk_status) = RIssued;
  sf_attempts : ch.(rk_attempts_remaining) = sn.(sn_config).(cf_challenge_attempts);
  sf_expires : ch.(rk_expires_at) = sn.(sn_now) + sn.(sn_config).(cf_challenge_ttl_seconds) * 1000;
  sf_created : ch.(rk_created_at) = sn.(sn_now);
  sx_state : x.(lc_device_state) = PendingEnrollment;
  sx_device : x.(lc_device_id) = sn.(sn_request).(lq_device_id);
  sx_updated : x.(lc_account_updated_at) = sn.(sn_account).(ac_updated_at);
  sx_key : x.(lc_device_public_key) = ed25519_public sn.(sn_private_key);
  sx_fingerprint : x.(lc_device_public_key_fingerprint) = sha256 (ed25519_public sn.(sn_private_key));
  sx_key_id : x.(lc_public_key_id) = None;
  sx_version : x.(lc_public_key_version) = 0;
  sx_client_nonce : x.(lc_client_nonce) = sn.(sn_client_nonce);
  sx_server_nonce : x.(lc_server_nonce) = sn.(sn_draws).(dw_server_nonce);
  sx_binding : x.(lc_login_challenge_binding_hash) = binding;
  sx_request_binding : length x.(lc_login_request_binding_hash) = 32%nat;
  sx_methods : x.(lc_required_factors) = scene_methods sn;
  sx_trusted : x.(lc_trusted_device_id) = None;
  sx_protocol : x.(lc_protocol_version) = PROTOCOL_VERSION;
  sx_issued : x.(lc_issued_at) = sn.(sn_now);
  sx_limit : x.(lc_attempts_limit) = sn.(sn_config).(cf_challenge_attempts);
  sx_ip : x.(lc_ip_address_hash) = login_ip_address_hash sn.(sn_peer);
  sx_agent : x.(lc_user_agent_hash) = login_user_agent_hash (sanitized_user_agent sn.(sn_headers));
  sx_recomputed : login_challenge_binding_hash ch.(rk_risk_challenge_id) ch.(rk_account_id)
    x.(lc_account_updated_at) x.(lc_login_request_binding_hash) x.(lc_device_id)
    (login_device_state_name x.(lc_device_state)) x.(lc_device_public_key_fingerprint) x.(lc_client_nonce)
    x.(lc_server_nonce) x.(lc_ip_address_hash) x.(lc_user_agent_hash)
    (if x.(lc_required_factors) =! [] then str "allow" else str "require_mfa") x.(lc_required_factors)
    x.(lc_issued_at) ch.(rk_expires_at) x.(lc_attempts_limit) = binding;
  sx_length : length binding = 32%nat }.

Lemma parse_login_version rq k n e : parse_login rq = Ok (k, n, e) → rq.(lq_protocol_version) = PROTOCOL_VERSION.
Proof. unfold parse_login, validate_protocol_version. intros H. by invert_ok. Qed.

Lemma scene_challenge `{!PrimitiveLaws P} sn :
  password_right sn → times_right sn →
  scene_facts sn (scene_authority sn).(la_challenge) (scene_authority sn).(la_context)
    (scene_authority sn).(la_challenge).(rk_operation_binding_hash).
Proof.
  intros (Hp & _) (Httl & _ & _ & Hnow & _ & Hmax). apply parse_login_version in Hp.
  assert (Ht : (if mfa_enabled (sv_db (sn_server sn)) (ac_account_id (sn_account sn))
                   && (PendingEnrollment =! Registered)
                then usable_trust (sv_db (sn_server sn)) (ac_account_id (sn_account sn)) (lq_device_id (sn_request sn))
                       (sha256 (ed25519_public (sn_private_key sn))) (sn_now sn) else None) = None).
  { by rewrite (bool_decide_eq_false_2 (PendingEnrollment = Registered)), andb_false_r by done. }
  assert (He : sat_add 64 sn.(sn_now) (sn.(sn_config).(cf_challenge_ttl_seconds) * 1000)
               = sn.(sn_now) + sn.(sn_config).(cf_challenge_ttl_seconds) * 1000) by (apply sat_add_small; lia).
  unfold scene_authority, issue_login_challenge. cbn zeta. rewrite Ht, He. cbn [none]. rewrite andb_true_r.
  fold (scene_methods sn). split; cbn; try done; apply sha256_length.
Qed.

Lemma scene_methods_valid sn : risk_challenge_required_methods_are_valid (str "login_mfa") (scene_methods sn) = true.
Proof. unfold scene_methods. by destruct (mfa_enabled _ _). Qed.

Lemma checked_ttl n t : 0 < t ≤ 300000 → (match checked_sub (n + t) n with
  | Some ttl => (0 <? ttl) && (ttl <=? 300000) | None => false end) = true.
Proof.
  intros Ht. unfold checked_sub. rewrite (proj2 (Z.leb_le n (n + t))) by lia.
  apply andb_true_iff. rewrite Z.ltb_lt, Z.leb_le. lia.
Qed.

Lemma scene_authority_valid sn a b :
  scene_facts sn a.(la_challenge) a.(la_context) b → password_right sn → times_right sn → signature_right sn →
  validate_login_challenge_authority a = true.
Proof.
  intros [] (_ & _ & _ & _ & Hid & _) (Httl & Hatt & _) (_ & _ & _ & Hdev & _).
  unfold validate_login_challenge_authority, expected_persistent_device_id.
  rewrite sf_purpose0, sf_methods0, scene_methods_valid, sf_status0, sf_device0, sx_state0, sf_account0, sx_device0,
    sx_key_id0, sx_version0, sx_protocol0, sx_limit0, sf_attempts0, sx_methods0, sf_created0, sx_issued0, sf_expires0,
    sx_key0, sx_fingerprint0, sf_binding0, sx_binding0.
  rewrite checked_ttl by lia. cbn [none andb]. guards.
Qed.

(** The answer to the password, and what it leaves. *)
Definition scene_logged (sn : LoginScene) : AccountDb :=
  let db := sn.(sn_server).(sv_db) in
  let a := scene_authority sn in
  extend_audit (set_login_contexts
    (set_risk_challenges db (<[sn.(sn_draws).(dw_challenge_id) := a.(la_challenge)]> db.(risk_challenges)))
    (<[sn.(sn_draws).(dw_challenge_id) := a.(la_context)]> db.(login_challenge_contexts))) [scene_login_audit sn].

Lemma scene_created sn b :
  scene_facts sn (scene_authority sn).(la_challenge) (scene_authority sn).(la_context) b →
  validate_login_challenge_authority (scene_authority sn) = true → password_right sn → draws_right sn →
  create_login_challenge sn.(sn_server).(sv_db) (scene_authority sn) (scene_login_audit sn) = (Ok tt, scene_logged sn).
Proof.
  intros [] Hv (_ & _ & Hac & Hact & _) (_ & _ & Hr & Hl & _ & _ & _ & _ & _ & Hids).
  apply Forall_cons in Hids as [[_ Ha] _]. unfold create_login_challenge. rewrite sf_id0, sf_account0, sx_updated0, Hr, Hl.
  replace (_ || _) with false; [unfold scene_logged; by rewrite <-sf_id0|]. symmetry.
  unfold account_unchanged. rewrite Hac. guards; by intros [? ?].
Qed.

Lemma login_answers `{!PrimitiveLaws P} sn :
  password_right sn → times_right sn → draws_right sn → signature_right sn →
  ∃ eph, login sn.(sn_config) sn.(sn_server) sn.(sn_request) sn.(sn_peer) sn.(sn_headers) sn.(sn_request_id)
           sn.(sn_draws) sn.(sn_now) sn.(sn_failed_now)
         = (Ok (login_answer (scene_authority sn)), {| sv_db := scene_logged sn; sv_eph := eph |})
    ∧ eph.(nonces) = sn.(sn_server).(sv_eph).(nonces).
Proof.
  intros Hpw Ht Hd Hs. pose proof (scene_challenge sn Hpw Ht) as Hf.
  pose proof (scene_authority_valid sn _ _ Hf Hpw Ht Hs) as Hv.
  pose proof Hpw as Hpw0. destruct Hpw as (Hp & Hac & Hid & Hact & Hne & Hlock & Hpass & Hdev & Hki & Hkv).
  unfold login. rewrite Hp. cbn [sv_db sv_eph]. rewrite Hac.
  destruct (login_failure_state _ _ _) as [failures eph] eqn:El. cbn [fst] in Hlock. rewrite Hlock.
  assert (Hn : eph.(nonces) = sn.(sn_server).(sv_eph).(nonces)).
  { pose proof (other_nonces sn.(sn_server).(sv_eph) (OpLoginState (login_failure_key (Some sn.(sn_account)) sn.(sn_email))
                  sn.(sn_now)) ltac:(done)) as Hn. unfold eph_step in Hn. by rewrite El in Hn. }
  rewrite (bool_decide_eq_true_2 _ Hact), Hpass. cbn [negb andb set_eph sv_db sv_eph].
  unfold login_identity. rewrite Hdev, Hki, Hkv. cbn [none andb Z.eqb]. fold (scene_authority sn).
  rewrite (sf_device _ _ _ _ Hf). fold (scene_login_audit sn). rewrite (scene_created sn _ Hf Hv Hpw0 Hd).
  eexists. split; [reflexivity|]. cbn [set_db set_eph sv_eph].
  pose proof (other_nonces (clear_login_failures eph (login_failure_key (Some sn.(sn_account)) sn.(sn_email)))
    (OpPutChallenge (auth_challenge_from_authority (scene_authority sn))) ltac:(done)) as Hn'.
  unfold eph_step in Hn'. destruct (put_challenge _ _) as [? eph']. cbn [snd prod_map id] in Hn' |- *. by rewrite Hn'.
Qed.

(** ** The second step *)

Lemma hex_chunks_encode bs : hex_chunks (encode_hex bs) = Some bs.
Proof.
  induction bs as [|b bs IH]; [done|]. change (encode_hex (b :: bs)) with (hex_byte b ++ encode_hex bs).
  assert (Hb : ∀ b, (hex_chunks (hex_byte b) =! Some [b]) = true) by (apply byte_forall; vm_compute; reflexivity).
  specialize (Hb b). apply bool_decide_eq_true_1 in Hb. revert Hb. unfold hex_byte. cbn [app hex_chunks].
  destruct (hex_nibble (hex_digit (byte_val b / 16))) as [h|]; [|intros [=]]. cbn.
  destruct (hex_nibble _) as [l|]; [|intros [=]]. cbn. intros [= ->]. by rewrite IH.
Qed.

Lemma encode_hex_nibbles bs : forallb (λ b, bool_decide (is_Some (hex_nibble b))) (encode_hex bs) = true.
Proof.
  induction bs as [|b bs IH]; [done|]. change (encode_hex (b :: bs)) with (hex_byte b ++ encode_hex bs).
  rewrite forallb_app, IH, andb_true_r. clear IH. revert b.
  apply (byte_forall (λ b, forallb (λ b, bool_decide (is_Some (hex_nibble b))) (hex_byte b))). vm_compute. reflexivity.
Qed.

Lemma encode_hex_length bs : length (encode_hex bs) = (2 * length bs)%nat.
Proof.
  induction bs as [|b bs IH]; [done|]. change (encode_hex (b :: bs)) with (hex_byte b ++ encode_hex bs).
  rewrite length_app, IH. cbn. lia.
Qed.

Lemma decode_sha256_hex_encode bs : length bs = 32%nat → decode_sha256_hex (encode_hex bs) = Some bs.
Proof.
  intros Hl. unfold decode_sha256_hex. rewrite encode_hex_length, Hl, encode_hex_nibbles. apply hex_chunks_encode.
Qed.

Lemma parse_login_nonce rq k n e : parse_login rq = Ok (k, n, e) → decode_array 32 rq.(lq_client_nonce) = Some n.
Proof. unfold parse_login. intros H. by invert_ok. Qed.

Lemma scene_parse `{!ApiTextLaws T} sn a b :
  scene_facts sn a.(la_challenge) a.(la_context) b → password_right sn → draws_right sn →
  parse_login_finish (client_finish sn (login_answer a))
  = Ok (a.(la_context).(lc_login_request_binding_hash), b, sn.(sn_client_nonce), sn.(sn_draws).(dw_server_nonce)).
Proof.
  intros [] (Hp & _) (_ & Hsn & _). unfold parse_login_finish, validate_protocol_version. cbn.
  rewrite (parse_login_version _ _ _ _ Hp), Z.eqb_refl. cbn.
  rewrite (decode_sha256_hex_encode (lc_login_request_binding_hash _)) by done. cbn.
  rewrite sx_binding0, decode_sha256_hex_encode by done. cbn. rewrite (parse_login_nonce _ _ _ _ Hp). cbn.
  unfold decode_array. rewrite sx_server_nonce0, b64url_text_round, Hsn. done.
Qed.

Lemma scene_factor_shape sn :
  factor_right sn → factor_shape_valid (scene_methods sn) (fst <$> sn.(sn_factor)) (snd <$> sn.(sn_factor)) = true.
Proof.
  unfold factor_right, factor_shape_valid, scene_methods. destruct (sn_factor sn) as [[kind code]|]; cbn.
  - intros (-> & Hk & Hc & _). rewrite bool_decide_eq_false_2 by done. guards. destruct Hk as [->| ->]; set_solver.
  - by intros ->.
Qed.

Lemma client_header_other sn k :
  k ≠ str "x-rctl-device-id" → k ≠ str "x-rctl-timestamp" → k ≠ str "x-rctl-api-nonce" →
  k ≠ str "x-rctl-device-signature" → client_headers sn !! k = sn.(sn_headers) !! k.
Proof. intros. unfold client_headers. by rewrite !lookup_insert_ne by done. Qed.

Lemma client_header_own sn :
  client_headers sn !! str "x-rctl-device-id" = Some sn.(sn_request).(lq_device_id)
  ∧ client_headers sn !! str "x-rctl-timestamp" = Some sn.(sn_timestamp)
  ∧ client_headers sn !! str "x-rctl-api-nonce" = Some sn.(sn_nonce)
  ∧ client_headers sn !! str "x-rctl-device-signature"
    = Some (b64url_text (ed25519_sign sn.(sn_private_key) (sha256 sn.(sn_canonical)))).
Proof.
  unfold client_headers. split_and!; rewrite ?(lookup_insert_ne _ (str "x-rctl-device-id")),
    ?(lookup_insert_ne _ (str "x-rctl-timestamp")), ?(lookup_insert_ne _ (str "x-rctl-api-nonce")) by discriminate;
    apply lookup_insert_eq.
Qed.

Lemma scene_context_valid sn a b :
  scene_facts sn a.(la_challenge) a.(la_context) b → password_right sn → factor_right sn →
  context_valid (scene_logged sn) a (client_finish sn (login_answer a)) a.(la_context).(lc_login_request_binding_hash)
    b sn.(sn_client_nonce) sn.(sn_draws).(dw_server_nonce) sn.(sn_peer) (client_headers sn) = true.
Proof.
  intros [] (Hp & _ & _ & _ & _ & _ & _ & Hdev & _) Hfac. unfold context_valid, device_authority_valid.
  rewrite sx_recomputed0. cbn. rewrite sf_device0, sx_state0, sx_device0, Hdev, sx_key0, sx_fingerprint0, sx_binding0,
    sx_client_nonce0, sx_server_nonce0, sx_ip0, sx_agent0, sx_protocol0, sx_methods0, (parse_login_version _ _ _ _ Hp),
    scene_factor_shape by done.
  guards. unfold sanitized_user_agent. by rewrite client_header_other by done.
Qed.

Lemma scene_signature `{!PrimitiveLaws P} `{!ApiTextLaws T} sn x eph b ch :
  scene_facts sn ch x b → signature_right sn → eph.(nonces) = sn.(sn_server).(sv_eph).(nonces) →
  ∃ eph', verify_login_device_signature eph sn.(sn_account).(ac_account_id) x finish_target (client_headers sn)
            sn.(sn_body) sn.(sn_finish_request_id) sn.(sn_sig_now) = (Ok tt, eph').
Proof.
  intros [] (Hts & Htne & Hnne & Hdne & Hw & Hbody & Hcan & Hnonce) He.
  assert (Hh : ∀ name v, client_headers sn !! name = Some v → v ≠ [] →
            required_header (client_headers sn) name = Ok v).
  { intros name v Hv Hne. unfold required_header. rewrite Hv. destruct v; [congruence|reflexivity]. }
  assert (Hsig : verify_device_signature (ed25519_public sn.(sn_private_key)) (str "POST") finish_target sn.(sn_body)
            (sn.(sn_headers) !! str "content-type") sn.(sn_finish_request_id) sn.(sn_request).(lq_device_id)
            sn.(sn_account).(ac_account_id) sn.(sn_timestamp_value) sn.(sn_nonce)
            (b64url_text (ed25519_sign sn.(sn_private_key) (sha256 sn.(sn_canonical)))) = true).
  { unfold verify_device_signature, decode_either. rewrite Hbody, Hcan, b64url_text_round, ed25519_sign_length.
    by rewrite ed25519_public_valid, ed25519_verify_sign. }
  set (sig := b64url_text _) in Hsig.
  assert (Hsne : sig ≠ []).
  { intros Hn. pose proof (b64url_text_round (ed25519_sign sn.(sn_private_key) (sha256 sn.(sn_canonical)))) as Hr.
    fold sig in Hr. rewrite Hn, b64url_empty in Hr. injection Hr as Hr.
    pose proof (ed25519_sign_length sn.(sn_private_key) (sha256 sn.(sn_canonical))) as Hl. by rewrite <-Hr in Hl. }
  assert (Hchecks : login_signature_checks sn.(sn_account).(ac_account_id) x finish_target (client_headers sn) sn.(sn_body)
            sn.(sn_finish_request_id) sn.(sn_sig_now) = Ok sn.(sn_nonce)).
  { unfold login_signature_checks.
    destruct (client_header_own sn) as (H1 & H2 & H3 & H4).
    rewrite (Hh _ _ H1 Hdne), (Hh _ _ H2 Htne), (Hh _ _ H3 Hnne), (Hh _ _ H4 Hsne).
    cbn [map_err mbind result_bind]. rewrite Hts. cbn [ok_or mbind result_bind].
    rewrite sx_device0, sx_key0, client_header_other by done. fold sig. rewrite Hsig. unfold ensure.
    rewrite (bool_decide_eq_true_2 _ eq_refl), (proj2 (Z.ltb_ge _ _) Hw). done. }
  unfold verify_login_device_signature. rewrite Hchecks, sx_device0. unfold record_nonce. rewrite He.
  rewrite bool_decide_eq_false_2; [by eexists|]. intros [v Hv]. apply map_lookup_filter_Some in Hv as [Hv _].
  by rewrite Hnonce in Hv.
Qed.

(** The command that the second step gives to the repository. *)
Definition scene_command (sn : LoginScene) (a : LoginChallengeAuthority) (b : bytes) : TokenResponse * LoginFinishCommand :=
  login_finish_command sn.(sn_config) a (client_finish sn (login_answer a)) sn.(sn_request).(lq_device_id)
    sn.(sn_finish_request_id) b sn.(sn_finish_draws) sn.(sn_finish_now).

Lemma scene_command_trust sn a b :
  scene_facts sn a.(la_challenge) a.(la_context) b → (scene_command sn a b).2.(fc_trusted_device_to_create) = None.
Proof. intros []. cbn. unfold login_new_trust. by rewrite sx_state0. Qed.

Lemma scene_command_grant sn a b :
  scene_facts sn a.(la_challenge) a.(la_context) b →
  ∃ g, (scene_command sn a b).2.(fc_enrollment_grant) = Some g
    ∧ g = {| gr_grant_id := sn.(sn_finish_draws).(dw_grant_id);
             gr_grant_secret_hash := sha256 sn.(sn_finish_draws).(dw_grant_secret);
             gr_account_id := sn.(sn_account).(ac_account_id); gr_device_id := sn.(sn_request).(lq_device_id);
             gr_device_public_key_fingerprint := sha256 (ed25519_public sn.(sn_private_key));
             gr_login_challenge_id := sn.(sn_draws).(dw_challenge_id); gr_login_challenge_binding_hash := b;
             gr_trust_proof_type := (trust_decision (fst <$> sn.(sn_factor))).1;
             gr_trust_level := (trust_decision (fst <$> sn.(sn_factor))).2;
             gr_establish_trust := negb (none (fst <$> sn.(sn_factor)));
             gr_protocol_version := sn.(sn_request).(lq_protocol_version);
             gr_issued_account_session_id := sn.(sn_finish_draws).(dw_session_id);
             gr_issued_at := sn.(sn_finish_now); gr_expires_at := a.(la_challenge).(rk_expires_at);
             gr_consumed_at := None; gr_registration_request_binding_hash := None;
             gr_registered_public_key_id := None; gr_registered_trusted_device_id := None |}.
Proof.
  intros []. eexists. split; [|reflexivity]. cbn. unfold login_grant. rewrite sx_state0. cbn.
  destruct (trust_decision _) as [proof level]. by rewrite sf_account0, sf_id0, sx_fingerprint0, sx_binding0.
Qed.

Lemma scene_command_shape sn a b :
  scene_facts sn a.(la_challenge) a.(la_context) b → password_right sn → times_right sn → draws_right sn →
  signature_right sn → factor_right sn → validate_login_finish_command_shape (scene_command sn a b).2 = true.
Proof.
  intros Hf Hpw (_ & _ & Href & _) Hd Hs Hfac.
  pose proof (scene_command_trust sn a b Hf) as Ht. destruct (scene_command_grant sn a b Hf) as (g & Hg & _).
  destruct Hf. destruct Hpw as (_ & _ & _ & _ & Hac & _). destruct Hd as (Hid & _ & _ & _ & Hses & _).
  destruct Hs as (_ & _ & _ & Hdev & _). unfold validate_login_finish_command_shape. rewrite Ht, Hg. cbn.
  rewrite sf_id0, sf_account0, sf_device0, sx_trusted0, sx_methods0. unfold scene_methods, factor_right in *.
  destruct (sn_factor sn) as [[kind code]|]; cbn.
  - destruct Hfac as [-> _]. guards.
  - rewrite Hfac. guards.
Qed.

Lemma scene_command_binding sn a b :
  scene_facts sn a.(la_challenge) a.(la_context) b → password_right sn →
  validate_login_finish_authority_binding (scene_command sn a b).2 a.(la_challenge) a.(la_context) = true.
Proof.
  intros Hf (Hp & _). destruct (scene_command_grant sn a b Hf) as (g & Hg & ->). destruct Hf.
  unfold validate_login_finish_authority_binding, expected_persistent_device_id. rewrite Hg. cbn.
  rewrite sf_device0, sx_device0, sx_binding0, sx_state0, sx_protocol0, (parse_login_version _ _ _ _ Hp). guards.
Qed.

Lemma scene_grant_ok sn a b g :
  scene_facts sn a.(la_challenge) a.(la_context) b → password_right sn → times_right sn → draws_right sn →
  factor_right sn → (scene_command sn a b).2.(fc_enrollment_grant) = Some g →
  grant_ok (scene_command sn a b).2 a.(la_challenge) g = true.
Proof.
  intros Hf (Hp & _) Ht Hd Hfac Hg. destruct (scene_command_grant sn a b Hf) as (g' & Hg' & He).
  rewrite Hg in Hg'. injection Hg' as <-. subst g. clear Hg.
  destruct Hd as (_ & _ & _ & _ & _ & _ & Hgid & _). destruct Ht as (Httl & _ & _ & Hnow & Hfin & _).
  destruct Hf. unfold grant_ok. cbn.
  rewrite sf_account0, sf_id0, sf_expires0, Hgid, (parse_login_version _ _ _ _ Hp), sx_fingerprint0.
  replace (checked_sub (sn_now sn + cf_challenge_ttl_seconds (sn_config sn) * 1000) (sn_finish_now sn))
    with (Some (sn_now sn + cf_challenge_ttl_seconds (sn_config sn) * 1000 - sn_finish_now sn)).
  2: { unfold checked_sub. by rewrite (proj2 (Z.leb_le _ _)) by lia. }
  unfold factor_right in Hfac. destruct (sn_factor sn) as [[kind code]|]; cbn; [|guards].
  destruct Hfac as (_ & [->| ->] & _); cbn; guards.
Qed.

(** The entries of the second step, apart from their targets. *)
Lemma scene_entries sn a b :
  scene_facts sn a.(la_challenge) a.(la_context) b →
  let entry n action := auth_audit_entry (sn.(sn_finish_draws).(dw_audit_id) n) sn.(sn_finish_request_id)
    sn.(sn_account).(ac_account_id) None action None sn.(sn_finish_now) in
  (scene_command sn a b).2.(fc_audit_entries)
  = entry 0%nat (str "mfa_challenge_succeeded") :: entry 1%nat (str "login_succeeded")
    :: (if (fst <$> sn.(sn_factor)) =! Some (str "recovery_code")
        then [entry 3%nat (str "mfa_recovery_code_used")] else []).
Proof.
  intros Hf. pose proof (scene_command_trust sn a b Hf) as Ht. destruct Hf. cbn in Ht |- *.
  unfold login_audit_entries. by rewrite Ht, sx_state0, sf_account0.
Qed.

Lemma login_actions_ok (rc : bool) :
  let actions := str "mfa_challenge_succeeded" :: str "login_succeeded"
    :: (if rc then [str "mfa_recovery_code_used"] else []) in
  let expected := ({[str "mfa_challenge_succeeded"; str "login_succeeded"]} ∪ ∅
    ∪ (if rc then {[str "mfa_recovery_code_used"]} else ∅) : gset rstr) in
  bool_decide (list_to_set actions = expected) && (length actions =? size expected)%nat = true.
Proof. destruct rc; vm_compute; reflexivity. Qed.

Lemma scene_audits_ok sn a b :
  scene_facts sn a.(la_challenge) a.(la_context) b → draws_right sn →
  audits_ok (scene_command sn a b).2 = true.
Proof.
  intros Hf (_ & _ & _ & _ & _ & _ & _ & _ & Hnd & Hids).
  pose proof (scene_command_trust sn a b Hf) as Ht. pose proof (scene_entries sn a b Hf) as He. cbn zeta in He.
  apply Forall_cons in Hids as [_ Hids]. apply NoDup_cons in Hnd as [_ Hnd].
  unfold audits_ok, expected_actions. rewrite Ht, He. cbn [none].
  change (fc_factor_kind (scene_command sn a b).2) with (fst <$> sn.(sn_factor)).
  set (rc := (fst <$> sn.(sn_factor)) =! Some (str "recovery_code")).
  pose proof (login_actions_ok rc) as Hact. cbn zeta in Hact. apply andb_true_iff in Hact as [Ha1 Ha2].
  assert (Hok : ∀ n action, (n < 5)%nat → login_audit_ok (scene_command sn a b).2 (str "success")
            (auth_audit_entry (sn.(sn_finish_draws).(dw_audit_id) n) sn.(sn_finish_request_id)
               sn.(sn_account).(ac_account_id) None action None sn.(sn_finish_now)) = true).
  { intros n action Hn. unfold login_audit_ok. cbn. rewrite (sf_account _ _ _ _ Hf). guards.
    eapply Forall_forall in Hids as [Hb _]; [exact Hb|]. apply list_elem_of_fmap. exists n. split; [done|].
    do 5 (destruct n as [|n]; [set_solver|]). lia. }
  assert (Hfail : login_audit_ok (scene_command sn a b).2 (str "failure") (scene_command sn a b).2.(fc_failure_audit)
                  = true).
  { unfold login_audit_ok. cbn. rewrite (sf_account _ _ _ _ Hf). guards.
    eapply Forall_forall in Hids as [Hb _]; [exact Hb|]. apply list_elem_of_fmap. exists 4%nat. set_solver. }
  set (e0 := auth_audit_entry (sn.(sn_finish_draws).(dw_audit_id) 0) _ _ _ _ _ _).
  set (e1 := auth_audit_entry (sn.(sn_finish_draws).(dw_audit_id) 1) _ _ _ _ _ _).
  set (e3 := auth_audit_entry (sn.(sn_finish_draws).(dw_audit_id) 3) _ _ _ _ _ _).
  assert (Hmap : au_action <$> (e0 :: e1 :: if rc then [e3] else []) = str "mfa_challenge_succeeded"
            :: str "login_succeeded" :: (if rc then [str "mfa_recovery_code_used"] else [])) by by destruct rc.
  assert (Hlen : length (e0 :: e1 :: if rc then [e3] else []) = length (str "mfa_challenge_succeeded"
            :: str "login_succeeded" :: (if rc then [str "mfa_recovery_code_used"] else []))) by by destruct rc.
  rewrite Hmap, Hlen, Ha1, Ha2, Hfail. clear Ha1 Ha2 Hmap Hlen.
  apply andb_true_intro. split; [apply andb_true_intro; split; [|reflexivity]|].
  - destruct rc; cbn [forallb andb]; unfold e0, e1, e3; rewrite !Hok by lia; reflexivity.
  - apply bool_decide_eq_true_2.
    apply (sublist_NoDup _ _ Hnd). destruct rc; cbn [fmap list_fmap app]; unfold e0, e1, e3; cbn;
      repeat first [apply sublist_skip | apply sublist_cons]; constructor.
Qed.

Lemma scene_artifacts sn a b :
  scene_facts sn a.(la_challenge) a.(la_context) b → password_right sn → times_right sn → draws_right sn →
  factor_right sn → validate_login_finish_artifacts (scene_command sn a b).2 a.(la_challenge) = true.
Proof.
  intros Hf Hpw Ht Hd Hfac. unfold validate_login_finish_artifacts. rewrite (scene_audits_ok sn a b Hf Hd).
  destruct (scene_command_grant sn a b Hf) as (g & Hg & _). rewrite Hg, (scene_grant_ok sn a b g), scene_command_trust by done.
  cbn. rewrite (sf_device _ _ _ _ Hf). by rewrite orb_true_r.
Qed.

Lemma try_factor_same db db' account kind code now :
  db'.(mfa_factors) = db.(mfa_factors) → db'.(recovery_codes) = db.(recovery_codes) →
  (try_factor db' account kind code now).1 = (try_factor db account kind code now).1.
Proof. intros Hm Hr. unfold try_factor. rewrite Hm, Hr. by repeat case_match. Qed.

Lemma try_factor_grants db account kind code now :
  (try_factor db account kind code now).2.(device_enrollment_grants) = db.(device_enrollment_grants).
Proof. unfold try_factor. by repeat case_match. Qed.

Lemma login_factor_grants db c :
  (stage_db (login_factor db c)).(device_enrollment_grants) = db.(device_enrollment_grants).
Proof.
  unfold login_factor, login_trust, verify_factor_in_database. repeat case_match; simplify_eq; try done;
    match goal with H : try_factor ?d ?a ?k ?c ?n = (_, ?d') |- _ =>
      pose proof (try_factor_grants d a k c n) as Hg; rewrite H in Hg; exact Hg end.
Qed.

Lemma scene_factor_go sn b :
  scene_facts sn (scene_authority sn).(la_challenge) (scene_authority sn).(la_context) b → times_right sn →
  factor_right sn →
  ∃ db1, login_factor (scene_logged sn) (scene_command sn (scene_authority sn) b).2 = Go db1.
Proof.
  intros [] (_ & Hatt & _ & _ & Hfin & _) Hfac. unfold login_factor.
  assert (Hch : (scene_logged sn).(risk_challenges) !! (scene_command sn (scene_authority sn) b).2.(fc_challenge_id)
                = Some (scene_authority sn).(la_challenge)).
  { cbn. apply lookup_insert_eq. }
  assert (Hmfa : mfa_enabled (scene_logged sn) (scene_command sn (scene_authority sn) b).2.(fc_account_id)
                 = mfa_enabled sn.(sn_server).(sv_db) sn.(sn_account).(ac_account_id)).
  { cbn. done. }
  set (c := (scene_command sn (scene_authority sn) b).2) in *.
  assert (Hreq : c.(fc_required_factors) = scene_methods sn) by exact sx_methods0.
  assert (Htr : c.(fc_trusted_device_id_to_use) = None) by exact sx_trusted0.
  assert (Hk : c.(fc_factor_kind) = fst <$> sn.(sn_factor)) by done.
  assert (Hcode : c.(fc_factor_code) = snd <$> sn.(sn_factor)) by done.
  rewrite Hreq, Hk, Hcode, Htr. unfold scene_methods, factor_right in *. destruct (sn_factor sn) as [[kind code]|].
  - destruct Hfac as (Hen & Hkind & Hne & Htry). rewrite Hen in *. cbn [fmap option_fmap option_map fst snd none negb orb].
    rewrite bool_decide_eq_false_2 by done. rewrite Hmfa. cbn [negb].
    assert (Hin : kind ∈ [str "totp"; str "recovery_code"])
      by (destruct Hkind as [->| ->]; [apply list_elem_of_here|apply list_elem_of_further, list_elem_of_here]).
    rewrite (bool_decide_eq_true_2 _ Hin). cbn [negb].
    unfold verify_factor_in_database, challenge_open. rewrite Hch.
    replace (negb _) with false.
    2: { symmetry. apply negb_false_iff. change (fc_account_id c) with ((scene_authority sn).(la_challenge).(rk_account_id)).
         change (fc_now c) with sn.(sn_finish_now).
         rewrite sf_status0, sf_attempts0, sf_expires0. guards. }
    assert (Hacc : c.(fc_account_id) = sn.(sn_account).(ac_account_id)) by exact sf_account0.
    assert (Hnow : c.(fc_now) = sn.(sn_finish_now)) by done.
    pose proof (try_factor_same sn.(sn_server).(sv_db) (scene_logged sn) c.(fc_account_id) kind code c.(fc_now)
                  eq_refl eq_refl) as Hs. rewrite Hacc, Hnow, Htry in Hs. rewrite Hacc, Hnow.
    destruct (try_factor (scene_logged sn) _ _ _ _) as [accepted db1] eqn:Et. cbn in Hs. subst accepted.
    destruct (try_factor_frame _ _ _ _ _ _ _ Et) as (_ & _ & ->). rewrite Hch. by eexists.
  - rewrite Hfac in *. cbn [fmap option_fmap option_map none negb orb]. rewrite bool_decide_eq_true_2 by done.
    unfold login_trust. rewrite Hmfa, Htr. cbn [none negb]. rewrite Hch. by eexists.
Qed.

Lemma scene_audit_new sn n :
  draws_right sn → (n < 5)%nat → has_audit (scene_logged sn).(core) (sn.(sn_finish_draws).(dw_audit_id) n) = false.
Proof.
  intros (_ & _ & _ & _ & _ & _ & _ & _ & Hnd & Hids) Hn.
  assert (Hin : sn.(sn_finish_draws).(dw_audit_id) n ∈ (sn.(sn_finish_draws).(dw_audit_id) <$> [0; 1; 2; 3; 4]%nat)).
  { apply list_elem_of_fmap. exists n. split; [done|]. do 5 (destruct n as [|n]; [set_solver|]). lia. }
  apply NoDup_cons in Hnd as [Hnot _]. apply Forall_cons in Hids as [_ Hids].
  eapply Forall_forall in Hids as [_ Hold]; [|exact Hin].
  unfold has_audit in *. cbn. rewrite existsb_app, Hold. cbn. rewrite orb_false_r. apply bool_decide_eq_false_2.
  intros Heq. apply Hnot. by rewrite Heq.
Qed.

Lemma scene_finishes sn b :
  scene_facts sn (scene_authority sn).(la_challenge) (scene_authority sn).(la_context) b →
  password_right sn → times_right sn → draws_right sn → signature_right sn → factor_right sn →
  ∃ db', finish_login (scene_logged sn) (scene_command sn (scene_authority sn) b).2 = (Ok LoginCompleted, db').
Proof.
  intros Hf Hpw Ht Hd Hs Hfac. pose proof (scene_command_shape sn _ b Hf Hpw Ht Hd Hs Hfac) as Hshape.
  pose proof (scene_command_binding sn _ b Hf Hpw) as Hbind.
  pose proof (scene_artifacts sn _ b Hf Hpw Ht Hd Hfac) as Hart.
  pose proof (scene_command_trust sn _ b Hf) as Htrust. destruct (scene_command_grant sn _ b Hf) as (g & Hg & Heg).
  pose proof (scene_entries sn _ b Hf) as Hent. cbn zeta in Hent.
  destruct (scene_factor_go sn b Hf Ht Hfac) as [db1 Hgo].
  pose proof (login_factor_grants (scene_logged sn) (scene_command sn (scene_authority sn) b).2) as Hgr.
  rewrite Hgo in Hgr. cbn [stage_db] in Hgr.
  pose proof (login_factor_go _ _ _ Hgo) as (_ & Hses & Hkeys & _).
  assert (Hch : (scene_logged sn).(risk_challenges) !! (scene_command sn (scene_authority sn) b).2.(fc_challenge_id)
                = Some (scene_authority sn).(la_challenge)) by (cbn; apply lookup_insert_eq).
  assert (Hcx : (scene_logged sn).(login_challenge_contexts)
                  !! (scene_command sn (scene_authority sn) b).2.(fc_challenge_id)
                = Some (scene_authority sn).(la_context)) by (cbn; apply lookup_insert_eq).
  assert (Haudit : ∀ n, (n < 5)%nat → has_audit (scene_logged sn).(core) (sn.(sn_finish_draws).(dw_audit_id) n) = false).
  { intros n Hn. by apply scene_audit_new. }
  destruct Hf. destruct Hpw as (_ & _ & Hac & Hact & _ & _ & _ & Hdev & _).
  destruct Ht as (_ & Hatt & _ & _ & Hfin & _). destruct Hd as (_ & _ & _ & _ & _ & Hnew & _ & Hgn & _).
  rewrite (finish_login_reaches (scene_logged sn) _ _ _ db1 Hshape Hch Hcx); try done.
  - eexists. rewrite (surjective_pairing (complete_login _ _ _)). f_equal. apply complete_login_reaches; try done.
    + rewrite Hses. exact Hnew.
    + unfold add_grant. rewrite Hg, Heg, Hgr. cbn. rewrite Hgn, ?sf_account0, ?sx_fingerprint0.
      match goal with |- context [if ?x then None else _] => replace x with false end; [|symmetry; guards; by intros [? ?]].
      cbn. unfold add_trust. cbn in Htrust. rewrite Htrust. by eexists.
    + apply Hkeys. by rewrite Hch.
  - apply Haudit. lia.
  - rewrite sf_expires0. done.
  - rewrite sf_attempts0. lia.
  - rewrite Hent. cbn [existsb au_audit_id auth_audit_entry]. rewrite !Haudit by lia.
    case_match; cbn [existsb au_audit_id auth_audit_entry]; by rewrite ?Haudit by lia.
  - unfold account_unchanged. cbn. rewrite ?sf_account0, Hac, ?sx_updated0. guards.
  - unfold login_device_valid. cbn. rewrite ?sf_device0, Hdev, ?sx_key_id0, ?sx_version0. done.
Qed.

(** The tokens of a session that is in the table open the door. *)
Lemma bundle_authenticates `{!ApiTextLaws T} cf dw account mfa now db t :
  let '(tokens, session) := build_token_bundle cf dw account mfa now in
  db.(account_sessions) !! dw.(dw_session_id) = Some session →
  t < tokens.(tk_access_expires_at) → t < tokens.(tk_refresh_expires_at) →
  ∃ claims, authenticate cf db {[str "authorization" := str "Bearer " ++ tokens.(tk_access_token)]} t = Ok claims
    ∧ claims.(acl_account_id) = account ∧ claims.(acl_mfa_verified) = mfa
    ∧ claims.(acl_account_session_id) = dw.(dw_session_id).
Proof.
  unfold build_token_bundle. cbn [tk_access_token tk_access_expires_at tk_refresh_expires_at]. intros Hs Ha Hr.
  set (claims := {| acl_account_id := account |}). exists claims. split; [|done]. unfold authenticate, bearer.
  rewrite lookup_singleton_eq. cbn [mbind option_bind]. unfold strip_prefix.
  rewrite take_app_length, bool_decide_eq_true_2, drop_app_length by done. cbn [mbind option_bind].
  assert (Hn : nonempty (sign_access_token claims cf.(cf_token_secret)) = Some (sign_access_token claims cf.(cf_token_secret))).
  { unfold sign_access_token, nonempty. case_match eqn:E; [|done]. by apply app_eq_nil in E as [_ [=]]. }
  rewrite Hn. cbn [ok_or mbind result_bind]. rewrite signed_access_token.
  replace (_ || _) with false by (symmetry; cbn; guards).
  cbn [ok_or mbind result_bind]. unfold account_session_active. cbn [acl_account_session_id claims]. rewrite Hs.
  unfold active_account_session. cbn. rewrite (proj2 (Z.ltb_lt _ _)) by done.
  by rewrite bool_decide_eq_true_2.
Qed.

Lemma login_finish_tokens `{!PrimitiveLaws P} `{!ApiTextLaws T} sn b eph eph' db' :
  scene_facts sn (scene_authority sn).(la_challenge) (scene_authority sn).(la_context) b →
  password_right sn → draws_right sn → factor_right sn → sn.(sn_request).(lq_device_id) ≠ [] →
  verify_login_device_signature eph sn.(sn_account).(ac_account_id) (scene_authority sn).(la_context) finish_target
    (client_headers sn) sn.(sn_body) sn.(sn_finish_request_id) sn.(sn_sig_now) = (Ok tt, eph') →
  finish_login (scene_logged sn) (scene_command sn (scene_authority sn) b).2 = (Ok LoginCompleted, db') →
  login_finish sn.(sn_config) {| sv_db := scene_logged sn; sv_eph := eph |}
    (client_finish sn (login_answer (scene_authority sn))) finish_target sn.(sn_peer) (client_headers sn) sn.(sn_body)
    sn.(sn_finish_request_id) sn.(sn_finish_draws) sn.(sn_finish_now) sn.(sn_sig_now)
  = (Ok ((scene_command sn (scene_authority sn) b).1,
         grant_token (scene_command sn (scene_authority sn) b).2 sn.(sn_finish_draws)),
     {| sv_db := db'; sv_eph := eph' |}).
Proof.
  intros Hf Hpw Hd Hfac Hdev Hsig Hfin. unfold login_finish. rewrite (scene_parse sn _ b Hf Hpw Hd).
  assert (Hload : load_login_challenge_authority (scene_logged sn) (client_finish sn (login_answer (scene_authority sn))).(lf_login_challenge_id)
                  = Some (scene_authority sn)).
  { unfold load_login_challenge_authority. cbn -[scene_authority].
    rewrite (sf_id _ _ _ _ Hf), !lookup_insert_eq. by destruct (scene_authority sn). }
  cbn [sv_db]. rewrite Hload, (scene_context_valid sn _ b Hf Hpw Hfac). cbn [negb].
  rewrite (sf_purpose _ _ _ _ Hf), (sf_binding _ _ _ _ Hf), !bool_decide_eq_true_2 by done. cbn [negb orb sv_eph].
  rewrite (sf_account _ _ _ _ Hf), Hsig. unfold required_header. destruct (client_header_own sn) as (-> & _).
  assert (Hne : nonempty sn.(sn_request).(lq_device_id) = Some sn.(sn_request).(lq_device_id)) by by destruct (lq_device_id _).
  cbn [mbind option_bind]. rewrite Hne. cbn [ok_or].
  fold (scene_command sn (scene_authority sn) b). destruct (scene_command sn (scene_authority sn) b) as [tokens command].
  cbn [snd fst] in *. cbn [set_eph sv_db]. by rewrite Hfin.
Qed.

(** From end to end: whoever knows the password of an active account that is
    not locked, holds the key of a device the server does not know and, when the
    account has a second factor, a code that is good, gets tokens in two
    requests, the second built from the answer to the first and signed by the
    device; the access token opens every route that authenticates until it
    expires, and says whether there was a second factor. *)
Theorem login_completes `{!PrimitiveLaws P} `{!ApiTextLaws T} sn :
  password_right sn → times_right sn → draws_right sn → signature_right sn → factor_right sn →
  ∃ x st1 tokens grant st2,
    login sn.(sn_config) sn.(sn_server) sn.(sn_request) sn.(sn_peer) sn.(sn_headers) sn.(sn_request_id)
      sn.(sn_draws) sn.(sn_now) sn.(sn_failed_now) = (Ok x, st1)
    ∧ login_finish sn.(sn_config) st1 (client_finish sn x) finish_target sn.(sn_peer) (client_headers sn) sn.(sn_body)
        sn.(sn_finish_request_id) sn.(sn_finish_draws) sn.(sn_finish_now) sn.(sn_sig_now)
      = (Ok (tokens, Some grant), st2)
    ∧ ∀ t, t < tokens.(tk_access_expires_at) → t < tokens.(tk_refresh_expires_at) →
        ∃ claims, authenticate sn.(sn_config) st2.(sv_db)
            {[str "authorization" := str "Bearer " ++ tokens.(tk_access_token)]} t = Ok claims
          ∧ claims.(acl_account_id) = sn.(sn_account).(ac_account_id)
          ∧ claims.(acl_mfa_verified) = mfa_enabled sn.(sn_server).(sv_db) sn.(sn_account).(ac_account_id).
Proof.
  intros Hpw Ht Hd Hs Hfac. destruct (login_answers sn Hpw Ht Hd Hs) as (eph & Hlogin & Hnonces).
  pose proof (scene_challenge sn Hpw Ht) as Hf. set (b := rk_operation_binding_hash _) in Hf.
  destruct (scene_signature sn _ eph b _ Hf Hs Hnonces) as [eph' Hsig].
  destruct (scene_finishes sn b Hf Hpw Ht Hd Hs Hfac) as [db' Hfin].
  destruct (scene_command_grant sn _ b Hf) as (g & Hg & _).
  eexists _, _, (scene_command sn (scene_authority sn) b).1, (_, _), _. split; [exact Hlogin|]. split.
  - rewrite (login_finish_tokens sn b eph eph' db' Hf Hpw Hd Hfac) by (done || apply Hs).
    unfold grant_token. rewrite Hg. reflexivity.
  - intros t Ha Hr. pose proof (finish_login_completed _ _ _ Hfin) as (_ & _ & _ & Hses & _ & Hmfa). cbn zeta in Hmfa.
    destruct (bundle_authenticates sn.(sn_config) sn.(sn_finish_draws) (rk_account_id (la_challenge (scene_authority sn)))
                (as_mfa_verified (fc_account_session (scene_command sn (scene_authority sn) b).2)) sn.(sn_finish_now) db' t)
      as (claims & Hcl & Hacc & Hm & _); [|exact Ha|exact Hr|].
    + rewrite Hses. cbn -[scene_authority]. apply lookup_insert_eq.
    + exists claims. split; [exact Hcl|]. rewrite Hacc, Hm, Hmfa. split; [apply (sf_account _ _ _ _ Hf)|].
      cbn -[scene_authority mfa_enabled]. by rewrite (sf_account _ _ _ _ Hf).
Qed.
End end_to_end.

(** ** Example

    The account of [ex_db] logs in with its recovery code. *)

Section example.
#[local] Existing Instance toy.
#[local] Existing Instance toy_factors.
#[local] Existing Instance toy_text.

Definition toy_auth : AuthText := {| hash_password _ p := Some p |}.
#[local] Existing Instance toy_auth.

Definition ex_draws (prefix : string) : Draws := {|
  dw_account_id := str prefix ++ str "account"; dw_salt := []; dw_challenge_id := str prefix ++ str "challenge";
  dw_server_nonce := be_bytes 32 9; dw_session_id := str prefix ++ str "session";
  dw_refresh_token := str prefix ++ str "token"; dw_grant_id := str prefix ++ str "grant";
  dw_grant_secret := str "secret"; dw_trusted_device_id := str prefix ++ str "trust";
  dw_audit_id n := str prefix ++ str "audit" ++ be_bytes 1 (48 + Z.of_nat n) |}.

Definition ex_private_key : bytes := be_bytes 32 7.

Definition ex_canonical : bytes :=
  match canonical_api_request_bytes (str "POST") finish_target (sha256 []) (str "request-2") (str "device-1")
          (str "account-1") 250 (str "nonce") with
  | Ok bs => bs | Err _ => [] end.

Definition ex_scene : LoginScene := {|
  sn_config := ex_config;
  sn_server := {|
    sv_db :=
      let db := set_accounts empty_accounts {[str "account-1" := ex_account]} in
      let db := set_account_by_email db {[str "a@b" := str "account-1"]} in
      let db := set_mfa_factors db {[str "factor-1" := ex_factor]} in
      set_recovery_codes db {[str "code-1" := ex_code]};
    sv_eph := memory_state_default |};
  sn_account := ex_account;
  sn_request := {|
    lq_email := str " A@b "; lq_password := str "password-hash"; lq_device_id := str "device-1";
    lq_device_public_key := encode_hex ex_private_key; lq_public_key_id := None; lq_public_key_version := 0;
    lq_client_nonce := encode_hex (be_bytes 32 5); lq_protocol_version := 1 |};
  sn_email := str "a@b"; sn_private_key := ex_private_key; sn_client_nonce := be_bytes 32 5; sn_peer := Some (IpV4 7);
  sn_headers := {[str "user-agent" := str "desktop"]}; sn_request_id := str "request-1"; sn_draws := ex_draws "a-";
  sn_now := 100; sn_failed_now := 100; sn_factor := Some (str "recovery_code", str "abcd-efgh");
  sn_finish_request_id := str "request-2"; sn_finish_draws := ex_draws "b-"; sn_finish_now := 200; sn_sig_now := 300;
  sn_timestamp := str "250"; sn_timestamp_value := 250; sn_nonce := str "nonce"; sn_body := [];
  sn_body_hash := sha256 []; sn_canonical := ex_canonical |}.

Lemma login_completes_witness :
  ∃ x st1 tokens grant st2,
    login ex_config ex_scene.(sn_server) ex_scene.(sn_request) (Some (IpV4 7)) ex_scene.(sn_headers) (str "request-1")
      (ex_draws "a-") 100 100 = (Ok x, st1)
    ∧ login_finish ex_config st1 (client_finish ex_scene x) finish_target (Some (IpV4 7)) (client_headers ex_scene) []
        (str "request-2") (ex_draws "b-") 200 300 = (Ok (tokens, Some grant), st2).
Proof.
  destruct (login_completes (P := toy) (F := toy_factors) (T := toy_text)
              (PrimitiveLaws0 := toy_laws) (ApiTextLaws0 := toy_text_laws) ex_scene)
    as (x & st1 & tokens & grant & st2 & H1 & H2 & _).
  - unfold password_right. split_and!; try (vm_compute; reflexivity); vm_compute; discriminate.
  - unfold times_right. split_and!; vm_compute; try reflexivity; discriminate.
  - unfold draws_right. split_and!; try (vm_compute; reflexivity); try (vm_compute; discriminate).
    + apply (bool_decide_unpack _). vm_compute. exact I.
    + repeat constructor; vm_compute; reflexivity.
  - unfold signature_right. split_and!; try (vm_compute; reflexivity); vm_compute; discriminate.
  - unfold factor_right. cbn [sn_factor ex_scene]. split_and!; [vm_compute; reflexivity|by right|discriminate|].
    vm_compute; reflexivity.
  - exists x, st1, tokens, grant, st2. split; [exact H1|exact H2].
Defined.

(** Somebody registers, then refreshes the tokens. *)
Definition ex_start : Server := {| sv_db := empty_accounts; sv_eph := memory_state_default |}.
Definition ex_registered : Server :=
  (register_account ex_config ex_start {| rr_email := str "A@b"; rr_password := str "a long password 1";
     rr_display_name := str "A" |} (str "request-1") (ex_draws "a-") 100 100 100).2.
Definition ex_refreshed : Server :=
  (refresh ex_config ex_registered (str "a-token") (str "request-2") (ex_draws "b-") 200).2.

Lemma routes_refine_operations_witness :
  rtc account_step empty_accounts ex_refreshed.(sv_db)
  ∧ account_session_active ex_refreshed.(sv_db) (str "b-session") (str "a-account") 300 = true
  ∧ account_session_active ex_refreshed.(sv_db) (str "a-session") (str "a-account") 300 = false
  ∧ false = mfa_enabled ex_refreshed.(sv_db) (str "a-account").
Proof.
  assert (H : account_session_active ex_refreshed.(sv_db) (str "b-session") (str "a-account") 300 = true)
    by (vm_compute; reflexivity).
  destruct (routes_refine_operations ex_config false ex_start ex_refreshed) as [Hr Hm].
  - transitivity ex_registered; [|apply refresh_runs].
    apply (register_runs ex_config false ex_start); [vm_compute; reflexivity|right; vm_compute; reflexivity].
  - split; [exact Hr|]. split; [exact H|]. split; [vm_compute; reflexivity|].
    apply (Hm eq_refl (str "b-session") (str "a-account") 300
             (build_token_bundle ex_config (ex_draws "b-") (str "a-account") false 200).2 H).
    vm_compute; reflexivity.
Defined.
End example.
