(* ===== verification/DeviceRuns.v ===== *)
(** * Devices along the runs of the API server

    What the operations of [ApiAuthority] do to devices, their keys, the grants and
    the trust behind them. The operations on accounts leave devices alone
    ([carries]); from there: the keys in force are those of the devices, a device that
    lost its key stays out, a registration is answered once and repeated faithfully,
    and closing the sessions of a device is a run of [ApiSession]. *)

From stdpp Require Import sorting.
From S2P Require Import Prelude Text Canonical RequestTarget Security Primitives KeySession SignalAuth Net ApiSession Ephemeral ApiAccount ApiLogin ApiSecurity ApiDevice ApiAuthority ApiRequest.

(** ** What operations on accounts leave alone *)

(** What a trust says of a device, whatever its use and its end. *)
Definition trust_identity (t : TrustedControllerDevice) : rstr * rstr * rstr * rstr * bytes :=
  (t.(tr_account_id), t.(tr_controller_device_id), t.(tr_trust_proof_type), t.(tr_trust_level),
   t.(tr_device_fingerprint_hash)).

Definition trusts_kept (m m' : gmap rstr TrustedControllerDevice) : Prop :=
  ∀ id t, m !! id = Some t → ∃ t', m' !! id = Some t' ∧ trust_identity t' = trust_identity t.

(** Challenges that were used stay as they are, except [x]. *)
Definition used_kept (x : option rstr) (m m' : gmap rstr RiskChallenge) : Prop :=
  ∀ id ch, Some id ≠ x → m !! id = Some ch → ch.(rk_status) = RConsumed → m' !! id = Some ch.

(** The tables of sessions between devices, without devices and audit log. *)
Definition session_tables (k : Database) := (k.(db_sessions), k.(db_session_events), k.(db_session_idempotency)).

Record carries_but (x : option rstr) (db db' : AccountDb) : Prop := {
  cy_devices : db'.(core).(db_devices) = db.(core).(db_devices);
  cy_sessions : session_tables db'.(core) = session_tables db.(core);
  cy_keys : db'.(device_public_keys) = db.(device_public_keys);
  cy_grants : db.(device_enrollment_grants) ⊆ db'.(device_enrollment_grants);
  cy_trust : trusts_kept db.(trusted_controller_devices) db'.(trusted_controller_devices);
  cy_used : used_kept x db.(risk_challenges) db'.(risk_challenges);
  cy_audit : ∃ es, db'.(core).(db_audit_logs) = db.(core).(db_audit_logs) ++ es ∧ Forall clean es }.

Abbreviation carries := (carries_but None).

#[global] Instance trusts_kept_refl : Reflexive trusts_kept.
Proof. intros m id t Ht. by exists t. Qed.
#[global] Instance trusts_kept_trans : Transitive trusts_kept.
Proof.
  intros m1 m2 m3 H1 H2 id t Ht. apply H1 in Ht as (t2 & Ht & E2). apply H2 in Ht as (t3 & Ht & E3).
  exists t3. split; [done|]. congruence.
Qed.
#[global] Instance used_kept_refl x : Reflexive (used_kept x).
Proof. by intros m id ch. Qed.
#[global] Instance used_kept_trans x : Transitive (used_kept x).
Proof. intros m1 m2 m3 H1 H2 id ch Hx Hc Hs. by apply H2, Hs; [|apply H1]. Qed.

#[global] Instance carries_refl x : Reflexive (carries_but x).
Proof. intros db. split; try done. exists []. by rewrite app_nil_r. Qed.
#[global] Instance carries_trans x : Transitive (carries_but x).
Proof.
  intros db1 db2 db3 [D1 S1 K1 G1 T1 U1 (es1 & A1 & C1)] [D2 S2 K2 G2 T2 U2 (es2 & A2 & C2)]. split.
  - congruence.
  - by etrans.
  - congruence.
  - by etrans.
  - by etrans.
  - by etrans.
  - exists (es1 ++ es2). rewrite A2, A1, (assoc_L (++)), Forall_app. done.
Qed.

Lemma carries_weaken x db db' : carries db db' → carries_but x db db'.
Proof. intros [D S K G T U A]. split; try done. intros id ch _. by apply U. Qed.

Lemma carries_finished id db db' :
  carries_but (Some id) db db' →
  (∀ ch, db.(risk_challenges) !! id = Some ch → ch.(rk_status) ≠ RConsumed) → carries db db'.
Proof.
  intros [D S K G T U A] H. split; try done. intros i ch _ Hc Hs.
  apply U; [|done..]. intros [= ->]. by apply (H ch).
Qed.

(** *** The updates that operations are made of *)

Create HintDb carry.

Lemma carries_tables x db db' :
  db'.(core) = db.(core) → db'.(device_public_keys) = db.(device_public_keys) →
  db'.(device_enrollment_grants) = db.(device_enrollment_grants) →
  db'.(trusted_controller_devices) = db.(trusted_controller_devices) →
  db'.(risk_challenges) = db.(risk_challenges) → carries_but x db db'.
Proof.
  intros Hc Hk Hg Ht Hr. split; rewrite ?Hc, ?Hk, ?Hg, ?Ht, ?Hr; try done. exists []. by rewrite app_nil_r.
Qed.

Lemma carries_extend x db db' es : carries_but x db db' → Forall clean es → carries_but x db (extend_audit db' es).
Proof. intros H Hes. etrans; [done|]. split; try done. by exists es. Qed.

Lemma carries_trusted x db db' m :
  carries_but x db db' → trusts_kept db'.(trusted_controller_devices) m → carries_but x db (set_trusted db' m).
Proof. intros H Hm. etrans; [done|]. split; try done. exists []. by rewrite app_nil_r. Qed.

Lemma carries_grant x db db' id g :
  carries_but x db db' → db'.(device_enrollment_grants) !! id = None →
  carries_but x db (set_grants db' (<[id := g]> db'.(device_enrollment_grants))).
Proof.
  intros H Hg. etrans; [done|]. split; try done; [by apply insert_subseteq|]. exists []. by rewrite app_nil_r.
Qed.

Lemma carries_risk x db db' m :
  carries_but x db db' → used_kept x db'.(risk_challenges) m → carries_but x db (set_risk_challenges db' m).
Proof. intros H Hm. etrans; [done|]. split; try done. exists []. by rewrite app_nil_r. Qed.

Lemma used_kept_other x m id ch :
  (∀ c, Some id ≠ x → m !! id = Some c → c.(rk_status) ≠ RConsumed) → used_kept x m (<[id := ch]> m).
Proof.
  intros H i c Hx Hc Hs. destruct (decide (i = id)) as [->|Hne]; [by destruct (H c Hx Hc Hs)|]. by rewrite lookup_insert_ne.
Qed.

Lemma trusts_kept_insert m id t t' :
  m !! id = Some t → trust_identity t' = trust_identity t → trusts_kept m (<[id := t']> m).
Proof.
  intros Hm Ht i u Hu. destruct (decide (i = id)) as [->|Hne].
  - exists t'. rewrite lookup_insert_eq. split; [done|]. rewrite Ht. congruence.
  - exists u. by rewrite lookup_insert_ne.
Qed.

Lemma trusts_kept_new m id t : m !! id = None → trusts_kept m (<[id := t]> m).
Proof. intros Hm i u Hu. exists u. split; [|done]. rewrite lookup_insert_ne; [done|]. congruence. Qed.

Lemma trusts_kept_map m (f : TrustedControllerDevice → bool) now :
  trusts_kept m ((λ t, if f t then revoke_trust t now else t) <$> m).
Proof. intros i u Hu. rewrite lookup_fmap, Hu. eexists. split; [done|]. by destruct (f u). Qed.

#[export] Hint Resolve carries_extend carries_trusted carries_risk carries_grant : carry.

(** A short list of entries that are clean. *)
Ltac cleanly := rewrite ?Forall_cons; split_and!; try apply Forall_nil; try exact I; assumption.

Section carrying.
Context `{P : Primitives} `{F : FactorCrypto} `{T : ApiText}.

Lemma try_factor_carries x db account kind code now :
  carries_but x db (try_factor db account kind code now).2.
Proof. unfold try_factor. repeat case_match; by apply carries_tables. Qed.

Lemma verify_factor_carries db id account kind code now :
  carries db (verify_factor_in_database db id account kind code now).2.
Proof.
  unfold verify_factor_in_database. destruct (challenge_open db id account now) eqn:Ho; [|done]. cbn [negb].
  pose proof (try_factor_carries None db account kind code now) as Ht.
  destruct (try_factor db account kind code now) as [b db'] eqn:E. cbn in Ht.
  apply try_factor_frame in E as (_ & _ & Hr).
  destruct id as [id|]; [|done]. destruct (risk_challenges db' !! id) as [c|] eqn:Hc; [|done].
  apply carries_risk; [done|]. apply used_kept_other. intros c' _ Hc'. cbn in Ho.
  rewrite Hr in Hc'. rewrite Hc' in Ho. split_bools. congruence.
Qed.

Lemma judge_carries db v c h :
  db.(risk_challenges) !! v.(vf_challenge_id) = Some c → c.(rk_status) ≠ RConsumed →
  carries db (judge_challenge db v c h).2.
Proof.
  intros Hc Hs. unfold judge_challenge. case_match; [|apply verify_factor_carries].
  apply carries_risk; [done|]. apply used_kept_other. intros c' _ Hc'. by simplify_eq.
Qed.

Lemma verify_risk_carries db v :
  Forall clean (op_audits (DoVerifyRisk v)) → carries db (verify_risk_challenge db v).2.
Proof.
  cbn [op_audits]. rewrite Forall_app, Forall_cons, Forall_singleton. intros [[Hs Hf] Ho].
  unfold verify_risk_challenge. destruct (accounts db !! _) as [ac|]; [|done].
  destruct (risk_challenges db !! _) as [c|] eqn:Hc; [|done].
  destruct (_ || _ || _ || _); [done|]. destruct (_ && _ && _ && _); [done|].
  destruct (_ || _ || _) eqn:Hst; [done|].
  assert (Hn : c.(rk_status) ≠ RConsumed) by (split_bools; congruence). clear Hst.
  destruct (_ || _ || _); [done|].
  destruct (_ <=? _).
  { apply carries_extend; [|cleanly]. apply carries_risk; [done|]. apply used_kept_other.
    intros c' _ Hc'. by simplify_eq. }
  pose proof (judge_carries db v c ac.(ac_password_hash) Hc Hn) as Hj.
  destruct (judge_challenge _ _ _ _) as [[b|] db']; [|done]. cbn in Hj.
  destruct (risk_challenges db' !! _) as [c'|]; [|done].
  destruct b; [|apply carries_extend; [done|cleanly]].
  destruct (_ =! _); [|apply carries_extend; [done|cleanly]].
  destruct v.(vf_recovery_code_audit) as [e|]; [|done]. apply carries_extend; [done|].
  apply Forall_cons in Ho as [Ho _]. cleanly.
Qed.

Lemma consume_carries db x : carries db (consume_step_up_in_database db x).2.
Proof.
  unfold consume_step_up_in_database. destruct (step_up_matches db x) eqn:Hm; [|done]. cbn [negb].
  destruct (risk_challenges db !! _) as [c|] eqn:Hc; [|done]. apply carries_risk; [done|]. apply used_kept_other.
  intros c' _ Hc'. unfold step_up_matches in Hm. rewrite Hc' in Hm. split_bools. congruence.
Qed.

Lemma revocation_audits_clean db a reason source : Forall clean (authority_revocation_audits db a reason source).
Proof.
  unfold authority_revocation_audits. rewrite Forall_app, !Forall_fmap. split; apply Forall_forall; intros kv _.
  - apply session_revocation_clean.
  - apply trust_revocation_clean.
Qed.

Lemma revoke_authority_carries x db db' a reason now :
  carries_but x db db' → carries_but x db (revoke_authority db' a reason now).
Proof.
  intros H. unfold revoke_authority. apply carries_trusted; [|apply trusts_kept_map]. etrans; [done|]. by apply carries_tables.
Qed.

Lemma perform_action_carries db x a db' : perform_action db x a = Ok db' → carries db db'.
Proof.
  destruct a; cbn; intros H.
  - injection H as <-. by apply carries_tables.
  - unfold advance_account_security_epoch in H. invert_ok. case_match; by apply carries_tables.
  - invert_ok. by apply carries_tables.
  - invert_ok. apply carries_trusted; [done|]. by eapply trusts_kept_insert.
Qed.

Lemma step_up_carries db x a : clean (action_audit a) → carries db (apply_step_up_action db x a).2.
Proof.
  intros He. unfold apply_step_up_action. destruct (apply_step_up_action_in_database db x a) as [db'|] eqn:E; [|done].
  unfold apply_step_up_action_in_database in E. cbn [snd].
  apply bind_ok in E as ([] & _ & E). apply bind_ok in E as ([] & _ & E). apply bind_ok in E as ([] & _ & E).
  apply bind_ok in E as ([] & _ & E).
  pose proof (consume_carries db x) as Hc. destruct (consume_step_up_in_database db x) as [[[]|] db1]; [|done].
  apply bind_ok in E as (db2 & Hp & E). apply perform_action_carries in Hp. apply bind_ok in E as (db3 & Hr & E).
  injection E as <-. apply carries_extend; [|by apply Forall_singleton].
  assert (H2 : carries db db2) by by etrans. destruct (revoked_reason a) as [reason|]; [|by injection Hr as <-].
  apply bind_ok in Hr as ([] & _ & Hr). injection Hr as <-.
  apply carries_extend; [by apply revoke_authority_carries|apply revocation_audits_clean].
Qed.

Lemma finish_totp_carries db c : clean c.(cp_audit) → carries db (finish_totp_enrollment db c).2.
Proof.
  intros He. unfold finish_totp_enrollment. destruct (finish_totp_enrollment_in db c) as [db'|] eqn:E; [|done].
  unfold finish_totp_enrollment_in in E. apply bind_ok in E as ([] & _ & E). apply bind_ok in E as ([] & _ & E).
  apply bind_ok in E as ([] & _ & E). apply bind_ok in E as (db1 & Ha & E). apply bind_ok in E as ([] & _ & E).
  injection E as <-. unfold advance_account_security_epoch in Ha. apply bind_ok in Ha as (ac & _ & Ha). injection Ha as <-.
  cbn [snd]. apply carries_extend.
  - apply revoke_authority_carries. by apply carries_tables.
  - rewrite Forall_app, Forall_singleton. split; [apply revocation_audits_clean|done].
Qed.

Lemma login_trust_carries x db c : carries_but x db (stage_db (login_trust db c)).
Proof.
  unfold login_trust. destruct (mfa_enabled _ _); [|by destruct (negb _)].
  destruct (fc_trusted_device_id_to_use c) as [id|]; [|done].
  destruct (trusted_controller_devices db !! id) as [t|] eqn:Ht; [|done].
  destruct (trust_usable c t); cbn [stage_db]; apply carries_trusted; try done; by eapply trusts_kept_insert.
Qed.

Lemma login_factor_carries db c :
  clean c.(fc_failure_audit) → carries_but (Some c.(fc_challenge_id)) db (stage_db (login_factor db c)).
Proof.
  intros He. unfold login_factor. destruct (_ =! []).
  - destruct (_ || _); [done|]. pose proof (login_trust_carries (Some c.(fc_challenge_id)) db c) as Ht.
    destruct (login_trust db c) as [r db'|db']; [done|]. cbn [stage_db] in Ht.
    destruct (risk_challenges db' !! _) as [ch|] eqn:Hc; [|done]. cbn [stage_db]. apply carries_risk; [done|].
    by apply used_kept_other.
  - destruct (_ || _); [done|]. destruct (fc_factor_kind c) as [kind|], (fc_factor_code c) as [code|]; try done.
    destruct (negb _); [done|].
    pose proof (verify_factor_carries db (Some (fc_challenge_id c)) (fc_account_id c) kind code (fc_now c)) as Hv.
    apply (carries_weaken (Some c.(fc_challenge_id))) in Hv.
    destruct (verify_factor_in_database _ _ _ _ _ _) as [[[] |] db0]; cbn [stage_db snd] in *; try done.
    apply carries_extend; [done|cleanly].
Qed.

Lemma add_grant_carries x db c db' : add_grant db c = Some db' → carries_but x db db'.
Proof.
  unfold add_grant. destruct (fc_enrollment_grant c) as [g|]; [|by intros [= <-]]. case_match eqn:E; [done|].
  intros [= <-]. split_bools. apply carries_grant; [done|]. by apply eq_None_not_Some.
Qed.

Lemma add_trust_carries x db c db' : add_trust db c = Some db' → carries_but x db db'.
Proof.
  unfold add_trust. destruct (fc_trusted_device_to_create c) as [t|]; [|by intros [= <-]].
  destruct (_ || _ || _ || _ || _ || _) eqn:E; [done|]. intros H. apply bind_Some in H as (added & _ & H).
  destruct (existsb _ _); [done|]. injection H as <-. split_bools.
  apply carries_trusted.
  - apply carries_extend; [done|]. apply Forall_fmap, Forall_forall. intros kv _. apply trust_revocation_clean.
  - cbn. etrans; [apply trusts_kept_map|]. apply trusts_kept_new.
    rewrite lookup_fmap, fmap_None. by apply eq_None_not_Some.
Qed.

Lemma complete_login_carries original db c :
  carries_but (Some c.(fc_challenge_id)) original db → Forall clean c.(fc_audit_entries) →
  carries_but (Some c.(fc_challenge_id)) original (complete_login original db c).2.
Proof.
  intros H Hes. unfold complete_login. destruct (_ || _ || _ || _); [done|].
  destruct (add_grant db c ≫= _) as [db1|] eqn:E; [|done]. apply bind_Some in E as (db0 & Eg & Et).
  apply (add_grant_carries (Some c.(fc_challenge_id))) in Eg. apply (add_trust_carries (Some c.(fc_challenge_id))) in Et.
  destruct (risk_challenges db1 !! _) as [ch|]; [|done]. cbn [snd]. apply carries_extend; [|done].
  transitivity (set_risk_challenges db1 (<[fc_challenge_id c := set_risk ch RConsumed (rk_attempts_remaining ch)
    (Some (fc_now c)) (Some (fc_now c))]> (risk_challenges db1))); [|by apply carries_tables].
  apply carries_risk; [by repeat (etrans; [eassumption|])|]. by apply used_kept_other.
Qed.

Lemma finish_login_carries db c :
  Forall clean (op_audits (DoFinishLogin c)) → carries db (finish_login db c).2.
Proof.
  intros H. apply Forall_cons in H as [Hf Hes].
  pose proof (login_factor_carries db c Hf) as Hl. unfold finish_login.
  destruct (negb (validate_login_finish_command_shape c)); [done|].
  destruct (risk_challenges db !! _) as [ch|] eqn:Hc; [|done]. destruct (login_challenge_contexts db !! _) as [x|]; [|done].
  destruct (_ || _ || _ || _ || _ || _); [done|]. destruct (has_audit _ _); [done|].
  assert (Hjudge : ∀ v e, ch.(rk_status) ≠ RConsumed → clean e →
    carries db (extend_audit (set_risk_challenges db (<[fc_challenge_id c := v]> (risk_challenges db))) [e])).
  { intros v e Hn He. apply carries_extend; [|cleanly]. apply carries_risk; [done|]. apply used_kept_other.
    intros c' _ Hc'. by simplify_eq. }
  destruct ((_ =! _) && _) eqn:Hx.
  { apply Hjudge; [|done]. split_bools. congruence. }
  destruct ((rk_status ch ≠! RIssued) || _) eqn:Hy; [done|].
  assert (Hn : ch.(rk_status) ≠ RConsumed) by (split_bools; congruence). unfold lose_login.
  destruct (negb (validate_login_finish_artifacts c ch) || _); [done|].
  destruct (negb (account_unchanged _ _ _)); [by apply Hjudge|].
  destruct (negb (login_device_valid db c)); [by apply Hjudge|].
  apply (carries_finished c.(fc_challenge_id)); [|intros c' Hc'; by simplify_eq].
  destruct (login_factor db c) as [r db'|db']; [done|]. by apply complete_login_carries.
Qed.

(** The operations on accounts. *)
Definition on_devices (o : AccountOp) : bool :=
  match o with DoRegisterDevice _ | DoRotateKey _ | DoManageDevice _ => true | _ => false end.

Lemma perform_carries db o : op_fresh db o → on_devices o = false → carries db (perform db o).2.
Proof.
  intros [Hcl _] Hd. destruct o as [a|s|h s e now|id a now e|id a k code now|ch e|id e|v|x|x a|c|a e|id h now e|c| | |];
    try done; cbn; cbn [op_audits] in Hcl.
  - unfold insert_account. case_match; [done|]. by apply carries_tables.
  - unfold insert_account_session. case_match; [done|]. by apply carries_tables.
  - unfold rotate_refresh_session. case_match; [done|]. destruct (btree_find _ _) as [[id old]|]; [|done].
    case_match; [done|]. apply carries_extend; [by apply carries_tables|].
    apply Forall_cons. split; [apply session_revocation_clean|done].
  - unfold revoke_account_session. repeat (case_match; try done). apply carries_extend; [by apply carries_tables|].
    apply Forall_cons. split; [apply session_revocation_clean|done].
  - apply verify_factor_carries.
  - unfold create_risk_challenge. case_match; [done|]. case_match; [done|]. case_match; [|done].
    destruct (bool_decide (is_Some _) || _ || _) eqn:E; [done|]. apply carries_extend; [|done].
    apply carries_risk; [done|]. apply used_kept_other. split_bools. intros c _ Hc. exfalso. eauto.
  - unfold cancel_risk_challenge. destruct (risk_challenges db !! id) as [c|] eqn:Hc; [|done].
    destruct (_ ≠! _) eqn:Hs; [done|]. case_match; [done|]. apply carries_extend; [|done]. apply carries_risk; [done|].
    apply used_kept_other. intros c' _ Hc'. simplify_eq. split_bools. congruence.
  - by apply verify_risk_carries.
  - apply consume_carries.
  - apply step_up_carries. by apply Forall_cons in Hcl as [Hcl _].
  - apply finish_totp_carries. by apply Forall_cons in Hcl as [Hcl _].
  - unfold create_login_challenge. destruct (_ || _ || _ || _ || _ || _) eqn:E; [done|].
    apply carries_extend; [|done].
    transitivity (set_risk_challenges db (<[a.(la_challenge).(rk_risk_challenge_id) := a.(la_challenge)]>
      db.(risk_challenges))); [|by apply carries_tables]. apply carries_risk; [done|]. apply used_kept_other. split_bools. intros c _ Hc. exfalso. eauto.
  - unfold reject_login_challenge. case_match; [done|]. destruct (risk_challenges db !! id) as [c|] eqn:Hc; [|done].
    destruct (_ || _ || _ || _) eqn:E; [done|]. apply carries_extend; [|done]. apply carries_risk; [done|].
    apply used_kept_other. intros c' _ Hc'. simplify_eq. split_bools. congruence.
  - by apply finish_login_carries.
Qed.


(** ** What the operations on devices do *)

Lemma registered_parts db c db' d :
  register_device db c = (Ok (Created d), db') →
  d = c.(rg_device)
  ∧ db.(core).(db_devices) !! d.(dv_device_id) = None
  ∧ db'.(core).(db_devices) = <[d.(dv_device_id) := d]> db.(core).(db_devices)
  ∧ db'.(device_public_keys) = <[d.(dv_public_key_id) := {|
      pk_public_key_id := d.(dv_public_key_id); pk_device_id := d.(dv_device_id);
      pk_public_key := d.(dv_public_key); pk_version := d.(dv_public_key_version);
      pk_created_at := d.(dv_created_at); pk_revoked_at := d.(dv_public_key_revoked_at) |}]> db.(device_public_keys).
Proof.
  intros H. apply register_device_created in H as (-> & g & _ & _ & _ & _ & _ & _ & H).
  by apply first_registration_ok in H as (Hn & _ & trusted & trusts & es & _ & ->).
Qed.

Lemma managed_parts db c ch db' :
  manage_device db c = (Ok (DeviceUpdated ch), db') →
  ∃ target, db.(core).(db_devices) !! c.(dm_target_device_id) = Some target
    ∧ target.(dv_device_id) = c.(dm_target_device_id)
    ∧ device_management_transition_allowed target c = true
    ∧ ch.(dc_device) = apply_device_management target c
    ∧ db'.(core).(db_devices) = <[c.(dm_target_device_id) := ch.(dc_device)]> db.(core).(db_devices)
    ∧ db'.(device_public_keys) = match ch.(dc_device).(dv_public_key_revoked_at) with
        | Some at_ => alter (λ r, revoke_key r at_) target.(dv_public_key_id) db.(device_public_keys)
        | None => db.(device_public_keys)
        end.
Proof.
  intros H. apply manage_device_updated in H as (target & Ht & _ & Ha & H).
  apply apply_management_ok in H as (sessions & events & audits & _ & Hid & _ & -> & ->).
  exists target. cbn [dc_device]. split_and!; try done; unfold managed_tables.
  - by destruct (tightening _), (default _ _), (dv_public_key_revoked_at _).
  - assert (Hk : (apply_device_management target c).(dv_public_key_id) = target.(dv_public_key_id))
      by (unfold apply_device_management; by destruct c.(dm_action) as [[]|]).
    rewrite <-Hk. by destruct (tightening _), (default _ _), (dv_public_key_revoked_at _).
Qed.

Lemma rotated_parts db r ch db' :
  rotate_device_key db r = (Ok ch, db') →
  ∃ current, db.(core).(db_devices) !! r.(kr_step_up).(sx_device_id) = Some current
    ∧ rotation_allowed db r current = true
    ∧ db'.(core).(db_devices) = <[r.(kr_step_up).(sx_device_id) :=
        set_device current current.(dv_display_name) current.(dv_capabilities) r.(kr_new_public_key_id)
          r.(kr_new_public_key) r.(kr_new_public_key_version) None current.(dv_status) r.(kr_step_up).(sx_now)]>
        db.(core).(db_devices)
    ∧ db'.(device_public_keys) = <[r.(kr_new_public_key_id) := {|
        pk_public_key_id := r.(kr_new_public_key_id); pk_device_id := r.(kr_step_up).(sx_device_id);
        pk_public_key := r.(kr_new_public_key); pk_version := r.(kr_new_public_key_version);
        pk_created_at := r.(kr_step_up).(sx_now); pk_revoked_at := None |}]>
        (alter (λ k, revoke_key k r.(kr_step_up).(sx_now)) r.(kr_current_public_key_id) db.(device_public_keys)).
Proof.
  unfold rotate_device_key. destruct (apply_device_key_rotation db r) as [[ch' db1]|] eqn:E; [|done]. intros [= -> ->].
  apply apply_rotation_ok in E as (current & consumed & epochs & source & ss & es & closing & rest & Hc & Ha & _ & _
    & Hcon & _ & _ & _ & ->).
  exists current. pose proof (consume_carries db r.(kr_step_up)) as [Hd _ Hk _ _ _ _]. rewrite Hcon in Hd, Hk.
  cbn [snd] in Hd, Hk. split_and!; try done; cbn; [by rewrite Hd|by rewrite Hk].
Qed.

(** An operation leaves devices alone or does one of the three. *)
Lemma device_op_cases db o :
  op_fresh db o →
  let db' := (perform db o).2 in
  carries db db'
  ∨ (∃ c d, Forall clean (op_audits (DoRegisterDevice c)) ∧ db.(device_public_keys) !! d.(dv_public_key_id) = None
       ∧ register_device db c = (Ok (Created d), db'))
  ∨ (∃ c ch, clean c.(dm_audit) ∧ manage_device db c = (Ok (DeviceUpdated ch), db'))
  ∨ (∃ r ch, clean r.(kr_audit) ∧ db.(device_public_keys) !! r.(kr_new_public_key_id) = None
       ∧ rotate_device_key db r = (Ok ch, db')).
Proof.
  intros Ho. destruct (on_devices o) eqn:Hon; [|left; by apply perform_carries].
  destruct o as [| | | | | | | | | | | | | |c|r|c]; try discriminate Hon; destruct Ho as [Hcl Ho]; cbn [perform answer snd] in *.
  - destruct (register_device db c) as [res db'] eqn:E. cbn [snd]. destruct res as [[d| |]|].
    { right. left. exists c, d. split_and!; try done. by apply registered_parts in E as (-> & _). }
    all: left; pose proof (register_device_other db c) as Hsame; rewrite E in Hsame; cbn in Hsame; by rewrite Hsame.
  - destruct (rotate_device_key db r) as [res db'] eqn:E. cbn [snd]. destruct res as [ch|e].
    { do 3 right. exists r, ch. split_and!; try done. by apply Forall_cons in Hcl as [? _]. }
    left. unfold rotate_device_key in E. by destruct (apply_device_key_rotation db r) as [[]|]; simplify_eq.
  - destruct (manage_device db c) as [res db'] eqn:E. cbn [snd]. destruct res as [[ch| |]|].
    { do 2 right. left. exists c, ch. split; [|done]. by apply Forall_cons in Hcl as [? _]. }
    all: left; pose proof (manage_device_other db c) as Hsame; rewrite E in Hsame; cbn in Hsame; by rewrite Hsame.
Qed.

Lemma device_step_cases (db db' : AccountDb) (Q : gmap rstr Device → gmap rstr DevicePublicKeyRecord → Prop) :
  account_step db db' → Q db.(core).(db_devices) db.(device_public_keys) →
  (∀ c d, register_device db c = (Ok (Created d), db') → db.(device_public_keys) !! d.(dv_public_key_id) = None →
     Q db'.(core).(db_devices) db'.(device_public_keys)) →
  (∀ c ch, manage_device db c = (Ok (DeviceUpdated ch), db') → Q db'.(core).(db_devices) db'.(device_public_keys)) →
  (∀ r ch, rotate_device_key db r = (Ok ch, db') → db.(device_public_keys) !! r.(kr_new_public_key_id) = None →
     Q db'.(core).(db_devices) db'.(device_public_keys)) →
  Q db'.(core).(db_devices) db'.(device_public_keys).
Proof.
  intros H Hq Hreg Hman Hrot. destruct H as [o Ho|c es Hd Ha Hes].
  2:{ cbn. by rewrite Hd. }
  destruct (device_op_cases db o Ho) as [[-> _ -> _ _ _ _]|[(c & d & _ & Hk & E)|[(c & ch & _ & E)|(r & ch & _ & Hk & E)]]]; eauto.
Qed.

(** ** Keys in force *)

(** The record of the key of a device. *)
Definition key_of (d : Device) (r : DevicePublicKeyRecord) : Prop :=
  r.(pk_public_key_id) = d.(dv_public_key_id) ∧ r.(pk_device_id) = d.(dv_device_id)
  ∧ r.(pk_public_key) = d.(dv_public_key) ∧ r.(pk_version) = d.(dv_public_key_version)
  ∧ r.(pk_revoked_at) = d.(dv_public_key_revoked_at).

(** Devices have records of their keys, and a key in force is the key of its
    device. *)
Record keys_match (devices : gmap rstr Device) (keys : gmap rstr DevicePublicKeyRecord) : Prop := {
  km_device : ∀ id d, devices !! id = Some d → d.(dv_device_id) = id
    ∧ ∃ r, keys !! d.(dv_public_key_id) = Some r ∧ key_of d r;
  km_key : ∀ kid r, keys !! kid = Some r → r.(pk_revoked_at) = None →
    ∃ d, devices !! r.(pk_device_id) = Some d ∧ d.(dv_public_key_id) = kid }.

(** Devices do not share keys. *)
Lemma keys_match_inj devices keys i j d e :
  keys_match devices keys → devices !! i = Some d → devices !! j = Some e →
  d.(dv_public_key_id) = e.(dv_public_key_id) → i = j.
Proof.
  intros [H _] Hd He Heq. destruct (H i d Hd) as (<- & r & Hr & (_ & Hi & _)).
  destruct (H j e He) as (<- & r' & Hr' & (_ & Hj & _)). rewrite Heq in Hr. congruence.
Qed.

Lemma keys_match_new devices keys d r :
  keys_match devices keys → devices !! d.(dv_device_id) = None → keys !! d.(dv_public_key_id) = None → key_of d r →
  keys_match (<[d.(dv_device_id) := d]> devices) (<[d.(dv_public_key_id) := r]> keys).
Proof.
  intros H Hn Hk Hr. split.
  - intros id e [[<- <-]|[Hne He]]%lookup_insert_Some.
    + split; [done|]. exists r. by rewrite lookup_insert_eq.
    + destruct (km_device _ _ H _ _ He) as (<- & r' & Hr' & Hof). split; [done|]. exists r'.
      rewrite lookup_insert_ne by congruence. done.
  - intros kid x [[<- <-]|[Hne Hx]]%lookup_insert_Some Hrev.
    + destruct Hr as (_ & -> & _). exists d. by rewrite lookup_insert_eq.
    + destruct (km_key _ _ H _ _ Hx Hrev) as (e & He & Hid). exists e. rewrite lookup_insert_ne by congruence. done.
Qed.

(** The key of a device changes its state with the device. *)
Lemma keys_match_update devices keys id d d' f :
  keys_match devices keys → devices !! id = Some d → d'.(dv_device_id) = id →
  d'.(dv_public_key_id) = d.(dv_public_key_id) → (∀ r, key_of d r → key_of d' (f r)) →
  keys_match (<[id := d']> devices) (alter f d.(dv_public_key_id) keys).
Proof.
  intros H Hd Hid Hk Hf. pose proof (km_device _ _ H _ _ Hd) as (Hself & r & Hr & Hof). split.
  - intros i e [[<- <-]|[Hne He]]%lookup_insert_Some.
    + split; [done|]. exists (f r). rewrite Hk, lookup_alter_eq, Hr. split; [done|auto].
    + destruct (km_device _ _ H _ _ He) as (Hi & r' & Hr' & Hof'). split; [done|]. exists r'. split; [|done].
      rewrite lookup_alter_ne; [done|]. intros Heq. by apply Hne, (keys_match_inj _ _ _ _ _ _ H Hd He).
  - intros kid x. destruct (decide (kid = d.(dv_public_key_id))) as [->|Hne].
    + rewrite lookup_alter_eq, Hr. intros [= <-] _. destruct (Hf r Hof) as (_ & -> & _). rewrite Hid. exists d'.
      by rewrite lookup_insert_eq.
    + rewrite lookup_alter_ne by done. intros Hx Hrev. destruct (km_key _ _ H _ _ Hx Hrev) as (e & He & Hke).
      exists e. rewrite lookup_insert_ne; [done|]. congruence.
Qed.

(** The key of a device is replaced by another. *)
Lemma keys_match_replace devices keys id d d' r now :
  keys_match devices keys → devices !! id = Some d → d'.(dv_device_id) = id →
  keys !! d'.(dv_public_key_id) = None → key_of d' r →
  keys_match (<[id := d']> devices)
    (<[d'.(dv_public_key_id) := r]> (alter (λ k, revoke_key k now) d.(dv_public_key_id) keys)).
Proof.
  intros H Hd Hid Hnew Hr. split.
  - intros i e [[<- <-]|[Hne He]]%lookup_insert_Some.
    + split; [done|]. exists r. by rewrite lookup_insert_eq.
    + destruct (km_device _ _ H _ _ He) as (Hi & r' & Hr' & Hof'). split; [done|]. exists r'. split; [|done].
      rewrite lookup_insert_ne by congruence. rewrite lookup_alter_ne; [done|].
      intros Heq. by apply Hne, (keys_match_inj _ _ _ _ _ _ H Hd He).
  - intros kid x [[<- <-]|[Hne Hx]]%lookup_insert_Some Hrev.
    + destruct Hr as (_ & -> & _). rewrite Hid. exists d'. by rewrite lookup_insert_eq.
    + destruct (decide (kid = d.(dv_public_key_id))) as [->|Hk].
      { rewrite lookup_alter_eq in Hx. destruct (keys !! d.(dv_public_key_id)); [|done]. by injection Hx as <-. }
      rewrite lookup_alter_ne in Hx by done. destruct (km_key _ _ H _ _ Hx Hrev) as (e & He & Hke).
      exists e. rewrite lookup_insert_ne; [done|]. congruence.
Qed.

Lemma keys_match_step (db db' : AccountDb) :
  account_step db db' → keys_match db.(core).(db_devices) db.(device_public_keys) →
  keys_match db'.(core).(db_devices) db'.(device_public_keys).
Proof.
  intros Hst H. apply (device_step_cases db db' keys_match Hst H).
  - intros c d E Hk. apply registered_parts in E as (_ & Hn & -> & ->). by apply keys_match_new.
  - intros c ch E. apply managed_parts in E as (target & Ht & Hid & _ & -> & -> & ->).
    assert (Hsame : ∀ f, (∀ r, key_of target r → key_of (apply_device_management target c) (f r)) →
      keys_match (<[c.(dm_target_device_id) := apply_device_management target c]> db.(core).(db_devices))
        (alter f target.(dv_public_key_id) db.(device_public_keys))).
    { intros f. apply keys_match_update; try done; unfold apply_device_management; by destruct c.(dm_action) as [[]|]. }
    destruct (dv_public_key_revoked_at _) as [at_|] eqn:Hat.
    + apply Hsame. intros r (? & ? & ? & ? & ?). unfold apply_device_management in *.
      split_and!; destruct c.(dm_action) as [[]|]; cbn in *; congruence.
    + replace (device_public_keys db) with (alter id target.(dv_public_key_id) (device_public_keys db))
        by by apply alter_id. apply Hsame.
      intros r (? & ? & ? & ? & Hrev). unfold apply_device_management in *.
      split_and!; destruct c.(dm_action) as [[]|]; cbn in *; congruence.
  - intros r ch E Hk. apply rotated_parts in E as (current & Hc & Ha & -> & ->).
    unfold rotation_allowed in Ha. split_bools.
    match goal with Hid : dv_public_key_id current = kr_current_public_key_id r |- _ => rewrite <-Hid end.
    apply (keys_match_replace _ _ _ current (set_device current _ _ _ _ _ _ _ _)); try done.
    all: apply (km_device _ _ H) in Hc as [Hself _]; try done; by split_and!.
Qed.

Lemma keys_match_steps (db db' : AccountDb) :
  rtc account_step db db' → keys_match db.(core).(db_devices) db.(device_public_keys) →
  keys_match db'.(core).(db_devices) db'.(device_public_keys).
Proof. induction 1; eauto using keys_match_step. Qed.

Lemma keys_match_empty : keys_match ∅ ∅.
Proof. by split. Qed.

(** ** Closing the sessions of a device *)

#[local] Arguments forced_session_close_records : simpl never.

Definition sessions_named (m : gmap rstr Session) : Prop := map_Forall (λ id s, s.(se_session_id) = id) m.

Lemma named_ids (f : Session → bool) m :
  sessions_named m →
  (λ kv, kv.2.(se_session_id)) <$> List.filter (λ kv, f kv.2) (btree_iter m)
  = (List.filter (λ kv, f kv.2) (btree_iter m)).*1.
Proof.
  intros H. apply list_fmap_ext. intros i [id x] Hi. apply list_elem_of_lookup_2, list_elem_of_In, List.filter_In in Hi as [Hi _].
  apply list_elem_of_In, btree_iter_elem in Hi. exact (H id x Hi).
Qed.

Lemma filtered_nodup (f : Session → bool) (m : gmap rstr Session) :
  NoDup (List.filter (λ kv, f kv.2) (btree_iter m)).*1.
Proof.
  assert (H : NoDup (btree_iter m).*1).
  { unfold btree_iter. rewrite merge_sort_Permutation. apply NoDup_fst_map_to_list. }
  induction (btree_iter m) as [|[k v] l IH]; [constructor|]. cbn in H |- *. apply NoDup_cons in H as [Hn Hnd].
  destruct (f v); [|by apply IH]. cbn. apply NoDup_cons. split; [|by apply IH]. contradict Hn.
  apply list_elem_of_fmap in Hn as ([k' v'] & -> & Hin). apply list_elem_of_In, List.filter_In in Hin as [Hin _].
  apply list_elem_of_fmap. exists (k', v'). by split; [|apply list_elem_of_In].
Qed.

Lemma filtered_elem (f : Session → bool) (m : gmap rstr Session) id :
  id ∈ (List.filter (λ kv, f kv.2) (btree_iter m)).*1 ↔ ∃ s, m !! id = Some s ∧ f s = true.
Proof.
  rewrite list_elem_of_fmap. split.
  - intros ([k v] & -> & Hin). apply list_elem_of_In, List.filter_In in Hin as [Hin Hf].
    apply list_elem_of_In, btree_iter_elem in Hin. eauto.
  - intros (x & Hx & Hf). exists (id, x). split; [done|]. apply list_elem_of_In, List.filter_In. split; [|done].
    by apply list_elem_of_In, btree_iter_elem.
Qed.

Lemma open_sessions_spec k device :
  sessions_named k.(db_sessions) →
  NoDup (open_sessions_of k device)
  ∧ ∀ id, id ∈ open_sessions_of k device ↔ ∃ s, k.(db_sessions) !! id = Some s ∧ involves device s = true.
Proof.
  intros H. unfold open_sessions_of. rewrite named_ids by done. split; [|intros id].
  - rewrite merge_sort_Permutation. apply filtered_nodup.
  - rewrite merge_sort_Permutation. apply filtered_elem.
Qed.

(** The sessions to close: distinct, open and under their identifiers. *)
Definition closable (m : gmap rstr Session) (ids : list rstr) : Prop :=
  NoDup ids ∧ ∀ id, id ∈ ids → ∃ s, m !! id = Some s ∧ s.(se_session_id) = id ∧ is_terminal s.(se_status) = false.

Lemma closable_tail m id ids s : closable m (id :: ids) → closable (<[id := s]> m) ids.
Proof.
  intros [Hnd H]. apply NoDup_cons in Hnd as [Hn Hnd']. split; [done|]. intros i Hi.
  rewrite lookup_insert_ne by congruence. apply H. by right.
Qed.

Lemma open_closable k device : sessions_named k.(db_sessions) → closable k.(db_sessions) (open_sessions_of k device).
Proof.
  intros H. destruct (open_sessions_spec k device H) as [Hnd Hel]. split; [done|]. intros id Hid.
  apply Hel in Hid as (x & Hx & Hi). exists x. split_and!; [done|by apply H|]. unfold involves in Hi. by split_bools.
Qed.

Definition after_closing (k : Database) (sessions : gmap rstr Session) (events : list SessionEvent)
    (audits : list AuditEntry) : Database := {|
  db_devices := k.(db_devices); db_sessions := sessions; db_session_events := k.(db_session_events) ++ events;
  db_session_idempotency := k.(db_session_idempotency); db_policy_evaluations := k.(db_policy_evaluations);
  db_audit_logs := k.(db_audit_logs) ++ audits |}.

(** The loop is a run of forced closes. *)
Lemma close_sessions_run k pending ids source reason now sessions events audits :
  closable k.(db_sessions) ids →
  close_sessions k.(db_sessions) ids source (Some reason) now = Ok (sessions, events, audits) →
  rtc api_step {| api_db := k; api_pending := pending |}
    {| api_db := after_closing k sessions events audits; api_pending := pending |}.
Proof.
  revert k events audits. induction ids as [|id ids IH]; intros k events audits Hcl H.
  - injection H as <- <- <-. unfold after_closing. rewrite !app_nil_r. by destruct k.
  - cbn in H. apply bind_ok in H as (x & Hx & H). apply ok_or_ok in Hx. apply bind_ok in H as (epoch & He & H).
    cbn in H. destruct (forced_session_close_records _ _ _ _) as [event audit] eqn:Hr.
    apply bind_ok in H as ([[ss es] aus] & Hrec & H). injection H as <- <- <-.
    destruct (proj2 Hcl id) as (y & Hy & Hname & Hopen); [by left|]. rewrite Hx in Hy. injection Hy as <-.
    set (closed := closed_session x epoch now) in *.
    eapply rtc_l.
    + apply (api_force _ id x source reason now (write_session k closed event audit)); [done..|].
      unfold close_forced. cbn [api_db]. rewrite Hx. cbn [ok_or mbind result_bind].
      unfold next_epoch in He. rewrite He. cbn [mbind result_bind]. fold (closed_session x epoch now). fold closed.
      by rewrite Hr.
    + assert (Hid : closed.(se_session_id) = id) by done.
      assert (Hw : (write_session k closed event audit).(db_sessions) = <[id := closed]> k.(db_sessions))
        by (cbn; by rewrite Hname).
      specialize (IH (write_session k closed event audit) es aus). rewrite Hw in IH.
      specialize (IH (closable_tail _ _ _ _ Hcl) Hrec). cbn [api_pending].
      unfold after_closing in *. cbn in IH |- *. by rewrite <-!(assoc_L (++)) in IH.
Qed.

Lemma close_sessions_closed m ids source reason now sessions events audits :
  closable m ids → close_sessions m ids source reason now = Ok (sessions, events, audits) →
  ∀ id s, sessions !! id = Some s →
    (id ∈ ids ∧ s.(se_status) = Closed) ∨ ((id ∉ ids) ∧ m !! id = Some s).
Proof.
  revert m events audits. induction ids as [|i ids IH]; intros m events audits Hcl H id x Hx.
  - injection H as <- _ _. right. split; [|done]. apply not_elem_of_nil.
  - cbn in H. apply bind_ok in H as (y & _ & H). apply bind_ok in H as (epoch & _ & H).
    apply bind_ok in H as (r & _ & H). destruct (forced_session_close_records _ _ _ _) as [event audit].
    apply bind_ok in H as ([[ss es] aus] & Hrec & H). injection H as <- _ _.
    destruct (IH _ _ _ (closable_tail _ _ _ _ Hcl) Hrec id x Hx) as [[Hin Hs]|[Hn Hs]].
    + left. by split; [right|].
    + apply lookup_insert_Some in Hs as [[<- <-]|[Hne Hs]]; [left; by split; [left|]|].
      right. split; [|done]. apply not_elem_of_cons. by split.
Qed.

(** Every session that was closed has its event. *)
Lemma close_sessions_events m ids source reason t sessions events audits :
  closable m ids → close_sessions m ids source reason t = Ok (sessions, events, audits) →
  ∀ id s, id ∈ ids → m !! id = Some s →
    ∃ e epoch, e ∈ events ∧ e.(ev_result_session) = Some (closed_session s epoch t).
Proof.
  revert m events audits. induction ids as [|i ids IH]; intros m events audits Hcl H id s Hin Hs.
  { by apply not_elem_of_nil in Hin. }
  cbn in H. apply bind_ok in H as (x & Hx & H). apply ok_or_ok in Hx. apply bind_ok in H as (epoch & _ & H).
  apply bind_ok in H as (rs & _ & H). destruct (forced_session_close_records _ _ _ _) as [event audit] eqn:Hr.
  apply bind_ok in H as ([[ss es] aus] & Hrec & H). injection H as <- <- <-.
  assert (Hev : event.(ev_result_session) = Some (closed_session x epoch t)).
  { unfold forced_session_close_records in Hr. by injection Hr as <- _. }
  apply elem_of_cons in Hin as [->|Hin].
  - rewrite Hx in Hs. injection Hs as <-. exists event, epoch. split; [left|done].
  - destruct Hcl as [Hnd Hcl]. pose proof Hnd as Hnd'. apply NoDup_cons in Hnd' as [Hn _].
    destruct (IH _ _ _ (closable_tail _ _ _ _ (conj Hnd Hcl)) Hrec id s Hin) as (e & ep & He & Hes).
    + rewrite lookup_insert_ne; [done|]. by intros ->.
    + exists e, ep. split; [by right|done].
Qed.

(** A rotation knows the epochs beforehand, and closes in the same way. *)
Lemma close_at_epochs_same m (epochs : list (rstr * Z)) source reason now :
  closable m epochs.*1 → Forall (λ e, ∃ s, m !! (e.1) = Some s ∧ next_epoch s = Some e.2) epochs →
  close_sessions m epochs.*1 source (Some reason) now = Ok (close_at_epochs m epochs source reason now).
Proof.
  revert m. induction epochs as [|[id epoch] epochs IH]; intros m Hcl Hep; [done|].
  apply Forall_cons in Hep as [(x & Hx & He) Hep]. cbn in Hx, He |- *. rewrite Hx. cbn. rewrite He. cbn.
  destruct (forced_session_close_records _ _ _ _) as [event audit].
  rewrite IH.
  - cbn. by destruct (close_at_epochs _ _ _ _ _) as [[ss es] aus].
  - by eapply closable_tail.
  - destruct Hcl as [Hnd _]. apply NoDup_cons in Hnd as [Hn _].
    apply Forall_forall. intros e Hin. rewrite Forall_forall in Hep. destruct (Hep e Hin) as (y & Hy & Hey). exists y.
    rewrite lookup_insert_ne; [done|]. intros ->. apply Hn. apply list_elem_of_fmap. by exists e.
Qed.

Lemma affected_epochs_ok k device epochs :
  sessions_named k.(db_sessions) → affected_epochs k device = Ok epochs →
  closable k.(db_sessions) epochs.*1
  ∧ Forall (λ e, ∃ s, k.(db_sessions) !! e.1 = Some s ∧ next_epoch s = Some e.2) epochs.
Proof.
  intros Hn H. unfold affected_epochs in H. apply bind_ok in H as (l & Hl & H). injection H as <-.
  apply collect_ok in Hl.
  set (open := List.filter (λ kv, involves device kv.2) (btree_iter k.(db_sessions))) in *.
  assert (Hopen : Forall2 (λ (kv : rstr * Session) e, e.1 = kv.1 ∧ next_epoch kv.2 = Some e.2) open l).
  { assert (Hin : Forall (λ kv, kv.2.(se_session_id) = kv.1) open).
    { apply Forall_forall. intros [id x] Hi. apply list_elem_of_In, List.filter_In in Hi as [Hi _].
      apply list_elem_of_In, btree_iter_elem in Hi. exact (Hn id x Hi). }
    revert Hin. induction Hl as [|kv e open' l' He Hl IH]; intros Hin; [constructor|].
    apply Forall_cons in Hin as [Hid Hin]. constructor; [|by apply IH].
    apply bind_ok in He as (epoch & He & [= <-]). by apply ok_or_ok in He. }
  assert (Hfst : l.*1 = open.*1).
  { clear Hl. induction Hopen as [|kv e open' l' [He _] _ IH]; [done|]. cbn. by rewrite He, IH. }
  assert (Hnd : NoDup l.*1) by (rewrite Hfst; apply filtered_nodup).
  assert (Hel : ∀ e, e ∈ l → ∃ x, k.(db_sessions) !! e.1 = Some x ∧ involves device x = true ∧ next_epoch x = Some e.2).
  { intros e Hin. apply list_elem_of_lookup_1 in Hin as [i Hi].
    destruct (Forall2_lookup_r _ _ _ _ _ Hopen Hi) as ([id x] & Hkv & Heq & Hne). cbn in Heq, Hne.
    apply list_elem_of_lookup_2, list_elem_of_In, List.filter_In in Hkv as [Hkv Hf].
    apply list_elem_of_In, btree_iter_elem in Hkv. exists x. by rewrite Heq. }
  split; [split|].
  - by rewrite merge_sort_Permutation.
  - intros id. rewrite merge_sort_Permutation. intros Hid. apply list_elem_of_fmap in Hid as (e & -> & Hin).
    destruct (Hel e Hin) as (x & Hx & Hi & _). exists x. split_and!; [done|by apply Hn|].
    unfold involves in Hi. by split_bools.
  - rewrite merge_sort_Permutation. apply Forall_forall. intros e Hin. destruct (Hel e Hin) as (x & Hx & _ & He). eauto.
Qed.

(** *** The operations as runs of the API *)

Lemma reachable_named a : api_reachable a → sessions_named a.(api_db).(db_sessions).
Proof. intros H id x Hx. pose proof (ai_tables a (api_reachable_inv a H) id) as Ht. rewrite Hx in Ht. by destruct Ht. Qed.

(** A change of the rest of the tables after a run. *)
Lemma run_then_other k k1 k' pending :
  rtc api_step {| api_db := k; api_pending := pending |} {| api_db := k1; api_pending := pending |} →
  devices_ok k' → session_tables k' = session_tables k1 → k1.(db_audit_logs) `prefix_of` k'.(db_audit_logs) →
  rtc api_step {| api_db := k; api_pending := pending |} {| api_db := k'; api_pending := pending |}.
Proof.
  intros Hr Hd [= Hs He Hi] Ha. eapply rtc_r; [exact Hr|]. by apply (api_other {| api_db := k1; api_pending := pending |}).
Qed.

Lemma managed_session_tables db c target sessions events audits :
  session_tables (extend_audit (managed_tables db c target sessions events) audits).(core)
  = (sessions, db.(core).(db_session_events) ++ events, db.(core).(db_session_idempotency))
  ∧ (extend_audit (managed_tables db c target sessions events) audits).(core).(db_audit_logs)
    = db.(core).(db_audit_logs) ++ audits.
Proof. unfold managed_tables. by destruct (tightening _), (default _ _), (dv_public_key_revoked_at _). Qed.

Lemma manage_run db c ch db' pending :
  sessions_named db.(core).(db_sessions) → devices_ok db.(core) →
  manage_device db c = (Ok (DeviceUpdated ch), db') →
  rtc api_step {| api_db := db.(core); api_pending := pending |} {| api_db := db'.(core); api_pending := pending |}.
Proof.
  intros Hn Hd H. pose proof (managed_parts _ _ _ _ H) as (target & Ht & Hid & _ & Hdev & Hdevs & _).
  apply manage_device_updated in H as (target' & Ht' & _ & _ & H). rewrite Ht in Ht'. injection Ht' as <-.
  apply apply_management_ok in H as (sessions & events & audits & Hclose & _ & _ & _ & Hdb).
  assert (Hok : devices_ok db'.(core)).
  { unfold devices_ok. rewrite Hdevs. apply map_Forall_insert_2; [|done]. rewrite Hdev, <-Hid.
    unfold apply_device_management. by destruct c.(dm_action) as [[]|]. }
  destruct (managed_session_tables db c target sessions events audits) as [Htab Haud]. rewrite <-Hdb in Htab, Haud.
  destruct (tightening c.(dm_action)).
  - destruct Hclose as (reason & closing & _ & Hc & rest & ->).
    eapply run_then_other; [by eapply close_sessions_run; [apply open_closable|exact Hc]|done|done|].
    rewrite Haud. cbn. rewrite (assoc_L (++)). by apply prefix_app_r.
  - destruct Hclose as [-> ->]. eapply run_then_other; [reflexivity|done| |].
    + rewrite Htab, app_nil_r. done.
    + rewrite Haud. by apply prefix_app_r.
Qed.

Lemma rotate_run db r ch db' pending :
  sessions_named db.(core).(db_sessions) → devices_ok db.(core) → rotate_device_key db r = (Ok ch, db') →
  rtc api_step {| api_db := db.(core); api_pending := pending |} {| api_db := db'.(core); api_pending := pending |}.
Proof.
  intros Hn Hd H. pose proof (rotated_parts _ _ _ _ H) as (current & Hc & _ & Hdevs & _).
  unfold rotate_device_key in H. destruct (apply_device_key_rotation db r) as [[ch' db1]|] eqn:E; [|done].
  injection H as -> ->.
  apply apply_rotation_ok in E as (current' & consumed & epochs & source & ss & es & closing & rest & Hc' & _ & _ & Hep
    & Hcon & Hclose & _ & _ & Hdb).
  destruct (affected_epochs_ok _ _ _ Hn Hep) as [Hcl Hall].
  pose proof (close_at_epochs_same _ _ source (str "device_key_rotated") r.(kr_step_up).(sx_now) Hcl Hall) as Hsame.
  rewrite Hclose in Hsame.
  assert (Hok : devices_ok db'.(core)).
  { unfold devices_ok. rewrite Hdevs. apply map_Forall_insert_2; [|done]. exact (Hd _ _ Hc). }
  pose proof (consume_carries db r.(kr_step_up)) as [_ Htab _ _ _ _ _]. rewrite Hcon in Htab. injection Htab as Hs He Hi.
  assert (Haud : consumed.(core).(db_audit_logs) = db.(core).(db_audit_logs)).
  { unfold consume_step_up_in_database in Hcon. by repeat case_match; simplify_eq. }
  eapply run_then_other; [by eapply close_sessions_run|done| |].
  - subst db'. unfold session_tables. cbn. by rewrite He, Hi.
  - subst db'. cbn. rewrite Haud, (assoc_L (++)). by apply prefix_app_r.
Qed.

Lemma register_run db c d db' pending :
  devices_ok db.(core) → register_device db c = (Ok (Created d), db') →
  rtc api_step {| api_db := db.(core); api_pending := pending |} {| api_db := db'.(core); api_pending := pending |}.
Proof.
  intros Hd H. pose proof (registered_parts _ _ _ _ H) as (-> & _ & Hdevs & _).
  assert (Hok : devices_ok db'.(core)) by (unfold devices_ok; rewrite Hdevs; by apply map_Forall_insert_2).
  apply register_device_created in H as (_ & g & _ & _ & _ & _ & _ & _ & H).
  apply first_registration_ok in H as (_ & _ & trusted & trusts & es & _ & Hdb).
  eapply run_then_other; [reflexivity|done|by subst db'|]. subst db'. by apply prefix_app_r.
Qed.

Lemma carried_run db db' pending :
  devices_ok db.(core) → carries db db' →
  rtc api_step {| api_db := db.(core); api_pending := pending |} {| api_db := db'.(core); api_pending := pending |}.
Proof.
  intros Hd [D S _ _ _ _ (es & A & _)]. eapply run_then_other; [reflexivity|unfold devices_ok; by rewrite D|done|].
  rewrite A. by apply prefix_app_r.
Qed.

(** ** A device without its key *)

(** The key is revoked and the device may not act. *)
Definition shut_out (d : Device) : Prop :=
  is_Some d.(dv_public_key_revoked_at) ∧ is_authorizable d.(dv_status) = false.

Definition stays_out (id : rstr) (devices : gmap rstr Device) : Prop :=
  ∃ d, devices !! id = Some d ∧ shut_out d.

Lemma stays_out_step (db db' : AccountDb) id :
  account_step db db' → stays_out id db.(core).(db_devices) → stays_out id db'.(core).(db_devices).
Proof.
  intros Hst (d & Hd & Hrev & Hno). apply (device_step_cases db db' (λ devices _, stays_out id devices) Hst).
  - by exists d.
  - intros c e E _. apply registered_parts in E as (_ & Hn & -> & _). exists d. rewrite lookup_insert_ne by congruence. done.
  - intros c ch E. apply managed_parts in E as (target & Ht & _ & Ha & Hch & -> & _).
    destruct (decide (id = c.(dm_target_device_id))) as [->|Hne]; [|exists d; by rewrite lookup_insert_ne].
    rewrite Hd in Ht. injection Ht as <-. eexists. rewrite lookup_insert_eq. split; [done|]. rewrite Hch.
    unfold device_management_transition_allowed, apply_device_management in *. case_match; [done|].
    destruct Hrev as [at_ Hat]. rewrite Hat in Ha |- *.
    destruct c.(dm_action) as [[]|]; cbn in Ha |- *; rewrite ?andb_false_r in Ha; try done; try congruence.
    all: split; [by eexists|done].
  - intros r ch E _. apply rotated_parts in E as (current & Hc & Ha & -> & _).
    destruct (decide (id = r.(kr_step_up).(sx_device_id))) as [->|Hne]; [|exists d; by rewrite lookup_insert_ne].
    rewrite Hd in Hc. injection Hc as <-. unfold rotation_allowed in Ha. destruct Hrev as [at_ Hat]. rewrite Hat in Ha.
    cbn in Ha. by rewrite !andb_false_r in Ha.
Qed.

Lemma stays_out_steps (db db' : AccountDb) id :
  rtc account_step db db' → stays_out id db.(core).(db_devices) → stays_out id db'.(core).(db_devices).
Proof. induction 1; eauto using stays_out_step. Qed.

Lemma out_unsigned k id claims q now :
  stays_out id k.(db_devices) → q.(hr_headers) !! str "x-rctl-device-id" = Some id →
  ∀ r, signed_request_checks k claims q now ≠ Ok r.
Proof.
  intros (d & Hd & Hrev & Hno) Hid r H. unfold signed_request_checks, required_header in H. rewrite Hid in H.
  apply bind_ok in H as (i & Hi & H). cbn in Hi. unfold nonempty in Hi.
  assert (i = id) as -> by (destruct id; [done|by injection Hi]).
  apply bind_ok in H as (? & _ & H). apply bind_ok in H as (? & _ & H). apply bind_ok in H as (? & _ & H).
  apply bind_ok in H as (? & _ & H). apply bind_ok in H as ([] & _ & H). apply bind_ok in H as (d' & Hd' & H).
  apply ok_or_ok in Hd'. rewrite Hd in Hd'. injection Hd' as <-. apply bind_ok in H as ([] & Hg & _).
  apply ensure_ok in Hg. rewrite Hno in Hg. by rewrite orb_true_r in Hg.
Qed.

Lemma out_unauthorized cf db id headers q now :
  stays_out id db.(core).(db_devices) → q.(dq_device_id) = id → ∀ r, signal_device_auth cf db headers q now ≠ Ok r.
Proof.
  intros (d & Hd & Hrev & Hno) <- r H. unfold signal_device_auth in H. apply bind_ok in H as ([] & _ & H).
  apply bind_ok in H as (claims & _ & H). apply bind_ok in H as ([] & _ & H). apply bind_ok in H as ([valid d'] & Hl & H).
  apply ok_or_ok in Hl. unfold load_signal_device_authority in Hl. rewrite Hd in Hl. injection Hl as _ <-.
  apply bind_ok in H as ([] & _ & H). apply bind_ok in H as ([] & Hg & _).
  apply ensure_ok in Hg. rewrite Hno in Hg. by rewrite !orb_true_r in Hg.
Qed.

(** ** The record of a registration *)

Definition names_grant (gid : rstr) (e : AuditEntry) : bool := registration_result_grant_id e.(au_metadata) =! Some gid.

Lemma clean_names_none gid e : clean e → names_grant gid e = false.
Proof. unfold clean, names_grant, registration_result_grant_id. intros ->. by apply bool_decide_eq_false. Qed.

Lemma record_names c gid : names_grant gid (device_registration_result_audit c) = (c.(rg_grant_id) =! gid).
Proof.
  unfold names_grant, registration_result_grant_id, device_registration_result_audit, with_metadata. cbn [au_metadata].
  rewrite lookup_insert_eq. cbn [mbind option_bind].
  assert (H : json_get (str "grant_id") (snapshot_to_value (registration_snapshot c)) = Some (VString c.(rg_grant_id)))
    by (vm_compute; reflexivity).
  rewrite H. cbn. apply bool_decide_ext. split; [by intros [= ->]|by intros ->].
Qed.

Definition key_identity (r : DevicePublicKeyRecord) : rstr * rstr * bytes * Z :=
  (r.(pk_public_key_id), r.(pk_device_id), r.(pk_public_key), r.(pk_version)).

(** The grant was open and is used now. *)
Definition first_use (gid : rstr) (db db' : AccountDb) : Prop :=
  ∃ g g', db.(device_enrollment_grants) !! gid = Some g ∧ g.(gr_consumed_at) = None
    ∧ db'.(device_enrollment_grants) !! gid = Some g' ∧ is_Some g'.(gr_consumed_at).

(** What a registration under the grant [gid] rests on stays. *)
Record keeps (gid : rstr) (db db' : AccountDb) : Prop := {
  kp_grant : ∀ g, db.(device_enrollment_grants) !! gid = Some g → is_Some g.(gr_consumed_at) →
    db'.(device_enrollment_grants) !! gid = Some g;
  kp_audit : ∃ es, db'.(core).(db_audit_logs) = db.(core).(db_audit_logs) ++ es
    ∧ Forall (λ e, names_grant gid e = true → first_use gid db db') es;
  kp_keys : ∀ kid r, db.(device_public_keys) !! kid = Some r →
    ∃ r', db'.(device_public_keys) !! kid = Some r' ∧ key_identity r' = key_identity r;
  kp_trust : trusts_kept db.(trusted_controller_devices) db'.(trusted_controller_devices);
  kp_used : used_kept None db.(risk_challenges) db'.(risk_challenges) }.

#[local] Instance keeps_refl gid : Reflexive (keeps gid).
Proof. intros db. split; try done; [exists []; by rewrite app_nil_r|eauto]. Qed.

Lemma clean_unnamed gid es (Q : Prop) : Forall clean es → Forall (λ e, names_grant gid e = true → Q) es.
Proof. intros H. eapply Forall_impl; [exact H|]. intros e He Hn. apply (clean_names_none gid) in He. congruence. Qed.

Lemma carries_keeps gid db db' : carries db db' → keeps gid db db'.
Proof.
  intros [D S K G T0 U (es & A & C)]. split; [|exists es; split; [done|by apply clean_unnamed]|rewrite K; by eauto|done..].
  intros g Hg _. by eapply lookup_weaken.
Qed.

Lemma alter_keeps_identity (keys : gmap rstr DevicePublicKeyRecord) k now kid r :
  keys !! kid = Some r →
  ∃ r', alter (λ x, revoke_key x now) k keys !! kid = Some r' ∧ key_identity r' = key_identity r.
Proof.
  intros H. destruct (decide (k = kid)) as [->|Hne].
  - rewrite lookup_alter_eq, H. eauto.
  - rewrite lookup_alter_ne by done. eauto.
Qed.

Lemma managed_other_tables db c target sessions events audits :
  let db' := extend_audit (managed_tables db c target sessions events) audits in
  db'.(device_enrollment_grants) = db.(device_enrollment_grants) ∧ db'.(risk_challenges) = db.(risk_challenges)
  ∧ trusts_kept db.(trusted_controller_devices) db'.(trusted_controller_devices).
Proof.
  unfold managed_tables. destruct (tightening _), (default _ _), (dv_public_key_revoked_at _); cbn; split_and!; try done;
    apply trusts_kept_map.
Qed.

Lemma manage_keeps gid db c ch db' :
  clean c.(dm_audit) → manage_device db c = (Ok (DeviceUpdated ch), db') → keeps gid db db'.
Proof.
  intros Hcl H. pose proof (managed_parts _ _ _ _ H) as (target & Ht & _ & _ & _ & _ & Hk).
  apply manage_device_updated in H as (target' & _ & _ & _ & H).
  apply apply_management_ok in H as (sessions & events & audits & _ & _ & Hau & _ & Hdb). specialize (Hau Hcl).
  destruct (managed_other_tables db c target' sessions events audits) as (Hgr & Hrk & Htr). rewrite <-Hdb in Hgr, Hrk, Htr.
  split.
  - intros g Hg _. by rewrite Hgr.
  - exists audits. split; [|by apply clean_unnamed]. subst db'. apply managed_session_tables.
  - intros kid r Hr. rewrite Hk. destruct (dv_public_key_revoked_at _); [by apply alter_keeps_identity|eauto].
  - done.
  - by rewrite Hrk.
Qed.

Lemma rotate_keeps gid db r ch db' :
  clean r.(kr_audit) → db.(device_public_keys) !! r.(kr_new_public_key_id) = None →
  rotate_device_key db r = (Ok ch, db') → keeps gid db db'.
Proof.
  intros Hcl Hnew H. pose proof (rotated_parts _ _ _ _ H) as (current & _ & _ & _ & Hk).
  unfold rotate_device_key in H. destruct (apply_device_key_rotation db r) as [[ch' db1]|] eqn:E; [|done].
  injection H as -> ->.
  apply apply_rotation_ok in E as (current' & consumed & epochs & source & ss & es & closing & rest & _ & _ & _ & _
    & Hcon & _ & Hau & _ & Hdb). specialize (Hau Hcl).
  pose proof (consume_carries db r.(kr_step_up)) as [_ _ _ Hg Ht Hu _]. rewrite Hcon in Hg, Ht, Hu. cbn in Hg, Ht, Hu.
  assert (Haud : consumed.(core).(db_audit_logs) = db.(core).(db_audit_logs)).
  { unfold consume_step_up_in_database in Hcon. by repeat case_match; simplify_eq. }
  split.
  - intros g Hgid _. subst db'. by eapply lookup_weaken.
  - exists (closing ++ rest). split; [subst db'; cbn; by rewrite Haud|by apply clean_unnamed].
  - intros kid x Hx. rewrite Hk, lookup_insert_ne by congruence. by apply alter_keeps_identity.
  - etrans; [exact Ht|]. subst db'. apply trusts_kept_map.
  - by subst db'.
Qed.

Lemma register_keeps gid db c d db' :
  Forall clean (op_audits (DoRegisterDevice c)) → db.(device_public_keys) !! d.(dv_public_key_id) = None →
  register_device db c = (Ok (Created d), db') → keeps gid db db'.
Proof.
  intros Hcl Hnew H. pose proof (registered_parts _ _ _ _ H) as (-> & _ & _ & Hk).
  apply register_device_created in H as (_ & g & Hg & _ & _ & Hopen & _ & _ & H).
  apply first_registration_ok in H as (_ & _ & trusted & trusts & es & Htr & Hdb).
  cbn [op_audits] in Hcl. apply Forall_app in Hcl as [Hcl Hcl3]. apply Forall_cons in Hcl as [_ Hcl].
  apply Forall_cons in Hcl as [Hcl2 _].
  assert (Hgr : db'.(device_enrollment_grants)
                = <[c.(rg_grant_id) := consume_grant g c trusted]> db.(device_enrollment_grants)) by by subst db'.
  split.
  - intros x Hx Hused. rewrite Hgr, lookup_insert_ne; [done|]. intros <-. rewrite Hg in Hx. injection Hx as <-.
    rewrite Hopen in Hused. by destruct Hused.
  - exists (es ++ [device_registration_result_audit c; c.(rg_grant_audit)]). split; [by subst db'|].
    apply Forall_app. split; [apply clean_unnamed|rewrite !Forall_cons; split_and!; [|
      intros Hn; apply (clean_names_none gid) in Hcl2; congruence|apply Forall_nil; exact I]].
    + destruct Htr as [(_ & _ & _ & ->)|(id & t & e & _ & _ & _ & Hr & _ & ->)]; [apply Forall_nil; exact I|].
      apply Forall_singleton. unfold registration_trust in Hr.
      apply bind_ok in Hr as (? & _ & Hr). apply bind_ok in Hr as (? & _ & Hr). apply bind_ok in Hr as (e' & He & Hr).
      apply ok_or_ok in He. injection Hr as _ <-. rewrite He in Hcl3. cbn in Hcl3. by apply Forall_cons in Hcl3 as [? _].
    + rewrite record_names. intros <-%bool_decide_eq_true. exists g, (consume_grant g c trusted).
      rewrite Hgr, lookup_insert_eq. by split_and!.
  - intros kid r Hr. rewrite Hk, lookup_insert_ne by congruence. eauto.
  - subst db'. cbn. destruct Htr as [(_ & _ & -> & _)|(id & t & e & _ & _ & Hn & _ & -> & _)]; [done|].
    by apply trusts_kept_new.
  - by subst db'.
Qed.

Lemma account_step_keeps (db db' : AccountDb) gid : account_step db db' → keeps gid db db'.
Proof.
  intros Hst. destruct Hst as [o Ho|c es Hd Ha Hes].
  2:{ split; try done; [exists es; split; [done|by apply clean_unnamed]|cbn; by eauto]. }
  destruct (device_op_cases db o Ho) as [H|[(c & d & Hcl & Hk & E)|[(c & ch & Hcl & E)|(r & ch & Hcl & Hk & E)]]];
    eauto using carries_keeps, register_keeps, manage_keeps, rotate_keeps.
Qed.

(** Keys on record keep what they are. *)
Lemma steps_keys_kept (db db' : AccountDb) kid r :
  rtc account_step db db' → db.(device_public_keys) !! kid = Some r →
  ∃ r', db'.(device_public_keys) !! kid = Some r' ∧ key_identity r' = key_identity r.
Proof.
  intros H. revert r. induction H as [db|db1 db2 db3 H12 _ IH]; intros r Hr; [eauto|].
  destruct (kp_keys _ _ _ (account_step_keeps _ _ [] H12) _ _ Hr) as (r2 & Hr2 & E2). destruct (IH r2 Hr2) as (r3 & Hr3 & E3).
  exists r3. split; [done|congruence].
Qed.

(** A key identifier stands for the same key of the same device at all times. *)
Lemma same_key (db db' : AccountDb) i j d e :
  keys_match db.(core).(db_devices) db.(device_public_keys) → rtc account_step db db' →
  db.(core).(db_devices) !! i = Some d → db'.(core).(db_devices) !! j = Some e →
  d.(dv_public_key_id) = e.(dv_public_key_id) →
  i = j ∧ d.(dv_public_key) = e.(dv_public_key) ∧ d.(dv_public_key_version) = e.(dv_public_key_version).
Proof.
  intros K0 H1 Hd He Heq.
  assert (K1 : keys_match db'.(core).(db_devices) db'.(device_public_keys)) by by eapply keys_match_steps.
  destruct (km_device _ _ K0 _ _ Hd) as (<- & r & Hr & (_ & Ri & Rk & Rv & _)).
  destruct (km_device _ _ K1 _ _ He) as (<- & r' & Hr' & (_ & Ri' & Rk' & Rv' & _)).
  destruct (steps_keys_kept _ _ _ _ H1 Hr) as (r2 & Hr2 & Hid). rewrite Heq, Hr' in Hr2. injection Hr2 as <-.
  injection Hid as _ ? ? ?. split_and!; congruence.
Qed.

(** The records are of grants that were used. *)
Definition records_used (db : AccountDb) : Prop :=
  ∀ gid e, e ∈ db.(core).(db_audit_logs) → names_grant gid e = true →
    ∃ g, db.(device_enrollment_grants) !! gid = Some g ∧ is_Some g.(gr_consumed_at).

Lemma records_used_steps (db db' : AccountDb) : rtc account_step db db' → records_used db → records_used db'.
Proof.
  induction 1 as [db|db1 db2 db3 H12 _ IH]; [done|]. intros H. apply IH. intros gid e He Hn.
  destruct (account_step_keeps _ _ gid H12) as [G (es & A & C) _ _ _]. rewrite A, elem_of_app in He. destruct He as [He|He].
  - destruct (H gid e He Hn) as (g & Hg & Hc). exists g. by split; [apply G|].
  - rewrite Forall_forall in C. destruct (C e He Hn) as (_ & g' & _ & _ & Hg' & Hc). by exists g'.
Qed.

(** Once a grant is used, nothing names it again. *)
Lemma steps_keep_grant (db db' : AccountDb) gid g :
  rtc account_step db db' → db.(device_enrollment_grants) !! gid = Some g → is_Some g.(gr_consumed_at) →
  keeps gid db db'
  ∧ List.filter (names_grant gid) db'.(core).(db_audit_logs) = List.filter (names_grant gid) db.(core).(db_audit_logs).
Proof.
  intros H Hg Hc. induction H as [db|db1 db2 db3 H12 _ IH]; [done|].
  pose proof (account_step_keeps _ _ gid H12) as [G1 (es1 & A1 & C1) K1 T1 U1].
  assert (Hno1 : ∀ e, e ∈ es1 → names_grant gid e = false).
  { intros e He. rewrite Forall_forall in C1. destruct (names_grant gid e) eqn:Hn; [|done].
    destruct (C1 e He Hn) as (x & _ & Hx & Hopen & _). rewrite Hg in Hx. injection Hx as <-. rewrite Hopen in Hc.
    by destruct Hc. }
  destruct (IH (G1 g Hg Hc)) as [[G2 (es2 & A2 & C2) K2 T2 U2] F2]. split; [split|].
  - eauto.
  - exists (es1 ++ es2). rewrite A2, A1, (assoc_L (++)), Forall_app. split_and!; [done|..].
    + apply Forall_forall. intros e He Hn. by rewrite (Hno1 e He) in Hn.
    + eapply Forall_impl; [exact C2|]. intros e He Hn. destruct (He Hn) as (x & x' & Hx & Hopen & _).
      rewrite (G1 g Hg Hc) in Hx. injection Hx as <-. rewrite Hopen in Hc. by destruct Hc.
  - intros kid r Hr. apply K1 in Hr as (r2 & Hr & E2). apply K2 in Hr as (r3 & Hr & E3). exists r3.
    split; [done|congruence].
  - by etrans.
  - by etrans.
  - rewrite F2, A1, List.filter_app. clear -Hno1. induction es1 as [|e es IH]; [apply app_nil_r|]. cbn.
    rewrite Hno1 by by left. apply IH. intros e' He'. apply Hno1. by right.
Qed.

(** *** The same request again *)

(** What the client sends: drawn anew are the identifiers of the key and of the audit
    entries, the times and the signature. *)
Definition same_request (c c' : DeviceRegistrationCommand) : Prop :=
  let d := c.(rg_device) in
  let d' := c'.(rg_device) in
  c'.(rg_grant_id) = c.(rg_grant_id) ∧ c'.(rg_grant_secret_hash) = c.(rg_grant_secret_hash)
  ∧ c'.(rg_account_id) = c.(rg_account_id) ∧ c'.(rg_account_session_id) = c.(rg_account_session_id)
  ∧ c'.(rg_protocol_version) = c.(rg_protocol_version)
  ∧ c'.(rg_registration_request_binding_hash) = c.(rg_registration_request_binding_hash)
  ∧ d'.(dv_device_id) = d.(dv_device_id) ∧ d'.(dv_display_name) = d.(dv_display_name)
  ∧ d'.(dv_platform) = d.(dv_platform) ∧ d'.(dv_os_version) = d.(dv_os_version) ∧ d'.(dv_arch) = d.(dv_arch)
  ∧ d'.(dv_capabilities) = d.(dv_capabilities) ∧ d'.(dv_public_key) = d.(dv_public_key).

(** It is well formed, signed in time, and its audit entries are new. *)
Definition well_presented (db : AccountDb) (c : DeviceRegistrationCommand) (establish_trust : bool) : Prop :=
  registration_command_valid c = true ∧ registration_audits_valid db c establish_trust = Ok tt
  ∧ abs_diff c.(rg_now) c.(rg_signature_proof).(ip_timestamp) ≤ 30000 ∧ verify_registration_signature c = true.

Lemma consumed_grant_valid c c' g trusted :
  registration_grant_valid c g = true → same_request c c' → registration_command_valid c = true →
  g.(gr_consumed_at) = None → g.(gr_issued_at) ≤ c.(rg_now) → c.(rg_now) < g.(gr_expires_at) →
  (g.(gr_establish_trust) = negb (none trusted)) →
  registration_grant_valid c' (consume_grant g c trusted) = true.
Proof.
  intros H (Hid & _) Hc Hopen Hi He Ht. unfold registration_grant_valid in *. rewrite Hopen in H. cbn in H |- *.
  assert (Hk : is_blank c.(rg_device).(dv_public_key_id) = false).
  { unfold registration_command_valid in Hc. repeat (apply andb_true_iff in Hc as [Hc ?]).
    by apply negb_true_iff. }
  rewrite Hid. repeat (apply andb_true_iff in H as [H ?]).
  repeat (apply andb_true_iff; split); try done; try (by apply Z.leb_le; lia); [by rewrite Hk|].
  by apply bool_decide_eq_true.
Qed.

Lemma login_challenge_kept db db' g :
  used_kept None db.(risk_challenges) db'.(risk_challenges) → login_challenge_matches db g = true →
  login_challenge_matches db' g = true.
Proof.
  intros H Hm. unfold login_challenge_matches in *. destruct (db.(risk_challenges) !! _) as [ch|] eqn:Hc; [|done].
  rewrite (H _ ch); [done..|]. by split_bools.
Qed.

Lemma holds_again db db' c c' g trusted :
  used_kept None db.(risk_challenges) db'.(risk_challenges) → same_request c c' → holds_grant db c g = true →
  abs_diff c'.(rg_now) c'.(rg_signature_proof).(ip_timestamp) ≤ 30000 → verify_registration_signature c' = true →
  holds_grant db' c' (consume_grant g c trusted) = true.
Proof.
  intros Hu (_ & Hs & Ha & Hses & Hv & _ & Hid & _ & _ & _ & _ & _ & Hk) H Hts Hsig. unfold holds_grant in *.
  repeat (apply andb_true_iff in H as [H ?]). cbn [gr_grant_secret_hash gr_account_id gr_device_id gr_protocol_version
    gr_issued_account_session_id gr_device_public_key_fingerprint consume_grant].
  rewrite Hs, Ha, Hses, Hv, Hid, Hk. repeat (apply andb_true_iff; split); try done.
  - by eapply (login_challenge_kept db).
  - by apply negb_true_iff, Z.ltb_ge.
Qed.


Lemma filter_and {A} (p q : A → bool) l : List.filter (λ x, p x && q x) l = List.filter p (List.filter q l).
Proof.
  induction l as [|x l IH]; [done|]. cbn. destruct (q x) eqn:Hq; cbn; rewrite IH; destruct (p x); done.
Qed.

Lemma record_is_entry db c c' b :
  same_request c c' → registration_audits_valid db c b = Ok tt →
  registration_entry c' (device_registration_result_audit c) = true.
Proof.
  intros (Hg & _ & Ha & _ & _ & _ & Hd & _) H. unfold registration_audits_valid in H. apply bind_ok in H as (es & _ & H).
  apply bind_ok in H as ([] & Hact & H). apply ensure_ok in Hact, H.
  apply andb_true_iff in H as [_ H]. cbn in H. apply andb_true_iff in H as [H _]. unfold registration_audit_ok in H.
  unfold registration_entry. rewrite Ha, Hd, Hg.
  pose proof (record_names c c.(rg_grant_id)) as Hn. unfold names_grant in Hn. rewrite Hn.
  split_bools. cbn [device_registration_result_audit with_metadata au_action au_result au_actor_account_id au_target_device_id].
  repeat (apply andb_true_iff; split); by apply bool_decide_eq_true.
Qed.

Lemma registration_entry_found db c c' b l :
  same_request c c' → registration_audits_valid db c b = Ok tt →
  List.filter (names_grant c.(rg_grant_id)) l = [device_registration_result_audit c] →
  List.filter (registration_entry c') l = [device_registration_result_audit c].
Proof.
  intros Hs Hv Hl. pose proof (record_is_entry _ _ _ _ Hs Hv) as He. destruct Hs as [Hg _].
  unfold registration_entry at 1. rewrite filter_and, Hg. fold (names_grant c.(rg_grant_id)). rewrite Hl. cbn [List.filter].
  unfold registration_entry in He. apply andb_true_iff in He as [-> _]. done.
Qed.

(** The answer that is rebuilt from the record is the device as it was created. *)
Lemma replayed_device c c' g trusted r :
  same_request c c' → registration_command_valid c = true → registration_command_valid c' = true →
  g.(gr_grant_id) = c.(rg_grant_id) → g.(gr_device_id) = c.(rg_device).(dv_device_id) →
  g.(gr_account_id) = c.(rg_account_id) →
  g.(gr_device_public_key_fingerprint) = sha256 c.(rg_device).(dv_public_key) →
  key_identity r = (c.(rg_device).(dv_public_key_id), c.(rg_device).(dv_device_id), c.(rg_device).(dv_public_key),
                    c.(rg_device).(dv_public_key_version)) →
  replayed_device_registration_result (device_registration_result_audit c).(au_metadata) c' (consume_grant g c trusted)
    (Some r) = Ok c.(rg_device).
Proof.
  intros (Hg & Hs & Ha & Hses & Hv & Hb & Hid & Hname & Hpl & Hos & Har & Hcap & Hk) Hc Hc' Gid Gdev Gacc Gfp Hr.
  unfold registration_command_valid in Hc, Hc'. repeat (apply andb_true_iff in Hc as [Hc ?]).
  repeat (apply andb_true_iff in Hc' as [Hc' ?]).
  unfold replayed_device_registration_result. cbn [device_registration_result_audit with_metadata au_metadata].
  rewrite lookup_insert_eq. cbn [mbind option_bind]. rewrite snapshot_roundtrip. cbn [ok_or mbind result_bind].
  injection Hr as Hr1 Hr2 Hr3 Hr4. split_bools.
  match goal with Hst : dv_status (rg_device c) = LOffline |- _ => rename Hst into Hoff end.
  assert (Hm : snapshot_matches (registration_snapshot c) c' (consume_grant g c trusted) = true).
  { unfold snapshot_matches, registration_snapshot. cbn.
    rewrite Hoff, Gfp. repeat (apply andb_true_iff; split); try apply bool_decide_eq_true; try apply Z.eqb_eq;
      try apply Z.leb_le; try done; congruence. }
  rewrite Hm. cbn [ensure mbind result_bind]. unfold registration_snapshot.
  cbn [sh_public_key_id sh_device_id sh_public_key_version gr_device_public_key_fingerprint consume_grant].
  rewrite Hr1, Hr2, Hr3, Hr4, Gfp, !bool_decide_eq_true_2, Z.eqb_refl by done. cbn.
  rewrite bool_decide_eq_true_2 by done. cbn. f_equal. destruct c.(rg_device); cbn in *.
  f_equal; congruence.
Qed.

Lemma empty_records : records_used empty_accounts.
Proof. intros gid e He. by apply not_elem_of_nil in He. Qed.

(** The log after a registration has one record of it. *)
Lemma recorded_once db c d db' :
  records_used db → Forall clean (op_audits (DoRegisterDevice c)) → register_device db c = (Ok (Created d), db') →
  List.filter (names_grant c.(rg_grant_id)) db'.(core).(db_audit_logs) = [device_registration_result_audit c].
Proof.
  intros Hu Hcl H. apply register_device_created in H as (_ & g & Hg & _ & _ & Hopen & _ & _ & H).
  apply first_registration_ok in H as (_ & _ & trusted & trusts & es & Htr & Hdb).
  assert (Hlog : db'.(core).(db_audit_logs) = db.(core).(db_audit_logs) ++ es
                 ++ [device_registration_result_audit c; c.(rg_grant_audit)]) by by subst db'.
  rewrite Hlog. cbn [op_audits] in Hcl. apply Forall_app in Hcl as [Hcl Hcl3]. apply Forall_cons in Hcl as [_ Hcl].
  apply Forall_cons in Hcl as [Hcl2 _].
  assert (Hnone : ∀ l, (∀ e, e ∈ l → names_grant c.(rg_grant_id) e = false) →
    List.filter (names_grant c.(rg_grant_id)) l = []).
  { induction l as [|e l IH]; intros Hl; [done|]. cbn. rewrite Hl by by left. apply IH. intros e' He'. apply Hl. by right. }
  rewrite !List.filter_app. cbn [List.filter].
  rewrite record_names, bool_decide_eq_true_2 by done. rewrite (clean_names_none _ _ Hcl2).
  rewrite (Hnone es), (Hnone db.(core).(db_audit_logs)); [done|..].
  - intros e He. destruct (names_grant _ e) eqn:Hn; [|done]. destruct (Hu _ _ He Hn) as (x & Hx & Hc).
    rewrite Hg in Hx. injection Hx as <-. rewrite Hopen in Hc. by destruct Hc.
  - intros e He. apply clean_names_none. destruct Htr as [(_ & _ & _ & ->)|(id & t & e' & _ & _ & _ & Hr & _ & ->)].
    { by apply not_elem_of_nil in He. }
    apply list_elem_of_singleton in He as ->. unfold registration_trust in Hr.
    apply bind_ok in Hr as (? & _ & Hr). apply bind_ok in Hr as (? & _ & Hr). apply bind_ok in Hr as (e & He & Hr).
    apply ok_or_ok in He. injection Hr as _ <-. rewrite He in Hcl3. cbn in Hcl3. by apply Forall_cons in Hcl3 as [? _].
Qed.

(** The grant and the trust after a registration. *)
Lemma registered_grant db c d db' :
  register_device db c = (Ok (Created d), db') →
  ∃ g trusted, db.(device_enrollment_grants) !! c.(rg_grant_id) = Some g ∧ holds_grant db c g = true
    ∧ validate_device_registration_authority db c g = Ok tt ∧ g.(gr_consumed_at) = None ∧ c.(rg_now) < g.(gr_expires_at)
    ∧ db'.(device_enrollment_grants) !! c.(rg_grant_id) = Some (consume_grant g c trusted)
    ∧ g.(gr_establish_trust) = negb (none trusted)
    ∧ db'.(risk_challenges) = db.(risk_challenges)
    ∧ (∀ id, trusted = Some id → ∃ t, db'.(trusted_controller_devices) !! id = Some t
         ∧ trust_identity t = (c.(rg_account_id), c.(rg_device).(dv_device_id), default [] g.(gr_trust_proof_type),
                               default [] g.(gr_trust_level), g.(gr_device_public_key_fingerprint))).
Proof.
  intros H. apply register_device_created in H as (_ & g & Hg & Hv & Hh & Hopen & He & _ & H).
  apply first_registration_ok in H as (_ & _ & trusted & trusts & es & Htr & Hdb). exists g, trusted.
  split_and!; try done.
  - subst db'. cbn. by rewrite lookup_insert_eq.
  - by destruct Htr as [(-> & -> & _)|(id & t & e & -> & -> & _)].
  - by subst db'.
  - intros id ->. destruct Htr as [(? & _)|(id' & t & e & [= <-] & _ & _ & Hr & Htrusts & _)]; [done|].
    exists t. subst db'. cbn. rewrite Htrusts, lookup_insert_eq. split; [done|]. unfold registration_trust in Hr.
    apply bind_ok in Hr as (p & Hp & Hr). apply ok_or_ok in Hp. apply bind_ok in Hr as (l & Hl & Hr). apply ok_or_ok in Hl.
    apply bind_ok in Hr as (e' & _ & Hr). injection Hr as <- _. unfold trust_identity. cbn. by rewrite Hp, Hl.
Qed.

Lemma replayed_trust_kept db c g trusted :
  g.(gr_account_id) = c.(rg_account_id) → g.(gr_device_id) = c.(rg_device).(dv_device_id) →
  g.(gr_establish_trust) = negb (none trusted) →
  (∀ id, trusted = Some id → ∃ t, db.(trusted_controller_devices) !! id = Some t
     ∧ trust_identity t = (c.(rg_account_id), c.(rg_device).(dv_device_id), default [] g.(gr_trust_proof_type),
                           default [] g.(gr_trust_level), g.(gr_device_public_key_fingerprint))) →
  replayed_trust_matches db (consume_grant g c trusted) = true.
Proof.
  intros Ha Hd He Ht. unfold replayed_trust_matches. cbn. destruct trusted as [id|]; [|by rewrite He].
  destruct (Ht id eq_refl) as (t & -> & Hi). rewrite He. injection Hi as -> -> -> -> ->. rewrite Ha, Hd.
  by rewrite !bool_decide_eq_true_2 by done.
Qed.
End carrying.

(** ** Theorems *)

Section theorems.
Context `{P : Primitives} `{F : FactorCrypto} `{T : ApiText}.

(** C7: Along every run of the repository in which the identifiers drawn for
    accounts and keys are new, devices and their keys agree: a device is stored
    under its identifier and its key is on record under the identifier of the
    key, with the same version and revocation; a key on record that is not
    revoked is the current key of its device, which is not revoked either; and
    no two devices have the same key identifier. (Two devices may present the
    same public key: the repository compares identifiers only.) *)
Theorem device_keys_current db :
  rtc account_step empty_accounts db →
  (∀ id d, db.(core).(db_devices) !! id = Some d → d.(dv_device_id) = id
     ∧ ∃ r, db.(device_public_keys) !! d.(dv_public_key_id) = Some r ∧ key_of d r)
  ∧ (∀ kid r, db.(device_public_keys) !! kid = Some r → r.(pk_revoked_at) = None →
     ∃ d, db.(core).(db_devices) !! r.(pk_device_id) = Some d ∧ d.(dv_public_key_id) = kid ∧ key_of d r
       ∧ d.(dv_public_key_revoked_at) = None)
  ∧ (∀ i j d e, db.(core).(db_devices) !! i = Some d → db.(core).(db_devices) !! j = Some e →
     d.(dv_public_key_id) = e.(dv_public_key_id) → i = j).
Proof.
  intros H. apply keys_match_steps in H; [|apply keys_match_empty]. split_and!.
  - apply (km_device _ _ H).
  - intros kid r Hr Hn. destruct (km_key _ _ H _ _ Hr Hn) as (d & Hd & Hid). exists d.
    destruct (km_device _ _ H _ _ Hd) as (_ & r' & Hr' & Hof). rewrite Hid in Hr'. rewrite Hr in Hr'. injection Hr' as <-.
    split_and!; try done; apply Hof || (destruct Hof as (_ & _ & _ & _ & Hrev); congruence).
  - intros i j d e. apply keys_match_inj with (keys := db.(device_public_keys)). exact H.
Qed.

(** C6: Once a device is unbound or its key revoked, it is out for good: no run
    of the repository brings back a state in which a request signed in its name
    is accepted or the signalling service is told that it is authorized; its
    sessions were closed in the same step, and the account sessions of its
    account are dead. *)
Theorem revoked_device_shut_out db c ch db1 db2 action :
  manage_device db c = (Ok (DeviceUpdated ch), db1) → c.(dm_action) = Some action →
  device_management_revokes_account_sessions action = true →
  sessions_named db.(core).(db_sessions) → rtc account_step db1 db2 →
  (∀ s claims q now d s', q.(hr_headers) !! str "x-rctl-device-id" = Some c.(dm_target_device_id) →
     verify_signed_device_request db2.(core) s claims q now ≠ (Ok d, s'))
  ∧ (∀ cf headers q now r, q.(dq_device_id) = c.(dm_target_device_id) →
       signal_device_auth cf db2 headers q now ≠ Ok r)
  ∧ (∀ sid s, db1.(core).(db_sessions) !! sid = Some s → involves c.(dm_target_device_id) s = false)
  ∧ (∀ id s, db.(account_sessions) !! id = Some s → s.(as_account_id) = c.(dm_account_id) →
       ∀ a now, account_session_active db2 id a now = false).
Proof.
  intros H Hact Hrev Hn Hrun.
  pose proof (managed_parts _ _ _ _ H) as (target & Ht & _ & _ & Hdev & Hdevs & _).
  assert (Hout : stays_out c.(dm_target_device_id) db2.(core).(db_devices)).
  { apply (stays_out_steps _ _ _ Hrun). eexists. rewrite Hdevs, lookup_insert_eq. split; [done|]. rewrite Hdev.
    unfold apply_device_management. rewrite Hact. destruct action; try done; by split; [eexists|]. }
  apply manage_device_updated in H as (target' & _ & _ & _ & H).
  apply apply_management_ok in H as (sessions & events & audits & Hclose & _ & _ & _ & Hdb).
  split_and!.
  - intros s claims q now d s' Hid Hr. unfold verify_signed_device_request in Hr.
    destruct (signed_request_checks _ _ _ _) as [[[[d' i] t] n]|] eqn:E; [|done].
    by apply (out_unsigned db2.(core) _ claims q now Hout Hid) in E.
  - intros cf headers q now r Hid. by apply (out_unauthorized cf db2 c.(dm_target_device_id)).
  - assert (Htight : tightening c.(dm_action) = true) by (rewrite Hact; by destruct action).
    rewrite Htight in Hclose. destruct Hclose as (reason & closing & _ & Hc & _). intros sid x Hx.
    destruct (managed_session_tables db c target' sessions events audits) as [Htab _].
    rewrite <-Hdb in Htab. injection Htab as Hs _ _.
    rewrite Hs in Hx. destruct (close_sessions_closed _ _ _ _ _ _ _ _ (open_closable _ _ Hn) Hc sid x Hx)
      as [[_ Hst]|[Hnot Hold]]; [unfold involves; by rewrite Hst|].
    destruct (involves _ x) eqn:Hi; [|done]. destruct Hnot. by apply open_sessions_spec; [|exists x].
  - intros id x Hx Ha a now. destruct (steps_sessions_kept _ _ Hrun id) with
      (s := if bool_decide (x.(as_revoked_at) = None) then revoke_session x c.(dm_now) (str "device_unbound") else x)
      as (x' & Hx' & Hk).
    { subst db1. unfold managed_tables. rewrite Hact.
      destruct action; try discriminate Hrev; destruct (dv_public_key_revoked_at _); cbn; rewrite lookup_fmap, Hx; cbn;
        by rewrite Ha, bool_decide_eq_true_2. }
    assert (Hrevd : is_Some x'.(as_revoked_at)).
    { assert (Hfirst : is_Some (if bool_decide (x.(as_revoked_at) = None)
                then revoke_session x c.(dm_now) (str "device_unbound") else x).(as_revoked_at)).
      { case_bool_decide as Hb; [by eexists|]. by apply not_eq_None_Some. }
      destruct Hk as [->|(Hnone & _)]; [done|]. rewrite Hnone in Hfirst. by destruct Hfirst. }
    unfold account_session_active. rewrite Hx'. cbn. apply not_eq_None_Some in Hrevd.
    by rewrite (bool_decide_eq_false_2 _ Hrevd), andb_false_r.
Qed.

(** C13: A device is registered once under a grant and the repository gives its
    answer again: provided the grant was issued no later than the clock of the
    first request, in every later state the same request, well formed, with new
    audit entries and signed anew in time, gets the device as it was created and
    changes nothing, whatever happened to the device, its key or its trust
    meanwhile; and no request creates a device under that grant again. (The
    route asks beforehand that the session of the grant is still in use, so the
    answer is out of reach once this has ended, as it has when the device was
    unbound.) *)
Theorem registration_retry db c d db1 db2 c' g :
  rtc account_step empty_accounts db → op_fresh db (DoRegisterDevice c) →
  register_device db c = (Ok (Created d), db1) → rtc account_step db1 db2 →
  db.(device_enrollment_grants) !! c.(rg_grant_id) = Some g → g.(gr_issued_at) ≤ c.(rg_now) →
  same_request c c' → well_presented db2 c' g.(gr_establish_trust) →
  register_device db2 c' = (Ok (Replayed d), db2)
  ∧ ∀ c2 d2, c2.(rg_grant_id) = c.(rg_grant_id) → (register_device db2 c2).1 ≠ Ok (Created d2).
Proof.
  intros Hr0 [Hcl Hnew] Hreg Hrun Hg Hissued Hsame (Hc' & Hau' & Hts & Hsig).
  pose proof (recorded_once _ _ _ _ (records_used_steps _ _ Hr0 empty_records) Hcl Hreg) as Hlog.
  pose proof (registered_parts _ _ _ _ Hreg) as (-> & _ & _ & Hkeys).
  apply registered_grant in Hreg as (g' & trusted & Hg' & Hh & Hv & Hopen & He & Hg1 & Htr & Hrk & Htrust).
  rewrite Hg in Hg'. injection Hg' as <-. apply bind_ok in Hv as ([] & Hc & Hv). apply ensure_ok in Hc.
  apply bind_ok in Hv as ([] & Hgv & Hau). apply ensure_ok in Hgv.
  destruct (steps_keep_grant _ _ _ _ Hrun Hg1) as [[HG _ HK HT HU] Hlog2]; [by eexists|].
  specialize (HG _ Hg1 ltac:(by eexists)). rewrite Hlog in Hlog2. rewrite Hrk in HU.
  assert (Hgid : c'.(rg_grant_id) = c.(rg_grant_id)) by apply Hsame.
  split; [|intros c2 d2 Heq H2; destruct (register_device db2 c2) as [res db3] eqn:E; cbn in H2; subst res;
    apply register_device_created in E as (_ & g2 & Hg2 & _ & _ & Hn2 & _); rewrite Heq, HG in Hg2;
    by injection Hg2 as <-].
  unfold register_device. rewrite Hgid, HG. unfold validate_device_registration_authority. rewrite Hc'.
  rewrite (consumed_grant_valid c c' g trusted Hgv Hsame Hc Hopen Hissued He Htr).
  cbn [ensure mbind result_bind gr_establish_trust consume_grant]. rewrite Hau'.
  rewrite (holds_again db db2 c c' g trusted HU Hsame Hh Hts Hsig). cbn [negb none consume_grant gr_consumed_at].
  f_equal. unfold replay_registration.
  cbn [gr_registration_request_binding_hash gr_registered_public_key_id gr_establish_trust gr_registered_trusted_device_id
    consume_grant ok_or].
  assert (Hb : c'.(rg_registration_request_binding_hash) = c.(rg_registration_request_binding_hash)) by apply Hsame.
  rewrite Hb, bool_decide_eq_true_2 by done. cbn [ensure mbind result_bind].
  rewrite bool_decide_eq_true_2 by done. cbn [ensure mbind result_bind].
  unfold holds_grant in Hh. unfold registration_grant_valid in Hgv. split_bools.
  rewrite (replayed_trust_kept db2 c g trusted); try done.
  2:{ intros id Hid. destruct (Htrust id Hid) as (t & Ht & Hi). apply HT in Ht as (t' & Ht' & Hi'). exists t'.
      split; [done|]. by rewrite Hi'. }
  cbn [ensure mbind result_bind]. rewrite (registration_entry_found db c c' _ _ Hsame Hau Hlog2). cbn [mbind result_bind].
  destruct (HK c.(rg_device).(dv_public_key_id)) with (r := {|
    pk_public_key_id := c.(rg_device).(dv_public_key_id); pk_device_id := c.(rg_device).(dv_device_id);
    pk_public_key := c.(rg_device).(dv_public_key); pk_version := c.(rg_device).(dv_public_key_version);
    pk_created_at := c.(rg_device).(dv_created_at); pk_revoked_at := c.(rg_device).(dv_public_key_revoked_at) |})
    as (r & Hr & Hri); [by rewrite Hkeys, lookup_insert_eq|].
  rewrite Hr, (replayed_device c c' g trusted r); done.
Qed.

(** C14: Every operation of the repository on accounts and devices, whatever its
    outcome, is a run of the API on the sessions between devices: the sessions
    that a device loses with its key or its account are closed one by one by
    forced closes, in the same transaction. States of the API that can be
    reached stay so. *)
Theorem operations_are_api_runs db o pending :
  op_fresh db o → api_reachable {| api_db := db.(core); api_pending := pending |} →
  rtc api_step {| api_db := db.(core); api_pending := pending |}
    {| api_db := (perform db o).2.(core); api_pending := pending |}
  ∧ api_reachable {| api_db := (perform db o).2.(core); api_pending := pending |}.
Proof.
  intros Ho Hr. cut (rtc api_step {| api_db := db.(core); api_pending := pending |}
    {| api_db := (perform db o).2.(core); api_pending := pending |}).
  { intros H. split; [done|]. destruct Hr as (devices & Hd & Hr). exists devices. split; [done|]. by etrans. }
  pose proof (reachable_named _ Hr) as Hn. pose proof (ai_devices _ (api_reachable_inv _ Hr)) as Hd. cbn in Hn, Hd.
  destruct (device_op_cases db o Ho) as [H|[(c & d & _ & _ & E)|[(c & ch & _ & E)|(r & ch & _ & _ & E)]]];
    eauto using carried_run, register_run, manage_run, rotate_run.
Qed.
End theorems.

(** ** Examples *)

Section examples.
#[local] Existing Instance toy.
#[local] Existing Instance toy_factors.
#[local] Existing Instance toy_text.

(** The device of the login of [ex_run], registered at [now] with the key identifier
    and the audit entries [tag]. *)
Definition ex_new_device (key_id : string) (now : Z) : Device := {|
  dv_device_id := str "device-1"; dv_account_id := str "account-1"; dv_display_name := str "Desk";
  dv_platform := PUbuntu; dv_os_version := str "26.04"; dv_arch := X86_64;
  dv_capabilities := {| cap_controller := true; cap_controlled := true; cap_file_transfer := false;
                        cap_unattended := false |};
  dv_public_key_id := str key_id; dv_public_key := ex_key; dv_public_key_version := 1;
  dv_public_key_revoked_at := None; dv_status := LOffline; dv_last_seen := None;
  dv_created_at := now; dv_updated_at := now |}.

Definition ex_device_audit (id action : string) (now : Z) : AuditEntry := {|
  au_audit_id := str id; au_actor_type := str "device"; au_actor_account_id := Some (str "account-1");
  au_actor_device_id := Some (str "device-1"); au_actor_role := Some (str "none"); au_actor_service := None;
  au_target_device_id := Some (str "device-1"); au_session_id := None; au_action := str action;
  au_result := str "success"; au_reason := None; au_metadata := ∅; au_request_id := str "request-9";
  au_created_at := now |}.

Definition ex_registration_signature (now : Z) : rstr :=
  match canonical_api_request_bytes (str "POST") (str "/v1/devices") (sha256 []) (str "request-9") (str "device-1")
          (str "account-1") now (str "nonce-9") with
  | Ok bs => encode_hex (ed25519_sign ex_key (sha256 bs))
  | Err _ => []
  end.

Definition ex_registration (key_id audit grant_audit : string) (now : Z) : DeviceRegistrationCommand :=
  let d := ex_new_device key_id now in {|
  rg_grant_id := str "grant-1"; rg_grant_secret_hash := []; rg_account_id := str "account-1";
  rg_account_session_id := str "session-2"; rg_protocol_version := 1;
  rg_registration_request_binding_hash := device_registration_binding_hash (str "account-1") (str "session-2")
    (str "grant-1") (str "device-1") (str "Desk") (str "ubuntu") (str "26.04") (str "x86_64") true true false false
    (sha256 ex_key) 1;
  rg_device := d; rg_trusted_device_id := None; rg_registration_audit := ex_device_audit audit "device_registered" now;
  rg_grant_audit := ex_device_audit grant_audit "device_enrollment_grant_consumed" now; rg_trusted_device_audit := None;
  rg_signature_proof := {| ip_target := str "/v1/devices"; ip_content_type := None; ip_request_id := str "request-9";
                           ip_timestamp := now; ip_nonce := str "nonce-9";
                           ip_signature := ex_registration_signature now; ip_canonical_body := [] |};
  rg_now := now |}.

Definition ex_first : DeviceRegistrationCommand := ex_registration "key-1" "audit-11" "audit-12" 300.

(** Entries without metadata are clean. *)
Ltac unmarked :=
  cbn [op_audits app option_list ex_finish fc_failure_audit fc_audit_entries];
  rewrite ?Forall_cons, ?Forall_nil; split_and?; try exact I; exact (lookup_empty _).

Definition ex_logged_in : AccountDb := (runs perform empty_accounts ex_run).2.
Definition ex_registered : AccountDb := (perform ex_logged_in (DoRegisterDevice ex_first)).2.

Lemma ex_login_run : rtc account_step empty_accounts ex_logged_in.
Proof. exact (moved_steps false _ _ ex_run_moved). Qed.

Lemma ex_first_fresh : op_fresh ex_logged_in (DoRegisterDevice ex_first).
Proof. split; [unmarked|]. vm_compute. reflexivity. Qed.

Lemma ex_registered_run : rtc account_step empty_accounts ex_registered.
Proof. eapply rtc_r; [exact ex_login_run|]. exact (account_step_op _ _ ex_first_fresh). Qed.

Lemma device_keys_current_witness :
  bool_decide (is_Some (ex_registered.(device_public_keys) !! str "key-1")) = true
  ∧ (∀ i j d e, ex_registered.(core).(db_devices) !! i = Some d → ex_registered.(core).(db_devices) !! j = Some e →
     d.(dv_public_key_id) = e.(dv_public_key_id) → i = j).
Proof. split; [vm_compute; reflexivity|]. apply (device_keys_current ex_registered). exact ex_registered_run. Defined.

(** The owner renames the device. *)
Definition ex_rename : DeviceManagementCommand := {|
  dm_account_id := str "account-1"; dm_actor_device_id := str "device-1"; dm_actor_public_key_id := str "key-1";
  dm_actor_public_key_version := 1; dm_target_device_id := str "device-1";
  dm_expected_target_public_key_id := str "key-1"; dm_expected_target_public_key_version := 1;
  dm_display_name := Some (str "Den"); dm_action := None; dm_audit := ex_device_audit "audit-13" "device_status_changed" 400;
  dm_now := 400 |}.

Definition ex_renamed : AccountDb := (perform ex_registered (DoManageDevice ex_rename)).2.

Lemma ex_renamed_run : rtc account_step ex_registered ex_renamed.
Proof.
  apply rtc_once. unfold ex_renamed. apply (account_step_op ex_registered (DoManageDevice ex_rename)).
  split; [unmarked|exact I].
Qed.

(** The request is repeated after the device was renamed: new identifiers, a new
    signature. *)
Definition ex_again : DeviceRegistrationCommand := ex_registration "key-7" "audit-17" "audit-18" 500.

Lemma ex_first_created :
  register_device ex_logged_in ex_first = (Ok (Created (ex_new_device "key-1" 300)), ex_registered).
Proof.
  assert (Hr : (register_device ex_logged_in ex_first).1 = Ok (Created (ex_new_device "key-1" 300)))
    by (vm_compute; reflexivity).
  unfold ex_registered. cbn [perform answer snd]. rewrite <-Hr. apply surjective_pairing.
Qed.

Lemma ex_grant_open : ∃ g, ex_logged_in.(device_enrollment_grants) !! str "grant-1" = Some g
  ∧ g.(gr_issued_at) ≤ 300 ∧ g.(gr_establish_trust) = false.
Proof. eexists. split_and!; [vm_compute; reflexivity|vm_compute; discriminate|vm_compute; reflexivity]. Qed.

Lemma ex_again_presented : well_presented ex_renamed ex_again false.
Proof. split_and!; [vm_compute; reflexivity|vm_compute; reflexivity|vm_compute; discriminate|vm_compute; reflexivity]. Qed.

(** The session is still in use, the device has its new name, and the answer is the
    first one. *)
Lemma registration_retry_witness :
  account_session_active ex_renamed (str "session-2") (str "account-1") 500 = true
  ∧ dv_display_name <$> ex_renamed.(core).(db_devices) !! str "device-1" = Some (str "Den")
  ∧ register_device ex_renamed ex_again = (Ok (Replayed (ex_new_device "key-1" 300)), ex_renamed).
Proof.
  split; [vm_compute; reflexivity|]. split; [vm_compute; reflexivity|]. destruct ex_grant_open as (g & Hg & Hi & Ht).
  refine (proj1 (registration_retry ex_logged_in ex_first (ex_new_device "key-1" 300) ex_registered ex_renamed ex_again g
    ex_login_run ex_first_fresh ex_first_created ex_renamed_run Hg Hi _ _)).
  - repeat (split; [reflexivity|]). reflexivity.
  - rewrite Ht. exact ex_again_presented.
Defined.

(** The controller of an accepted session revokes the key of the controlled device. *)
Definition ex_connected : AccountDb :=
  set_account_sessions (set_core empty_accounts accepted_api.(api_db))
    {[str "session-1" := {| as_account_session_id := str "session-1"; as_account_id := str "acc";
        as_refresh_token_hash := []; as_mfa_verified := false; as_expires_at := 1000000; as_revoked_at := None;
        as_revoked_reason := None |}]}.

Definition ex_revoke : DeviceManagementCommand := {|
  dm_account_id := str "acc"; dm_actor_device_id := str "ctl"; dm_actor_public_key_id := str "ctl";
  dm_actor_public_key_version := 1; dm_target_device_id := str "host";
  dm_expected_target_public_key_id := str "host"; dm_expected_target_public_key_version := 1;
  dm_display_name := None; dm_action := Some RevokePublicKey;
  dm_audit := {| au_audit_id := str "audit-1"; au_actor_type := str "device"; au_actor_account_id := Some (str "acc");
    au_actor_device_id := Some (str "ctl"); au_actor_role := None; au_actor_service := None;
    au_target_device_id := Some (str "host"); au_session_id := None; au_action := str "device_public_key_revoked";
    au_result := str "success"; au_reason := None; au_metadata := ∅; au_request_id := str "request-1";
    au_created_at := 3000 |};
  dm_now := 3000 |}.

Lemma ex_connected_reachable :
  api_reachable {| api_db := ex_connected.(core); api_pending := accepted_api.(api_pending) |}.
Proof. exact accepted_reachable. Qed.

Lemma ex_revoke_fresh : op_fresh ex_connected (DoManageDevice ex_revoke).
Proof. split; [unmarked|exact I]. Qed.

Lemma operations_are_api_runs_witness :
  (se_status <$> (perform ex_connected (DoManageDevice ex_revoke)).2.(core).(db_sessions) !! example_sid) = Some Closed
  ∧ api_reachable {| api_db := (perform ex_connected (DoManageDevice ex_revoke)).2.(core);
                     api_pending := accepted_api.(api_pending) |}.
Proof.
  split; [vm_compute; reflexivity|].
  exact (proj2 (operations_are_api_runs ex_connected (DoManageDevice ex_revoke) accepted_api.(api_pending)
                  ex_revoke_fresh ex_connected_reachable)).
Defined.

Definition is_updated (r : result StoreError DeviceManagementOutcome) : bool :=
  match r with Ok (DeviceUpdated _) => true | _ => false end.

Lemma ex_revoke_updated : ∃ ch db1, manage_device ex_connected ex_revoke = (Ok (DeviceUpdated ch), db1).
Proof.
  assert (H : is_updated (manage_device ex_connected ex_revoke).1 = true) by (vm_compute; reflexivity).
  destruct (manage_device ex_connected ex_revoke) as [[[ch| |]|] db1]; try discriminate H. by exists ch, db1.
Qed.

Lemma revoked_device_shut_out_witness :
  ∃ ch db1, manage_device ex_connected ex_revoke = (Ok (DeviceUpdated ch), db1)
  ∧ (∀ sid s, db1.(core).(db_sessions) !! sid = Some s → involves (str "host") s = false)
  ∧ ∀ a now, account_session_active db1 (str "session-1") a now = false.
Proof.
  destruct ex_revoke_updated as (ch & db1 & Hp). exists ch, db1. split; [exact Hp|].
  destruct (revoked_device_shut_out ex_connected ex_revoke ch db1 db1 RevokePublicKey Hp eq_refl eq_refl
              (reachable_named _ ex_connected_reachable) (rtc_refl _ _)) as (_ & _ & Hs & Ha).
  split; [exact Hs|]. exact (Ha _ _ (lookup_singleton_eq _ _) eq_refl).
Defined.
End examples.
