(* ===== verification/DeviceRoutes.v ===== *)
(** * The device routes of the API server

    Models services/api-server/src/routes/devices.rs over the repository ([ApiDevice])
    and the short-lived state ([Ephemeral]): registration of a device, changes to it,
    rotation of its key, and the views of devices. What is drawn at random and the
    times at which the clock is read are arguments, and so is the database [seen] that
    a route reads before its operation runs on the database as it is by then. The body
    of a request is already parsed ([parse_json] is serde's). The notifications to the
    signalling service are part of the answer. *)

From S2P Require Import Prelude Text Header Canonical RequestTarget Security Primitives KeySession SignalAuth Net ApiSession Ephemeral ApiAccount ApiLogin ApiSecurity ApiDevice ApiAuthority ApiRequest ApiAuth DeviceRuns.

(** ** Data *)

Record RegisterDeviceRequest := {
  rd_device_enrollment_grant : option rstr;
  rd_device_id : rstr;
  rd_display_name : rstr;
  rd_platform : Platform;
  rd_os_version : rstr;
  rd_arch : Architecture;
  rd_role_capabilities : DeviceCapabilities;
  rd_public_key : rstr }.

Record RotateDeviceKeyRequest := {
  ro_current_public_key_id : rstr;
  ro_current_public_key_version : Z;
  ro_new_public_key : rstr;
  ro_new_public_key_proof : rstr }.

Inductive DeviceActionRequest := AskDisable | AskRestore | AskUnbind | AskRevokePublicKey.

Record UpdateDeviceRequest := { ud_display_name : option rstr; ud_action : option DeviceActionRequest }.

Inductive DeviceStatus := Online | Offline | Busy | Unknown.

Record DeviceView := {
  vw_device_id : rstr;
  vw_display_name : rstr;
  vw_platform : Platform;
  vw_os_version : rstr;
  vw_arch : Architecture;
  vw_role_capabilities : DeviceCapabilities;
  vw_status : DeviceStatus;
  vw_public_key_id : rstr;
  vw_public_key_version : Z }.

Inductive DevicePresenceStatus := PresenceOnline | PresenceBusy.

Record DevicePresence := { dp_device_id : rstr; dp_status : DevicePresenceStatus; dp_last_seen : Z }.

Record SessionView := {
  sv_session_id : rstr;
  sv_controller_account_id : rstr;
  sv_controller_device_id : rstr;
  sv_controlled_device_id : rstr;
  sv_auth_method : AuthMethod;
  sv_status : SessionStatus;
  sv_permissions : SessionPermissions;
  sv_permissions_digest : rstr;
  sv_policy_evaluation_id : rstr;
  sv_relay_token_epoch : Z;
  sv_expires_at : Z }.

(** The fields of a [session_close_ack] message that are not constant. *)
Record CloseNotification := {
  cn_session_id : rstr;
  cn_status : SessionStatus;
  cn_reason : option rstr;
  cn_event_id : rstr;
  cn_session : SessionView }.

(** Identifiers drawn at random: the key, the trust, the audit entries. *)
Record DeviceDraws := { dd_public_key_id : rstr; dd_trusted_device_id : rstr; dd_audit_id : nat → rstr }.

Inductive DeviceError :=
| EnrollmentGrantRequired | InvalidPublicKey | DeviceSignatureMismatched | InvalidDeviceIdentifier
| InvalidDeviceMetadata | InvalidPlatformCapability | UnsupportedPlatformArchitecture
| DeviceRegistrationConflict | EnrollmentGrantInvalid | InvalidDeviceUpdate | DeviceNotFound | DeviceUpdateConflict
| InvalidDeviceTransitionError | CurrentDeviceKeyMismatch | UnchangedPublicKey | NewDeviceKeyProofFailed
| DeviceKeyVersionExhausted | DeviceKeyRotationConflict | DeviceInternal
| DeviceRequest (e : RequestError).

(** ** Views *)

Definition device_view (d : Device) : DeviceView := {|
  vw_device_id := d.(dv_device_id); vw_display_name := d.(dv_display_name); vw_platform := d.(dv_platform);
  vw_os_version := d.(dv_os_version); vw_arch := d.(dv_arch); vw_role_capabilities := d.(dv_capabilities);
  vw_status := match d.(dv_status) with
               | LOnline => Online | LBusy => Busy
               | LOffline | LSuspended | LDisabled | LUnbound => Offline end;
  vw_public_key_id := d.(dv_public_key_id); vw_public_key_version := d.(dv_public_key_version) |}.

Definition device_view_with_presence (d : Device) (presence : option DevicePresence) : DeviceView :=
  let view := device_view d in
  match presence with
  | Some p =>
      if is_authorizable d.(dv_status) then {|
        vw_device_id := view.(vw_device_id); vw_display_name := view.(vw_display_name);
        vw_platform := view.(vw_platform); vw_os_version := view.(vw_os_version); vw_arch := view.(vw_arch);
        vw_role_capabilities := view.(vw_role_capabilities);
        vw_status := match p.(dp_status) with PresenceOnline => Online | PresenceBusy => Busy end;
        vw_public_key_id := view.(vw_public_key_id); vw_public_key_version := view.(vw_public_key_version) |}
      else view
  | None => view
  end.

Definition session_view (s : Session) : SessionView := {|
  sv_session_id := s.(se_session_id); sv_controller_account_id := s.(se_controller_account_id);
  sv_controller_device_id := s.(se_controller_device_id); sv_controlled_device_id := s.(se_controlled_device_id);
  sv_auth_method := s.(se_auth_method); sv_status := s.(se_status); sv_permissions := s.(se_permissions);
  sv_permissions_digest := s.(se_permissions_digest); sv_policy_evaluation_id := s.(se_policy_evaluation_id);
  sv_relay_token_epoch := s.(se_relay_token_epoch); sv_expires_at := s.(se_expires_at) |}.

(** Both ends of a session hear of its end. *)
Fixpoint forced_session_close_notifications (events : list SessionEvent) : list (rstr * CloseNotification) :=
  match events with
  | [] => []
  | e :: events =>
      match e.(ev_result_session) with
      | None => forced_session_close_notifications events
      | Some s =>
          let n := {| cn_session_id := s.(se_session_id); cn_status := s.(se_status); cn_reason := e.(ev_reason);
                      cn_event_id := e.(ev_event_id); cn_session := session_view s |} in
          (s.(se_controller_device_id), n) :: (s.(se_controlled_device_id), n)
            :: forced_session_close_notifications events
      end
  end.

(** ** Checks *)

Definition name_byte (b : byte) : bool := is_ascii_alphanumeric b || (b =! x2d) || (b =! x5f).

Definition validate_device_request (rq : RegisterDeviceRequest) : result DeviceError unit :=
  let k := rq.(rd_role_capabilities) in
  _ ← ensure (negb ((rq.(rd_device_id) =! []) || (128 <? len rq.(rd_device_id))
                    || negb (forallb name_byte rq.(rd_device_id)))) InvalidDeviceIdentifier;
  _ ← ensure (negb (is_blank rq.(rd_display_name) || (100 <? len rq.(rd_display_name))
                    || is_blank rq.(rd_os_version) || (100 <? len rq.(rd_os_version)))) InvalidDeviceMetadata;
  _ ← ensure (negb (negb k.(cap_controller) || k.(cap_file_transfer) || k.(cap_unattended)
                    || ((rq.(rd_platform) =! PIos) && k.(cap_controlled)))) InvalidPlatformCapability;
  ensure (negb ((rq.(rd_platform) =! PUbuntu) && (rq.(rd_arch) ≠! X86_64))) UnsupportedPlatformArchitecture.

Definition parse_enrollment_grant (value : rstr) : result DeviceError (rstr * rstr) :=
  '(grant_id, grant_secret) ← ok_or (split_once x2e value) EnrollmentGrantRequired;
  _ ← ensure (negb ((grant_id =! []) || (grant_secret =! []) || (128 <? len grant_id) || (128 <? len grant_secret)
                    || negb (forallb name_byte grant_id) || negb (forallb name_byte grant_secret)))
        EnrollmentGrantRequired;
  Ok (grant_id, grant_secret).

Definition platform_name (p : Platform) : rstr :=
  match p with PWindows => str "windows" | PUbuntu => str "ubuntu" | PIos => str "ios" end.

Definition architecture_name (a : Architecture) : rstr :=
  match a with X86_64 => str "x86_64" | Aarch64 => str "aarch64" end.

Definition device_management_action_name (a : DeviceManagementAction) : rstr :=
  match a with
  | Disable => str "disable" | Restore => str "restore" | Unbind => str "unbind"
  | RevokePublicKey => str "revoke_public_key"
  end.

Definition requested_action (a : DeviceActionRequest) : DeviceManagementAction :=
  match a with
  | AskDisable => Disable | AskRestore => Restore | AskUnbind => Unbind | AskRevokePublicKey => RevokePublicKey
  end.

(** The audit entry of a device about itself or another device. *)
Definition device_audit_entry (id : rstr) (account_id actor target : rstr) (action : rstr) (metadata : gmap rstr Value)
    (request_id : rstr) (now : Z) : AuditEntry := {|
  au_audit_id := id; au_actor_type := str "device"; au_actor_account_id := Some account_id;
  au_actor_device_id := Some actor; au_actor_role := Some (str "none"); au_actor_service := None;
  au_target_device_id := Some target; au_session_id := None; au_action := action; au_result := str "success";
  au_reason := None; au_metadata := metadata; au_request_id := request_id; au_created_at := now |}.

Section routes.
Context `{P : Primitives} `{T : ApiText}.

Definition decode_public_key (value : rstr) : option bytes :=
  decoded ← decode_either value; if (length decoded =? 32)%nat then Some decoded else None.

(** The checks of [verify_initial_device_signature] before the nonce. *)
Definition initial_signature_checks (account_id device_id : rstr) (public_key : bytes) (r : HttpRequest) (now : Z)
    : result DeviceError InitialDeviceSignatureProof :=
  let content_type := r.(hr_headers) !! str "content-type" in
  signed_device_id ← map_err DeviceRequest (required_header r.(hr_headers) (str "x-rctl-device-id"));
  _ ← ensure (signed_device_id =! device_id) DeviceSignatureMismatched;
  timestamp ← map_err DeviceRequest (required_header r.(hr_headers) (str "x-rctl-timestamp"));
  timestamp ← ok_or (parse_u64 timestamp) (DeviceRequest InvalidTimestamp);
  _ ← ensure (negb (30000 <? abs_diff now timestamp)) (DeviceRequest SignatureExpired);
  nonce ← map_err DeviceRequest (required_header r.(hr_headers) (str "x-rctl-api-nonce"));
  signature ← map_err DeviceRequest (required_header r.(hr_headers) (str "x-rctl-device-signature"));
  _ ← ensure (verify_device_signature public_key (str "POST") r.(hr_target) r.(hr_body) content_type
                r.(hr_request_id) device_id account_id timestamp nonce signature)
        (DeviceRequest InvalidDeviceSignature);
  Ok {| ip_target := r.(hr_target); ip_content_type := content_type; ip_request_id := r.(hr_request_id);
        ip_timestamp := timestamp; ip_nonce := nonce; ip_signature := signature; ip_canonical_body := r.(hr_body) |}.

Definition verify_initial_device_signature (eph : MemoryState) (account_id device_id : rstr) (public_key : bytes)
    (r : HttpRequest) (now : Z) : result DeviceError InitialDeviceSignatureProof * MemoryState :=
  match initial_signature_checks account_id device_id public_key r now with
  | Err e => (Err e, eph)
  | Ok proof =>
      let '(recorded, eph) := record_nonce eph (nonce_key account_id device_id proof.(ip_nonce)) now 60000 in
      (if recorded then Ok proof else Err (DeviceRequest DeviceNonceReplayed), eph)
  end.

(** ** Registration *)

Definition enrolled_capabilities (rq : RegisterDeviceRequest) : DeviceCapabilities :=
  match rq.(rd_platform) with
  | PIos => {| cap_controller := true; cap_controlled := false; cap_file_transfer := false; cap_unattended := false |}
  | _ => {| cap_controller := true; cap_controlled := rq.(rd_role_capabilities).(cap_controlled);
            cap_file_transfer := false; cap_unattended := false |}
  end.

Definition enrolled_device (rq : RegisterDeviceRequest) (account_id : rstr) (public_key : bytes) (dd : DeviceDraws)
    (now : Z) : Device := {|
  dv_device_id := rq.(rd_device_id); dv_account_id := account_id; dv_display_name := trim rq.(rd_display_name);
  dv_platform := rq.(rd_platform); dv_os_version := trim rq.(rd_os_version); dv_arch := rq.(rd_arch);
  dv_capabilities := enrolled_capabilities rq; dv_public_key_id := dd.(dd_public_key_id);
  dv_public_key := public_key; dv_public_key_version := 1; dv_public_key_revoked_at := None; dv_status := LOffline;
  dv_last_seen := None; dv_created_at := now; dv_updated_at := now |}.

Definition registration_command (claims : AccessClaims) (rq : RegisterDeviceRequest) (grant_id grant_secret : rstr)
    (public_key : bytes) (proof : InitialDeviceSignatureProof) (request_id : rstr) (dd : DeviceDraws) (now : Z)
    : DeviceRegistrationCommand :=
  let account_id := claims.(acl_account_id) in
  let d := enrolled_device rq account_id public_key dd now in
  let k := d.(dv_capabilities) in
  let entry n action := device_audit_entry (dd.(dd_audit_id) n) account_id d.(dv_device_id) d.(dv_device_id)
                          (str action) ∅ request_id now in {|
  rg_grant_id := grant_id; rg_grant_secret_hash := sha256 grant_secret; rg_account_id := account_id;
  rg_account_session_id := claims.(acl_account_session_id); rg_protocol_version := PROTOCOL_VERSION;
  rg_registration_request_binding_hash := device_registration_binding_hash account_id
    claims.(acl_account_session_id) grant_id d.(dv_device_id) d.(dv_display_name) (platform_name d.(dv_platform))
    d.(dv_os_version) (architecture_name d.(dv_arch)) k.(cap_controller) k.(cap_controlled) k.(cap_file_transfer)
    k.(cap_unattended) (sha256 d.(dv_public_key)) PROTOCOL_VERSION;
  rg_device := d; rg_trusted_device_id := Some dd.(dd_trusted_device_id);
  rg_registration_audit := entry 0%nat "device_registered";
  rg_grant_audit := entry 1%nat "device_enrollment_grant_consumed";
  rg_trusted_device_audit := Some (entry 2%nat "trusted_device_added");
  rg_signature_proof := proof; rg_now := now |}.

(** The answer says whether the device is new. [auth_now], [sig_now] and [now] are the
    clock when the token is checked, the signature, and then. *)
Definition route_register_device (cf : AppConfig) (seen : AccountDb) (st : Server) (rq : RegisterDeviceRequest)
    (r : HttpRequest) (dd : DeviceDraws) (auth_now sig_now now : Z) : result DeviceError (bool * DeviceView) * Server :=
  match (claims ← map_err DeviceRequest (authenticate cf seen r.(hr_headers) auth_now);
         _ ← validate_device_request rq;
         grant ← ok_or rq.(rd_device_enrollment_grant) EnrollmentGrantRequired;
         '(grant_id, grant_secret) ← parse_enrollment_grant grant;
         public_key ← ok_or (decode_public_key rq.(rd_public_key)) InvalidPublicKey;
         Ok (claims, grant_id, grant_secret, public_key)) with
  | Err e => (Err e, st)
  | Ok (claims, grant_id, grant_secret, public_key) =>
      match verify_initial_device_signature st.(sv_eph) claims.(acl_account_id) rq.(rd_device_id) public_key r sig_now with
      | (Err e, eph) => (Err e, set_eph st eph)
      | (Ok proof, eph) =>
          let st := set_eph st eph in
          match register_device st.(sv_db) (registration_command claims rq grant_id grant_secret public_key proof
                                              r.(hr_request_id) dd now) with
          | (Err Conflict, db) => (Err DeviceRegistrationConflict, set_db st db)
          | (Err Unavailable, db) => (Err DeviceInternal, set_db st db)
          | (Ok (Created d), db) => (Ok (true, device_view d), set_db st db)
          | (Ok (Replayed d), db) => (Ok (false, device_view d), set_db st db)
          | (Ok InvalidGrant, db) => (Err EnrollmentGrantInvalid, set_db st db)
          end
      end
  end.

(** ** Reading *)

(** The last entry for a device counts. *)
Definition presence_of (presences : list DevicePresence) (device_id : rstr) : option DevicePresence :=
  List.find (λ p, p.(dp_device_id) =! device_id) (rev presences).

Definition list_devices_for_account (db : AccountDb) (account_id : rstr) : list Device :=
  List.filter (λ d, d.(dv_account_id) =! account_id) (snd <$> btree_iter db.(core).(db_devices)).

(** [presences] is what the short-lived state knows, nothing when it does not
    answer. *)
Definition route_list_devices (cf : AppConfig) (db : AccountDb) (presences : list DevicePresence) (headers : HeaderMap)
    (now : Z) : result DeviceError (list DeviceView) :=
  claims ← map_err DeviceRequest (authenticate cf db headers now);
  Ok ((λ d, device_view_with_presence d (presence_of presences d.(dv_device_id)))
        <$> list_devices_for_account db claims.(acl_account_id)).

(** [load_device_authority] and the filter on the account. *)
Definition own_device (db : AccountDb) (account_id device_id : rstr) : result DeviceError Device :=
  ok_or (d ← db.(core).(db_devices) !! device_id; if d.(dv_account_id) =! account_id then Some d else None)
    DeviceNotFound.

Definition route_get_device (cf : AppConfig) (db : AccountDb) (presences : list DevicePresence) (device_id : rstr)
    (headers : HeaderMap) (now : Z) : result DeviceError DeviceView :=
  claims ← map_err DeviceRequest (authenticate cf db headers now);
  d ← own_device db claims.(acl_account_id) device_id;
  Ok (device_view_with_presence d (presence_of presences d.(dv_device_id))).

(** ** Changes *)

Definition update_audit_action (a : option DeviceManagementAction) : rstr :=
  match a with
  | Some Unbind => str "device_unregistered"
  | Some RevokePublicKey => str "device_public_key_revoked"
  | _ => str "device_status_changed"
  end.

Definition update_metadata (display_name : option rstr) (action : option DeviceManagementAction) (target : Device)
    (now : Z) : gmap rstr Value :=
  let metadata : gmap rstr Value :=
    match display_name with
    | Some name => <[str "display_name_changed" := VBool (name ≠! [])]> {[str "change" := VString (str "display_name")]}
    | None => ∅
    end in
  let metadata := match action with
    | Some a => <[str "lifecycle_action" := VString (device_management_action_name a)]> metadata
    | None => metadata
    end in
  match action with
  | Some RevokePublicKey =>
      <[str "revocation_reason" := VString (str "user_requested")]>
      (<[str "revoked_at_epoch_millis" := VNumber now]>
      (<[str "old_public_key_fingerprint" := VString (encode_hex (sha256 target.(dv_public_key)))]>
      (<[str "old_public_key_version" := VNumber target.(dv_public_key_version)]>
      (<[str "old_public_key_id" := VString target.(dv_public_key_id)]> metadata))))
  | _ => metadata
  end.

Definition management_command (claims : AccessClaims) (actor target : Device) (device_id : rstr)
    (display_name : option rstr) (action : option DeviceManagementAction) (request_id : rstr) (dd : DeviceDraws) (now : Z)
    : DeviceManagementCommand := {|
  dm_account_id := claims.(acl_account_id); dm_actor_device_id := actor.(dv_device_id);
  dm_actor_public_key_id := actor.(dv_public_key_id); dm_actor_public_key_version := actor.(dv_public_key_version);
  dm_target_device_id := device_id; dm_expected_target_public_key_id := target.(dv_public_key_id);
  dm_expected_target_public_key_version := target.(dv_public_key_version); dm_display_name := display_name;
  dm_action := action;
  dm_audit := device_audit_entry (dd.(dd_audit_id) 0%nat) claims.(acl_account_id) actor.(dv_device_id) device_id
                (update_audit_action action) (update_metadata display_name action target now) request_id now;
  dm_now := now |}.

(** Exactly one of a name and an action. *)
Definition update_shape (rq : UpdateDeviceRequest) : result DeviceError (option rstr) :=
  let display_name := trim <$> rq.(ud_display_name) in
  _ ← ensure (negb (bool_decide (negb (none display_name) = negb (none rq.(ud_action)))
                    || match display_name with Some v => (v =! []) || (100 <? len v) | None => false end))
        InvalidDeviceUpdate;
  Ok display_name.

Definition route_update_device (cf : AppConfig) (seen : AccountDb) (st : Server) (device_id : rstr)
    (rq : UpdateDeviceRequest) (r : HttpRequest) (dd : DeviceDraws) (auth_now sig_now now : Z)
    : result DeviceError (DeviceView * list (rstr * CloseNotification)) * Server :=
  match (claims ← map_err DeviceRequest (authenticate cf seen r.(hr_headers) auth_now);
         display_name ← update_shape rq;
         Ok (claims, display_name)) with
  | Err e => (Err e, st)
  | Ok (claims, display_name) =>
      match verify_signed_device_request seen.(core) st.(sv_eph) claims r sig_now with
      | (Err e, eph) => (Err (DeviceRequest e), set_eph st eph)
      | (Ok actor, eph) =>
          let st := set_eph st eph in
          match own_device seen claims.(acl_account_id) device_id with
          | Err e => (Err e, st)
          | Ok target =>
              match manage_device st.(sv_db) (management_command claims actor target device_id display_name
                                                (requested_action <$> rq.(ud_action)) r.(hr_request_id) dd now) with
              | (Err Conflict, db) => (Err DeviceUpdateConflict, set_db st db)
              | (Err Unavailable, db) => (Err DeviceInternal, set_db st db)
              | (Ok (DeviceUpdated ch), db) =>
                  (Ok (device_view ch.(dc_device),
                       forced_session_close_notifications ch.(dc_closed_session_events)), set_db st db)
              | (Ok DeviceMissing, db) => (Err DeviceNotFound, set_db st db)
              | (Ok InvalidDeviceTransition, db) => (Err InvalidDeviceTransitionError, set_db st db)
              end
          end
      end
  end.

(** ** Key rotation *)

Definition rotation_metadata (rq : RotateDeviceKeyRequest) (signed : Device) (new_public_key_id : rstr)
    (new_public_key : bytes) (new_version : Z) (step_up : StepUpExpectation) (now : Z) : gmap rstr Value :=
  <[str "step_up_challenge_id" := VString step_up.(sx_challenge_id)]>
  (<[str "rotation_reason" := VString (str "user_requested")]>
  (<[str "revoked_at_epoch_millis" := VNumber now]>
  (<[str "new_public_key_fingerprint" := VString (encode_hex (sha256 new_public_key))]>
  (<[str "new_public_key_version" := VNumber new_version]>
  (<[str "new_public_key_id" := VString new_public_key_id]>
  (<[str "old_public_key_fingerprint" := VString (encode_hex (sha256 signed.(dv_public_key)))]>
  (<[str "old_public_key_version" := VNumber rq.(ro_current_public_key_version)]>
  {[str "old_public_key_id" := VString rq.(ro_current_public_key_id)]}))))))).

Definition rotation_command (claims : AccessClaims) (rq : RotateDeviceKeyRequest) (signed : Device) (device_id : rstr)
    (new_public_key : bytes) (new_version : Z) (step_up : StepUpExpectation) (request_id : rstr) (dd : DeviceDraws)
    (now : Z) : DeviceKeyRotation := {|
  kr_step_up := step_up; kr_current_public_key_id := rq.(ro_current_public_key_id);
  kr_current_public_key_version := rq.(ro_current_public_key_version);
  kr_new_public_key_id := dd.(dd_public_key_id); kr_new_public_key := new_public_key;
  kr_new_public_key_version := new_version;
  kr_audit := device_audit_entry (dd.(dd_audit_id) 0%nat) claims.(acl_account_id) device_id device_id
                (str "device_public_key_rotated")
                (rotation_metadata rq signed dd.(dd_public_key_id) new_public_key new_version step_up now)
                request_id now |}.

(** The checks of the request after its signature; [step_now] is the clock when the
    step-up token is checked. *)
Definition rotation_checks (cf : AppConfig) (claims : AccessClaims) (signed : Device) (device_id : rstr)
    (rq : RotateDeviceKeyRequest) (r : HttpRequest) (step_now : Z) : result DeviceError (bytes * StepUpExpectation * Z) :=
  _ ← ensure (negb ((signed.(dv_device_id) ≠! device_id) || (signed.(dv_public_key_id) ≠! rq.(ro_current_public_key_id))
                    || negb (signed.(dv_public_key_version) =? rq.(ro_current_public_key_version))))
        CurrentDeviceKeyMismatch;
  new_public_key ← ok_or (decode_public_key rq.(ro_new_public_key)) InvalidPublicKey;
  _ ← ensure (new_public_key ≠! signed.(dv_public_key)) UnchangedPublicKey;
  _ ← ensure (verify_new_device_key_proof new_public_key claims.(acl_account_id) device_id
                rq.(ro_current_public_key_id) rq.(ro_current_public_key_version) rq.(ro_new_public_key_proof))
        NewDeviceKeyProofFailed;
  step_up ← map_err DeviceRequest
              (validate_step_up_for_request cf claims r (Some device_id) (str "device_key_rotation") step_now);
  _ ← ensure (signed.(dv_public_key_version) + 1 <? 2 ^ 32) DeviceKeyVersionExhausted;
  Ok (new_public_key, step_up, signed.(dv_public_key_version) + 1).

Definition route_rotate_device_key (cf : AppConfig) (seen : AccountDb) (st : Server) (device_id : rstr)
    (rq : RotateDeviceKeyRequest) (r : HttpRequest) (dd : DeviceDraws) (auth_now sig_now now step_now : Z)
    : result DeviceError (DeviceView * list (rstr * CloseNotification)) * Server :=
  match authenticate cf seen r.(hr_headers) auth_now with
  | Err e => (Err (DeviceRequest e), st)
  | Ok claims =>
      match verify_signed_device_request seen.(core) st.(sv_eph) claims r sig_now with
      | (Err e, eph) => (Err (DeviceRequest e), set_eph st eph)
      | (Ok signed, eph) =>
          let st := set_eph st eph in
          match rotation_checks cf claims signed device_id rq r step_now with
          | Err e => (Err e, st)
          | Ok (new_public_key, step_up, new_version) =>
              match rotate_device_key st.(sv_db) (rotation_command claims rq signed device_id new_public_key new_version
                                                    step_up r.(hr_request_id) dd now) with
              | (Err Conflict, db) => (Err DeviceKeyRotationConflict, set_db st db)
              | (Err Unavailable, db) => (Err DeviceInternal, set_db st db)
              | (Ok ch, db) =>
                  let '(_, eph) := Ephemeral.consume_step_up st.(sv_eph) {|
                    su_challenge_id := step_up.(sx_challenge_id); su_account_id := step_up.(sx_account_id);
                    su_device_id := step_up.(sx_device_id); su_purpose := step_up.(sx_purpose);
                    su_operation_binding_hash := encode_hex step_up.(sx_operation_binding_hash) |} step_up.(sx_now) in
                  (Ok (device_view ch.(dc_device),
                       forced_session_close_notifications ch.(dc_closed_session_events)),
                   set_eph (set_db st db) eph)
              end
          end
      end
  end.
End routes.

(** ** The routes as runs of the operations *)

Section refinement.
Context `{P : Primitives} `{F : FactorCrypto} `{T : ApiText} `{A : AuthText} (cf : AppConfig) (late : bool).

(** A piece of a request to the authentication routes, a request to the device routes,
    which acts in one transaction on what it has read before, or a step of the other
    routes, which change sessions between devices. Keys get identifiers that no
    key had. *)
Inductive api_server_step : Server → Server → Prop :=
| asv_auth st st' : server_step cf late st st' → api_server_step st st'
| asv_register seen st rq r dd auth_now sig_now now :
    st.(sv_db).(device_public_keys) !! dd.(dd_public_key_id) = None →
    api_server_step st (route_register_device cf seen st rq r dd auth_now sig_now now).2
| asv_update seen st device_id rq r dd auth_now sig_now now :
    api_server_step st (route_update_device cf seen st device_id rq r dd auth_now sig_now now).2
| asv_rotate seen st device_id rq r dd auth_now sig_now now step_now :
    st.(sv_db).(device_public_keys) !! dd.(dd_public_key_id) = None →
    api_server_step st (route_rotate_device_key cf seen st device_id rq r dd auth_now sig_now now step_now).2
| asv_other st db eph : moved late st.(sv_db) db → api_server_step st {| sv_db := db; sv_eph := eph |}.

Lemma update_metadata_clean name action target now :
  update_metadata name action target now !! DEVICE_REGISTRATION_RESULT_METADATA_KEY = None.
Proof.
  unfold update_metadata. destruct name as [name|], action as [[]|]; cbn [device_management_action_name]; by other_key.
Qed.

Lemma rotation_metadata_clean rq signed kid key version x now :
  rotation_metadata rq signed kid key version x now !! DEVICE_REGISTRATION_RESULT_METADATA_KEY = None.
Proof. unfold rotation_metadata. by other_key. Qed.

Lemma register_route_step seen st rq r dd auth_now sig_now now :
  st.(sv_db).(device_public_keys) !! dd.(dd_public_key_id) = None →
  rtc (moved late) st.(sv_db) (route_register_device cf seen st rq r dd auth_now sig_now now).2.(sv_db).
Proof.
  intros Hk. unfold route_register_device. case_match; [|done]. destruct t as [[[claims gid] secret] key].
  destruct (verify_initial_device_signature _ _ _ _ _ _) as [[proof|] eph]; [|done]. cbn [set_eph sv_db].
  set (c := registration_command claims rq gid secret key proof r.(hr_request_id) dd now).
  assert (Hf : op_fresh st.(sv_db) (DoRegisterDevice c)) by (split; [by repeat constructor|exact Hk]).
  apply (op_moved late) in Hf; [|by right]. cbn [perform answer snd] in Hf.
  destruct (register_device st.(sv_db) c) as [[[]|[]] db']; exact Hf.
Qed.

Lemma update_route_step seen st device_id rq r dd auth_now sig_now now :
  rtc (moved late) st.(sv_db) (route_update_device cf seen st device_id rq r dd auth_now sig_now now).2.(sv_db).
Proof.
  unfold route_update_device. case_match; [|done]. destruct t as [claims name].
  destruct (verify_signed_device_request _ _ _ _ _) as [[actor|] eph]; [|done]. cbn [set_eph sv_db].
  destruct (own_device _ _ _) as [target|]; [|done].
  set (c := management_command claims actor target device_id name _ _ dd now).
  assert (Hf : op_fresh st.(sv_db) (DoManageDevice c)).
  { split; [|exact I]. apply Forall_singleton. apply update_metadata_clean. }
  apply (op_moved late) in Hf; [|by right]. cbn [perform answer snd] in Hf.
  destruct (manage_device st.(sv_db) c) as [[[]|[]] db']; exact Hf.
Qed.

Lemma rotate_route_step seen st device_id rq r dd auth_now sig_now now step_now :
  st.(sv_db).(device_public_keys) !! dd.(dd_public_key_id) = None →
  rtc (moved late) st.(sv_db)
    (route_rotate_device_key cf seen st device_id rq r dd auth_now sig_now now step_now).2.(sv_db).
Proof.
  intros Hk. unfold route_rotate_device_key. destruct (authenticate _ _ _ _) as [claims|]; [|done].
  destruct (verify_signed_device_request _ _ _ _ _) as [[signed|] eph]; [|done]. cbn [set_eph sv_db].
  destruct (rotation_checks _ _ _ _ _ _ _) as [[[key x] version]|]; [|done].
  set (c := rotation_command claims rq signed device_id key version x _ dd now).
  assert (Hf : op_fresh st.(sv_db) (DoRotateKey c)).
  { split; [|exact Hk]. apply Forall_singleton. apply rotation_metadata_clean. }
  apply (op_moved late) in Hf; [|by right]. cbn [perform answer snd] in Hf.
  destruct (rotate_device_key st.(sv_db) c) as [[ch|[]] db']; try exact Hf.
  by destruct (Ephemeral.consume_step_up _ _ _).
Qed.

Lemma api_server_steps st st' : rtc api_server_step st st' → rtc (moved late) st.(sv_db) st'.(sv_db).
Proof.
  induction 1 as [|st st1 st2 H1 _ IH]; [done|]. etrans; [|exact IH]. destruct H1.
  - by apply (server_step_refines cf late).
  - by apply register_route_step.
  - apply update_route_step.
  - by apply rotate_route_step.
  - by apply rtc_once.
Qed.

(** A request was signed in time with the key of the device. *)
Definition signed_by (d : Device) (account_id : rstr) (r : HttpRequest) (now : Z) : Prop :=
  ∃ timestamp nonce signature, abs_diff now timestamp ≤ 30000
    ∧ r.(hr_headers) !! str "x-rctl-device-id" = Some d.(dv_device_id)
    ∧ r.(hr_headers) !! str "x-rctl-api-nonce" = Some nonce
    ∧ verify_device_signature d.(dv_public_key) r.(hr_method) r.(hr_target) r.(hr_body)
        (r.(hr_headers) !! str "content-type") r.(hr_request_id) d.(dv_device_id) account_id timestamp nonce signature
      = true.

Lemma required_header_ok headers name v : required_header headers name = Ok v → headers !! name = Some v.
Proof.
  unfold required_header. intros H. apply ok_or_ok in H. destruct (headers !! name) as [x|]; [|done]. cbn in H.
  unfold nonempty in H. by destruct x.
Qed.

Lemma signed_request_by db eph claims r now d eph' :
  keys_match db.(core).(db_devices) db.(device_public_keys) →
  verify_signed_device_request db.(core) eph claims r now = (Ok d, eph') →
  db.(core).(db_devices) !! d.(dv_device_id) = Some d ∧ signed_by d claims.(acl_account_id) r now
  ∧ d.(dv_account_id) = claims.(acl_account_id) ∧ d.(dv_public_key_revoked_at) = None
  ∧ is_authorizable d.(dv_status) = true.
Proof.
  intros Hk H. unfold verify_signed_device_request in H.
  destruct (signed_request_checks db.(core) claims r now) as [[[[d' id] ts] n]|] eqn:E; [|done].
  assert (d' = d) as -> by (destruct (record_nonce _ _ _ _) as [[] ?]; by injection H). clear H.
  unfold signed_request_checks in E. apply bind_ok in E as (i & Hi & E). apply required_header_ok in Hi.
  apply bind_ok in E as (t0 & _ & E). apply bind_ok in E as (t & _ & E). apply bind_ok in E as (nonce & Hn & E).
  apply required_header_ok in Hn. apply bind_ok in E as (sig & _ & E). apply bind_ok in E as ([] & Ht & E).
  apply ensure_ok in Ht. apply bind_ok in E as (d' & Hd & E). apply ok_or_ok in Hd.
  apply bind_ok in E as ([] & Ha & E). apply ensure_ok in Ha. apply bind_ok in E as ([] & Hs & E). apply ensure_ok in Hs.
  injection E as -> -> -> ->. destruct (km_device _ _ Hk _ _ Hd) as [<- _]. split_bools.
  split_and!; try done; [by exists ts, n, sig|]. by apply eq_None_not_Some.
Qed.

Lemma validate_step_up_account cf' claims r d purpose now x :
  validate_step_up_for_request cf' claims r d purpose now = Ok x →
  x.(sx_account_id) = claims.(acl_account_id) ∧ x.(sx_purpose) = purpose ∧ (∀ i, d = Some i → x.(sx_device_id) = i)
  ∧ x.(sx_now) = now.
Proof.
  unfold validate_step_up_for_request. intros H. apply bind_ok in H as (? & _ & H). apply bind_ok in H as (? & _ & H).
  apply bind_ok in H as (su & _ & H). apply bind_ok in H as (? & _ & H). apply bind_ok in H as (? & _ & H).
  apply bind_ok in H as (? & _ & H). apply bind_ok in H as (? & _ & H). apply bind_ok in H as ([] & Hg & H).
  apply ensure_ok in Hg. injection H as <-. cbn. split_and!; try done. intros i ->. by split_bools.
Qed.

(** Whatever requests to the authentication and device routes were answered,
    whatever a route had read before its operation ran, the database has run through
    the operations of the repository; from an empty server, devices and keys agree,
    and a device out of whose hands its key was taken is out for good. *)
Theorem device_routes_refine st st' :
  rtc api_server_step st st' →
  rtc account_step st.(sv_db) st'.(sv_db)
  ∧ (st.(sv_db) = empty_accounts → keys_match st'.(sv_db).(core).(db_devices) st'.(sv_db).(device_public_keys))
  ∧ (∀ id, stays_out id st.(sv_db).(core).(db_devices) → stays_out id st'.(sv_db).(core).(db_devices)).
Proof.
  intros H. apply api_server_steps, moved_steps in H. split_and!; [done|..].
  - intros He. apply (keys_match_steps _ _ H). rewrite He. apply keys_match_empty.
  - intros id. by apply stays_out_steps.
Qed.

(** The step-up challenge is used up. *)
Lemma rotation_consumes db r ch db' :
  rotate_device_key db r = (Ok ch, db') →
  step_up_matches db r.(kr_step_up) = true ∧ step_up_matches db' r.(kr_step_up) = false.
Proof.
  unfold rotate_device_key. destruct (apply_device_key_rotation db r) as [[ch' db1]|] eqn:E; [|done]. intros [= -> ->].
  assert (Hm : step_up_matches db r.(kr_step_up) = true).
  { unfold apply_device_key_rotation in E. apply bind_ok in E as ([] & Hm & _). apply ensure_ok in Hm. by split_bools. }
  split; [done|].
  apply apply_rotation_ok in E as (current & consumed & epochs & source & ss & es & closing & rest & _ & _ & _ & _
    & Hcon & _ & _ & _ & ->).
  assert (Hc : step_up_matches consumed r.(kr_step_up) = false).
  { unfold consume_step_up_in_database in Hcon. rewrite Hm in Hcon. cbn [negb] in Hcon.
    destruct (risk_challenges db !! _) as [c|]; [|done]. injection Hcon as <-. unfold step_up_matches. cbn.
    by rewrite lookup_insert_eq. }
  exact Hc.
Qed.

Lemma rotation_checks_ok claims signed device_id rq r step_now key x version :
  rotation_checks cf claims signed device_id rq r step_now = Ok (key, x, version) →
  signed.(dv_device_id) = device_id ∧ signed.(dv_public_key_id) = rq.(ro_current_public_key_id)
  ∧ signed.(dv_public_key_version) = rq.(ro_current_public_key_version)
  ∧ decode_public_key rq.(ro_new_public_key) = Some key ∧ key ≠ signed.(dv_public_key)
  ∧ verify_new_device_key_proof key claims.(acl_account_id) device_id rq.(ro_current_public_key_id)
      rq.(ro_current_public_key_version) rq.(ro_new_public_key_proof) = true
  ∧ x.(sx_account_id) = claims.(acl_account_id) ∧ x.(sx_device_id) = device_id
  ∧ x.(sx_purpose) = str "device_key_rotation" ∧ version = signed.(dv_public_key_version) + 1
  ∧ x.(sx_now) = step_now.
Proof.
  unfold rotation_checks. intros H. apply bind_ok in H as ([] & Hm & H). apply ensure_ok in Hm.
  apply bind_ok in H as (k & Hk & H). apply ok_or_ok in Hk. apply bind_ok in H as ([] & Hne & H). apply ensure_ok in Hne.
  apply bind_ok in H as ([] & Hp & H). apply ensure_ok in Hp. apply bind_ok in H as (x' & Hx & H).
  destruct (validate_step_up_for_request _ _ _ _ _ _) as [y|] eqn:E; [|done]. injection Hx as ->.
  apply validate_step_up_account in E as (E1 & E2 & E3 & E4). apply bind_ok in H as ([] & _ & H). injection H as -> -> <-.
  split_bools. split_and!; try done. by apply E3.
Qed.

(** C8: A key is replaced only by who may: when the route answers, whatever
    happened since it read the database, the request was signed with the very
    key that is replaced, still in force, of a device of the account of a live
    token; the holder of the new key signed for this replacement; and a verified
    step-up challenge of that account and device for key rotations was used up.
    Afterwards the new key, one version on, is the key of the device and the old
    one is revoked. *)
Theorem rotation_authorized seen st device_id rq r dd auth_now sig_now now step_now v ns st' :
  keys_match seen.(core).(db_devices) seen.(device_public_keys) → rtc account_step seen st.(sv_db) →
  route_rotate_device_key cf seen st device_id rq r dd auth_now sig_now now step_now = (Ok (v, ns), st') →
  ∃ claims d key x d',
    authenticate cf seen r.(hr_headers) auth_now = Ok claims
    ∧ st.(sv_db).(core).(db_devices) !! device_id = Some d ∧ d.(dv_account_id) = claims.(acl_account_id)
    ∧ d.(dv_public_key_revoked_at) = None ∧ signed_by d claims.(acl_account_id) r sig_now
    ∧ decode_public_key rq.(ro_new_public_key) = Some key ∧ key ≠ d.(dv_public_key)
    ∧ verify_new_device_key_proof key claims.(acl_account_id) device_id d.(dv_public_key_id) d.(dv_public_key_version)
        rq.(ro_new_public_key_proof) = true
    ∧ x.(sx_account_id) = claims.(acl_account_id) ∧ x.(sx_device_id) = device_id
    ∧ x.(sx_purpose) = str "device_key_rotation" ∧ step_up_matches st.(sv_db) x = true
    ∧ step_up_matches st'.(sv_db) x = false
    ∧ st'.(sv_db).(core).(db_devices) !! device_id = Some d' ∧ d'.(dv_public_key) = key
    ∧ d'.(dv_public_key_version) = d.(dv_public_key_version) + 1 ∧ d'.(dv_public_key_revoked_at) = None
    ∧ (∀ k, st'.(sv_db).(device_public_keys) !! d.(dv_public_key_id) = Some k → is_Some k.(pk_revoked_at)).
Proof.
  intros H0 Hrun H. unfold route_rotate_device_key in H.
  destruct (authenticate cf seen r.(hr_headers) auth_now) as [claims|]; [|done].
  destruct (verify_signed_device_request _ _ _ _ _) as [[signed|] eph] eqn:Hsig; [|done]. cbn [set_eph sv_db sv_eph] in H.
  apply signed_request_by in Hsig as (Hseen & Hby & Hacc & Hrev & _); [|exact H0].
  destruct (rotation_checks _ _ _ _ _ _ _) as [[[key x] version]|] eqn:Hch; [|done].
  apply rotation_checks_ok in Hch as (<- & Hkid & Hver & Hdec & Hne & Hproof & Hxa & Hxd & Hxp & -> & _).
  destruct (rotate_device_key _ _) as [[ch|[]] db'] eqn:E; [|done|done].
  assert (Hst : st'.(sv_db) = db') by (destruct (Ephemeral.consume_step_up _ _ _); by injection H as _ _ <-).
  pose proof (rotation_consumes _ _ _ _ E) as [Hm1 Hm2]. rewrite <-Hst in Hm2. cbn in Hm1, Hm2.
  apply rotated_parts in E as (current & Hc & Hall & Hdevs & Hkeys). rewrite <-Hst in Hdevs, Hkeys.
  cbn [kr_step_up rotation_command] in Hc, Hdevs, Hkeys. rewrite Hxd in Hc, Hdevs.
  unfold rotation_allowed in Hall. cbn in Hall. split_bools.
  destruct (same_key _ _ _ _ _ _ H0 Hrun Hseen Hc) as (_ & Hkey & Hversion); [congruence|].
  match type of Hdevs with _ = <[_ := ?d']> _ => exists claims, current, key, x, d' end.
  split_and!; try done; try congruence.
  - by destruct (dv_public_key_revoked_at current).
  - assert (Hself : dv_device_id current = dv_device_id signed).
    { apply (km_device _ _ (keys_match_steps _ _ Hrun H0)) in Hc. apply Hc. }
    unfold signed_by. by rewrite Hself, <-Hkey.
  - rewrite Hdevs, lookup_insert_eq. reflexivity.
  - rewrite Hkeys. intros k Hk. cbn in Hk. rewrite lookup_insert_ne in Hk by congruence.
    assert (Hcur : current.(dv_public_key_id) = rq.(ro_current_public_key_id)) by congruence.
    rewrite Hcur, lookup_alter_eq in Hk. apply fmap_Some in Hk as (k0 & _ & ->). by eexists.
Qed.

(** The audit entry of a rotation is of the time at which the step-up was checked. *)
Lemma rotation_audit_time db claims rq signed device_id key version x request_id dd now ch db' :
  rotate_device_key db (rotation_command claims rq signed device_id key version x request_id dd now) = (Ok ch, db') →
  now = x.(sx_now)
  ∧ ∀ now', now' ≠ x.(sx_now) →
      rotate_device_key db (rotation_command claims rq signed device_id key version x request_id dd now') = (Err Conflict, db).
Proof.
  unfold rotate_device_key, apply_device_key_rotation.
  cbn [rotation_command kr_step_up kr_new_public_key_id kr_new_public_key kr_new_public_key_version].
  destruct (step_up_matches db x && _); [|done]. cbn [ensure mbind result_bind].
  destruct (db.(core).(db_devices) !! x.(sx_device_id)) as [current|]; [|done]. cbn [ok_or mbind result_bind].
  unfold rotation_allowed. cbn [rotation_command kr_step_up kr_current_public_key_id kr_current_public_key_version
    kr_new_public_key_id kr_new_public_key kr_new_public_key_version].
  match goal with |- context [ensure ?b Conflict] => destruct b eqn:Hb end; [|done]. cbn [ensure mbind result_bind].
  destruct (affected_epochs _ _) as [epochs|]; [|done]. cbn [mbind result_bind].
  unfold device_key_rotation_authority_audit. cbn [rotation_command kr_audit kr_step_up device_audit_entry au_created_at].
  intros H. assert (Ht : now = x.(sx_now)).
  { match type of H with context [ensure ?b Conflict] => destruct b eqn:Ha end; [|done]. clear H. split_bools. lia. }
  split; [exact Ht|]. intros now' Hne. apply Z.eqb_neq in Hne. rewrite Hne. by rewrite !andb_false_r.
Qed.

(** C40: The rotation of a key depends on two readings of the clock: it succeeds
    only when they are equal. The request that was granted is refused, as if the
    key had changed or the step-up had been used, when the clock moves on
    between the reading for the audit entry and the one at which the step-up
    token is checked; the database is left alone. *)
Theorem rotation_needs_still_clock seen st device_id rq r dd auth_now sig_now now step_now a st' :
  route_rotate_device_key cf seen st device_id rq r dd auth_now sig_now now step_now = (Ok a, st') →
  now = step_now
  ∧ ∀ now', now' ≠ step_now → ∃ eph,
      route_rotate_device_key cf seen st device_id rq r dd auth_now sig_now now' step_now
      = (Err DeviceKeyRotationConflict, {| sv_db := st.(sv_db); sv_eph := eph |}).
Proof.
  unfold route_rotate_device_key. destruct (authenticate cf seen r.(hr_headers) auth_now) as [claims|]; [|done].
  destruct (verify_signed_device_request _ _ _ _ _) as [[signed|] eph]; [|done]. cbn [set_eph sv_db sv_eph].
  destruct (rotation_checks _ _ _ _ _ _ _) as [[[key x] version]|] eqn:Hch; [|done].
  apply rotation_checks_ok in Hch as (_ & _ & _ & _ & _ & _ & _ & _ & _ & _ & <-).
  destruct (rotate_device_key _ _) as [[ch|[]] db'] eqn:E; [|done|done]. intros _.
  apply rotation_audit_time in E as [-> E]. split; [done|]. intros now' Hne. rewrite (E _ Hne). by exists eph.
Qed.

Lemma close_notifications events e s :
  e ∈ events → e.(ev_result_session) = Some s →
  ∃ n, n.(cn_session) = session_view s ∧ n.(cn_event_id) = e.(ev_event_id)
    ∧ (s.(se_controller_device_id), n) ∈ forced_session_close_notifications events
    ∧ (s.(se_controlled_device_id), n) ∈ forced_session_close_notifications events.
Proof.
  induction events as [|x events IH]; intros He Hs; [by apply not_elem_of_nil in He|].
  apply elem_of_cons in He as [<-|He].
  - cbn. rewrite Hs. eexists. split_and!; [| |left|right; left]; done.
  - destruct (IH He Hs) as (n & ? & ? & ? & ?). exists n. cbn. destruct (ev_result_session x); split_and!; try done;
      do 2 right; done.
Qed.

Lemma manage_device_actor db c ch db' : manage_device db c = (Ok (DeviceUpdated ch), db') → actor_valid db c = true.
Proof. unfold manage_device. by destruct (actor_valid db c). Qed.

(** The sessions closed by a change are announced. *)
Lemma managed_notifications db c ch db' :
  sessions_named db.(core).(db_sessions) → manage_device db c = (Ok (DeviceUpdated ch), db') →
  tightening c.(dm_action) = true →
  ∀ sid s, db.(core).(db_sessions) !! sid = Some s → involves c.(dm_target_device_id) s = true →
    ∃ n, n.(cn_session).(sv_session_id) = sid ∧ n.(cn_session).(sv_status) = Closed
      ∧ (s.(se_controller_device_id), n) ∈ forced_session_close_notifications ch.(dc_closed_session_events)
      ∧ (s.(se_controlled_device_id), n) ∈ forced_session_close_notifications ch.(dc_closed_session_events).
Proof.
  intros Hn H Ht sid s Hs Hi. apply manage_device_updated in H as (target & _ & _ & _ & H).
  apply apply_management_ok in H as (sessions & events & audits & Hclose & _ & _ & -> & _). rewrite Ht in Hclose.
  destruct Hclose as (reason & closing & _ & Hc & _).
  destruct (close_sessions_events _ _ _ _ _ _ _ _ (open_closable _ _ Hn) Hc sid s) as (e & epoch & He & Hres); [|done|].
  { apply open_sessions_spec; [done|]. by exists s. }
  destruct (close_notifications events e _ He Hres) as (n & Hv & _ & H1 & H2). exists n. rewrite Hv.
  split_and!; try done. exact (Hn _ _ Hs).
Qed.

(** A device is changed only on the word of a device of its account: when the
    route answers, whatever happened since it read the database, the request was signed
    with the key, still in force, of a device that may act, for a device of the same
    account, and the device is changed as was asked. When the change disables it,
    unbinds it or revokes its key, both ends of every session it had open are told
    that the session is closed. *)
Theorem update_authorized seen st device_id rq r dd auth_now sig_now now v ns st' :
  keys_match seen.(core).(db_devices) seen.(device_public_keys) → rtc account_step seen st.(sv_db) →
  sessions_named st.(sv_db).(core).(db_sessions) →
  route_update_device cf seen st device_id rq r dd auth_now sig_now now = (Ok (v, ns), st') →
  ∃ claims actor target d',
    authenticate cf seen r.(hr_headers) auth_now = Ok claims
    ∧ st.(sv_db).(core).(db_devices) !! actor.(dv_device_id) = Some actor
    ∧ actor.(dv_account_id) = claims.(acl_account_id) ∧ actor.(dv_public_key_revoked_at) = None
    ∧ is_authorizable actor.(dv_status) = true ∧ signed_by actor claims.(acl_account_id) r sig_now
    ∧ st.(sv_db).(core).(db_devices) !! device_id = Some target ∧ target.(dv_account_id) = claims.(acl_account_id)
    ∧ st'.(sv_db).(core).(db_devices) = <[device_id := d']> st.(sv_db).(core).(db_devices) ∧ v = device_view d'
    ∧ match rq.(ud_action) with
      | None => d'.(dv_status) = target.(dv_status) ∧ Some d'.(dv_display_name) = trim <$> rq.(ud_display_name)
      | Some AskDisable => d'.(dv_status) = LDisabled
      | Some AskRestore => d'.(dv_status) = LOffline ∧ target.(dv_status) = LDisabled
      | Some AskUnbind => d'.(dv_status) = LUnbound ∧ shut_out d'
      | Some AskRevokePublicKey => d'.(dv_status) = LDisabled ∧ shut_out d'
      end
    ∧ (tightening (requested_action <$> rq.(ud_action)) = true →
       ∀ sid s, st.(sv_db).(core).(db_sessions) !! sid = Some s → involves device_id s = true →
         ∃ n, n.(cn_session).(sv_session_id) = sid ∧ n.(cn_session).(sv_status) = Closed
           ∧ (s.(se_controller_device_id), n) ∈ ns ∧ (s.(se_controlled_device_id), n) ∈ ns).
Proof.
  intros H0 Hrun Hnamed H. unfold route_update_device in H.
  destruct (authenticate cf seen r.(hr_headers) auth_now) as [claims|]; [|done]. cbn [map_err mbind result_bind] in H.
  destruct (update_shape rq) as [name|] eqn:Hshape; [|done]. cbn [mbind result_bind] in H.
  destruct (verify_signed_device_request _ _ _ _ _) as [[actor|] eph] eqn:Hsig; [|done]. cbn [set_eph sv_db sv_eph] in H.
  apply signed_request_by in Hsig as (Hseen & Hby & Hacc & Hrev & _); [|exact H0].
  destruct (own_device _ _ _) as [seen_target|]; [|done].
  destruct (manage_device _ _) as [[[ch| |]|[]] db'] eqn:E; [|done..]. injection H as <- <- <-. cbn [set_db sv_db].
  pose proof (managed_notifications _ _ _ _ Hnamed E) as Hnote. cbn [management_command dm_action dm_target_device_id] in Hnote.
  pose proof (manage_device_actor _ _ _ _ E) as Hactor. unfold actor_valid in Hactor. cbn in Hactor.
  destruct (st.(sv_db).(core).(db_devices) !! actor.(dv_device_id)) as [actor'|] eqn:Ha; [|done].
  pose proof (manage_device_updated _ _ _ _ E) as (target' & Ht' & Hacc' & _).
  apply managed_parts in E as (target & Ht & _ & Hallowed & Hdev & Hdevs & _). cbn in Ht, Ht', Hacc', Hdevs.
  rewrite Ht in Ht'. injection Ht' as <-. split_bools.
  destruct (same_key _ _ _ _ _ _ H0 Hrun Hseen Ha) as (_ & Hkey & _); [congruence|].
  assert (Hself : dv_device_id actor' = dv_device_id actor).
  { apply (km_device _ _ (keys_match_steps _ _ Hrun H0)) in Ha. apply Ha. }
  exists claims, actor', target, ch.(dc_device). rewrite Hself. split_and!; try done.
  - by destruct (dv_public_key_revoked_at actor').
  - unfold signed_by. by rewrite Hself, <-Hkey.
  - rewrite Hdev. clear -Hshape Hallowed. unfold update_shape in Hshape. apply bind_ok in Hshape as ([] & _ & Hname).
    injection Hname as Hname. unfold device_management_transition_allowed in Hallowed. cbn in Hallowed.
    unfold apply_device_management. cbn. destruct rq.(ud_action) as [[]|]; cbn in Hallowed |- *; subst name.
    + done.
    + destruct (ud_display_name rq); [done|]. cbn in Hallowed. split_bools. done.
    + done.
    + done.
    + split; [done|]. destruct (ud_display_name rq); [done|]. done.
Qed.
End refinement.

(** ** Examples

    Requests of the device that [ex_first] registered. *)

Section examples.
#[local] Existing Instance toy.
#[local] Existing Instance toy_factors.
#[local] Existing Instance toy_text.
#[local] Existing Instance toy_auth.

Definition ex_canonical_request (method target request_id nonce : string) (now : Z) : bytes :=
  match canonical_api_request_bytes (str method) (str target) (sha256 []) (str request_id) (str "device-1")
          (str "account-1") now (str nonce) with
  | Ok bs => bs | Err _ => [] end.

(** A request with a token of the session of the login, signed with the key. *)
Definition ex_http (method target request_id nonce : string) (now : Z) (timestamp : string) (extra : HeaderMap)
    : HttpRequest := {|
  hr_method := str method; hr_target := str target; hr_body := []; hr_request_id := str request_id;
  hr_headers :=
    <[str "authorization" := str "Bearer " ++ sign_access_token (ex_claims "session-2") (str "secret")]>
    (<[str "x-rctl-device-id" := str "device-1"]>
    (<[str "x-rctl-timestamp" := str timestamp]>
    (<[str "x-rctl-api-nonce" := str nonce]>
    (<[str "x-rctl-device-signature" :=
         encode_hex (ed25519_sign ex_key (sha256 (ex_canonical_request method target request_id nonce now)))]> extra)))) |}.

Definition ex_device_draws : DeviceDraws := {|
  dd_public_key_id := str "key-2"; dd_trusted_device_id := str "trust-2";
  dd_audit_id n := str "d-audit" ++ be_bytes 1 (48 + Z.of_nat n) |}.

Definition ex_server (db : AccountDb) : Server := {| sv_db := db; sv_eph := memory_state_default |}.

Definition ex_disable : UpdateDeviceRequest := {| ud_display_name := None; ud_action := Some AskDisable |}.
Definition ex_patch : HttpRequest := ex_http "PATCH" "/v1/devices/device-1" "request-20" "nonce-20" 400 "400" ∅.

Definition ex_update_answer : result DeviceError (DeviceView * list (rstr * CloseNotification)) * Server :=
  route_update_device ex_config DeviceRuns.ex_registered (ex_server DeviceRuns.ex_registered) (str "device-1") ex_disable
    ex_patch ex_device_draws 400 400 410.

(** The token for the step-up, bound to the request; the challenge was verified. *)
Definition ex_rotation_target : string := "/v1/devices/device-1/keys".

Definition ex_binding : rstr :=
  default [] (operation_binding_hash (str "account-1") (str "device-1") (str "device_key_rotation") (str "POST")
                (str ex_rotation_target) (sha256 []) (str "request-21") 900).

Definition ex_challenge : RiskChallenge := {|
  rk_risk_challenge_id := str "risk-9"; rk_account_id := str "account-1"; rk_device_id := Some (str "device-1");
  rk_purpose := str "device_key_rotation"; rk_operation_binding_hash := default [] (decode_sha256_hex ex_binding);
  rk_risk_level := str "high"; rk_required_methods := []; rk_status := RVerified; rk_attempts_remaining := 5;
  rk_ip_address := None; rk_user_agent := None; rk_expires_at := 900; rk_created_at := 350;
  rk_verified_at := Some 380; rk_consumed_at := None |}.

Definition ex_step_up : rstr := sign_step_up_token {|
  sc_account_id := str "account-1"; sc_device_id := str "device-1"; sc_challenge_id := str "risk-9";
  sc_purpose := str "device_key_rotation"; sc_operation_binding_hash := ex_binding; sc_expires_at := 900;
  sc_token_type := str "step_up" |} (str "secret").

Definition ex_post : HttpRequest := ex_http "POST" ex_rotation_target "request-21" "nonce-21" 400 "400"
  {[str "x-rctl-risk-challenge-id" := str "risk-9"; str "x-rctl-step-up-token" := ex_step_up]}.

Definition ex_new_key : bytes := be_bytes 32 77.

Definition ex_rotate : RotateDeviceKeyRequest := {|
  ro_current_public_key_id := str "key-1"; ro_current_public_key_version := 1;
  ro_new_public_key := encode_hex ex_new_key;
  ro_new_public_key_proof := encode_hex (ed25519_sign ex_new_key (sha256 (canonical_fields (str "rctl-device-key-rotation-v1")
    [(str "account_id", str "account-1"); (str "device_id", str "device-1"); (str "current_public_key_id", str "key-1");
     (str "current_public_key_version", be_bytes 4 1); (str "new_public_key", ex_new_key)]))) |}.

Definition ex_verified : AccountDb :=
  set_risk_challenges DeviceRuns.ex_registered (<[str "risk-9" := ex_challenge]> DeviceRuns.ex_registered.(risk_challenges)).

Definition ex_rotation_answer : result DeviceError (DeviceView * list (rstr * CloseNotification)) * Server :=
  route_rotate_device_key ex_config ex_verified (ex_server ex_verified) (str "device-1") ex_rotate ex_post ex_device_draws
    400 400 400 400.

Definition answered {X : Type} (a : result DeviceError X * Server) : bool := is_ok a.1.

Lemma answered_ok {X : Type} (a : result DeviceError X * Server) :
  answered a = true → ∃ x st, a = (Ok x, st).
Proof. destruct a as [[x|e] st]; [|discriminate]. intros _. by exists x, st. Qed.

Lemma ex_update_ok : ∃ x st, ex_update_answer = (Ok x, st).
Proof. apply answered_ok. vm_compute. reflexivity. Qed.

Lemma ex_rotation_ok : ∃ x st, ex_rotation_answer = (Ok x, st).
Proof. apply answered_ok. vm_compute. reflexivity. Qed.

Lemma ex_keys : keys_match DeviceRuns.ex_registered.(core).(db_devices) DeviceRuns.ex_registered.(device_public_keys).
Proof. exact (keys_match_steps _ _ ex_registered_run keys_match_empty). Qed.

Lemma set_risk_keys db m :
  keys_match db.(core).(db_devices) db.(device_public_keys) →
  keys_match (set_risk_challenges db m).(core).(db_devices) (set_risk_challenges db m).(device_public_keys).
Proof. done. Qed.

Lemma ex_verified_keys : keys_match ex_verified.(core).(db_devices) ex_verified.(device_public_keys).
Proof. apply set_risk_keys. exact ex_keys. Qed.

Lemma ex_no_sessions : sessions_named DeviceRuns.ex_registered.(core).(db_sessions).
Proof.
  assert (H : DeviceRuns.ex_registered.(core).(db_sessions) = ∅) by (vm_compute; reflexivity).
  rewrite H. intros sid s Hs. by rewrite lookup_empty in Hs.
Qed.

Lemma device_routes_refine_witness :
  rtc account_step DeviceRuns.ex_registered ex_update_answer.2.(sv_db)
  ∧ answered ex_update_answer = true.
Proof.
  split; [|vm_compute; reflexivity].
  refine (proj1 (device_routes_refine (P := toy) (F := toy_factors) (T := toy_text) (A := toy_auth) ex_config false
                   (ex_server DeviceRuns.ex_registered) ex_update_answer.2 (rtc_once _ _ _))).
  exact (asv_update _ _ _ _ _ _ _ _ _ _ _).
Defined.

Lemma ex_patch_claims : authenticate ex_config DeviceRuns.ex_registered ex_patch.(hr_headers) 400 = Ok (ex_claims "session-2").
Proof. vm_compute. reflexivity. Qed.

Lemma ex_post_claims : authenticate ex_config ex_verified ex_post.(hr_headers) 400 = Ok (ex_claims "session-2").
Proof. vm_compute. reflexivity. Qed.

Lemma update_authorized_witness :
  ∃ x st actor, ex_update_answer = (Ok x, st)
    ∧ DeviceRuns.ex_registered.(core).(db_devices) !! actor.(dv_device_id) = Some actor
    ∧ signed_by actor (str "account-1") ex_patch 400.
Proof.
  destruct ex_update_ok as ([v ns] & st & E). exists (v, ns), st.
  destruct (update_authorized (P := toy) (T := toy_text) ex_config DeviceRuns.ex_registered
              (ex_server DeviceRuns.ex_registered) (str "device-1") ex_disable ex_patch ex_device_draws 400 400 410 v ns st
              ex_keys (rtc_refl _ _) ex_no_sessions E)
    as (claims & actor & target & d' & Hc & Ha & Hacc & _ & _ & Hs & _).
  exists actor. split; [exact E|]. split; [exact Ha|]. rewrite ex_patch_claims in Hc. injection Hc as <-. exact Hs.
Defined.

Lemma rotation_authorized_witness :
  ∃ x st d, ex_rotation_answer = (Ok x, st) ∧ st.(sv_db).(core).(db_devices) !! str "device-1" = Some d
    ∧ d.(dv_public_key) = ex_new_key ∧ d.(dv_public_key_revoked_at) = None.
Proof.
  destruct ex_rotation_ok as ([v ns] & st & E). exists (v, ns), st.
  destruct (rotation_authorized (P := toy) (T := toy_text) ex_config ex_verified
              (ex_server ex_verified) (str "device-1") ex_rotate ex_post ex_device_draws 400 400 400 400 v ns st
              ex_verified_keys (rtc_refl _ _) E)
    as (claims & d & key & x & d' & _ & _ & _ & _ & _ & Hk & _ & _ & _ & _ & _ & _ & _ & Hd & Hk' & _ & Hr & _).
  exists d'. split; [exact E|]. split; [exact Hd|]. split; [|exact Hr]. rewrite Hk'. clear -Hk.
  assert (H : decode_public_key ex_rotate.(ro_new_public_key) = Some ex_new_key) by (vm_compute; reflexivity).
  rewrite H in Hk. by injection Hk as <-.
Defined.

Lemma rotation_needs_still_clock_witness :
  answered ex_rotation_answer = true
  ∧ ∃ eph, route_rotate_device_key ex_config ex_verified (ex_server ex_verified) (str "device-1") ex_rotate ex_post
      ex_device_draws 400 400 399 400 = (Err DeviceKeyRotationConflict, {| sv_db := ex_verified; sv_eph := eph |}).
Proof.
  split; [vm_compute; reflexivity|]. destruct ex_rotation_ok as (x & st & E).
  destruct (rotation_needs_still_clock (P := toy) (T := toy_text) ex_config ex_verified (ex_server ex_verified)
              (str "device-1") ex_rotate ex_post ex_device_draws 400 400 400 400 x st E) as [_ H].
  exact (H 399 ltac:(discriminate)).
Defined.
End examples.
