(* ===== verification/MfaRoutes.v ===== *)
(** * Second factors, risk challenges and trusted devices

    Models services/api-server/src/routes/mfa.rs over the repository ([ApiAccount])
    and the short-lived state ([Ephemeral]): the enrolment of a TOTP factor and the
    sealed delivery of its recovery codes, risk challenges and their verification, and
    the operations that a step-up pays for. What is drawn at random and the times at
    which the clock is read are arguments, and so is the database [seen] that a route
    reads before its operation runs. The body of a request is already parsed
    ([parse_json] is serde's); the JSON text of a list of codes is a parameter. *)

From S2P Require Import Prelude Text Header Canonical RequestTarget Security Primitives KeySession SignalAuth Net ApiSession Ephemeral ApiAccount ApiLogin ApiSecurity ApiDevice ApiAuthority ApiRequest ApiAuth DeviceRuns DeviceRoutes.

(** ** Data *)

Definition ALLOWED_STEP_UP_PURPOSES : list rstr :=
  [str "trusted_device_change"; str "password_change"; str "mfa_factor_change"; str "recovery_code_rotate";
   str "device_key_rotation"; str "unattended_secret_change"; str "require_prompt_relax"; str "allow_privacy_screen";
   str "allow_block_local_input"; str "allow_remote_reboot"; str "remote_reboot"; str "access_policy_change";
   str "client_release_change"; str "region_policy_change"].

Definition RECOVERY_DELIVERY_TTL_MILLIS : Z := 24 * 60 * 60 * 1000.

Record TotpStartRequest := { ts_recovery_delivery_public_key : rstr }.

Record TotpFinishRequest := { tf_factor_id : rstr; tf_code : rstr }.

Record RiskChallengeRequest := {
  rc_device_id : rstr;
  rc_purpose : rstr;
  rc_method : rstr;
  rc_path : rstr;
  rc_body_hash : rstr;
  rc_request_id : rstr }.

Record VerifyRiskRequest := { vq_factor : rstr; vq_code : rstr }.

Record TrustedDeviceView := {
  tv_trusted_device_id : rstr;
  tv_controller_device_id : rstr;
  tv_trust_level : rstr;
  tv_status : rstr;
  tv_created_at : Z;
  tv_last_used_at : option Z;
  tv_expires_at : Z }.

(** The answers of the routes. *)
Record MfaStatusView := { ms_enabled : bool; ms_factors : list (rstr * Z); ms_recovery_codes_remaining : Z }.

Record TotpStartAnswer := {
  ta_factor_id : rstr;
  ta_secret_base32 : rstr;
  ta_otpauth_uri : rstr;
  ta_expires_in_seconds : Z }.

Record RecoveryDeliveryResponse := {
  dr_delivery_id : rstr;
  dr_server_ephemeral_public_key : rstr;
  dr_nonce : rstr;
  dr_ciphertext : rstr;
  dr_created_at : Z;
  dr_expires_at : Z;
  dr_recovery_code_count : Z }.

Record RiskChallengeAnswer := {
  rx_risk_challenge_id : rstr;
  rx_required_methods : list rstr;
  rx_operation_binding_hash : rstr;
  rx_expires_at : Z;
  rx_attempts_remaining : Z }.

Record StepUpAnswer := { sa_risk_challenge_id : rstr; sa_step_up_token : rstr; sa_expires_at : Z }.

(** What is drawn at random. *)
Record MfaDraws := {
  md_factor_id : rstr;
  md_secret_base32 : rstr;
  md_lease_token : rstr;
  md_challenge_id : rstr;
  md_delivery_id : rstr;
  md_server_secret : bytes;
  md_nonce_source : bytes;
  md_code_bytes : nat → bytes;
  md_code_id : nat → rstr;
  md_audit_id : nat → rstr }.

Inductive MfaError :=
| InvalidRecoveryDeliveryKey | MfaAlreadyEnabled | MfaEnrollmentInProgress | IdempotencyKeyRequired
| InvalidMfaCode | IdempotencyBindingMismatch | StepUpAlreadyConsumed | MfaFactorChanged | TrustedDeviceChanged
| InvalidRiskPurpose | OperationBindingInvalid | MfaEnrollmentRequiredError | StepUpDeviceNotAuthorized
| MfaVerificationFailed | MfaInternal
| MfaRequest (e : RequestError).

(** ** Small pieces *)

(** [u64::saturating_mul]. *)
Definition sat_mul (w a b : Z) : Z := Z.min (a * b) (u_max w).

Definition is_ascii (s : rstr) : bool := forallb (λ b, byte_val b <? 128) s.

(** Header values are ASCII, so that characters are bytes. *)
Definition mfa_user_agent (headers : HeaderMap) : option rstr :=
  take 512 <$> (headers !! str "user-agent" ≫= nonempty).

Definition trusted_device_status (s : TrustedDeviceStatus) : rstr :=
  match s with TrustActive => str "active" | TrustExpired => str "expired" | TrustRevoked => str "revoked" end.

Definition required_idempotency_key (headers : HeaderMap) : result MfaError rstr :=
  ok_or (v ← headers !! str "idempotency-key";
         if (v ≠! []) && (len v <=? 128) && is_ascii v then Some v else None) IdempotencyKeyRequired.

Definition account_audit_entry (id account_id : rstr) (target : option rstr) (action : rstr) (metadata : gmap rstr Value)
    (request_id : rstr) (now : Z) : AuditEntry := {|
  au_audit_id := id; au_actor_type := str "account"; au_actor_account_id := Some account_id;
  au_actor_device_id := None; au_actor_role := None; au_actor_service := None; au_target_device_id := target;
  au_session_id := None; au_action := action; au_result := str "success"; au_reason := None; au_metadata := metadata;
  au_request_id := request_id; au_created_at := now |}.

Definition challenge_audit_entry (id request_id : rstr) (challenge : RiskChallenge) (action result_ : rstr)
    (reason : option rstr) (now : Z) : AuditEntry := {|
  au_audit_id := id; au_actor_type := str "account"; au_actor_account_id := Some challenge.(rk_account_id);
  au_actor_device_id := None; au_actor_role := None; au_actor_service := None;
  au_target_device_id := challenge.(rk_device_id); au_session_id := None; au_action := action; au_result := result_;
  au_reason := reason; au_metadata := ∅; au_request_id := request_id; au_created_at := now |}.

Definition list_trusted_devices_for_account (db : AccountDb) (account_id : rstr) : list TrustedControllerDevice :=
  List.filter (λ t, t.(tr_account_id) =! account_id) (snd <$> btree_iter db.(trusted_controller_devices)).

Definition trusted_device_view (t : TrustedControllerDevice) (now : Z) : TrustedDeviceView := {|
  tv_trusted_device_id := t.(tr_trusted_device_id); tv_controller_device_id := t.(tr_controller_device_id);
  tv_trust_level := t.(tr_trust_level);
  tv_status := if (t.(tr_status) =! TrustActive) && (t.(tr_expires_at) <=? now) then str "expired"
               else trusted_device_status t.(tr_status);
  tv_created_at := t.(tr_created_at); tv_last_used_at := t.(tr_last_used_at); tv_expires_at := t.(tr_expires_at) |}.

Section routes.
Context `{P : Primitives} `{F : FactorCrypto} `{T : ApiText}.
(** [serde_json::to_vec(&json!({ "recovery_codes": codes }))]. *)
Context (recovery_codes_json : list rstr → bytes).

Definition route_mfa_status (cf : AppConfig) (db : AccountDb) (headers : HeaderMap) (auth_now now : Z)
    : result MfaError MfaStatusView :=
  claims ← map_err MfaRequest (authenticate cf db headers auth_now);
  let '(factors, remaining) := load_mfa_status db claims.(acl_account_id) now in
  Ok {| ms_enabled := factors ≠! []; ms_factors := factors; ms_recovery_codes_remaining := remaining |}.

(** ** Enrolment *)

Definition all_zero (bs : bytes) : bool := forallb (λ b, b =! x00) bs.

Definition validate_x25519_public_key (public_key : bytes) : result MfaError unit :=
  ensure (negb (all_zero (x25519_shared (repeat x42 32) public_key))) InvalidRecoveryDeliveryKey.

Definition pending_enrollment (cf : AppConfig) (account_id : rstr) (key : bytes) (md : MfaDraws) (now : Z)
    : PendingTotpEnrollment := {|
  te_factor_id := md.(md_factor_id); te_account_id := account_id; te_secret_base32 := md.(md_secret_base32);
  te_recovery_delivery_public_key := key; te_created_at := now;
  te_expires_at := sat_add 64 now (sat_mul 64 cf.(cf_challenge_ttl_seconds) 1000);
  te_attempts_remaining := cf.(cf_challenge_attempts) |}.

Definition route_totp_start (cf : AppConfig) (seen : AccountDb) (st : Server) (rq : TotpStartRequest) (headers : HeaderMap)
    (md : MfaDraws) (auth_now now : Z) : result MfaError TotpStartAnswer * Server :=
  match (claims ← map_err MfaRequest (authenticate cf seen headers auth_now);
         key ← ok_or (decode_array 32 rq.(ts_recovery_delivery_public_key)) InvalidRecoveryDeliveryKey;
         _ ← validate_x25519_public_key key;
         _ ← ensure (negb (mfa_enabled seen claims.(acl_account_id))) MfaAlreadyEnabled;
         Ok (claims, key)) with
  | Err e => (Err e, st)
  | Ok (claims, key) =>
      let e := pending_enrollment cf claims.(acl_account_id) key md now in
      let '(created, eph) := put_pending_totp_enrollment st.(sv_eph) e now in
      (if created
       then Ok {| ta_factor_id := e.(te_factor_id); ta_secret_base32 := e.(te_secret_base32);
                  ta_otpauth_uri := str "otpauth://totp/Rctl:" ++ claims.(acl_account_id) ++ str "?secret="
                                      ++ e.(te_secret_base32) ++ str "&issuer=Rctl";
                  ta_expires_in_seconds := cf.(cf_challenge_ttl_seconds) |}
       else Err MfaEnrollmentInProgress, set_eph st eph)
  end.

(** Eight codes of two groups of eight letters, and their records. *)
Definition recovery_code (random : bytes) : rstr :=
  let raw := ascii_upper <$> b64url_text random in take 8 raw ++ str "-" ++ take 8 (drop 8 raw).

Definition generate_recovery_codes (account_id : rstr) (md : MfaDraws) : list rstr * list RecoveryCode :=
  let codes := (λ n, recovery_code (md.(md_code_bytes) n)) <$> seq 0 8 in
  (codes, (λ n, {| rv_recovery_code_id := md.(md_code_id) n; rv_account_id := account_id;
                   rv_code_hash := sha256 (recovery_code (md.(md_code_bytes) n)); rv_used_at := None;
                   rv_expires_at := None |}) <$> seq 0 8).

(** The salt and the associated data of a delivery. *)
Definition delivery_salt (account_id account_session_id factor_id delivery_id : rstr) (idempotency_key_hash : bytes)
    : bytes :=
  sha256 (canonical_fields (str "rctl-recovery-delivery-salt-v1")
    [(str "account_id", account_id); (str "account_session_id", account_session_id); (str "factor_id", factor_id);
     (str "delivery_id", delivery_id); (str "idempotency_key_hash", idempotency_key_hash)]).

Definition delivery_info (account_id account_session_id factor_id delivery_id : rstr) (client_key server_key : bytes)
    (created expires : Z) : bytes :=
  canonical_fields (str "rctl-recovery-delivery-v1")
    [(str "account_id", account_id); (str "account_session_id", account_session_id); (str "factor_id", factor_id);
     (str "delivery_id", delivery_id); (str "client_ephemeral_public_key", client_key);
     (str "server_ephemeral_public_key", server_key); (str "created_at_epoch_millis", be_bytes 8 created);
     (str "expires_at_epoch_millis", be_bytes 8 expires)].

Definition build_recovery_delivery (claims : AccessClaims) (e : PendingTotpEnrollment) (codes : list rstr)
    (idempotency_key_hash finish_request_binding_hash : bytes) (md : MfaDraws) (now : Z)
    : result MfaError RecoveryCodeDelivery :=
  let expires_at := sat_add 64 now RECOVERY_DELIVERY_TTL_MILLIS in
  let server_key := x25519_public md.(md_server_secret) in
  let client_key := e.(te_recovery_delivery_public_key) in
  let shared := x25519_shared md.(md_server_secret) client_key in
  _ ← ensure (negb (all_zero shared)) InvalidRecoveryDeliveryKey;
  let salt := delivery_salt claims.(acl_account_id) claims.(acl_account_session_id) e.(te_factor_id)
                md.(md_delivery_id) idempotency_key_hash in
  let info := delivery_info claims.(acl_account_id) claims.(acl_account_session_id) e.(te_factor_id)
                md.(md_delivery_id) client_key server_key now expires_at in
  key ← ok_or (hkdf_sha256 salt shared info 32) MfaInternal;
  plaintext ← ok_or (canonical_json_bytes_from_slice (recovery_codes_json codes)) MfaInternal;
  let nonce := take 12 md.(md_nonce_source) in
  ciphertext ← ok_or (chacha_encrypt key nonce info plaintext) MfaInternal;
  _ ← ensure (len codes <? 2 ^ 16) MfaInternal;
  Ok {| dl_delivery_id := md.(md_delivery_id); dl_account_id := claims.(acl_account_id);
        dl_account_session_id := claims.(acl_account_session_id); dl_factor_id := e.(te_factor_id);
        dl_idempotency_key_hash := idempotency_key_hash;
        dl_finish_request_binding_hash := finish_request_binding_hash;
        dl_client_ephemeral_public_key := client_key; dl_server_ephemeral_public_key := server_key;
        dl_nonce := nonce; dl_ciphertext := ciphertext; dl_recovery_code_count := len codes; dl_created_at := now;
        dl_expires_at := expires_at; dl_acknowledged_at := None |}.

Definition recovery_delivery_response (d : RecoveryCodeDelivery) : RecoveryDeliveryResponse := {|
  dr_delivery_id := d.(dl_delivery_id);
  dr_server_ephemeral_public_key := b64url_text d.(dl_server_ephemeral_public_key);
  dr_nonce := b64url_text d.(dl_nonce); dr_ciphertext := b64url_text d.(dl_ciphertext);
  dr_created_at := d.(dl_created_at); dr_expires_at := d.(dl_expires_at);
  dr_recovery_code_count := d.(dl_recovery_code_count) |}.

Definition replay_totp_delivery (db : AccountDb) (l : TotpEnrollmentReplayLookup)
    : result MfaError RecoveryDeliveryResponse :=
  match replay_totp_enrollment db l with
  | Err _ => Err MfaInternal
  | Ok (EnrollmentReplayed d) => Ok (recovery_delivery_response d)
  | Ok EnrollmentBindingMismatch => Err IdempotencyBindingMismatch
  | Ok EnrollmentNotFound | Ok EnrollmentNotAuthorized => Err (MfaRequest Unauthorized)
  end.

Definition totp_completion (claims : AccessClaims) (e : PendingTotpEnrollment) (counter : Z)
    (records : list RecoveryCode) (d : RecoveryCodeDelivery) (request_id : rstr) (md : MfaDraws) (now : Z)
    : TotpEnrollmentCompletion := {|
  cp_factor := {| mf_factor_id := e.(te_factor_id); mf_account_id := claims.(acl_account_id);
                  mf_secret_base32 := e.(te_secret_base32); mf_active := true; mf_last_used_counter := Some counter;
                  mf_created_at := e.(te_created_at) |};
  cp_recovery_codes := records; cp_delivery := d;
  cp_audit := account_audit_entry (md.(md_audit_id) 0%nat) claims.(acl_account_id) None (str "mfa_factor_enrolled") ∅
                request_id now |}.

(** What a repeated request is looked up by; the binding and the key are known only
    while the enrolment is pending. *)
Definition replay_lookup (claims : AccessClaims) (factor_id : rstr) (key_hash : bytes) (bound : option (bytes * bytes))
    (now : Z) : TotpEnrollmentReplayLookup := {|
  lk_account_id := claims.(acl_account_id); lk_account_session_id := claims.(acl_account_session_id);
  lk_factor_id := factor_id; lk_idempotency_key_hash := key_hash; lk_finish_request_binding_hash := fst <$> bound;
  lk_client_ephemeral_public_key := snd <$> bound; lk_access_token_expires_at := claims.(acl_expires_at);
  lk_now := now |}.

(** The second half of the route: the code is right. *)
Definition totp_finish_accepted (st : Server) (claims : AccessClaims) (attempt : PendingTotpEnrollmentAttempt)
    (factor_id : rstr) (key_hash : bytes) (counter : Z) (request_id : rstr) (md : MfaDraws) (now : Z)
    : result MfaError RecoveryDeliveryResponse * Server :=
  let e := attempt.(ta_enrollment) in
  let '(codes, records) := generate_recovery_codes claims.(acl_account_id) md in
  let binding := totp_enrollment_finish_binding_hash claims.(acl_account_id) claims.(acl_account_session_id) factor_id
                   key_hash e.(te_recovery_delivery_public_key) in
  match build_recovery_delivery claims e codes key_hash binding md now with
  | Err x => (Err x, st)
  | Ok d =>
      match finish_totp_enrollment st.(sv_db) (totp_completion claims e counter records d request_id md now) with
      | (Err x, db) =>
          let '(_, eph) := abort_pending_totp_enrollment_attempt st.(sv_eph) attempt in
          (match x with
           | Conflict => replay_totp_delivery db (replay_lookup claims factor_id key_hash
                           (Some (binding, e.(te_recovery_delivery_public_key))) now)
           | Unavailable => Err MfaInternal
           end, {| sv_db := db; sv_eph := eph |})
      | (Ok _, db) =>
          let '(finished, eph) := finish_pending_totp_enrollment_attempt st.(sv_eph) attempt true now in
          let eph := match finished with
                     | Some _ => eph
                     | None => (remove_pending_totp_enrollment eph claims.(acl_account_id) factor_id).2
                     end in
          (Ok (recovery_delivery_response d), {| sv_db := db; sv_eph := eph |})
      end
  end.

(** [now] is the clock at the start of the route, [later] when the session is looked
    up a second time. *)
Definition route_totp_finish (cf : AppConfig) (seen : AccountDb) (st : Server) (rq : TotpFinishRequest)
    (headers : HeaderMap) (request_id : rstr) (md : MfaDraws) (now later : Z)
    : result MfaError RecoveryDeliveryResponse * Server :=
  match (token ← map_err MfaRequest (bearer headers);
         claims ← ok_or (verify_access_token token cf.(cf_token_secret) now) (MfaRequest Unauthorized);
         key ← required_idempotency_key headers;
         Ok (claims, sha256 key)) with
  | Err e => (Err e, st)
  | Ok (claims, key_hash) =>
      let lookup := replay_lookup claims rq.(tf_factor_id) key_hash None now in
      if negb (account_session_active seen claims.(acl_account_session_id) claims.(acl_account_id) now)
      then (replay_totp_delivery st.(sv_db) lookup, st)
      else
        let '(begun, eph) := begin_pending_totp_enrollment_attempt st.(sv_eph) claims.(acl_account_id)
                               rq.(tf_factor_id) now md.(md_lease_token) in
        let st := set_eph st eph in
        match begun with
        | None =>
            (if negb (account_session_active st.(sv_db) claims.(acl_account_session_id) claims.(acl_account_id) later)
             then replay_totp_delivery st.(sv_db) lookup
             else Err InvalidMfaCode, st)
        | Some attempt =>
            match verify_totp attempt.(ta_enrollment).(te_secret_base32) rq.(tf_code) now None with
            | None =>
                let '(_, eph) := finish_pending_totp_enrollment_attempt st.(sv_eph) attempt false now in
                (Err InvalidMfaCode, set_eph st eph)
            | Some counter =>
                totp_finish_accepted st claims attempt rq.(tf_factor_id) key_hash counter request_id md now
            end
        end
  end.

(** ** Risk challenges *)

(** The methods that [Method::from_bytes] reads and the route allows. *)
Definition STEP_UP_METHODS : list rstr := [str "GET"; str "POST"; str "PATCH"; str "DELETE"].

(** The checks of the route, and what the challenge is bound to. *)
Definition risk_checks (rq : RiskChallengeRequest) : result MfaError (rstr * bytes) :=
  _ ← ensure (bool_decide (rq.(rc_purpose) ∈ ALLOWED_STEP_UP_PURPOSES)) InvalidRiskPurpose;
  _ ← ensure (bool_decide (rq.(rc_method) ∈ STEP_UP_METHODS)) OperationBindingInvalid;
  path ← map_err MfaRequest (canonical_operation_path rq.(rc_path));
  body_hash ← ok_or (decode_sha256_hex rq.(rc_body_hash)) OperationBindingInvalid;
  _ ← ensure (negb ((rq.(rc_request_id) =! []) || (128 <? len rq.(rc_request_id)) || negb (is_ascii rq.(rc_request_id))))
        OperationBindingInvalid;
  Ok (path, body_hash).

Definition new_risk_challenge (cf : AppConfig) (account_id : rstr) (rq : RiskChallengeRequest) (binding : bytes)
    (headers : HeaderMap) (md : MfaDraws) (now expires : Z) : RiskChallenge := {|
  rk_risk_challenge_id := md.(md_challenge_id); rk_account_id := account_id; rk_device_id := Some rq.(rc_device_id);
  rk_purpose := rq.(rc_purpose); rk_operation_binding_hash := binding; rk_risk_level := str "high";
  rk_required_methods := []; rk_status := RIssued; rk_attempts_remaining := cf.(cf_challenge_attempts);
  rk_ip_address := None; rk_user_agent := mfa_user_agent headers; rk_expires_at := expires; rk_created_at := now;
  rk_verified_at := None; rk_consumed_at := None |}.

(** The copy for the short-lived state. *)
Definition step_up_challenge (c : RiskChallenge) (binding : rstr) : AuthChallenge := {|
  ch_challenge_id := c.(rk_risk_challenge_id); ch_account_id := c.(rk_account_id); ch_device_id := c.(rk_device_id);
  ch_purpose := StepUp c.(rk_purpose); ch_operation_binding_hash := Some binding; ch_login := None;
  ch_attempts_remaining := c.(rk_attempts_remaining); ch_expires_at := c.(rk_expires_at); ch_verified_at := None;
  ch_consumed_at := None |}.

Definition route_create_risk_challenge (cf : AppConfig) (seen : AccountDb) (st : Server) (rq : RiskChallengeRequest)
    (headers : HeaderMap) (request_id : rstr) (md : MfaDraws) (auth_now now : Z)
    : result MfaError RiskChallengeAnswer * Server :=
  let expires := now + cf.(cf_challenge_ttl_seconds) * 1000 in
  match (claims ← map_err MfaRequest (authenticate cf seen headers auth_now);
         '(path, body_hash) ← risk_checks rq;
         binding ← ok_or (operation_binding_hash claims.(acl_account_id) rq.(rc_device_id) rq.(rc_purpose) rq.(rc_method)
                            path body_hash rq.(rc_request_id) expires) MfaInternal;
         binding_bytes ← ok_or (decode_sha256_hex binding) MfaInternal;
         Ok (claims, binding, binding_bytes)) with
  | Err e => (Err e, st)
  | Ok (claims, binding, binding_bytes) =>
      let c := new_risk_challenge cf claims.(acl_account_id) rq binding_bytes headers md now expires in
      let entry := account_audit_entry (md.(md_audit_id) 0%nat) claims.(acl_account_id) (Some rq.(rc_device_id))
                     (str "risk_challenge_issued")
                     (<[str "purpose" := VString rq.(rc_purpose)]>
                      {[str "risk_challenge_id" := VString md.(md_challenge_id)]}) request_id now in
      match create_risk_challenge st.(sv_db) c entry with
      | (Err _, db) => (Err MfaInternal, set_db st db)
      | (Ok MfaEnrollmentRequired, db) => (Err MfaEnrollmentRequiredError, set_db st db)
      | (Ok NotAuthorized, db) => (Err StepUpDeviceNotAuthorized, set_db st db)
      | (Ok (ChallengeCreated c), db) =>
          let '(_, eph) := put_challenge st.(sv_eph) (step_up_challenge c binding) in
          (Ok {| rx_risk_challenge_id := c.(rk_risk_challenge_id); rx_required_methods := c.(rk_required_methods);
                 rx_operation_binding_hash := binding; rx_expires_at := expires;
                 rx_attempts_remaining := c.(rk_attempts_remaining) |},
           {| sv_db := db; sv_eph := eph |})
      end
  end.

Definition risk_verification (c : RiskChallenge) (challenge_id account_id factor_kind code request_id : rstr)
    (md : MfaDraws) (now : Z) : RiskChallengeVerification := {|
  vf_challenge_id := challenge_id; vf_account_id := account_id; vf_factor_kind := factor_kind; vf_factor_code := code;
  vf_success_audit := challenge_audit_entry (md.(md_audit_id) 0%nat) request_id c (str "risk_challenge_succeeded")
                        (str "success") None now;
  vf_failure_audit := challenge_audit_entry (md.(md_audit_id) 1%nat) request_id c (str "risk_challenge_failed")
                        (str "failure") (Some (str "invalid_expired_consumed_or_incorrect")) now;
  vf_recovery_code_audit :=
    if factor_kind =! str "recovery_code"
    then Some (challenge_audit_entry (md.(md_audit_id) 2%nat) request_id c (str "mfa_recovery_code_used")
                 (str "success") None now)
    else None;
  vf_now := now |}.

Definition verify_challenge_factor (seen : AccountDb) (st : Server) (challenge_id factor_kind code account_id request_id : rstr)
    (md : MfaDraws) (now : Z) : result MfaError RiskChallenge * Server :=
  match (c ← seen.(risk_challenges) !! challenge_id; if c.(rk_account_id) =! account_id then Some c else None) with
  | None => (Err MfaVerificationFailed, st)
  | Some c =>
      match verify_risk_challenge st.(sv_db) (risk_verification c challenge_id account_id factor_kind code request_id md
                                                now) with
      | (Err Conflict, db) => (Err MfaVerificationFailed, set_db st db)
      | (Err Unavailable, db) => (Err MfaInternal, set_db st db)
      | (Ok (VerifiedOutcome c), db) | (Ok (AlreadyVerified c), db) => (Ok c, set_db st db)
      | (Ok RejectedOutcome, db) => (Err MfaVerificationFailed, set_db st db)
      end
  end.

Definition route_verify_risk_challenge (cf : AppConfig) (seen : AccountDb) (st : Server) (challenge_id : rstr)
    (rq : VerifyRiskRequest) (headers : HeaderMap) (request_id : rstr) (md : MfaDraws) (auth_now now : Z)
    : result MfaError StepUpAnswer * Server :=
  match authenticate cf seen headers auth_now with
  | Err e => (Err (MfaRequest e), st)
  | Ok claims =>
      match verify_challenge_factor seen st challenge_id rq.(vq_factor) rq.(vq_code) claims.(acl_account_id) request_id
              md now with
      | (Err e, st) => (Err e, st)
      | (Ok c, st) =>
          (device_id ← ok_or c.(rk_device_id) MfaInternal;
           Ok {| sa_risk_challenge_id := challenge_id;
                 sa_step_up_token := sign_step_up_token {|
                   sc_account_id := c.(rk_account_id); sc_device_id := device_id; sc_challenge_id := challenge_id;
                   sc_purpose := c.(rk_purpose);
                   sc_operation_binding_hash := encode_hex c.(rk_operation_binding_hash);
                   sc_expires_at := c.(rk_expires_at); sc_token_type := str "step_up" |} cf.(cf_token_secret);
                 sa_expires_at := c.(rk_expires_at) |}, st)
      end
  end.

(** ** Operations behind a step-up *)

(** Requests without a body. *)
Definition bodiless (r : HttpRequest) : HttpRequest := {|
  hr_method := r.(hr_method); hr_target := r.(hr_target); hr_headers := r.(hr_headers); hr_body := [];
  hr_request_id := r.(hr_request_id) |}.

(** What the routes share: the token, the step-up, the action, and the copy of the
    challenge in the short-lived state, which a task of its own consumes. *)
Definition step_up_operation (cf : AppConfig) (seen : AccountDb) (st : Server) (r : HttpRequest) (purpose : rstr)
    (action : AccessClaims → StepUpExpectation → StepUpAction) (conflict : MfaError) (auth_now step_now : Z)
    : result MfaError StepUpExpectation * Server :=
  match (claims ← map_err MfaRequest (authenticate cf seen r.(hr_headers) auth_now);
         step_up ← map_err MfaRequest (validate_step_up_for_request cf claims (bodiless r) None purpose step_now);
         Ok (claims, step_up)) with
  | Err e => (Err e, st)
  | Ok (claims, step_up) =>
      match apply_step_up_action st.(sv_db) step_up (action claims step_up) with
      | (Err Conflict, db) => (Err conflict, set_db st db)
      | (Err Unavailable, db) => (Err MfaInternal, set_db st db)
      | (Ok _, db) => (Ok step_up, set_db st db)
      end
  end.

Definition step_up_entry (claims : AccessClaims) (x : StepUpExpectation) (action : rstr) (metadata : gmap rstr Value)
    (request_id : rstr) (md : MfaDraws) : AuditEntry :=
  account_audit_entry (md.(md_audit_id) 0%nat) claims.(acl_account_id) (Some x.(sx_device_id)) action
    (<[str "risk_challenge_id" := VString x.(sx_challenge_id)]> metadata) request_id x.(sx_now).

Definition route_rotate_recovery_codes (cf : AppConfig) (seen : AccountDb) (st : Server) (r : HttpRequest) (md : MfaDraws)
    (auth_now step_now : Z) : result MfaError (list rstr * StepUpExpectation) * Server :=
  let '(answer, st) := step_up_operation cf seen st r (str "recovery_code_rotate")
    (λ claims x, RotateRecoveryCodes (generate_recovery_codes claims.(acl_account_id) md).2
                   (step_up_entry claims x (str "mfa_recovery_codes_rotated") ∅ r.(hr_request_id) md))
    StepUpAlreadyConsumed auth_now step_now in
  (x ← answer; Ok ((generate_recovery_codes x.(sx_account_id) md).1, x), st).

Definition route_delete_mfa_factor (cf : AppConfig) (seen : AccountDb) (st : Server) (factor_id : rstr) (r : HttpRequest)
    (md : MfaDraws) (auth_now step_now : Z) : result MfaError StepUpExpectation * Server :=
  step_up_operation cf seen st r (str "mfa_factor_change")
    (λ claims x, DisableMfaFactor factor_id
                   (step_up_entry claims x (str "mfa_factor_disabled") {[str "factor_id" := VString factor_id]}
                      r.(hr_request_id) md))
    MfaFactorChanged auth_now step_now.

Definition route_list_trusted_devices (cf : AppConfig) (db : AccountDb) (headers : HeaderMap) (auth_now now : Z)
    : result MfaError (list TrustedDeviceView) :=
  claims ← map_err MfaRequest (authenticate cf db headers auth_now);
  Ok ((λ t, trusted_device_view t now) <$> list_trusted_devices_for_account db claims.(acl_account_id)).

Definition route_revoke_trusted_device (cf : AppConfig) (seen : AccountDb) (st : Server) (trusted_device_id : rstr)
    (r : HttpRequest) (md : MfaDraws) (auth_now step_now : Z) : result MfaError StepUpExpectation * Server :=
  step_up_operation cf seen st r (str "trusted_device_change")
    (λ claims x, RevokeTrustedDevice trusted_device_id
                   (step_up_entry claims x (str "trusted_device_revoked")
                      {[str "trusted_device_id" := VString trusted_device_id]} r.(hr_request_id) md))
    TrustedDeviceChanged auth_now step_now.
End routes.

(** ** The routes as runs of the operations *)

Section refinement.
Context `{P : Primitives} `{F : FactorCrypto} `{T : ApiText} `{A : AuthText} (recovery_codes_json : list rstr → bytes).
Context (cf : AppConfig) (late : bool).

(** A request to any of the modelled routes that change the server, or a step of the
    others. *)
Inductive service_step : Server → Server → Prop :=
| ss_api st st' : api_server_step cf late st st' → service_step st st'
| ss_totp_start seen st rq headers md auth_now now :
    service_step st (route_totp_start cf seen st rq headers md auth_now now).2
| ss_totp_finish seen st rq headers request_id md now later :
    service_step st (route_totp_finish recovery_codes_json cf seen st rq headers request_id md now later).2
| ss_create_risk seen st rq headers request_id md auth_now now :
    service_step st (route_create_risk_challenge cf seen st rq headers request_id md auth_now now).2
| ss_verify_risk seen st challenge_id rq headers request_id md auth_now now :
    service_step st (route_verify_risk_challenge cf seen st challenge_id rq headers request_id md auth_now now).2
| ss_rotate_codes seen st r md auth_now step_now :
    service_step st (route_rotate_recovery_codes cf seen st r md auth_now step_now).2
| ss_delete_factor seen st factor_id r md auth_now step_now :
    service_step st (route_delete_mfa_factor cf seen st factor_id r md auth_now step_now).2
| ss_revoke_trusted seen st trusted_device_id r md auth_now step_now :
    service_step st (route_revoke_trusted_device cf seen st trusted_device_id r md auth_now step_now).2.

Lemma totp_start_step seen st rq headers md auth_now now :
  (route_totp_start cf seen st rq headers md auth_now now).2.(sv_db) = st.(sv_db).
Proof.
  unfold route_totp_start. case_match; [|done]. destruct t as [claims key].
  by destruct (put_pending_totp_enrollment _ _ _).
Qed.

Lemma totp_finish_step seen st rq headers request_id md now later :
  rtc (moved late) st.(sv_db)
    (route_totp_finish recovery_codes_json cf seen st rq headers request_id md now later).2.(sv_db).
Proof.
  unfold route_totp_finish. case_match; [|done]. destruct t as [claims key_hash].
  destruct (negb _); [done|]. destruct (begin_pending_totp_enrollment_attempt _ _ _ _ _) as [[attempt|] eph]; [|done].
  destruct (verify_totp _ _ _ _) as [counter|]; [|by destruct (finish_pending_totp_enrollment_attempt _ _ _ _)].
  unfold totp_finish_accepted. destruct (generate_recovery_codes _ _) as [codes records].
  destruct (build_recovery_delivery _ _ _ _ _ _ _ _) as [d|]; [|done]. cbn [set_eph sv_db].
  set (c := totp_completion claims _ counter records d request_id md now).
  assert (Hf : op_fresh st.(sv_db) (DoFinishTotp c)) by (split; [by repeat constructor|exact I]).
  apply (op_moved late) in Hf; [|by right]. cbn [perform answer snd] in Hf.
  destruct (finish_totp_enrollment st.(sv_db) c) as [[[]|x] db'].
  - by destruct (finish_pending_totp_enrollment_attempt _ _ _ _).
  - by destruct (abort_pending_totp_enrollment_attempt _ _).
Qed.

Lemma create_risk_step seen st rq headers request_id md auth_now now :
  rtc (moved late) st.(sv_db) (route_create_risk_challenge cf seen st rq headers request_id md auth_now now).2.(sv_db).
Proof.
  unfold route_create_risk_challenge. case_match; [|done]. destruct t as [[claims binding] bytes].
  match goal with |- context [create_risk_challenge _ ?c ?e] =>
    assert (Hf : op_fresh st.(sv_db) (DoCreateRisk c e)) end.
  { split; [|exact I]. apply Forall_singleton. unfold clean. cbn [au_metadata account_audit_entry]. by other_key. }
  apply (op_moved late) in Hf; [|by right]. cbn [perform answer snd] in Hf.
  destruct (create_risk_challenge _ _ _) as [[[]|] db']; try exact Hf. by destruct (put_challenge _ _).
Qed.

Lemma verify_risk_step seen st challenge_id rq headers request_id md auth_now now :
  rtc (moved late) st.(sv_db)
    (route_verify_risk_challenge cf seen st challenge_id rq headers request_id md auth_now now).2.(sv_db).
Proof.
  unfold route_verify_risk_challenge. destruct (authenticate _ _ _ _) as [claims|]; [|done].
  unfold verify_challenge_factor. destruct (_ ≫= _) as [c|]; [|done].
  match goal with |- context [verify_risk_challenge _ ?v] =>
    assert (Hf : op_fresh st.(sv_db) (DoVerifyRisk v)) end.
  { split; [|exact I]. cbn [op_audits risk_verification vf_success_audit vf_failure_audit vf_recovery_code_audit].
    rewrite Forall_app, !Forall_cons. split_and!; try done. destruct (_ =! _); by repeat constructor. }
  apply (op_moved late) in Hf; [|by right]. cbn [perform answer snd] in Hf.
  destruct (verify_risk_challenge _ _) as [[[]|[]] db']; exact Hf.
Qed.

Lemma step_up_operation_step seen st r purpose action conflict auth_now step_now :
  (∀ claims x, clean (action_audit (action claims x))) →
  rtc (moved late) st.(sv_db) (step_up_operation cf seen st r purpose action conflict auth_now step_now).2.(sv_db).
Proof.
  intros Hc. unfold step_up_operation. case_match; [|done]. destruct t as [claims x].
  assert (Hf : op_fresh st.(sv_db) (DoStepUp x (action claims x))) by (split; [by apply Forall_singleton|exact I]).
  apply (op_moved late) in Hf; [|by right]. cbn [perform answer snd] in Hf.
  destruct (apply_step_up_action _ _ _) as [[[]|[]] db']; exact Hf.
Qed.

Lemma step_up_entry_clean claims x action metadata request_id md :
  metadata !! DEVICE_REGISTRATION_RESULT_METADATA_KEY = None → clean (step_up_entry claims x action metadata request_id md).
Proof. intros H. unfold clean, step_up_entry. cbn [au_metadata account_audit_entry]. by other_key. Qed.

Lemma service_step_refines st st' : service_step st st' → rtc (moved late) st.(sv_db) st'.(sv_db).
Proof.
  destruct 1.
  - by apply (api_server_steps cf late), rtc_once.
  - rewrite totp_start_step. reflexivity.
  - apply totp_finish_step.
  - apply create_risk_step.
  - apply verify_risk_step.
  - unfold route_rotate_recovery_codes. destruct (step_up_operation _ _ _ _ _ _ _ _ _) as [a st1] eqn:E.
    cbn [snd]. change st1 with (a, st1).2. rewrite <-E. apply step_up_operation_step. intros claims x.
    by apply step_up_entry_clean.
  - apply step_up_operation_step. intros claims x. apply step_up_entry_clean. by other_key.
  - apply step_up_operation_step. intros claims x. apply step_up_entry_clean. by other_key.
Qed.

(** C4: Whatever requests the server answered, in whatever order, with whatever
    failures and whatever a route had read before its transaction ran, the
    transactions of registration and of login each on their own, the database
    has run through the operations of the repository. So from an empty server
    the keys of devices are those in force, no session in use claims a second
    factor that its account does not have, and it has passed one whenever its
    account has one, unless an enrolment overtook a registration: got through
    between its two transactions, after which the first session of the account
    is issued without the factor (a finding). And a device out of whose hands
    its key was taken is out for good. *)
Theorem service_refines_operations st st' :
  rtc service_step st st' →
  rtc account_step st.(sv_db) st'.(sv_db)
  ∧ (st.(sv_db) = empty_accounts →
     (∀ id account now s, account_session_active st'.(sv_db) id account now = true →
        st'.(sv_db).(account_sessions) !! id = Some s →
        (s.(as_mfa_verified) = true → mfa_enabled st'.(sv_db) account = true)
        ∧ (late = false → s.(as_mfa_verified) = mfa_enabled st'.(sv_db) account))
     ∧ keys_match st'.(sv_db).(core).(db_devices) st'.(sv_db).(device_public_keys))
  ∧ (∀ id, stays_out id st.(sv_db).(core).(db_devices) → stays_out id st'.(sv_db).(core).(db_devices)).
Proof.
  intros H. assert (Hm : rtc (moved late) st.(sv_db) st'.(sv_db)).
  { induction H as [|st st1 st2 H1 _ IH]; [done|]. etrans; [by apply service_step_refines|done]. }
  pose proof (moved_steps _ _ _ Hm) as Hr. split_and!; [done|..].
  - intros He. rewrite He in Hm, Hr. split; [|apply (keys_match_steps _ _ Hr), keys_match_empty].
    intros id account now s Ha Hs. pose proof (live_session_factor late _ _ _ _ _ Hm Ha Hs) as Ht.
    unfold truthful in Ht. destruct late; [done|]. by rewrite Ht.
  - intros id. by apply stays_out_steps.
Qed.
End refinement.

(** ** Deliveries stay *)

Section deliveries.
Context `{P : Primitives} `{F : FactorCrypto} `{T : ApiText}.

Definition same_deliveries (db db' : AccountDb) : Prop := db'.(recovery_code_deliveries) = db.(recovery_code_deliveries).

Lemma try_factor_deliveries db account kind code now : same_deliveries db (try_factor db account kind code now).2.
Proof.
  unfold try_factor. destruct (_ =! str "totp").
  - destruct (btree_find _ _) as [[id f]|]; [|done]. by destruct (verify_totp _ _ _ _).
  - destruct (_ =! str "recovery_code"); [|done]. by destruct (btree_find _ _) as [[id r]|].
Qed.

Lemma verify_factor_deliveries db id account kind code now :
  same_deliveries db (verify_factor_in_database db id account kind code now).2.
Proof.
  unfold verify_factor_in_database. destruct (challenge_open _ _ _ _); [|done]. cbn [negb].
  pose proof (try_factor_deliveries db account kind code now) as Ht.
  destruct (try_factor db account kind code now) as [b db']. cbn in Ht.
  destruct id as [id|]; [|done]. by destruct (risk_challenges db' !! id).
Qed.

Lemma verify_risk_deliveries db v : same_deliveries db (verify_risk_challenge db v).2.
Proof.
  unfold verify_risk_challenge. destruct (accounts db !! _) as [ac|]; [|done].
  destruct (risk_challenges db !! _) as [c|]; [|done].
  destruct (_ || _ || _ || _); [done|]. destruct (_ && _ && _ && _); [done|]. destruct (_ || _ || _); [done|].
  destruct (_ || _ || _); [done|]. destruct (_ <=? _); [done|].
  assert (Hj : same_deliveries db (judge_challenge db v c ac.(ac_password_hash)).2).
  { unfold judge_challenge. destruct (_ || _); [done|]. apply verify_factor_deliveries. }
  destruct (judge_challenge _ _ _ _) as [[b|] db']; [|done]. cbn in Hj.
  destruct (risk_challenges db' !! _); [|done]. destruct b; [|exact Hj]. destruct (_ =! _); [|exact Hj].
  by destruct (vf_recovery_code_audit v).
Qed.

Lemma perform_action_deliveries db x a db' : perform_action db x a = Ok db' → same_deliveries db db'.
Proof.
  destruct a; cbn; intros H.
  - by injection H as <-.
  - apply advance_ok in H as (ac & _ & ->). by destruct (btree_find _ _).
  - by invert_ok.
  - by invert_ok.
Qed.

Lemma step_up_deliveries db x a : same_deliveries db (apply_step_up_action db x a).2.
Proof.
  unfold apply_step_up_action. destruct (apply_step_up_action_in_database db x a) as [db'|] eqn:E; [|done].
  apply step_up_ok in E as (_ & m & db1 & es & _ & Hp & ->). apply perform_action_deliveries in Hp.
  unfold after_action. by destruct (revoked_reason a).
Qed.

Lemma login_trust_deliveries db c : same_deliveries db (stage_db (login_trust db c)).
Proof.
  unfold login_trust. destruct (mfa_enabled _ _); [|by destruct (negb _)].
  destruct (fc_trusted_device_id_to_use c) as [id|]; [|done].
  destruct (trusted_controller_devices db !! id) as [t|]; [|done]. by destruct (trust_usable c t).
Qed.

Lemma login_factor_deliveries db c : same_deliveries db (stage_db (login_factor db c)).
Proof.
  unfold login_factor. destruct (_ =! []).
  - destruct (_ || _); [done|]. pose proof (login_trust_deliveries db c) as Ht.
    destruct (login_trust db c) as [r db'|db']; [done|]. cbn [stage_db] in Ht. by destruct (risk_challenges db' !! _).
  - destruct (_ || _); [done|]. destruct (fc_factor_kind c) as [kind|], (fc_factor_code c) as [code|]; try done.
    destruct (negb _); [done|].
    pose proof (verify_factor_deliveries db (Some (fc_challenge_id c)) (fc_account_id c) kind code (fc_now c)) as Hv.
    by destruct (verify_factor_in_database _ _ _ _ _ _) as [[[] |] db0].
Qed.

Lemma complete_login_deliveries original db c :
  same_deliveries original db → same_deliveries original (complete_login original db c).2.
Proof.
  intros H. unfold complete_login. destruct (_ || _ || _ || _); [done|].
  destruct (add_grant db c ≫= _) as [db1|] eqn:E; [|done]. apply bind_Some in E as (db0 & Eg & Et).
  assert (H0 : same_deliveries db db0).
  { unfold add_grant in Eg. destruct (fc_enrollment_grant c); [|by injection Eg as <-]. case_match; [done|].
    by injection Eg as <-. }
  assert (H1 : same_deliveries db0 db1).
  { unfold add_trust in Et. destruct (fc_trusted_device_to_create c); [|by injection Et as <-].
    destruct (_ || _ || _ || _ || _ || _); [done|]. apply bind_Some in Et as (added & _ & Et).
    destruct (existsb _ _); [done|]. by injection Et as <-. }
  destruct (risk_challenges db1 !! _) as [ch|]; [|done]. unfold same_deliveries in *. cbn. congruence.
Qed.

Lemma finish_login_deliveries db c : same_deliveries db (finish_login db c).2.
Proof.
  pose proof (login_factor_deliveries db c) as Hl. unfold finish_login.
  destruct (negb (validate_login_finish_command_shape c)); [done|].
  destruct (risk_challenges db !! _) as [ch|]; [|done]. destruct (login_challenge_contexts db !! _) as [x|]; [|done].
  destruct (_ || _ || _ || _ || _ || _); [done|]. destruct (has_audit _ _); [done|].
  destruct ((_ =! _) && _); [done|]. destruct ((rk_status ch ≠! RIssued) || _); [done|].
  destruct (negb (validate_login_finish_artifacts c ch) || _); [done|].
  destruct (negb (account_unchanged _ _ _)); [done|]. destruct (negb (login_device_valid db c)); [done|].
  destruct (login_factor db c) as [r db'|db']; [done|]. by apply complete_login_deliveries.
Qed.

(** The operations on devices leave them alone, and so do the others but one. *)
Lemma perform_deliveries db o :
  same_deliveries db (perform db o).2
  ∨ ∃ c, finish_totp_enrollment_in db c = Ok (perform db o).2.
Proof.
  destruct o as [a|s|h s e now|id a now e|id a k code now|ch e|id e|v|x|x a|c|a e|id h now e|c|c|r|c]; cbn [perform answer snd].
  - left. unfold insert_account. by case_match.
  - left. unfold insert_account_session. by case_match.
  - left. unfold rotate_refresh_session. destruct (_ || _ || _ || _ || _ || _ || _); [done|].
    destruct (btree_find _ _) as [[id old]|]; [|done]. by case_match.
  - left. unfold revoke_account_session. by repeat (case_match; try done).
  - left. apply verify_factor_deliveries.
  - left. unfold create_risk_challenge. by repeat (case_match; try done).
  - left. unfold cancel_risk_challenge. by repeat (case_match; try done).
  - left. apply verify_risk_deliveries.
  - left. unfold consume_step_up_in_database. by repeat (case_match; try done).
  - left. apply step_up_deliveries.
  - unfold finish_totp_enrollment. destruct (finish_totp_enrollment_in db c) eqn:E; [right; by exists c|by left].
  - left. unfold create_login_challenge. by repeat (case_match; try done).
  - left. unfold reject_login_challenge. by repeat (case_match; try done).
  - left. apply finish_login_deliveries.
  - left. unfold register_device. destruct (device_enrollment_grants db !! _) as [g|]; [|done].
    destruct (validate_device_registration_authority db c g); [|done]. destruct (negb _); [done|].
    destruct (negb _); [done|]. destruct (_ || _ || _); [done|].
    destruct (first_registration db c g) as [db'|] eqn:E; [|done].
    by apply first_registration_ok in E as (_ & _ & trusted & trusts & es & _ & ->).
  - left. unfold rotate_device_key. destruct (apply_device_key_rotation db r) as [[ch db1]|] eqn:E; [|done].
    apply apply_rotation_ok in E as (current & consumed & epochs & source & ss & es & closing & rest & _ & _ & _ & _
      & Hcon & _ & _ & _ & ->). apply consume_ok in Hcon as [m ->]. done.
  - left. destruct (manage_device db c) as [res db'] eqn:E. cbn [snd]. destruct res as [[ch| |]|].
    { apply manage_device_updated in E as (target & _ & _ & _ & H).
      apply apply_management_ok in H as (sessions & events & audits & _ & _ & _ & _ & ->). unfold managed_tables.
      by destruct (tightening _), (default _ _), (dv_public_key_revoked_at _). }
    all: pose proof (manage_device_other db c) as Hsame; rewrite E in Hsame; cbn in Hsame; by rewrite Hsame.
Qed.
End deliveries.

(** ** Recovery codes reach the client *)

Section delivery.
Context `{P : Primitives} `{F : FactorCrypto} `{T : ApiText} (recovery_codes_json : list rstr → bytes).
Context (cf : AppConfig).

(** What a client does with an answer, given the secret of the key it sent: as the
    tests of the server and the clients do. *)
Definition open_delivery (client_secret : bytes) (claims : AccessClaims) (factor_id idempotency_key : rstr)
    (a : RecoveryDeliveryResponse) : option bytes :=
  server_key ← b64url_decode a.(dr_server_ephemeral_public_key);
  nonce ← b64url_decode a.(dr_nonce);
  ciphertext ← b64url_decode a.(dr_ciphertext);
  let salt := delivery_salt claims.(acl_account_id) claims.(acl_account_session_id) factor_id a.(dr_delivery_id)
                (sha256 idempotency_key) in
  let info := delivery_info claims.(acl_account_id) claims.(acl_account_session_id) factor_id a.(dr_delivery_id)
                (x25519_public client_secret) server_key a.(dr_created_at) a.(dr_expires_at) in
  key ← hkdf_sha256 salt (x25519_shared client_secret server_key) info 32;
  chacha_decrypt key nonce info ciphertext.

Lemma delivery_opens `{!PrimitiveLaws P} `{!ApiTextLaws T} secret claims e codes idempotency_key binding md now d :
  build_recovery_delivery recovery_codes_json claims e codes (sha256 idempotency_key) binding md now = Ok d →
  e.(te_recovery_delivery_public_key) = x25519_public secret →
  open_delivery secret claims e.(te_factor_id) idempotency_key (recovery_delivery_response d)
  = canonical_json_bytes_from_slice (recovery_codes_json codes).
Proof.
  unfold build_recovery_delivery. intros H Hk. apply bind_ok in H as ([] & _ & H). apply bind_ok in H as (key & Hkey & H).
  apply bind_ok in H as (plaintext & Hp & H). apply bind_ok in H as (ciphertext & Hc & H). apply bind_ok in H as ([] & _ & H).
  injection H as <-. apply ok_or_ok in Hkey, Hp, Hc. unfold open_delivery, recovery_delivery_response. cbn.
  rewrite !b64url_text_round. cbn. rewrite Hk in Hkey, Hc. rewrite x25519_agree, Hkey. cbn.
  rewrite Hp. by apply chacha_open.
Qed.

(** While a session is in use, no answer is a repeated one. *)
Lemma live_not_replayed db claims factor_id key_hash bound now t d :
  account_session_active db claims.(acl_account_session_id) claims.(acl_account_id) t = true →
  replay_totp_delivery db (replay_lookup claims factor_id key_hash bound now) ≠ Ok d.
Proof.
  unfold replay_totp_delivery, replay_totp_enrollment, account_session_active, active_account_session. intros Ha H.
  destruct (btree_find _ _) as [[id x]|]; [|done]. cbn [replay_lookup lk_account_session_id] in H.
  destruct (_ || _ || _ || _) eqn:Hb; [done|]. split_bools. destruct (negb _); [done|].
  match goal with E : dl_account_session_id x = _ |- _ => rewrite E in H end.
  destruct (account_sessions db !! _) as [s|]; [|done]. split_bools.
  destruct (_ || _ || _ || _) eqn:Hc in H; [done|]. split_bools. congruence.
Qed.

(** What an answer that is not a repeated one went through. *)
Record totp_finished (st : Server) (claims : AccessClaims) (rq : TotpFinishRequest) (idempotency_key request_id : rstr)
    (md : MfaDraws) (now : Z) (record : MemoryPendingTotpEnrollment) (counter : Z) (d : RecoveryCodeDelivery) (db : AccountDb)
    : Prop := {
  tfd_pending : st.(sv_eph).(pending_totp_enrollments) !! claims.(acl_account_id) = Some record;
  tfd_factor : record.(mp_enrollment).(te_factor_id) = rq.(tf_factor_id);
  tfd_code : verify_totp record.(mp_enrollment).(te_secret_base32) rq.(tf_code) now None = Some counter;
  tfd_delivery : build_recovery_delivery recovery_codes_json claims record.(mp_enrollment)
    (generate_recovery_codes claims.(acl_account_id) md).1 (sha256 idempotency_key)
    (totp_enrollment_finish_binding_hash claims.(acl_account_id) claims.(acl_account_session_id) rq.(tf_factor_id)
       (sha256 idempotency_key) record.(mp_enrollment).(te_recovery_delivery_public_key)) md now = Ok d;
  tfd_stored : finish_totp_enrollment_in st.(sv_db) (totp_completion claims record.(mp_enrollment) counter
    (generate_recovery_codes claims.(acl_account_id) md).2 d request_id md now) = Ok db }.

Lemma totp_finish_ok seen st rq headers request_id md now later a st' token claims :
  bearer headers = Ok token → verify_access_token token cf.(cf_token_secret) now = Some claims →
  account_session_active st.(sv_db) claims.(acl_account_session_id) claims.(acl_account_id) now = true →
  route_totp_finish recovery_codes_json cf seen st rq headers request_id md now later = (Ok a, st') →
  ∃ key record counter d, required_idempotency_key headers = Ok key
    ∧ totp_finished st claims rq key request_id md now record counter d st'.(sv_db)
    ∧ a = recovery_delivery_response d.
Proof.
  intros Hb Hv Ha H. unfold route_totp_finish in H. rewrite Hb in H. cbn [map_err mbind result_bind] in H.
  rewrite Hv in H. cbn [ok_or mbind result_bind] in H.
  destruct (required_idempotency_key headers) as [key|]; [|done]. cbn [mbind result_bind] in H.
  destruct (account_session_active seen _ _ _); cbn [negb] in H;
    [|by injection H as H _; destruct (live_not_replayed _ _ _ _ _ _ _ _ Ha H)].
  destruct (begin_pending_totp_enrollment_attempt _ _ _ _ _) as [[attempt|] eph] eqn:Hbegin.
  2:{ injection H as H _. destruct (negb _) in H; [|done]. by destruct (live_not_replayed _ _ _ _ _ _ _ _ Ha H). }
  unfold begin_pending_totp_enrollment_attempt in Hbegin.
  destruct (pending_totp_enrollments _ !! _) as [record|] eqn:Hp; [|done].
  destruct (_ ≠! _) eqn:Hf in Hbegin; [done|]. destruct (_ || _) in Hbegin; [done|]. destruct (lease_active _ _); [done|].
  injection Hbegin as <- _. cbn [ta_enrollment] in H. split_bools.
  destruct (verify_totp _ _ _ _) as [counter|] eqn:Hc; [|by destruct (finish_pending_totp_enrollment_attempt _ _ _ _)].
  unfold totp_finish_accepted in H. cbn [ta_enrollment set_eph sv_db sv_eph] in H.
  destruct (generate_recovery_codes _ _) as [codes records] eqn:Hg.
  destruct (build_recovery_delivery _ _ _ _ _ _ _ _) as [d|] eqn:Hd; [|done].
  unfold finish_totp_enrollment in H. destruct (finish_totp_enrollment_in _ _) as [db|x] eqn:Hfin.
  - destruct (finish_pending_totp_enrollment_attempt _ _ _ _) as [finished eph']. injection H as <- <-.
    exists key, record, counter, d. split; [done|]. split; [|done]. split; rewrite ?Hg; done.
  - destruct (abort_pending_totp_enrollment_attempt _ _) as [? eph']. destruct x; [|done]. injection H as H _.
    by destruct (live_not_replayed _ _ _ _ _ _ _ _ Ha H).
Qed.

(** The new codes are in the table. *)
Lemma codes_fresh_ids ids hashes db a now records :
  codes_fresh ids hashes db a now records = true →
  NoDup (rv_recovery_code_id <$> records) ∧ ∀ r, r ∈ records → r.(rv_recovery_code_id) ∉ ids.
Proof.
  revert ids hashes. induction records as [|r records IH]; intros ids hashes H.
  - split; [constructor|]. intros r Hr. by apply not_elem_of_nil in Hr.
  - cbn [codes_fresh] in H. apply andb_true_iff in H as [H1 H2]. apply IH in H2 as [Hn Hr].
    apply negb_true_iff in H1. split_bools. split.
    + cbn. constructor; [|done]. intros Hin. apply list_elem_of_fmap in Hin as (r' & Heq & Hr'). apply Hr in Hr'.
      set_solver.
    + intros r' Hr'. apply elem_of_cons in Hr' as [->|Hr']; [done|]. apply Hr in Hr'. set_solver.
Qed.

Lemma foldl_insert_codes (records : list RecoveryCode) (m : gmap rstr RecoveryCode) :
  (∀ id, id ∉ (rv_recovery_code_id <$> records) → foldl (λ m r, <[r.(rv_recovery_code_id) := r]> m) m records !! id = m !! id)
  ∧ (NoDup (rv_recovery_code_id <$> records) → ∀ r, r ∈ records →
     foldl (λ m r, <[r.(rv_recovery_code_id) := r]> m) m records !! r.(rv_recovery_code_id) = Some r).
Proof.
  revert m. induction records as [|r records IH]; intros m; cbn.
  - split; [done|]. intros _ r Hr. by apply not_elem_of_nil in Hr.
  - destruct (IH (<[r.(rv_recovery_code_id) := r]> m)) as [H1 H2]. split.
    + intros id Hid. rewrite not_elem_of_cons in Hid. destruct Hid as [Hne Hid]. rewrite H1 by done.
      by rewrite lookup_insert_ne.
    + intros Hn x Hx. apply NoDup_cons in Hn as [Hr Hn]. apply elem_of_cons in Hx as [->|Hx]; [|by apply H2].
      rewrite H1 by done. by rewrite lookup_insert_eq.
Qed.

(** The tables of an enrolment. *)
Lemma enrollment_tables db c db' :
  finish_totp_enrollment_in db c = Ok db' →
  db'.(mfa_factors) = <[c.(cp_factor).(mf_factor_id) := c.(cp_factor)]> db.(mfa_factors)
  ∧ (∀ r, r ∈ c.(cp_recovery_codes) → db'.(recovery_codes) !! r.(rv_recovery_code_id) = Some r)
  ∧ db'.(recovery_code_deliveries) = <[c.(cp_delivery).(dl_delivery_id) := c.(cp_delivery)]> db.(recovery_code_deliveries)
  ∧ delivery_valid db c = true
  ∧ db'.(account_sessions) = (λ s, if (s.(as_account_id) =! c.(cp_factor).(mf_account_id)) && bool_decide (s.(as_revoked_at) = None)
                                   then revoke_session s c.(cp_audit).(au_created_at) (str "mfa_enabled") else s)
                             <$> db.(account_sessions).
Proof.
  unfold finish_totp_enrollment_in. intros E. apply bind_ok in E as ([] & _ & E). apply bind_ok in E as ([] & Hf & E).
  apply ensure_ok in Hf. apply bind_ok in E as ([] & Hd & E). apply ensure_ok in Hd.
  apply bind_ok in E as (db1 & Ha & E). apply bind_ok in E as ([] & _ & E). injection E as <-.
  unfold advance_account_security_epoch in Ha. apply bind_ok in Ha as (ac & _ & Ha). injection Ha as <-.
  apply codes_fresh_ids in Hf as [Hn _]. split_and!; try done. cbn. intros r Hr. by apply foldl_insert_codes.
Qed.

Lemma generated_codes account_id md code :
  code ∈ (generate_recovery_codes account_id md).1 →
  ∃ r, r ∈ (generate_recovery_codes account_id md).2 ∧ r.(rv_account_id) = account_id ∧ r.(rv_code_hash) = sha256 code
    ∧ r.(rv_used_at) = None ∧ r.(rv_expires_at) = None.
Proof.
  cbn [generate_recovery_codes fst snd]. intros H. apply list_elem_of_fmap in H as (n & -> & Hn). eexists. split_and!.
  - apply list_elem_of_fmap. by exists n.
  - done.
  - done.
  - done.
  - done.
Qed.

Lemma recovery_code_accepted db a code r now :
  db.(recovery_codes) !! r.(rv_recovery_code_id) = Some r → r.(rv_account_id) = a → r.(rv_code_hash) = sha256 code →
  r.(rv_used_at) = None → r.(rv_expires_at) = None → (try_factor db a (str "recovery_code") code now).1 = true.
Proof.
  intros Hr Ha Hh Hu He. unfold try_factor. rewrite bool_decide_false by discriminate. rewrite bool_decide_true by done.
  destruct (btree_find _ _) as [[id x]|] eqn:E; [done|].
  apply (proj1 (btree_find_none _ _)) with (k := r.(rv_recovery_code_id)) (v := r) in E; [|done].
  rewrite He, Hu, !bool_decide_true in E by done. done.
Qed.

(** C11: Enrolling a second factor hands over usable recovery codes: when the
    route answers while the session is in use, the code was right for the
    pending secret, the factor is active, whoever holds the secret of the key
    that began the enrolment reads from the answer the canonical JSON text of
    the eight new codes, and each of them is accepted in place of the factor at
    any later time. *)
Theorem recovery_codes_delivered `{!PrimitiveLaws P} `{!ApiTextLaws T} seen st rq headers request_id md now later a st'
    token claims :
  bearer headers = Ok token → verify_access_token token cf.(cf_token_secret) now = Some claims →
  account_session_active st.(sv_db) claims.(acl_account_session_id) claims.(acl_account_id) now = true →
  route_totp_finish recovery_codes_json cf seen st rq headers request_id md now later = (Ok a, st') →
  ∃ key record counter f,
    required_idempotency_key headers = Ok key
    ∧ st.(sv_eph).(pending_totp_enrollments) !! claims.(acl_account_id) = Some record
    ∧ verify_totp record.(mp_enrollment).(te_secret_base32) rq.(tf_code) now None = Some counter
    ∧ st'.(sv_db).(mfa_factors) !! rq.(tf_factor_id) = Some f ∧ f.(mf_active) = true
    ∧ f.(mf_account_id) = claims.(acl_account_id)
    ∧ f.(mf_secret_base32) = record.(mp_enrollment).(te_secret_base32) ∧ f.(mf_last_used_counter) = Some counter
    ∧ (∀ secret, record.(mp_enrollment).(te_recovery_delivery_public_key) = x25519_public secret →
         open_delivery secret claims rq.(tf_factor_id) key a
         = canonical_json_bytes_from_slice
             (recovery_codes_json (generate_recovery_codes claims.(acl_account_id) md).1))
    ∧ ∀ code t, code ∈ (generate_recovery_codes claims.(acl_account_id) md).1 →
        (try_factor st'.(sv_db) claims.(acl_account_id) (str "recovery_code") code t).1 = true.
Proof.
  intros Hb Hv Ha H. destruct (totp_finish_ok _ _ _ _ _ _ _ _ _ _ _ _ Hb Hv Ha H)
    as (key & record & counter & d & Hkey & [Hp Hf Hc Hd Hs] & ->).
  apply enrollment_tables in Hs as (Hfac & Hcodes & _ & _ & _). cbn [totp_completion cp_factor cp_recovery_codes] in Hfac, Hcodes.
  eexists key, record, counter, _. split_and!; try done.
  - rewrite Hfac. cbn [mf_factor_id]. rewrite Hf. by rewrite lookup_insert_eq.
  - done.
  - done.
  - done.
  - done.
  - intros secret Hsec. rewrite <-Hf. by eapply delivery_opens.
  - intros code t Hin. apply generated_codes in Hin as (r & Hr & H1 & H2 & H3 & H4).
    eapply recovery_code_accepted; eauto.
Qed.

Lemma access_token_before token secret now now2 claims :
  verify_access_token token secret now = Some claims → now2 < claims.(acl_expires_at) →
  verify_access_token token secret now2 = Some claims.
Proof.
  unfold verify_access_token. intros H Hn. apply bind_Some in H as (bs & -> & H). apply bind_Some in H as (c & Hc & H).
  cbn. rewrite Hc. cbn. destruct (_ || _) eqn:E; [done|]. injection H as ->. apply orb_false_iff in E as [-> _].
  apply Z.leb_gt in Hn. by rewrite Hn.
Qed.

(** A delivery is the only one of its account and key. *)
Definition only_delivery (db : AccountDb) (d : RecoveryCodeDelivery) : Prop :=
  db.(recovery_code_deliveries) !! d.(dl_delivery_id) = Some d
  ∧ ∀ id x, db.(recovery_code_deliveries) !! id = Some x → x.(dl_account_id) = d.(dl_account_id) →
      x.(dl_idempotency_key_hash) = d.(dl_idempotency_key_hash) → x = d.

Lemma delivery_new db c :
  delivery_valid db c = true →
  db.(recovery_code_deliveries) !! c.(cp_delivery).(dl_delivery_id) = None
  ∧ ∀ id x, db.(recovery_code_deliveries) !! id = Some x → x.(dl_account_id) = c.(cp_delivery).(dl_account_id) →
      x.(dl_idempotency_key_hash) ≠ c.(cp_delivery).(dl_idempotency_key_hash).
Proof.
  unfold delivery_valid. intros H. apply negb_true_iff in H. apply orb_false_iff in H as [H Hfind].
  apply orb_false_iff in H as [_ Hid]. apply bool_decide_eq_false in Hid, Hfind. apply eq_None_not_Some in Hid, Hfind.
  split; [done|]. intros id x Hx Ha Hk. apply (proj1 (btree_find_none _ _)) with (k := id) (v := x) in Hfind; [|done].
  by rewrite Ha, Hk, !bool_decide_true in Hfind.
Qed.

Lemma only_delivery_stored db c db' :
  finish_totp_enrollment_in db c = Ok db' → only_delivery db' c.(cp_delivery).
Proof.
  intros H. apply enrollment_tables in H as (_ & _ & Hd & Hv & _). apply delivery_new in Hv as [_ Hu].
  unfold only_delivery. rewrite Hd. split; [by rewrite lookup_insert_eq|]. intros id x Hx Ha Hk.
  apply lookup_insert_Some in Hx as [[_ <-]|[_ Hx]]; [done|]. by destruct (Hu _ _ Hx Ha).
Qed.

Lemma only_delivery_kept (db db' : AccountDb) d : rtc account_step db db' → only_delivery db d → only_delivery db' d.
Proof.
  induction 1 as [|db1 db2 db3 H12 _ IH]; [done|]. intros H. apply IH. destruct H12 as [o Ho|c es]; [|done].
  destruct (perform_deliveries db1 o) as [E|[c Hc]]; unfold only_delivery; [by rewrite E|].
  apply enrollment_tables in Hc as (_ & _ & -> & Hv & _). apply delivery_new in Hv as [Hn Hu]. destruct H as [Hd Huniq].
  split; [by apply lookup_insert_Some; right; split; [congruence|]|]. intros id x Hx Ha Hk.
  apply lookup_insert_Some in Hx as [[_ <-]|[_ Hx]]; [|by eapply Huniq]. by destruct (Hu _ _ Hd (eq_sym Ha)).
Qed.

Lemma delivery_replayed db claims e factor_id key_hash md now d s now2 codes :
  build_recovery_delivery recovery_codes_json claims e codes key_hash
    (totp_enrollment_finish_binding_hash claims.(acl_account_id) claims.(acl_account_session_id) factor_id
       key_hash e.(te_recovery_delivery_public_key)) md now = Ok d →
  e.(te_factor_id) = factor_id → only_delivery db d →
  db.(account_sessions) !! claims.(acl_account_session_id) = Some s → s.(as_account_id) = claims.(acl_account_id) →
  s.(as_revoked_at) = Some now → s.(as_revoked_reason) = Some (str "mfa_enabled") →
  now2 < claims.(acl_expires_at) → now2 < d.(dl_expires_at) →
  replay_totp_delivery db (replay_lookup claims factor_id key_hash None now2) = Ok (recovery_delivery_response d).
Proof.
  unfold build_recovery_delivery. intros H Hf [Hd Hu] Es Ea Er Ereason He Hx.
  apply bind_ok in H as ([] & _ & H). apply bind_ok in H as (key & _ & H).
  apply bind_ok in H as (plaintext & _ & H). apply bind_ok in H as (ciphertext & _ & H). apply bind_ok in H as ([] & _ & H).
  injection H as Hrec. unfold replay_totp_delivery, replay_totp_enrollment.
  destruct (btree_find _ _) as [[id x]|] eqn:Efind.
  2:{ apply (proj1 (btree_find_none _ _)) with (k := d.(dl_delivery_id)) (v := d) in Efind; [|done].
      subst d. cbn in Efind. by rewrite !bool_decide_true in Efind. }
  apply btree_find_some in Efind as [Hid Hp]. split_bools.
  assert (x = d) as -> by (apply (Hu _ _ Hid); subst d; done). clear Hid.
  assert (Hb : recovery_delivery_binding_is_valid d = true).
  { subst d. unfold recovery_delivery_binding_is_valid. cbn. rewrite Hf. by apply bool_decide_true. }
  rewrite Hb. subst d. cbn -[recovery_delivery_response]. rewrite Es, Ea, Er, Ereason, Hf.
  cbn in Hx. apply Z.leb_gt in He, Hx. rewrite He, Hx. rewrite !(bool_decide_true (_ = _)) by done.
  reflexivity.
Qed.

(** C12: The answer of an enrolment can be had again: although the enrolment
    ended the session, the same request, with the same token before it expires
    and the same idempotency key, gets the same answer whatever happened in
    between, until the delivery expires, and changes nothing. *)
Theorem enrollment_answer_repeated seen st rq headers request_id md now later a st' token claims db2 :
  bearer headers = Ok token → verify_access_token token cf.(cf_token_secret) now = Some claims →
  account_session_active st.(sv_db) claims.(acl_account_session_id) claims.(acl_account_id) now = true →
  route_totp_finish recovery_codes_json cf seen st rq headers request_id md now later = (Ok a, st') →
  rtc account_step st'.(sv_db) db2 →
  ∀ eph request_id2 md2 now2 later2,
    now2 < claims.(acl_expires_at) → now2 < a.(dr_expires_at) →
    route_totp_finish recovery_codes_json cf db2 {| sv_db := db2; sv_eph := eph |} rq headers request_id2 md2 now2 later2
    = (Ok a, {| sv_db := db2; sv_eph := eph |}).
Proof.
  intros Hb Hv Ha H Hrun eph request_id2 md2 now2 later2 He Hx.
  destruct (totp_finish_ok _ _ _ _ _ _ _ _ _ _ _ _ Hb Hv Ha H)
    as (key & record & counter & d & Hkey & [Hp Hf Hc Hd Hs] & ->).
  pose proof (only_delivery_kept _ _ _ Hrun (only_delivery_stored _ _ _ Hs)) as [Hdel Huniq]. cbn [totp_completion cp_delivery] in Hdel, Huniq.
  apply enrollment_tables in Hs as (_ & _ & _ & _ & Hsess). cbn in Hsess.
  assert (Hdead : ∃ s, db2.(account_sessions) !! claims.(acl_account_session_id) = Some s
            ∧ s.(as_account_id) = claims.(acl_account_id) ∧ s.(as_revoked_at) = Some now
            ∧ s.(as_revoked_reason) = Some (str "mfa_enabled")).
  { unfold account_session_active, active_account_session in Ha.
    destruct (account_sessions st.(sv_db) !! _) as [s|] eqn:Es; [|done]. split_bools.
    pose proof (steps_sessions_kept _ _ Hrun claims.(acl_account_session_id)) as Hk. rewrite Hsess, lookup_fmap, Es in Hk.
    cbn in Hk. rewrite !bool_decide_true in Hk by done. cbn in Hk.
    destruct (Hk _ eq_refl) as (s' & Hs' & [->|[Hno _]]); [|done]. by eexists. }
  destruct Hdead as (s & Es & Eacc & Erev & Ereason).
  unfold route_totp_finish. rewrite Hb. cbn [map_err mbind result_bind].
  assert (Hv2 : verify_access_token token cf.(cf_token_secret) now2 = Some claims) by by eapply access_token_before.
  rewrite Hv2. cbn [ok_or mbind result_bind]. rewrite Hkey. cbn [mbind result_bind].
  assert (Hoff : account_session_active db2 claims.(acl_account_session_id) claims.(acl_account_id) now2 = false).
  { unfold account_session_active, active_account_session. rewrite Es, Erev. apply andb_false_iff. left.
    apply andb_false_iff. right. by apply bool_decide_eq_false_2. }
  rewrite Hoff. cbn [negb sv_db]. f_equal.
  apply (delivery_replayed _ _ record.(mp_enrollment) _ _ md now d s _ (generate_recovery_codes claims.(acl_account_id) md).1); try done.
Qed.
End delivery.

(** ** Examples

    The account of the device that [ex_first] registered enrols a second factor. *)

Section examples.
#[local] Existing Instance toy.
#[local] Existing Instance toy_factors.
#[local] Existing Instance toy_text.
#[local] Existing Instance toy_auth.

Definition ex_mfa_token : rstr := sign_access_token (ex_claims "session-2") (str "secret").
Definition ex_mfa_headers : HeaderMap :=
  {[str "authorization" := str "Bearer " ++ ex_mfa_token; str "idempotency-key" := str "key-1"]}.

Definition ex_mfa_draws : MfaDraws := {|
  md_factor_id := str "factor-1"; md_secret_base32 := str "SECRET"; md_lease_token := str "lease-1";
  md_challenge_id := str "risk-1"; md_delivery_id := str "delivery-1"; md_server_secret := be_bytes 32 3;
  md_nonce_source := be_bytes 32 9; md_code_bytes n := repeat (byte_of (Z.of_nat n)) 12;
  md_code_id n := str "code-" ++ be_bytes 1 (48 + Z.of_nat n);
  md_audit_id n := str "m-audit" ++ be_bytes 1 (48 + Z.of_nat n) |}.

Definition ex_client_secret : bytes := be_bytes 32 5.

Definition ex_codes_json (codes : list rstr) : bytes := List.concat codes.

Definition ex_enrolling : Server :=
  (route_totp_start ex_config DeviceRuns.ex_registered (ex_server DeviceRuns.ex_registered)
     {| ts_recovery_delivery_public_key := encode_hex (x25519_public ex_client_secret) |} ex_mfa_headers ex_mfa_draws 40000 40000).2.

Definition ex_totp_finish : TotpFinishRequest := {| tf_factor_id := str "factor-1"; tf_code := str "000000" |}.

Definition ex_enrolled : result MfaError RecoveryDeliveryResponse * Server :=
  route_totp_finish ex_codes_json ex_config ex_enrolling.(sv_db) ex_enrolling ex_totp_finish ex_mfa_headers
    (str "request-30") ex_mfa_draws 50000 50000.

Lemma ex_enrolled_ok : ∃ a st, ex_enrolled = (Ok a, st) ∧ 60000 < a.(dr_expires_at).
Proof.
  assert (H : match ex_enrolled.1 with Ok a => 60000 <? a.(dr_expires_at) | Err _ => false end = true)
    by (vm_compute; reflexivity).
  destruct ex_enrolled as [[a|e] st]; [|discriminate]. exists a, st. split; [reflexivity|]. by apply Z.ltb_lt.
Qed.

Lemma ex_mfa_bearer : bearer ex_mfa_headers = Ok ex_mfa_token.
Proof. vm_compute. reflexivity. Qed.

Lemma ex_mfa_verified : verify_access_token ex_mfa_token ex_config.(cf_token_secret) 50000 = Some (ex_claims "session-2").
Proof. vm_compute. reflexivity. Qed.

Lemma ex_enrolling_active :
  account_session_active ex_enrolling.(sv_db) (ex_claims "session-2").(acl_account_session_id)
    (ex_claims "session-2").(acl_account_id) 50000 = true.
Proof. vm_compute. reflexivity. Qed.

(** The key that began the enrolment. *)
Lemma ex_enrolling_key record :
  ex_enrolling.(sv_eph).(pending_totp_enrollments) !! (ex_claims "session-2").(acl_account_id) = Some record →
  record.(mp_enrollment).(te_recovery_delivery_public_key) = x25519_public ex_client_secret.
Proof.
  assert (H : (te_recovery_delivery_public_key ∘ mp_enrollment) <$>
     ex_enrolling.(sv_eph).(pending_totp_enrollments) !! (ex_claims "session-2").(acl_account_id)
     = Some (x25519_public ex_client_secret)) by (vm_compute; reflexivity).
  intros E. rewrite E in H. by injection H.
Qed.

Lemma recovery_codes_delivered_witness :
  ∃ a st, ex_enrolled = (Ok a, st)
    ∧ ∃ key, open_delivery ex_client_secret (ex_claims "session-2") (str "factor-1") key a
      = Some (ex_codes_json (generate_recovery_codes (str "account-1") ex_mfa_draws).1).
Proof.
  destruct ex_enrolled_ok as (a & st & E & _). exists a, st. split; [exact E|].
  destruct (recovery_codes_delivered (P := toy) (F := toy_factors) (T := toy_text) (PrimitiveLaws0 := toy_laws)
              (ApiTextLaws0 := toy_text_laws) ex_codes_json ex_config ex_enrolling.(sv_db) ex_enrolling ex_totp_finish
              ex_mfa_headers (str "request-30") ex_mfa_draws 50000 50000 a st ex_mfa_token (ex_claims "session-2")
              ex_mfa_bearer ex_mfa_verified ex_enrolling_active E)
    as (key & record & counter & f & _ & Hp & _ & _ & _ & _ & _ & _ & Ho & _).
  exists key. exact (Ho _ (ex_enrolling_key _ Hp)).
Defined.

Lemma enrollment_answer_repeated_witness :
  ∃ a st, ex_enrolled = (Ok a, st)
    ∧ route_totp_finish ex_codes_json ex_config st.(sv_db) st ex_totp_finish ex_mfa_headers (str "request-31")
        ex_mfa_draws 60000 60000 = (Ok a, st).
Proof.
  destruct ex_enrolled_ok as (a & st & E & Hx). exists a, st. split; [exact E|]. destruct st as [db eph].
  exact (enrollment_answer_repeated (P := toy) (F := toy_factors) (T := toy_text) ex_codes_json ex_config
           ex_enrolling.(sv_db) ex_enrolling ex_totp_finish ex_mfa_headers (str "request-30") ex_mfa_draws 50000 50000 a
           {| sv_db := db; sv_eph := eph |} ex_mfa_token (ex_claims "session-2") db
           ex_mfa_bearer ex_mfa_verified ex_enrolling_active E (rtc_refl _ _)
           eph (str "request-31") ex_mfa_draws 60000 60000 eq_refl Hx).
Defined.

(** Steps of the repository on their own. *)
Lemma others_run late db db' eph :
  rtc (moved late) db db' → rtc (service_step ex_codes_json ex_config late) {| sv_db := db; sv_eph := eph |}
    {| sv_db := db'; sv_eph := eph |}.
Proof.
  induction 1 as [|db db1 db2 H1 _ IH]; [done|]. eapply rtc_l; [|exact IH]. apply ss_api.
  exact (asv_other ex_config late {| sv_db := db; sv_eph := eph |} db1 eph H1).
Qed.

(** The server of [ex_enrolling] from its beginning. *)
Lemma ex_registered_moved : rtc (moved false) empty_accounts DeviceRuns.ex_registered.
Proof.
  eapply rtc_r; [exact ex_run_moved|]. unfold DeviceRuns.ex_registered, ex_logged_in.
  apply (moved_op false); [exact ex_first_fresh|by right].
Qed.

Lemma service_refines_operations_witness :
  rtc account_step empty_accounts ex_enrolled.2.(sv_db)
  ∧ mfa_enabled ex_enrolled.2.(sv_db) (str "account-1") = true
  ∧ (∀ id now s, account_session_active ex_enrolled.2.(sv_db) id (str "account-1") now = true →
       ex_enrolled.2.(sv_db).(account_sessions) !! id = Some s → s.(as_mfa_verified) = true).
Proof.
  assert (Hm : mfa_enabled ex_enrolled.2.(sv_db) (str "account-1") = true) by (vm_compute; reflexivity).
  destruct (service_refines_operations (P := toy) (F := toy_factors) (T := toy_text) (A := toy_auth) ex_codes_json
              ex_config false (ex_server empty_accounts) ex_enrolled.2) as (Hr & Hs & _).
  - etrans; [apply (others_run false _ _ _ ex_registered_moved)|]. apply (rtc_l _ _ ex_enrolling).
    + exact (ss_totp_start _ _ _ _ _ _ _ _ _ _).
    + apply rtc_once. exact (ss_totp_finish _ _ _ _ _ _ _ _ _ _ _).
  - split; [exact Hr|]. split; [exact Hm|]. intros id now s Ha Hx.
    destruct (proj1 (Hs eq_refl) id (str "account-1") now s Ha Hx) as [_ He]. rewrite (He eq_refl). exact Hm.
Defined.

(** An enrolment overtakes a registration: between the account and its first session
    somebody with the password logs in, registers a device and enrols a factor. The
    session that is issued then is in use without the factor of its account. *)
Definition ex_overtaken_start : Server :=
  ex_server (runs perform empty_accounts
    [DoRegister ex_account; DoCreateLogin (ex_authority []) (ex_audit "audit-1" "mfa_challenge_issued" "success" 100);
     DoFinishLogin (ex_finish false); DoRegisterDevice ex_first]).2.

Definition ex_overtaken_enrolled : Server :=
  let st := (route_totp_start ex_config ex_overtaken_start.(sv_db) ex_overtaken_start
     {| ts_recovery_delivery_public_key := encode_hex (x25519_public ex_client_secret) |} ex_mfa_headers ex_mfa_draws
     40000 40000).2 in
  (route_totp_finish ex_codes_json ex_config st.(sv_db) st ex_totp_finish ex_mfa_headers (str "request-30") ex_mfa_draws
     50000 50000).2.

Definition ex_overtaken : AccountDb :=
  (issue_tokens ex_config ex_overtaken_enrolled.(sv_db) (ex_draws "r-") (str "account-1") false 60000).2.

Example overtaken_registration :
  mfa_enabled ex_overtaken (str "account-1") = true
  ∧ account_session_active ex_overtaken (str "r-session") (str "account-1") 60001 = true
  ∧ as_mfa_verified <$> ex_overtaken.(account_sessions) !! str "r-session" = Some false.
Proof. vm_compute. done. Qed.
End examples.
