(* ===== verification/StepUp.v ===== *)
(** * Step-ups from end to end

    A client that asks for a risk challenge, answers it with a second factor and then
    makes the request it asked for ([MfaRoutes]), and what a step-up token is good
    for: that one request, once. *)

From S2P Require Import Prelude Text Header Canonical RequestTarget Security Primitives KeySession SignalAuth Net ApiSession Ephemeral ApiAccount ApiLogin ApiSecurity ApiDevice ApiAuthority ApiRequest ApiAuth DeviceRuns DeviceRoutes MfaRoutes.

Section completion.
Context `{P : Primitives} `{F : FactorCrypto} `{T : ApiText} `{!PrimitiveLaws P} `{!ApiTextLaws T} (cf : AppConfig).

Lemma signed_step_up_token claims secret now :
  claims.(sc_token_type) = str "step_up" → now < claims.(sc_expires_at) →
  verify_step_up_token (sign_step_up_token claims secret) secret now = Some claims.
Proof.
  intros Ht He. unfold verify_step_up_token, sign_step_up_token.
  rewrite (signed_payload _ (step_up_claims_to_json claims)) by apply b64url_text_round || apply b64url_text_no_dot.
  cbn. rewrite step_up_claims_round. cbn. rewrite Ht, bool_decide_true by done. apply Z.leb_gt in He. by rewrite He.
Qed.

(** A request for a challenge that the server can grant, in the state it is in. *)
Record step_up_asked (st : Server) (claims : AccessClaims) (rq : RiskChallengeRequest) (md : MfaDraws) (now : Z)
    (path : rstr) (body_hash : bytes) (binding : rstr) : Prop := {
  sq_checks : risk_checks rq = Ok (path, body_hash);
  sq_binding : operation_binding_hash claims.(acl_account_id) rq.(rc_device_id) rq.(rc_purpose) rq.(rc_method) path
    body_hash rq.(rc_request_id) (now + cf.(cf_challenge_ttl_seconds) * 1000) = Some binding;
  sq_account : account_active st.(sv_db) claims.(acl_account_id) = true;
  sq_device : device_authorized st.(sv_db) (Some rq.(rc_device_id)) claims.(acl_account_id) = true;
  sq_factor : mfa_enabled st.(sv_db) claims.(acl_account_id) = true;
  sq_attempts : cf.(cf_challenge_attempts) ≠ 0;
  sq_id : md.(md_challenge_id) ≠ [];
  sq_new : st.(sv_db).(risk_challenges) !! md.(md_challenge_id) = None;
  sq_audit : has_audit st.(sv_db).(core) (md.(md_audit_id) 0%nat) = false }.

(** An answer with a factor that is right at the time, before the challenge
    expires. *)
Record step_up_answered (st : Server) (claims : AccessClaims) (rq : VerifyRiskRequest) (md : MfaDraws) (now : Z) : Prop := {
  sr_kind : rq.(vq_factor) ∈ [str "totp"; str "recovery_code"];
  sr_code : (try_factor st.(sv_db) claims.(acl_account_id) rq.(vq_factor) rq.(vq_code) now).1 = true;
  sr_audit : ∀ n, (n < 3)%nat → has_audit st.(sv_db).(core) (md.(md_audit_id) n) = false }.

(** The request that was asked for, with the challenge and the token. *)
Record step_up_request (r : HttpRequest) (rq : RiskChallengeRequest) (path : rstr) (body_hash : bytes)
    (challenge_id token : rstr) : Prop := {
  su_method : r.(hr_method) = rq.(rc_method);
  su_path : canonical_operation_path r.(hr_target) = Ok path;
  su_body : canonical_request_body_hash r.(hr_body) (r.(hr_headers) !! str "content-type") = Some body_hash;
  su_id : r.(hr_request_id) = rq.(rc_request_id);
  su_challenge : r.(hr_headers) !! str "x-rctl-risk-challenge-id" = Some challenge_id;
  su_token : r.(hr_headers) !! str "x-rctl-step-up-token" = Some token }.

Definition asked_challenge (claims : AccessClaims) (rq : RiskChallengeRequest) (headers : HeaderMap) (md : MfaDraws) (now : Z)
    (binding : bytes) : RiskChallenge :=
  set_required_methods (new_risk_challenge cf claims.(acl_account_id) rq binding headers md now
                          (now + cf.(cf_challenge_ttl_seconds) * 1000)) [str "totp"; str "recovery_code"].

Lemma binding_decodes account_id device_id purpose method path body_hash request_id expires binding :
  operation_binding_hash account_id device_id purpose method path body_hash request_id expires = Some binding →
  ∃ bs, decode_sha256_hex binding = Some bs ∧ encode_hex bs = binding.
Proof.
  unfold operation_binding_hash. destruct (canonical_operation_binding_bytes _ _ _ _ _ _ _ _) as [c|]; [|done].
  intros [= <-]. exists (sha256 c). split; [|done]. by apply decode_sha256_hex_encode, sha256_length.
Qed.

Lemma allowed_purpose rq path body_hash :
  risk_checks rq = Ok (path, body_hash) →
  rq.(rc_purpose) ≠ str "login_mfa" ∧ rq.(rc_purpose) ≠ str "new_controller_device".
Proof.
  unfold risk_checks. intros H. apply bind_ok in H as ([] & H & _). apply ensure_ok, bool_decide_eq_true in H.
  assert (H1 : bool_decide (str "login_mfa" ∈ ALLOWED_STEP_UP_PURPOSES) = false) by (vm_compute; reflexivity).
  assert (H2 : bool_decide (str "new_controller_device" ∈ ALLOWED_STEP_UP_PURPOSES) = false) by (vm_compute; reflexivity).
  apply bool_decide_eq_false in H1, H2. split; intros Heq; rewrite Heq in H; contradiction.
Qed.

Lemma challenge_created st claims rq headers request_id md auth_now now path body_hash binding :
  authenticate cf st.(sv_db) headers auth_now = Ok claims → step_up_asked st claims rq md now path body_hash binding →
  ∃ x st1 bs es, route_create_risk_challenge cf st.(sv_db) st rq headers request_id md auth_now now = (Ok x, st1)
    ∧ x.(rx_risk_challenge_id) = md.(md_challenge_id) ∧ x.(rx_operation_binding_hash) = binding
    ∧ x.(rx_expires_at) = now + cf.(cf_challenge_ttl_seconds) * 1000
    ∧ decode_sha256_hex binding = Some bs ∧ encode_hex bs = binding
    ∧ st1.(sv_db) = extend_audit (set_risk_challenges st.(sv_db)
        (<[md.(md_challenge_id) := asked_challenge claims rq headers md now bs]> st.(sv_db).(risk_challenges))) es.
Proof.
  intros Hauth [Hch Hb Hac Hdev Hmfa Hat Hid Hnew Haud]. destruct (binding_decodes _ _ _ _ _ _ _ _ _ Hb) as (bs & Hbs & Henc).
  destruct (allowed_purpose _ _ _ Hch) as [Hp1 Hp2].
  unfold route_create_risk_challenge. rewrite Hauth. cbn [map_err mbind result_bind]. rewrite Hch. cbn [mbind result_bind].
  rewrite Hb. cbn [ok_or mbind result_bind]. rewrite Hbs. cbn [ok_or mbind result_bind].
  unfold create_risk_challenge. cbn [rk_purpose rk_required_methods rk_account_id rk_device_id new_risk_challenge].
  rewrite !bool_decide_false by done. rewrite (bool_decide_true ([] = [])) by done. cbn [orb negb].
  rewrite Hac, Hdev. cbn [orb negb]. unfold mfa_enabled in Hmfa. rewrite Hmfa.
  cbn [rk_risk_challenge_id set_required_methods new_risk_challenge rk_account_id au_audit_id au_actor_account_id account_audit_entry].
  rewrite Hnew, Haud. rewrite (bool_decide_false (is_Some None)) by (by intros [? ?]).
  rewrite (bool_decide_true (Some _ = Some _)) by done. cbn [orb negb].
  destruct (put_challenge _ _) as [? eph]. eexists _, _, bs, _. split_and!; try done.
Qed.

Lemma judged st claims rq headers md now bs vq md2 request_id now2 password_hash :
  let c := asked_challenge claims rq headers md now bs in
  st.(sv_db).(risk_challenges) !! md.(md_challenge_id) = Some c →
  (cf.(cf_challenge_attempts) =? 0) = false → (now + cf.(cf_challenge_ttl_seconds) * 1000 <=? now2) = false →
  vq.(vq_factor) ∈ [str "totp"; str "recovery_code"] →
  (try_factor st.(sv_db) claims.(acl_account_id) vq.(vq_factor) vq.(vq_code) now2).1 = true →
  ∃ db2, judge_challenge st.(sv_db) (risk_verification c md.(md_challenge_id) claims.(acl_account_id) vq.(vq_factor)
           vq.(vq_code) request_id md2 now2) c password_hash = (Ok true, db2)
    ∧ db2.(risk_challenges) !! md.(md_challenge_id) = Some (judge_risk c true now2).
Proof.
  intros c Hc Hat Hexp Hk Hcode. unfold judge_challenge.
  cbn [vf_account_id vf_challenge_id vf_factor_kind vf_factor_code vf_now risk_verification].
  change (c.(rk_required_methods)) with [str "totp"; str "recovery_code"].
  rewrite (bool_decide_true (_ ∈ _)) by done.
  assert (Hpw : (vq.(vq_factor) =! str "password") = false).
  { apply bool_decide_eq_false. intros Heq. rewrite Heq in Hk.
    assert (Hn : bool_decide (str "password" ∈ [str "totp"; str "recovery_code"]) = false) by (vm_compute; reflexivity).
    by apply bool_decide_eq_false in Hn. }
  rewrite Hpw. cbn [orb negb]. unfold verify_factor_in_database, challenge_open. rewrite Hc.
  change (c.(rk_account_id)) with claims.(acl_account_id). change (c.(rk_status)) with RIssued.
  change (c.(rk_attempts_remaining)) with cf.(cf_challenge_attempts).
  change (c.(rk_expires_at)) with (now + cf.(cf_challenge_ttl_seconds) * 1000).
  rewrite !bool_decide_true, Hat, Hexp by done. cbn [orb negb].
  destruct (try_factor _ _ _ _ _) as [b db'] eqn:E. cbn in Hcode. subst b.
  apply try_factor_frame in E as (_ & _ & Hr). rewrite Hr, Hc. eexists. split; [reflexivity|]. cbn.
  by rewrite lookup_insert_eq.
Qed.

(** The factor is right, so the challenge is verified. *)
Lemma challenge_verified st claims rq headers md now bs vq md2 request_id now2 :
  st.(sv_db).(risk_challenges) !! md.(md_challenge_id) = Some (asked_challenge claims rq headers md now bs) →
  account_active st.(sv_db) claims.(acl_account_id) = true →
  device_authorized st.(sv_db) (Some rq.(rc_device_id)) claims.(acl_account_id) = true →
  rq.(rc_purpose) ≠ str "login_mfa" → cf.(cf_challenge_attempts) ≠ 0 →
  step_up_answered st claims vq md2 now2 → now2 < now + cf.(cf_challenge_ttl_seconds) * 1000 →
  ∃ st2, verify_challenge_factor st.(sv_db) st md.(md_challenge_id) vq.(vq_factor) vq.(vq_code) claims.(acl_account_id)
      request_id md2 now2 = (Ok (judge_risk (asked_challenge claims rq headers md now bs) true now2), st2)
    ∧ st2.(sv_db).(risk_challenges) !! md.(md_challenge_id)
      = Some (judge_risk (asked_challenge claims rq headers md now bs) true now2).
Proof.
  intros Hc Hac Hdev Hp Hat [Hk Hcode Haud] Hexp. set (c := asked_challenge claims rq headers md now bs) in *.
  assert (Hacc : c.(rk_account_id) = claims.(acl_account_id)) by done.
  unfold verify_challenge_factor. rewrite Hc. cbn [mbind option_bind]. rewrite (bool_decide_true (c.(rk_account_id) = _)) by done.
  set (v := risk_verification c md.(md_challenge_id) claims.(acl_account_id) vq.(vq_factor) vq.(vq_code) request_id md2 now2).
  assert (Hv : ∃ db2, verify_risk_challenge st.(sv_db) v = (Ok (VerifiedOutcome (judge_risk c true now2)), db2)
             ∧ db2.(risk_challenges) !! md.(md_challenge_id) = Some (judge_risk c true now2)).
  2:{ destruct Hv as (db2 & -> & H2). exists (set_db st db2). by split. }
  unfold verify_risk_challenge, v. cbn [vf_account_id vf_challenge_id vf_factor_kind vf_factor_code vf_success_audit
    vf_failure_audit vf_recovery_code_audit vf_now risk_verification].
  unfold account_active in Hac. destruct (accounts st.(sv_db) !! _) as [ac|]; [|done]. rewrite Hc.
  apply bool_decide_eq_true in Hac. rewrite Hac. rewrite (bool_decide_true (AccountActive = _)) by done.
  rewrite (bool_decide_true (c.(rk_account_id) = _)) by done.
  change (c.(rk_device_id)) with (Some rq.(rc_device_id)). rewrite Hdev.
  rewrite (bool_decide_false (c.(rk_purpose) = _)) by done. cbn [orb negb].
  change (c.(rk_status)) with RIssued. rewrite (bool_decide_false (RIssued = RVerified)) by done. cbn [andb].
  rewrite (bool_decide_true (RIssued = RIssued)) by done. cbn [orb negb].
  change (c.(rk_attempts_remaining)) with cf.(cf_challenge_attempts). apply Z.eqb_neq in Hat. rewrite Hat. cbn [orb].
  change (c.(rk_consumed_at)) with (@None Z). rewrite (bool_decide_false (is_Some None)) by (by intros [? ?]).
  cbn [orb]. cbn [au_audit_id challenge_audit_entry]. rewrite (Haud 0%nat), (Haud 1%nat) by lia. cbn [orb].
  assert (Hlast : (match (if vq.(vq_factor) =! str "recovery_code"
      then Some (challenge_audit_entry (md2.(md_audit_id) 2%nat) request_id c (str "mfa_recovery_code_used") (str "success") None now2)
      else None) with Some a => has_audit st.(sv_db).(core) a.(au_audit_id) | None => false end) = false).
  { destruct (_ =! _); [|done]. apply Haud. lia. }
  rewrite Hlast. change (c.(rk_expires_at)) with (now + cf.(cf_challenge_ttl_seconds) * 1000).
  apply Z.leb_gt in Hexp. rewrite Hexp.
  destruct (judged st claims rq headers md now bs vq md2 request_id now2 ac.(ac_password_hash) Hc Hat Hexp Hk Hcode)
    as (db2 & Hj & H2). fold c in Hj, H2. rewrite Hj, H2.
  destruct (_ =! _); eexists; (split; [reflexivity|exact H2]).
Qed.

(** The token that the server hands out. *)
Definition granted_claims (claims : AccessClaims) (rq : RiskChallengeRequest) (challenge_id binding : rstr) (now : Z)
    : StepUpClaims := {|
  sc_account_id := claims.(acl_account_id); sc_device_id := rq.(rc_device_id); sc_challenge_id := challenge_id;
  sc_purpose := rq.(rc_purpose); sc_operation_binding_hash := binding;
  sc_expires_at := now + cf.(cf_challenge_ttl_seconds) * 1000; sc_token_type := str "step_up" |}.

Lemma sign_step_up_nonempty claims secret : sign_step_up_token claims secret ≠ [].
Proof. unfold sign_step_up_token. intros H. apply app_eq_nil in H as [_ H]. discriminate. Qed.

Lemma step_up_validated claims claims3 rq md now path body_hash binding bs r d step_now :
  operation_binding_hash claims.(acl_account_id) rq.(rc_device_id) rq.(rc_purpose) rq.(rc_method) path
    body_hash rq.(rc_request_id) (now + cf.(cf_challenge_ttl_seconds) * 1000) = Some binding →
  decode_sha256_hex binding = Some bs → md.(md_challenge_id) ≠ [] →
  claims3.(acl_account_id) = claims.(acl_account_id) → (d = None ∨ d = Some rq.(rc_device_id)) →
  step_up_request r rq path body_hash md.(md_challenge_id)
    (sign_step_up_token (granted_claims claims rq md.(md_challenge_id) binding now) cf.(cf_token_secret)) →
  step_now < now + cf.(cf_challenge_ttl_seconds) * 1000 →
  validate_step_up_for_request cf claims3 r d rq.(rc_purpose) step_now
  = Ok {| sx_challenge_id := md.(md_challenge_id); sx_account_id := claims.(acl_account_id);
          sx_device_id := rq.(rc_device_id); sx_purpose := rq.(rc_purpose); sx_operation_binding_hash := bs;
          sx_now := step_now |}.
Proof.
  intros Hb Hbs Hid Hacc Hd [Hm Hp Hbody Hri Hch Htok] Hn. unfold validate_step_up_for_request, required_step_up_header.
  rewrite Hch, Htok. cbn [mbind option_bind].
  assert (H1 : nonempty md.(md_challenge_id) = Some md.(md_challenge_id)) by (unfold nonempty; by case_match).
  rewrite H1. cbn [ok_or mbind result_bind].
  pose proof (sign_step_up_nonempty (granted_claims claims rq md.(md_challenge_id) binding now) cf.(cf_token_secret)) as Hne.
  assert (H2 : nonempty (sign_step_up_token (granted_claims claims rq md.(md_challenge_id) binding now) cf.(cf_token_secret))
               = Some (sign_step_up_token (granted_claims claims rq md.(md_challenge_id) binding now) cf.(cf_token_secret)))
    by (unfold nonempty; by case_match).
  rewrite H2. cbn [ok_or mbind result_bind]. rewrite signed_step_up_token by done. cbn [ok_or mbind result_bind].
  rewrite Hp. cbn [mbind result_bind]. rewrite Hbody. cbn [ok_or mbind result_bind].
  cbn [granted_claims sc_device_id sc_expires_at sc_account_id sc_challenge_id sc_purpose sc_operation_binding_hash].
  rewrite Hacc, Hm, Hri, Hb. cbn [ok_or mbind result_bind]. rewrite Hbs. cbn [ok_or mbind result_bind].
  rewrite !bool_decide_true by done. destruct Hd as [->| ->]; [done|]. by rewrite bool_decide_true.
Qed.

(** C9: A step-up can be had and used: a client whose device may act and whose
    account has a second factor gets a challenge for the operation it names, a
    token when it answers with a factor that is right, and with the token the
    server takes the very request that was named, from any session of the
    account, as backed by a verified challenge until this expires. *)
Theorem step_up_completes st claims rq headers request_id md auth_now now path body_hash binding :
  authenticate cf st.(sv_db) headers auth_now = Ok claims → step_up_asked st claims rq md now path body_hash binding →
  ∃ x st1,
    route_create_risk_challenge cf st.(sv_db) st rq headers request_id md auth_now now = (Ok x, st1)
    ∧ ∀ vq headers2 request_id2 md2 auth_now2 now2,
        authenticate cf st1.(sv_db) headers2 auth_now2 = Ok claims → step_up_answered st1 claims vq md2 now2 →
        now2 < x.(rx_expires_at) →
        ∃ y st2,
          route_verify_risk_challenge cf st1.(sv_db) st1 x.(rx_risk_challenge_id) vq headers2 request_id2 md2 auth_now2 now2
          = (Ok y, st2)
          ∧ ∀ claims3 r d step_now,
              claims3.(acl_account_id) = claims.(acl_account_id) → (d = None ∨ d = Some rq.(rc_device_id)) →
              step_up_request r rq path body_hash x.(rx_risk_challenge_id) y.(sa_step_up_token) →
              step_now < y.(sa_expires_at) →
              ∃ e, validate_step_up_for_request cf claims3 r d rq.(rc_purpose) step_now = Ok e
                ∧ step_up_matches st2.(sv_db) e = true.
Proof.
  intros Hauth Hq. destruct (challenge_created _ _ _ _ request_id _ _ _ _ _ _ Hauth Hq)
    as (x & st1 & bs & es & Hcreate & Hxid & Hxb & Hxe & Hbs & Henc & Hdb1).
  destruct Hq as [Hch Hb Hac Hdev Hmfa Hat Hid Hnew Haud]. destruct (allowed_purpose _ _ _ Hch) as [Hp1 _].
  exists x, st1. split; [done|]. intros vq headers2 request_id2 md2 auth_now2 now2 Hauth2 Hans Hexp.
  rewrite Hxid, Hxe in *.
  destruct (challenge_verified st1 claims rq headers md now bs vq md2 request_id2 now2) as (st2 & Hv & Hst2);
    [by rewrite Hdb1; cbn; rewrite lookup_insert_eq|by rewrite Hdb1|by rewrite Hdb1|done..|].
  eexists _, st2. split.
  { unfold route_verify_risk_challenge. rewrite Hauth2, Hv. reflexivity. }
  cbn [sa_step_up_token sa_expires_at]. intros claims3 r d step_now Hacc Hd Hr Hn.
  assert (Hr' : step_up_request r rq path body_hash md.(md_challenge_id)
    (sign_step_up_token (granted_claims claims rq md.(md_challenge_id) binding now) cf.(cf_token_secret)))
    by (rewrite <-Henc; exact Hr).
  eexists. split; [by eapply step_up_validated|].
  unfold step_up_matches. cbn [sx_challenge_id sx_account_id sx_device_id sx_purpose sx_operation_binding_hash sx_now].
  rewrite Hst2. cbn in Hn |- *. apply Z.ltb_lt in Hn. by rewrite !bool_decide_true, Hn.
Qed.
End completion.

(** ** What a token is good for *)

Section binding.
Context `{P : Primitives} `{T : ApiText} `{!PrimitiveLaws P} (cf : AppConfig).

Lemma canonical_target_stable value t : canonical_request_target value = Ok t → canonical_request_target t = Ok t.
Proof. intros (r & pairs & Hf & ->)%target_parse. by apply target_print. Qed.

Lemma operation_path_canonical value t : canonical_operation_path value = Ok t → canonical_request_target t = Ok t.
Proof.
  unfold canonical_operation_path. intros H. apply bind_ok in H as ([] & _ & H). apply bind_ok in H as (t' & Ht & H).
  apply bind_ok in H as ([] & _ & H). injection H as ->. destruct (canonical_request_target value) eqn:E; [|done].
  injection Ht as ->. by eapply canonical_target_stable.
Qed.

(** The expiry is written at its width. *)
Lemma binding_bytes_wrap a d p m t h i e :
  canonical_operation_binding_bytes a d p m t h i e = canonical_operation_binding_bytes a d p m t h i (e mod 2 ^ 64).
Proof.
  unfold canonical_operation_binding_bytes, push_u64.
  assert (H : be_bytes 8 (e mod 2 ^ 64) = be_bytes 8 e).
  { rewrite <-(be_bytes_add_high 8 (e mod 2 ^ 64) (e / 2 ^ 64)). f_equal. change (8 * Z.of_nat 8) with 64.
    rewrite Z.add_comm, Z.mul_comm. symmetry. apply Z.div_mod. discriminate. }
  by rewrite H.
Qed.

(** Equal bindings are of the same operation. *)
Lemma binding_injective a d p m t h i a' d' p' m' t' h' i' e b :
  operation_binding_hash a d p m t h i e = Some b → operation_binding_hash a' d' p' m' t' h' i' e = Some b →
  (a' = a ∧ d' = d ∧ p' = p ∧ h' = h ∧ i' = i ∧ (∃ k, canonical_http_method m = Ok k ∧ canonical_http_method m' = Ok k)
   ∧ (∃ k, canonical_request_target t = Ok k ∧ canonical_request_target t' = Ok k))
  ∨ ∃ x y, sha256_collision x y.
Proof.
  unfold operation_binding_hash. rewrite !(binding_bytes_wrap _ _ _ _ _ _ _ e).
  destruct (canonical_operation_binding_bytes a _ _ _ _ _ _ _) as [c|] eqn:E; [|done].
  destruct (canonical_operation_binding_bytes a' _ _ _ _ _ _ _) as [c'|] eqn:E'; [|done]. intros [= <-] [= Hb].
  assert (Hs : sha256 c' = sha256 c).
  { apply (f_equal decode_sha256_hex) in Hb. unfold sha256_hex in Hb. fold (encode_hex (sha256 c')) in Hb.
    fold (encode_hex (sha256 c)) in Hb. rewrite !decode_sha256_hex_encode in Hb by apply sha256_length. by injection Hb. }
  apply sha256_equal in Hs as [->|Hc]; [left|right; eauto].
  assert (Hw : 0 ≤ e mod 2 ^ 64 < 2 ^ 64) by (by apply Z.mod_pos_bound).
  destruct (bound_request_injective (OperationBinding a d p m t h i (e mod 2 ^ 64))
              (OperationBinding a' d' p' m' t' h' i' (e mod 2 ^ 64)) c) as (k & H1 & H2); [exact Hw|exact Hw|exact E|exact E'|].
  cbn [canonical_request] in H1, H2.
  destruct (canonical_http_method m) as [m1|], (canonical_http_method m') as [m2|]; try done.
  destruct (canonical_request_target t) as [t1|], (canonical_request_target t') as [t2|]; try done.
  cbn in H1, H2. injection H1 as <-. injection H2 as -> -> -> -> -> -> ->. split_and!; try done; eauto.
Qed.

Lemma step_up_validated_parts token claims r d purpose now x :
  r.(hr_headers) !! str "x-rctl-step-up-token" = Some token →
  validate_step_up_for_request cf claims r d purpose now = Ok x →
  ∃ c t h, verify_step_up_token token cf.(cf_token_secret) now = Some c
    ∧ canonical_operation_path r.(hr_target) = Ok t
    ∧ canonical_request_body_hash r.(hr_body) (r.(hr_headers) !! str "content-type") = Some h
    ∧ operation_binding_hash claims.(acl_account_id) c.(sc_device_id) purpose r.(hr_method) t h r.(hr_request_id)
        c.(sc_expires_at) = Some c.(sc_operation_binding_hash)
    ∧ decode_sha256_hex c.(sc_operation_binding_hash) = Some x.(sx_operation_binding_hash)
    ∧ x.(sx_challenge_id) = c.(sc_challenge_id) ∧ x.(sx_device_id) = c.(sc_device_id).
Proof.
  intros Ht H. unfold validate_step_up_for_request in H. apply bind_ok in H as (id & _ & H).
  apply bind_ok in H as (tk & Htk & H). unfold required_step_up_header in Htk. rewrite Ht in Htk.
  apply ok_or_ok in Htk. cbn in Htk. assert (tk = token) as -> by (unfold nonempty in Htk; by destruct token; simplify_eq).
  apply bind_ok in H as (c & Hc & H). apply ok_or_ok in Hc. apply bind_ok in H as (t & Hp & H).
  apply bind_ok in H as (h & Hh & H). apply ok_or_ok in Hh. apply bind_ok in H as (b & Hb & H). apply ok_or_ok in Hb.
  apply bind_ok in H as (bs & Hbs & H). apply ok_or_ok in Hbs. apply bind_ok in H as ([] & Hg & H). apply ensure_ok in Hg.
  injection H as <-. apply negb_true_iff in Hg. split_bools. exists c, t, h. cbn. split_and!; try done; congruence.
Qed.

Lemma step_up_claims_same token secret now now' c c' :
  verify_step_up_token token secret now = Some c → verify_step_up_token token secret now' = Some c' → c' = c.
Proof.
  unfold verify_step_up_token. destruct (token_payload token secret) as [bs|]; [|done]. cbn.
  destruct (step_up_claims_from_json bs) as [k|]; [|done]. cbn. intros H H'. by repeat case_match; simplify_eq.
Qed.

(** C10: A step-up token is good for one operation: two requests with the same
    token that pass are of the same account, device, purpose and challenge, and
    are the same request up to the spelling of method and target, with the same
    body hash and the same identifier; or SHA-256 has a collision. *)
Theorem step_up_token_bound token claims r d purpose now x claims' r' d' purpose' now' x' :
  r.(hr_headers) !! str "x-rctl-step-up-token" = Some token →
  r'.(hr_headers) !! str "x-rctl-step-up-token" = Some token →
  validate_step_up_for_request cf claims r d purpose now = Ok x →
  validate_step_up_for_request cf claims' r' d' purpose' now' = Ok x' →
  (claims'.(acl_account_id) = claims.(acl_account_id) ∧ x'.(sx_device_id) = x.(sx_device_id)
   ∧ x'.(sx_challenge_id) = x.(sx_challenge_id) ∧ purpose' = purpose
   ∧ x'.(sx_operation_binding_hash) = x.(sx_operation_binding_hash) ∧ r'.(hr_request_id) = r.(hr_request_id)
   ∧ (∃ k, canonical_http_method r.(hr_method) = Ok k ∧ canonical_http_method r'.(hr_method) = Ok k)
   ∧ (∃ t, canonical_operation_path r.(hr_target) = Ok t ∧ canonical_operation_path r'.(hr_target) = Ok t)
   ∧ ∃ h, canonical_request_body_hash r.(hr_body) (r.(hr_headers) !! str "content-type") = Some h
       ∧ canonical_request_body_hash r'.(hr_body) (r'.(hr_headers) !! str "content-type") = Some h)
  ∨ ∃ a b, sha256_collision a b.
Proof.
  intros Ht Ht' H H'. apply (step_up_validated_parts _ _ _ _ _ _ _ Ht) in H as (c & t & h & Hc & Hp & Hh & Hb & Hx & Hid & Hd).
  apply (step_up_validated_parts _ _ _ _ _ _ _ Ht') in H' as (c' & t' & h' & Hc' & Hp' & Hh' & Hb' & Hx' & Hid' & Hd').
  rewrite (step_up_claims_same _ _ _ _ _ _ Hc Hc') in *.
  destruct (binding_injective _ _ _ _ _ _ _ _ _ _ _ _ _ _ _ _ Hb Hb')
    as [(Ha & _ & -> & -> & Hi & Hm & (k & Hk & Hk'))|Hcol]; [left|by right].
  apply operation_path_canonical in Hp as Hs. apply operation_path_canonical in Hp' as Hs'. rewrite Hs in Hk.
  rewrite Hs' in Hk'. injection Hk as ->. injection Hk' as ->.
  split_and!; try done; try congruence; eauto.
Qed.
End binding.

(** ** Examples *)

Section examples.
#[local] Existing Instance toy.
#[local] Existing Instance toy_factors.
#[local] Existing Instance toy_text.

(** The account of the device that [ex_first] registered, with a second factor. *)
Definition ex_two_factors : Server := ex_server
  (set_recovery_codes (set_mfa_factors DeviceRuns.ex_registered {[str "factor-1" := ex_factor]})
     {[str "code-1" := ex_code]}).

Definition ex_risk_request : RiskChallengeRequest := {|
  rc_device_id := str "device-1"; rc_purpose := str "device_key_rotation"; rc_method := str "POST";
  rc_path := str ex_rotation_target; rc_body_hash := encode_hex (sha256 []); rc_request_id := str "request-21" |}.

Definition ex_risk_binding : rstr :=
  default [] (operation_binding_hash (str "account-1") (str "device-1") (str "device_key_rotation") (str "POST")
                (str ex_rotation_target) (sha256 []) (str "request-21") 300400).

Definition ex_risk_answer : VerifyRiskRequest := {| vq_factor := str "recovery_code"; vq_code := str "abcd-efgh" |}.

Definition ex_verify_draws : MfaDraws := {|
  md_factor_id := []; md_secret_base32 := []; md_lease_token := []; md_challenge_id := []; md_delivery_id := [];
  md_server_secret := []; md_nonce_source := []; md_code_bytes n := []; md_code_id n := [];
  md_audit_id n := str "v-audit" ++ be_bytes 1 (48 + Z.of_nat n) |}.

(** The server after the challenge was made. *)
Definition ex_challenged : result MfaError RiskChallengeAnswer * Server :=
  route_create_risk_challenge ex_config ex_two_factors.(sv_db) ex_two_factors ex_risk_request ex_mfa_headers
    (str "request-40") ex_mfa_draws 400 400.

(** The request, with the challenge and a token. *)
Definition ex_step_up_request (token : rstr) : HttpRequest := {|
  hr_method := str "POST"; hr_target := str ex_rotation_target; hr_body := []; hr_request_id := str "request-21";
  hr_headers := {[str "x-rctl-risk-challenge-id" := str "risk-1"; str "x-rctl-step-up-token" := token]} |}.

Lemma ex_asked :
  step_up_asked ex_config ex_two_factors (ex_claims "session-2") ex_risk_request ex_mfa_draws 400 (str ex_rotation_target)
    (sha256 []) ex_risk_binding.
Proof. split; try (vm_compute; reflexivity); vm_compute; discriminate. Qed.

Lemma ex_asked_auth : authenticate ex_config ex_two_factors.(sv_db) ex_mfa_headers 400 = Ok (ex_claims "session-2").
Proof. vm_compute. reflexivity. Qed.

Lemma ex_challenged_facts x st1 :
  ex_challenged = (Ok x, st1) →
  x.(rx_risk_challenge_id) = str "risk-1" ∧ 500 < x.(rx_expires_at)
  ∧ authenticate ex_config st1.(sv_db) ex_mfa_headers 450 = Ok (ex_claims "session-2")
  ∧ step_up_answered st1 (ex_claims "session-2") ex_risk_answer ex_verify_draws 500.
Proof.
  assert (H1 : (match ex_challenged.1 with Ok x => Some (x.(rx_risk_challenge_id), 500 <? x.(rx_expires_at)) | Err _ => None end)
               = Some (str "risk-1", true)) by (vm_compute; reflexivity).
  assert (H2 : authenticate ex_config ex_challenged.2.(sv_db) ex_mfa_headers 450 = Ok (ex_claims "session-2"))
    by (vm_compute; reflexivity).
  assert (H3 : step_up_answered ex_challenged.2 (ex_claims "session-2") ex_risk_answer ex_verify_draws 500).
  { split; [by right; left|vm_compute; reflexivity|]. intros [|[|[|n]]] Hn; [vm_compute; reflexivity..|lia]. }
  intros E. rewrite E in H1, H2, H3. cbn [fst snd] in *. injection H1 as Hid Hx. apply Z.ltb_lt in Hx. by split_and!.
Qed.

Lemma step_up_completes_witness :
  ∃ x st1 y st2, ex_challenged = (Ok x, st1)
    ∧ route_verify_risk_challenge ex_config st1.(sv_db) st1 (str "risk-1") ex_risk_answer ex_mfa_headers (str "request-41")
        ex_verify_draws 450 500 = (Ok y, st2)
    ∧ (500 < y.(sa_expires_at) →
       ∃ e, validate_step_up_for_request ex_config (ex_claims "session-2") (ex_step_up_request y.(sa_step_up_token))
              (Some (str "device-1")) (str "device_key_rotation") 500 = Ok e ∧ step_up_matches st2.(sv_db) e = true).
Proof.
  destruct (step_up_completes (P := toy) (F := toy_factors) (T := toy_text) (PrimitiveLaws0 := toy_laws)
              (ApiTextLaws0 := toy_text_laws) ex_config ex_two_factors (ex_claims "session-2") ex_risk_request ex_mfa_headers
              (str "request-40") ex_mfa_draws 400 400 (str ex_rotation_target) (sha256 []) ex_risk_binding
              ex_asked_auth ex_asked) as (x & st1 & E & H).
  destruct (ex_challenged_facts x st1 E) as (Hid & Hx & Hauth & Hans).
  destruct (H ex_risk_answer ex_mfa_headers (str "request-41") ex_verify_draws 450 500 Hauth Hans Hx)
    as (y & st2 & Hy & Hr). rewrite Hid in Hy, Hr.
  exists x, st1, y, st2. split; [exact E|]. split; [exact Hy|]. intros Hn.
  apply (Hr (ex_claims "session-2") (ex_step_up_request y.(sa_step_up_token)) (Some (str "device-1")) 500);
    [reflexivity|by right| |exact Hn].
  split; try reflexivity; vm_compute; reflexivity.
Defined.

(** The same request, spelt in another way. *)
Definition ex_bound_request (target : string) : HttpRequest := {|
  hr_method := str "POST"; hr_target := str target; hr_body := []; hr_request_id := str "request-21";
  hr_headers := {[str "x-rctl-risk-challenge-id" := str "risk-9"; str "x-rctl-step-up-token" := ex_step_up]} |}.

Definition ex_bound : StepUpExpectation := {|
  sx_challenge_id := str "risk-9"; sx_account_id := str "account-1"; sx_device_id := str "device-1";
  sx_purpose := str "device_key_rotation"; sx_operation_binding_hash := default [] (decode_sha256_hex ex_binding);
  sx_now := 500 |}.

Lemma ex_bound_ok :
  validate_step_up_for_request ex_config (ex_claims "session-2") (ex_bound_request "/v1/devices/./device-1/keys") None
    (str "device_key_rotation") 500 = Ok ex_bound
  ∧ validate_step_up_for_request ex_config (ex_claims "session-2") (ex_bound_request "/v1/devices/device-1/%6beys") None
      (str "device_key_rotation") 500 = Ok ex_bound.
Proof. split; vm_compute; reflexivity. Qed.

Lemma step_up_token_bound_witness :
  (∃ t, canonical_operation_path (str "/v1/devices/./device-1/keys") = Ok t
      ∧ canonical_operation_path (str "/v1/devices/device-1/%6beys") = Ok t)
  ∨ ∃ a b, sha256_collision a b.
Proof.
  destruct (step_up_token_bound (P := toy) (T := toy_text) (PrimitiveLaws0 := toy_laws) ex_config ex_step_up
              (ex_claims "session-2") (ex_bound_request "/v1/devices/./device-1/keys") None (str "device_key_rotation") 500
              ex_bound (ex_claims "session-2") (ex_bound_request "/v1/devices/device-1/%6beys") None
              (str "device_key_rotation") 500 ex_bound) as [(_ & _ & _ & _ & _ & _ & _ & Ht & _)|Hc].
  - vm_compute. reflexivity.
  - vm_compute. reflexivity.
  - exact (proj1 ex_bound_ok).
  - exact (proj2 ex_bound_ok).
  - left. exact Ht.
  - right. exact Hc.
Defined.
End examples.
