(* ===== verification/Enrollment.v ===== *)
(** * A device is enrolled

    The end of a login on a new device: the client presents the grant that the login
    gave it and the device is registered. The theorem composes the authentication
    routes ([ApiAuth]) and the device routes ([DeviceRoutes]) over the repository. *)

From S2P Require Import Prelude Text Header Canonical RequestTarget Security Primitives KeySession SignalAuth Net ApiSession Ephemeral ApiAccount ApiLogin ApiSecurity ApiDevice ApiAuthority ApiRequest ApiAuth DeviceRuns DeviceRoutes.

(** ** What a completed login leaves *)

Definition challenge_identity (ch : RiskChallenge) : rstr * rstr * bytes :=
  (ch.(rk_account_id), ch.(rk_purpose), ch.(rk_operation_binding_hash)).

Section leaves.
Context `{P : Primitives} `{F : FactorCrypto}.

Lemma login_factor_challenges db c db' id ch :
  login_factor db c = Go db' → db.(risk_challenges) !! id = Some ch →
  ∃ ch', db'.(risk_challenges) !! id = Some ch' ∧ challenge_identity ch' = challenge_identity ch.
Proof.
  assert (Hset : ∀ (m : gmap rstr RiskChallenge) j x x', m !! j = Some x → challenge_identity x' = challenge_identity x →
    m !! id = Some ch → ∃ ch', <[j := x']> m !! id = Some ch' ∧ challenge_identity ch' = challenge_identity ch).
  { intros m j x x' Hx Hid Hm. destruct (decide (j = id)) as [->|Hne].
    - rewrite lookup_insert_eq. exists x'. split; [done|]. congruence.
    - rewrite lookup_insert_ne by done. eauto. }
  intros H Hch. unfold login_factor in H. destruct (fc_required_factors c =! []).
  - destruct (_ || _); [done|]. destruct (login_trust db c) as [r db1|db1] eqn:Ht; [done|].
    assert (Hr : db1.(risk_challenges) = db.(risk_challenges)) by (unfold login_trust in Ht; by repeat case_match; simplify_eq).
    rewrite Hr in H. destruct (db.(risk_challenges) !! c.(fc_challenge_id)) as [x|] eqn:Hx; [|done]. injection H as <-.
    cbn. by eapply Hset.
  - destruct (_ || _); [done|]. destruct (fc_factor_kind c) as [kind|], (fc_factor_code c) as [code|]; try done.
    destruct (negb _); [done|]. unfold verify_factor_in_database in H.
    destruct (negb (challenge_open _ _ _ _)); [done|].
    destruct (try_factor db c.(fc_account_id) kind code c.(fc_now)) as [b db1] eqn:E.
    apply try_factor_frame in E as (_ & _ & Hr).
    destruct (risk_challenges db1 !! c.(fc_challenge_id)) as [x|] eqn:Hx; destruct b; try done; injection H as <-; cbn.
    rewrite Hr in *. by eapply Hset.
Qed.

Lemma completed_login_leaves db c db' g :
  finish_login db c = (Ok LoginCompleted, db') → c.(fc_enrollment_grant) = Some g →
  c.(fc_trusted_device_to_create) = None →
  db'.(device_enrollment_grants) !! g.(gr_grant_id) = Some g
  ∧ db'.(account_sessions) !! c.(fc_account_session).(as_account_session_id) = Some c.(fc_account_session)
  ∧ ∃ ch, db'.(risk_challenges) !! c.(fc_challenge_id) = Some ch ∧ ch.(rk_status) = RConsumed
      ∧ is_Some ch.(rk_consumed_at)
      ∧ challenge_identity ch = (c.(fc_account_id), str "login_mfa", c.(fc_challenge_binding_hash)).
Proof.
  intros H Hg Ht. pose proof (finish_login_ok _ _ _ H) as (_ & (ch & x & Hch & _ & Ha & Hp & _ & _ & _ & Hb & _) & _ & _
    & db1 & Hf & Hc).
  destruct (login_factor_challenges _ _ _ _ _ Hf Hch) as (ch1 & Hch1 & Hid).
  pose proof (complete_login_ok _ _ _ _ Hc) as (_ & ch2 & Hch2 & Htab). rewrite Hch1 in Hch2. injection Hch2 as <-.
  unfold factor_tables in Htab. injection Htab as _ Hs _ _ Hr. rewrite Hs, Hr, !lookup_insert_eq. split_and!; [|done|].
  - unfold complete_login in Hc. destruct (_ || _ || _ || _); [done|].
    destruct (add_grant db1 c ≫= _) as [db2|] eqn:E; [|done]. apply bind_Some in E as (db0 & Eg & Et).
    unfold add_trust in Et. rewrite Ht in Et. injection Et as <-. unfold add_grant in Eg. rewrite Hg in Eg.
    destruct (_ || _ || _ || _ || _ || _); [done|]. injection Eg as <-.
    cbn [risk_challenges set_grants] in Hc. rewrite Hch1 in Hc. injection Hc as <-. cbn. by rewrite lookup_insert_eq.
  - eexists. split; [done|]. split_and!; [done|by eexists|]. unfold challenge_identity in *. cbn. congruence.
Qed.
End leaves.

(** ** The way through a registration *)

Section registration.
Context `{P : Primitives} `{T : ApiText}.

Lemma register_device_creates db c g tid e :
  db.(device_enrollment_grants) !! c.(rg_grant_id) = Some g →
  registration_command_valid c = true → registration_grant_valid c g = true →
  registration_audits_valid db c g.(gr_establish_trust) = Ok tt → holds_grant db c g = true →
  g.(gr_consumed_at) = None → c.(rg_now) < g.(gr_expires_at) →
  account_session_active db c.(rg_account_session_id) c.(rg_account_id) c.(rg_now) = true →
  (∀ s, g.(gr_establish_trust) = true → db.(account_sessions) !! c.(rg_account_session_id) = Some s →
     s.(as_mfa_verified) = true) →
  db.(core).(db_devices) !! c.(rg_device).(dv_device_id) = None →
  map_Forall (λ _ d, d.(dv_public_key_id) ≠ c.(rg_device).(dv_public_key_id)) db.(core).(db_devices) →
  c.(rg_trusted_device_id) = Some tid → db.(trusted_controller_devices) !! tid = None →
  c.(rg_trusted_device_audit) = Some e →
  ∃ db', register_device db c = (Ok (Created c.(rg_device)), db')
    ∧ db'.(core).(db_devices) !! c.(rg_device).(dv_device_id) = Some c.(rg_device)
    ∧ db'.(account_sessions) = db.(account_sessions).
Proof.
  intros Hg Hc Hgv Hau Hh Hopen He Hses Hmfa Hd Hk Htid Htr Hta.
  assert (Hcreated : ∃ db', register_device db c = (Ok (Created c.(rg_device)), db')).
  { unfold register_device. rewrite Hg. unfold validate_device_registration_authority. rewrite Hc, Hgv, Hau. cbn [ensure mbind result_bind].
    rewrite Hh, Hopen. cbn [negb none]. rewrite (proj2 (Z.leb_gt _ _)) by done. rewrite Hses. cbn [negb orb].
    assert (Hm : g.(gr_establish_trust) && negb (match db.(account_sessions) !! c.(rg_account_session_id) with
                   | Some s => s.(as_mfa_verified) | None => false end) = false).
    { destruct g.(gr_establish_trust) eqn:Het; [|done]. cbn. unfold account_session_active in Hses.
      destruct (db.(account_sessions) !! _) as [s|] eqn:Hs; [|done]. by rewrite (Hmfa s eq_refl eq_refl). }
    rewrite Hm. cbn [orb].
    assert (Hf : ∃ db', first_registration db c g = Ok db').
    { unfold first_registration. rewrite Hd. cbn [none andb].
      rewrite (proj2 (btree_find_no _ _)).
      2:{ intros id d Hid. apply bool_decide_eq_false. exact (Hk id d Hid). }
      cbn [negb ensure mbind result_bind].
      unfold registration_grant_valid in Hgv. rewrite Hopen in Hgv. cbn in Hgv. apply andb_true_iff in Hgv as [Hgv Htrust].
      apply andb_true_iff in Hgv as [_ Hshape]. rewrite Hshape. cbn [ensure mbind result_bind].
      destruct g.(gr_establish_trust); [|cbn; eauto]. rewrite Htid. cbn [ok_or mbind result_bind]. rewrite Htr.
      cbn [none ensure mbind result_bind]. unfold registration_trust.
      destruct g.(gr_trust_proof_type); [|done]. destruct g.(gr_trust_level); [|done]. rewrite Hta. cbn. eauto. }
    destruct Hf as [db' ->]. eauto. }
  destruct Hcreated as [db' H]. exists db'. split; [done|].
  pose proof (register_device_frame db c) as (_ & Hs & _). rewrite H in Hs. split; [|exact Hs].
  apply registered_parts in H as (_ & _ & -> & _). by rewrite lookup_insert_eq.
Qed.

(** The token says who asks. *)
Lemma authenticate_header cf db h1 h2 t :
  h1 !! str "authorization" = h2 !! str "authorization" → authenticate cf db h1 t = authenticate cf db h2 t.
Proof. intros H. unfold authenticate, bearer. by rewrite H. Qed.

Lemma parse_grant_token gid secret :
  gid ≠ [] → secret ≠ [] → len gid ≤ 128 → len secret ≤ 128 → forallb name_byte gid = true →
  forallb name_byte secret = true → parse_enrollment_grant (gid ++ str "." ++ secret) = Ok (gid, secret).
Proof.
  intros Hg Hs Hlg Hls Hbg Hbs. unfold parse_enrollment_grant.
  assert (Hd : x2e ∉ gid).
  { intros Hin. rewrite forallb_forall in Hbg. apply list_elem_of_In in Hin. specialize (Hbg _ Hin). discriminate Hbg. }
  change (gid ++ str "." ++ secret) with (gid ++ x2e :: secret). rewrite split_once_app by done.
  cbn [ok_or mbind result_bind]. rewrite Hbg, Hbs. replace (_ || _) with false; [done|]. symmetry.
  rewrite !bool_decide_eq_false_2 by done. cbn. rewrite !(proj2 (Z.ltb_ge _ _)) by done. done.
Qed.
End registration.

(** ** From the password to the device *)

(** What the client adds after the login of a [LoginScene]. *)
Record EnrollmentScene := {
  en_display_name : rstr;
  en_platform : Platform;
  en_os_version : rstr;
  en_arch : Architecture;
  en_capabilities : DeviceCapabilities;
  en_public_key : rstr;
  en_target : rstr;
  en_headers : HeaderMap;
  en_timestamp : rstr;
  en_timestamp_value : Z;
  en_nonce : rstr;
  en_body : bytes;
  en_body_hash : bytes;
  en_canonical : bytes;
  en_request_id : rstr;
  en_draws : DeviceDraws;
  en_auth_now : Z;
  en_sig_now : Z;
  en_now : Z }.

Section enrollment.
Context `{P : Primitives} `{F : FactorCrypto} `{T : ApiText} `{A : AuthText}.

#[local] Arguments is_blank : simpl never.
#[local] Arguments checked_sub : simpl never.
#[local] Arguments trim : simpl never.
#[local] Arguments str : simpl never.
#[local] Arguments device_registration_binding_hash : simpl never.

Definition enroll_request (sn : LoginScene) (en : EnrollmentScene) (grant : rstr) : RegisterDeviceRequest := {|
  rd_device_enrollment_grant := Some grant; rd_device_id := sn.(sn_request).(lq_device_id);
  rd_display_name := en.(en_display_name); rd_platform := en.(en_platform); rd_os_version := en.(en_os_version);
  rd_arch := en.(en_arch); rd_role_capabilities := en.(en_capabilities); rd_public_key := en.(en_public_key) |}.

Definition enroll_http (sn : LoginScene) (en : EnrollmentScene) (tokens : TokenResponse) : HttpRequest := {|
  hr_method := str "POST"; hr_target := en.(en_target);
  hr_headers :=
    <[str "authorization" := str "Bearer " ++ tokens.(tk_access_token)]>
    (<[str "x-rctl-device-id" := sn.(sn_request).(lq_device_id)]>
    (<[str "x-rctl-timestamp" := en.(en_timestamp)]>
    (<[str "x-rctl-api-nonce" := en.(en_nonce)]>
    (<[str "x-rctl-device-signature" := b64url_text (ed25519_sign sn.(sn_private_key) (sha256 en.(en_canonical)))]>
     en.(en_headers)))));
  hr_body := en.(en_body); hr_request_id := en.(en_request_id) |}.

(** The grant is spelt in the letters that identifiers and secrets are drawn from. *)
Definition spelt (s : rstr) : Prop := s ≠ [] ∧ len s ≤ 128 ∧ forallb name_byte s = true.

(** The device describes itself well, and no identifier is blank. *)
Definition description_right (sn : LoginScene) (en : EnrollmentScene) : Prop :=
  validate_device_request (enroll_request sn en []) = Ok tt
  ∧ decode_public_key en.(en_public_key) = Some (ed25519_public sn.(sn_private_key))
  ∧ spelt sn.(sn_finish_draws).(dw_grant_id) ∧ spelt sn.(sn_finish_draws).(dw_grant_secret)
  ∧ Forall (λ s, is_blank s = false)
      [trim en.(en_display_name); trim en.(en_os_version); sn.(sn_request).(lq_device_id);
       sn.(sn_account).(ac_account_id); sn.(sn_draws).(dw_challenge_id); sn.(sn_finish_draws).(dw_session_id);
       en.(en_draws).(dd_public_key_id); en.(en_draws).(dd_trusted_device_id)].

(** The request is signed with the key of the device, in time. *)
Definition enrollment_signed (sn : LoginScene) (en : EnrollmentScene) : Prop :=
  let rq := sn.(sn_request) in
  parse_u64 en.(en_timestamp) = Some en.(en_timestamp_value) ∧ en.(en_timestamp) ≠ [] ∧ en.(en_nonce) ≠ []
  ∧ abs_diff en.(en_sig_now) en.(en_timestamp_value) ≤ 30000 ∧ abs_diff en.(en_now) en.(en_timestamp_value) ≤ 30000
  ∧ canonical_request_body_hash en.(en_body) (en.(en_headers) !! str "content-type") = Some en.(en_body_hash)
  ∧ canonical_api_request_bytes (str "POST") en.(en_target) en.(en_body_hash) en.(en_request_id)
      rq.(lq_device_id) sn.(sn_account).(ac_account_id) en.(en_timestamp_value) en.(en_nonce) = Ok en.(en_canonical).

(** The tokens and the grant have not expired, and what is drawn is new by then. *)
Definition enrollment_timely (sn : LoginScene) (en : EnrollmentScene) (tokens : TokenResponse) (expires_at : Z)
    (st : Server) : Prop :=
  let dd := en.(en_draws) in
  en.(en_auth_now) < tokens.(tk_access_expires_at) ∧ en.(en_auth_now) < tokens.(tk_refresh_expires_at)
  ∧ en.(en_now) < expires_at ∧ en.(en_now) < tokens.(tk_refresh_expires_at)
  ∧ st.(sv_eph).(nonces)
      !! nonce_key sn.(sn_account).(ac_account_id) sn.(sn_request).(lq_device_id) en.(en_nonce) = None
  ∧ map_Forall (λ _ d, d.(dv_public_key_id) ≠ dd.(dd_public_key_id)) st.(sv_db).(core).(db_devices)
  ∧ st.(sv_db).(trusted_controller_devices) !! dd.(dd_trusted_device_id) = None
  ∧ NoDup (dd.(dd_audit_id) <$> [0; 1; 2]%nat)
  ∧ Forall (λ n, has_audit st.(sv_db).(core) (dd.(dd_audit_id) n) = false) [0; 1; 2]%nat.

(** The command that the request becomes. *)
Definition enroll_command (sn : LoginScene) (en : EnrollmentScene) (claims : AccessClaims)
    (proof : InitialDeviceSignatureProof) : DeviceRegistrationCommand :=
  registration_command claims (enroll_request sn en []) sn.(sn_finish_draws).(dw_grant_id)
    sn.(sn_finish_draws).(dw_grant_secret) (ed25519_public sn.(sn_private_key)) proof en.(en_request_id) en.(en_draws)
    en.(en_now).

Definition enroll_proof (sn : LoginScene) (en : EnrollmentScene) : InitialDeviceSignatureProof := {|
  ip_target := en.(en_target); ip_content_type := en.(en_headers) !! str "content-type";
  ip_request_id := en.(en_request_id); ip_timestamp := en.(en_timestamp_value); ip_nonce := en.(en_nonce);
  ip_signature := b64url_text (ed25519_sign sn.(sn_private_key) (sha256 en.(en_canonical)));
  ip_canonical_body := en.(en_body) |}.

Lemma enroll_signature `{!PrimitiveLaws P} `{!ApiTextLaws T} sn en ct :
  ct = en.(en_headers) !! str "content-type" → enrollment_signed sn en →
  verify_device_signature (ed25519_public sn.(sn_private_key)) (str "POST") en.(en_target) en.(en_body) ct
    en.(en_request_id) sn.(sn_request).(lq_device_id) sn.(sn_account).(ac_account_id) en.(en_timestamp_value) en.(en_nonce)
    (b64url_text (ed25519_sign sn.(sn_private_key) (sha256 en.(en_canonical)))) = true.
Proof.
  intros -> (_ & _ & _ & _ & _ & Hbody & Hcan). unfold verify_device_signature, decode_either.
  rewrite Hbody, Hcan, b64url_text_round, ed25519_sign_length. by rewrite ed25519_public_valid, ed25519_verify_sign.
Qed.

Lemma enroll_headers sn en tokens :
  let h := (enroll_http sn en tokens).(hr_headers) in
  h !! str "authorization" = Some (str "Bearer " ++ tokens.(tk_access_token))
  ∧ h !! str "x-rctl-device-id" = Some sn.(sn_request).(lq_device_id)
  ∧ h !! str "x-rctl-timestamp" = Some en.(en_timestamp) ∧ h !! str "x-rctl-api-nonce" = Some en.(en_nonce)
  ∧ h !! str "x-rctl-device-signature"
    = Some (b64url_text (ed25519_sign sn.(sn_private_key) (sha256 en.(en_canonical))))
  ∧ h !! str "content-type" = en.(en_headers) !! str "content-type".
Proof.
  cbn [hr_headers enroll_http]. split_and!; (repeat rewrite lookup_insert_ne by (vm_compute; discriminate));
    first [by rewrite lookup_insert_eq|done].
Qed.

Lemma enroll_verified `{!PrimitiveLaws P} `{!ApiTextLaws T} sn en tokens eph :
  enrollment_signed sn en → sn.(sn_request).(lq_device_id) ≠ [] →
  eph.(nonces) !! nonce_key sn.(sn_account).(ac_account_id) sn.(sn_request).(lq_device_id) en.(en_nonce) = None →
  ∃ eph', verify_initial_device_signature eph sn.(sn_account).(ac_account_id) sn.(sn_request).(lq_device_id)
            (ed25519_public sn.(sn_private_key)) (enroll_http sn en tokens) en.(en_sig_now)
          = (Ok (enroll_proof sn en), eph').
Proof.
  intros Hs Hdne Hnonce. destruct (enroll_headers sn en tokens) as (_ & Hid & Hts & Hn & Hsig & Hct).
  assert (Hh : ∀ name v, (enroll_http sn en tokens).(hr_headers) !! name = Some v → v ≠ [] →
            required_header (enroll_http sn en tokens).(hr_headers) name = Ok v).
  { intros name v Hv Hne. unfold required_header. rewrite Hv. destruct v; [congruence|reflexivity]. }
  assert (Hsne : b64url_text (ed25519_sign sn.(sn_private_key) (sha256 en.(en_canonical))) ≠ []).
  { intros He. pose proof (b64url_text_round (ed25519_sign sn.(sn_private_key) (sha256 en.(en_canonical)))) as Hr.
    rewrite He, b64url_empty in Hr. injection Hr as Hr.
    pose proof (ed25519_sign_length sn.(sn_private_key) (sha256 en.(en_canonical))) as Hl. by rewrite <-Hr in Hl. }
  assert (Hchecks : initial_signature_checks sn.(sn_account).(ac_account_id) sn.(sn_request).(lq_device_id)
            (ed25519_public sn.(sn_private_key)) (enroll_http sn en tokens) en.(en_sig_now) = Ok (enroll_proof sn en)).
  { pose proof (enroll_signature sn en _ Hct Hs) as Hv. destruct Hs as (Hparse & Htne & Hnne & Hw & _).
    unfold initial_signature_checks.
    rewrite (Hh _ _ Hid Hdne), (Hh _ _ Hts Htne), (Hh _ _ Hn Hnne), (Hh _ _ Hsig Hsne).
    cbn [map_err mbind result_bind]. rewrite Hparse. cbn [ok_or mbind result_bind].
    unfold ensure. rewrite (bool_decide_eq_true_2 _ eq_refl), (proj2 (Z.ltb_ge _ _) Hw). cbn [negb mbind result_bind].
    cbn [hr_target hr_body hr_request_id enroll_http] in Hv |- *. rewrite Hv. unfold enroll_proof. by rewrite <-Hct. }
  unfold verify_initial_device_signature. rewrite Hchecks. cbn [ip_nonce enroll_proof]. unfold record_nonce.
  rewrite bool_decide_eq_false_2; [by eexists|]. intros [v Hv]. apply map_lookup_filter_Some in Hv as [Hv _].
  by rewrite Hnonce in Hv.
Qed.

(** The command is well formed. *)
Lemma enroll_command_valid sn en claims :
  description_right sn en → claims.(acl_account_id) = sn.(sn_account).(ac_account_id) →
  claims.(acl_account_session_id) = sn.(sn_finish_draws).(dw_session_id) →
  is_blank sn.(sn_finish_draws).(dw_grant_id) = false →
  registration_command_valid (enroll_command sn en claims (enroll_proof sn en)) = true.
Proof.
  intros (Hv & _ & _ & _ & Hb) Ha Hs Hg. rewrite !Forall_cons in Hb. destruct Hb as (B1 & B2 & B3 & B4 & B5 & B6 & B7 & _).
  unfold validate_device_request in Hv. apply bind_ok in Hv as ([] & _ & Hv). apply bind_ok in Hv as ([] & _ & Hv).
  apply bind_ok in Hv as ([] & Hc & Hv). apply ensure_ok in Hc. apply ensure_ok in Hv.
  cbn [enroll_request rd_platform rd_arch rd_role_capabilities] in Hc, Hv.
  unfold registration_command_valid. cbn. rewrite Ha, Hs, Hg, B1, B2, B3, B4, B6, B7, !bool_decide_eq_true_2 by done.
  rewrite !Z.leb_refl. cbn [negb andb]. unfold platform_name, architecture_name, registration_platform_name, registration_architecture_name.
  cbn [enroll_request rd_platform rd_role_capabilities]. unfold enrolled_capabilities. cbn.
  destruct en.(en_platform), en.(en_arch); cbn in Hc, Hv |- *; try discriminate Hv; clear Hc Hv;
    repeat (apply andb_true_iff; split); first [apply bool_decide_eq_true; reflexivity|reflexivity].
Qed.

Lemma enroll_audits_valid sn en tokens expires_at st claims b :
  description_right sn en → enrollment_timely sn en tokens expires_at st →
  registration_audits_valid st.(sv_db) (enroll_command sn en claims (enroll_proof sn en)) b = Ok tt.
Proof.
  intros (_ & _ & _ & _ & Hb) (_ & _ & _ & _ & _ & _ & _ & Hnd & Hau). rewrite !Forall_cons in Hb.
  destruct Hb as (_ & _ & _ & _ & _ & _ & _ & B8 & _). rewrite !Forall_cons in Hau. destruct Hau as (A0 & A1 & A2 & _).
  cbn in Hnd. unfold registration_audits_valid. cbn [enroll_command registration_command rg_trusted_device_audit rg_trusted_device_id ok_or].
  assert (Hok : ∀ n action, registration_audit_ok (enroll_command sn en claims (enroll_proof sn en))
            (device_audit_entry (en.(en_draws).(dd_audit_id) n) claims.(acl_account_id) sn.(sn_request).(lq_device_id)
               sn.(sn_request).(lq_device_id) (str action) ∅ en.(en_request_id) en.(en_now)) = true).
  { intros n action. unfold registration_audit_ok. cbn. rewrite !bool_decide_eq_true_2 by done. by rewrite Z.eqb_refl. }
  assert (Hnd2 : NoDup [en.(en_draws).(dd_audit_id) 0%nat; en.(en_draws).(dd_audit_id) 1%nat]).
  { apply (NoDup_app [_; _] [_]) in Hnd. apply Hnd. }
  unfold audits_new. destruct b.
  - rewrite B8. cbn -[registration_audit_ok str]. rewrite A0, A1, A2, !Hok, !bool_decide_eq_true_2 by done. reflexivity.
  - cbn -[registration_audit_ok str]. rewrite A0, A1, !Hok, !bool_decide_eq_true_2 by done. reflexivity.
Qed.

(** The grant that the login of the scene gives. *)
Lemma scene_grant_valid sn en claims g b :
  scene_facts sn (scene_authority sn).(la_challenge) (scene_authority sn).(la_context) b →
  (scene_command sn (scene_authority sn) b).2.(fc_enrollment_grant) = Some g →
  password_right sn → times_right sn → factor_right sn → description_right sn en →
  is_blank sn.(sn_finish_draws).(dw_grant_id) = false →
  registration_grant_valid (enroll_command sn en claims (enroll_proof sn en)) g = true.
Proof.
  intros Hf Hg (Hp & _) Ht Hfac (_ & _ & _ & _ & Hb) Hgid.
  destruct (scene_command_grant sn _ b Hf) as (g' & Hg' & Heq). assert (g = g') as -> by congruence. subst g'.
  rewrite !Forall_cons in Hb. destruct Hb as (_ & _ & B3 & B4 & B5 & B6 & _).
  apply parse_login_version in Hp. destruct Ht as (Httl & _ & _ & [Hn0 Hn1] & Hn2 & _).
  rewrite (sf_expires _ _ _ _ Hf). unfold registration_grant_valid.
  cbn -[scene_authority trust_decision Z.add Z.mul]. rewrite B3, B4, B5, B6, Hp.
  assert (Httl' : match checked_sub (sn_now sn + cf_challenge_ttl_seconds (sn_config sn) * 1000) (sn_finish_now sn) with
                  | Some ttl => (0 <? ttl) && (ttl <=? 300000) | None => false end = true).
  { unfold checked_sub. rewrite (proj2 (Z.leb_le _ _)) by lia. apply andb_true_iff. rewrite Z.ltb_lt, Z.leb_le. lia. }
  rewrite Httl', bool_decide_eq_true_2 by done. cbn [negb andb].
  unfold factor_right in Hfac. destruct (sn_factor sn) as [[kind code]|]; [|done].
  destruct Hfac as (_ & [-> | ->] & _); reflexivity.
Qed.

(** A session of the scene carries the second factor that the grant vouches for. *)
Lemma scene_session_mfa sn b g :
  scene_facts sn (scene_authority sn).(la_challenge) (scene_authority sn).(la_context) b →
  (scene_command sn (scene_authority sn) b).2.(fc_enrollment_grant) = Some g → g.(gr_establish_trust) = true →
  (scene_command sn (scene_authority sn) b).2.(fc_account_session).(as_mfa_verified) = true.
Proof.
  intros Hf Hg Ht. destruct (scene_command_grant sn _ b Hf) as (g' & Hg' & Heq). assert (g = g') as -> by congruence. subst g'.
  cbn -[scene_authority] in Ht |- *. by rewrite Ht.
Qed.

Lemma authenticate_ok cf db h token t claims :
  h !! str "authorization" = Some (str "Bearer " ++ token) → authenticate cf db h t = Ok claims →
  verify_access_token token cf.(cf_token_secret) t = Some claims
  ∧ account_session_active db claims.(acl_account_session_id) claims.(acl_account_id) t = true.
Proof.
  intros Hh H. unfold authenticate, bearer in H. rewrite Hh in H. cbn [mbind option_bind] in H. unfold strip_prefix in H.
  rewrite take_app_length, bool_decide_eq_true_2, drop_app_length in H by done. cbn [mbind option_bind] in H.
  apply bind_ok in H as (token' & Ht & H). apply ok_or_ok in Ht.
  assert (token' = token) as -> by (unfold nonempty in Ht; by destruct token; [|injection Ht]).
  apply bind_ok in H as (claims' & Hv & H). apply ok_or_ok in Hv. apply bind_ok in H as ([] & Hs & H).
  apply ensure_ok in Hs. by injection H as ->.
Qed.

(** A device that is in the tables and a live token are enough for signalling. *)
Lemma signal_authorizes cf db token d t claims :
  cf.(cf_service_token) ≠ [] → verify_access_token token cf.(cf_token_secret) t = Some claims →
  account_session_active db claims.(acl_account_session_id) claims.(acl_account_id) t = true →
  db.(core).(db_devices) !! d.(dv_device_id) = Some d → d.(dv_account_id) = claims.(acl_account_id) →
  d.(dv_public_key_version) = 1 → d.(dv_public_key_revoked_at) = None → is_authorizable d.(dv_status) = true →
  is_ok (signal_device_auth cf db {[str "authorization" := str "Bearer " ++ cf.(cf_service_token)]}
    {| dq_access_token := token; dq_account_id := claims.(acl_account_id); dq_device_id := d.(dv_device_id);
       dq_public_key_id := d.(dv_public_key_id); dq_public_key_version := 1 |} t) = true.
Proof.
  intros Hsvc Hv Hs Hd Ha Hver Hrev Hst. unfold signal_device_auth, authenticate_service, bearer.
  rewrite lookup_singleton_eq. cbn [mbind option_bind]. unfold strip_prefix.
  rewrite take_app_length, bool_decide_eq_true_2, drop_app_length by done. cbn [mbind option_bind].
  assert (Hn : nonempty cf.(cf_service_token) = Some cf.(cf_service_token)) by (unfold nonempty; by destruct (cf_service_token cf)).
  rewrite Hn. cbn [ok_or mbind result_bind]. rewrite bool_decide_eq_true_2 by done.
  cbn [ensure mbind result_bind dq_access_token dq_account_id dq_device_id dq_public_key_id dq_public_key_version].
  rewrite Hv. cbn [ok_or mbind result_bind]. rewrite bool_decide_eq_true_2 by done. cbn [ensure mbind result_bind].
  unfold load_signal_device_authority. rewrite Hd. cbn [mbind option_bind ok_or result_bind].
  unfold account_session_active in Hs. rewrite Hs. cbn [ensure mbind result_bind].
  rewrite Ha, Hver, Hrev, Hst, !bool_decide_eq_true_2 by done. reflexivity.
Qed.

(** The grant of the scene is held by who logged in. *)
Lemma scene_holds_grant `{!PrimitiveLaws P} `{!ApiTextLaws T} sn en claims b g db' :
  scene_facts sn (scene_authority sn).(la_challenge) (scene_authority sn).(la_context) b →
  (scene_command sn (scene_authority sn) b).2.(fc_enrollment_grant) = Some g → password_right sn →
  (∃ ch, db'.(risk_challenges) !! sn.(sn_draws).(dw_challenge_id) = Some ch ∧ ch.(rk_status) = RConsumed
     ∧ is_Some ch.(rk_consumed_at) ∧ challenge_identity ch = (sn.(sn_account).(ac_account_id), str "login_mfa", b)) →
  claims.(acl_account_id) = sn.(sn_account).(ac_account_id) →
  claims.(acl_account_session_id) = sn.(sn_finish_draws).(dw_session_id) → enrollment_signed sn en →
  holds_grant db' (enroll_command sn en claims (enroll_proof sn en)) g = true.
Proof.
  intros Hf Hg (Hp & _) (ch & Hch & Hst & [at_ Hat] & Hid) Ha Hses Hs. apply parse_login_version in Hp.
  destruct (scene_command_grant sn _ b Hf) as (g' & Hg' & Heq). assert (g = g') as -> by congruence. subst g'.
  pose proof (enroll_signature sn en _ eq_refl Hs) as Hv. destruct Hs as (_ & _ & _ & _ & Hnow & _).
  unfold holds_grant, login_challenge_matches, verify_registration_signature.
  cbn -[scene_authority verify_device_signature Z.ltb abs_diff]. rewrite Hch. injection Hid as -> -> ->.
  rewrite Ha, Hses, Hp, Hst, Hat, Hv, !bool_decide_eq_true_2 by done. rewrite Z.eqb_refl, (proj2 (Z.ltb_ge _ _)) by done.
  reflexivity.
Qed.

Lemma scene_enrolls `{!PrimitiveLaws P} `{!ApiTextLaws T} sn b g db' eph' en :
  scene_facts sn (scene_authority sn).(la_challenge) (scene_authority sn).(la_context) b →
  (scene_command sn (scene_authority sn) b).2.(fc_enrollment_grant) = Some g →
  password_right sn → times_right sn → draws_right sn → signature_right sn → factor_right sn →
  finish_login (scene_logged sn) (scene_command sn (scene_authority sn) b).2 = (Ok LoginCompleted, db') →
  let tokens := (scene_command sn (scene_authority sn) b).1 in
  let st := {| sv_db := db'; sv_eph := eph' |} in
  description_right sn en → enrollment_signed sn en → enrollment_timely sn en tokens g.(gr_expires_at) st →
  ∃ claims eph2 db3,
    verify_access_token tokens.(tk_access_token) sn.(sn_config).(cf_token_secret) en.(en_auth_now) = Some claims
    ∧ claims.(acl_account_id) = sn.(sn_account).(ac_account_id)
    ∧ account_session_active db3 claims.(acl_account_session_id) claims.(acl_account_id) en.(en_auth_now) = true
    ∧ route_register_device sn.(sn_config) db' st
        (enroll_request sn en (g.(gr_grant_id) ++ str "." ++ sn.(sn_finish_draws).(dw_grant_secret)))
        (enroll_http sn en tokens) en.(en_draws) en.(en_auth_now) en.(en_sig_now) en.(en_now)
      = (Ok (true, device_view (enroll_command sn en claims (enroll_proof sn en)).(rg_device)),
         {| sv_db := db3; sv_eph := eph2 |})
    ∧ db3.(core).(db_devices) !! sn.(sn_request).(lq_device_id)
      = Some (enroll_command sn en claims (enroll_proof sn en)).(rg_device).
Proof.
  intros Hf Hg Hpw Ht Hd Hs Hfac Hfin tokens st Hdesc Hsigned Htimely.
  pose proof (scene_command_trust sn _ b Hf) as Htrust.
  destruct (completed_login_leaves _ _ _ _ Hfin Hg Htrust) as (Hgr & Hses & Hch).
  destruct (scene_command_grant sn _ b Hf) as (g' & Hg' & Heq). assert (g = g') as -> by congruence.
  assert (Hgid : g'.(gr_grant_id) = sn.(sn_finish_draws).(dw_grant_id)) by by rewrite Heq.
  pose proof Htimely as (T1 & T2 & T3 & T4 & T5 & T6 & T7 & _).
  destruct (bundle_authenticates sn.(sn_config) sn.(sn_finish_draws) (rk_account_id (la_challenge (scene_authority sn)))
              (as_mfa_verified (fc_account_session (scene_command sn (scene_authority sn) b).2)) sn.(sn_finish_now) db'
              en.(en_auth_now)) as (claims & Hcl & Hacc & _ & Hcs); [exact Hses|exact T1|exact T2|].
  rewrite (sf_account _ _ _ _ Hf) in Hacc.
  destruct (enroll_headers sn en tokens) as (Hauth & _).
  assert (Hcl' : authenticate sn.(sn_config) db' (enroll_http sn en tokens).(hr_headers) en.(en_auth_now) = Ok claims).
  { erewrite authenticate_header; [exact Hcl|]. by rewrite Hauth, lookup_singleton_eq. }
  pose proof (authenticate_ok _ _ _ _ _ _ Hauth Hcl') as [Hver Hact].
  assert (Hdne : sn.(sn_request).(lq_device_id) ≠ []) by apply Hs.
  destruct (enroll_verified sn en tokens eph' Hsigned Hdne T5) as [eph2 Hver2].
  pose proof Hdesc as (Hval & Hkey & (G1 & G2 & G3) & (S1 & S2 & S3) & _).
  assert (Hblank : is_blank sn.(sn_finish_draws).(dw_grant_id) = false) by apply Hd.
  assert (Hnodev : db'.(core).(db_devices) !! sn.(sn_request).(lq_device_id) = None).
  { pose proof (finish_login_carries (scene_logged sn) (scene_command sn (scene_authority sn) b).2
                  (login_command_clean _ _ _ _ _ _ _ _)) as [Hdev _ _ _ _ _ _].
    rewrite Hfin in Hdev. cbn [snd] in Hdev. rewrite Hdev. apply Hpw. }
  destruct (register_device_creates db' (enroll_command sn en claims (enroll_proof sn en)) g'
              en.(en_draws).(dd_trusted_device_id) (device_audit_entry (en.(en_draws).(dd_audit_id) 2%nat)
                claims.(acl_account_id) sn.(sn_request).(lq_device_id) sn.(sn_request).(lq_device_id)
                (str "trusted_device_added") ∅ en.(en_request_id) en.(en_now))) as (db3 & Hreg & Hin & Hsame); try done.
  - cbn [enroll_command registration_command rg_grant_id]. by rewrite <-Hgid.
  - by apply enroll_command_valid.
  - by apply (scene_grant_valid sn en claims g' b).
  - by apply (enroll_audits_valid sn en tokens g'.(gr_expires_at) st).
  - by apply (scene_holds_grant sn en claims b g' db').
  - by rewrite Heq.
  - cbn [enroll_command registration_command rg_account_session_id rg_account_id rg_now].
    unfold account_session_active. rewrite Hcs. cbn -[scene_authority] in Hses. rewrite Hses. unfold active_account_session.
    cbn -[scene_authority Z.ltb]. rewrite Hacc, (sf_account _ _ _ _ Hf), !bool_decide_eq_true_2 by done.
    by rewrite (proj2 (Z.ltb_lt _ _)).
  - intros x Het Hx. cbn [enroll_command registration_command rg_account_session_id] in Hx. rewrite Hcs in Hx.
    cbn -[scene_authority] in Hses. rewrite Hses in Hx. injection Hx as <-. by apply (scene_session_mfa sn b g').
  - exists claims, eph2, db3. split_and!; try done.
    + unfold account_session_active in *. by rewrite Hsame.
    + unfold route_register_device. cbn [sv_db]. rewrite Hcl'. cbn [map_err mbind result_bind].
      change (validate_device_request (enroll_request sn en (g'.(gr_grant_id) ++ str "." ++ sn.(sn_finish_draws).(dw_grant_secret))))
        with (validate_device_request (enroll_request sn en [])).
      rewrite Hval. cbn [mbind result_bind enroll_request rd_device_enrollment_grant ok_or].
      rewrite Hgid, parse_grant_token by done. cbn [mbind result_bind]. cbn [enroll_request rd_public_key]. rewrite Hkey.
      cbn [ok_or mbind result_bind]. cbn [enroll_request rd_device_id]. rewrite Hacc. unfold st at 1. cbn [sv_eph]. rewrite Hver2.
      unfold st. cbn [set_eph sv_db].
      match goal with |- context [register_device db' ?c] =>
        change (register_device db' c) with (register_device db' (enroll_command sn en claims (enroll_proof sn en))) end.
      by rewrite Hreg.
Qed.


(** C3: From the password to a registered device: whoever logs in on a device
    that the server does not know, as in the login of a scene, and then presents
    the grant of the login with a description of the device, signed with its key
    and in time, gets the device registered; the token of the login and the key
    of the device then authorize it towards the signalling service. *)
Theorem enrollment_completes `{!PrimitiveLaws P} `{!ApiTextLaws T} sn :
  sn.(sn_config).(cf_service_token) ≠ [] → password_right sn → times_right sn → draws_right sn → signature_right sn → factor_right sn →
  ∃ x st1 tokens grant expires_at st2,
    login sn.(sn_config) sn.(sn_server) sn.(sn_request) sn.(sn_peer) sn.(sn_headers) sn.(sn_request_id)
      sn.(sn_draws) sn.(sn_now) sn.(sn_failed_now) = (Ok x, st1)
    ∧ login_finish sn.(sn_config) st1 (client_finish sn x) finish_target sn.(sn_peer) (client_headers sn) sn.(sn_body)
        sn.(sn_finish_request_id) sn.(sn_finish_draws) sn.(sn_finish_now) sn.(sn_sig_now)
      = (Ok (tokens, Some (grant, expires_at)), st2)
    ∧ ∀ en, description_right sn en → enrollment_signed sn en → enrollment_timely sn en tokens expires_at st2 →
        ∃ st3 d, route_register_device sn.(sn_config) st2.(sv_db) st2 (enroll_request sn en grant)
            (enroll_http sn en tokens) en.(en_draws) en.(en_auth_now) en.(en_sig_now) en.(en_now)
          = (Ok (true, device_view d), st3)
          ∧ st3.(sv_db).(core).(db_devices) !! sn.(sn_request).(lq_device_id) = Some d
          ∧ d.(dv_account_id) = sn.(sn_account).(ac_account_id)
          ∧ d.(dv_public_key) = ed25519_public sn.(sn_private_key)
          ∧ is_ok (signal_device_auth sn.(sn_config) st3.(sv_db)
              {[str "authorization" := str "Bearer " ++ sn.(sn_config).(cf_service_token)]}
              {| dq_access_token := tokens.(tk_access_token); dq_account_id := sn.(sn_account).(ac_account_id);
                 dq_device_id := d.(dv_device_id); dq_public_key_id := d.(dv_public_key_id);
                 dq_public_key_version := 1 |} en.(en_auth_now)) = true.
Proof.
  intros Hsvc Hpw Ht Hd Hs Hfac. destruct (login_answers sn Hpw Ht Hd Hs) as (eph & Hlogin & Hnonces).
  pose proof (scene_challenge sn Hpw Ht) as Hf. set (b := rk_operation_binding_hash _) in Hf.
  destruct (scene_signature sn _ eph b _ Hf Hs Hnonces) as [eph' Hsig].
  destruct (scene_finishes sn b Hf Hpw Ht Hd Hs Hfac) as [db' Hfin].
  destruct (scene_command_grant sn _ b Hf) as (g & Hg & Heg).
  eexists _, _, (scene_command sn (scene_authority sn) b).1, _, _, _. split; [exact Hlogin|]. split.
  { rewrite (login_finish_tokens sn b eph eph' db' Hf Hpw Hd Hfac) by (done || apply Hs).
    unfold grant_token. rewrite Hg. reflexivity. }
  intros en Hdesc Hsigned Htimely. cbn [sv_db].
  destruct (scene_enrolls sn b g db' eph' en Hf Hg Hpw Ht Hd Hs Hfac Hfin Hdesc Hsigned Htimely)
    as (claims & eph2 & db3 & Hver & Hacc & Hact & Hroute & Hin).
  eexists _, _. split; [exact Hroute|]. cbn [sv_db]. split_and!; try done.
  rewrite <-Hacc. by apply signal_authorizes.
Qed.
End enrollment.

(** ** Example

    The device of the login of [ex_scene] is registered. *)

Section example.
#[local] Existing Instance toy.
#[local] Existing Instance toy_factors.
#[local] Existing Instance toy_text.
#[local] Existing Instance toy_auth.

Definition ex_enroll_canonical : bytes :=
  match canonical_api_request_bytes (str "POST") (str "/v1/devices") (sha256 []) (str "request-3") (str "device-1")
          (str "account-1") 400 (str "nonce-3") with
  | Ok bs => bs | Err _ => [] end.

Definition ex_enrollment : EnrollmentScene := {|
  en_display_name := str " Desk "; en_platform := PUbuntu; en_os_version := str "26.04"; en_arch := X86_64;
  en_capabilities := {| cap_controller := true; cap_controlled := true; cap_file_transfer := false;
                        cap_unattended := false |};
  en_public_key := encode_hex ex_private_key; en_target := str "/v1/devices"; en_headers := ∅;
  en_timestamp := str "400"; en_timestamp_value := 400; en_nonce := str "nonce-3"; en_body := [];
  en_body_hash := sha256 []; en_canonical := ex_enroll_canonical; en_request_id := str "request-3";
  en_draws := {| dd_public_key_id := str "key-1"; dd_trusted_device_id := str "trust-1";
                 dd_audit_id n := str "c-audit" ++ be_bytes 1 (48 + Z.of_nat n) |};
  en_auth_now := 400; en_sig_now := 400; en_now := 410 |}.

(** The two requests of the login, one after the other. *)
Definition ex_login_both : result AuthError (TokenResponse * option (rstr * Z)) * Server :=
  match login ex_config ex_scene.(sn_server) ex_scene.(sn_request) ex_scene.(sn_peer) ex_scene.(sn_headers)
          ex_scene.(sn_request_id) ex_scene.(sn_draws) ex_scene.(sn_now) ex_scene.(sn_failed_now) with
  | (Ok x, st) => login_finish ex_config st (client_finish ex_scene x) finish_target ex_scene.(sn_peer)
      (client_headers ex_scene) ex_scene.(sn_body) ex_scene.(sn_finish_request_id) ex_scene.(sn_finish_draws)
      ex_scene.(sn_finish_now) ex_scene.(sn_sig_now)
  | (Err e, st) => (Err e, st)
  end.

#[local] Instance enrollment_timely_dec sn en tokens expires_at st :
  Decision (enrollment_timely sn en tokens expires_at st).
Proof. unfold enrollment_timely. apply _. Defined.

Lemma ex_enrollment_timely tokens grant expires_at st :
  ex_login_both = (Ok (tokens, Some (grant, expires_at)), st) →
  enrollment_timely ex_scene ex_enrollment tokens expires_at st.
Proof.
  assert (H : match ex_login_both with
              | (Ok (tokens, Some (_, e)), st) => bool_decide (enrollment_timely ex_scene ex_enrollment tokens e st)
              | _ => false end = true) by (vm_compute; reflexivity).
  intros E. rewrite E in H. by apply bool_decide_eq_true in H.
Qed.

Lemma ex_described : description_right ex_scene ex_enrollment.
Proof.
  unfold description_right, spelt. split_and!; try (vm_compute; reflexivity); try (vm_compute; discriminate).
  repeat (apply Forall_cons; split; [vm_compute; reflexivity|]). apply Forall_nil. exact I.
Qed.

Lemma ex_enrollment_signed : enrollment_signed ex_scene ex_enrollment.
Proof. unfold enrollment_signed. split_and!; try (vm_compute; reflexivity); vm_compute; discriminate. Qed.

Lemma enrollment_completes_witness :
  ∃ tokens grant expires_at st2 st3 d,
    ex_login_both = (Ok (tokens, Some (grant, expires_at)), st2)
    ∧ route_register_device ex_config st2.(sv_db) st2 (enroll_request ex_scene ex_enrollment grant)
        (enroll_http ex_scene ex_enrollment tokens) ex_enrollment.(en_draws) 400 400 410
      = (Ok (true, device_view d), st3)
    ∧ d.(dv_account_id) = str "account-1".
Proof.
  destruct (enrollment_completes (P := toy) (F := toy_factors) (T := toy_text)
              (PrimitiveLaws0 := toy_laws) (ApiTextLaws0 := toy_text_laws) ex_scene)
    as (x & st1 & tokens & grant & e & st2 & H1 & H2 & H3).
  - discriminate.
  - unfold password_right. split_and!; try (vm_compute; reflexivity); vm_compute; discriminate.
  - unfold times_right. split_and!; vm_compute; try reflexivity; discriminate.
  - unfold draws_right. split_and!; try (vm_compute; reflexivity); try (vm_compute; discriminate).
    + apply (bool_decide_unpack _). vm_compute. exact I.
    + repeat constructor; vm_compute; reflexivity.
  - unfold signature_right. split_and!; try (vm_compute; reflexivity); vm_compute; discriminate.
  - unfold factor_right. cbn [sn_factor ex_scene]. split_and!; [vm_compute; reflexivity|by right|discriminate|].
    vm_compute; reflexivity.
  - assert (Hb : ex_login_both = (Ok (tokens, Some (grant, e)), st2)).
    { unfold ex_login_both. change ex_config with ex_scene.(sn_config). rewrite H1. exact H2. }
    destruct (H3 ex_enrollment ex_described ex_enrollment_signed (ex_enrollment_timely _ _ _ _ Hb))
      as (st3 & d & Hr & _ & Ha & _).
    exists tokens, grant, e, st2, st3, d. split; [exact Hb|]. split; [exact Hr|]. exact Ha.
Defined.
End example.
