(* ===== verification/RecordStore.v ===== *)
(** * The record store

    Models crates/remote-store: the records of the frozen schema (model.rs, the table
    list of lib.rs) and the repository that keeps them in memory (memory.rs,
    repository.rs). A field [f] of a record type [XRecord] is [x'f]; a constructor [C]
    of an enumeration [E] is [E_C]. Times are [i64], counters and ports unsigned of
    their width; neither is computed with here. *)

From stdpp Require Import sorting.
From S2P Require Import Prelude Text.

(** ** Records *)

(** [serde_json::Value]; a number is its literal. *)
Inductive JsonValue :=
| JNull | JBool (b : bool) | JNumber (literal : rstr) | JString (s : rstr) | JArray (l : list JsonValue)
| JObject (fields : list (rstr * JsonValue)).

Definition PasswordHash : Type := rstr.

Definition Sha256Digest : Type := bytes.

Definition EncryptedValue : Type := bytes.

Definition OpaqueRecord : Type := bytes.

Definition PublicKey : Type := bytes.

Definition ChaCha20Poly1305Nonce : Type := bytes.

Definition SignatureBytes : Type := bytes.

Definition JsonObject : Type := gmap rstr JsonValue.

Definition JsonArray : Type := list JsonValue.

Inductive AccountStatus := AccountStatus_Active | AccountStatus_Disabled | AccountStatus_Locked.

Inductive Platform := Platform_Windows | Platform_Ubuntu | Platform_Ios.

Inductive Architecture := Architecture_X86_64 | Architecture_Aarch64.

Inductive DeviceStatus := DeviceStatus_Online | DeviceStatus_Offline | DeviceStatus_Busy | DeviceStatus_Suspended
  | DeviceStatus_Disabled | DeviceStatus_Unbound.

Inductive PolicyValue := PolicyValue_Inherit | PolicyValue_Allow | PolicyValue_Deny.

Inductive PromptPolicy := PromptPolicy_Inherit | PromptPolicy_Require | PromptPolicy_NoPrompt.

Inductive TransportPath := TransportPath_LanDirect | TransportPath_UdpP2p | TransportPath_QuicRelay
  | TransportPath_Tls443Relay.

Inductive SessionStatus := SessionStatus_PendingCodeVerification | SessionStatus_PendingUnattendedVerification
  | SessionStatus_CodeVerified | SessionStatus_UnattendedVerified | SessionStatus_WaitingApproval
  | SessionStatus_Accepted | SessionStatus_Connected | SessionStatus_Degraded | SessionStatus_Reconnecting
  | SessionStatus_Cancelled | SessionStatus_Closed | SessionStatus_Rejected | SessionStatus_Failed.

Inductive AuthMethod := AuthMethod_TemporaryCode | AuthMethod_Unattended | AuthMethod_AccountPrompt.

Inductive CandidateRole := CandidateRole_Controller | CandidateRole_Controlled.

Inductive CandidateKind := CandidateKind_LanDirect | CandidateKind_UdpP2p | CandidateKind_QuicRelay
  | CandidateKind_Tls443Relay.

Inductive CandidateSource := CandidateSource_UdpObserved | CandidateSource_LocalInterface
  | CandidateSource_RelayAllocated | CandidateSource_StaticConfig.

Inductive CandidatePairStatus := CandidatePairStatus_Probing | CandidatePairStatus_Selected
  | CandidatePairStatus_Degraded | CandidatePairStatus_Closed.

Inductive RelayNodeStatus := RelayNodeStatus_Active | RelayNodeStatus_Draining | RelayNodeStatus_Disabled
  | RelayNodeStatus_Quarantined.

Inductive ChallengeStatus := ChallengeStatus_Active | ChallengeStatus_Consumed | ChallengeStatus_Expired
  | ChallengeStatus_Replaced.

Inductive ReleaseChannel := ReleaseChannel_Stable | ReleaseChannel_Beta | ReleaseChannel_Internal
  | ReleaseChannel_Private.

Inductive ReleaseArtifactStatus := ReleaseArtifactStatus_Draft | ReleaseArtifactStatus_Published
  | ReleaseArtifactStatus_Revoked.

Inductive UpdateEventType := UpdateEventType_Checked | UpdateEventType_Downloaded | UpdateEventType_Verified
  | UpdateEventType_Failed.

Inductive FileTransferDirection := FileTransferDirection_ControllerToControlled
  | FileTransferDirection_ControlledToController.

Inductive FileTransferStatus := FileTransferStatus_Requested | FileTransferStatus_Accepted
  | FileTransferStatus_Rejected | FileTransferStatus_Transferring | FileTransferStatus_Completed
  | FileTransferStatus_Failed | FileTransferStatus_Cancelled.

Record EffectivePermissions := {
  effective_permissions'remote_desktop : bool;
  effective_permissions'input_control : bool;
  effective_permissions'clipboard : bool;
  effective_permissions'file_transfer : bool;
  effective_permissions'unattended : bool;
  effective_permissions'privacy_screen : bool;
  effective_permissions'block_local_input : bool;
  effective_permissions'require_prompt : bool;
  effective_permissions'allow_relay : bool }.

Record LayeredPermissions := {
  layered_permissions'allow_remote_desktop : PolicyValue;
  layered_permissions'allow_input_control : PolicyValue;
  layered_permissions'allow_clipboard : PolicyValue;
  layered_permissions'allow_file_transfer : PolicyValue;
  layered_permissions'allow_unattended : PolicyValue;
  layered_permissions'allow_privacy_screen : PolicyValue;
  layered_permissions'allow_block_local_input : PolicyValue;
  layered_permissions'allow_relay : PolicyValue;
  layered_permissions'require_prompt : PromptPolicy;
  layered_permissions'allow_remote_reboot : PolicyValue }.

Record AccountRecord := {
  account'account_id : rstr;
  account'email : rstr;
  account'display_name : rstr;
  account'password_hash : PasswordHash;
  account'status : AccountStatus;
  account'created_at_epoch_millis : Z;
  account'updated_at_epoch_millis : Z }.

Record AccountSessionRecord := {
  account_session'account_session_id : rstr;
  account_session'account_id : rstr;
  account_session'refresh_token_hash : Sha256Digest;
  account_session'device_label : rstr;
  account_session'ip_address : option rstr;
  account_session'user_agent : option rstr;
  account_session'expires_at_epoch_millis : Z;
  account_session'revoked_at_epoch_millis : option Z;
  account_session'revoked_reason : option rstr;
  account_session'created_at_epoch_millis : Z;
  account_session'updated_at_epoch_millis : Z }.

Record AccountMfaFactorRecord := {
  account_mfa_factor'factor_id : rstr;
  account_mfa_factor'account_id : rstr;
  account_mfa_factor'factor_type : rstr;
  account_mfa_factor'encrypted_secret : EncryptedValue;
  account_mfa_factor'status : rstr;
  account_mfa_factor'last_used_at_epoch_millis : option Z;
  account_mfa_factor'created_at_epoch_millis : Z;
  account_mfa_factor'disabled_at_epoch_millis : option Z }.

Record MfaRecoveryCodeDeliveryRecord := {
  mfa_recovery_code_delivery'delivery_id : rstr;
  mfa_recovery_code_delivery'account_id : rstr;
  mfa_recovery_code_delivery'account_session_id : rstr;
  mfa_recovery_code_delivery'factor_id : rstr;
  mfa_recovery_code_delivery'idempotency_key_hash : Sha256Digest;
  mfa_recovery_code_delivery'finish_request_binding_hash : Sha256Digest;
  mfa_recovery_code_delivery'client_ephemeral_public_key : PublicKey;
  mfa_recovery_code_delivery'server_ephemeral_public_key : PublicKey;
  mfa_recovery_code_delivery'nonce : ChaCha20Poly1305Nonce;
  mfa_recovery_code_delivery'ciphertext : EncryptedValue;
  mfa_recovery_code_delivery'recovery_code_count : Z;
  mfa_recovery_code_delivery'created_at_epoch_millis : Z;
  mfa_recovery_code_delivery'expires_at_epoch_millis : Z;
  mfa_recovery_code_delivery'acknowledged_at_epoch_millis : option Z }.

Record AccountRecoveryCodeRecord := {
  account_recovery_code'recovery_code_id : rstr;
  account_recovery_code'account_id : rstr;
  account_recovery_code'code_hash : Sha256Digest;
  account_recovery_code'status : rstr;
  account_recovery_code'used_at_epoch_millis : option Z;
  account_recovery_code'created_at_epoch_millis : Z;
  account_recovery_code'expires_at_epoch_millis : option Z }.

Record AccountRiskChallengeRecord := {
  account_risk_challenge'risk_challenge_id : rstr;
  account_risk_challenge'account_id : rstr;
  account_risk_challenge'device_id : option rstr;
  account_risk_challenge'purpose : rstr;
  account_risk_challenge'operation_binding_hash : Sha256Digest;
  account_risk_challenge'risk_level : rstr;
  account_risk_challenge'required_methods : JsonArray;
  account_risk_challenge'status : rstr;
  account_risk_challenge'attempts_remaining : Z;
  account_risk_challenge'ip_address : option rstr;
  account_risk_challenge'user_agent : option rstr;
  account_risk_challenge'expires_at_epoch_millis : Z;
  account_risk_challenge'created_at_epoch_millis : Z;
  account_risk_challenge'verified_at_epoch_millis : option Z;
  account_risk_challenge'consumed_at_epoch_millis : option Z }.

Record DeviceEnrollmentGrantRecord := {
  device_enrollment_grant'grant_id : rstr;
  device_enrollment_grant'grant_secret_hash : Sha256Digest;
  device_enrollment_grant'account_id : rstr;
  device_enrollment_grant'device_id : rstr;
  device_enrollment_grant'device_public_key_fingerprint : Sha256Digest;
  device_enrollment_grant'login_challenge_id : rstr;
  device_enrollment_grant'login_challenge_binding_hash : Sha256Digest;
  device_enrollment_grant'trust_proof_type : option rstr;
  device_enrollment_grant'trust_level : option rstr;
  device_enrollment_grant'establish_trust : bool;
  device_enrollment_grant'protocol_version : Z;
  device_enrollment_grant'issued_account_session_id : rstr;
  device_enrollment_grant'issued_at_epoch_millis : Z;
  device_enrollment_grant'expires_at_epoch_millis : Z;
  device_enrollment_grant'consumed_at_epoch_millis : option Z;
  device_enrollment_grant'created_at_epoch_millis : Z }.

Record TrustedControllerDeviceRecord := {
  trusted_controller_device'trusted_device_id : rstr;
  trusted_controller_device'account_id : rstr;
  trusted_controller_device'controller_device_id : rstr;
  trusted_controller_device'device_fingerprint_hash : Sha256Digest;
  trusted_controller_device'trust_level : rstr;
  trusted_controller_device'status : rstr;
  trusted_controller_device'trust_proof_type : rstr;
  trusted_controller_device'created_at_epoch_millis : Z;
  trusted_controller_device'last_used_at_epoch_millis : option Z;
  trusted_controller_device'expires_at_epoch_millis : Z;
  trusted_controller_device'revoked_at_epoch_millis : option Z }.

Record DeviceRecord := {
  device'device_id : rstr;
  device'account_id : rstr;
  device'primary_organization_id : option rstr;
  device'display_name : rstr;
  device'platform : Platform;
  device'os_version : rstr;
  device'arch : Architecture;
  device'public_key_id : rstr;
  device'public_key : PublicKey;
  device'public_key_version : Z;
  device'public_key_revoked_at_epoch_millis : option Z;
  device'status : DeviceStatus;
  device'unattended_enabled : bool;
  device'last_seen_epoch_millis : option Z;
  device'created_at_epoch_millis : Z;
  device'updated_at_epoch_millis : Z }.

Record DevicePolicyRecord := {
  device_policy'device_id : rstr;
  device_policy'permissions : EffectivePermissions;
  device_policy'allow_remote_reboot : bool;
  device_policy'last_high_risk_allow_step_up_challenge_id : option rstr;
  device_policy'last_high_risk_allow_step_up_verified_at_epoch_millis : option Z;
  device_policy'created_at_epoch_millis : Z;
  device_policy'updated_at_epoch_millis : Z }.

Record DeviceAccessRuleRecord := {
  device_access_rule'device_access_rule_id : rstr;
  device_access_rule'controlled_device_id : rstr;
  device_access_rule'controller_account_id : option rstr;
  device_access_rule'controller_device_id : option rstr;
  device_access_rule'rule_type : rstr;
  device_access_rule'reason : option rstr;
  device_access_rule'created_by_account_id : rstr;
  device_access_rule'created_at_epoch_millis : Z;
  device_access_rule'expires_at_epoch_millis : option Z }.

Record DeviceLocalSecuritySettingRecord := {
  device_local_security_setting'device_id : rstr;
  device_local_security_setting'allow_privacy_screen : bool;
  device_local_security_setting'allow_block_local_input : bool;
  device_local_security_setting'local_escape_hint_enabled : bool;
  device_local_security_setting'privacy_screen_supported : bool;
  device_local_security_setting'block_local_input_supported : bool;
  device_local_security_setting'last_capability_probe_at_epoch_millis : option Z;
  device_local_security_setting'last_allow_step_up_challenge_id : option rstr;
  device_local_security_setting'last_allow_step_up_verified_at_epoch_millis : option Z;
  device_local_security_setting'created_at_epoch_millis : Z;
  device_local_security_setting'updated_at_epoch_millis : Z }.

Record ApiIdempotencyKeyRecord := {
  api_idempotency_key'idempotency_key : rstr;
  api_idempotency_key'account_id : rstr;
  api_idempotency_key'device_id : rstr;
  api_idempotency_key'method : rstr;
  api_idempotency_key'path : rstr;
  api_idempotency_key'body_hash : Sha256Digest;
  api_idempotency_key'request_id : rstr;
  api_idempotency_key'resource_type : option rstr;
  api_idempotency_key'resource_id : option rstr;
  api_idempotency_key'response_status : option Z;
  api_idempotency_key'response_body_hash : option Sha256Digest;
  api_idempotency_key'expires_at_epoch_millis : Z;
  api_idempotency_key'created_at_epoch_millis : Z }.

Record VerificationCodeRecord := {
  verification_code'code_id : rstr;
  verification_code'device_id : rstr;
  verification_code'code_verifier_record : OpaqueRecord;
  verification_code'code_verifier_salt : bytes;
  verification_code'proof_scheme : rstr;
  verification_code'active_challenge_id : option rstr;
  verification_code'active_session_id : option rstr;
  verification_code'server_nonce : option bytes;
  verification_code'challenge_status : ChallengeStatus;
  verification_code'challenge_issued_at_epoch_millis : option Z;
  verification_code'challenge_expires_at_epoch_millis : option Z;
  verification_code'expires_at_epoch_millis : Z;
  verification_code'attempts_remaining : Z;
  verification_code'consumed_at_epoch_millis : option Z;
  verification_code'created_at_epoch_millis : Z }.

Record UnattendedSecretRecord := {
  unattended_secret'unattended_secret_id : rstr;
  unattended_secret'device_id : rstr;
  unattended_secret'credential_record : OpaqueRecord;
  unattended_secret'credential_salt : bytes;
  unattended_secret'proof_scheme : rstr;
  unattended_secret'version : Z;
  unattended_secret'enabled : bool;
  unattended_secret'created_at_epoch_millis : Z;
  unattended_secret'rotated_at_epoch_millis : option Z;
  unattended_secret'disabled_at_epoch_millis : option Z }.

Record AccessPolicyRecord := {
  access_policy'access_policy_id : rstr;
  access_policy'scope_type : rstr;
  access_policy'scope_id : rstr;
  access_policy'name : rstr;
  access_policy'priority : Z;
  access_policy'status : rstr;
  access_policy'conditions : JsonObject;
  access_policy'effects : JsonObject;
  access_policy'created_by_account_id : rstr;
  access_policy'updated_by_account_id : rstr;
  access_policy'created_at_epoch_millis : Z;
  access_policy'updated_at_epoch_millis : Z }.

Record AccessPolicyAssignmentRecord := {
  access_policy_assignment'assignment_id : rstr;
  access_policy_assignment'access_policy_id : rstr;
  access_policy_assignment'target_type : rstr;
  access_policy_assignment'target_id : rstr;
  access_policy_assignment'status : rstr;
  access_policy_assignment'created_by_account_id : rstr;
  access_policy_assignment'disabled_at_epoch_millis : option Z;
  access_policy_assignment'deleted_at_epoch_millis : option Z;
  access_policy_assignment'created_at_epoch_millis : Z }.

Record PolicyEvaluationRecord := {
  policy_evaluation'policy_evaluation_id : rstr;
  policy_evaluation'account_id : rstr;
  policy_evaluation'controller_device_id : rstr;
  policy_evaluation'controlled_device_id : rstr;
  policy_evaluation'session_id : option rstr;
  policy_evaluation'request_type : rstr;
  policy_evaluation'access_decision : rstr;
  policy_evaluation'anti_abuse_decision : rstr;
  policy_evaluation'session_access_decision : rstr;
  policy_evaluation'effective_permissions : EffectivePermissions;
  policy_evaluation'permissions_digest : Sha256Digest;
  policy_evaluation'matched_policy_ids : JsonArray;
  policy_evaluation'abuse_actions : JsonArray;
  policy_evaluation'risk_challenge_id : option rstr;
  policy_evaluation'cooldown_until_epoch_millis : option Z;
  policy_evaluation'user_warnings : JsonArray;
  policy_evaluation'deny_reason : option rstr;
  policy_evaluation'metadata : JsonObject;
  policy_evaluation'created_at_epoch_millis : Z }.

Record SessionRecord := {
  session'session_id : rstr;
  session'controller_account_id : rstr;
  session'controller_device_id : rstr;
  session'controlled_device_id : rstr;
  session'auth_method : AuthMethod;
  session'status : SessionStatus;
  session'permissions : EffectivePermissions;
  session'permissions_digest : Sha256Digest;
  session'permissions_digest_last_changed_at_epoch_millis : Z;
  session'policy_evaluation_id : rstr;
  session'relay_token_epoch : Z;
  session'session_expires_at_epoch_millis : Z;
  session'transport_path : option TransportPath;
  session'selected_candidate_pair_id : option rstr;
  session'relay_node_id : option rstr;
  session'started_at_epoch_millis : option Z;
  session'ended_at_epoch_millis : option Z;
  session'created_at_epoch_millis : Z;
  session'updated_at_epoch_millis : Z }.

Record RemoteRebootRequestRecord := {
  remote_reboot_request'reboot_request_id : rstr;
  remote_reboot_request'session_id : rstr;
  remote_reboot_request'controller_account_id : rstr;
  remote_reboot_request'controller_device_id : rstr;
  remote_reboot_request'controlled_device_id : rstr;
  remote_reboot_request'status : rstr;
  remote_reboot_request'api_request_hash : Sha256Digest;
  remote_reboot_request'api_request_hash_status : rstr;
  remote_reboot_request'mode : rstr;
  remote_reboot_request'reason_hash : Sha256Digest;
  remote_reboot_request'countdown_seconds : Z;
  remote_reboot_request'reconnect_after_reboot : bool;
  remote_reboot_request'allow_remote_reboot : bool;
  remote_reboot_request'allow_remote_reboot_last_changed_at_epoch_millis : Z;
  remote_reboot_request'step_up_challenge_id : rstr;
  remote_reboot_request'step_up_verified_at_epoch_millis : Z;
  remote_reboot_request'step_up_expires_at_epoch_millis : Z;
  remote_reboot_request'idempotency_key_hash : Sha256Digest;
  remote_reboot_request'policy_evaluation_id : rstr;
  remote_reboot_request'policy_evaluated_at_epoch_millis : Z;
  remote_reboot_request'permissions_digest : Sha256Digest;
  remote_reboot_request'permissions_digest_last_changed_at_epoch_millis : Z;
  remote_reboot_request'auto_resume_consent : rstr;
  remote_reboot_request'consent_at_epoch_millis : option Z;
  remote_reboot_request'consent_controlled_device_id : option rstr;
  remote_reboot_request'consent_local_user_principal_hash : option Sha256Digest;
  remote_reboot_request'consent_revoked_at_epoch_millis : option Z;
  remote_reboot_request'consent_revoked_by_actor_type : option rstr;
  remote_reboot_request'consent_revoked_reason : option rstr;
  remote_reboot_request'local_consent_token_hash : option Sha256Digest;
  remote_reboot_request'auto_resume_consumed_at_epoch_millis : option Z;
  remote_reboot_request'reboot_resume_token_id : option rstr;
  remote_reboot_request'reboot_resume_token_secret_hash : option Sha256Digest;
  remote_reboot_request'reboot_resume_token_consumed_at_epoch_millis : option Z;
  remote_reboot_request'reboot_resume_token_invalidated_at_epoch_millis : option Z;
  remote_reboot_request'reboot_resume_token_invalidation_reason : option rstr;
  remote_reboot_request'resume_expires_at_epoch_millis : option Z;
  remote_reboot_request'created_at_epoch_millis : Z;
  remote_reboot_request'expires_at_epoch_millis : Z;
  remote_reboot_request'requested_at_epoch_millis : Z;
  remote_reboot_request'accepted_at_epoch_millis : option Z;
  remote_reboot_request'executed_at_epoch_millis : option Z;
  remote_reboot_request'cancelled_at_epoch_millis : option Z;
  remote_reboot_request'failure_reason : option rstr }.

Record ConnectionCandidateRecord := {
  connection_candidate'candidate_id : rstr;
  connection_candidate'session_id : rstr;
  connection_candidate'device_id : rstr;
  connection_candidate'role : CandidateRole;
  connection_candidate'kind : CandidateKind;
  connection_candidate'endpoint : rstr;
  connection_candidate'source : CandidateSource;
  connection_candidate'observe_result_id : option rstr;
  connection_candidate'priority : Z;
  connection_candidate'rtt_ms : option Z;
  connection_candidate'loss_ppm : option Z;
  connection_candidate'jitter_ms : option Z;
  connection_candidate'relay_node_id : option rstr;
  connection_candidate'created_at_epoch_millis : Z }.

Record ConnectionCandidatePairRecord := {
  connection_candidate_pair'candidate_pair_id : rstr;
  connection_candidate_pair'session_id : rstr;
  connection_candidate_pair'controller_candidate_id : rstr;
  connection_candidate_pair'controlled_candidate_id : rstr;
  connection_candidate_pair'selected_transport_path : TransportPath;
  connection_candidate_pair'relay_node_id : option rstr;
  connection_candidate_pair'selected_at_epoch_millis : option Z;
  connection_candidate_pair'rtt_ms : option Z;
  connection_candidate_pair'loss_ppm : option Z;
  connection_candidate_pair'jitter_ms : option Z;
  connection_candidate_pair'status : CandidatePairStatus;
  connection_candidate_pair'created_at_epoch_millis : Z }.

Record SessionEventRecord := {
  session_event'event_id : rstr;
  session_event'session_id : rstr;
  session_event'event_type : rstr;
  session_event'actor_type : rstr;
  session_event'actor_account_id : option rstr;
  session_event'actor_device_id : option rstr;
  session_event'actor_role : rstr;
  session_event'actor_service : option rstr;
  session_event'reason : option rstr;
  session_event'metadata : JsonObject;
  session_event'created_at_epoch_millis : Z }.

Record RelayNodeRecord := {
  relay_node'relay_node_id : rstr;
  relay_node'region : rstr;
  relay_node'country : rstr;
  relay_node'provider : rstr;
  relay_node'public_endpoint : rstr;
  relay_node'status : RelayNodeStatus;
  relay_node'max_sessions : Z;
  relay_node'active_sessions : Z;
  relay_node'supports_quic : bool;
  relay_node'supports_tls_443 : bool;
  relay_node'data_residency_class : option rstr;
  relay_node'created_at_epoch_millis : Z;
  relay_node'updated_at_epoch_millis : Z }.

Record RelaySessionStatRecord := {
  relay_session_stat'relay_session_stat_id : rstr;
  relay_session_stat'session_id : rstr;
  relay_session_stat'relay_node_id : rstr;
  relay_session_stat'region : rstr;
  relay_session_stat'region_policy_id : option rstr;
  relay_session_stat'region_policy_version : option Z;
  relay_session_stat'transport : TransportPath;
  relay_session_stat'bytes_in : Z;
  relay_session_stat'bytes_out : Z;
  relay_session_stat'rtt_ms : option Z;
  relay_session_stat'loss_ppm : option Z;
  relay_session_stat'started_at_epoch_millis : Z;
  relay_session_stat'ended_at_epoch_millis : option Z;
  relay_session_stat'disconnect_reason : option rstr }.

Record FileTransferRecord := {
  file_transfer'file_transfer_id : rstr;
  file_transfer'session_id : rstr;
  file_transfer'sender_device_id : rstr;
  file_transfer'receiver_device_id : rstr;
  file_transfer'direction : FileTransferDirection;
  file_transfer'file_name : rstr;
  file_transfer'safe_file_name : option rstr;
  file_transfer'file_size_bytes : Z;
  file_transfer'sha256 : Sha256Digest;
  file_transfer'status : FileTransferStatus;
  file_transfer'confirmed_by_controlled : bool;
  file_transfer'confirmed_by_device_id : option rstr;
  file_transfer'confirmed_at_epoch_millis : option Z;
  file_transfer'receiver_save_policy : rstr;
  file_transfer'temporary_path_hash : option Sha256Digest;
  file_transfer'final_path_hash : option Sha256Digest;
  file_transfer'bytes_transferred : Z;
  file_transfer'cancelled_by_device_id : option rstr;
  file_transfer'cancelled_at_epoch_millis : option Z;
  file_transfer'started_at_epoch_millis : option Z;
  file_transfer'ended_at_epoch_millis : option Z;
  file_transfer'failure_reason : option rstr;
  file_transfer'created_at_epoch_millis : Z;
  file_transfer'updated_at_epoch_millis : Z }.

Record AbuseReportRecord := {
  abuse_report'abuse_report_id : rstr;
  abuse_report'reporter_account_id : rstr;
  abuse_report'reporter_device_id : rstr;
  abuse_report'reported_account_id : option rstr;
  abuse_report'reported_device_id : option rstr;
  abuse_report'session_id : option rstr;
  abuse_report'category : rstr;
  abuse_report'reason : option rstr;
  abuse_report'status : rstr;
  abuse_report'created_at_epoch_millis : Z }.

Record AbuseCaseRecord := {
  abuse_case'abuse_case_id : rstr;
  abuse_case'primary_report_id : rstr;
  abuse_case'subject_account_id : option rstr;
  abuse_case'subject_device_id : option rstr;
  abuse_case'risk_level : rstr;
  abuse_case'status : rstr;
  abuse_case'assigned_to_account_id : option rstr;
  abuse_case'created_at_epoch_millis : Z;
  abuse_case'updated_at_epoch_millis : Z;
  abuse_case'closed_at_epoch_millis : option Z }.

Record AbuseEnforcementActionRecord := {
  abuse_enforcement_action'enforcement_action_id : rstr;
  abuse_enforcement_action'abuse_case_id : rstr;
  abuse_enforcement_action'subject_type : rstr;
  abuse_enforcement_action'subject_id : rstr;
  abuse_enforcement_action'action : rstr;
  abuse_enforcement_action'reason : rstr;
  abuse_enforcement_action'starts_at_epoch_millis : Z;
  abuse_enforcement_action'expires_at_epoch_millis : option Z;
  abuse_enforcement_action'created_by_actor_type : rstr;
  abuse_enforcement_action'created_by_account_id : option rstr;
  abuse_enforcement_action'revoked_at_epoch_millis : option Z;
  abuse_enforcement_action'created_at_epoch_millis : Z }.

Record AbuseRiskEventRecord := {
  abuse_risk_event'risk_event_id : rstr;
  abuse_risk_event'account_id : option rstr;
  abuse_risk_event'device_id : option rstr;
  abuse_risk_event'session_id : option rstr;
  abuse_risk_event'event_type : rstr;
  abuse_risk_event'risk_level : rstr;
  abuse_risk_event'signals : JsonObject;
  abuse_risk_event'decision : rstr;
  abuse_risk_event'created_at_epoch_millis : Z }.

Record OrganizationRecord := {
  organization'organization_id : rstr;
  organization'name : rstr;
  organization'organization_type : rstr;
  organization'status : rstr;
  organization'created_by_account_id : option rstr;
  organization'created_at_epoch_millis : Z;
  organization'updated_at_epoch_millis : Z }.

Record OrganizationDeviceRecord := {
  organization_device'organization_device_id : rstr;
  organization_device'organization_id : rstr;
  organization_device'device_id : rstr;
  organization_device'membership_type : rstr;
  organization_device'status : rstr;
  organization_device'created_at_epoch_millis : Z;
  organization_device'updated_at_epoch_millis : Z }.

Record OrganizationMemberRecord := {
  organization_member'organization_member_id : rstr;
  organization_member'organization_id : rstr;
  organization_member'account_id : rstr;
  organization_member'role_id : rstr;
  organization_member'status : rstr;
  organization_member'created_at_epoch_millis : Z;
  organization_member'updated_at_epoch_millis : Z }.

Record RoleRecord := {
  role'role_id : rstr;
  role'organization_id : option rstr;
  role'scope : rstr;
  role'role_key : rstr;
  role'display_name : rstr;
  role'status : rstr;
  role'created_at_epoch_millis : Z;
  role'updated_at_epoch_millis : Z }.

Record RolePermissionRecord := {
  role_permission'role_id : rstr;
  role_permission'allow_remote_desktop : bool;
  role_permission'allow_input_control : bool;
  role_permission'allow_clipboard : bool;
  role_permission'allow_file_transfer : bool;
  role_permission'allow_unattended : bool;
  role_permission'allow_privacy_screen : bool;
  role_permission'allow_block_local_input : bool;
  role_permission'allow_relay : bool;
  role_permission'can_bypass_prompt : bool;
  role_permission'allow_remote_reboot : bool;
  role_permission'can_manage_organization : bool;
  role_permission'can_manage_devices : bool;
  role_permission'can_manage_policies : bool;
  role_permission'can_view_audit_logs : bool;
  role_permission'can_manage_releases : bool;
  role_permission'can_manage_abuse_cases : bool;
  role_permission'created_at_epoch_millis : Z;
  role_permission'updated_at_epoch_millis : Z }.

Record OrganizationPolicyRecord := {
  organization_policy'organization_policy_id : rstr;
  organization_policy'organization_id : rstr;
  organization_policy'priority : Z;
  organization_policy'permissions : LayeredPermissions;
  organization_policy'status : rstr;
  organization_policy'updated_by_account_id : rstr;
  organization_policy'created_at_epoch_millis : Z;
  organization_policy'updated_at_epoch_millis : Z }.

Record DeviceGroupRecord := {
  device_group'device_group_id : rstr;
  device_group'organization_id : rstr;
  device_group'name : rstr;
  device_group'status : rstr;
  device_group'created_at_epoch_millis : Z;
  device_group'updated_at_epoch_millis : Z }.

Record DeviceGroupMemberRecord := {
  device_group_member'device_group_member_id : rstr;
  device_group_member'device_group_id : rstr;
  device_group_member'organization_id : rstr;
  device_group_member'device_id : rstr;
  device_group_member'status : rstr;
  device_group_member'created_at_epoch_millis : Z;
  device_group_member'updated_at_epoch_millis : Z }.

Record DeviceGroupPolicyRecord := {
  device_group_policy'device_group_policy_id : rstr;
  device_group_policy'device_group_id : rstr;
  device_group_policy'priority : Z;
  device_group_policy'permissions : LayeredPermissions;
  device_group_policy'status : rstr;
  device_group_policy'updated_by_account_id : rstr;
  device_group_policy'created_at_epoch_millis : Z;
  device_group_policy'updated_at_epoch_millis : Z }.

Record ClientReleaseChannelRecord := {
  client_release_channel'release_channel_id : rstr;
  client_release_channel'channel : ReleaseChannel;
  client_release_channel'scope_type : rstr;
  client_release_channel'scope_id : option rstr;
  client_release_channel'status : rstr;
  client_release_channel'release_public_key_id : rstr;
  client_release_channel'created_at_epoch_millis : Z;
  client_release_channel'updated_at_epoch_millis : Z }.

Record ClientReleaseArtifactRecord := {
  client_release_artifact'artifact_id : rstr;
  client_release_artifact'release_channel_id : rstr;
  client_release_artifact'version : rstr;
  client_release_artifact'build_number : Z;
  client_release_artifact'platform : Platform;
  client_release_artifact'arch : Architecture;
  client_release_artifact'artifact_url : rstr;
  client_release_artifact'storage_location_id : option rstr;
  client_release_artifact'artifact_sha256 : Sha256Digest;
  client_release_artifact'artifact_size_bytes : Z;
  client_release_artifact'manifest_version : Z;
  client_release_artifact'min_supported_version : rstr;
  client_release_artifact'rollout_percent : Z;
  client_release_artifact'mandatory : bool;
  client_release_artifact'release_notes_url : option rstr;
  client_release_artifact'manifest_expires_at_epoch_millis : Z;
  client_release_artifact'manifest_signature : SignatureBytes;
  client_release_artifact'sbom_url : rstr;
  client_release_artifact'status : ReleaseArtifactStatus;
  client_release_artifact'published_by_actor_type : option rstr;
  client_release_artifact'published_by_account_id : option rstr;
  client_release_artifact'published_by_service : option rstr;
  client_release_artifact'published_at_epoch_millis : option Z;
  client_release_artifact'revoked_at_epoch_millis : option Z;
  client_release_artifact'created_at_epoch_millis : Z;
  client_release_artifact'updated_at_epoch_millis : Z }.

Record ClientUpdateCheckRecord := {
  client_update_check'update_check_id : rstr;
  client_update_check'account_id : rstr;
  client_update_check'device_id : rstr;
  client_update_check'platform : Platform;
  client_update_check'arch : Architecture;
  client_update_check'current_version : rstr;
  client_update_check'channel : ReleaseChannel;
  client_update_check'event_type : UpdateEventType;
  client_update_check'result : rstr;
  client_update_check'artifact_id : option rstr;
  client_update_check'manifest_signature_valid : option bool;
  client_update_check'artifact_hash_valid : option bool;
  client_update_check'platform_signature_valid : option bool;
  client_update_check'failure_reason : option rstr;
  client_update_check'checked_at_epoch_millis : Z;
  client_update_check'downloaded_at_epoch_millis : option Z;
  client_update_check'verified_at_epoch_millis : option Z;
  client_update_check'failed_at_epoch_millis : option Z;
  client_update_check'created_at_epoch_millis : Z }.

Record AuditLogRecord := {
  audit_log'audit_id : rstr;
  audit_log'actor_type : rstr;
  audit_log'actor_account_id : option rstr;
  audit_log'actor_device_id : option rstr;
  audit_log'actor_role : rstr;
  audit_log'actor_service : option rstr;
  audit_log'target_device_id : option rstr;
  audit_log'session_id : option rstr;
  audit_log'resource_type : option rstr;
  audit_log'resource_id : option rstr;
  audit_log'action : rstr;
  audit_log'result : rstr;
  audit_log'reason : option rstr;
  audit_log'metadata : JsonObject;
  audit_log'actor_account_snapshot : option JsonObject;
  audit_log'actor_device_snapshot : option JsonObject;
  audit_log'target_device_snapshot : option JsonObject;
  audit_log'ip_address : option rstr;
  audit_log'user_agent : option rstr;
  audit_log'request_id : option rstr;
  audit_log'created_at_epoch_millis : Z }.

Definition effective_permissions_default : EffectivePermissions := {|
  effective_permissions'remote_desktop := false; effective_permissions'input_control := false;
  effective_permissions'clipboard := false; effective_permissions'file_transfer := false;
  effective_permissions'unattended := false; effective_permissions'privacy_screen := false;
  effective_permissions'block_local_input := false; effective_permissions'require_prompt := true;
  effective_permissions'allow_relay := false |}.

(** The parts of an idempotency key, separated by NUL. *)
Definition storage_key (r : ApiIdempotencyKeyRecord) : rstr :=
  r.(api_idempotency_key'account_id) ++ [x00] ++ r.(api_idempotency_key'device_id) ++ [x00]
  ++ r.(api_idempotency_key'method) ++ [x00] ++ r.(api_idempotency_key'path) ++ [x00]
  ++ r.(api_idempotency_key'idempotency_key).

(** ** Kinds and keys *)

Inductive RecordKind :=
  KindAccount | KindAccountSession | KindAccountMfaFactor | KindMfaRecoveryCodeDelivery
  | KindAccountRecoveryCode | KindAccountRiskChallenge | KindDeviceEnrollmentGrant | KindTrustedControllerDevice
  | KindAbuseReport | KindAbuseCase | KindAbuseEnforcementAction | KindAbuseRiskEvent | KindApiIdempotencyKey
  | KindDevice | KindDevicePolicy | KindDeviceAccessRule | KindDeviceLocalSecuritySetting | KindAccessPolicy
  | KindAccessPolicyAssignment | KindPolicyEvaluation | KindVerificationCode | KindUnattendedSecret | KindRelayNode
  | KindSession | KindRemoteRebootRequest | KindConnectionCandidate | KindConnectionCandidatePair | KindSessionEvent
  | KindAuditLog | KindRelaySessionStat | KindFileTransfer | KindOrganization | KindOrganizationDevice
  | KindOrganizationMember | KindRole | KindRolePermission | KindOrganizationPolicy | KindDeviceGroup
  | KindDeviceGroupMember | KindDeviceGroupPolicy | KindClientReleaseChannel | KindClientReleaseArtifact
  | KindClientUpdateCheck.

Definition table_name (k : RecordKind) : rstr :=
  match k with
  | KindAccount => str "accounts"
  | KindAccountSession => str "account_sessions"
  | KindAccountMfaFactor => str "account_mfa_factors"
  | KindMfaRecoveryCodeDelivery => str "mfa_recovery_code_deliveries"
  | KindAccountRecoveryCode => str "account_recovery_codes"
  | KindAccountRiskChallenge => str "account_risk_challenges"
  | KindDeviceEnrollmentGrant => str "device_enrollment_grants"
  | KindTrustedControllerDevice => str "trusted_controller_devices"
  | KindAbuseReport => str "abuse_reports"
  | KindAbuseCase => str "abuse_cases"
  | KindAbuseEnforcementAction => str "abuse_enforcement_actions"
  | KindAbuseRiskEvent => str "abuse_risk_events"
  | KindApiIdempotencyKey => str "api_idempotency_keys"
  | KindDevice => str "devices"
  | KindDevicePolicy => str "device_policies"
  | KindDeviceAccessRule => str "device_access_rules"
  | KindDeviceLocalSecuritySetting => str "device_local_security_settings"
  | KindAccessPolicy => str "access_policies"
  | KindAccessPolicyAssignment => str "access_policy_assignments"
  | KindPolicyEvaluation => str "policy_evaluations"
  | KindVerificationCode => str "verification_codes"
  | KindUnattendedSecret => str "unattended_secrets"
  | KindRelayNode => str "relay_nodes"
  | KindSession => str "sessions"
  | KindRemoteRebootRequest => str "remote_reboot_requests"
  | KindConnectionCandidate => str "connection_candidates"
  | KindConnectionCandidatePair => str "connection_candidate_pairs"
  | KindSessionEvent => str "session_events"
  | KindAuditLog => str "audit_logs"
  | KindRelaySessionStat => str "relay_session_stats"
  | KindFileTransfer => str "file_transfers"
  | KindOrganization => str "organizations"
  | KindOrganizationDevice => str "organization_devices"
  | KindOrganizationMember => str "organization_members"
  | KindRole => str "roles"
  | KindRolePermission => str "role_permissions"
  | KindOrganizationPolicy => str "organization_policies"
  | KindDeviceGroup => str "device_groups"
  | KindDeviceGroupMember => str "device_group_members"
  | KindDeviceGroupPolicy => str "device_group_policies"
  | KindClientReleaseChannel => str "client_release_channels"
  | KindClientReleaseArtifact => str "client_release_artifacts"
  | KindClientUpdateCheck => str "client_update_checks"
  end.

Definition is_append_only (k : RecordKind) : bool :=
  match k with
  | KindPolicyEvaluation | KindAbuseRiskEvent | KindSessionEvent | KindAuditLog | KindRelaySessionStat
  | KindClientUpdateCheck => true
  | _ => false
  end.

Record RecordKey := { key_kind : RecordKind; key_id : rstr }.

Inductive StoredRecord :=
| StoredAccount (record : AccountRecord)
| StoredAccountSession (record : AccountSessionRecord)
| StoredAccountMfaFactor (record : AccountMfaFactorRecord)
| StoredMfaRecoveryCodeDelivery (record : MfaRecoveryCodeDeliveryRecord)
| StoredAccountRecoveryCode (record : AccountRecoveryCodeRecord)
| StoredAccountRiskChallenge (record : AccountRiskChallengeRecord)
| StoredDeviceEnrollmentGrant (record : DeviceEnrollmentGrantRecord)
| StoredTrustedControllerDevice (record : TrustedControllerDeviceRecord)
| StoredAbuseReport (record : AbuseReportRecord)
| StoredAbuseCase (record : AbuseCaseRecord)
| StoredAbuseEnforcementAction (record : AbuseEnforcementActionRecord)
| StoredAbuseRiskEvent (record : AbuseRiskEventRecord)
| StoredApiIdempotencyKey (record : ApiIdempotencyKeyRecord)
| StoredDevice (record : DeviceRecord)
| StoredDevicePolicy (record : DevicePolicyRecord)
| StoredDeviceAccessRule (record : DeviceAccessRuleRecord)
| StoredDeviceLocalSecuritySetting (record : DeviceLocalSecuritySettingRecord)
| StoredAccessPolicy (record : AccessPolicyRecord)
| StoredAccessPolicyAssignment (record : AccessPolicyAssignmentRecord)
| StoredPolicyEvaluation (record : PolicyEvaluationRecord)
| StoredVerificationCode (record : VerificationCodeRecord)
| StoredUnattendedSecret (record : UnattendedSecretRecord)
| StoredRelayNode (record : RelayNodeRecord)
| StoredSession (record : SessionRecord)
| StoredRemoteRebootRequest (record : RemoteRebootRequestRecord)
| StoredConnectionCandidate (record : ConnectionCandidateRecord)
| StoredConnectionCandidatePair (record : ConnectionCandidatePairRecord)
| StoredSessionEvent (record : SessionEventRecord)
| StoredAuditLog (record : AuditLogRecord)
| StoredRelaySessionStat (record : RelaySessionStatRecord)
| StoredFileTransfer (record : FileTransferRecord)
| StoredOrganization (record : OrganizationRecord)
| StoredOrganizationDevice (record : OrganizationDeviceRecord)
| StoredOrganizationMember (record : OrganizationMemberRecord)
| StoredRole (record : RoleRecord)
| StoredRolePermission (record : RolePermissionRecord)
| StoredOrganizationPolicy (record : OrganizationPolicyRecord)
| StoredDeviceGroup (record : DeviceGroupRecord)
| StoredDeviceGroupMember (record : DeviceGroupMemberRecord)
| StoredDeviceGroupPolicy (record : DeviceGroupPolicyRecord)
| StoredClientReleaseChannel (record : ClientReleaseChannelRecord)
| StoredClientReleaseArtifact (record : ClientReleaseArtifactRecord)
| StoredClientUpdateCheck (record : ClientUpdateCheckRecord).

Definition record_kind (r : StoredRecord) : RecordKind :=
  match r with
  | StoredAccount _ => KindAccount
  | StoredAccountSession _ => KindAccountSession
  | StoredAccountMfaFactor _ => KindAccountMfaFactor
  | StoredMfaRecoveryCodeDelivery _ => KindMfaRecoveryCodeDelivery
  | StoredAccountRecoveryCode _ => KindAccountRecoveryCode
  | StoredAccountRiskChallenge _ => KindAccountRiskChallenge
  | StoredDeviceEnrollmentGrant _ => KindDeviceEnrollmentGrant
  | StoredTrustedControllerDevice _ => KindTrustedControllerDevice
  | StoredAbuseReport _ => KindAbuseReport
  | StoredAbuseCase _ => KindAbuseCase
  | StoredAbuseEnforcementAction _ => KindAbuseEnforcementAction
  | StoredAbuseRiskEvent _ => KindAbuseRiskEvent
  | StoredApiIdempotencyKey _ => KindApiIdempotencyKey
  | StoredDevice _ => KindDevice
  | StoredDevicePolicy _ => KindDevicePolicy
  | StoredDeviceAccessRule _ => KindDeviceAccessRule
  | StoredDeviceLocalSecuritySetting _ => KindDeviceLocalSecuritySetting
  | StoredAccessPolicy _ => KindAccessPolicy
  | StoredAccessPolicyAssignment _ => KindAccessPolicyAssignment
  | StoredPolicyEvaluation _ => KindPolicyEvaluation
  | StoredVerificationCode _ => KindVerificationCode
  | StoredUnattendedSecret _ => KindUnattendedSecret
  | StoredRelayNode _ => KindRelayNode
  | StoredSession _ => KindSession
  | StoredRemoteRebootRequest _ => KindRemoteRebootRequest
  | StoredConnectionCandidate _ => KindConnectionCandidate
  | StoredConnectionCandidatePair _ => KindConnectionCandidatePair
  | StoredSessionEvent _ => KindSessionEvent
  | StoredAuditLog _ => KindAuditLog
  | StoredRelaySessionStat _ => KindRelaySessionStat
  | StoredFileTransfer _ => KindFileTransfer
  | StoredOrganization _ => KindOrganization
  | StoredOrganizationDevice _ => KindOrganizationDevice
  | StoredOrganizationMember _ => KindOrganizationMember
  | StoredRole _ => KindRole
  | StoredRolePermission _ => KindRolePermission
  | StoredOrganizationPolicy _ => KindOrganizationPolicy
  | StoredDeviceGroup _ => KindDeviceGroup
  | StoredDeviceGroupMember _ => KindDeviceGroupMember
  | StoredDeviceGroupPolicy _ => KindDeviceGroupPolicy
  | StoredClientReleaseChannel _ => KindClientReleaseChannel
  | StoredClientReleaseArtifact _ => KindClientReleaseArtifact
  | StoredClientUpdateCheck _ => KindClientUpdateCheck
  end.

Definition record_key (r : StoredRecord) : RecordKey :=
  let '(kind, id) :=
    match r with
    | StoredAccount r => (KindAccount, r.(account'account_id))
    | StoredAccountSession r => (KindAccountSession, r.(account_session'account_session_id))
    | StoredAccountMfaFactor r => (KindAccountMfaFactor, r.(account_mfa_factor'factor_id))
    | StoredMfaRecoveryCodeDelivery r => (KindMfaRecoveryCodeDelivery, r.(mfa_recovery_code_delivery'delivery_id))
    | StoredAccountRecoveryCode r => (KindAccountRecoveryCode, r.(account_recovery_code'recovery_code_id))
    | StoredAccountRiskChallenge r => (KindAccountRiskChallenge, r.(account_risk_challenge'risk_challenge_id))
    | StoredDeviceEnrollmentGrant r => (KindDeviceEnrollmentGrant, r.(device_enrollment_grant'grant_id))
    | StoredTrustedControllerDevice r => (KindTrustedControllerDevice, r.(trusted_controller_device'trusted_device_id))
    | StoredAbuseReport r => (KindAbuseReport, r.(abuse_report'abuse_report_id))
    | StoredAbuseCase r => (KindAbuseCase, r.(abuse_case'abuse_case_id))
    | StoredAbuseEnforcementAction r => (KindAbuseEnforcementAction, r.(abuse_enforcement_action'enforcement_action_id))
    | StoredAbuseRiskEvent r => (KindAbuseRiskEvent, r.(abuse_risk_event'risk_event_id))
    | StoredApiIdempotencyKey r => (KindApiIdempotencyKey, storage_key r)
    | StoredDevice r => (KindDevice, r.(device'device_id))
    | StoredDevicePolicy r => (KindDevicePolicy, r.(device_policy'device_id))
    | StoredDeviceAccessRule r => (KindDeviceAccessRule, r.(device_access_rule'device_access_rule_id))
    | StoredDeviceLocalSecuritySetting r => (KindDeviceLocalSecuritySetting, r.(device_local_security_setting'device_id))
    | StoredAccessPolicy r => (KindAccessPolicy, r.(access_policy'access_policy_id))
    | StoredAccessPolicyAssignment r => (KindAccessPolicyAssignment, r.(access_policy_assignment'assignment_id))
    | StoredPolicyEvaluation r => (KindPolicyEvaluation, r.(policy_evaluation'policy_evaluation_id))
    | StoredVerificationCode r => (KindVerificationCode, r.(verification_code'code_id))
    | StoredUnattendedSecret r => (KindUnattendedSecret, r.(unattended_secret'unattended_secret_id))
    | StoredRelayNode r => (KindRelayNode, r.(relay_node'relay_node_id))
    | StoredSession r => (KindSession, r.(session'session_id))
    | StoredRemoteRebootRequest r => (KindRemoteRebootRequest, r.(remote_reboot_request'reboot_request_id))
    | StoredConnectionCandidate r => (KindConnectionCandidate, r.(connection_candidate'candidate_id))
    | StoredConnectionCandidatePair r => (KindConnectionCandidatePair, r.(connection_candidate_pair'candidate_pair_id))
    | StoredSessionEvent r => (KindSessionEvent, r.(session_event'event_id))
    | StoredAuditLog r => (KindAuditLog, r.(audit_log'audit_id))
    | StoredRelaySessionStat r => (KindRelaySessionStat, r.(relay_session_stat'relay_session_stat_id))
    | StoredFileTransfer r => (KindFileTransfer, r.(file_transfer'file_transfer_id))
    | StoredOrganization r => (KindOrganization, r.(organization'organization_id))
    | StoredOrganizationDevice r => (KindOrganizationDevice, r.(organization_device'organization_device_id))
    | StoredOrganizationMember r => (KindOrganizationMember, r.(organization_member'organization_member_id))
    | StoredRole r => (KindRole, r.(role'role_id))
    | StoredRolePermission r => (KindRolePermission, r.(role_permission'role_id))
    | StoredOrganizationPolicy r => (KindOrganizationPolicy, r.(organization_policy'organization_policy_id))
    | StoredDeviceGroup r => (KindDeviceGroup, r.(device_group'device_group_id))
    | StoredDeviceGroupMember r => (KindDeviceGroupMember, r.(device_group_member'device_group_member_id))
    | StoredDeviceGroupPolicy r => (KindDeviceGroupPolicy, r.(device_group_policy'device_group_policy_id))
    | StoredClientReleaseChannel r => (KindClientReleaseChannel, r.(client_release_channel'release_channel_id))
    | StoredClientReleaseArtifact r => (KindClientReleaseArtifact, r.(client_release_artifact'artifact_id))
    | StoredClientUpdateCheck r => (KindClientUpdateCheck, r.(client_update_check'update_check_id))
    end in
  {| key_kind := kind; key_id := id |}.

Definition all_kinds : list RecordKind :=
  [KindAccount; KindAccountSession; KindAccountMfaFactor; KindMfaRecoveryCodeDelivery; KindAccountRecoveryCode;
   KindAccountRiskChallenge; KindDeviceEnrollmentGrant; KindTrustedControllerDevice; KindAbuseReport; KindAbuseCase;
   KindAbuseEnforcementAction; KindAbuseRiskEvent; KindApiIdempotencyKey; KindDevice; KindDevicePolicy;
   KindDeviceAccessRule; KindDeviceLocalSecuritySetting; KindAccessPolicy; KindAccessPolicyAssignment;
   KindPolicyEvaluation; KindVerificationCode; KindUnattendedSecret; KindRelayNode; KindSession;
   KindRemoteRebootRequest; KindConnectionCandidate; KindConnectionCandidatePair; KindSessionEvent; KindAuditLog;
   KindRelaySessionStat; KindFileTransfer; KindOrganization; KindOrganizationDevice; KindOrganizationMember;
   KindRole; KindRolePermission; KindOrganizationPolicy; KindDeviceGroup; KindDeviceGroupMember;
   KindDeviceGroupPolicy; KindClientReleaseChannel; KindClientReleaseArtifact; KindClientUpdateCheck].

Definition V1_TABLES : list rstr :=
  [str "accounts"; str "account_sessions"; str "account_mfa_factors"; str "mfa_recovery_code_deliveries";
   str "account_recovery_codes"; str "account_risk_challenges"; str "device_enrollment_grants";
   str "trusted_controller_devices"; str "abuse_reports"; str "abuse_cases"; str "abuse_enforcement_actions";
   str "abuse_risk_events"; str "api_idempotency_keys"; str "devices"; str "device_policies";
   str "device_access_rules"; str "device_local_security_settings"; str "access_policies";
   str "access_policy_assignments"; str "policy_evaluations"; str "verification_codes"; str "unattended_secrets";
   str "relay_nodes"; str "sessions"; str "remote_reboot_requests"; str "connection_candidates";
   str "connection_candidate_pairs"; str "session_events"; str "audit_logs"; str "relay_session_stats";
   str "file_transfers"; str "organizations"; str "organization_devices"; str "organization_members"; str "roles";
   str "role_permissions"; str "organization_policies"; str "device_groups"; str "device_group_members";
   str "device_group_policies"; str "client_release_channels"; str "client_release_artifacts";
   str "client_update_checks"].

(** The position of a kind in its declaration, by which kinds are ordered. *)
Definition kind_index (k : RecordKind) : nat := default 0%nat (fst <$> list_find (λ x, table_name x = table_name k) all_kinds).

#[global] Instance RecordKind_eq_dec : EqDecision RecordKind.
Proof. solve_decision. Defined.
#[global] Instance RecordKey_eq_dec : EqDecision RecordKey.
Proof. solve_decision. Defined.

Lemma kind_index_lookup k : all_kinds !! kind_index k = Some k.
Proof. by destruct k. Qed.

#[global] Instance RecordKind_countable : Countable RecordKind.
Proof.
  refine (inj_countable kind_index (λ n, all_kinds !! n) _). intros k. apply kind_index_lookup.
Defined.
#[global] Instance RecordKey_countable : Countable RecordKey.
Proof.
  refine (inj_countable' (λ k, (k.(key_kind), k.(key_id))) (λ p, {| key_kind := p.1; key_id := p.2 |}) _). by intros [].
Defined.

(** The order of keys: kinds as declared, then identifiers. *)
Definition key_le (a b : RecordKey) : Prop :=
  (kind_index a.(key_kind) < kind_index b.(key_kind))%nat
  ∨ (a.(key_kind) = b.(key_kind) ∧ str_le a.(key_id) b.(key_id)).

Definition keyed_le (a b : RecordKey * StoredRecord) : Prop := key_le a.1 b.1.

#[global] Instance keyed_le_dec : RelDecision keyed_le.
Proof. intros a b. unfold keyed_le, key_le, str_le. apply _. Defined.

(** ** The repository *)

Inductive StoreError :=
| Duplicate (k : RecordKey) | NotFound (k : RecordKey) | Immutable (k : RecordKind) | Backend (message : rstr).

(** The trait. *)
Class Repository (R : Type) := {
  insert_record : R → StoredRecord → result StoreError unit * R;
  replace_record : R → StoredRecord → result StoreError unit * R;
  get_record : R → RecordKey → result StoreError (option StoredRecord);
  list_records : R → RecordKind → result StoreError (list StoredRecord);
  remove_record : R → RecordKey → result StoreError (option StoredRecord) * R }.

Record MemoryRepository := { records : gmap RecordKey StoredRecord }.

Definition memory_new : MemoryRepository := {| records := ∅ |}.

Definition memory_len (m : MemoryRepository) : nat := size m.(records).

Definition memory_is_empty (m : MemoryRepository) : bool := (memory_len m =? 0)%nat.

Definition memory_insert (m : MemoryRepository) (r : StoredRecord) : result StoreError unit * MemoryRepository :=
  let key := record_key r in
  if bool_decide (is_Some (m.(records) !! key)) then (Err (Duplicate key), m)
  else (Ok tt, {| records := <[key := r]> m.(records) |}).

Definition memory_replace (m : MemoryRepository) (r : StoredRecord) : result StoreError unit * MemoryRepository :=
  let key := record_key r in
  if is_append_only (record_kind r) then (Err (Immutable (record_kind r)), m)
  else if negb (bool_decide (is_Some (m.(records) !! key))) then (Err (NotFound key), m)
  else (Ok tt, {| records := <[key := r]> m.(records) |}).

Definition memory_get (m : MemoryRepository) (key : RecordKey) : result StoreError (option StoredRecord) :=
  Ok (m.(records) !! key).

Definition memory_list (m : MemoryRepository) (kind : RecordKind) : result StoreError (list StoredRecord) :=
  Ok (List.filter (λ r, record_kind r =! kind) (snd <$> merge_sort keyed_le (map_to_list m.(records)))).

Definition memory_remove (m : MemoryRepository) (key : RecordKey)
    : result StoreError (option StoredRecord) * MemoryRepository :=
  if is_append_only key.(key_kind) then (Err (Immutable key.(key_kind)), m)
  else (Ok (m.(records) !! key), {| records := delete key m.(records) |}).

#[global] Instance memory_repository : Repository MemoryRepository := {|
  insert_record := memory_insert; replace_record := memory_replace; get_record := memory_get;
  list_records := memory_list; remove_record := memory_remove |}.

(** ** What a repository promises

    A repository holds one cell per key, which the operations on other keys leave
    alone. *)

Inductive StoreOp := StoreInsert (r : StoredRecord) | StoreReplace (r : StoredRecord) | StoreRemove (k : RecordKey).

Inductive StoreAnswer := Changed (r : result StoreError unit) | Removed (r : result StoreError (option StoredRecord)).

Definition op_key (o : StoreOp) : RecordKey :=
  match o with StoreInsert r | StoreReplace r => record_key r | StoreRemove k => k end.

(** The operation on its own cell. *)
Definition cell_step (o : StoreOp) (cell : option StoredRecord) : StoreAnswer * option StoredRecord :=
  match o with
  | StoreInsert r =>
      match cell with
      | Some _ => (Changed (Err (Duplicate (record_key r))), cell)
      | None => (Changed (Ok tt), Some r)
      end
  | StoreReplace r =>
      if is_append_only (record_kind r) then (Changed (Err (Immutable (record_kind r))), cell)
      else match cell with
      | Some _ => (Changed (Ok tt), Some r)
      | None => (Changed (Err (NotFound (record_key r))), None)
      end
  | StoreRemove k =>
      if is_append_only k.(key_kind) then (Removed (Err (Immutable k.(key_kind))), cell) else (Removed (Ok cell), None)
  end.

Section repositories.
Context {R : Type} `{Repository R}.

Definition store_step (s : R) (o : StoreOp) : StoreAnswer * R :=
  match o with
  | StoreInsert r => let '(a, s) := insert_record s r in (Changed a, s)
  | StoreReplace r => let '(a, s) := replace_record s r in (Changed a, s)
  | StoreRemove k => let '(a, s) := remove_record s k in (Removed a, s)
  end.

Definition store_run (s : R) (ops : list StoreOp) : R := foldl (λ s o, (store_step s o).2) s ops.
End repositories.

(** [cells] is what the repository holds; records are under their keys. *)
Class RepositoryLaws (R : Type) `{Repository R} := {
  cells : R → gmap RecordKey StoredRecord;
  filed : R → Prop;
  filed_key s k r : filed s → cells s !! k = Some r → record_key r = k;
  filed_step s o : filed s → filed (store_step s o).2;
  step_answer s o : (store_step s o).1 = (cell_step o (cells s !! op_key o)).1;
  step_cell s o : cells (store_step s o).2 !! op_key o = (cell_step o (cells s !! op_key o)).2;
  step_other s o k : k ≠ op_key o → cells (store_step s o).2 !! k = cells s !! k;
  get_cell s k : get_record s k = Ok (cells s !! k);
  list_kind s kind : filed s → ∃ l, list_records s kind = Ok l
    ∧ StronglySorted (λ a b, str_le (record_key a).(key_id) (record_key b).(key_id)) l
    ∧ NoDup (record_key <$> l)
    ∧ ∀ r, r ∈ l ↔ cells s !! record_key r = Some r ∧ record_kind r = kind }.

(** ** The repository in memory *)

Lemma record_key_kind r : (record_key r).(key_kind) = record_kind r.
Proof. by destruct r. Qed.

#[global] Instance key_le_trans : Transitive key_le.
Proof.
  intros a b c [H1|[E1 H1]] [H2|[E2 H2]].
  - left. lia.
  - left. by rewrite <-E2.
  - left. by rewrite E1.
  - right. split; [congruence|]. by eapply str_le_trans.
Qed.
#[global] Instance key_le_total : Total key_le.
Proof.
  intros a b. unfold key_le. destruct (decide (a.(key_kind) = b.(key_kind))) as [E|E].
  - destruct (str_le_total a.(key_id) b.(key_id)); [left|right]; by right.
  - assert (Hi : kind_index a.(key_kind) ≠ kind_index b.(key_kind)).
    { intros Hi. apply E. pose proof (kind_index_lookup a.(key_kind)) as Ha.
      rewrite Hi, kind_index_lookup in Ha. congruence. }
    destruct (Nat.lt_ge_cases (kind_index a.(key_kind)) (kind_index b.(key_kind))); [left; by left|right; left; lia].
Qed.
#[global] Instance keyed_le_trans : Transitive keyed_le.
Proof. intros a b c. unfold keyed_le. apply key_le_trans. Qed.
#[global] Instance keyed_le_total : Total keyed_le.
Proof. intros a b. apply key_le_total. Qed.

Definition memory_filed (m : MemoryRepository) : Prop := map_Forall (λ k r, record_key r = k) m.(records).

Lemma records_sorted_filter {A} (R : relation A) (f : A → bool) l : StronglySorted R l → StronglySorted R (List.filter f l).
Proof.
  induction 1 as [|x l Hs IH Hx]; cbn; [constructor|]. destruct (f x); [|done]. constructor; [done|].
  apply Forall_forall. intros y Hy. apply list_elem_of_In, filter_In in Hy as [Hy _]. apply list_elem_of_In in Hy.
  rewrite Forall_forall in Hx. by apply Hx.
Qed.

Lemma sorted_impl {A} (R R' : relation A) l :
  (∀ a b, a ∈ l → b ∈ l → R a b → R' a b) → StronglySorted R l → StronglySorted R' l.
Proof.
  intros H Hs. induction Hs as [|x l Hs IH Hx]; constructor.
  - apply IH. intros a b Ha Hb. apply H; by right.
  - rewrite Forall_forall in Hx |- *. intros y Hy. apply H; [by left|by right|]. by apply Hx.
Qed.

Lemma sorted_records (l : list (RecordKey * StoredRecord)) :
  (∀ k r, (k, r) ∈ l → record_key r = k) → StronglySorted keyed_le l →
  StronglySorted (λ a b, key_le (record_key a) (record_key b)) (snd <$> l).
Proof.
  intros H Hs. induction Hs as [|[k r] l Hs IH Hx]; constructor.
  - apply IH. intros k' r' Hr. apply H. by right.
  - apply Forall_fmap. rewrite Forall_forall in Hx |- *. intros [k' r'] Hr. apply Hx in Hr as Hle. cbn.
    rewrite (H k r), (H k' r'); [exact Hle|by right|by left].
Qed.

Lemma sorted_keys_nodup (f : StoredRecord → bool) (l : list (RecordKey * StoredRecord)) :
  (∀ k r, (k, r) ∈ l → record_key r = k) → NoDup (l.*1) → NoDup (record_key <$> List.filter f (l.*2)).
Proof.
  induction l as [|[k r] l IH]; cbn; intros H Hn; [constructor|]. apply NoDup_cons in Hn as [Hk Hn].
  assert (IHl : NoDup (record_key <$> List.filter f (l.*2))) by (apply IH; [intros; apply H; by right|done]).
  destruct (f r); [|exact IHl]. cbn. apply NoDup_cons. split; [|exact IHl].
  rewrite (H k r) by left. intros Hr.
  apply list_elem_of_fmap in Hr as (r' & -> & Hr). apply list_elem_of_In, filter_In in Hr as [Hr _].
  apply list_elem_of_In, list_elem_of_fmap in Hr as ([k' r''] & -> & Hr). apply Hk.
  apply list_elem_of_fmap. exists (k', r''). split; [|exact Hr]. cbn. symmetry. symmetry. apply H. by right.
Qed.

(** The records of a kind, as they are listed. *)
Lemma memory_listed m kind :
  memory_filed m →
  let l := List.filter (λ r, record_kind r =! kind) (snd <$> merge_sort keyed_le (map_to_list m.(records))) in
  StronglySorted (λ a b, str_le (record_key a).(key_id) (record_key b).(key_id)) l
  ∧ NoDup (record_key <$> l)
  ∧ ∀ r, r ∈ l ↔ m.(records) !! record_key r = Some r ∧ record_kind r = kind.
Proof.
  intros Hf l. set (sorted := merge_sort keyed_le (map_to_list m.(records))) in *.
  assert (Hin : ∀ k r, (k, r) ∈ sorted ↔ m.(records) !! k = Some r).
  { intros k r. unfold sorted. rewrite merge_sort_Permutation. apply elem_of_map_to_list. }
  assert (Hl : ∀ r, r ∈ l ↔ m.(records) !! record_key r = Some r ∧ record_kind r = kind).
  { intros r. unfold l. rewrite list_elem_of_In, filter_In, <-list_elem_of_In, bool_decide_eq_true, list_elem_of_fmap.
    split.
    - intros [([k r'] & -> & Hk) Hr]. split; [|done]. apply Hin in Hk. cbn in *. by rewrite (Hf _ _ Hk).
    - intros [Hr Hk]. split; [|done]. exists (record_key r, r). split; [done|]. by apply Hin. }
  split_and!; [| |done].
  - apply (sorted_impl (λ a b, key_le (record_key a) (record_key b))).
    + intros a b Ha Hb Hle. apply Hl in Ha as [_ Ha], Hb as [_ Hb].
      destruct Hle as [Hlt|[_ Hle]]; [|done]. rewrite !record_key_kind, Ha, Hb in Hlt. lia.
    + apply records_sorted_filter, sorted_records.
      * intros k r Hk. apply Hin in Hk. by apply Hf.
      * apply StronglySorted_merge_sort; exact _.
  - apply sorted_keys_nodup.
    + intros k r Hk. apply Hin in Hk. by apply Hf.
    + unfold sorted. rewrite merge_sort_Permutation. apply NoDup_fst_map_to_list.
Qed.

Ltac memory_cases :=
  cbn; unfold memory_insert, memory_replace, memory_remove;
  repeat match goal with
  | |- context [if is_append_only ?k then _ else _] => destruct (is_append_only k)
  | |- context [bool_decide (is_Some (records ?s !! ?k))] =>
      let E := fresh "E" in
      destruct (records s !! k) eqn:E;
      [rewrite (bool_decide_eq_true_2 (is_Some (Some _))) by eauto
      |rewrite (bool_decide_eq_false_2 (is_Some None)) by (by intros [? ?])]
  end; cbn.

#[global] Instance memory_laws : RepositoryLaws MemoryRepository.
Proof.
  refine {| cells := records; filed := memory_filed |}.
  - intros s k r Hf Hk. by apply Hf.
  - intros s [r|r|k] Hf; memory_cases; try done; [| |by apply map_Forall_delete]; by apply map_Forall_insert_2.
  - intros s [r|r|k]; memory_cases; try done; by case_match.
  - intros s [r|r|k]; memory_cases; rewrite ?lookup_insert_eq, ?lookup_delete_eq; by try case_match.
  - intros s [r|r|k] k' Hne; cbn in Hne; memory_cases; rewrite ?lookup_insert_ne, ?lookup_delete_ne; done.
  - done.
  - intros s kind Hf. eexists. split; [reflexivity|]. by apply memory_listed.
Defined.

(** ** What follows for every repository *)

Section promised.
Context {R : Type} `{RepositoryLaws R}.

Lemma run_filed (s : R) ops : filed s → filed (store_run s ops).
Proof. revert s. induction ops as [|o ops IH]; intros s Hs; [done|]. apply IH, filed_step, Hs. Qed.

(** The cell of a key after a run: the operations on that key, in their order. *)
Definition cell_run (k : RecordKey) (ops : list StoreOp) (cell : option StoredRecord) : option StoredRecord :=
  foldl (λ c o, (cell_step o c).2) cell (List.filter (λ o, op_key o =! k) ops).

Lemma run_cells (s : R) ops k : cells (store_run s ops) !! k = cell_run k ops (cells s !! k).
Proof.
  unfold cell_run. revert s. induction ops as [|o ops IH]; intros s; [done|].
  change (store_run s (o :: ops)) with (store_run (store_step s o).2 ops). rewrite IH. cbn.
  destruct (decide (op_key o = k)) as [<-|Hne].
  - rewrite bool_decide_eq_true_2 by done. cbn. by rewrite step_cell.
  - rewrite bool_decide_eq_false_2 by done. by rewrite step_other.
Qed.

Lemma append_only_step o c r :
  is_append_only (op_key o).(key_kind) = true → c = Some r → (cell_step o c).2 = Some r.
Proof.
  intros Ha ->. destruct o; cbn in *; rewrite ?record_key_kind in Ha; try rewrite Ha; done.
Qed.

Lemma append_only_run k ops r :
  is_append_only k.(key_kind) = true → cell_run k ops (Some r) = Some r.
Proof.
  intros Ha. unfold cell_run. induction ops as [|o ops IH]; [done|]. cbn.
  destruct (decide (op_key o = k)) as [E|E].
  - rewrite bool_decide_eq_true_2 by done. cbn. rewrite (append_only_step o _ r); [exact IH|by rewrite E|done].
  - by rewrite bool_decide_eq_false_2.
Qed.
End promised.

(** Every kind has its table of the frozen schema, in the same order. *)
Lemma tables_of_kinds : table_name <$> all_kinds = V1_TABLES.
Proof. reflexivity. Qed.

(** Idempotency keys of distinct requests have distinct record keys, unless a part
    has the separator in it. *)
Lemma storage_key_inj a b :
  Forall (λ p, x00 ∉ p) [a.(api_idempotency_key'account_id); a.(api_idempotency_key'device_id);
    a.(api_idempotency_key'method); a.(api_idempotency_key'path)] →
  Forall (λ p, x00 ∉ p) [b.(api_idempotency_key'account_id); b.(api_idempotency_key'device_id);
    b.(api_idempotency_key'method); b.(api_idempotency_key'path)] →
  storage_key a = storage_key b →
  a.(api_idempotency_key'account_id) = b.(api_idempotency_key'account_id)
  ∧ a.(api_idempotency_key'device_id) = b.(api_idempotency_key'device_id)
  ∧ a.(api_idempotency_key'method) = b.(api_idempotency_key'method)
  ∧ a.(api_idempotency_key'path) = b.(api_idempotency_key'path)
  ∧ a.(api_idempotency_key'idempotency_key) = b.(api_idempotency_key'idempotency_key).
Proof.
  rewrite !Forall_cons. intros (Ha1 & Ha2 & Ha3 & Ha4 & _) (Hb1 & Hb2 & Hb3 & Hb4 & _) E. unfold storage_key in E.
  assert (Hcut : ∀ x y u v, x00 ∉ x → x00 ∉ y → x ++ [x00] ++ u = y ++ [x00] ++ v → x = y ∧ u = v).
  { intros x y u v Hx Hy Ex. apply (f_equal (split_once x00)) in Ex. cbn in Ex.
    rewrite !split_once_app in Ex by done. by simplify_eq. }
  apply Hcut in E as [E1 E]; [|done..]. apply Hcut in E as [E2 E]; [|done..].
  apply Hcut in E as [E3 E]; [|done..]. apply Hcut in E as [E4 E]; done.
Qed.

(** C36: Whatever is inserted, replaced and removed, in any order, the
    repository in memory behaves as one cell per key: a lookup gives the outcome
    of the operations on that key alone, every further operation is answered as
    its cell demands, a listing has each record of the kind exactly once, in the
    order of their identifiers, and an append-only record stays as it was first
    written. *)
Theorem memory_keeps_records (ops more : list StoreOp) (k : RecordKey) :
  let s := store_run memory_new ops in
  memory_get s k = Ok (cell_run k ops None)
  ∧ (∀ o, (store_step s o).1 = (cell_step o (cell_run (op_key o) ops None)).1)
  ∧ (∀ kind, ∃ l, memory_list s kind = Ok l
      ∧ StronglySorted (λ a b, str_le (record_key a).(key_id) (record_key b).(key_id)) l
      ∧ NoDup (record_key <$> l)
      ∧ ∀ r, r ∈ l ↔ cell_run (record_key r) ops None = Some r ∧ record_kind r = kind)
  ∧ (is_append_only k.(key_kind) = true →
      ∀ r, memory_get s k = Ok (Some r) → memory_get (store_run s more) k = Ok (Some r)).
Proof.
  intros s. assert (Hc : ∀ k, cells s !! k = cell_run k ops None) by (intros k'; unfold s; rewrite run_cells; f_equal; apply lookup_empty).
  assert (Hf : filed s) by (apply run_filed, map_Forall_empty).
  split_and!.
  - rewrite <-Hc. reflexivity.
  - intros o. by rewrite step_answer, Hc.
  - intros kind. destruct (list_kind s kind Hf) as (l & Hl & Hs & Hn & Hi). exists l. split_and!; try done.
    intros r. by rewrite Hi, Hc.
  - intros Ha r Hr. change (Ok (cells s !! k) = Ok (Some r) :> result StoreError _) in Hr.
    injection Hr as Hr. change (cells s !! k = Some r) in Hr. cut (cells (store_run s more) !! k = Some r); [by intros <-|].
    rewrite run_cells, Hr. by apply append_only_run.
Qed.
